(* ===== verification/_CoqProject ===== *)
-Q . S2P
Prelude.v
StateMonad.v
MemPool.v
MemPoolSpec.v
PoolInv.v
PoolOps.v
PoolLife.v
PoolClient.v
Machine.v
Printf.v
Sds.v
SdsSpec.v
Reply.v
Reader.v
ReaderSpec.v
ReaderStream.v
ReplyTree.v
Dict.v
Format.v
Net.v
Context.v
Session.v
Async.v
AsyncSpec.v
AsyncCommand.v
AsyncDispatch.v
Common.v
Base64.v
LogCall.v
Text.v
PoolBench.v
Http.v
HttpSpec.v
Request.v
RequestSpec.v
RequestPool.v
RequestProps.v
Connection.v
ConnectionSpec.v
Config.v
ConfigSpec.v
RedisClient.v
RedisClientSpec.v
RedisExample.v
RedisService.v
RedisServiceSpec.v
RecordSet.v
RecordSetSpec.v
SqlClient.v
SqlClientSpec.v
SqlService.v
SqlServiceSpec.v
SqlText.v
SqlTextSpec.v
Records.v
RecordsSpec.v
RecordService.v
RecordServiceSpec.v
Log.v
LogSpec.v
LogCallSpec.v
Main.v
MainSpec.v
Adapters.v
AdaptersSpec.v
Locks.v
Threads.v
Server.v
ServerSpec.v
ServerProps.v
ServerService.v
Windows.v
WindowsSpec.v
SslClient.v
