(* ===== verification/Prelude.v ===== *)
(** * NetServer: a verified model of the server, its memory pool, its services and its Redis client

    NetServer is an HTTP server.  One thread accepts connections and hands each
    descriptor through a pipe to one of a number of event threads; an event
    thread reads a request, gives it to the request manager, and sends the
    reply.  The manager keeps one handler object per connection whose request
    is not complete yet; handlers live in a memory pool of fixed-size blocks
    and parse requests with a small HTTP parser.  Settings and data sources
    come from a configuration file.  Data goes to Redis through a bundled copy
    of hiredis, and to MySQL; a record service moves the operation records that
    wait in Redis to MySQL, and everything is logged to files that are replaced
    in turn.

    ** The parts and the files that model them

    Paths are relative to [src/]; [hiredis] is [MainServer/hiredis-win32-master]
    and [server] is [MainServer/source].

    - Shared: [Prelude] (machine integers, bytes, memory blocks, outcomes and
      faults, tactics), [StateMonad] (state and outcome, used by the server's
      components), [Machine] (what the Redis client runs on: an allocator that
      may refuse, a store of reply objects, a kernel that answers each system
      call from a list, a trace), [Printf] ([snprintf] as the client uses it),
      [Text] (operations of [std::string], the splitting of lines).
    - Memory pool, [MemPool/MemChunk.h], [MemoryPool.h], [TestPool.h]:
      definitions in [MemPool]; the abstract heap in [MemPoolSpec]; the
      invariant, its preservation by the operations, construction and
      destruction in [PoolInv], [PoolOps], [PoolLife]; clients in [PoolClient];
      the benchmark [MemPool/main.cpp], [TestObj.h] in [PoolBench].
    - hiredis, dynamic strings ([sds.c]): [Sds], [SdsSpec].
    - hiredis, replies and the protocol reader ([hiredis.c] to line 668):
      [Reply], [Reader]; the reader without its buffer in [ReaderSpec], on a
      stream in [ReaderStream], replies as values in [ReplyTree].
    - hiredis, the hash table ([dict.c]): [Dict].
    - hiredis, command formatting ([hiredis.c], lines 670-932): [Format].
    - hiredis, sockets ([net.c]): [Net]; the synchronous client ([hiredis.c],
      from line 950): [Context], with whole sessions in [Session].
    - hiredis, the asynchronous client ([async.c]): [Async]; its lists and
      tables in [AsyncSpec], issuing commands in [AsyncCommand], replies,
      connection and release in [AsyncDispatch].
    - server, [Common/Common.cpp]: [Common]; Base64 against a reference
      definition in [Base64].
    - server, [Request/CHttpParse.cpp]: [Http], [HttpSpec].
    - server, [Request/CReqHandlerObj.cpp], [CMgrRequest.cpp],
      [CObjPoolTmpl.h]: [Request], over the interface [ObjectPool] with the
      laws [ObjectPoolLaws]; the invariant of the manager in [RequestSpec], the
      memory pool as an instance of the interface in [RequestPool], whole
      requests in [RequestProps].
    - server, [Connection/CEventBaseMgr.cpp], [CMainEventBase.cpp]:
      [Connection], [ConnectionSpec]; the server at work, with the events that
      are registered with libevent, the open descriptors and the destructors of
      connections, in [Server], its invariant in [ServerSpec] and [ServerProps],
      an abstract server and the simulation in [ServerService]; the Windows
      branches of [CMainEventBase.cpp] in [Windows], [WindowsSpec].
    - server, [Config/CConfiger.cpp]: [Config], [ConfigSpec].
    - server, [Redis/CRedisClient.cpp], [CUtilRedis.cpp]: [RedisClient] on top
      of [Context], [RedisClientSpec]; the example program of hiredis
      ([example.c]) in [RedisExample]; [Redis/CRedisServiceMgr.cpp]:
      [RedisService] with the clients on the heap, [RedisServiceSpec].
    - server, [Mysql/CField.cpp], [CRecord.cpp]: [RecordSet], [RecordSetSpec];
      [Mysql/CSqlClient.cpp]: [SqlClient] over a library that answers each call
      from a list, [SqlClientSpec]; [Mysql/CSqlServiceMgr.cpp]: [SqlService],
      [SqlServiceSpec]; the statements of [Mysql/CUtilSql.cpp] and
      [Common/Common.h]: [SqlText], [SqlTextSpec].
    - server, [OptRecords/CRcdLogClient.cpp]: [Records] on top of [RedisClient]
      and [SqlClient], [RecordsSpec]; [OptRecords/CRcdServiceMgr.cpp]:
      [RecordService], [RecordServiceSpec], with stopping against the running
      thread as a step relation.
    - server, [WLog/wLog.cpp]: [Log], [LogSpec]; what a message does to the
      component that logs it in [LogCall], which the parser and the clients of
      MySQL and of the record service call, and which [LogCallSpec] shows to be
      what [Log] does with the formats and arguments of their messages.
    - server, [main.cpp] and the start of [Connection/CMainEventBase.cpp]:
      [Main], which composes the parts, [MainSpec].
    - server, [Common/Locker.cpp]: [Locks], its methods as programs of pthread
      calls, threads that run them interleaved and a discipline that keeps them
      going; [Threads], the locking of the methods of the server as such
      programs.
    - hiredis, [adapters]: [Adapters] over the interface [EventLoop], whose
      calls may fail, with the laws [EventLoopLaws]; [AdaptersSpec], with the
      interface [AdapterLaws] that the three adapters implement.
    - The SSL test client, [SSLTestC/TestMain.cpp]: [SslClient], with what the
      server answers to it.

    ** How the code is modelled

    Functions keep their names.  A C struct or class is a record, and an
    operation returns the new state; a call that can go wrong returns an
    [outcome], whose faults are what the C code would do wrong (a read out of
    bounds, a use after free, a double free, an uninitialised read, a failed
    assertion, signed overflow, an exception nobody catches, exit).  A theorem
    that ends in [Ok] therefore also says that none of these happens.
    Integers have the width of the C type on LP64: [size_t], [int] and [long]
    reduce a value, [int_ok] and [llong_ok] fault where signed overflow is
    undefined.  Memory is what the code makes of it: a string is a block with a
    header and spare room, the pool works on words at addresses that the C
    allocator chooses, reply objects and callback nodes are in a store with
    addresses.

    What the code does not decide is a parameter or a list of answers: the
    allocator may refuse any request, the kernel answers any system call in
    any way its interface allows, the clock, [uuid_generate], the text of
    [strerror_r] and of floating-point conversions are arguments, the user's
    callbacks of the asynchronous client and the pool under the request
    handlers are interfaces with laws, shown to have instances.

    ** What the theorems show

    - Reader and replies: a reply that is encoded and fed to the reader comes
      back as the objects that stand for it ([reader_roundtrip]); how the bytes
      were cut does not matter ([reader_chunking]); [freeReplyObject] releases
      what was built, once ([freeReplyObject_releases], [read_then_free]).
    - Strings and tables: every [sds] operation keeps length, spare room and
      terminator consistent with the block ([sds_well_formed]); the hash table
      refines a finite map and its iterator visits each entry once
      ([dict_refines_map], [dict_iteration], [dict_release]).
    - Commands and sessions: formatting yields the protocol's encoding of the
      arguments ([format_command_correct], [format_argv_correct]) which the
      reader reads back ([command_roundtrip]); what is appended is what is sent
      ([write_conserves]); replies come in order and leave the context ready
      for the next command ([command_reply], [pipeline_fifo]); descriptors are closed once ([connect_descriptor],
      [connect_then_free]).
    - Asynchronous client: callbacks form a queue ([callback_list_fifo]);
      issuing commands refines an abstract machine ([async_command_correct]);
      each reply reaches the callback of its command ([async_read_dispatches]);
      release answers everyone ([async_free_answers_all]); and two cases in
      which the code is wrong ([failed_connect_closes_twice],
      [unexpected_message_uninitialised]).
    - Memory pool: whatever a client does, the pool behaves as a heap of
      independent arrays and ends empty ([pool_refines_heap]); size classes fit
      and are tight ([size_class_tight]); the benchmark returns and gives
      everything back ([bench_returns]).
    - The whole server: clients that behave are served as an abstract server
      serves them, however their connections and requests are interleaved
      ([clients_served]); whatever happens, each descriptor, context, event and
      SSL object is accounted for ([connections_accounted]); the Windows server
      does what the Linux server does with one thread ([windows_refines_linux]),
      except that a client that waits is answered there and not on Linux
      ([windows_waiting_client]); the SSL test client is refused
      ([ssl_client_refused]).
    - Server: handlers are neither lost nor released twice, over the memory
      pool itself, up to the closing of a connection that still waits
      ([handlers_accounted]); a request is parsed back from its
      text ([http_request_roundtrip]) and answered ([request_answer]); parsing
      ends, by its exception or with messages that quote the data and that the
      log takes or not ([http_parse_total]); idle handlers are dropped ([idle_dropped]);
      descriptors reach their thread in order ([dispatch_fifo]); replies are
      sent whole ([send_reply]); SSL objects are balanced ([ssl_connection]);
      the configuration file is read back ([config_roundtrip]); Base64 is
      Base64 and round-trips, within bounds ([encode_is_base64],
      [base64_roundtrip], [decode_bounds]).  The error properties of
      [HttpSpec], [RequestProps] and [ConnectionSpec] state what the code does
      in the cases it does not handle.
    - Redis service: a command of the server sends its words and returns what
      the reply holds, for every overload ([redis_query]); every zone gets its
      client, and the map and the clients stay in step ([client_for_zone]);
      stopping releases them all ([service_stops]); and what becomes of a
      client whose server is gone ([server_lost]).
    - MySQL service: a client, whatever it is asked for, and the service give
      back every handle and every result whatever the library answers, unless
      one of three crashes of the code stops the process ([sql_handles],
      [sql_service_handles]); a query returns the text of its results
      ([sql_result]), a record set every value of every row
      ([record_set_reads], [cursor_bounds]); statements are their formats with
      the values in place, within the buffer or past its end
      ([sql_statements]); what the check of a connection says when the server
      is gone ([sql_one_retry]).
    - Operation records: what Redis hands out is inserted in batches, each
      record once and in order, until MySQL refuses a batch that the log cannot
      quote ([records_inserted]); a client is started with
      both servers or with neither ([log_client_resources]).
    - Logging: a message becomes one line of the current file, and only old
      files are deleted ([log_message]).
    - Locks: of the threads that run the methods of the server only the clients
      of the record service misuse a mutex, when they wait, and the others never
      all wait ([threads_never_stuck]); such a client comes to its wait when its
      sets are empty ([record_client_waits]).
    - Adapters: an event loop that does not fail watches what the asynchronous
      client asked for last ([adapter_watches]); what becomes of a call that
      fails ([ae_forgets_failure]).
    - Start-up: examples of whole runs of [main] in [MainSpec].

    ** Fuel

    A loop of the source that is not structural has fuel, chosen from the data
    so that it does not run out, and the theorems prove that it does not: the
    HTTP parser and the configuration reader consume a character a turn
    ([lines_loop], [file_loop]); the Base64 decoder consumes a group a turn;
    the reader is bounded by its buffer; the size classes by the width of
    [size_t]; the free list by the number of blocks; the deletion of log files
    by the length of their list; the turns of a thread of [Threads] are a number
    that the theorem leaves open.  The loops around [recv],
    [send] and [read] consume one answer of the kernel a turn; a loop that asks
    for more than the given answers is reported as blocked, which is the
    statement of [waiting_client_blocks].

    ** What is not modelled

    The test program of hiredis, and the Windows branches of hiredis, of
    [Common.cpp], of logging and of the locks, which do with other calls what the
    Linux code does.  libevent is what its interface
    promises: it calls the callback of any event that is added, and callbacks are
    not interleaved in [Server].  Data and locks are interleaved apart: the models
    of the components run one operation at a time and keep the state of the
    mutexes they use, and [Threads] runs the locking of the operations
    interleaved, with the data left open.  Construction and destruction of locks
    are not steps there, and a join is taken to return; stopping the record
    service against its thread is in [RecordServiceSpec].  Of the messages for
    the log those that quote data of a client or of Redis, or a statement, are
    modelled with what they do to the process ([LogCall]); a request handler
    drops the messages of its parser, whose effect is a property of the parser
    ([http_parse_total]).  The other messages, which are fixed texts or quote the
    configuration, numbers and addresses, are left out.  The headers of OpenSSL, libevent, libmysql and
    pthreads are third-party code; their calls are answered by lists of answers. *)

From stdpp Require Import base tactics list numbers strings gmap.
From Stdlib Require Import ZArith Lia Ascii.
From Stdlib Require String.

Local Open Scope Z_scope.

Declare Scope c_scope.
Delimit Scope c_scope with C.

(** * Machine integers (LP64) *)

(** Conversion to a [w]-bit unsigned type: reduction modulo [2^w]. *)
Definition unsigned (w z : Z) : Z := z mod 2 ^ w.

(** Conversion to a [w]-bit signed type: the two's complement representative. *)
Definition signed (w z : Z) : Z := (z + 2 ^ (w - 1)) mod 2 ^ w - 2 ^ (w - 1).

Abbreviation size_t z := (unsigned 64 z).
Abbreviation ulong z := (unsigned 64 z).
Abbreviation uint z := (unsigned 32 z).
Abbreviation int z := (signed 32 z).
Abbreviation long z := (signed 64 z).

Definition INT_MIN : Z := -2147483648.
Definition INT_MAX : Z := 2147483647.
Definition LLONG_MIN : Z := -9223372036854775808.
Definition LLONG_MAX : Z := 9223372036854775807.
Definition SIZE_MAX : Z := 18446744073709551615.

Lemma unsigned_id w z : 0 <= z < 2 ^ w -> unsigned w z = z.
Proof. intros. unfold unsigned. by apply Z.mod_small. Qed.

Lemma unsigned_range w z : 0 <= w -> 0 <= unsigned w z < 2 ^ w.
Proof. intros. unfold unsigned. apply Z.mod_pos_bound. lia. Qed.

Lemma signed_id w z : 0 < w -> - 2 ^ (w - 1) <= z < 2 ^ (w - 1) -> signed w z = z.
Proof.
  intros Hw Hz. unfold signed.
  assert (2 ^ w = 2 * 2 ^ (w - 1)) as E.
  { rewrite <- Z.pow_succ_r by lia. f_equal. lia. }
  rewrite Z.mod_small; lia.
Qed.

Lemma signed_range w z : 0 < w -> - 2 ^ (w - 1) <= signed w z < 2 ^ (w - 1).
Proof.
  intros Hw. unfold signed.
  assert (2 ^ w = 2 * 2 ^ (w - 1)) as E.
  { rewrite <- Z.pow_succ_r by lia. f_equal. lia. }
  pose proof (Z.mod_pos_bound (z + 2 ^ (w - 1)) (2 ^ w) ltac:(lia)). lia.
Qed.

Lemma size_t_id z : 0 <= z <= SIZE_MAX -> size_t z = z.
Proof. unfold SIZE_MAX. intros. apply unsigned_id. lia. Qed.

Lemma int_id z : INT_MIN <= z <= INT_MAX -> int z = z.
Proof. unfold INT_MIN, INT_MAX. intros. apply signed_id; lia. Qed.

Lemma long_id z : LLONG_MIN <= z <= LLONG_MAX -> long z = z.
Proof. unfold LLONG_MIN, LLONG_MAX. intros. apply signed_id; lia. Qed.

Lemma int_range z : INT_MIN <= int z <= INT_MAX.
Proof. unfold INT_MIN, INT_MAX. pose proof (signed_range 32 z). lia. Qed.

Lemma size_t_range z : 0 <= size_t z <= SIZE_MAX.
Proof. unfold SIZE_MAX. pose proof (unsigned_range 64 z). lia. Qed.

(** * Bytes and strings *)

(** A [char] is the value 0..255 of its byte; [schar] is its value when the
    source uses it as a (signed) number. *)
Abbreviation char := Z (only parsing).

Definition schar (c : char) : Z := signed 8 c.

Definition is_char (c : char) : Prop := 0 <= c < 256.

(** The bytes of a string literal (without its terminating NUL). *)
Definition lit (s : string) : list char :=
  (fun a => Z.of_N (N_of_ascii a)) <$> String.list_ascii_of_string s.

Definition NUL : char := 0.
Definition CR : char := 13.
Definition LF : char := 10.
Definition DQUOTE : char := 34.
Definition BACKSLASH : char := 92.
Definition CRLF : list char := [CR; LF].

(** [zlen l] is the length of [l] as a number of the program. *)
Abbreviation zlen l := (Z.of_nat (length l)).

(** [strlen] of the C string that starts at the head of the region; [None]
    when the region holds no NUL. *)
Fixpoint strlen (s : list char) : option Z :=
  match s with
  | [] => None
  | c :: s' => if Z.eqb c NUL then Some 0 else Z.succ <$> strlen s'
  end.

(** The contents of the C string that starts at the head of the region. *)
Fixpoint cstring (s : list char) : list char :=
  match s with
  | [] => []
  | c :: s' => if Z.eqb c NUL then [] else c :: cstring s'
  end.

(** [ctype.h] in the C locale. *)
Definition isdigit (c : char) : bool := (48 <=? c) && (c <=? 57).
Definition isspace (c : char) : bool := (c =? 32) || ((9 <=? c) && (c <=? 13)).
Definition isprint (c : char) : bool := (32 <=? c) && (c <=? 126).
Definition tolower (c : char) : char := if (65 <=? c) && (c <=? 90) then c + 32 else c.
Definition toupper (c : char) : char := if (97 <=? c) && (c <=? 122) then c - 32 else c.

(** [strchr(cset, c) != NULL]: the terminating NUL belongs to the string. *)
Definition strchr (cset : list char) (c : char) : bool :=
  (c =? NUL) || existsb (Z.eqb c) (cstring cset).

(** [memcmp] of two regions of the same length: the difference of the first
    pair of bytes that differ. *)
Fixpoint memcmp (a b : list char) : Z :=
  match a, b with
  | x :: a', y :: b' => if Z.eqb x y then memcmp a' b' else x - y
  | _, _ => 0
  end.

(** * Outcomes *)

(** What a run that does not return ends in: a failed [assert], undefined
    behaviour of one kind or another, a call of the kernel that never returns,
    a C++ exception that nobody catches, a call of [exit], or the end of a
    loop's fuel. *)
Inductive fault :=
| AssertFailed
| OutOfBounds
| NullDeref
| SignedOverflow
| UseAfterFree
| BadVararg
| Uninitialised
| Blocks
| Thrown
| DivisionByZero
| Exited
| OutOfFuel.

Inductive outcome (A : Type) :=
| Ok (a : A)
| Fault (f : fault).
Arguments Ok {A} a.
Arguments Fault {A} f.

#[export] Instance fault_eq_dec : EqDecision fault.
Proof. solve_decision. Defined.

#[export] Instance outcome_eq_dec `{EqDecision A} : EqDecision (outcome A).
Proof. solve_decision. Defined.

Definition obind {A B} (m : outcome A) (k : A -> outcome B) : outcome B :=
  match m with Ok a => k a | Fault f => Fault f end.

Notation "'let!' x := m 'in' k" := (obind m (fun x => k))
  (at level 10, x pattern, m at level 200, k at level 200,
   format "'[v' 'let!'  x  :=  m  'in' '/' k ']'") : c_scope.
Open Scope c_scope.

Lemma obind_ok {A B} (m : outcome A) (k : A -> outcome B) a : m = Ok a -> obind m k = k a.
Proof. by intros ->. Qed.

(** Checked access to a region of bytes. *)
Definition mem_read (b : list char) (off n : Z) : outcome (list char) :=
  if (0 <=? off) && (0 <=? n) && (off + n <=? zlen b)
  then Ok (take (Z.to_nat n) (drop (Z.to_nat off) b))
  else Fault OutOfBounds.

Definition mem_write (b : list char) (off : Z) (d : list char) : outcome (list char) :=
  if (0 <=? off) && (off + zlen d <=? zlen b)
  then Ok (take (Z.to_nat off) b ++ d ++ drop (Z.to_nat off + length d) b)
  else Fault OutOfBounds.

Definition mem_get (b : list char) (off : Z) : outcome char :=
  if 0 <=? off
  then match b !! Z.to_nat off with Some c => Ok c | None => Fault OutOfBounds end
  else Fault OutOfBounds.

(** Signed arithmetic: overflow is undefined behaviour. *)
Definition int_ok (z : Z) : outcome Z :=
  if (INT_MIN <=? z) && (z <=? INT_MAX) then Ok z else Fault SignedOverflow.
Definition llong_ok (z : Z) : outcome Z :=
  if (LLONG_MIN <=? z) && (z <=? LLONG_MAX) then Ok z else Fault SignedOverflow.

(** * Lemmas and automation shared by the components *)

Create Rewrite HintDb cint.
#[export] Hint Rewrite size_t_id int_id long_id using
  (unfold INT_MIN, INT_MAX, LLONG_MIN, LLONG_MAX, SIZE_MAX in *; lia) : cint.

(** Discharge bounds stated with the limits of the integer types. *)
Ltac climits :=
  unfold INT_MIN, INT_MAX, LLONG_MIN, LLONG_MAX, SIZE_MAX in *; lia.

(** Remove the conversions that are the identity in the current context. *)
Ltac cint := autorewrite with cint in *.

(** Decide the boolean tests of the goal by arithmetic. *)
Ltac cdecide := first [lia | climits | unfold NUL, CR, LF, DQUOTE, BACKSLASH in *; lia].
Ltac btrue b := replace b with true by (symmetry; cdecide).
Ltac bfalse b := replace b with false by (symmetry; cdecide).

(** Case analysis on an integer test, with its meaning as a hypothesis. *)
Ltac case_ltb :=
  match goal with
  | |- context [?a <? ?b] => destruct (Z.ltb_spec a b)
  | |- context [?a <=? ?b] => destruct (Z.leb_spec a b)
  | |- context [?a =? ?b] => destruct (Z.eqb_spec a b)
  end.

Lemma mem_read_ok b off n :
  0 <= off -> 0 <= n -> off + n <= zlen b ->
  mem_read b off n = Ok (take (Z.to_nat n) (drop (Z.to_nat off) b)).
Proof. intros. unfold mem_read. btrue ((0 <=? off) && (0 <=? n) && (off + n <=? zlen b)). done. Qed.

Lemma mem_write_ok b off d :
  0 <= off -> off + zlen d <= zlen b ->
  mem_write b off d = Ok (take (Z.to_nat off) b ++ d ++ drop (Z.to_nat off + length d) b).
Proof. intros. unfold mem_write. btrue ((0 <=? off) && (off + zlen d <=? zlen b)). done. Qed.

Lemma mem_write_length b off d b' : mem_write b off d = Ok b' -> length b' = length b.
Proof.
  unfold mem_write. destruct (_ && _) eqn:E; [|done]. intros [= <-].
  rewrite !length_app, length_take, length_drop. lia.
Qed.

Lemma mem_get_ok b off c : 0 <= off -> b !! Z.to_nat off = Some c -> mem_get b off = Ok c.
Proof. intros ? E. unfold mem_get. btrue (0 <=? off). by rewrite E. Qed.

Lemma take_drop_app_write (b d : list Z) (off : nat) :
  (off + length d <= length b)%nat ->
  take (off + length d) (take off b ++ d ++ drop (off + length d) b) = take off b ++ d.
Proof.
  intros. rewrite app_assoc, take_app_le by (rewrite length_app, length_take; lia).
  apply take_ge. rewrite length_app, length_take. lia.
Qed.

Lemma cstring_app_nul s t : Forall (fun c => c <> NUL) s -> cstring (s ++ NUL :: t) = s.
Proof.
  induction 1 as [|c s Hc Hs IH]; cbn; [done|].
  destruct (Z.eqb_spec c NUL); [done|]. by rewrite IH.
Qed.

(** Without a NUL the length is past the end. *)
Lemma strlen_past s : Forall (fun c => c <> NUL) s -> strlen s = None.
Proof. induction 1 as [|c s Hc _ IH]; [done|]. cbn. apply Z.eqb_neq in Hc. by rewrite Hc, IH. Qed.

Lemma strlen_app_nul s t : Forall (fun c => c <> NUL) s -> strlen (s ++ NUL :: t) = Some (zlen s).
Proof.
  induction 1 as [|c s Hc Hs IH]; cbn [strlen app length]; [done|].
  destruct (Z.eqb_spec c NUL); [done|]. rewrite IH. cbn. f_equal. lia.
Qed.

Lemma memcmp_refl a : memcmp a a = 0.
Proof. induction a; cbn; [done|]. by rewrite Z.eqb_refl. Qed.

Lemma memcmp_eq a b : length a = length b -> memcmp a b = 0 <-> a = b.
Proof.
  revert b; induction a as [|x a IH]; intros [|y b] Hl; cbn in *; try done.
  injection Hl as Hl. destruct (Z.eqb_spec x y) as [->|Hne].
  - rewrite (IH b Hl). split; [by intros ->|by intros [= ->]].
  - split; [intros; lia|by intros [=]].
Qed.

Lemma length_1_inv {A} (l : list A) : length l = 1%nat -> exists x, l = [x].
Proof. destruct l as [|x [|? ?]]; cbn; try done. eauto. Qed.

(** Overwriting the middle of a region. *)
Lemma mem_write_app a m z d off :
  off = zlen a -> length d = length m -> mem_write (a ++ m ++ z) off d = Ok (a ++ d ++ z).
Proof.
  intros -> Hl. rewrite mem_write_ok by (rewrite ?length_app; lia).
  rewrite Nat2Z.id, take_app_length, Hl, (app_assoc a m z), <- length_app, drop_app_length. done.
Qed.

Lemma mem_read_app a m z off n :
  off = zlen a -> n = zlen m -> mem_read (a ++ m ++ z) off n = Ok m.
Proof.
  intros -> ->. rewrite mem_read_ok by (rewrite ?length_app; lia).
  by rewrite !Nat2Z.id, drop_app_length, take_app_length.
Qed.

Lemma mem_get_app a c z off : off = zlen a -> mem_get (a ++ c :: z) off = Ok c.
Proof.
  intros ->. apply mem_get_ok; [lia|]. rewrite Nat2Z.id. by apply list_lookup_middle.
Qed.

Lemma list_split_at {A} (n : nat) (l : list A) :
  (n <= length l)%nat -> exists a b, l = a ++ b /\ length a = n.
Proof. intros. exists (take n l), (drop n l). rewrite take_drop, length_take. split; [done|lia]. Qed.

(** Elements of a list that a key without repetitions tells apart. *)
Lemma NoDup_fmap_elem {A B} (f : A -> B) (l : list A) x y :
  NoDup (f <$> l) -> x ∈ l -> y ∈ l -> f x = f y -> x = y.
Proof.
  intros Hnd [i Hi]%list_elem_of_lookup [j Hj]%list_elem_of_lookup Hf.
  assert (i = j) as ->; [|congruence].
  apply (NoDup_lookup (f <$> l) i j (f x)); [done| |]; rewrite list_lookup_fmap.
  - by rewrite Hi.
  - rewrite Hj. cbn. by rewrite Hf.
Qed.
