(* ===== verification/StateMonad.v ===== *)
(** The monad of the components of the server: a state and an outcome.  Each
    component instantiates it with the part of the process it works on. *)

From stdpp Require Import base tactics.
From S2P Require Import Prelude.

Declare Scope do_scope.
Delimit Scope do_scope with do.

Definition SM (S A : Type) : Type := S -> outcome (A * S).

Section monad.
Context {S : Type}.

Definition sret {A} (a : A) : SM S A := fun s => Ok (a, s).
Definition scrash {A} (f : fault) : SM S A := fun _ => Fault f.
Definition sbind {A B} (m : SM S A) (k : A -> SM S B) : SM S B :=
  fun s => match m s with Ok (a, s') => k a s' | Fault f => Fault f end.
Definition sget : SM S S := fun s => Ok (s, s).
Definition sput (s : S) : SM S unit := fun _ => Ok (tt, s).
Definition smodify (f : S -> S) : SM S unit := fun s => Ok (tt, f s).
Definition slift {A} (o : outcome A) : SM S A :=
  fun s => match o with Ok a => Ok (a, s) | Fault f => Fault f end.

(** [assert(b)]. *)
Definition sassert (b : bool) : SM S unit := if b then sret tt else scrash AssertFailed.

Lemma sbind_ok {A B} (m : SM S A) (k : A -> SM S B) s a s' : m s = Ok (a, s') -> sbind m k s = k a s'.
Proof. intros E. unfold sbind. by rewrite E. Qed.

Lemma sbind_fault {A B} (m : SM S A) (k : A -> SM S B) s f : m s = Fault f -> sbind m k s = Fault f.
Proof. intros E. unfold sbind. by rewrite E. Qed.

(** Only what the first call does in this state matters. *)
Lemma sbind_run {A B} (m m' : SM S A) (k : A -> SM S B) s s' : m s = m' s' -> sbind m k s = sbind m' k s'.
Proof. unfold sbind. by intros ->. Qed.

Lemma sbind_assoc {A B C} (m : SM S A) (k : A -> SM S B) (k' : B -> SM S C) s :
  sbind (sbind m k) k' s = sbind m (fun a => sbind (k a) k') s.
Proof. unfold sbind. by destruct (m s) as [[]|]. Qed.

Lemma sbind_ret {A B} (a : A) (k : A -> SM S B) s : sbind (sret a) k s = k a s.
Proof. done. Qed.

Lemma sassert_true {B} b (k : unit -> SM S B) s : b = true -> sbind (sassert b) k s = k tt s.
Proof. by intros ->. Qed.

(** * Total correctness: [m] returns from [s], with a result and a state that
    satisfy [Q]. *)
Definition wp {A} (m : SM S A) (Q : A -> S -> Prop) (s : S) : Prop :=
  match m s with Ok (a, s') => Q a s' | Fault _ => False end.

Lemma wp_returns {A} (m : SM S A) Q s : wp m Q s <-> exists a s', m s = Ok (a, s') /\ Q a s'.
Proof.
  unfold wp. destruct (m s) as [[a s']|f]; split; [by exists a, s'|by intros (? & ? & [= <- <-] & ?)|done|by intros (? & ? & ? & ?)].
Qed.

Lemma wp_run {A} (m : SM S A) Q s a s' : m s = Ok (a, s') -> Q a s' -> wp m Q s.
Proof. intros E. unfold wp. by rewrite E. Qed.

Lemma wp_mono {A} (m : SM S A) (Q Q' : A -> S -> Prop) s : wp m Q s -> (forall a s', Q a s' -> Q' a s') -> wp m Q' s.
Proof. unfold wp. destruct (m s) as [[a s']|]; eauto. Qed.

Lemma wp_ret {A} (a : A) (Q : A -> S -> Prop) s : Q a s -> wp (sret a) Q s.
Proof. done. Qed.

Lemma wp_bind {A B} (m : SM S A) (k : A -> SM S B) Q s : wp m (fun a => wp (k a) Q) s -> wp (sbind m k) Q s.
Proof. unfold wp, sbind. by destruct (m s) as [[a s']|]. Qed.

Lemma wp_lift {A} (o : outcome A) (a : A) (Q : A -> S -> Prop) s : o = Ok a -> Q a s -> wp (slift o) Q s.
Proof. by intros ->. Qed.

(** * The same, but the run may stop with one of the faults [P]. *)
Definition wpf {A} (P : fault -> Prop) (m : SM S A) (Q : A -> S -> Prop) (s : S) : Prop :=
  match m s with Ok (a, s') => Q a s' | Fault f => P f end.

Lemma wpf_wp {A} P (m : SM S A) Q s : wp m Q s -> wpf P m Q s.
Proof. unfold wp, wpf. by destruct (m s) as [[a s']|]. Qed.

Lemma wpf_mono {A} (P P' : fault -> Prop) (m : SM S A) (Q Q' : A -> S -> Prop) s :
  wpf P m Q s -> (forall f, P f -> P' f) -> (forall a s', Q a s' -> Q' a s') -> wpf P' m Q' s.
Proof. unfold wpf. destruct (m s) as [[a s']|]; eauto. Qed.

Lemma wpf_ret {A} P (a : A) (Q : A -> S -> Prop) s : Q a s -> wpf P (sret a) Q s.
Proof. done. Qed.

Lemma wpf_bind {A B} P (m : SM S A) (k : A -> SM S B) Q s : wpf P m (fun a => wpf P (k a) Q) s -> wpf P (sbind m k) Q s.
Proof. unfold wpf, sbind. by destruct (m s) as [[a s']|]. Qed.

Lemma wpf_lift {A} P (o : outcome A) (Q : A -> S -> Prop) s :
  match o with Ok a => Q a s | Fault f => P f end -> wpf P (slift o) Q s.
Proof. unfold wpf, slift. by destruct o. Qed.
End monad.

Notation "'do*' x := m 'in' k" := (sbind m (fun x => k))
  (at level 10, x pattern, m at level 200, k at level 200,
   format "'[v' 'do*'  x  :=  m  'in' '/' k ']'") : do_scope.
Open Scope do_scope.

(** Runs the first call of the goal, which the hypothesis describes. *)
Ltac run H := rewrite (sbind_ok _ _ _ _ _ H).
