(* ===== verification/MemPool.v ===== *)
(** The memory pool ([src/MemPool]): [MemChunk.h], [MemoryPool.h] and the object
    manager of [TestPool.h] (the server has the same code in
    [Request/CObjPoolTmpl.h]).

    Memory is modelled at the level the code works on: words of eight bytes at
    addresses, blocks of the C allocator, and the headers that the pool writes
    in front of the memory it hands out.  The C allocator is a parameter: it
    may answer every request as it likes, within its contract. *)

From stdpp Require Import base tactics list numbers gmap.
From S2P Require Import Prelude StateMonad.

Local Open Scope Z_scope.

(** * Memory *)

(** [pFreeList], [size], [count] and the state of [hMutex]; [pNext] is never
    written. *)
Record MemoryChunk := mkChunk { ch_free : Z; ch_size : Z; ch_count : Z; ch_locked : bool }.

(** The words of the allocated memory, the blocks of the C allocator with their
    sizes, the chunk objects, and the number of requests so far. *)
Record pmem := mkMem {
  m_words : gmap Z Z;
  m_blocks : gmap Z Z;
  m_chunks : gmap Z MemoryChunk;
  m_step : nat
}.

(** The C allocator: the address for the [k]-th request, of [n] bytes, when the
    blocks are allocated, or a refusal; and what new memory holds. *)
Class Malloc := { pick : nat -> gmap Z Z -> Z -> option Z; junk : nat -> Z -> Z }.

(** The contract of [malloc]: a block aligned for every type, apart from the
    blocks in use. *)
Class MallocLaws `{Malloc} := pick_fits k bl n a :
  0 < n -> pick k bl n = Some a ->
  0 < a /\ a mod 16 = 0 /\ forall b m, bl !! b = Some m -> 0 < m -> a + n <= b \/ b + m <= a.

Abbreviation PM := (SM pmem).

Definition set_words (m : gmap Z Z) (s : pmem) : pmem := mkMem m (m_blocks s) (m_chunks s) (m_step s).
Definition set_chunk (a : Z) (c : MemoryChunk) (s : pmem) : pmem :=
  mkMem (m_words s) (m_blocks s) (<[a := c]> (m_chunks s)) (m_step s).

(** The addresses of the words of a block: those that are inside it as a whole. *)
Definition words_of (a n : Z) : list Z := (fun i => a + 8 * Z.of_nat i) <$> seq 0 (Z.to_nat (n / 8)).

Definition load (a : Z) : PM Z :=
  fun s => match m_words s !! a with Some v => Ok (v, s) | None => Fault OutOfBounds end.
Definition store (a v : Z) : PM unit :=
  fun s => match m_words s !! a with
           | Some _ => Ok (tt, set_words (<[a := v]> (m_words s)) s)
           | None => Fault OutOfBounds
           end.
Definition get_chunk (a : Z) : PM MemoryChunk :=
  fun s => match m_chunks s !! a with Some c => Ok (c, s) | None => Fault UseAfterFree end.
Definition put_chunk (a : Z) (c : MemoryChunk) : PM unit := fun s => Ok (tt, set_chunk a c s).

Section pool.
Context `{Malloc}.

Definition fill (a n : Z) (s : pmem) : gmap Z Z :=
  foldr (fun x m => <[x := junk (m_step s) x]> m) (m_words s) (words_of a n).

(** [::malloc(n)]; 0 is NULL. *)
Definition c_malloc (n : Z) : PM Z := fun s =>
  match pick (m_step s) (m_blocks s) n with
  | Some a => Ok (a, mkMem (fill a n s) (<[a := n]> (m_blocks s)) (m_chunks s) (S (m_step s)))
  | None => Ok (0, mkMem (m_words s) (m_blocks s) (m_chunks s) (S (m_step s)))
  end.

(** [::free(a)]. *)
Definition c_free (a : Z) : PM unit := fun s =>
  match m_blocks s !! a with
  | Some n => Ok (tt, mkMem (foldr delete (m_words s) (words_of a n)) (delete a (m_blocks s)) (m_chunks s) (m_step s))
  | None => Fault UseAfterFree
  end.

(** [new] of an array: a refusal is an exception. *)
Definition c_new (n : Z) : PM Z :=
  do* a := c_malloc n in
  if a =? 0 then scrash Thrown else sret a.

(** * MemoryChunk *)

Definition HEADER : Z := 16.   (* sizeof(BlockHeader) *)
Definition SIZEOF_CHUNK : Z := 72.

(** [LOCK(hMutex)] of a mutex that the thread holds never returns. *)
Definition LOCK (this : Z) : PM unit :=
  do* c := get_chunk this in
  if ch_locked c then scrash Blocks
  else put_chunk this (mkChunk (ch_free c) (ch_size c) (ch_count c) true).
Definition UNLOCK (this : Z) : PM unit :=
  do* c := get_chunk this in
  put_chunk this (mkChunk (ch_free c) (ch_size c) (ch_count c) false).

(** [this->pFreeList = p]. *)
Definition set_pFreeList (this p : Z) : PM unit :=
  do* c := get_chunk this in
  put_chunk this (mkChunk p (ch_size c) (ch_count c) (ch_locked c)).

(** A block is [header.pChunk], [header.len], then [data]. *)
Definition CreateBlock (this : Z) : PM Z :=
  do* c := get_chunk this in
  do* pBlock := c_malloc (size_t (HEADER + ch_size c)) in
  if negb (pBlock =? 0) then
    do* _ := store pBlock this in
    do* _ := store (pBlock + 8) (ch_size c) in
    do* count := slift (int_ok (ch_count c + 1)) in
    do* _ := put_chunk this (mkChunk (ch_free c) (ch_size c) count (ch_locked c)) in
    sret pBlock
  else sret pBlock.

Definition DeleteBlock (pBlock : Z) : PM unit := c_free pBlock.

(** [pBlock->data.pNext = pFreeList; pFreeList = pBlock]. *)
Definition push_block (this pBlock : Z) : PM unit :=
  do* c := get_chunk this in
  do* _ := store (pBlock + HEADER) (ch_free c) in
  set_pFreeList this pBlock.

(** [while(count--)]; the only call passes 1000. *)
Fixpoint create_loop (count : nat) (this : Z) : PM unit :=
  match count with
  | O => sret tt
  | S n =>
      do* pBlock := CreateBlock this in
      if pBlock =? 0 then sret tt
      else
        do* _ := push_block this pBlock in
        create_loop n this
  end.

(** [new MemoryChunk(size, count)]. *)
Definition new_MemoryChunk (size : Z) (count : nat) : PM Z :=
  do* this := c_new SIZEOF_CHUNK in
  do* _ := put_chunk this (mkChunk 0 size 0 false) in
  do* _ := create_loop count this in
  sret this.

(** [while(pBlock=pFreeList)]: every turn gives a block back. *)
Fixpoint delete_loop (fuel : nat) (this tempcount : Z) : PM Z :=
  match fuel with
  | O => scrash OutOfFuel
  | S f =>
      do* c := get_chunk this in
      let pBlock := ch_free c in
      if pBlock =? 0 then sret tempcount
      else
        do* next := load (pBlock + HEADER) in
        do* _ := set_pFreeList this next in
        do* _ := DeleteBlock pBlock in
        do* tempcount := slift (int_ok (tempcount + 1)) in
        delete_loop f this tempcount
  end.

(** [delete] of a chunk: the destructor, then the object. *)
Definition delete_MemoryChunk (this : Z) : PM unit :=
  do* s := sget in
  do* tempcount := delete_loop (S (size (m_blocks s))) this 0 in
  do* c := get_chunk this in
  do* _ := sassert (tempcount =? ch_count c) in
  do* _ := smodify (fun s => mkMem (m_words s) (m_blocks s) (delete this (m_chunks s)) (m_step s)) in
  c_free this.

Definition chunk_malloc (this : Z) : PM Z :=
  do* _ := LOCK this in
  do* c := get_chunk this in
  if negb (ch_free c =? 0) then
    let pBlock := ch_free c in
    do* next := load (pBlock + HEADER) in
    do* _ := set_pFreeList this next in
    do* _ := UNLOCK this in
    sret (pBlock + HEADER)
  else
    do* pBlock := CreateBlock this in
    if pBlock =? 0 then
      do* _ := UNLOCK this in
      sret 0
    else
      do* _ := UNLOCK this in
      sret (pBlock + HEADER).

Definition free_block (this pBlock : Z) : PM unit :=
  do* _ := LOCK this in
  do* _ := push_block this pBlock in
  UNLOCK this.

(** The static [MemoryChunk::free]. *)
Definition chunk_free (pMem : Z) : PM unit :=
  let pBlock := pMem - HEADER in
  do* pChunk := load pBlock in
  free_block pChunk pBlock.

(** * MemoryPool *)

Definition MAX_SIZE : Z := 1024.
Definition MIN_SIZE : Z := 8.

Record MemoryPool := mkPool { pChunkList : Z; chunkcount : Z }.

(** The loops over the sizes [MIN_SIZE], [2 * MIN_SIZE], ... [MAX_SIZE]: eight
    turns, so nine rounds of fuel are enough. *)
Definition SIZES : nat := 9.

Fixpoint count_loop (fuel : nat) (sz chunkcount : Z) : outcome Z :=
  match fuel with
  | O => Fault OutOfFuel
  | S f => if sz <=? MAX_SIZE then count_loop f (size_t (sz * 2)) (chunkcount + 1) else Ok chunkcount
  end.

Fixpoint chunks_loop (fuel : nat) (arr sz index : Z) : PM unit :=
  match fuel with
  | O => scrash OutOfFuel
  | S f =>
      if sz <=? MAX_SIZE then
        do* c := new_MemoryChunk sz 1000 in
        do* _ := store (arr + 8 * index) c in
        chunks_loop f arr (size_t (sz * 2)) (index + 1)
      else sret tt
  end.

Definition new_MemoryPool : PM MemoryPool :=
  do* count := slift (count_loop SIZES MIN_SIZE 0) in
  do* arr := c_new (8 * count) in
  do* _ := chunks_loop SIZES arr MIN_SIZE 0 in
  sret (mkPool arr count).

(** [for(int index=0; index<chunkcount; ++index)]. *)
Fixpoint delete_chunks (n : nat) (arr index : Z) : PM unit :=
  match n with
  | O => sret tt
  | S n =>
      do* c := load (arr + 8 * index) in
      do* _ := delete_MemoryChunk c in
      delete_chunks n arr (index + 1)
  end.

Definition delete_MemoryPool (pool : MemoryPool) : PM unit :=
  do* _ := delete_chunks (Z.to_nat (chunkcount pool)) (pChunkList pool) 0 in
  c_free (pChunkList pool).

(** A large allocation is [header.size], then the memory. *)
Definition HEAP_HEADER : Z := 8.   (* sizeof(HeapHeader) *)

Definition pool_malloc (size : Z) : PM Z :=
  do* pHeap := c_malloc (size_t (HEAP_HEADER + size)) in
  if negb (pHeap =? 0) then
    do* _ := store pHeap size in
    sret (pHeap + HEAP_HEADER)
  else sret 0.

Definition pool_free (pMem : Z) : PM bool :=
  let pHeap := pMem - HEAP_HEADER in
  do* size := load pHeap in
  if MAX_SIZE <? size then
    do* _ := c_free pHeap in
    sret true
  else sret false.

Fixpoint class_loop (fuel : nat) (size tsize index : Z) : outcome Z :=
  match fuel with
  | O => Fault OutOfFuel
  | S f =>
      if tsize <=? MAX_SIZE then
        if size <=? tsize then Ok index
        else class_loop f size (size_t (tsize * 2)) (index + 1)
      else Ok index
  end.

(** [MemoryPool::Malloc] and [MemoryPool::Free]. *)
Definition pool_Malloc (pool : MemoryPool) (size : Z) : PM Z :=
  if MAX_SIZE <? size then pool_malloc size
  else
    do* index := slift (class_loop SIZES size MIN_SIZE 0) in
    do* c := load (pChunkList pool + 8 * index) in
    chunk_malloc c.

Definition pool_Free (pool : MemoryPool) (pMem : Z) : PM unit :=
  do* big := pool_free pMem in
  if negb big then chunk_free pMem else sret tt.

(** * ObjectManager *)

(** The constructor and the destructor of [T] are parameters: functions of the
    address of the object.  Placement [new] at NULL constructs nothing (the
    placement allocation function is declared not to throw: C++03, 5.3.4/13). *)
Definition Create (sizeof_T : Z) (construct : Z -> PM unit) (pool : MemoryPool) : PM Z :=
  do* pobject := pool_Malloc pool sizeof_T in
  if pobject =? 0 then sret 0
  else
    do* _ := construct pobject in
    sret pobject.

Definition Delete (destroy : Z -> PM unit) (pool : MemoryPool) (pobject : Z) : PM unit :=
  do* _ := destroy pobject in
  pool_Free pool pobject.
End pool.
