(* ===== verification/MemPoolSpec.v ===== *)
(** The memory pool against an abstract heap.

    Whatever a client does with the pool, each piece of memory it is given is
    its own: what it writes there is what it reads there, until it gives the
    piece back.  The headers and free lists that the pool keeps between the
    pieces stay intact, [Free] finds the owner of every piece, and when all
    pieces are back the destructor returns every block to the C allocator. *)

From stdpp Require Import base tactics list numbers gmap.
From S2P Require Import Prelude StateMonad MemPool.

Local Open Scope Z_scope.

(** * Blocks of memory *)

(** Blocks are apart from each other, and words are in blocks. *)
Record mem_wf (s : pmem) : Prop := {
  wf_block b n : m_blocks s !! b = Some n -> 0 < b /\ 0 < n;
  wf_apart b n b' n' : m_blocks s !! b = Some n -> m_blocks s !! b' = Some n' -> b <> b' -> b + n <= b' \/ b' + n' <= b;
  wf_word x v : m_words s !! x = Some v -> exists b n i, m_blocks s !! b = Some n /\ 0 <= i /\ 8 * i + 8 <= n /\ x = b + 8 * i
}.

(** The word at the offset [i] of the block [b] can be used. *)
Definition in_block (s : pmem) (b i : Z) : Prop := exists n, m_blocks s !! b = Some n /\ 0 <= i /\ i < n.

(** Every word of the block [b] is there. *)
Definition raw (s : pmem) (b : Z) : Prop :=
  forall n i, m_blocks s !! b = Some n -> 0 <= i -> 8 * i + 8 <= n -> is_Some (m_words s !! (b + 8 * i)).

(** The block [b] is the same in two states. *)
Definition same (s s' : pmem) (b : Z) : Prop :=
  m_blocks s' !! b = m_blocks s !! b /\
  forall i, in_block s b i -> m_words s' !! (b + i) = m_words s !! (b + i).

Lemma same_refl s b : same s s b.
Proof. done. Qed.

Lemma same_trans s1 s2 s3 b : same s1 s2 b -> same s2 s3 b -> same s1 s3 b.
Proof.
  intros [H1 H2] [H3 H4]. split; [congruence|]. intros i Hi. rewrite <- H2 by done. apply H4.
  destruct Hi as (n & Hn & Hi). exists n. by rewrite H1.
Qed.

Lemma apart_words s b i b' i' : mem_wf s -> in_block s b i -> in_block s b' i' -> b <> b' -> b + i <> b' + i'.
Proof.
  intros Hwf (n & Hn & Hi) (n' & Hn' & Hi') Hne E. destruct (wf_apart s Hwf b n b' n' Hn Hn' Hne); lia.
Qed.

Lemma raw_same s s' b : same s s' b -> raw s b -> raw s' b.
Proof.
  intros [Hb Hw] Hr n i Hn Hi Hlt. rewrite Hb in Hn. rewrite Hw by (exists n; split; [done|lia]). by apply (Hr n).
Qed.

Section memory.
Context `{MallocLaws}.

Lemma words_of_elem a n x : x ∈ words_of a n <-> exists i, 0 <= i /\ 8 * i + 8 <= n /\ x = a + 8 * i.
Proof.
  unfold words_of. rewrite list_elem_of_fmap. setoid_rewrite elem_of_seq.
  pose proof (Z.div_mod n 8 ltac:(lia)). pose proof (Z.mod_pos_bound n 8 ltac:(lia)). split.
  - intros (i & -> & Hi). exists (Z.of_nat i). lia.
  - intros (i & Hi & Hlt & ->). exists (Z.to_nat i). lia.
Qed.

Lemma fill_lookup_in a n s x : x ∈ words_of a n -> is_Some (fill a n s !! x).
Proof.
  unfold fill. induction (words_of a n) as [|y l IH]; intros Hx; [by apply elem_of_nil in Hx|]. cbn.
  apply elem_of_cons in Hx as [->|Hx]; [by rewrite lookup_insert_eq|].
  destruct (decide (x = y)) as [->|]; [by rewrite lookup_insert_eq|]. rewrite lookup_insert_ne by done. by apply IH.
Qed.

Lemma fill_lookup_out a n s x : x ∉ words_of a n -> fill a n s !! x = m_words s !! x.
Proof.
  unfold fill. induction (words_of a n) as [|y l IH]; intros Hx; [done|]. cbn.
  apply not_elem_of_cons in Hx as [??]. rewrite lookup_insert_ne by done. by apply IH.
Qed.

Lemma foldr_delete_out (m : gmap Z Z) l x : x ∉ l -> foldr delete m l !! x = m !! x.
Proof.
  induction l as [|y l IH]; intros Hx; [done|]. cbn. apply not_elem_of_cons in Hx as [??].
  rewrite lookup_delete_ne by done. by apply IH.
Qed.

Lemma foldr_delete_in (m : gmap Z Z) l x : x ∈ l -> foldr delete m l !! x = None.
Proof.
  induction l as [|y l IH]; intros Hx; [by apply elem_of_nil in Hx|]. cbn. destruct (decide (x = y)) as [->|]; [apply lookup_delete_eq|].
  apply elem_of_cons in Hx as [->|Hx]; [done|]. rewrite lookup_delete_ne by done. by apply IH.
Qed.

(** [load] and [store] in a block. *)
Lemma store_ok s b i v :
  mem_wf s -> in_block s b i -> is_Some (m_words s !! (b + i)) ->
  exists s', store (b + i) v s = Ok (tt, s') /\ s' = set_words (<[b + i := v]> (m_words s)) s /\ mem_wf s' /\
    m_words s' !! (b + i) = Some v /\ (forall x, x <> b + i -> m_words s' !! x = m_words s !! x) /\
    (forall b', b' <> b -> is_Some (m_blocks s !! b') -> same s s' b').
Proof.
  intros Hwf Hin [w Hw]. unfold store. rewrite Hw. eexists. split; [reflexivity|]. split; [done|]. split.
  { destruct Hwf as [H1 H2 H3]. split; [done|done|]. intros x u. cbn. rewrite lookup_insert_Some. intros [[<- _]|[_ Hx]]; by eapply H3. }
  cbn. split_and!.
  - by rewrite lookup_insert_eq.
  - intros x Hx. by rewrite lookup_insert_ne.
  - intros b' Hne [n' Hn']. split; [done|]. intros i' Hi'. cbn. apply lookup_insert_ne. by apply (apart_words s).
Qed.

(** [::malloc]: NULL and nothing else, or a new block; the others are the same. *)
Lemma c_malloc_ok n s :
  mem_wf s -> 0 < n ->
  exists a s', c_malloc n s = Ok (a, s') /\ mem_wf s' /\ m_chunks s' = m_chunks s /\
    (forall b, is_Some (m_blocks s !! b) -> same s s' b) /\
    ((a = 0 /\ pick (m_step s) (m_blocks s) n = None /\ m_blocks s' = m_blocks s) \/
     (0 < a /\ m_blocks s !! a = None /\ m_blocks s' = <[a := n]> (m_blocks s) /\ raw s' a)).
Proof.
  intros Hwf Hn. unfold c_malloc. destruct (pick _ _ _) as [a|] eqn:E.
  - destruct (pick_fits _ _ _ _ Hn E) as (Ha & _ & Hfit).
    assert (m_blocks s !! a = None) as Hno.
    { destruct (m_blocks s !! a) as [m|] eqn:Em; [|done]. pose proof (wf_block s Hwf a m Em). destruct (Hfit a m); lia || done. }
    eexists a, _. split; [reflexivity|]. split_and!.
    + split; cbn.
      * intros b m [[<- <-]|[_ Hb]]%lookup_insert_Some; [done|]. by apply (wf_block s Hwf).
      * intros b m b' m' [[<- <-]|[Hb1 Hb]]%lookup_insert_Some [[<- <-]|[Hb2 Hb']]%lookup_insert_Some Hne; try done.
        -- apply (Hfit b' m'); [done|]. by apply (wf_block s Hwf b').
        -- pose proof (wf_block s Hwf b m Hb). destruct (Hfit b m); [done|lia|by right|by left].
        -- by apply (wf_apart s Hwf).
      * intros x v Hx. destruct (decide (x ∈ words_of a n)) as [(j & Hj & Hjn & ->)%words_of_elem|Hout].
        { exists a, n, j. by rewrite lookup_insert_eq. }
        rewrite fill_lookup_out in Hx by done. destruct (wf_word s Hwf x v Hx) as (b & m & i & Hb & Hbx). exists b, m, i.
        by rewrite lookup_insert_ne by (intros ->; congruence).
    + done.
    + intros b [m Hb]. assert (b <> a) as Hba by (intros ->; congruence). split; [cbn; by rewrite lookup_insert_ne|].
      intros i (m' & Hm' & Hi). simplify_eq. cbn. apply fill_lookup_out. intros (j & Hj & Hjn & Ej)%words_of_elem.
      destruct (Hfit b m Hb); lia.
    + right. split_and!; [done|done|done|]. intros m i Hm Hi Hlt. cbn in *. rewrite lookup_insert_eq in Hm. simplify_eq.
      apply fill_lookup_in, words_of_elem. by exists i.
  - eexists 0, _. split; [reflexivity|]. split_and!; [by destruct Hwf|done|done|by left].
Qed.

(** [::free]: the block is gone, the others are the same. *)
Lemma c_free_ok a n s :
  mem_wf s -> m_blocks s !! a = Some n ->
  exists s', c_free a s = Ok (tt, s') /\ mem_wf s' /\ m_chunks s' = m_chunks s /\ m_blocks s' = delete a (m_blocks s) /\
    forall b, b <> a -> is_Some (m_blocks s !! b) -> same s s' b.
Proof.
  intros Hwf Ha. unfold c_free. rewrite Ha. eexists. split; [reflexivity|]. split_and!; try done.
  - split; cbn.
    + intros b m [_ Hb]%lookup_delete_Some. by apply (wf_block s Hwf).
    + intros b m b' m' [_ Hb]%lookup_delete_Some [_ Hb']%lookup_delete_Some. by apply (wf_apart s Hwf).
    + intros x v Hx. destruct (decide (x ∈ words_of a n)) as [Hin|Hout]; [by rewrite foldr_delete_in in Hx|].
      rewrite foldr_delete_out in Hx by done. destruct (wf_word s Hwf x v Hx) as (b & m & i & Hb & Hbx). exists b, m, i.
      split; [|done]. apply lookup_delete_Some. split; [|done]. intros <-. simplify_eq. apply Hout.
      apply words_of_elem. by exists i.
  - intros b Hne [m Hb]. split; [cbn; by rewrite lookup_delete_ne|]. intros i Hi. cbn. apply foldr_delete_out.
    intros (j & Hj & Hjn & Ej)%words_of_elem.
    apply (apart_words s b i a (8 * j) Hwf Hi); [|done|done]. exists n. split; [done|lia].
Qed.
End memory.

(** * Chunks *)

(** [b] is a block of the chunk [c], whose blocks have [sz] bytes. *)
Definition blk (s : pmem) (c sz b : Z) : Prop :=
  m_blocks s !! b = Some (HEADER + sz) /\ m_words s !! b = Some c /\ m_words s !! (b + 8) = Some sz /\ raw s b.

(** The free list that starts at the head of [fl] links the blocks [fl]. *)
Fixpoint chain (s : pmem) (fl : list Z) : Prop :=
  match fl with
  | [] => True
  | b :: fl => m_words s !! (b + HEADER) = Some (hd 0 fl) /\ chain s fl
  end.

Lemma blk_same s s' c sz b : 0 < sz -> same s s' b -> blk s c sz b -> blk s' c sz b.
Proof.
  intros Hsz Hs (Hb & Hc & Hn & Hr). pose proof (raw_same _ _ _ Hs Hr). destruct Hs as [Eb Ew].
  assert (forall i, 0 <= i < 24 -> i < HEADER + sz -> m_words s' !! (b + i) = m_words s !! (b + i)) as E.
  { intros i Hi Hlt. apply Ew. exists (HEADER + sz). split; [done|lia]. }
  split_and!; [by rewrite Eb| | |done].
  - rewrite <- (Z.add_0_r b), E, Z.add_0_r; [done|lia|unfold HEADER; lia].
  - rewrite E; [done|lia|unfold HEADER; lia].
Qed.

Lemma chain_same s s' c sz fl :
  8 <= sz -> Forall (blk s c sz) fl -> (forall b, b ∈ fl -> same s s' b) -> chain s fl -> chain s' fl.
Proof.
  intros Hsz. induction fl as [|b fl IH]; [done|]. intros [Hb Hf]%Forall_cons Hs [Hn Hc]. split.
  - rewrite (proj2 (Hs b ltac:(set_solver))); [done|]. exists (HEADER + sz). split; [apply Hb|unfold HEADER; lia].
  - apply IH; [done| |done]. set_solver.
Qed.

Lemma blk_live s c sz b : blk s c sz b -> is_Some (m_blocks s !! b).
Proof. intros [Hb _]. by rewrite Hb. Qed.

(** What an operation of the chunk [c] may change. *)
Record frame (s s' : pmem) (c : Z) : Prop := {
  fr_wf : mem_wf s';
  fr_chunks c' : c' <> c -> m_chunks s' !! c' = m_chunks s !! c'
}.

Definition set_chunks (m : gmap Z MemoryChunk) (s : pmem) : pmem := mkMem (m_words s) (m_blocks s) m (m_step s).

Section chunk.
Context `{MallocLaws}.

Lemma get_chunk_ok c ch s : m_chunks s !! c = Some ch -> get_chunk c s = Ok (ch, s).
Proof. unfold get_chunk. by intros ->. Qed.

Lemma load_ok a v s : m_words s !! a = Some v -> load a s = Ok (v, s).
Proof. unfold load. by intros ->. Qed.

Lemma LOCK_ok c f sz n s :
  m_chunks s !! c = Some (mkChunk f sz n false) -> LOCK c s = Ok (tt, set_chunk c (mkChunk f sz n true) s).
Proof. intros E. unfold LOCK. run (get_chunk_ok _ _ _ E). done. Qed.

Lemma UNLOCK_ok c f sz n b s :
  m_chunks s !! c = Some (mkChunk f sz n b) -> UNLOCK c s = Ok (tt, set_chunk c (mkChunk f sz n false) s).
Proof. intros E. unfold UNLOCK. run (get_chunk_ok _ _ _ E). done. Qed.

Lemma set_pFreeList_ok c f sz n b p s :
  m_chunks s !! c = Some (mkChunk f sz n b) -> set_pFreeList c p s = Ok (tt, set_chunk c (mkChunk p sz n b) s).
Proof. intros E. unfold set_pFreeList. run (get_chunk_ok _ _ _ E). done. Qed.

Lemma set_chunk_wf c ch s : mem_wf s -> mem_wf (set_chunk c ch s).
Proof. by intros []. Qed.

Lemma CreateBlock_ok c f sz n lk s :
  mem_wf s -> m_chunks s !! c = Some (mkChunk f sz n lk) -> 8 <= sz <= MAX_SIZE -> 0 <= n < INT_MAX ->
  exists b s', CreateBlock c s = Ok (b, s') /\ frame s s' c /\
    (forall b', is_Some (m_blocks s !! b') -> same s s' b') /\
    ((b = 0 /\ pick (m_step s) (m_blocks s) (HEADER + sz) = None /\ m_blocks s' = m_blocks s /\ m_chunks s' = m_chunks s) \/
     (0 < b /\ m_blocks s !! b = None /\ m_blocks s' = <[b := HEADER + sz]> (m_blocks s) /\
      m_chunks s' = <[c := mkChunk f sz (n + 1) lk]> (m_chunks s) /\ blk s' c sz b)).
Proof.
  intros Hwf Hc Hsz Hn. unfold MAX_SIZE in Hsz. unfold CreateBlock. run (get_chunk_ok _ _ _ Hc). cbn [ch_size ch_count].
  rewrite size_t_id by (unfold HEADER; climits).
  destruct (c_malloc_ok (HEADER + sz) s Hwf ltac:(unfold HEADER; lia)) as (a & s1 & E & Hwf1 & Hch1 & Hsame & [(-> & Hp & Hbl)|(Ha & Hno & Hbl & Hraw)]).
  - run E. change (negb (0 =? 0)) with false. cbv iota. eexists 0, s1. split; [done|]. split_and!; [|done|by left].
    split; [done|]. intros. by rewrite Hch1.
  - run E. rewrite (proj2 (Z.eqb_neq a 0)) by lia. cbn [negb].
    assert (m_blocks s1 !! a = Some (HEADER + sz)) as Hba by (rewrite Hbl; apply lookup_insert_eq).
    destruct (store_ok s1 a 0 c Hwf1) as (s2 & E2 & -> & Hwf2 & Hv2 & Ho2 & Hs2).
    { exists (HEADER + sz). split; [done|unfold HEADER; lia]. }
    { apply (Hraw _ 0 Hba); unfold HEADER; lia. }
    rewrite Z.add_0_r in *. run E2. set (s2 := set_words _ s1) in *.
    destruct (store_ok s2 a 8 sz Hwf2) as (s3 & E3 & -> & Hwf3 & Hv3 & Ho3 & Hs3).
    { exists (HEADER + sz). split; [done|unfold HEADER; lia]. }
    { rewrite Ho2 by lia. apply (Hraw _ 1 Hba); unfold HEADER; lia. }
    run E3. set (s3 := set_words _ s2) in *.
    assert (int_ok (n + 1) = Ok (n + 1)) as -> by (unfold int_ok; btrue (INT_MIN <=? n + 1); by btrue (n + 1 <=? INT_MAX)).
    cbn [slift]. rewrite (sbind_ok (slift _) _ _ (n + 1) s3) by done.
    rewrite (sbind_ok (put_chunk _ _)) with (1 := eq_refl).
    eexists a, _. split; [reflexivity|]. set (s4 := set_chunk _ _ s3).
    assert (forall b', is_Some (m_blocks s !! b') -> b' <> a) as Hne by (intros b' [? Hb'] ->; congruence).
    split_and!.
    + split; [by apply set_chunk_wf|]. intros c' Hc'. cbn. by rewrite lookup_insert_ne, Hch1.
    + intros b' Hb'. specialize (Hne b' Hb'). assert (is_Some (m_blocks s1 !! b')) as Hb1.
      { rewrite Hbl. by rewrite lookup_insert_ne. }
      apply (same_trans s s1); [by apply Hsame|]. apply (same_trans s1 s2); [by apply Hs2|].
      apply (same_trans s2 s3); [by apply Hs3|]. done.
    + right. split_and!; [done|done|done|cbn; by rewrite Hch1|].
      split_and!; [done| |exact Hv3|].
      * change (m_words s3 !! a = Some c). by rewrite Ho3 by lia.
      * intros m i Hm Hi Hlt. change (is_Some (m_words s3 !! (a + 8 * i))).
        destruct (decide (i = 1)) as [->|]; [change (a + 8 * 1) with (a + 8); by rewrite Hv3|]. rewrite Ho3 by lia.
        destruct (decide (i = 0)) as [->|]; [change (8 * 0) with 0; by rewrite Z.add_0_r, Hv2|]. rewrite Ho2 by lia. by apply (Hraw m).
Qed.

(** The block [b] goes to the front of the free list. *)
Lemma push_block_ok c f sz n lk b s :
  mem_wf s -> m_chunks s !! c = Some (mkChunk f sz n lk) -> 8 <= sz -> blk s c sz b ->
  exists s', push_block c b s = Ok (tt, s') /\ frame s s' c /\ m_blocks s' = m_blocks s /\
    m_chunks s' = <[c := mkChunk b sz n lk]> (m_chunks s) /\ m_words s' !! (b + HEADER) = Some f /\ blk s' c sz b /\
    (forall b', b' <> b -> is_Some (m_blocks s !! b') -> same s s' b').
Proof.
  intros Hwf Hc Hsz (Hb & Hw0 & Hw1 & Hr). unfold push_block. run (get_chunk_ok _ _ _ Hc). cbn [ch_free].
  destruct (store_ok s b HEADER f Hwf) as (s1 & E & -> & Hwf1 & Hv & Ho & Hs).
  { exists (HEADER + sz). split; [done|unfold HEADER; lia]. }
  { apply (Hr _ 2 Hb); unfold HEADER; lia. }
  run E. set (s1 := set_words _ s) in *. rewrite (set_pFreeList_ok c f sz n lk) by done.
  eexists. split; [reflexivity|]. split_and!; try done.
  - split; [by apply set_chunk_wf|]. intros c' Hc'. cbn. by rewrite lookup_insert_ne.
  - split_and!; [done| | |].
    + change (m_words s1 !! b = Some c). rewrite Ho; [done|unfold HEADER; lia].
    + change (m_words s1 !! (b + 8) = Some sz). rewrite Ho; [done|unfold HEADER; lia].
    + intros m i Hm Hi Hlt. change (is_Some (m_words s1 !! (b + 8 * i))).
      destruct (decide (i = 2)) as [->|]; [change (8 * 2) with HEADER; by rewrite Hv|].
      rewrite Ho by (unfold HEADER; lia). by apply (Hr m).
Qed.

(** [MemoryChunk::malloc]: the first free block, or a new one, or NULL when the
    allocator refuses. *)
Lemma chunk_malloc_ok c fl sz n s :
  mem_wf s -> m_chunks s !! c = Some (mkChunk (hd 0 fl) sz n false) -> 8 <= sz <= MAX_SIZE -> 0 <= n < INT_MAX ->
  chain s fl -> Forall (blk s c sz) fl ->
  exists p s', chunk_malloc c s = Ok (p, s') /\ frame s s' c /\
    (forall b', is_Some (m_blocks s !! b') -> same s s' b') /\
    match fl with
    | b :: fl' => p = b + HEADER /\ m_step s' = m_step s /\ m_blocks s' = m_blocks s /\
        m_chunks s' = <[c := mkChunk (hd 0 fl') sz n false]> (m_chunks s)
    | [] =>
        (p = 0 /\ pick (m_step s) (m_blocks s) (HEADER + sz) = None /\ m_blocks s' = m_blocks s /\ m_chunks s' = m_chunks s) \/
        (exists b, 0 < b /\ p = b + HEADER /\ m_blocks s !! b = None /\ m_blocks s' = <[b := HEADER + sz]> (m_blocks s) /\
           m_chunks s' = <[c := mkChunk 0 sz (n + 1) false]> (m_chunks s) /\ blk s' c sz b)
    end.
Proof.
  intros Hwf Hc Hsz Hn Hch Hfl. unfold chunk_malloc. run (LOCK_ok _ _ _ _ _ Hc).
  set (s1 := set_chunk c _ s). assert (m_chunks s1 !! c = Some (mkChunk (hd 0 fl) sz n true)) as Hc1 by apply lookup_insert_eq.
  run (get_chunk_ok _ _ _ Hc1). cbn [ch_free]. assert (mem_wf s1) as Hwf1 by by apply set_chunk_wf.
  destruct fl as [|b fl]; cbn [hd] in *.
  - change (negb (0 =? 0)) with false. cbn iota.
    destruct (CreateBlock_ok c 0 sz n true s1 Hwf1 Hc1 Hsz Hn) as (b & s2 & E & [Hwf2 Hoth] & Hs & [(-> & Hp & Hbl & Hck)|(Hb & Hno & Hbl & Hck & Hk)]); run E.
    + change (0 =? 0) with true. cbn iota. rewrite (sbind_ok _ _ _ _ _ (UNLOCK_ok c 0 sz n true s2 ltac:(by rewrite Hck))).
      eexists 0, _. split; [reflexivity|]. split_and!.
      * split; [by apply set_chunk_wf|]. intros c' Hc'. cbn. rewrite lookup_insert_ne, Hoth by done. cbn. by rewrite lookup_insert_ne.
      * intros b' Hb'. by apply (same_trans s s2); [apply (Hs b' Hb')|].
      * left. split_and!; try done. cbn. rewrite Hck. cbn. rewrite insert_insert_eq. by apply insert_id.
    + rewrite (proj2 (Z.eqb_neq b 0)) by lia. cbn iota.
      rewrite (sbind_ok _ _ _ _ _ (UNLOCK_ok c 0 sz (n + 1) true s2 ltac:(rewrite Hck; by rewrite lookup_insert_eq))).
      eexists _, _. split; [reflexivity|]. split_and!.
      * split; [by apply set_chunk_wf|]. intros c' Hc'. cbn. rewrite lookup_insert_ne, Hoth by done. cbn. by rewrite lookup_insert_ne.
      * intros b' Hb'. by apply (same_trans s s2); [apply (Hs b' Hb')|].
      * right. exists b. split_and!; try done. cbn. rewrite Hck. cbn. by rewrite !insert_insert_eq.
  - apply Forall_cons in Hfl as [Hb Hfl]. destruct Hch as [Hnext Hch].
    pose proof (wf_block s Hwf b _ (proj1 Hb)). rewrite (proj2 (Z.eqb_neq b 0)) by lia. cbn [negb].
    run (load_ok (b + HEADER) (hd 0 fl) s1 Hnext). rewrite (sbind_ok _ _ _ _ _ (set_pFreeList_ok c b sz n true (hd 0 fl) s1 Hc1)).
    rewrite (sbind_ok _ _ _ _ _ (UNLOCK_ok c (hd 0 fl) sz n true (set_chunk c _ s1) ltac:(apply lookup_insert_eq))).
    eexists _, _. split; [reflexivity|]. split_and!; try done.
    + split; [by repeat apply set_chunk_wf|]. intros c' Hc'. cbn. by rewrite !lookup_insert_ne.
    + cbn. by rewrite !insert_insert_eq.
Qed.

(** [MemoryChunk::free] finds the chunk of the block. *)
Lemma chunk_free_ok c f sz n b s :
  mem_wf s -> m_chunks s !! c = Some (mkChunk f sz n false) -> 8 <= sz -> blk s c sz b ->
  exists s', chunk_free (b + HEADER) s = Ok (tt, s') /\ frame s s' c /\ m_blocks s' = m_blocks s /\
    m_chunks s' = <[c := mkChunk b sz n false]> (m_chunks s) /\ m_words s' !! (b + HEADER) = Some f /\ blk s' c sz b /\
    (forall b', b' <> b -> is_Some (m_blocks s !! b') -> same s s' b').
Proof.
  intros Hwf Hc Hsz Hb. unfold chunk_free, free_block. replace (b + HEADER - HEADER) with b by lia.
  rewrite (sbind_ok _ _ _ _ _ (load_ok b c s (proj1 (proj2 Hb)))). run (LOCK_ok _ _ _ _ _ Hc).
  set (s1 := set_chunk c _ s).
  destruct (push_block_ok c f sz n true b s1) as (s2 & E & [Hwf2 Hoth] & Hbl & Hck & Hv & Hk & Hs); [by apply set_chunk_wf|apply lookup_insert_eq|done|done|].
  run E. rewrite (UNLOCK_ok c b sz n true) by (rewrite Hck; apply lookup_insert_eq).
  eexists. split; [reflexivity|]. split_and!; try done.
  - split; [by apply set_chunk_wf|]. intros c' Hc'. cbn. rewrite lookup_insert_ne, Hoth by done. cbn. by rewrite lookup_insert_ne.
  - cbn. rewrite Hck. cbn. by rewrite !insert_insert_eq.
Qed.

(** The destructor's loop gives back the free list. *)
Lemma delete_loop_ok fl fuel c sz n lk t s :
  mem_wf s -> m_chunks s !! c = Some (mkChunk (hd 0 fl) sz n lk) -> 8 <= sz -> chain s fl -> Forall (blk s c sz) fl -> NoDup fl ->
  (length fl < fuel)%nat -> 0 <= t -> t + zlen fl <= INT_MAX ->
  exists s', delete_loop fuel c t s = Ok (t + zlen fl, s') /\ frame s s' c /\
    m_chunks s' !! c = Some (mkChunk 0 sz n lk) /\ m_blocks s' = foldr delete (m_blocks s) fl /\
    (forall b', b' ∉ fl -> is_Some (m_blocks s !! b') -> same s s' b').
Proof.
  revert fuel t s. induction fl as [|b fl IH]; intros fuel t s Hwf Hc Hsz Hch Hfl Hnd Hf Ht Hmax; (destruct fuel as [|fuel]; [cbn in Hf; lia|]);
    cbn [delete_loop]; run (get_chunk_ok _ _ _ Hc); cbn [ch_free hd] in *.
  - change (0 =? 0) with true. cbn iota. exists s. split; [unfold sret; do 2 f_equal; cbn; lia|]. split_and!; try done.
  - apply Forall_cons in Hfl as [Hb Hfl]. apply NoDup_cons in Hnd as [Hni Hnd]. destruct Hch as [Hnext Hch].
    pose proof (wf_block s Hwf b _ (proj1 Hb)). rewrite (proj2 (Z.eqb_neq b 0)) by lia. cbv zeta iota.
    run (load_ok _ _ _ Hnext). rewrite (sbind_ok _ _ _ _ _ (set_pFreeList_ok c b sz n lk (hd 0 fl) s Hc)). set (s1 := set_chunk c _ s).
    destruct (c_free_ok b (HEADER + sz) s1 (set_chunk_wf _ _ _ Hwf) (proj1 Hb)) as (s2 & E & Hwf2 & Hck & Hbl & Hs). unfold DeleteBlock. run E.
    cbn [length] in *. assert (int_ok (t + 1) = Ok (t + 1)) as -> by (unfold int_ok; btrue (INT_MIN <=? t + 1); by btrue (t + 1 <=? INT_MAX)).
    rewrite (sbind_ok (slift _) _ _ (t + 1) s2) by done.
    assert (forall b', b' ∈ fl -> same s s2 b') as Hsf.
    { intros b' Hb'. apply (Hs b'); [by intros ->|]. by eapply blk_live, (proj1 (Forall_forall _ _) Hfl). }
    destruct (IH fuel (t + 1) s2) as (s3 & E3 & [Hwf3 Hoth] & Hc3 & Hbl3 & Hs3); try done; try lia.
    + rewrite Hck. apply lookup_insert_eq.
    + by eapply chain_same.
    + apply Forall_forall. intros b' Hb'. apply (blk_same s); [lia|by apply Hsf|]. by apply (proj1 (Forall_forall _ _) Hfl).
    + exists s3. split; [rewrite E3; do 2 f_equal; lia|]. split_and!; try done.
      * split; [done|]. intros c' Hc'. rewrite Hoth, Hck by done. cbn. by rewrite lookup_insert_ne.
      * rewrite Hbl3, Hbl. cbn. clear. induction fl as [|x fl IH]; [done|]. cbn. by rewrite IH, delete_delete.
      * intros b' Hb' Hl. apply not_elem_of_cons in Hb' as [??]. apply (same_trans s s2); [by apply (Hs b')|].
        apply Hs3; [done|]. rewrite Hbl, lookup_delete_ne by done. done.
Qed.
End chunk.
