(* ===== verification/PoolInv.v ===== *)
(** The invariant of the memory pool and what its operations do to it. *)

From stdpp Require Import base tactics list numbers gmap.
From S2P Require Import Prelude StateMonad MemPool MemPoolSpec.

Local Open Scope Z_scope.

(** * Size classes *)

(** The index that [Malloc] finds for [n] bytes. *)
Definition class (n : Z) : nat := match class_loop SIZES n MIN_SIZE 0 with Ok i => Z.to_nat i | Fault _ => O end.

(** The size of the blocks of a class. *)
Definition class_size (i : nat) : Z := 8 * 2 ^ Z.of_nat i.

Lemma class_size_bounds i : (i < 8)%nat -> 8 <= class_size i <= MAX_SIZE.
Proof. intros Hi. do 8 (destruct i as [|i]; [vm_compute; split; discriminate|]). lia. Qed.

Lemma class_loop_ok f n i :
  n <= MAX_SIZE -> (i < 8)%nat -> (7 - i < f)%nat -> i = O \/ class_size (i - 1) < n ->
  exists j, class_loop f n (class_size i) (Z.of_nat i) = Ok (Z.of_nat j) /\ (j < 8)%nat /\ n <= class_size j /\
    (j = O \/ class_size (j - 1) < n).
Proof.
  intros Hn. revert i. induction f as [|f IH]; intros i Hi Hf Hlow; [lia|]. cbn [class_loop].
  pose proof (class_size_bounds i Hi). btrue (class_size i <=? MAX_SIZE). destruct (Z.leb_spec n (class_size i)).
  - exists i. done.
  - assert (class_size i * 2 = class_size (S i)) as E.
    { unfold class_size. rewrite Nat2Z.inj_succ, Z.pow_succ_r by lia. lia. }
    assert (i <> 7%nat) as Hi7 by (intros ->; change (class_size 7) with MAX_SIZE in *; lia).
    pose proof (class_size_bounds (S i) ltac:(lia)). unfold MAX_SIZE in *. rewrite E, size_t_id by climits.
    replace (Z.of_nat i + 1) with (Z.of_nat (S i)) by lia. apply IH; [lia|lia|]. right. by replace (S i - 1)%nat with i by lia.
Qed.

Lemma class_ok n :
  n <= MAX_SIZE ->
  class_loop SIZES n MIN_SIZE 0 = Ok (Z.of_nat (class n)) /\ (class n < 8)%nat /\ n <= class_size (class n) /\
  (class n = O \/ class_size (class n - 1) < n).
Proof.
  intros Hn. destruct (class_loop_ok SIZES n 0 Hn) as (j & E & Hj); [lia|unfold SIZES; lia|by left|].
  unfold class. change (class_size 0) with MIN_SIZE in E. change (Z.of_nat 0) with 0 in E. rewrite E. by rewrite Nat2Z.id.
Qed.

(** * The invariant *)

(** A piece of memory a client holds: its address and the size asked for. *)
Abbreviation piece := (Z * Z)%type.

Definition is_small (x : piece) : bool := x.2 <=? MAX_SIZE.

(** The block of a piece. *)
Definition base (x : piece) : Z := x.1 - (if is_small x then HEADER else HEAP_HEADER).

(** The blocks of a class that clients hold. *)
Definition of_class (i : nat) (x : piece) : bool := is_small x && bool_decide (class x.2 = i).
Definition used (i : nat) (live : list piece) : list Z := base <$> List.filter (of_class i) live.

(** All blocks of the pool. *)
Definition all_blocks (arr : Z) (ca : list Z) (fl : list (list Z)) (live : list piece) : list Z :=
  arr :: ca ++ concat fl ++ (base <$> live).

(** The chunk [c] of the class [i], with the free blocks [l]. *)
Definition chunk_inv (s : pmem) (i : nat) (c : Z) (l us : list Z) : Prop :=
  m_blocks s !! c = Some SIZEOF_CHUNK /\
  m_chunks s !! c = Some (mkChunk (hd 0 l) (class_size i) (zlen l + zlen us) false) /\
  chain s l /\ Forall (blk s c (class_size i)) (l ++ us).

(** A large piece. *)
Definition big_inv (s : pmem) (x : piece) : Prop :=
  m_blocks s !! base x = Some (HEAP_HEADER + x.2) /\ m_words s !! base x = Some x.2 /\ raw s (base x).

Record pool_inv (B0 : gmap Z Z) (arr : Z) (ca : list Z) (fl : list (list Z)) (live : list piece) (k : Z) (s : pmem)
  : Prop := {
  pi_wf : mem_wf s;
  pi_arr : m_blocks s !! arr = Some 64;
  pi_list i c : ca !! i = Some c -> m_words s !! (arr + 8 * Z.of_nat i) = Some c;
  pi_len : length ca = 8%nat /\ length fl = 8%nat;
  pi_chunk i c l : ca !! i = Some c -> fl !! i = Some l -> chunk_inv s i c l (used i live);
  pi_big x : x ∈ live -> is_small x = false -> big_inv s x;
  pi_nodup : NoDup (all_blocks arr ca fl live);
  pi_base : B0 ⊆ m_blocks s;
  pi_new b : b ∈ all_blocks arr ca fl live -> B0 !! b = None;
  pi_size : size (m_blocks s) = (size B0 + length (all_blocks arr ca fl live))%nat;
  pi_count i l : fl !! i = Some l -> zlen l + zlen (used i live) <= k
}.

(** ** Elementary facts *)

Lemma used_cons i x live : used i (x :: live) = (if of_class i x then [base x] else []) ++ used i live.
Proof. unfold used. cbn [List.filter]. by destruct (of_class i x). Qed.

Lemma filter_perm {A} (f : A -> bool) l l' : l ≡ₚ l' -> List.filter f l ≡ₚ List.filter f l'.
Proof.
  induction 1 as [|x l l' _ IH|x y l|]; [done| | |by etrans]; cbn.
  - by destruct (f x); rewrite IH.
  - destruct (f x), (f y); try done. constructor.
Qed.

Lemma used_perm i live live' : live ≡ₚ live' -> used i live ≡ₚ used i live'.
Proof. intros Hp. unfold used. by rewrite (filter_perm _ _ _ Hp). Qed.

Lemma used_elem i live b : b ∈ used i live <-> exists x, x ∈ live /\ of_class i x = true /\ b = base x.
Proof.
  unfold used. rewrite list_elem_of_fmap. split.
  - intros (x & -> & [Hx Hf]%list_elem_of_In%List.filter_In). exists x. by rewrite list_elem_of_In.
  - intros (x & Hx & Hf & ->). exists x. split; [done|]. apply list_elem_of_In, List.filter_In. by rewrite <- list_elem_of_In.
Qed.

Lemma of_class_self x : is_small x = true -> of_class (class x.2) x = true.
Proof. intros Hs. unfold of_class. rewrite Hs. by rewrite bool_decide_eq_true_2. Qed.

Lemma concat_insert_perm {A} (fl : list (list A)) i l l' (b : A) :
  fl !! i = Some l -> l' ≡ₚ b :: l -> concat (<[i := l']> fl) ≡ₚ b :: concat fl.
Proof.
  revert i. induction fl as [|m fl IH]; intros [|i] Hi Hp; cbn in *; [done|done| |].
  - simplify_eq. by rewrite Hp.
  - rewrite (IH i) by done. by rewrite Permutation_middle.
Qed.

Lemma class_same s s' i c l us :
  (i < 8)%nat -> (forall b, b ∈ l ++ us -> same s s' b) -> chain s l -> Forall (blk s c (class_size i)) (l ++ us) ->
  chain s' l /\ Forall (blk s' c (class_size i)) (l ++ us).
Proof.
  intros Hi Hs H3 H4. pose proof (class_size_bounds i Hi). split.
  - apply (chain_same s s' c (class_size i)); [lia|by apply Forall_app in H4 as [??]| |done]. set_solver.
  - apply Forall_forall. intros b Hx. apply (blk_same s); [lia|by apply Hs|]. by apply (proj1 (Forall_forall _ _) H4).
Qed.

Lemma chunk_inv_same s s' i c l us :
  (i < 8)%nat -> m_blocks s' !! c = m_blocks s !! c -> m_chunks s' !! c = m_chunks s !! c ->
  (forall b, b ∈ l ++ us -> same s s' b) -> chunk_inv s i c l us -> chunk_inv s' i c l us.
Proof.
  intros Hi Hb Hc Hs (H1 & H2 & H3 & H4). destruct (class_same s s' i c l us Hi Hs H3 H4).
  split_and!; congruence || done.
Qed.

Lemma big_inv_same s s' x : is_small x = false -> same s s' (base x) -> big_inv s x -> big_inv s' x.
Proof.
  intros Hx Hs (H1 & H2 & H3). pose proof (raw_same _ _ _ Hs H3). destruct Hs as [Hb Hw].
  split_and!; [congruence| |done]. rewrite <- (Z.add_0_r (base x)), Hw, Z.add_0_r; [done|].
  exists (HEAP_HEADER + x.2). split; [done|]. unfold is_small, HEAP_HEADER, MAX_SIZE in *. lia.
Qed.

Section inv.
Context (B0 : gmap Z Z) (arr : Z).

(** Every block of the pool is allocated. *)
Lemma inv_live ca fl live k s b :
  pool_inv B0 arr ca fl live k s -> b ∈ all_blocks arr ca fl live -> is_Some (m_blocks s !! b).
Proof.
  intros Hi. unfold all_blocks. rewrite elem_of_cons, !elem_of_app.
  destruct (pi_len _ _ _ _ _ _ _ Hi) as [Hla Hlf]. intros [->|[Hc|[Hf|Hl]]].
  - by rewrite (pi_arr _ _ _ _ _ _ _ Hi).
  - apply list_elem_of_lookup in Hc as [i Hc].
    destruct (lookup_lt_is_Some_2 fl i) as [l Hl]; [apply lookup_lt_Some in Hc; lia|].
    destruct (pi_chunk _ _ _ _ _ _ _ Hi i b l Hc Hl) as [-> _]. done.
  - apply list_elem_of_In, in_concat in Hf as (l & Hl & Hb). apply list_elem_of_In, list_elem_of_lookup in Hl as [i Hl].
    destruct (lookup_lt_is_Some_2 ca i) as [c Hc]; [apply lookup_lt_Some in Hl; lia|].
    destruct (pi_chunk _ _ _ _ _ _ _ Hi i c l Hc Hl) as (_ & _ & _ & [Hf _]%Forall_app).
    eapply blk_live, (proj1 (Forall_forall _ _) Hf), list_elem_of_In, Hb.
  - apply list_elem_of_fmap in Hl as (x & -> & Hx). destruct (is_small x) eqn:Es.
    + assert (class x.2 < 8)%nat as Hlt by (apply class_ok; unfold is_small in Es; lia).
      destruct (lookup_lt_is_Some_2 fl (class x.2)) as [l Hl]; [lia|].
      destruct (lookup_lt_is_Some_2 ca (class x.2)) as [c Hc]; [lia|].
      destruct (pi_chunk _ _ _ _ _ _ _ Hi _ c l Hc Hl) as (_ & _ & _ & [_ Hf]%Forall_app).
      eapply blk_live, (proj1 (Forall_forall _ _) Hf), used_elem. exists x. by rewrite of_class_self.
    + destruct (pi_big _ _ _ _ _ _ _ Hi x Hx Es) as [-> _]. done.
Qed.

Lemma inv_perm ca fl live live' k s : live ≡ₚ live' -> pool_inv B0 arr ca fl live k s -> pool_inv B0 arr ca fl live' k s.
Proof.
  intros Hp [H1 H2 H3 H4 H5 H6 H7 H8 H9 H10 H11].
  assert (all_blocks arr ca fl live ≡ₚ all_blocks arr ca fl live') as Ha by (unfold all_blocks; by rewrite Hp).
  split; try done.
  - intros i c l Hc Hl. destruct (H5 i c l Hc Hl) as (E1 & E2 & E3 & E4).
    split_and!; [done| |done|by rewrite <- (used_perm i _ _ Hp)]. by rewrite <- (used_perm i _ _ Hp).
  - intros x Hx. apply H6. by rewrite Hp.
  - by rewrite <- Ha.
  - intros b Hb. apply H9. by rewrite Ha.
  - by rewrite <- Ha.
  - intros i l Hl. rewrite <- (used_perm i _ _ Hp). by apply H11.
Qed.

(** The arrays of chunks: different classes have different chunks. *)
Lemma inv_chunks_ne ca fl live k s i j c c' :
  pool_inv B0 arr ca fl live k s -> ca !! i = Some c -> ca !! j = Some c' -> i <> j -> c <> c'.
Proof.
  intros Hi Hc Hc' Hne ->. pose proof (pi_nodup _ _ _ _ _ _ _ Hi) as [_ [Hnd _]%NoDup_app]%NoDup_cons.
  by apply Hne, (NoDup_lookup ca i j c').
Qed.

Lemma all_free ca fl live j l b : fl !! j = Some l -> b ∈ l -> b ∈ all_blocks arr ca fl live.
Proof.
  intros Hl Hb. unfold all_blocks. rewrite elem_of_cons, !elem_of_app. right. right. left.
  apply list_elem_of_In, in_concat. exists l. split; apply list_elem_of_In; [by eapply list_elem_of_lookup_2|done].
Qed.

Lemma all_live ca fl live x : x ∈ live -> base x ∈ all_blocks arr ca fl live.
Proof.
  intros Hx. unfold all_blocks. rewrite elem_of_cons, !elem_of_app. do 3 right. by apply list_elem_of_fmap_2.
Qed.

Lemma all_used ca fl live j b : b ∈ used j live -> b ∈ all_blocks arr ca fl live.
Proof. intros (x & Hx & _ & ->)%used_elem. by apply all_live. Qed.

Lemma all_chunk ca fl live i c : ca !! i = Some c -> c ∈ all_blocks arr ca fl live.
Proof.
  intros Hc. unfold all_blocks. rewrite elem_of_cons, !elem_of_app. right. left. by eapply list_elem_of_lookup_2.
Qed.

(** The blocks of different parts of the pool are different. *)
Lemma inv_parts ca fl live k s :
  pool_inv B0 arr ca fl live k s ->
  NoDup (base <$> live) /\ NoDup (concat fl) /\
  (forall b, b ∈ concat fl \/ b ∈ base <$> live -> b <> arr /\ b ∉ ca) /\
  (forall b, b ∈ concat fl -> b ∉ base <$> live) /\ arr ∉ ca.
Proof.
  intros Hi. pose proof (pi_nodup _ _ _ _ _ _ _ Hi) as [Ha [Hca [Hd (Hfl & Hd2 & Hlv)%NoDup_app]]%NoDup_app]%NoDup_cons.
  rewrite !elem_of_app in Ha. split_and!; [done|done| |done|tauto].
  intros b Hb. split; [intros ->; tauto|]. intros Hc. apply (Hd b Hc). rewrite elem_of_app. tauto.
Qed.

Lemma elem_concat {A} (fl : list (list A)) j l b : fl !! j = Some l -> b ∈ l -> b ∈ concat fl.
Proof.
  intros Hl Hb. apply list_elem_of_In, in_concat. exists l. split; apply list_elem_of_In; [by eapply list_elem_of_lookup_2|done].
Qed.

Lemma NoDup_concat_ne {A} (fl : list (list A)) i j l l' b :
  NoDup (concat fl) -> fl !! i = Some l -> fl !! j = Some l' -> i <> j -> b ∈ l -> b ∉ l'.
Proof.
  revert i j. induction fl as [|m fl IH]; intros i j Hnd Hi Hj Hne Hb Hb'; [done|]. cbn in Hnd.
  apply NoDup_app in Hnd as (Hm & Hd & Hnd). destruct i as [|i], j as [|j]; cbn in Hi, Hj; simplify_eq.
  - apply (Hd b Hb). by eapply elem_concat.
  - apply (Hd b Hb'). by eapply elem_concat.
  - by apply (IH i j Hnd Hi Hj ltac:(lia) Hb).
Qed.

Lemma NoDup_concat_lookup {A} (fl : list (list A)) i l : NoDup (concat fl) -> fl !! i = Some l -> NoDup l.
Proof.
  revert i. induction fl as [|m fl IH]; intros [|i] Hnd Hi; [done|done| |]; cbn in *; apply NoDup_app in Hnd as (?&?&?).
  - by simplify_eq.
  - by apply (IH i).
Qed.

(** A block that is taken from, or given back to, the class [i] is not one of
    another class. *)
Definition in_class (fl : list (list Z)) (live : list piece) (i : nat) (b : Z) : Prop :=
  (exists l, fl !! i = Some l /\ b ∈ l) \/ b ∈ used i live.

Lemma in_class_ne ca fl live k s i j b :
  pool_inv B0 arr ca fl live k s -> in_class fl live i b -> i <> j -> ~ in_class fl live j b.
Proof.
  intros Hi Hb Hne Hb'. destruct (inv_parts _ _ _ _ _ Hi) as (Hlv & Hfl & _ & Hd & _).
  destruct Hb as [(l & Hl & Hb)|(x & Hx & Hcx & ->)%used_elem], Hb' as [(l' & Hl' & Hb')|(y & Hy & Hcy & Ey)%used_elem].
  - by apply (NoDup_concat_ne fl i j l l' b).
  - apply (Hd b); [by eapply elem_concat|]. rewrite Ey. by apply list_elem_of_fmap_2.
  - apply (Hd (base x)); [by eapply elem_concat|]. by apply list_elem_of_fmap_2.
  - assert (x = y) as -> by (by apply (NoDup_fmap_elem base live)). unfold of_class in *.
    apply andb_true_iff in Hcx as [_ Hcx%bool_decide_eq_true], Hcy as [_ Hcy%bool_decide_eq_true]. congruence.
Qed.

(** The classes that an operation does not work on. *)
Lemma inv_other ca fl live k s s' (T : Z -> Prop) j c l :
  pool_inv B0 arr ca fl live k s -> ca !! j = Some c -> fl !! j = Some l ->
  (forall b, b ∈ all_blocks arr ca fl live -> ~ T b -> same s s' b) -> (forall b, T b -> b <> c /\ ~ in_class fl live j b) ->
  m_chunks s' !! c = m_chunks s !! c -> chunk_inv s' j c l (used j live).
Proof.
  intros Hi Hc Hl Hs HT Hck. apply (chunk_inv_same s).
  - destruct (pi_len _ _ _ _ _ _ _ Hi) as [<- _]. by eapply lookup_lt_Some.
  - apply Hs; [by eapply all_chunk|]. intros Hx%HT. tauto.
  - done.
  - intros b Hb. apply Hs.
    + apply elem_of_app in Hb as [Hb|Hb]; [by eapply all_free|by eapply all_used].
    + intros [_ Hn]%HT. apply Hn. apply elem_of_app in Hb as [Hb|Hb]; [left; by exists l|by right].
  - by apply (pi_chunk _ _ _ _ _ _ _ Hi).
Qed.

Lemma inv_arr ca fl live k s s' :
  pool_inv B0 arr ca fl live k s -> same s s' arr ->
  m_blocks s' !! arr = Some 64 /\ forall i c, ca !! i = Some c -> m_words s' !! (arr + 8 * Z.of_nat i) = Some c.
Proof.
  intros Hi [Hb Hw]. rewrite Hb. split; [apply (pi_arr _ _ _ _ _ _ _ Hi)|]. intros i c Hc.
  destruct (pi_len _ _ _ _ _ _ _ Hi) as [Hla _]. pose proof (lookup_lt_Some _ _ _ Hc).
  rewrite Hw; [by apply (pi_list _ _ _ _ _ _ _ Hi)|]. exists 64. split; [apply (pi_arr _ _ _ _ _ _ _ Hi)|lia].
Qed.

(** How to show the invariant after an operation: [T] are the blocks it may
    change, [oi] is the class it works on. *)
Lemma inv_step (T : Z -> Prop) (oi : option nat) ca fl live k s fl' live' k' s' :
  pool_inv B0 arr ca fl live k s -> mem_wf s' -> length fl' = 8%nat ->
  (forall y, y ∈ all_blocks arr ca fl live -> ~ T y -> same s s' y) -> (forall y, T y -> y <> arr /\ y ∉ ca) ->
  (forall j c l, oi <> Some j -> ca !! j = Some c -> fl' !! j = Some l ->
     fl !! j = Some l /\ used j live' = used j live /\ m_chunks s' !! c = m_chunks s !! c /\
     (forall y, T y -> ~ in_class fl live j y)) ->
  (forall j c l, oi = Some j -> ca !! j = Some c -> fl' !! j = Some l ->
     m_blocks s' !! c = Some SIZEOF_CHUNK -> chunk_inv s' j c l (used j live') /\ zlen l + zlen (used j live') <= k') ->
  (forall x, x ∈ live' -> is_small x = false -> big_inv s' x) ->
  NoDup (all_blocks arr ca fl' live') /\ B0 ⊆ m_blocks s' /\ (forall b, b ∈ all_blocks arr ca fl' live' -> B0 !! b = None) /\
    size (m_blocks s') = (size B0 + length (all_blocks arr ca fl' live'))%nat ->
  k <= k' -> pool_inv B0 arr ca fl' live' k' s'.
Proof.
  intros Hi Hwf' Hlf' Hs HT Hother Hown Hbig (Hnd & Hsub & Hnew & Hsz) Hk.
  destruct (pi_len _ _ _ _ _ _ _ Hi) as [Hla Hlf].
  assert (same s s' arr) as Harr by (apply Hs; [by left|]; intros Hx%HT; tauto).
  destruct (inv_arr _ _ _ _ _ _ Hi Harr) as [Ha1 Ha2].
  split; try done.
  - intros j c l Hc Hl. destruct (decide (oi = Some j)) as [Ho|Ho].
    + apply (Hown j c l); try done.
      destruct (lookup_lt_is_Some_2 fl j) as [l0 Hl0]; [apply lookup_lt_Some in Hc; lia|].
      destruct (pi_chunk _ _ _ _ _ _ _ Hi j c l0 Hc Hl0) as [<- _]. apply Hs; [by eapply all_chunk|].
      intros [_ Hx]%HT. apply Hx. by eapply list_elem_of_lookup_2.
    + destruct (Hother j c l Ho Hc Hl) as (Hl0 & -> & Hck & HTj).
      apply (inv_other ca fl live k s s' T j c l Hi Hc Hl0 Hs); [|done].
      intros y Hy. split; [|by apply HTj]. intros ->. destruct (HT c Hy) as [_ Hx]. apply Hx. by eapply list_elem_of_lookup_2.
  - intros j l Hl. destruct (lookup_lt_is_Some_2 ca j) as [c Hc]; [apply lookup_lt_Some in Hl; lia|].
    destruct (decide (oi = Some j)) as [Ho|Ho].
    + destruct (lookup_lt_is_Some_2 fl j) as [l0 Hl0]; [apply lookup_lt_Some in Hc; lia|].
      apply (Hown j c l Ho Hc Hl). destruct (pi_chunk _ _ _ _ _ _ _ Hi j c l0 Hc Hl0) as [<- _]. apply Hs; [by eapply all_chunk|].
      intros [_ Hx]%HT. apply Hx. by eapply list_elem_of_lookup_2.
    + destruct (Hother j c l Ho Hc Hl) as (Hl0 & -> & _). pose proof (pi_count _ _ _ _ _ _ _ Hi j l Hl0). lia.
Qed.

(** The large pieces that an operation leaves alone. *)
Lemma inv_big (T : Z -> Prop) ca fl live k s s' x :
  pool_inv B0 arr ca fl live k s -> x ∈ live -> is_small x = false ->
  (forall y, y ∈ all_blocks arr ca fl live -> ~ T y -> same s s' y) -> ~ T (base x) -> big_inv s' x.
Proof.
  intros Hi Hx Hs Hsame HT. apply (big_inv_same s); [done| |by apply (pi_big _ _ _ _ _ _ _ Hi)].
  apply Hsame; [by apply all_live|done].
Qed.

(** Blocks of a class are neither the array, nor chunks, nor large pieces. *)
Lemma in_class_parts ca fl live k s i b :
  pool_inv B0 arr ca fl live k s -> in_class fl live i b ->
  b <> arr /\ b ∉ ca /\ forall x, x ∈ live -> is_small x = false -> b <> base x.
Proof.
  intros Hi Hb. destruct (inv_parts _ _ _ _ _ Hi) as (Hlv & _ & Hd & Hd2 & _).
  assert (b ∈ concat fl \/ b ∈ base <$> live) as Hin.
  { destruct Hb as [(l & Hl & Hb)|(x & Hx & _ & ->)%used_elem]; [left; by eapply elem_concat|right; by apply list_elem_of_fmap_2]. }
  destruct (Hd b Hin). split_and!; [done|done|]. intros x Hx Hs ->.
  destruct Hb as [(l & Hl & Hb)|(y & Hy & Hcy & Ey)%used_elem].
  - apply (Hd2 (base x)); [by eapply elem_concat|by apply list_elem_of_fmap_2].
  - assert (x = y) as -> by (by apply (NoDup_fmap_elem base live)). unfold of_class in Hcy. by rewrite Hs in Hcy.
Qed.
End inv.
