(* ===== verification/PoolOps.v ===== *)
(** The operations of the memory pool keep its invariant. *)

From stdpp Require Import base tactics list numbers gmap.
From S2P Require Import Prelude StateMonad MemPool MemPoolSpec PoolInv.

Local Open Scope Z_scope.

(** The allocator may refuse. *)
Definition refuses `{Malloc} : Prop := exists st bl n, pick st bl n = None.

Section ops.
Context `{MallocLaws} (B0 : gmap Z Z) (arr : Z).

Lemma class_lookup ca fl live k s n :
  pool_inv B0 arr ca fl live k s -> n <= MAX_SIZE ->
  exists c l, ca !! class n = Some c /\ fl !! class n = Some l.
Proof.
  intros Hi Hn. destruct (class_ok n Hn) as (_ & Hlt & _). destruct (pi_len _ _ _ _ _ _ _ Hi) as [Hla Hlf].
  destruct (lookup_lt_is_Some_2 ca (class n)) as [c Hc]; [lia|].
  destruct (lookup_lt_is_Some_2 fl (class n)) as [l Hl]; [lia|]. by exists c, l.
Qed.

Lemma of_class_other i j x : of_class i x = true -> i <> j -> of_class j x = false.
Proof.
  unfold of_class. intros [-> <-%bool_decide_eq_true]%andb_true_iff Hne. by apply bool_decide_eq_false.
Qed.

Lemma of_class_big i x : is_small x = false -> of_class i x = false.
Proof. unfold of_class. by intros ->. Qed.

Lemma small_piece n : n <= MAX_SIZE -> forall b, let x := (b + HEADER, n) in is_small x = true /\ base x = b /\ of_class (class n) x = true.
Proof.
  intros Hn b x. assert (is_small x = true) as Hs by (unfold is_small; cbn; lia).
  split_and!; [done| |exact (of_class_self x Hs)]. unfold base. rewrite Hs. cbn. lia.
Qed.

Lemma big_piece n : MAX_SIZE < n -> forall b, let x := (b + HEAP_HEADER, n) in is_small x = false /\ base x = b.
Proof.
  intros Hn b x. assert (is_small x = false) as Hs by (unfold is_small; cbn; lia).
  split; [done|]. unfold base. rewrite Hs. cbn. lia.
Qed.

(** A new block is counted. *)
Lemma inv_fresh ca fl live k s s' b n live' :
  pool_inv B0 arr ca fl live k s -> m_blocks s !! b = None -> m_blocks s' = <[b := n]> (m_blocks s) ->
  all_blocks arr ca fl live' ≡ₚ b :: all_blocks arr ca fl live ->
  NoDup (all_blocks arr ca fl live') /\ B0 ⊆ m_blocks s' /\ (forall x, x ∈ all_blocks arr ca fl live' -> B0 !! x = None) /\
  size (m_blocks s') = (size B0 + length (all_blocks arr ca fl live'))%nat.
Proof.
  intros Hi Hno Hbl Hp. pose proof (pi_base _ _ _ _ _ _ _ Hi) as Hsub. split_and!.
  - rewrite Hp. apply NoDup_cons. split; [|apply (pi_nodup _ _ _ _ _ _ _ Hi)].
    intros Hin%(inv_live _ _ _ _ _ _ _ _ Hi). rewrite Hno in Hin. by apply is_Some_None in Hin.
  - rewrite Hbl. etrans; [done|by apply insert_subseteq].
  - intros x. rewrite Hp. intros [->|Hx]%elem_of_cons; [by eapply lookup_weaken_None|by apply (pi_new _ _ _ _ _ _ _ Hi)].
  - rewrite Hbl, map_size_insert_None, Hp, (pi_size _ _ _ _ _ _ _ Hi) by done. cbn [length]. lia.
Qed.

(** The step of [Malloc] that takes a free block of the class. *)
Lemma inv_take ca fl live k s s' n b c l :
  pool_inv B0 arr ca fl live k s -> n <= MAX_SIZE -> ca !! class n = Some c -> fl !! class n = Some (b :: l) ->
  mem_wf s' -> (forall x, is_Some (m_blocks s !! x) -> same s s' x) -> m_blocks s' = m_blocks s ->
  m_chunks s' = <[c := mkChunk (hd 0 l) (class_size (class n)) (zlen (b :: l) + zlen (used (class n) live)) false]> (m_chunks s) ->
  pool_inv B0 arr ca (<[class n := l]> fl) ((b + HEADER, n) :: live) (k + 1) s'.
Proof.
  intros Hi Hn Hc Hl Hwf' Hs Hbl Hck. set (i := class n) in *. set (x := (b + HEADER, n)).
  destruct (small_piece n Hn b) as (Hsm & Hbase & Hcl). fold x in Hsm, Hbase, Hcl. fold i in Hcl.
  pose proof (fun y Hy => Hs y (inv_live _ _ _ _ _ _ _ y Hi Hy)) as Hall.
  assert (i < length fl)%nat as Hlt by (by eapply lookup_lt_Some).
  assert (concat fl ≡ₚ b :: concat (<[i := l]> fl)) as Hperm.
  { pose proof (concat_insert_perm (<[i:=l]> fl) i l (b :: l) b (list_lookup_insert_eq _ _ _ Hlt) ltac:(done)) as E.
    by rewrite list_insert_insert_eq, list_insert_id in E. }
  assert (all_blocks arr ca (<[i := l]> fl) (x :: live) ≡ₚ all_blocks arr ca fl live) as Hp.
  { unfold all_blocks. cbn [fmap list_fmap]. rewrite Hbase, Hperm. by apply perm_skip, Permutation_app_head; rewrite <- Permutation_middle. }
  apply (inv_step B0 arr (fun _ => False) (Some i) ca fl live k s); try done; try lia.
  - rewrite length_insert. apply (pi_len _ _ _ _ _ _ _ Hi).
  - intros y Hy _. by apply Hall.
  - intros j c' l' Hj Hc' Hl'. assert (i <> j) by congruence. rewrite list_lookup_insert_ne in Hl' by done.
    rewrite used_cons, (of_class_other i j x Hcl) by done. split_and!; try done.
    rewrite Hck. apply lookup_insert_ne. by eapply inv_chunks_ne.
  - intros j c' l' [= <-] Hc' Hl' Hobj. rewrite Hc in Hc'. injection Hc' as <-. rewrite list_lookup_insert_eq in Hl' by done. injection Hl' as <-.
    rewrite used_cons, Hcl, Hbase. destruct (pi_chunk _ _ _ _ _ _ _ Hi i c (b :: l) Hc Hl) as (_ & _ & Hch & Hblk).
    destruct (class_same s s' i c (b :: l) (used i live)) as [[_ Hch'] Hblk']; [by apply class_ok| |done|done|].
    { intros y Hy. apply Hall. apply elem_of_app in Hy as [Hy|Hy]; [by eapply all_free|by eapply all_used]. }
    pose proof (pi_count _ _ _ _ _ _ _ Hi i (b :: l) Hl) as Hcnt. cbn [length app] in *. split; [split_and!|lia].
    + done.
    + rewrite Hck, lookup_insert_eq. do 2 f_equal. cbn [length]. lia.
    + done.
    + by rewrite <- Permutation_middle.
  - intros y [->|Hy]%elem_of_cons Hbig; [congruence|]. apply (inv_big B0 arr (fun _ => False) ca fl live k s); [done..| |tauto].
    intros z Hz _. by apply Hall.
  - rewrite Hp, Hbl. split_and!; [apply (pi_nodup _ _ _ _ _ _ _ Hi)|apply (pi_base _ _ _ _ _ _ _ Hi)| |apply (pi_size _ _ _ _ _ _ _ Hi)].
    intros y. rewrite Hp. apply (pi_new _ _ _ _ _ _ _ Hi).
Qed.

(** The step of [Malloc] that makes a new block of the class. *)
Lemma inv_create ca fl live k s s' n b c :
  pool_inv B0 arr ca fl live k s -> n <= MAX_SIZE -> ca !! class n = Some c -> fl !! class n = Some [] ->
  mem_wf s' -> (forall x, is_Some (m_blocks s !! x) -> same s s' x) ->
  m_blocks s !! b = None -> m_blocks s' = <[b := HEADER + class_size (class n)]> (m_blocks s) ->
  m_chunks s' = <[c := mkChunk 0 (class_size (class n)) (0 + zlen (used (class n) live) + 1) false]> (m_chunks s) ->
  blk s' c (class_size (class n)) b -> pool_inv B0 arr ca fl ((b + HEADER, n) :: live) (k + 1) s'.
Proof.
  intros Hi Hn Hc Hl Hwf' Hs Hno Hbl Hck Hb. set (i := class n) in *. set (x := (b + HEADER, n)).
  destruct (small_piece n Hn b) as (Hsm & Hbase & Hcl). fold x in Hsm, Hbase, Hcl. fold i in Hcl.
  pose proof (fun y Hy => Hs y (inv_live _ _ _ _ _ _ _ y Hi Hy)) as Hall.
  assert (all_blocks arr ca fl (x :: live) ≡ₚ b :: all_blocks arr ca fl live) as Hp.
  { unfold all_blocks. cbn [fmap list_fmap]. rewrite Hbase. by rewrite !(app_assoc ca), <- Permutation_middle, perm_swap. }
  apply (inv_step B0 arr (fun _ => False) (Some i) ca fl live k s); try done; try lia.
  - apply (pi_len _ _ _ _ _ _ _ Hi).
  - intros y Hy _. by apply Hall.
  - intros j c' l' Hj Hc' Hl'. assert (i <> j) by congruence.
    rewrite used_cons, (of_class_other i j x Hcl) by done. split_and!; try done.
    rewrite Hck. apply lookup_insert_ne. by eapply inv_chunks_ne.
  - intros j c' l' [= <-] Hc' Hl' Hobj. rewrite Hc in Hc'. injection Hc' as <-. rewrite Hl in Hl'. injection Hl' as <-.
    rewrite used_cons, Hcl, Hbase. destruct (pi_chunk _ _ _ _ _ _ _ Hi i c [] Hc Hl) as (_ & _ & Hch & Hblk).
    destruct (class_same s s' i c [] (used i live)) as [Hch' Hblk']; [by apply class_ok| |done|done|].
    { intros y Hy. apply Hall. by eapply all_used. }
    pose proof (pi_count _ _ _ _ _ _ _ Hi i [] Hl) as Hcnt. cbn [length app] in *. split; [split_and!|lia].
    + done.
    + rewrite Hck, lookup_insert_eq. do 2 f_equal. cbn [length]. lia.
    + done.
    + by apply Forall_cons.
  - intros y [->|Hy]%elem_of_cons Hbig; [congruence|]. apply (inv_big B0 arr (fun _ => False) ca fl live k s); [done..| |tauto].
    intros z Hz _. by apply Hall.
  - by eapply inv_fresh.
Qed.

(** The pieces in the order of the client. *)
Lemma all_cons_live ca fl live x : all_blocks arr ca fl (x :: live) ≡ₚ base x :: all_blocks arr ca fl live.
Proof. unfold all_blocks. cbn [fmap list_fmap]. by rewrite !(app_assoc ca), <- Permutation_middle, perm_swap. Qed.

(** The step of [Free] that gives a small piece back. *)
Lemma inv_give ca fl live k s s' x c l :
  pool_inv B0 arr ca fl (x :: live) k s -> is_small x = true -> ca !! class x.2 = Some c -> fl !! class x.2 = Some l ->
  mem_wf s' -> (forall y, y <> base x -> is_Some (m_blocks s !! y) -> same s s' y) -> m_blocks s' = m_blocks s ->
  m_chunks s' = <[c := mkChunk (base x) (class_size (class x.2)) (zlen l + zlen (used (class x.2) (x :: live))) false]> (m_chunks s) ->
  m_words s' !! (base x + HEADER) = Some (hd 0 l) -> blk s' c (class_size (class x.2)) (base x) ->
  pool_inv B0 arr ca (<[class x.2 := base x :: l]> fl) live k s'.
Proof.
  intros Hi Hsm Hc Hl Hwf' Hs Hbl Hck Hw Hb. set (i := class x.2) in *. pose proof (of_class_self x Hsm) as Hcl. fold i in Hcl.
  assert (i < length fl)%nat as Hlt by (by eapply lookup_lt_Some).
  assert (in_class fl (x :: live) i (base x)) as Hin by (right; apply used_elem; exists x; split_and!; [by left|done|done]).
  destruct (in_class_parts _ _ _ _ _ _ _ _ _ Hi Hin) as (Hna & Hnc & Hnb).
  assert (all_blocks arr ca (<[i := base x :: l]> fl) live ≡ₚ all_blocks arr ca fl (x :: live)) as Hp.
  { rewrite all_cons_live. unfold all_blocks. rewrite (concat_insert_perm fl i l (base x :: l) (base x) Hl) by done.
    cbn [app]. by rewrite <- Permutation_middle, perm_swap. }
  assert (forall y, y ∈ all_blocks arr ca fl (x :: live) -> y <> base x -> same s s' y) as Hall.
  { intros y Hy Hne. apply Hs; [done|]. by eapply inv_live. }
  pose proof (pi_nodup _ _ _ _ _ _ _ Hi) as Hnd. rewrite all_cons_live in Hnd. apply NoDup_cons in Hnd as [Hnin _].
  apply (inv_step B0 arr (fun y => y = base x) (Some i) ca fl (x :: live) k s); try done; try lia.
  - rewrite length_insert. apply (pi_len _ _ _ _ _ _ _ Hi).
  - intros y ->. done.
  - intros j c' l' Hj Hc' Hl'. assert (i <> j) by congruence. rewrite list_lookup_insert_ne in Hl' by done.
    rewrite used_cons, (of_class_other i j x Hcl) by done. split_and!; try done.
    + rewrite Hck. apply lookup_insert_ne. by eapply inv_chunks_ne.
    + intros y ->. by eapply in_class_ne.
  - intros j c' l' [= <-] Hc' Hl' Hobj. rewrite Hc in Hc'. injection Hc' as <-. rewrite list_lookup_insert_eq in Hl' by done. injection Hl' as <-.
    destruct (pi_chunk _ _ _ _ _ _ _ Hi i c l Hc Hl) as (_ & _ & Hch & Hblk).
    pose proof (pi_count _ _ _ _ _ _ _ Hi i l Hl) as Hcnt. rewrite used_cons, Hcl in Hck, Hblk, Hcnt. cbn [app length] in Hck, Hblk, Hcnt.
    rewrite <- Permutation_middle in Hblk. apply Forall_cons in Hblk as [_ Hblk].
    destruct (class_same s s' i c l (used i live)) as [Hch' Hblk']; [apply class_ok; unfold is_small in Hsm; lia| |done|done|].
    { intros y Hy. assert (y ∈ all_blocks arr ca fl live) as Hya
        by (apply elem_of_app in Hy as [Hy|Hy]; [by eapply all_free|by eapply all_used]).
      apply Hall; [rewrite all_cons_live; by right|by intros ->]. }
    cbn [length] in *. split; [split_and!|lia].
    + done.
    + rewrite Hck, lookup_insert_eq. do 2 f_equal. cbn [length]. lia.
    + by split.
    + by apply Forall_cons.
  - intros y Hy Hbig. apply (inv_big B0 arr (fun y => y = base x) ca fl (x :: live) k s); [done|by right|done|done|].
    intros E. apply (Hnb y); [by right|done|done].
  - rewrite Hp, Hbl. split_and!; [apply (pi_nodup _ _ _ _ _ _ _ Hi)|apply (pi_base _ _ _ _ _ _ _ Hi)| |apply (pi_size _ _ _ _ _ _ _ Hi)].
    intros y. rewrite Hp. apply (pi_new _ _ _ _ _ _ _ Hi).
Qed.

(** A large piece comes and goes. *)
Lemma inv_big_new ca fl live k s s' n b :
  pool_inv B0 arr ca fl live k s -> MAX_SIZE < n -> mem_wf s' -> (forall y, is_Some (m_blocks s !! y) -> same s s' y) ->
  m_blocks s !! b = None -> m_blocks s' = <[b := HEAP_HEADER + n]> (m_blocks s) -> m_chunks s' = m_chunks s ->
  m_words s' !! b = Some n -> raw s' b -> pool_inv B0 arr ca fl ((b + HEAP_HEADER, n) :: live) (k + 1) s'.
Proof.
  intros Hi Hn Hwf' Hs Hno Hbl Hck Hw Hr. set (x := (b + HEAP_HEADER, n)).
  destruct (big_piece n Hn b) as (Hsm & Hbase). fold x in Hsm, Hbase.
  pose proof (fun y Hy => Hs y (inv_live _ _ _ _ _ _ _ y Hi Hy)) as Hall.
  apply (inv_step B0 arr (fun _ => False) None ca fl live k s); try done; try lia.
  - apply (pi_len _ _ _ _ _ _ _ Hi).
  - intros y Hy _. by apply Hall.
  - intros j c' l' _ Hc' Hl'. rewrite used_cons, (of_class_big j x Hsm). by rewrite Hck.
  - intros y [->|Hy]%elem_of_cons Hbig.
    + split_and!; rewrite ?Hbase; [by rewrite Hbl, lookup_insert_eq|done|done].
    + apply (inv_big B0 arr (fun _ => False) ca fl live k s); [done..| |tauto]. intros z Hz _. by apply Hall.
  - eapply inv_fresh; [done|done|done|]. by rewrite all_cons_live, Hbase.
Qed.

Lemma inv_big_free ca fl live k s s' x :
  pool_inv B0 arr ca fl (x :: live) k s -> is_small x = false -> mem_wf s' ->
  (forall y, y <> base x -> is_Some (m_blocks s !! y) -> same s s' y) ->
  m_blocks s' = delete (base x) (m_blocks s) -> m_chunks s' = m_chunks s -> pool_inv B0 arr ca fl live k s'.
Proof.
  intros Hi Hsm Hwf' Hs Hbl Hck. pose proof (all_cons_live ca fl live x) as Hp.
  pose proof (pi_nodup _ _ _ _ _ _ _ Hi) as Hnd. rewrite Hp in Hnd. apply NoDup_cons in Hnd as [Hnin Hnd].
  assert (forall y, y ∈ all_blocks arr ca fl (x :: live) -> y <> base x -> same s s' y) as Hall.
  { intros y Hy Hne. apply Hs; [done|]. by eapply inv_live. }
  destruct (inv_live _ _ _ _ _ _ _ (base x) Hi) as [m Hm]; [rewrite Hp; by left|].
  destruct (inv_parts _ _ _ _ _ _ _ Hi) as (Hlv & _ & Hd & Hd2 & _).
  destruct (Hd (base x)) as [Hna Hnc]; [right; by left|].
  apply (inv_step B0 arr (fun y => y = base x) None ca fl (x :: live) k s); try done; try lia.
  - apply (pi_len _ _ _ _ _ _ _ Hi).
  - intros y ->. done.
  - intros j c' l' _ Hc' Hl'. rewrite used_cons, (of_class_big j x Hsm). rewrite Hck. split_and!; try done.
    intros y -> Hin. destruct (in_class_parts _ _ _ _ _ _ _ _ _ Hi Hin) as (_ & _ & Hnb). by apply (Hnb x); [left| |].
  - intros y Hy Hbig. apply (inv_big B0 arr (fun y => y = base x) ca fl (x :: live) k s); [done|by right|done|done|].
    intros E. apply Hnin. rewrite <- E. by apply all_live.
  - split_and!; [done| | |].
    + rewrite Hbl. apply map_subseteq_spec. intros y m' Hy. apply lookup_delete_Some. split.
      * intros <-. rewrite (pi_new _ _ _ _ _ _ _ Hi) in Hy; [done|]. rewrite Hp. by left.
      * by apply (lookup_weaken _ _ _ _ Hy), (pi_base _ _ _ _ _ _ _ Hi).
    + intros y Hy. apply (pi_new _ _ _ _ _ _ _ Hi). rewrite Hp. by right.
    + pose proof (pi_size _ _ _ _ _ _ _ Hi) as Hsz. rewrite Hp in Hsz. cbn [length] in Hsz.
      rewrite Hbl, map_size_delete_Some by by eexists. lia.
Qed.

(** Nothing happened to the pool. *)
Lemma inv_unchanged ca fl live k s s' :
  pool_inv B0 arr ca fl live k s -> mem_wf s' -> (forall y, y ∈ all_blocks arr ca fl live -> same s s' y) ->
  m_blocks s' = m_blocks s -> m_chunks s' = m_chunks s -> pool_inv B0 arr ca fl live k s'.
Proof.
  intros Hi Hwf Hall Hbl Hck. apply (inv_step B0 arr (fun _ => False) None ca fl live k s); try done.
  - apply (pi_len _ _ _ _ _ _ _ Hi).
  - intros y Hy _. by apply Hall.
  - intros j c l _ Hc Hl. by rewrite Hck.
  - intros x Hx Hxs. apply (inv_big B0 arr (fun _ => False) ca fl live k s); [done..| |tauto]. intros z Hz _. by apply Hall.
  - rewrite Hbl. by destruct Hi.
Qed.

(** [MemoryPool::Malloc]: NULL when the allocator refuses, or a new piece. *)
Lemma pool_Malloc_ok ca fl live k s n :
  pool_inv B0 arr ca fl live k s -> n + HEAP_HEADER <= SIZE_MAX -> 0 <= k < INT_MAX ->
  exists p s', pool_Malloc (mkPool arr 8) n s = Ok (p, s') /\
    (forall y, y ∈ all_blocks arr ca fl live -> same s s' y) /\
    ((p = 0 /\ refuses /\ pool_inv B0 arr ca fl live k s') \/
     (0 < p /\ exists fl', pool_inv B0 arr ca fl' ((p, n) :: live) (k + 1) s')).
Proof.
  intros Hi Hn Hk. unfold pool_Malloc. cbn [pChunkList]. destruct (Z.ltb_spec MAX_SIZE n) as [Hbig|Hsm].
  - unfold pool_malloc. rewrite size_t_id by (unfold HEAP_HEADER, MAX_SIZE in *; climits).
    destruct (c_malloc_ok (HEAP_HEADER + n) s (pi_wf _ _ _ _ _ _ _ Hi)) as (b & s1 & E & Hwf1 & Hck1 & Hs1 & Hc); [unfold HEAP_HEADER, MAX_SIZE in *; lia|].
    run E. pose proof (fun y Hy => Hs1 y (inv_live _ _ _ _ _ _ _ y Hi Hy)) as Hall.
    destruct Hc as [(-> & Hp & Hbl)|(Hb & Hno & Hbl & Hr)].
    + change (negb (0 =? 0)) with false. cbn iota. eexists 0, s1. split; [done|]. split; [done|]. left. split_and!; [done|by eexists _, _, _|].
      by apply (inv_unchanged ca fl live k s).
    + rewrite (proj2 (Z.eqb_neq b 0)) by lia. cbn [negb].
      assert (m_blocks s1 !! b = Some (HEAP_HEADER + n)) as Hbb by (rewrite Hbl; apply lookup_insert_eq).
      destruct (store_ok s1 b 0 n Hwf1) as (s2 & E2 & -> & Hwf2 & Hv & Ho & Hs2).
      { exists (HEAP_HEADER + n). split; [done|unfold HEAP_HEADER, MAX_SIZE in *; lia]. }
      { apply (Hr _ 0 Hbb); unfold HEAP_HEADER, MAX_SIZE in *; lia. }
      rewrite Z.add_0_r in *. run E2. set (s2 := set_words _ s1) in *.
      assert (forall y, is_Some (m_blocks s !! y) -> same s s2 y) as Hs12.
      { intros y Hy. apply (same_trans s s1); [by apply Hs1|]. apply Hs2; [intros ->; destruct Hy; congruence|].
        rewrite Hbl. destruct (decide (y = b)) as [->|]; [by rewrite lookup_insert_eq|by rewrite lookup_insert_ne]. }
      eexists _, s2. split; [reflexivity|]. split; [intros y Hy; by apply Hs12, (inv_live _ _ _ _ _ _ _ y Hi Hy)|].
      right. split; [unfold HEAP_HEADER; lia|]. exists fl. apply (inv_big_new ca fl live k s s2 n b); try done.
      intros m i Hm Hi0 Hlt. destruct (decide (i = 0)) as [->|]; [change (8 * 0) with 0; by rewrite Z.add_0_r, Hv|].
      rewrite Ho by lia. by apply (Hr m).
  - destruct (class_ok n Hsm) as (Ecl & Hlt & Hfit & _). destruct (class_lookup _ _ _ _ _ _ Hi Hsm) as (c & l & Hc & Hl).
    rewrite Ecl, (sbind_ok (slift _) _ _ (Z.of_nat (class n)) s) by done.
    run (load_ok _ _ _ (pi_list _ _ _ _ _ _ _ Hi _ _ Hc)).
    destruct (pi_chunk _ _ _ _ _ _ _ Hi _ c l Hc Hl) as (_ & Hck & Hch & [Hfl _]%Forall_app).
    pose proof (pi_count _ _ _ _ _ _ _ Hi _ l Hl) as Hcnt.
    destruct (chunk_malloc_ok c l (class_size (class n)) _ s (pi_wf _ _ _ _ _ _ _ Hi) Hck (class_size_bounds _ Hlt) ltac:(lia) Hch Hfl)
      as (p & s1 & E & [Hwf1 Hoth] & Hs1 & Hcase).
    pose proof (fun y Hy => Hs1 y (inv_live _ _ _ _ _ _ _ y Hi Hy)) as Hall.
    exists p, s1. split; [done|]. split; [done|]. destruct l as [|b l].
    + destruct Hcase as [(-> & Hp & Hbl & Hck1)|(b & Hb & -> & Hno & Hbl & Hck1 & Hk1)].
      * left. split_and!; [done|by eexists _, _, _|].
        by apply (inv_unchanged ca fl live k s).
      * right. split; [unfold HEADER; lia|]. exists fl. by apply (inv_create ca fl live k s s1 n b c).
    + destruct Hcase as (-> & _ & Hbl & Hck1). right.
      pose proof (wf_block s (pi_wf _ _ _ _ _ _ _ Hi) b _ (proj1 (proj1 (proj1 (Forall_cons _ _ _) Hfl)))).
      split; [unfold HEADER; lia|]. exists (<[class n := l]> fl). by apply (inv_take ca fl live k s s1 n b c l).
Qed.

(** A small piece is in a block of its class. *)
Lemma inv_small ca fl live k s x :
  pool_inv B0 arr ca fl live k s -> x ∈ live -> is_small x = true ->
  exists c l, ca !! class x.2 = Some c /\ fl !! class x.2 = Some l /\ x.1 = base x + HEADER /\ (class x.2 < 8)%nat /\
    x.2 <= class_size (class x.2) /\ blk s c (class_size (class x.2)) (base x) /\
    m_chunks s !! c = Some (mkChunk (hd 0 l) (class_size (class x.2)) (zlen l + zlen (used (class x.2) live)) false).
Proof.
  intros Hi Hx Hsm. assert (x.2 <= MAX_SIZE) as Hn by (unfold is_small in Hsm; lia).
  destruct (class_ok _ Hn) as (_ & Hlt & Hfit & _). destruct (class_lookup _ _ _ _ _ _ Hi Hn) as (c & l & Hc & Hl).
  destruct (pi_chunk _ _ _ _ _ _ _ Hi _ c l Hc Hl) as (_ & Hck & _ & [_ Hb]%Forall_app).
  exists c, l. split_and!; try done.
  - unfold base. rewrite Hsm. lia.
  - apply (proj1 (Forall_forall _ _) Hb), used_elem. exists x. by rewrite of_class_self.
Qed.

(** A piece of a class that has a free block is that block. *)
Lemma pool_take_ok ca fl live k s n b l :
  pool_inv B0 arr ca fl live k s -> n <= MAX_SIZE -> fl !! class n = Some (b :: l) -> 0 <= k < INT_MAX ->
  exists s', pool_Malloc (mkPool arr 8) n s = Ok (b + HEADER, s') /\ m_blocks s' = m_blocks s /\ m_step s' = m_step s /\
    pool_inv B0 arr ca (<[class n := l]> fl) ((b + HEADER, n) :: live) (k + 1) s'.
Proof.
  intros Hi Hsm Hl Hk. unfold pool_Malloc. cbn [pChunkList]. bfalse (MAX_SIZE <? n).
  destruct (class_ok n Hsm) as (Ecl & Hlt & Hfit & _). destruct (class_lookup _ _ _ _ _ _ Hi Hsm) as (c & l' & Hc & Hl'). assert (l' = b :: l) as -> by congruence.
  rewrite Ecl, (sbind_ok (slift _) _ _ (Z.of_nat (class n)) s) by done. run (load_ok _ _ _ (pi_list _ _ _ _ _ _ _ Hi _ _ Hc)).
  destruct (pi_chunk _ _ _ _ _ _ _ Hi _ c _ Hc Hl) as (_ & Hck & Hch & [Hfl _]%Forall_app). pose proof (pi_count _ _ _ _ _ _ _ Hi _ _ Hl) as Hcnt.
  destruct (chunk_malloc_ok c (b :: l) (class_size (class n)) _ s (pi_wf _ _ _ _ _ _ _ Hi) Hck (class_size_bounds _ Hlt) ltac:(lia) Hch Hfl)
    as (p & s1 & E & [Hwf1 _] & Hs1 & -> & Hst & Hbl & Hck1).
  exists s1. split_and!; [done..|]. by apply (inv_take ca fl live k s s1 n b c l).
Qed.

(** A small piece goes to the front of the free blocks of its class. *)
Lemma pool_give_ok ca fl live k s x l :
  pool_inv B0 arr ca fl (x :: live) k s -> is_small x = true -> fl !! class x.2 = Some l ->
  exists s', pool_Free (mkPool arr 8) x.1 s = Ok (tt, s') /\ m_blocks s' = m_blocks s /\
    pool_inv B0 arr ca (<[class x.2 := base x :: l]> fl) live k s' /\
    (forall y, y <> base x -> is_Some (m_blocks s !! y) -> same s s' y).
Proof.
  intros Hi Hsm Hl. unfold pool_Free, pool_free. destruct (inv_small _ _ _ _ _ x Hi ltac:(by left) Hsm) as (c & l' & Hc & Hl' & Ex & Hlt & Hfit & Hb & Hck).
  assert (l' = l) as -> by congruence. pose proof (class_size_bounds _ Hlt) as Hcs.
  rewrite sbind_assoc. replace (x.1 - HEAP_HEADER) with (base x + 8) by (unfold HEAP_HEADER, HEADER in *; lia).
  run (load_ok _ _ _ (proj1 (proj2 (proj2 Hb)))). bfalse (MAX_SIZE <? class_size (class x.2)). rewrite sbind_ret. cbn [negb].
  destruct (chunk_free_ok c _ _ _ (base x) s (pi_wf _ _ _ _ _ _ _ Hi) Hck ltac:(lia) Hb) as (s1 & E & [Hwf1 _] & Hbl & Hck1 & Hw & Hb1 & Hs1).
  rewrite Ex, E. exists s1. split_and!; [done|done| |done]. by apply (inv_give ca fl live k s s1 x c l).
Qed.

(** [MemoryPool::Free]: the header tells small pieces from large ones, and the
    chunk of a small one. *)
Lemma pool_Free_ok ca fl live k s x :
  pool_inv B0 arr ca fl (x :: live) k s ->
  exists fl' s', pool_Free (mkPool arr 8) x.1 s = Ok (tt, s') /\ pool_inv B0 arr ca fl' live k s' /\
    (forall y, y ∈ live -> same s s' (base y)).
Proof.
  intros Hi. unfold pool_Free, pool_free. pose proof (pi_wf _ _ _ _ _ _ _ Hi) as Hwf.
  assert (forall y, y ∈ live -> is_Some (m_blocks s !! base y) /\ base y <> base x) as Hlv.
  { intros y Hy. split; [eapply inv_live; [done|]; apply all_live; by right|].
    destruct (inv_parts _ _ _ _ _ _ _ Hi) as ([Hnin _]%NoDup_cons & _). intros E. apply Hnin. rewrite <- E. by apply list_elem_of_fmap_2. }
  destruct (is_small x) eqn:Hsm.
  - destruct (inv_small _ _ _ _ _ x Hi ltac:(by left) Hsm) as (_ & l & _ & Hl & _).
    destruct (pool_give_ok ca fl live k s x l Hi Hsm Hl) as (s1 & E & _ & Hi1 & Hs1). unfold pool_Free, pool_free in E.
    eexists _, s1. split; [exact E|]. split; [done|]. intros y Hy. destruct (Hlv y Hy). by apply Hs1.
  - destruct (pi_big _ _ _ _ _ _ _ Hi x ltac:(by left) Hsm) as (Hb & Hw & Hr).
    rewrite sbind_assoc. replace (x.1 - HEAP_HEADER) with (base x) by (unfold base; rewrite Hsm; lia).
    run (load_ok _ _ _ Hw). assert (MAX_SIZE < x.2) by (unfold is_small in Hsm; lia). btrue (MAX_SIZE <? x.2).
    destruct (c_free_ok _ _ s Hwf Hb) as (s1 & E & Hwf1 & Hck & Hbl & Hs1). rewrite sbind_assoc. run E. rewrite sbind_ret. cbn [negb].
    exists fl, s1. split; [done|]. split; [|intros y Hy; destruct (Hlv y Hy); by apply Hs1].
    by apply (inv_big_free ca fl live k s s1 x).
Qed.

(** A word of a piece. *)
Lemma inv_word ca fl live k s x j :
  pool_inv B0 arr ca fl live k s -> x ∈ live -> 0 <= j -> 8 * j + 8 <= x.2 ->
  exists off, x.1 + 8 * j = base x + off /\ in_block s (base x) off /\ is_Some (m_words s !! (base x + off)) /\
    (if is_small x then HEADER <= off else HEAP_HEADER <= off).
Proof.
  intros Hi Hx Hj Hfit. destruct (is_small x) eqn:Hsm.
  - destruct (inv_small _ _ _ _ _ x Hi Hx Hsm) as (c & l & Hc & Hl & Ex & Hlt & Hcs & (Hb & _ & _ & Hr) & _).
    exists (HEADER + 8 * j). split_and!; [lia| | |lia].
    + exists (HEADER + class_size (class x.2)). split; [done|unfold HEADER; lia].
    + replace (HEADER + 8 * j) with (8 * (2 + j)) by (unfold HEADER; lia). apply (Hr _ (2 + j) Hb); unfold HEADER; lia.
  - destruct (pi_big _ _ _ _ _ _ _ Hi x Hx Hsm) as (Hb & _ & Hr). exists (HEAP_HEADER + 8 * j). split_and!; [| | |lia].
    + unfold base. rewrite Hsm. lia.
    + exists (HEAP_HEADER + x.2). split; [done|unfold HEAP_HEADER; lia].
    + replace (HEAP_HEADER + 8 * j) with (8 * (1 + j)) by (unfold HEAP_HEADER; lia). apply (Hr _ (1 + j) Hb); unfold HEAP_HEADER; lia.
Qed.

Lemma raw_insert s b a v : is_Some (m_words s !! a) -> raw s b -> raw (set_words (<[a := v]> (m_words s)) s) b.
Proof.
  intros Ha Hr n i Hn Hi Hlt. cbn in *. destruct (decide (b + 8 * i = a)) as [->|]; [by rewrite lookup_insert_eq|].
  rewrite lookup_insert_ne by done. by apply (Hr n).
Qed.

(** The client writes to a word of its piece. *)
Lemma inv_write ca fl live k s x j v :
  pool_inv B0 arr ca fl live k s -> x ∈ live -> 0 <= j -> 8 * j + 8 <= x.2 ->
  exists s', store (x.1 + 8 * j) v s = Ok (tt, s') /\ pool_inv B0 arr ca fl live k s' /\
    m_words s' = <[x.1 + 8 * j := v]> (m_words s).
Proof.
  intros Hi Hx Hj Hfit. destruct (inv_word _ _ _ _ _ x j Hi Hx Hj Hfit) as (off & Eoff & Hin & Hw & Hoff). rewrite Eoff.
  pose proof (pi_wf _ _ _ _ _ _ _ Hi) as Hwf.
  destruct (store_ok s (base x) off v Hwf Hin Hw) as (s' & E & -> & Hwf' & _ & _ & Hs). set (s' := set_words _ s) in *.
  exists s'. split; [done|]. split; [|done].
  assert (forall y, y ∈ all_blocks arr ca fl live -> y <> base x -> same s s' y) as Hall.
  { intros y Hy Hne. apply Hs; [done|]. by eapply inv_live. }
  destruct (inv_parts _ _ _ _ _ _ _ Hi) as (Hlv & _ & Hd & Hd2 & _).
  destruct (Hd (base x)) as [Hna Hnc]; [right; by apply list_elem_of_fmap_2|].
  apply (inv_step B0 arr (fun y => y = base x) (if is_small x then Some (class x.2) else None) ca fl live k s); try done.
  - apply (pi_len _ _ _ _ _ _ _ Hi).
  - intros y ->. done.
  - intros i c l Ho Hc Hl. split_and!; try done. intros y -> Hcl. destruct (is_small x) eqn:Hsm.
    + apply (in_class_ne B0 arr ca fl live k s (class x.2) i (base x) Hi); [|congruence|done].
      right. apply used_elem. exists x. by rewrite of_class_self.
    + destruct (in_class_parts _ _ _ _ _ _ _ _ _ Hi Hcl) as (_ & _ & Hnb). by apply (Hnb x).
  - intros i c l Ho Hc Hl Hobj. destruct (is_small x) eqn:Hsm; [|done]. injection Ho as <-.
    split; [|by apply (pi_count _ _ _ _ _ _ _ Hi)].
    destruct (pi_chunk _ _ _ _ _ _ _ Hi _ c l Hc Hl) as (_ & Hck & Hch & Hblk).
    assert (forall y, y ∈ l ++ used (class x.2) live -> y <> base x -> same s s' y) as Hsl.
    { intros y Hy Hne. apply Hall; [|done]. apply elem_of_app in Hy as [Hy|Hy]; [by eapply all_free|by eapply all_used]. }
    destruct (class_ok x.2) as (_ & Hlt & _); [unfold is_small in Hsm; lia|]. pose proof (class_size_bounds _ Hlt).
    split_and!; [done|done| |].
    + apply (chain_same s s' c (class_size (class x.2))); [lia|by apply Forall_app in Hblk as [??]| |done].
      intros y Hy. apply Hsl; [set_solver|]. intros ->. apply (Hd2 (base x)); [by eapply elem_concat|by apply list_elem_of_fmap_2].
    + apply Forall_forall. intros y Hy. pose proof (proj1 (Forall_forall _ _) Hblk y Hy) as Hb.
      destruct (decide (y = base x)) as [->|]; [|by apply (blk_same s); [lia|apply Hsl|]].
      destruct Hb as (Hb & Hw0 & Hw1 & Hr). unfold HEADER in Hoff. split_and!; [done| | |by apply raw_insert]; cbn; by rewrite lookup_insert_ne by lia.
  - intros y Hy Hbig. destruct (decide (y = x)) as [->|Hne].
    + rewrite Hbig in Hoff. destruct (pi_big _ _ _ _ _ _ _ Hi x Hx Hbig) as (Hb & Hw0 & Hr). unfold HEAP_HEADER in Hoff.
      split_and!; [done| |by apply raw_insert]. cbn. by rewrite lookup_insert_ne by lia.
    + apply (inv_big B0 arr (fun y => y = base x) ca fl live k s); [done..|]. intros E'. apply Hne. by apply (NoDup_fmap_elem base live).
  - by destruct Hi.
Qed.

(** Words of different pieces are different. *)
Lemma inv_words_ne ca fl live k s x y i j :
  pool_inv B0 arr ca fl live k s -> x ∈ live -> y ∈ live -> x <> y -> 0 <= i -> 8 * i + 8 <= x.2 -> 0 <= j -> 8 * j + 8 <= y.2 ->
  x.1 + 8 * i <> y.1 + 8 * j.
Proof.
  intros Hinv Hx Hy Hne Hi Hfi Hj Hfj.
  destruct (inv_word _ _ _ _ _ x i Hinv Hx Hi Hfi) as (o & -> & Ho & _). destruct (inv_word _ _ _ _ _ y j Hinv Hy Hj Hfj) as (o' & -> & Ho' & _).
  apply (apart_words s); [apply (pi_wf _ _ _ _ _ _ _ Hinv)|done|done|]. intros E. apply Hne.
  destruct (inv_parts _ _ _ _ _ _ _ Hinv) as (Hlv & _). by apply (NoDup_fmap_elem base live).
Qed.
End ops.
