(* ===== verification/PoolLife.v ===== *)
(** Construction and destruction of the memory pool. *)

From stdpp Require Import base tactics list numbers gmap.
From S2P Require Import Prelude StateMonad MemPool MemPoolSpec PoolInv PoolOps.

Local Open Scope Z_scope.

(** A pool of which the chunks of the classes from [o] on are there, and no
    memory is handed out. *)
Record part (B0 : gmap Z Z) (arr : Z) (o : nat) (ca : list Z) (fl : list (list Z)) (k : Z) (s : pmem) : Prop := {
  pt_wf : mem_wf s;
  pt_arr : m_blocks s !! arr = Some 64;
  pt_raw : raw s arr;
  pt_list i c : ca !! i = Some c -> m_words s !! (arr + 8 * Z.of_nat (o + i)) = Some c;
  pt_len : length ca = length fl /\ (o + length ca <= 8)%nat;
  pt_chunk i c l : ca !! i = Some c -> fl !! i = Some l -> chunk_inv s (o + i) c l [];
  pt_nodup : NoDup (all_blocks arr ca fl []);
  pt_live b : b ∈ all_blocks arr ca fl [] -> is_Some (m_blocks s !! b);
  pt_base : B0 ⊆ m_blocks s;
  pt_new b : b ∈ all_blocks arr ca fl [] -> B0 !! b = None;
  pt_size : size (m_blocks s) = (size B0 + length (all_blocks arr ca fl []))%nat;
  pt_count i l : fl !! i = Some l -> zlen l <= k
}.

Lemma used_nil i : used i [] = [].
Proof. done. Qed.

(** The whole pool. *)
Lemma part_inv B0 arr ca fl k s : length ca = 8%nat -> part B0 arr 0 ca fl k s -> pool_inv B0 arr ca fl [] k s.
Proof.
  intros Hl [H1 H2 H3 H4 [H5 _] H6 H7 H8 H9 H10 H11 H12]. split; try done.
  - lia.
  - intros x Hx. by apply elem_of_nil in Hx.
  - intros i l Hi. cbn. specialize (H12 i l Hi). lia.
Qed.

Lemma inv_part B0 arr ca fl k s : raw s arr -> pool_inv B0 arr ca fl [] k s -> part B0 arr 0 ca fl k s.
Proof.
  intros Hr Hi. pose proof (fun b => inv_live _ _ _ _ _ _ _ b Hi) as Hlive. destruct Hi as [H1 H2 H3 H4 H5 H6 H7 H8 H9 H10 H11]. split; try done.
  - lia.
  - intros i l Hi. specialize (H11 i l Hi). cbn in H11. lia.
Qed.

Section life.
Context `{MallocLaws}.

(** The blocks a chunk starts with: as many as asked for, or until the
    allocator refuses. *)
Lemma create_loop_ok n c l sz s :
  mem_wf s -> m_chunks s !! c = Some (mkChunk (hd 0 l) sz (zlen l) false) -> 8 <= sz <= MAX_SIZE ->
  chain s l -> Forall (blk s c sz) l -> NoDup l -> zlen l + Z.of_nat n <= INT_MAX ->
  exists new s', create_loop n c s = Ok (tt, s') /\ frame s s' c /\
    m_chunks s' !! c = Some (mkChunk (hd 0 (new ++ l)) sz (zlen (new ++ l)) false) /\
    chain s' (new ++ l) /\ Forall (blk s' c sz) (new ++ l) /\ NoDup (new ++ l) /\ (length new <= n)%nat /\
    (forall b, b ∈ new -> m_blocks s !! b = None) /\ (forall b, is_Some (m_blocks s !! b) -> same s s' b) /\
    m_blocks s ⊆ m_blocks s' /\ size (m_blocks s') = (size (m_blocks s) + length new)%nat.
Proof.
  revert l s. induction n as [|n IH]; intros l s Hwf Hc Hsz Hch Hfl Hnd Hmax; cbn [create_loop].
  { exists [], s. cbn. split_and!; try done; try lia. intros b Hb. by apply elem_of_nil in Hb. }
  destruct (CreateBlock_ok c _ sz _ false s Hwf Hc Hsz ltac:(lia)) as (b & s1 & E & [Hwf1 Hoth1] & Hs1 & [(-> & Hp & Hbl & Hck)|(Hb & Hno & Hbl & Hck & Hk)]); run E.
  { change (0 =? 0) with true. cbn iota. exists [], s1. cbn [app]. rewrite Hck, Hbl. split_and!; try done; try (cbn; lia).
    - apply (chain_same s s1 c sz); [lia|done| |done]. intros y Hy. eapply Hs1, blk_live, (proj1 (Forall_forall _ _) Hfl y Hy).
    - apply Forall_forall. intros y Hy. pose proof (proj1 (Forall_forall _ _) Hfl y Hy) as Hby. apply (blk_same s); [lia|by eapply Hs1, blk_live|done].
    - intros y Hy. by apply elem_of_nil in Hy. }
  rewrite (proj2 (Z.eqb_neq b 0)) by lia.
  destruct (push_block_ok c (hd 0 l) sz (zlen l + 1) false b s1) as (s2 & E2 & [Hwf2 Hoth2] & Hbl2 & Hck2 & Hw2 & Hk2 & Hs2); [done| |lia|done|].
  { rewrite Hck. apply lookup_insert_eq. }
  run E2.
  assert (forall y, is_Some (m_blocks s !! y) -> same s s2 y) as Hs12.
  { intros y Hy. apply (same_trans s s1); [by apply Hs1|]. apply Hs2; [intros ->; destruct Hy; congruence|].
    rewrite Hbl. destruct (decide (y = b)) as [->|]; [by rewrite lookup_insert_eq|by rewrite lookup_insert_ne]. }
  assert (forall y, y ∈ l -> is_Some (m_blocks s !! y)) as Hll.
  { intros y Hy. eapply blk_live, (proj1 (Forall_forall _ _) Hfl y Hy). }
  destruct (IH (b :: l) s2) as (new & s' & E3 & [Hwf3 Hoth3] & Hc3 & Hch3 & Hfl3 & Hnd3 & Hlen & Hnew & Hs3 & Hsub & Hsize).
  - done.
  - rewrite Hck2, lookup_insert_eq. do 2 f_equal. cbn [length]. lia.
  - done.
  - split; [done|]. apply (chain_same s s2 c sz); [lia|done| |done]. intros y Hy. by apply Hs12, Hll.
  - apply Forall_cons. split; [done|]. apply Forall_forall. intros y Hy.
    apply (blk_same s); [lia|by apply Hs12, Hll|by apply (proj1 (Forall_forall _ _) Hfl)].
  - apply NoDup_cons. split; [|done]. intros Hin%Hll. destruct Hin. congruence.
  - cbn [length]. lia.
  - exists (new ++ [b]), s'. rewrite <- app_assoc. cbn [app]. rewrite Hbl2, Hbl in *. split_and!; try done.
    + split; [done|]. intros c' Hc'. by rewrite Hoth3, Hoth2, Hoth1.
    + rewrite length_app. cbn. lia.
    + intros y [Hy| ->%list_elem_of_singleton]%elem_of_app; [|done]. specialize (Hnew y Hy). by apply lookup_insert_None in Hnew as [??].
    + intros y Hy. apply (same_trans s s2); [by apply Hs12|]. apply Hs3. rewrite lookup_insert_is_Some'. by right.
    + etrans; [by apply (insert_subseteq _ b (HEADER + sz))|done].
    + rewrite Hsize, map_size_insert_None, length_app by done. cbn. lia.
Qed.

(** A chunk joins the pool. *)
Lemma part_snoc B0 arr ca fl s c new s3 s4 :
  part B0 arr 0 ca fl 1000 s -> (length ca < 8)%nat -> m_blocks s !! c = None -> c ∉ new -> NoDup new ->
  (forall b, b ∈ new -> m_blocks s !! b = None) -> (length new <= 1000)%nat ->
  mem_wf s3 -> (forall b, is_Some (m_blocks s !! b) -> same s s3 b) -> (forall c', c' <> c -> m_chunks s3 !! c' = m_chunks s !! c') ->
  m_blocks s ⊆ m_blocks s3 -> size (m_blocks s3) = (size (m_blocks s) + S (length new))%nat ->
  chunk_inv s3 (length ca) c new [] ->
  s4 = set_words (<[arr + 8 * Z.of_nat (length ca) := c]> (m_words s3)) s3 -> mem_wf s4 ->
  (forall b, b <> arr -> is_Some (m_blocks s3 !! b) -> same s3 s4 b) ->
  is_Some (m_words s3 !! (arr + 8 * Z.of_nat (length ca))) ->
  part B0 arr 0 (ca ++ [c]) (fl ++ [new]) 1000 s4.
Proof.
  intros Hp Hlt Hno Hcn Hndn Hnew Hln Hwf3 Hs3 Hoth Hsub Hsz Hci -> Hwf4 Hs4 Hiw.
  destruct (pt_len _ _ _ _ _ _ _ Hp) as [Hlen Hle]. cbn in Hle.
  pose proof (pt_arr _ _ _ _ _ _ _ Hp) as Harr. set (s4 := set_words _ s3) in *.
  assert (all_blocks arr (ca ++ [c]) (fl ++ [new]) [] ≡ₚ c :: new ++ all_blocks arr ca fl []) as Hperm.
  { unfold all_blocks. cbn [fmap list_fmap]. rewrite concat_app. cbn [concat]. rewrite !app_nil_r.
    rewrite <- app_assoc. cbn [app]. rewrite <- Permutation_middle, perm_swap. apply perm_skip.
    rewrite <- Permutation_middle. apply perm_skip. by rewrite !app_assoc, (Permutation_app_comm (ca ++ concat fl) new), app_assoc. }
  assert (forall b, b ∈ all_blocks arr ca fl [] -> b <> c /\ b ∉ new) as Hold.
  { intros b Hb. destruct (pt_live _ _ _ _ _ _ _ Hp b Hb) as [m Hm]. split; [intros ->; congruence|]. intros Hin%Hnew. congruence. }
  assert (forall b, b ∈ all_blocks arr ca fl [] -> b <> arr -> same s s4 b) as Hsame.
  { intros b Hb Hne. destruct (pt_live _ _ _ _ _ _ _ Hp b Hb) as [m Hm].
    apply (same_trans s s3); [by apply Hs3; eexists|]. apply Hs4; [done|]. eexists. by eapply lookup_weaken. }
  assert (same s s3 arr) as Hsa by (apply Hs3; by rewrite Harr).
  destruct Hci as (Hcb & Hcc & Hch & Hblk). rewrite app_nil_r in Hblk.
  pose proof (pt_nodup _ _ _ _ _ _ _ Hp) as Hnd.
  split.
  - done.
  - cbn. by rewrite (proj1 Hsa).
  - apply raw_insert; [done|]. by apply (raw_same s s3), (pt_raw _ _ _ _ _ _ _ Hp).
  - intros i c' [Hi|[Hi [Hi0 <-]%list_lookup_singleton_Some]]%lookup_app_Some.
    + cbn. pose proof (lookup_lt_Some _ _ _ Hi). rewrite lookup_insert_ne by lia.
      rewrite (proj2 Hsa) by (exists 64; split; [done|lia]). by apply (pt_list _ _ _ _ _ _ _ Hp).
    + replace (0 + i)%nat with (length ca) by lia. cbn. by rewrite lookup_insert_eq.
  - rewrite !length_app. cbn. lia.
  - intros i c' l [Hi|[Hi Hx]]%lookup_app_Some Hl.
    + apply lookup_app_Some in Hl as [Hl|[Hl _]]; [|apply lookup_lt_Some in Hi; lia].
      pose proof (all_chunk arr ca fl [] i c' Hi) as Hin. destruct (Hold c' Hin) as [Hc'c _].
      assert (arr ∉ ca /\ arr ∉ concat fl) as [Hna Hnf].
      { apply NoDup_cons in Hnd as [Hnd _]. cbn in Hnd. rewrite app_nil_r in Hnd. by apply not_elem_of_app in Hnd. }
      apply (chunk_inv_same s).
      * pose proof (lookup_lt_Some _ _ _ Hi). lia.
      * apply Hsame; [done|]. intros ->. apply Hna. by eapply list_elem_of_lookup_2.
      * by apply Hoth.
      * rewrite app_nil_r. intros b Hb. apply Hsame; [by eapply all_free|]. intros ->. apply Hnf. by eapply elem_concat.
      * by apply (pt_chunk _ _ _ _ _ _ _ Hp).
    + apply list_lookup_singleton_Some in Hx as [Hi0 <-].
      apply lookup_app_Some in Hl as [Hl|[Hl Hx]]; [apply lookup_lt_Some in Hl; lia|].
      apply list_lookup_singleton_Some in Hx as [_ <-]. replace (0 + i)%nat with (length ca) by lia.
      assert (forall b, b ∈ new -> same s3 s4 b) as Hsn.
      { intros b Hb. apply Hs4; [intros ->; specialize (Hnew arr Hb); congruence|]. by eapply blk_live, (proj1 (Forall_forall _ _) Hblk). }
      destruct (class_same s3 s4 (length ca) c new []) as [H1 H2]; [done|by rewrite app_nil_r|done|by rewrite app_nil_r|].
      done.
  - rewrite Hperm. apply NoDup_cons. split.
    + rewrite elem_of_app. intros [?|Hin]; [done|]. by destruct (Hold c Hin).
    + apply NoDup_app. split_and!; [done| |done]. intros b Hb Hin. by destruct (Hold b Hin).
  - intros b. rewrite Hperm, elem_of_cons, elem_of_app. cbn. intros [->|[Hb|Hb]].
    + by rewrite Hcb.
    + by eapply blk_live, (proj1 (Forall_forall _ _) Hblk).
    + destruct (pt_live _ _ _ _ _ _ _ Hp b Hb) as [m Hm]. eexists. by eapply lookup_weaken.
  - cbn. etrans; [apply (pt_base _ _ _ _ _ _ _ Hp)|done].
  - intros b. rewrite Hperm, elem_of_cons, elem_of_app. pose proof (pt_base _ _ _ _ _ _ _ Hp) as Hbs. intros [->|[Hb|Hb]].
    + by eapply lookup_weaken_None.
    + eapply lookup_weaken_None; [by apply Hnew|done].
    + by apply (pt_new _ _ _ _ _ _ _ Hp).
  - change (m_blocks s4) with (m_blocks s3). rewrite Hsz, Hperm, (pt_size _ _ _ _ _ _ _ Hp). cbn [length]. rewrite length_app. lia.
  - intros i l [Hl|[_ [_ <-]%list_lookup_singleton_Some]]%lookup_app_Some; [by apply (pt_count _ _ _ _ _ _ _ Hp i)|lia].
Qed.

(** The loop that makes the chunks. *)
Lemma chunks_loop_ok B0 arr fuel ca fl s :
  part B0 arr 0 ca fl 1000 s -> (8 - length ca < fuel)%nat ->
  (chunks_loop fuel arr (class_size (length ca)) (Z.of_nat (length ca)) s = Fault Thrown /\ refuses) \/
  exists ca' fl' s', chunks_loop fuel arr (class_size (length ca)) (Z.of_nat (length ca)) s = Ok (tt, s') /\
    part B0 arr 0 ca' fl' 1000 s' /\ length ca' = 8%nat.
Proof.
  revert ca fl s. induction fuel as [|fuel IH]; intros ca fl s Hp Hf; [lia|]. cbn [chunks_loop].
  destruct (pt_len _ _ _ _ _ _ _ Hp) as [Hlen Hle]. cbn in Hle. pose proof (pt_arr _ _ _ _ _ _ _ Hp) as Harr.
  destruct (decide (length ca = 8%nat)) as [E8|E8].
  { right. rewrite E8. change (class_size 8 <=? MAX_SIZE) with false. cbn iota. by eexists _, _, _. }
  pose proof (class_size_bounds (length ca) ltac:(lia)) as Hcs. btrue (class_size (length ca) <=? MAX_SIZE).
  unfold new_MemoryChunk, c_new. rewrite !sbind_assoc.
  destruct (c_malloc_ok SIZEOF_CHUNK s (pt_wf _ _ _ _ _ _ _ Hp) ltac:(done)) as (c & s1 & E & Hwf1 & Hck1 & Hs1 & Hcase). run E.
  destruct Hcase as [(-> & Hpk & _)|(Hc & Hno & Hbl & _)].
  { left. change (0 =? 0) with true. cbn iota. split; [done|]. by eexists _, _, _. }
  rewrite (proj2 (Z.eqb_neq c 0)) by lia. rewrite sbind_ret, sbind_assoc, (sbind_ok (put_chunk _ _)) with (1 := eq_refl).
  set (s2 := set_chunk c _ s1).
  destruct (create_loop_ok 1000 c [] (class_size (length ca)) s2) as (new & s3 & E3 & [Hwf3 Hoth3] & Hc3 & Hch3 & Hblk3 & Hnd3 & Hln & Hnew & Hs3 & Hsub3 & Hsz3);
    [by apply set_chunk_wf|apply lookup_insert_eq|done|done|done|apply NoDup_nil_2|by vm_compute|].
  rewrite app_nil_r in *. rewrite sbind_assoc. run E3. rewrite sbind_ret.
  assert (forall b, is_Some (m_blocks s !! b) -> same s s3 b) as Hss3.
  { intros b Hb. apply (same_trans s s1); [by apply Hs1|]. apply (same_trans s1 s2); [done|]. apply Hs3. cbn. rewrite Hbl, lookup_insert_is_Some'. by right. }
  assert (same s s3 arr) as Hsa by (apply Hss3; by rewrite Harr).
  assert (is_Some (m_words s3 !! (arr + 8 * Z.of_nat (length ca)))) as Hiw.
  { apply (raw_same s s3 arr Hsa (pt_raw _ _ _ _ _ _ _ Hp) 64); [by rewrite (proj1 Hsa)|lia|lia]. }
  destruct (store_ok s3 arr (8 * Z.of_nat (length ca)) c Hwf3) as (s4 & E4 & Es4 & Hwf4 & _ & _ & Hs4); [|done|].
  { exists 64. rewrite (proj1 Hsa). split; [done|lia]. }
  run E4.
  assert (part B0 arr 0 (ca ++ [c]) (fl ++ [new]) 1000 s4) as Hp4.
  { apply (part_snoc B0 arr ca fl s c new s3 s4); try done.
    - lia.
    - intros Hin. specialize (Hnew c Hin). cbn in Hnew. by rewrite Hbl, lookup_insert_eq in Hnew.
    - intros b Hb. specialize (Hnew b Hb). cbn in Hnew. rewrite Hbl in Hnew. by apply lookup_insert_None in Hnew as [??].
    - intros c' Hne. rewrite Hoth3 by done. cbn. by rewrite lookup_insert_ne, Hck1.
    - etrans; [|done]. cbn. rewrite Hbl. by apply insert_subseteq.
    - rewrite Hsz3. cbn. rewrite Hbl, map_size_insert_None by done. lia.
    - split_and!; [|by rewrite Hc3; do 2 f_equal; cbn; lia|done|by rewrite app_nil_r].
      eapply lookup_weaken; [|done]. cbn. by rewrite Hbl, lookup_insert_eq. }
  assert (class_size (length ca) * 2 = class_size (length (ca ++ [c]))) as Edbl.
  { unfold class_size. rewrite length_app, Nat2Z.inj_add, Z.pow_add_r by lia. cbn. lia. }
  unfold MAX_SIZE in *. rewrite size_t_id, Edbl by climits.
  replace (Z.of_nat (length ca) + 1) with (Z.of_nat (length (ca ++ [c]))) by (rewrite length_app; cbn; lia).
  apply (IH _ (fl ++ [new])); [done|]. rewrite length_app. cbn. lia.
Qed.

(** [new MemoryPool()]: the pool, or an exception when the allocator refuses. *)
Lemma new_MemoryPool_ok s :
  mem_wf s ->
  (new_MemoryPool s = Fault Thrown /\ refuses) \/
  exists arr ca fl s', new_MemoryPool s = Ok (mkPool arr 8, s') /\ pool_inv (m_blocks s) arr ca fl [] 1000 s'.
Proof.
  intros Hwf. unfold new_MemoryPool. change (count_loop SIZES MIN_SIZE 0) with (@Ok Z 8).
  rewrite (sbind_ok (slift (Ok 8)) _ s 8 s) by done. unfold c_new. rewrite sbind_assoc. change (8 * 8) with 64.
  destruct (c_malloc_ok 64 s Hwf ltac:(done)) as (arr & s1 & E & Hwf1 & Hck1 & Hs1 & [(-> & Hpk & _)|(Ha & Hno & Hbl & Hr)]); run E.
  { left. split; [done|]. by eexists _, _, _. }
  rewrite (proj2 (Z.eqb_neq arr 0)) by lia. rewrite sbind_ret.
  assert (part (m_blocks s) arr 0 [] [] 1000 s1) as Hp.
  { split; try done; unfold all_blocks; cbn.
    - by rewrite Hbl, lookup_insert_eq.
    - lia.
    - apply NoDup_singleton.
    - intros b ->%list_elem_of_singleton. by rewrite Hbl, lookup_insert_eq.
    - rewrite Hbl. by apply insert_subseteq.
    - by intros b ->%list_elem_of_singleton.
    - rewrite Hbl, map_size_insert_None by done. lia. }
  destruct (chunks_loop_ok (m_blocks s) arr SIZES [] [] s1 Hp) as [[E2 Href]|(ca & fl & s2 & E2 & Hp2 & Hl)]; [unfold SIZES; cbn; lia| |].
  - left. split; [|done]. by apply sbind_fault.
  - right. change (class_size (length [])) with MIN_SIZE in E2. run E2. eexists _, ca, fl, s2. split; [done|]. by apply part_inv.
Qed.

(** [delete] of the first chunk: all its blocks are back, so the assertion of
    the destructor holds. *)
Lemma delete_chunk_ok B0 arr o c ca l fl k s :
  part B0 arr o (c :: ca) (l :: fl) k s -> k <= INT_MAX ->
  exists s', delete_MemoryChunk c s = Ok (tt, s') /\ part B0 arr (S o) ca fl k s'.
Proof.
  intros Hp Hk. destruct (pt_len _ _ _ _ _ _ _ Hp) as [Hlen Hle]. cbn [length] in Hle, Hlen.
  pose proof (pt_nodup _ _ _ _ _ _ _ Hp) as Hnd. pose proof (pt_size _ _ _ _ _ _ _ Hp) as Hsz.
  assert (all_blocks arr (c :: ca) (l :: fl) [] ≡ₚ c :: l ++ all_blocks arr ca fl []) as Hperm.
  { unfold all_blocks. cbn [concat fmap list_fmap]. rewrite !app_nil_r. cbn [app]. rewrite perm_swap. apply perm_skip.
    rewrite <- Permutation_middle. apply perm_skip. by rewrite !app_assoc, (Permutation_app_comm ca l). }
  rewrite Hperm in Hnd, Hsz. cbn [length] in Hsz. rewrite length_app in Hsz.
  apply NoDup_cons in Hnd as [Hcn (Hndl & Hd & Hnd)%NoDup_app]. apply not_elem_of_app in Hcn as [Hcl Hca].
  destruct (pt_chunk _ _ _ _ _ _ _ Hp 0 c l eq_refl eq_refl) as (Hcb & Hcc & Hch & Hblk). rewrite Nat.add_0_r, app_nil_r in *.
  cbn [length] in Hcc. rewrite Z.add_0_r in Hcc. pose proof (pt_count _ _ _ _ _ _ _ Hp 0 l eq_refl) as Hcnt.
  pose proof (class_size_bounds o ltac:(lia)) as Hcs.
  unfold delete_MemoryChunk. rewrite (sbind_ok sget _ s s s) by done.
  destruct (delete_loop_ok l (S (size (m_blocks s))) c (class_size o) (zlen l) false 0 s (pt_wf _ _ _ _ _ _ _ Hp) Hcc ltac:(lia) Hch Hblk Hndl)
    as (s1 & E & [Hwf1 Hoth1] & Hc1 & Hbl1 & Hs1); [lia|lia|lia|].
  run E. run (get_chunk_ok _ _ _ Hc1). rewrite sassert_true by (cbn; lia). rewrite (sbind_ok (smodify _)) with (1 := eq_refl).
  set (s2 := mkMem _ _ _ _).
  assert (forall b, b ∉ l -> m_blocks s1 !! b = m_blocks s !! b) as Hout by (intros b Hb; rewrite Hbl1; by apply foldr_delete_out).
  destruct (c_free_ok c SIZEOF_CHUNK s2) as (s3 & E3 & Hwf3 & Hck3 & Hbl3 & Hs3); [by destruct Hwf1|cbn; by rewrite Hout|].
  exists s3. split; [done|].
  assert (forall b, b ∈ all_blocks arr ca fl [] -> b ∉ l /\ b <> c /\ is_Some (m_blocks s !! b)) as Hold.
  { intros b Hb. split_and!; [intros Hl; by apply (Hd b Hl)|by intros ->|].
    apply (pt_live _ _ _ _ _ _ _ Hp). rewrite Hperm. right. apply elem_of_app. by right. }
  assert (forall b, b ∈ all_blocks arr ca fl [] -> same s s3 b) as Hall.
  { intros b Hb. destruct (Hold b Hb) as (Hl & Hc & Hlv). apply (same_trans s s1); [by apply Hs1|].
    apply (same_trans s1 s2); [done|]. apply Hs3; [done|]. cbn. by rewrite Hout. }
  assert (m_blocks s3 = delete c (foldr delete (m_blocks s) l)) as Hb3 by (rewrite Hbl3; cbn; by rewrite Hbl1).
  assert (same s s3 arr) as Hsa by (apply Hall; by left).
  pose proof (pt_arr _ _ _ _ _ _ _ Hp) as Harr.
  split.
  - done.
  - by rewrite (proj1 Hsa).
  - by apply (raw_same s s3), (pt_raw _ _ _ _ _ _ _ Hp).
  - intros i c' Hi. pose proof (lookup_lt_Some _ _ _ Hi). rewrite (proj2 Hsa) by (exists 64; split; [done|lia]).
    replace (S o + i)%nat with (o + S i)%nat by lia. by apply (pt_list _ _ _ _ _ _ _ Hp).
  - lia.
  - intros i c' l' Hc' Hl'. replace (S o + i)%nat with (o + S i)%nat by lia.
    pose proof (all_chunk arr ca fl [] i c' Hc') as Hin. destruct (Hold c' Hin) as (_ & Hne & _).
    apply (chunk_inv_same s).
    + pose proof (lookup_lt_Some _ _ _ Hc'). lia.
    + by apply Hall.
    + rewrite Hck3. cbn. rewrite lookup_delete_ne by done. by apply Hoth1.
    + rewrite app_nil_r. intros b Hb. apply Hall. by eapply all_free.
    + by apply (pt_chunk _ _ _ _ _ _ _ Hp (S i)).
  - done.
  - intros b Hb. destruct (Hold b Hb) as (_ & _ & Hlv). by rewrite (proj1 (Hall b Hb)).
  - apply map_subseteq_spec. intros b m Hb. rewrite Hb3.
    assert (b ∉ c :: l) as [Hbc Hbl]%not_elem_of_cons.
    { intros Hin. rewrite (pt_new _ _ _ _ _ _ _ Hp b) in Hb; [done|]. rewrite Hperm. apply elem_of_cons in Hin as [->|Hin]; [by left|].
      right. apply elem_of_app. by left. }
    rewrite lookup_delete_ne, foldr_delete_out by done. by eapply lookup_weaken, (pt_base _ _ _ _ _ _ _ Hp).
  - intros b Hb. apply (pt_new _ _ _ _ _ _ _ Hp). rewrite Hperm. right. apply elem_of_app. by right.
  - assert (size (foldr delete (m_blocks s) l) + length l = size (m_blocks s))%nat as Hsd.
    { assert (forall b, b ∈ l -> is_Some (m_blocks s !! b)) as Hlv by (intros b Hb; by eapply blk_live, (proj1 (Forall_forall _ _) Hblk)).
      clear -Hndl Hlv. induction l as [|b l IH]; [cbn; lia|]. apply NoDup_cons in Hndl as [Hb Hnd]. cbn [foldr length].
      assert (is_Some (foldr delete (m_blocks s) l !! b)) as Hx by (rewrite foldr_delete_out by done; apply Hlv; by left).
      rewrite map_size_delete_Some by done. specialize (IH Hnd ltac:(intros; apply Hlv; by right)).
      assert (size (foldr delete (m_blocks s) l) <> 0)%nat by (destruct Hx as [y Hy]; by apply (map_size_ne_0_lookup_2 _ b); rewrite Hy). lia. }
    assert (is_Some (foldr delete (m_blocks s) l !! c)) as Hx by (rewrite foldr_delete_out by done; by rewrite Hcb).
    assert (size (foldr delete (m_blocks s) l) <> 0)%nat by (destruct Hx as [y Hy]; by apply (map_size_ne_0_lookup_2 _ c); rewrite Hy).
    rewrite Hb3, map_size_delete_Some by done. lia.
  - intros i l' Hl'. by apply (pt_count _ _ _ _ _ _ _ Hp (S i)).
Qed.

Lemma delete_chunks_ok B0 arr o ca fl k s :
  part B0 arr o ca fl k s -> k <= INT_MAX ->
  exists s', delete_chunks (length ca) arr (Z.of_nat o) s = Ok (tt, s') /\ part B0 arr (o + length ca) [] [] k s'.
Proof.
  revert o fl s. induction ca as [|c ca IH]; intros o fl s Hp Hk; cbn [delete_chunks length].
  - destruct fl; [|by destruct (pt_len _ _ _ _ _ _ _ Hp)]. rewrite Nat.add_0_r. by exists s.
  - destruct fl as [|l fl]; [by destruct (pt_len _ _ _ _ _ _ _ Hp)|].
    pose proof (pt_list _ _ _ _ _ _ _ Hp 0 c eq_refl) as Hw. rewrite Nat.add_0_r in Hw.
    run (load_ok _ _ _ Hw). destruct (delete_chunk_ok _ _ _ _ _ _ _ _ _ Hp Hk) as (s1 & E & Hp1). run E.
    replace (Z.of_nat o + 1) with (Z.of_nat (S o)) by lia. destruct (IH (S o) fl s1 Hp1 Hk) as (s2 & E2 & Hp2).
    exists s2. split; [done|]. by replace (o + S (length ca))%nat with (S o + length ca)%nat by lia.
Qed.

(** [delete] of a pool to which everything was given back: the C allocator has
    every block again. *)
Lemma delete_MemoryPool_ok B0 arr ca fl k s :
  pool_inv B0 arr ca fl [] k s -> k <= INT_MAX ->
  exists s', delete_MemoryPool (mkPool arr 8) s = Ok (tt, s') /\ m_blocks s' = B0.
Proof.
  intros Hi Hk. destruct (pi_len _ _ _ _ _ _ _ Hi) as [Hla _].
  assert (raw s arr) as Hr.
  { intros n i Hn Hi0 Hlt. rewrite (pi_arr _ _ _ _ _ _ _ Hi) in Hn. injection Hn as <-.
    destruct (lookup_lt_is_Some_2 ca (Z.to_nat i)) as [c Hc]; [lia|]. pose proof (pi_list _ _ _ _ _ _ _ Hi _ _ Hc) as Hw.
    rewrite Z2Nat.id in Hw by lia. by rewrite Hw. }
  destruct (delete_chunks_ok B0 arr 0 ca fl k s (inv_part _ _ _ _ _ _ Hr Hi) Hk) as (s1 & E & Hp).
  unfold delete_MemoryPool. cbn [chunkcount pChunkList]. change (Z.to_nat 8) with 8%nat. rewrite Hla in E. change (Z.of_nat 0) with 0 in E. run E.
  destruct (c_free_ok arr 64 s1 (pt_wf _ _ _ _ _ _ _ Hp) (pt_arr _ _ _ _ _ _ _ Hp)) as (s2 & E2 & _ & _ & Hbl & _).
  exists s2. split; [done|]. rewrite Hbl. symmetry. pose proof (pt_size _ _ _ _ _ _ _ Hp) as Hsz. cbn in Hsz.
  apply map_subseteq_size_eq.
  - apply map_subseteq_spec. intros b m Hb. apply lookup_delete_Some. split; [|by eapply lookup_weaken, (pt_base _ _ _ _ _ _ _ Hp)].
    intros <-. rewrite (pt_new _ _ _ _ _ _ _ Hp arr) in Hb; [done|by left].
  - rewrite map_size_delete_Some by (by rewrite (pt_arr _ _ _ _ _ _ _ Hp)). lia.
Qed.
End life.
