(* ===== verification/PoolClient.v ===== *)
(** Clients of the memory pool: every run refines a heap in which the pieces of
    memory are independent arrays. *)

From stdpp Require Import base tactics list numbers gmap.
From S2P Require Import Prelude StateMonad MemPool MemPoolSpec PoolInv PoolOps PoolLife.

Local Open Scope Z_scope.

(** * Clients *)

(** A client asks for memory, gives the [i]-th piece it asked for back, and
    writes and reads words of a piece it holds. *)
Inductive op :=
| OMalloc (n : Z)
| OFree (i : nat)
| OWrite (i : nat) (j v : Z)
| ORead (i : nat) (j : Z).

(** The pieces asked for, in order: [None] when the request was refused or the
    piece is no longer held. *)
Abbreviation slots := (list (option piece)).

Definition word_of (x : piece) (j : Z) : bool := (0 <=? j) && (8 * j + 8 <=? x.2).

Section client.
Context `{Malloc}.

(** What a client does only with pieces it holds. *)
Definition with_piece (sl : slots) (i : nat) (f : piece -> PM (slots * option Z)) : PM (slots * option Z) :=
  match sl !! i with Some (Some x) => f x | _ => sret (sl, None) end.

Definition run_op (pool : MemoryPool) (sl : slots) (o : op) : PM (slots * option Z) :=
  match o with
  | OMalloc n =>
      do* p := pool_Malloc pool n in
      sret (sl ++ [if p =? 0 then None else Some (p, n)], None)
  | OFree i =>
      with_piece sl i (fun x =>
        do* _ := pool_Free pool x.1 in
        sret (<[i := None]> sl, None))
  | OWrite i j v =>
      with_piece sl i (fun x =>
        if word_of x j then
          do* _ := store (x.1 + 8 * j) v in
          sret (sl, None)
        else sret (sl, None))
  | ORead i j =>
      with_piece sl i (fun x =>
        if word_of x j then
          do* v := load (x.1 + 8 * j) in
          sret (sl, Some v)
        else sret (sl, None))
  end.

Fixpoint run_ops (pool : MemoryPool) (sl : slots) (ops : list op) : PM (slots * list (option Z)) :=
  match ops with
  | [] => sret (sl, [])
  | o :: ops =>
      do* (sl, r) := run_op pool sl o in
      do* (sl, rs) := run_ops pool sl ops in
      sret (sl, r :: rs)
  end.

Fixpoint free_all (pool : MemoryPool) (sl : slots) : PM unit :=
  match sl with
  | [] => sret tt
  | Some x :: sl => do* _ := pool_Free pool x.1 in free_all pool sl
  | None :: sl => free_all pool sl
  end.

(** A pool from its construction to its destruction. *)
Definition session (ops : list op) : PM (list (option Z)) :=
  do* pool := new_MemoryPool in
  do* (sl, rs) := run_ops pool [] ops in
  do* _ := free_all pool sl in
  do* _ := delete_MemoryPool pool in
  sret rs.
End client.

(** * The abstract heap *)

(** An array of words with its size in bytes and the words written so far. *)
Abbreviation array := (Z * gmap Z Z)%type.

(** [null] says that a request may be refused. *)
Inductive astep (null : Prop) : list (option array) -> op -> option Z -> list (option array) -> Prop :=
| a_malloc a n : astep null a (OMalloc n) None (a ++ [Some (n, ∅)])
| a_null a n : null -> astep null a (OMalloc n) None (a ++ [None])
| a_free a i x : a !! i = Some (Some x) -> astep null a (OFree i) None (<[i := None]> a)
| a_write a i j v n ws :
    a !! i = Some (Some (n, ws)) -> 0 <= j -> 8 * j + 8 <= n ->
    astep null a (OWrite i j v) None (<[i := Some (n, <[j := v]> ws)]> a)
| a_read a i j v n ws :
    a !! i = Some (Some (n, ws)) -> 0 <= j -> 8 * j + 8 <= n -> ws !! j = Some v \/ ws !! j = None ->
    astep null a (ORead i j) (Some v) a
| a_skip a o i : (o = OFree i \/ (exists j v, o = OWrite i j v) \/ exists j, o = ORead i j) ->
    (forall n ws, a !! i = Some (Some (n, ws)) ->
       match o with OWrite _ j _ | ORead _ j => ~ (0 <= j /\ 8 * j + 8 <= n) | _ => False end) ->
    astep null a o None a.

Inductive asteps (null : Prop) : list (option array) -> list op -> list (option Z) -> list (option array) -> Prop :=
| as_nil a : asteps null a [] [] a
| as_cons a o r a' ops rs a'' : astep null a o r a' -> asteps null a' ops rs a'' -> asteps null a (o :: ops) (r :: rs) a''.

(** * The refinement *)

Definition held (sl : slots) : list piece := omap id sl.

Lemma held_snoc sl x : held (sl ++ [x]) ≡ₚ match x with Some x => x :: held sl | None => held sl end.
Proof.
  unfold held. rewrite omap_app. destruct x as [x|]; cbn; [|by rewrite app_nil_r]. by rewrite <- Permutation_cons_append.
Qed.

Lemma held_drop sl i x : sl !! i = Some (Some x) -> held sl ≡ₚ x :: held (<[i := None]> sl).
Proof.
  unfold held. revert i. induction sl as [|[y|] sl IH]; intros [|i] Hi; cbn in *; simplify_eq; try done.
  - rewrite (IH i Hi). apply perm_swap.
  - by apply IH.
Qed.

Lemma held_elem sl i x : sl !! i = Some (Some x) -> x ∈ held sl.
Proof. intros Hi. rewrite (held_drop sl i x Hi). by left. Qed.

(** A slot holds what was written to its array. *)
Definition slot_rel (s : pmem) (x : option piece) (a : option array) : Prop :=
  match x, a with
  | None, None => True
  | Some x, Some (n, ws) =>
      x.2 = n /\ forall j v, ws !! j = Some v -> 0 <= j /\ 8 * j + 8 <= n /\ m_words s !! (x.1 + 8 * j) = Some v
  | _, _ => False
  end.

Definition sizes_ok (o : op) : Prop := match o with OMalloc n => 0 <= n /\ n + HEAP_HEADER <= SIZE_MAX | _ => True end.

Section refinement.
Context `{MallocLaws} (B0 : gmap Z Z) (arr : Z) (ca : list Z).

(** The pool holds the slots, which are as the abstract arrays. *)
Definition client_inv (k : Z) (s : pmem) (sl : slots) (a : list (option array)) : Prop :=
  exists fl, pool_inv B0 arr ca fl (held sl) k s /\ Forall2 (slot_rel s) sl a.

Lemma slot_same fl live k s s' x a :
  pool_inv B0 arr ca fl live k s -> x ∈ live -> same s s' (base x) -> slot_rel s (Some x) a -> slot_rel s' (Some x) a.
Proof.
  intros Hi Hx [_ Hs]. destruct a as [[n ws]|]; [|done]. cbn. intros [Hn Hw]. split; [done|]. intros j v Hj.
  destruct (Hw j v Hj) as (H1 & H2 & H3). split_and!; [done|done|].
  destruct (inv_word _ _ _ _ _ _ _ x j Hi Hx H1 ltac:(lia)) as (off & E & Hin & _). rewrite E in *. by rewrite Hs.
Qed.

Lemma slots_same fl live k s s' sl a :
  pool_inv B0 arr ca fl live k s -> (forall x, x ∈ held sl -> x ∈ live /\ same s s' (base x)) ->
  Forall2 (slot_rel s) sl a -> Forall2 (slot_rel s') sl a.
Proof.
  intros Hi Hs Hf. apply Forall2_same_length_lookup. split; [by eapply Forall2_length|].
  intros i x y Hx Hy. pose proof (Forall2_lookup_lr _ _ _ _ _ _ Hf Hx Hy) as Hr.
  destruct x as [x|]; [|by destruct y]. destruct (Hs x (held_elem _ _ _ Hx)). by eapply slot_same.
Qed.

Lemma inv_mono fl live k s : pool_inv B0 arr ca fl live k s -> pool_inv B0 arr ca fl live (k + 1) s.
Proof.
  intros Hi. pose proof (pi_count _ _ _ _ _ _ _ Hi) as Hc. destruct Hi. split; try done.
  intros i l Hl. specialize (Hc i l Hl). lia.
Qed.

(** What the [i]-th slot and the [i]-th array are. *)
Lemma client_lookup s sl a i :
  Forall2 (slot_rel s) sl a ->
  match sl !! i with
  | Some (Some x) => exists ws, a !! i = Some (Some (x.2, ws)) /\ slot_rel s (Some x) (Some (x.2, ws))
  | _ => forall n ws, a !! i <> Some (Some (n, ws))
  end.
Proof.
  intros Hf. destruct (sl !! i) as [x|] eqn:Ex.
  - destruct (Forall2_lookup_l _ _ _ _ _ Hf Ex) as (y & Ey & Hr). destruct x as [x|], y as [[n ws]|]; try done.
    + pose proof Hr as [<- _]. by exists ws.
    + intros n ws. by rewrite Ey.
  - intros n ws Ea. by destruct (Forall2_lookup_r _ _ _ _ _ Hf Ea) as (x & Ex' & _); congruence.
Qed.

(** One operation, concretely and abstractly. *)
Definition op_ok (k : Z) (s : pmem) (sl : slots) (a : list (option array)) (o : op) : Prop :=
  exists sl' r s' a', run_op (mkPool arr 8) sl o s = Ok (sl', r, s') /\ astep refuses a o r a' /\ client_inv (k + 1) s' sl' a'.

Lemma client_skip k s sl a o i :
  client_inv k s sl a -> run_op (mkPool arr 8) sl o s = Ok (sl, None, s) ->
  (o = OFree i \/ (exists j v, o = OWrite i j v) \/ exists j, o = ORead i j) ->
  (forall n ws, a !! i = Some (Some (n, ws)) ->
     match o with OWrite _ j _ | ORead _ j => ~ (0 <= j /\ 8 * j + 8 <= n) | _ => False end) ->
  op_ok k s sl a o.
Proof.
  intros (fl & Hi & Hf) E Ho Hn. exists sl, None, s, a. split; [done|]. split; [by eapply a_skip|].
  exists fl. split; [by apply inv_mono|done].
Qed.

Lemma run_malloc_ok k s sl a n :
  client_inv k s sl a -> n + HEAP_HEADER <= SIZE_MAX -> 0 <= k < INT_MAX -> op_ok k s sl a (OMalloc n).
Proof.
  intros (fl & Hi & Hf) Hn Hk. unfold op_ok. cbn [run_op].
  destruct (pool_Malloc_ok B0 arr ca fl (held sl) k s n Hi Hn Hk) as (p & s1 & E & Hs & Hcase). run E.
  assert (Forall2 (slot_rel s1) sl a) as Hf1.
  { apply (slots_same fl (held sl) k s); [done| |done]. intros x Hx. split; [done|]. by apply Hs, all_live. }
  destruct Hcase as [(-> & Href & Hi1)|(Hp & fl1 & Hi1)].
  - change (0 =? 0) with true. eexists _, _, s1, _. split; [reflexivity|]. split; [by apply a_null|].
    exists fl. split; [|by apply Forall2_app; [|constructor]]. apply inv_mono. eapply inv_perm; [|done]. by rewrite held_snoc.
  - rewrite (proj2 (Z.eqb_neq p 0)) by lia. eexists _, _, s1, _. split; [reflexivity|]. split; [by apply a_malloc|].
    exists fl1. split; [eapply inv_perm; [|done]; by rewrite held_snoc|].
    apply Forall2_app; [done|]. constructor; [|done]. cbn. split; [done|]. intros j v Hj. by rewrite lookup_empty in Hj.
Qed.

Lemma run_free_ok k s sl a i : client_inv k s sl a -> op_ok k s sl a (OFree i).
Proof.
  intros Hc. pose proof Hc as (fl & Hi & Hf). pose proof (client_lookup s sl a i Hf) as Hlk.
  destruct (sl !! i) as [[x|]|] eqn:Ex.
  2,3: apply (client_skip k s sl a _ i Hc); [cbn; unfold with_piece; by rewrite Ex|by left|intros n ws Ha; by eapply Hlk].
  destruct Hlk as (ws & Ha & _). unfold op_ok. cbn [run_op]. unfold with_piece. rewrite Ex.
  destruct (pool_Free_ok B0 arr ca fl (held (<[i := None]> sl)) k s x) as (fl1 & s1 & E & Hi1 & Hs).
  { eapply inv_perm; [|done]. by apply held_drop. }
  run E. eexists _, _, s1, _. split; [reflexivity|]. split; [by eapply a_free|]. exists fl1. split; [by apply inv_mono|].
  apply (slots_same fl (held sl) k s); [done| |by apply Forall2_insert].
  intros y Hy. split; [|by apply Hs]. rewrite (held_drop sl i x Ex). by right.
Qed.

(** The pieces of different slots are different. *)
Lemma held_ne fl k s sl i i' x y :
  pool_inv B0 arr ca fl (held sl) k s -> sl !! i = Some (Some x) -> sl !! i' = Some (Some y) -> i <> i' -> x <> y.
Proof.
  intros Hi Ex Ey Hne ->. pose proof (inv_perm _ _ _ _ _ _ _ _ (held_drop sl i y Ex) Hi) as Hi'.
  destruct (inv_parts _ _ _ _ _ _ _ Hi') as ([Hnin _]%NoDup_cons & _). apply Hnin, list_elem_of_fmap_2.
  apply (held_elem _ i'). by rewrite list_lookup_insert_ne.
Qed.

Lemma word_of_spec x j : word_of x j = true <-> 0 <= j /\ 8 * j + 8 <= x.2.
Proof. unfold word_of. lia. Qed.

Lemma run_write_ok k s sl a i j v : client_inv k s sl a -> op_ok k s sl a (OWrite i j v).
Proof.
  intros Hc. pose proof Hc as (fl & Hi & Hf). pose proof (client_lookup s sl a i Hf) as Hlk.
  destruct (sl !! i) as [[x|]|] eqn:Ex.
  2,3: apply (client_skip k s sl a _ i Hc); [cbn; unfold with_piece; by rewrite Ex|right; left; by eauto|intros n ws Ha; by destruct (Hlk n ws)].
  destruct Hlk as (ws & Ha & _ & Hr). destruct (word_of x j) eqn:Hw.
  2: { apply (client_skip k s sl a _ i Hc); [cbn; unfold with_piece; by rewrite Ex, Hw|right; left; by eauto|].
       intros n ws' Ha' Hfit. simplify_eq. apply word_of_spec in Hfit. congruence. }
  apply word_of_spec in Hw as Hfit. destruct Hfit as [Hj Hfit].
  destruct (inv_write B0 arr ca fl (held sl) k s x j v Hi (held_elem _ _ _ Ex) Hj Hfit) as (s1 & E & Hi1 & Hw1).
  unfold op_ok. cbn [run_op]. unfold with_piece. rewrite Ex, Hw. run E.
  eexists _, _, s1, _. split; [reflexivity|]. split; [by apply (a_write refuses a i j v x.2 ws)|]. exists fl. split; [by apply inv_mono|].
  apply Forall2_same_length_lookup. rewrite length_insert. split; [by eapply Forall2_length|].
  intros i' y b Hy Hb. destruct (decide (i = i')) as [<-|Hne].
  - rewrite list_lookup_insert_eq in Hb by (by eapply lookup_lt_Some). simplify_eq. cbn. split; [done|]. rewrite Hw1.
    intros j' v' [[<- <-]|[Hjj Hj']]%lookup_insert_Some; [by rewrite lookup_insert_eq|].
    destruct (Hr j' v' Hj') as (H1 & H2 & H3). split_and!; [done|done|]. by rewrite lookup_insert_ne by lia.
  - rewrite list_lookup_insert_ne in Hb by done. pose proof (Forall2_lookup_lr _ _ _ _ _ _ Hf Hy Hb) as Hry.
    destruct y as [y|]; [|by destruct b]. destruct b as [[n ws']|]; [|done]. destruct Hry as [Hn Hry]. cbn. split; [done|]. rewrite Hw1.
    intros j' v' Hj'. destruct (Hry j' v' Hj') as (H1 & H2 & H3). split_and!; [done|done|]. rewrite lookup_insert_ne; [done|].
    eapply (inv_words_ne B0 arr ca fl (held sl) k s x y j j'); try done; try lia; try (by eapply held_elem). by eapply held_ne.
Qed.

Lemma run_read_ok k s sl a i j : client_inv k s sl a -> op_ok k s sl a (ORead i j).
Proof.
  intros Hc. pose proof Hc as (fl & Hi & Hf). pose proof (client_lookup s sl a i Hf) as Hlk.
  destruct (sl !! i) as [[x|]|] eqn:Ex.
  2,3: apply (client_skip k s sl a _ i Hc); [cbn; unfold with_piece; by rewrite Ex|right; right; by eauto|intros n ws Ha; by destruct (Hlk n ws)].
  destruct Hlk as (ws & Ha & _ & Hr). destruct (word_of x j) eqn:Hw.
  2: { apply (client_skip k s sl a _ i Hc); [cbn; unfold with_piece; by rewrite Ex, Hw|right; right; by eauto|].
       intros n ws' Ha' Hfit. simplify_eq. apply word_of_spec in Hfit. congruence. }
  apply word_of_spec in Hw as Hfit. destruct Hfit as [Hj Hfit].
  destruct (inv_word B0 arr ca fl (held sl) k s x j Hi (held_elem _ _ _ Ex) Hj Hfit) as (off & E & _ & [v Hv] & _).
  unfold op_ok. cbn [run_op]. unfold with_piece. rewrite Ex, Hw, E. run (load_ok _ _ _ Hv).
  eexists _, _, s, a. split; [reflexivity|]. split; [|exists fl; split; [by apply inv_mono|done]].
  eapply a_read; try done. destruct (ws !! j) as [v'|] eqn:Ej; [left|by right].
  destruct (Hr j v' Ej) as (_ & _ & Hv'). rewrite E in Hv'. congruence.
Qed.

Lemma pool_run_op_ok k s sl a o : client_inv k s sl a -> sizes_ok o -> 0 <= k < INT_MAX -> op_ok k s sl a o.
Proof.
  destruct o; intros Hc Ho Hk.
  - apply run_malloc_ok; [done|apply Ho|done].
  - by apply run_free_ok.
  - by apply run_write_ok.
  - by apply run_read_ok.
Qed.

Lemma run_ops_ok ops k s sl a :
  client_inv k s sl a -> Forall sizes_ok ops -> 0 <= k -> k + zlen ops <= INT_MAX ->
  exists sl' rs s' a', run_ops (mkPool arr 8) sl ops s = Ok (sl', rs, s') /\ asteps refuses a ops rs a' /\
    client_inv (k + zlen ops) s' sl' a'.
Proof.
  revert k s sl a. induction ops as [|o ops IH]; intros k s sl a Hc Ho Hk Hmax; cbn [run_ops length] in *.
  - exists sl, [], s, a. split; [done|]. split; [constructor|]. by rewrite Z.add_0_r.
  - apply Forall_cons in Ho as [Ho Hos].
    destruct (pool_run_op_ok k s sl a o Hc Ho ltac:(lia)) as (sl1 & r & s1 & a1 & E & Ha & Hc1). run E.
    destruct (IH (k + 1) s1 sl1 a1 Hc1 Hos ltac:(lia) ltac:(lia)) as (sl2 & rs & s2 & a2 & E2 & Has & Hc2). run E2.
    eexists _, _, s2, a2. split; [reflexivity|]. split; [by econstructor|]. by replace (k + Z.of_nat (S (length ops))) with (k + 1 + zlen ops) by lia.
Qed.

Lemma free_all_ok sl fl k s :
  pool_inv B0 arr ca fl (held sl) k s ->
  exists fl' s', free_all (mkPool arr 8) sl s = Ok (tt, s') /\ pool_inv B0 arr ca fl' [] k s'.
Proof.
  revert fl s. induction sl as [|[x|] sl IH]; intros fl s Hi; cbn [free_all].
  - by exists fl, s.
  - destruct (pool_Free_ok B0 arr ca fl (held sl) k s x Hi) as (fl1 & s1 & E & Hi1 & _). run E. by apply (IH fl1).
  - by apply (IH fl).
Qed.
End refinement.

(** * Properties *)

(** C3: the memory pool is a heap.  Whatever a client does (asking for memory
    of any size, giving it back in any order, writing and reading words of the
    pieces it holds), a run of the pool is a run of the abstract heap: pieces
    never overlap each other or the pool's own headers and free lists, a read
    returns the last value written to that word of that piece, memory is refused
    only when the C allocator refuses it, the mutexes are released on every
    path, and after everything is given back the destructor's assertion holds
    and the C allocator has every block again.  If the allocator refuses during
    the construction, the pool throws. *)
Theorem pool_refines_heap `{MallocLaws} ops s :
  mem_wf s -> Forall sizes_ok ops -> 1000 + zlen ops <= INT_MAX ->
  (session ops s = Fault Thrown /\ refuses) \/
  exists rs s' a, session ops s = Ok (rs, s') /\ asteps refuses [] ops rs a /\ m_blocks s' = m_blocks s.
Proof.
  intros Hwf Ho Hmax. unfold session.
  destruct (new_MemoryPool_ok s Hwf) as [[E Href]|(arr & ca & fl & s1 & E & Hi)].
  { left. split; [by apply sbind_fault|done]. }
  right. run E. destruct (run_ops_ok (m_blocks s) arr ca ops 1000 s1 [] []) as (sl & rs & s2 & a & E2 & Ha & fl2 & Hi2 & _);
    [by exists fl; split; [|constructor]|done|lia|done|].
  run E2. destruct (free_all_ok (m_blocks s) arr ca sl fl2 _ s2 Hi2) as (fl3 & s3 & E3 & Hi3). run E3.
  destruct (delete_MemoryPool_ok (m_blocks s) arr ca fl3 _ s3 Hi3 Hmax) as (s4 & E4 & Hb). run E4.
  by exists rs, s4, a.
Qed.

(** An allocator that never refuses: it allocates above everything. *)
Definition above (bl : gmap Z Z) : Z := map_fold (fun b m r => Z.max r (b + m)) 0 bl.

#[export] Instance bump : Malloc := {| pick := fun _ bl _ => Some (16 * (above bl / 16 + 1)); junk := fun _ _ => 170 |}.

Lemma above_spec bl : 0 <= above bl /\ forall b m, bl !! b = Some m -> b + m <= above bl.
Proof.
  unfold above. apply (map_fold_weak_ind (fun r (bl : gmap Z Z) => 0 <= r /\ forall b m, bl !! b = Some m -> b + m <= r)).
  - split; [lia|]. intros b m Hb. by rewrite lookup_empty in Hb.
  - intros b m bl' r Hb [Hr IH]. split; [lia|]. intros b' m' [[<- <-]|[_ Hb']]%lookup_insert_Some; [lia|].
    specialize (IH b' m' Hb'). lia.
Qed.

#[export] Instance bump_laws : @MallocLaws bump.
Proof.
  intros k bl n a Hn [= <-]. destruct (above_spec bl) as [H0 Hab].
  pose proof (Z.div_mod (above bl) 16 ltac:(lia)). pose proof (Z.mod_pos_bound (above bl) 16 ltac:(lia)).
  split_and!; [lia|by rewrite Z.mul_comm, Z.mod_mul|]. intros b m Hb _. specialize (Hab b m Hb). lia.
Qed.

Definition mem0 : pmem := mkMem ∅ ∅ ∅ 0.

Lemma mem0_wf : mem_wf mem0.
Proof. split; cbn; intros *; by rewrite lookup_empty. Qed.

(** Two pieces of the same class and a large one; the second small one takes the
    place of the first. *)
Definition demo_ops : list op :=
  [OMalloc 20; OMalloc 5000; OWrite 0 0 7; OWrite 1 600 8; ORead 0 0; OFree 0; OMalloc 32; OWrite 2 3 9; ORead 1 600].

Lemma pool_refines_heap_witness :
  (session demo_ops mem0 = Fault Thrown /\ refuses) \/
  exists rs s' a, session demo_ops mem0 = Ok (rs, s') /\ asteps refuses [] demo_ops rs a /\ m_blocks s' = ∅.
Proof.
  refine (pool_refines_heap demo_ops mem0 mem0_wf _ _).
  - repeat constructor; vm_compute; discriminate.
  - vm_compute. discriminate.
Defined.

(** The size classes are tight.  For a request that [Malloc] serves from its
    chunks the loop ends with the index of one of the chunks that the constructor
    made; the blocks of that chunk are large enough, and less than twice as large
    as asked for (or of the least size). *)
Theorem size_class_tight n :
  0 <= n <= MAX_SIZE ->
  exists i count, class_loop SIZES n MIN_SIZE 0 = Ok i /\ count_loop SIZES MIN_SIZE 0 = Ok count /\
    0 <= i < count /\ n <= MIN_SIZE * 2 ^ i <= MAX_SIZE /\ (i = 0 \/ MIN_SIZE * 2 ^ i < 2 * n).
Proof.
  intros Hn. destruct (class_ok n ltac:(lia)) as (E & Hlt & Hfit & Hlow). exists (Z.of_nat (class n)), 8.
  pose proof (class_size_bounds _ Hlt) as Hb. split_and!; [done|done|lia|lia|exact Hfit|exact (proj2 Hb)|].
  destruct Hlow as [->|Hlow]; [by left|right].
  destruct (class n) as [|i] eqn:Ei; [cbn in Hlow; change MIN_SIZE with (class_size 0) in *; cbn; lia|].
  replace (S i - 1)%nat with i in Hlow by lia. unfold class_size, MIN_SIZE in *. rewrite Nat2Z.inj_succ, Z.pow_succ_r by lia. lia.
Qed.

Lemma size_class_tight_witness :
  exists i count, class_loop SIZES 100 MIN_SIZE 0 = Ok i /\ count_loop SIZES MIN_SIZE 0 = Ok count /\
    0 <= i < count /\ 100 <= MIN_SIZE * 2 ^ i <= MAX_SIZE /\ (i = 0 \/ MIN_SIZE * 2 ^ i < 2 * 100).
Proof. refine (size_class_tight 100 _). vm_compute. split; discriminate. Defined.

(** A request of almost the whole address space is not refused but
    corrupts memory.  Adding the header makes the size wrap around, the C
    allocator gives a block of a few bytes (unless it refuses), and the pool
    writes its header over the end of it. *)
Theorem huge_request_overflows `{MallocLaws} pool n s :
  mem_wf s -> SIZE_MAX - HEAP_HEADER + 1 < n <= SIZE_MAX -> pick (m_step s) (m_blocks s) (n + HEAP_HEADER - (SIZE_MAX + 1)) <> None ->
  pool_Malloc pool n s = Fault OutOfBounds.
Proof.
  intros Hwf Hn Hp. unfold pool_Malloc, pool_malloc. unfold SIZE_MAX, HEAP_HEADER in *.
  rewrite (proj2 (Z.ltb_lt MAX_SIZE n)) by (unfold MAX_SIZE; lia).
  set (m := n + 8 - (18446744073709551615 + 1)) in *.
  assert (size_t (8 + n) = m) as ->.
  { unfold unsigned. replace (8 + n) with (m + 1 * 2 ^ 64) by (unfold m; lia). rewrite Z.mod_add by lia. apply Z.mod_small. lia. }
  unfold sbind at 1. unfold c_malloc. destruct (pick (m_step s) (m_blocks s) m) as [a|] eqn:E; [|done].
  assert (0 < m) as Hm by (unfold m; lia). destruct (pick_fits _ _ _ _ Hm E) as (Ha & _ & Hfit). rewrite (proj2 (Z.eqb_neq a 0)) by lia. cbn [negb].
  apply sbind_fault. unfold store. cbn [m_words].
  rewrite fill_lookup_out; [|intros (i & Hi & Hlt & _)%words_of_elem; unfold m in *; lia].
  destruct (m_words s !! a) as [v|] eqn:Ew; [|done]. destruct (wf_word s Hwf a v Ew) as (b & k & i & Hb & Hi & Hik & Eb).
  destruct (Hfit b k Hb); unfold m in *; lia.
Qed.

Lemma huge_request_overflows_witness :
  @pool_Malloc bump (mkPool 16 8) SIZE_MAX mem0 = Fault OutOfBounds.
Proof.
  refine (huge_request_overflows (mkPool 16 8) SIZE_MAX mem0 mem0_wf _ _).
  - vm_compute. split; [reflexivity|discriminate].
  - discriminate.
Defined.
