(* ===== verification/Machine.v ===== *)
(** The machine the client runs on: the reply objects of [hiredis.h], the
    state that [malloc], the operating system and the reply constructors act
    on, and the monad in which the operations are written.

    - Memory blocks that nobody shares (the buffers of [sds.c], the command
      under construction in [redisvFormatCommand]) are values; [w_live] counts
      the blocks allocated and not yet released, so that a leak or a double
      release shows.
    - Reply objects are shared (the task stack, the [element] vectors and
      [r->reply] point to them), so they live in the store [w_objs].
    - Every allocation asks the list [w_alloc] whether it succeeds (an empty
      list: it does), so that each out-of-memory branch is a run of the model.
    - Every system call takes the next answer of [w_os] and appends itself,
      with the value it returned, to [w_trace]; a call for which [w_os] has no
      answer never returns. *)

From S2P Require Import Prelude.
From stdpp Require Import base tactics list numbers gmap.

Local Open Scope Z_scope.

(** * Reply objects ([hiredis.h]) *)

Definition REDIS_ERR : Z := -1.
Definition REDIS_OK : Z := 0.

Definition REDIS_ERR_IO : Z := 1.
Definition REDIS_ERR_EOF : Z := 3.
Definition REDIS_ERR_PROTOCOL : Z := 4.
Definition REDIS_ERR_OOM : Z := 5.
Definition REDIS_ERR_OTHER : Z := 2.

Definition REDIS_REPLY_STRING : Z := 1.
Definition REDIS_REPLY_ARRAY : Z := 2.
Definition REDIS_REPLY_INTEGER : Z := 3.
Definition REDIS_REPLY_NIL : Z := 4.
Definition REDIS_REPLY_STATUS : Z := 5.
Definition REDIS_REPLY_ERROR : Z := 6.

(** Addresses of reply objects. *)
Abbreviation loc := nat (only parsing).

Record redisReply := mkReply {
  rp_type : Z;
  rp_integer : Z;
  rp_len : Z;
  rp_str : option (list char);
  rp_elements : Z;
  rp_element : option (list (option loc))
}.

(** A non-NULL [void*] that stands for a reply: the address of an object, or,
    when no reply functions are installed, the bare type number. *)
Inductive objptr :=
| Obj (l : loc)
| Tag (t : Z).

#[export] Instance redisReply_eq_dec : EqDecision redisReply.
Proof. solve_decision. Defined.
#[export] Instance objptr_eq_dec : EqDecision objptr.
Proof. solve_decision. Defined.

(** * The operating system *)

(** The answer to a system call: the value returned, [errno] when it fails,
    and the bytes or the word it stores for the caller. *)
Record sysret := mkRet { sr_val : Z; sr_errno : Z; sr_data : list char; sr_word : Z }.

(** The hooks of an event library ([ac->ev] of [async.h]). *)
Inductive hook := AddRead | DelRead | AddWrite | DelWrite | Cleanup.

(** The address of a socket: an IPv4 address with its port, or the bytes of
    [sun_path]. *)
Inductive sockaddr :=
| SockIn (addr port : Z)
| SockUn (sun_path : list char).

Abbreviation timeval := (Z * Z)%type (only parsing).

(** The calls that leave the library: to the kernel, and to the functions the
    user installed; for a callback, the reply objects it can see are recorded. *)
Inductive syscall :=
| SysSocket (domain : Z)
| SysSetsockopt (fd level opt : Z)
| SysGetsockopt (fd level opt : Z)
| SysFcntl (fd cmd arg : Z)
| SysConnect (fd : Z) (sa : sockaddr)
| SysSelect (fd : Z) (timeout : option timeval)
| SysResolve (host : list char)
| SysRead (fd n : Z)
| SysWrite (fd : Z) (data : list char)
| SysClose (fd : Z)
| CallFn (fn : Z) (reply : option objptr) (privdata : Z) (seen : gmap loc redisReply)
| CallConnect (fn status : Z)
| CallDisconnect (fn status : Z)
| CallHook (h : hook) (fn data : Z).

#[export] Instance hook_eq_dec : EqDecision hook.
Proof. solve_decision. Defined.
#[export] Instance sockaddr_eq_dec : EqDecision sockaddr.
Proof. solve_decision. Defined.
#[export] Instance syscall_eq_dec : EqDecision syscall.
Proof. solve_decision. Defined.

(** * The state *)

Record world := mkWorld {
  w_alloc : list bool;
  w_junk : nat -> char;
  w_live : Z;
  w_objs : gmap loc redisReply;
  w_next : loc;
  w_errno : Z;
  w_os : list sysret;
  w_trace : list (syscall * Z)
}.

Definition set_alloc (a : list bool) (w : world) : world :=
  mkWorld a (w_junk w) (w_live w) (w_objs w) (w_next w) (w_errno w) (w_os w) (w_trace w).
Definition add_live (d : Z) (w : world) : world :=
  mkWorld (w_alloc w) (w_junk w) (w_live w + d) (w_objs w) (w_next w) (w_errno w) (w_os w) (w_trace w).
Definition set_objs (h : gmap loc redisReply) (w : world) : world :=
  mkWorld (w_alloc w) (w_junk w) (w_live w) h (w_next w) (w_errno w) (w_os w) (w_trace w).
Definition set_next (l : loc) (w : world) : world :=
  mkWorld (w_alloc w) (w_junk w) (w_live w) (w_objs w) l (w_errno w) (w_os w) (w_trace w).
Definition set_errno (e : Z) (w : world) : world :=
  mkWorld (w_alloc w) (w_junk w) (w_live w) (w_objs w) (w_next w) e (w_os w) (w_trace w).
Definition set_os (o : list sysret) (w : world) : world :=
  mkWorld (w_alloc w) (w_junk w) (w_live w) (w_objs w) (w_next w) (w_errno w) o (w_trace w).
Definition set_trace (t : list (syscall * Z)) (w : world) : world :=
  mkWorld (w_alloc w) (w_junk w) (w_live w) (w_objs w) (w_next w) (w_errno w) (w_os w) t.

(** A state with nothing allocated, no answer pending and an allocator that
    never fails. *)
Definition world0 : world := mkWorld [] (fun _ => 170) 0 ∅ 1%nat 0 [] [].

(** * The monad *)

Definition M (A : Type) : Type := world -> outcome (A * world).

Definition ret {A} (a : A) : M A := fun w => Ok (a, w).
Definition crash {A} (f : fault) : M A := fun _ => Fault f.
Definition bind {A B} (m : M A) (k : A -> M B) : M B :=
  fun w => match m w with Ok (a, w') => k a w' | Fault f => Fault f end.

Notation "'let*' x := m 'in' k" := (bind m (fun x => k))
  (at level 10, x pattern, m at level 200, k at level 200,
   format "'[v' 'let*'  x  :=  m  'in' '/' k ']'") : c_scope.
Open Scope c_scope.

(** A checked pure operation as a step of the program. *)
Definition lift {A} (o : outcome A) : M A :=
  fun w => match o with Ok a => Ok (a, w) | Fault f => Fault f end.

Definition get_world : M world := fun w => Ok (w, w).
Definition modify (f : world -> world) : M unit := fun w => Ok (tt, f w).

(** [assert(b)]. *)
Definition assert_ (b : bool) : M unit := if b then ret tt else crash AssertFailed.

(** Use of a pointer the source does not test. *)
Definition deref {A} (p : option A) : M A :=
  match p with Some a => ret a | None => crash NullDeref end.

(** * Allocation *)

(** The allocator's decision for the next request. *)
Definition ask_alloc : M bool :=
  fun w => match w_alloc w with
           | [] => Ok (true, w)
           | b :: a => Ok (b, set_alloc a w)
           end.

Definition junk_bytes (w : world) (n : Z) : list char := w_junk w <$> seq 0 (Z.to_nat n).

(** [malloc(n)]: [None] is NULL; the bytes of the block are indeterminate. *)
Definition malloc (n : Z) : M (option (list char)) :=
  let* b := ask_alloc in
  if b then
    let* w := get_world in
    let* _ := modify (add_live 1) in
    ret (Some (junk_bytes w n))
  else ret None.

(** [realloc(p, n)] of a block with the contents [old]: the common prefix is
    kept, the rest is indeterminate; on failure the old block stays. *)
Definition realloc (old : list char) (n : Z) : M (option (list char)) :=
  let* b := ask_alloc in
  if b then
    let* w := get_world in
    let keep := take (Z.to_nat n) old in
    ret (Some (keep ++ junk_bytes w (n - zlen keep)))
  else ret None.

(** An allocation whose block the model keeps elsewhere (a struct, a vector of
    pointers): only its success and its being live matter. *)
Definition alloc_block : M bool :=
  let* b := ask_alloc in
  if b then let* _ := modify (add_live 1) in ret true else ret false.

(** [realloc] of such a block, NULL ([false]) or not. *)
Definition realloc_block (old : bool) : M bool :=
  if old then ask_alloc else alloc_block.

(** [free(p)], [p] not NULL. *)
Definition free : M unit := modify (add_live (-1)).

(** * System calls *)

(** The next answer; [errno] is set when it is a failure. *)
Definition next_answer : M sysret :=
  fun w => match w_os w with
           | [] => Fault Blocks
           | a :: os =>
               let w := set_os os w in
               Ok (a, if sr_val a <? 0 then set_errno (sr_errno a) w else w)
           end.

Definition log (c : syscall) (v : Z) : M unit :=
  modify (fun w => set_trace (w_trace w ++ [(c, v)]) w).

(** The value of a call: -1 for a failure, a number that is not negative
    otherwise. *)
Definition ret_val (a : sysret) : Z := if sr_val a <? 0 then -1 else sr_val a.

(** A call that exchanges no data. *)
Definition oscall (c : syscall) : M sysret :=
  let* a := next_answer in
  let* _ := log c (ret_val a) in
  ret (mkRet (ret_val a) (sr_errno a) (sr_data a) (sr_word a)).

(** [read(fd, buf, n)]: the kernel stores at most [n] bytes and returns their
    number. *)
Definition sys_read (fd n : Z) : M (Z * list char) :=
  let* a := next_answer in
  if sr_val a <? 0 then
    let* _ := log (SysRead fd n) (-1) in ret (-1, [])
  else
    let data := take (Z.to_nat n) (sr_data a) in
    let* _ := log (SysRead fd n) (zlen data) in
    ret (zlen data, data).

(** [write(fd, data, n)] with [n] the length of [data]: the kernel accepts a
    prefix of the data and returns its length. *)
Definition sys_write (fd : Z) (data : list char) : M Z :=
  let* a := next_answer in
  let n := if sr_val a <? 0 then -1 else Z.min (sr_val a) (zlen data) in
  let* _ := log (SysWrite fd data) n in
  ret n.

(** [close(fd)]; its result is not used by the program. *)
Definition sys_close (fd : Z) : M unit := log (SysClose fd) 0.

(** The value of [errno]. *)
Definition errno : M Z := fun w => Ok (w_errno w, w).

(** The bytes the kernel accepted for [fd]. *)
Definition sent_by (fd : Z) (e : syscall * Z) : list char :=
  match e with
  | (SysWrite fd' data, n) => if fd' =? fd then take (Z.to_nat n) data else []
  | _ => []
  end.
Definition sent (fd : Z) (t : list (syscall * Z)) : list char := concat (sent_by fd <$> t).

Fixpoint remove_first (x : Z) (l : list Z) : list Z :=
  match l with
  | [] => []
  | y :: l => if y =? x then l else y :: remove_first x l
  end.

(** The descriptors open after a trace, those open before it being [l];
    [None] when a descriptor that is not open is closed. *)
Fixpoint fds_after (l : list Z) (t : list (syscall * Z)) : option (list Z) :=
  match t with
  | [] => Some l
  | (SysSocket _, s) :: t => fds_after (if s <? 0 then l else s :: l) t
  | (SysClose fd, _) :: t =>
      if decide (fd ∈ l) then fds_after (remove_first fd l) t else None
  | _ :: t => fds_after l t
  end.

(** * Equations *)

(** The allocator never refuses. *)
Definition no_oom (w : world) : Prop := w_alloc w = [].

Lemma ask_alloc_no_oom w : no_oom w -> ask_alloc w = Ok (true, w).
Proof. unfold ask_alloc, no_oom. by intros ->. Qed.

Lemma malloc_no_oom n w :
  no_oom w -> malloc n w = Ok (Some (junk_bytes w n), add_live 1 w).
Proof. intros H. unfold malloc, bind. by rewrite ask_alloc_no_oom. Qed.

Lemma realloc_no_oom old n w :
  no_oom w ->
  realloc old n w =
    Ok (Some (take (Z.to_nat n) old ++ junk_bytes w (n - zlen (take (Z.to_nat n) old))), w).
Proof. intros H. unfold realloc, bind. by rewrite ask_alloc_no_oom. Qed.

Lemma alloc_block_no_oom w : no_oom w -> alloc_block w = Ok (true, add_live 1 w).
Proof. intros H. unfold alloc_block, bind. by rewrite ask_alloc_no_oom. Qed.

Lemma length_junk_bytes w n : length (junk_bytes w n) = Z.to_nat n.
Proof. unfold junk_bytes. by rewrite length_fmap, length_seq. Qed.

Lemma add_live_0 w : add_live 0 w = w.
Proof. destruct w. unfold add_live. cbn. f_equal. lia. Qed.

Lemma add_live_add a b w : add_live a (add_live b w) = add_live (b + a) w.
Proof. unfold add_live. cbn. f_equal. lia. Qed.

Lemma no_oom_add_live d w : no_oom (add_live d w) <-> no_oom w.
Proof. done. Qed.

#[export] Hint Rewrite length_junk_bytes add_live_0 add_live_add : cint.

(** Run one step of a monadic program whose first operation is known. *)
Lemma bind_ok {A B} (m : M A) (k : A -> M B) w a w' :
  m w = Ok (a, w') -> bind m k w = k a w'.
Proof. unfold bind. by intros ->. Qed.

Lemma bind_fault {A B} (m : M A) (k : A -> M B) w f : m w = Fault f -> bind m k w = Fault f.
Proof. unfold bind. by intros ->. Qed.

Lemma bind_inv {A B} (m : M A) (k : A -> M B) w r :
  bind m k w = Ok r -> exists a w', m w = Ok (a, w') /\ k a w' = Ok r.
Proof. unfold bind. destruct (m w) as [[a w']|f]; [eauto|done]. Qed.

Lemma bind_assoc {A B C} (m : M A) (k : A -> M B) (k' : B -> M C) w :
  bind (bind m k) k' w = bind m (fun a => bind (k a) k') w.
Proof. unfold bind. by destruct (m w) as [[]|]. Qed.

(** Two programs with the same first step. *)
Lemma bind_ext {A B} (m : M A) (k k' : A -> M B) w :
  (forall a w', m w = Ok (a, w') -> k a w' = k' a w') -> bind m k w = bind m k' w.
Proof. intros H. unfold bind. destruct (m w) as [[a w']|]; [by apply H|done]. Qed.

Lemma bind_first {A B} (m m' : M A) (k : A -> M B) w :
  m w = m' w -> bind m k w = bind m' k w.
Proof. unfold bind. by intros ->. Qed.

(** What a computation may do to the state beyond the allocator: nothing but
    consume allocator answers and change the number of live blocks. *)
Record alloc_only (w w' : world) : Prop := {
  ao_junk : w_junk w' = w_junk w;
  ao_objs : w_objs w' = w_objs w;
  ao_next : w_next w' = w_next w;
  ao_errno : w_errno w' = w_errno w;
  ao_os : w_os w' = w_os w;
  ao_trace : w_trace w' = w_trace w;
  ao_alloc : exists used, w_alloc w = used ++ w_alloc w'
}.

#[export] Instance alloc_only_refl : Reflexive alloc_only.
Proof. intros w. split; try done. by exists []. Qed.

#[export] Instance alloc_only_trans : Transitive alloc_only.
Proof.
  intros w1 w2 w3 [? ? ? ? ? ? [u1 E1]] [? ? ? ? ? ? [u2 E2]]; split; try congruence.
  exists (u1 ++ u2). by rewrite E1, E2, app_assoc.
Qed.

Lemma alloc_only_add_live d w : alloc_only w (add_live d w).
Proof. split; try done. by exists []. Qed.

Lemma alloc_only_no_oom w w' : alloc_only w w' -> no_oom w -> no_oom w'.
Proof. intros [_ _ _ _ _ _ [u E]] H. unfold no_oom in *. rewrite H in E. by apply symmetry, app_eq_nil in E as [_ ->]. Qed.

Lemma ask_alloc_spec w :
  exists b w', ask_alloc w = Ok (b, w') /\ alloc_only w w' /\ w_live w' = w_live w.
Proof.
  unfold ask_alloc. destruct (w_alloc w) as [|b a] eqn:E; eexists _, _; split_and!; try done.
  split; try done. exists [b]. by rewrite E.
Qed.

Lemma malloc_spec n w :
  exists p w', malloc n w = Ok (p, w') /\ alloc_only w w' /\
    match p with
    | Some b => length b = Z.to_nat n /\ w_live w' = w_live w + 1
    | None => w_live w' = w_live w
    end.
Proof.
  destruct (ask_alloc_spec w) as (b & w' & E & Ha & Hl).
  unfold malloc, bind. rewrite E. destruct b; cbn; eexists _, _; split_and!; try done.
  - etrans; [done|apply alloc_only_add_live].
  - split; [apply length_junk_bytes|cbn; lia].
Qed.

Lemma realloc_spec old n w :
  exists p w', realloc old n w = Ok (p, w') /\ alloc_only w w' /\ w_live w' = w_live w /\
    match p with
    | Some b => length b = Z.to_nat n /\ take (length old) b = take (Z.to_nat n) old
    | None => True
    end.
Proof.
  destruct (ask_alloc_spec w) as (b & w' & E & Ha & Hl).
  unfold realloc, bind. rewrite E. destruct b; cbn; eexists _, _; split_and!; try done.
  - destruct (decide (Z.to_nat n <= length old)%nat) as [Hle|Hgt].
    + rewrite (nil_length_inv (junk_bytes w' _))
        by (rewrite length_junk_bytes, length_take; lia).
      rewrite app_nil_r. split; [rewrite length_take; lia|].
      apply take_ge. rewrite length_take. lia.
    + rewrite (take_ge old) by lia. rewrite take_app_length. split; [|done].
      rewrite length_app, length_junk_bytes. lia.
Qed.

Lemma alloc_block_spec w :
  exists b w', alloc_block w = Ok (b, w') /\ alloc_only w w' /\
    w_live w' = w_live w + (if b : bool then 1 else 0).
Proof.
  destruct (ask_alloc_spec w) as (b & w' & E & Ha & Hl).
  unfold alloc_block, bind. rewrite E. destruct b; cbn; eexists _, _; split_and!; try done.
  - etrans; [done|apply alloc_only_add_live].
  - cbn. lia.
  - cbn; lia.
Qed.

Lemma realloc_block_spec old w :
  exists b w', realloc_block old w = Ok (b, w') /\ alloc_only w w' /\
    w_live w' = w_live w + (if b && negb old then 1 else 0).
Proof.
  unfold realloc_block. destruct old.
  - destruct (ask_alloc_spec w) as (b & w' & E & Ha & Hl).
    exists b, w'. split_and!; [done..|]. rewrite andb_false_r. lia.
  - destruct (alloc_block_spec w) as (b & w' & E & Ha & Hl).
    exists b, w'. split_and!; [done..|]. by rewrite andb_true_r.
Qed.

Lemma alloc_only_add_live_eq d w w' :
  no_oom w -> alloc_only w w' -> w_live w' = w_live w + d -> w' = add_live d w.
Proof.
  intros H A Hl. pose proof (alloc_only_no_oom _ _ A H) as H'.
  destruct A as [? ? ? ? ? ? _], w, w'. unfold no_oom, add_live in *. cbn in *. subst. done.
Qed.

(** ** Triples for allocating operations

    [allocs m w d P]: from [w], [m] returns without a fault and touches nothing
    but the allocator; when it returns a value the value satisfies [P] and [d]
    more blocks are live, and when it returns NULL an allocation was refused
    and no block was gained or lost. *)
Definition allocs {A} (m : M (option A)) (w : world) (d : Z) (P : A -> Prop) : Prop :=
  exists r w', m w = Ok (r, w') /\ alloc_only w w' /\
    match r with
    | Some a => P a /\ w_live w' = w_live w + d
    | None => w_live w' = w_live w /\ ~ no_oom w
    end.

Lemma allocs_mono {A} (m : M (option A)) w d (P Q : A -> Prop) :
  allocs m w d P -> (forall a, P a -> Q a) -> allocs m w d Q.
Proof. intros (r & w' & E & Ha & H) HPQ. exists r, w'. split_and!; [done..|]. destruct r as [a|]; [destruct H; auto|done]. Qed.

Lemma allocs_ret {A} (a : A) w (P : A -> Prop) : P a -> allocs (ret (Some a)) w 0 P.
Proof. intros. exists (Some a), w. split_and!; [done|done| |]; [done|lia]. Qed.

(** Sequencing, NULL being passed on. *)
Lemma allocs_bind {A B} (m : M (option A)) (k : A -> M (option B)) w d (P : A -> Prop) (Q : B -> Prop) :
  allocs m w 0 P ->
  (forall a w', P a -> alloc_only w w' -> allocs (k a) w' d Q) ->
  allocs (let* r := m in match r with None => ret None | Some a => k a end) w d Q.
Proof.
  intros (r & w1 & E & Ha & H) Hk. unfold allocs, bind. rewrite E. destruct r as [a|].
  - destruct H as [HP Hl]. destruct (Hk a w1 HP Ha) as (r & w2 & E2 & Ha2 & H2).
    exists r, w2. split_and!; [done|by etrans|]. destruct r; [|split].
    + destruct H2. split; [done|lia].
    + lia.
    + intros Hn. apply H2, (alloc_only_no_oom _ _ Ha Hn).
  - exists None, w1. done.
Qed.

(** In a state where no allocation is refused the result is a value and the
    final state is known. *)
Lemma allocs_no_oom {A} (m : M (option A)) w d (P : A -> Prop) :
  allocs m w d P -> no_oom w -> exists a, m w = Ok (Some a, add_live d w) /\ P a.
Proof.
  intros (r & w' & E & Ha & H) Hn. destruct r as [a|]; [|by destruct H].
  destruct H as [HP Hl]. exists a. by rewrite E, (alloc_only_add_live_eq d w w').
Qed.

Lemma lift_ok {A} (o : outcome A) a w : o = Ok a -> lift o w = Ok (a, w).
Proof. unfold lift. by intros ->. Qed.

(** Advance over a checked operation whose result is [H : o = Ok a]. *)
Ltac lift_step H := erewrite bind_ok by (apply lift_ok, H).

Lemma int_ok_eq z : INT_MIN <= z <= INT_MAX -> int_ok z = Ok z.
Proof. intros. unfold int_ok. by btrue ((INT_MIN <=? z) && (z <=? INT_MAX)). Qed.

Lemma llong_ok_eq z : LLONG_MIN <= z <= LLONG_MAX -> llong_ok z = Ok z.
Proof. intros. unfold llong_ok. by btrue ((LLONG_MIN <=? z) && (z <=? LLONG_MAX)). Qed.
