(* ===== verification/Printf.v ===== *)
(** Formatted output of the C library, as far as the client uses it: decimal
    and other radices, and [vsnprintf] over an argument list.  The rendering
    of floating-point values is a parameter ([FloatFmt]). *)

From S2P Require Import Prelude.
From stdpp Require Import base tactics list numbers strings.

Local Open Scope Z_scope.

(** * Digits *)

(** Digits of [z] in base [b], most significant first. *)
Fixpoint digs (fuel : nat) (b z : Z) : list Z :=
  match fuel with
  | O => []
  | S f => if z <? b then [z] else digs f b (z / b) ++ [z mod b]
  end.

Definition digits (b z : Z) : list Z := digs (S (Z.to_nat (Z.log2 z))) b z.

Definition digit_char (upper : bool) (d : Z) : char :=
  if d <? 10 then 48 + d else if upper then 55 + d else 87 + d.

(** A non-negative number in decimal. *)
Definition dec (z : Z) : list char := digit_char false <$> digits 10 z.

(** [%d]. *)
Definition dec_signed (z : Z) : list char := if z <? 0 then 45 :: dec (- z) else dec z.

(** The value of a string of decimal digits. *)
Definition dec_value_from (v : Z) (s : list char) : Z :=
  foldl (fun v c => v * 10 + (c - 48)) v s.
Definition dec_value (s : list char) : Z := dec_value_from 0 s.

(** * Variable arguments *)

(** The argument list of the x86-64 calling convention: integers and pointers
    are fetched from one sequence, floating-point values from another. *)
Inductive vaarg :=
| VNum (z : Z)
| VPtr (p : list char).

Record va_list := mkVa { va_gp : list vaarg; va_fp : list Z }.

Definition va_num (ap : va_list) : outcome (Z * va_list) :=
  match va_gp ap with
  | VNum z :: r => Ok (z, mkVa r (va_fp ap))
  | _ => Fault BadVararg
  end.

Definition va_ptr (ap : va_list) : outcome (list char * va_list) :=
  match va_gp ap with
  | VPtr p :: r => Ok (p, mkVa r (va_fp ap))
  | _ => Fault BadVararg
  end.

(** [va_arg(ap,char* )] whose value is not used. *)
Definition va_skip (ap : va_list) : va_list := mkVa (tail (va_gp ap)) (va_fp ap).

(** * Conversion specifications *)

Inductive lenmod := LNone | LChar | LShort | LLong.

Record fmtspec := mkSpec {
  fs_alt : bool; fs_zero : bool; fs_left : bool; fs_space : bool; fs_plus : bool;
  fs_width : Z;
  fs_prec : option Z;
  fs_len : lenmod;
  fs_conv : char
}.

Class FloatFmt := fmt_float : fmtspec -> Z -> list char.

Fixpoint parse_flags (s : list char) (alt zero minus space plus : bool)
  : (bool * bool * bool * bool * bool) * list char :=
  match s with
  | c :: s' =>
      if c =? 35 then parse_flags s' true zero minus space plus
      else if c =? 48 then parse_flags s' alt true minus space plus
      else if c =? 45 then parse_flags s' alt zero true space plus
      else if c =? 32 then parse_flags s' alt zero minus true plus
      else if c =? 43 then parse_flags s' alt zero minus space true
      else ((alt, zero, minus, space, plus), s)
  | [] => ((alt, zero, minus, space, plus), s)
  end.

Fixpoint parse_num (s : list char) (v : Z) : Z * list char :=
  match s with
  | c :: s' => if isdigit c then parse_num s' (v * 10 + (c - 48)) else (v, s)
  | [] => (v, s)
  end.

Definition parse_prec (s : list char) : option Z * list char :=
  match s with
  | c :: s' => if c =? 46 then let '(v, r) := parse_num s' 0 in (Some v, r) else (None, s)
  | [] => (None, s)
  end.

Definition parse_len (s : list char) : lenmod * list char :=
  match s with
  | 104 :: 104 :: s' => (LChar, s')
  | 104 :: s' => (LShort, s')
  | 108 :: 108 :: s' => (LLong, s')
  | 108 :: s' => (LLong, s')
  | 122 :: s' => (LLong, s')
  | _ => (LNone, s)
  end.

(** The specification after a [%], and what follows it. *)
Definition parse_spec (s : list char) : option (fmtspec * list char) :=
  let '((alt, zero, minus, space, plus), s1) := parse_flags s false false false false false in
  let '(width, s2) := parse_num s1 0 in
  let '(prec, s3) := parse_prec s2 in
  let '(len, s4) := parse_len s3 in
  match s4 with
  | conv :: rest => Some (mkSpec alt zero minus space plus width prec len conv, rest)
  | [] => None
  end.

(** * Conversions *)

Definition pad (sp : fmtspec) (s : list char) : list char :=
  let n := Z.to_nat (fs_width sp - zlen s) in
  if fs_left sp then s ++ replicate n 32 else replicate n 32 ++ s.

Definition len_bits (l : lenmod) : Z :=
  match l with LNone => 32 | LChar => 8 | LShort => 16 | LLong => 64 end.

(** Sign or radix prefix, zeros up to the precision, digits; zeros up to the
    width when the zero flag applies. *)
Definition fmt_number (sp : fmtspec) (prefix ds : list char) : list char :=
  let ds1 := match fs_prec sp with
             | Some p => replicate (Z.to_nat (p - zlen ds)) 48 ++ ds
             | None =>
                 if fs_zero sp && negb (fs_left sp)
                 then replicate (Z.to_nat (fs_width sp - zlen prefix - zlen ds)) 48 ++ ds
                 else ds
             end in
  pad sp (prefix ++ ds1).

Definition int_digits (sp : fmtspec) (b : Z) (upper : bool) (z : Z) : list char :=
  match fs_prec sp with
  | Some 0 => if z =? 0 then [] else digit_char upper <$> digits b z
  | _ => digit_char upper <$> digits b z
  end.

Definition fmt_signed (sp : fmtspec) (slot : Z) : list char :=
  let z := signed (len_bits (fs_len sp)) slot in
  let prefix := if z <? 0 then [45] else if fs_plus sp then [43]
                else if fs_space sp then [32] else [] in
  fmt_number sp prefix (int_digits sp 10 false (Z.abs z)).

Definition fmt_unsigned (sp : fmtspec) (b : Z) (upper : bool) (slot : Z) : list char :=
  let z := unsigned (len_bits (fs_len sp)) slot in
  let prefix := if fs_alt sp && (b =? 16) && negb (z =? 0)
                then [48; if upper then 88 else 120] else [] in
  let ds := int_digits sp b upper z in
  let ds' := if fs_alt sp && (b =? 8)
             then match ds with 48 :: _ => ds | _ => 48 :: ds end
             else ds in
  fmt_number sp prefix ds'.

(** One conversion: the text and the remaining arguments. *)
Definition fmt_conv `{FloatFmt} (sp : fmtspec) (ap : va_list) : outcome (list char * va_list) :=
  let c := fs_conv sp in
  let num f := match va_num ap with Ok (z, ap') => Ok (f z, ap') | Fault e => Fault e end in
  if c =? 37 then Ok ([37], ap)
  else if (c =? 100) || (c =? 105) then num (fmt_signed sp)
  else if c =? 117 then num (fmt_unsigned sp 10 false)
  else if c =? 111 then num (fmt_unsigned sp 8 false)
  else if c =? 120 then num (fmt_unsigned sp 16 false)
  else if c =? 88 then num (fmt_unsigned sp 16 true)
  else if c =? 99 then num (fun z => pad sp [unsigned 8 z])
  else if c =? 115 then
    match va_ptr ap with
    | Ok (p, ap') =>
        let s := match fs_prec sp with
                 | Some n => take (Z.to_nat n) (cstring p)
                 | None => cstring p
                 end in
        Ok (pad sp s, ap')
    | Fault e => Fault e
    end
  else if strchr (lit "eEfFgGaA") c && negb (c =? NUL) then
    match va_fp ap with
    | d :: r => Ok (fmt_float sp d, mkVa (va_gp ap) r)
    | [] => Fault BadVararg
    end
  else Fault BadVararg.

(** The text [vsnprintf] produces for a format and its arguments, before it is
    cut to the size of the buffer. *)
Fixpoint vsprintf_loop `{FloatFmt} (fuel : nat) (fmt : list char) (ap : va_list)
  : outcome (list char) :=
  match fuel with
  | O => Ok []
  | S f =>
      match fmt with
      | [] => Ok []
      | c :: fmt' =>
          if c =? NUL then Ok []
          else if c =? 37 then
            match parse_spec fmt' with
            | None => Fault BadVararg
            | Some (sp, rest) =>
                match fmt_conv sp ap with
                | Fault e => Fault e
                | Ok (s, ap') =>
                    match vsprintf_loop f rest ap' with
                    | Ok s' => Ok (s ++ s')
                    | Fault e => Fault e
                    end
                end
            end
          else
            match vsprintf_loop f fmt' ap with
            | Ok s' => Ok (c :: s')
            | Fault e => Fault e
            end
      end
  end.

Definition vsprintf `{FloatFmt} (fmt : list char) (ap : va_list) : outcome (list char) :=
  vsprintf_loop (S (length fmt)) fmt ap.

(** Output for a format without floating-point conversions. *)
Definition no_float : FloatFmt := fun _ _ => [].
Definition sprintf (fmt : list char) (args : list vaarg) : outcome (list char) :=
  @vsprintf no_float fmt (mkVa args []).

(** What [vsnprintf(buf, size, fmt, ap)] stores in [buf], [size > 0]: at most
    [size - 1] bytes of the text and a NUL. *)
Definition vsnprintf_bytes (size : Z) (text : list char) : list char :=
  take (Z.to_nat (size - 1)) text ++ [NUL].

(** * Facts *)

Lemma digs_bounds fuel b z d :
  2 <= b -> 0 <= z -> d ∈ digs fuel b z -> 0 <= d < b.
Proof.
  intros Hb. revert z. induction fuel as [|f IH]; intros z Hz; cbn [digs]; [by intros ?%elem_of_nil|].
  destruct (Z.ltb_spec z b).
  - intros ->%list_elem_of_singleton. lia.
  - intros [Hd| ->%list_elem_of_singleton]%elem_of_app.
    + apply (IH (z / b)); [|done]. apply Z.div_pos; lia.
    + apply Z.mod_pos_bound. lia.
Qed.

Lemma dec_value_from_app v s t :
  dec_value_from v (s ++ t) = dec_value_from (dec_value_from v s) t.
Proof. unfold dec_value_from. by rewrite foldl_app. Qed.

Lemma log2_div_10 z : 10 <= z -> Z.log2 (z / 10) < Z.log2 z.
Proof.
  intros Hz. apply Z.log2_lt_pow2; [apply Z.div_str_pos; lia|].
  pose proof (Z.log2_spec z ltac:(lia)) as [_ H2].
  assert (1 <= Z.log2 z) by (apply (Z.log2_le_mono 2); lia).
  rewrite Z.pow_succ_r in H2 by lia.
  pose proof (Z.mul_div_le z 10 ltac:(lia)). lia.
Qed.

Lemma digs_ten_value fuel z :
  0 <= z -> Z.log2 z < Z.of_nat fuel ->
  dec_value (digit_char false <$> digs fuel 10 z) = z.
Proof.
  revert z. induction fuel as [|f IH]; intros z Hz Hf; cbn [digs].
  { pose proof (Z.log2_nonneg z). lia. }
  destruct (Z.ltb_spec z 10).
  - cbn. unfold digit_char. rewrite (proj2 (Z.ltb_lt z 10)) by lia. unfold dec_value, dec_value_from. cbn. lia.
  - rewrite fmap_app. unfold dec_value. rewrite dec_value_from_app.
    fold (dec_value (digit_char false <$> digs f 10 (z / 10))).
    rewrite IH; [|apply Z.div_pos; lia|pose proof (log2_div_10 z); lia].
    unfold dec_value_from. cbn. unfold digit_char.
    pose proof (Z.mod_pos_bound z 10 ltac:(lia)).
    rewrite (proj2 (Z.ltb_lt (z mod 10) 10)) by lia.
    pose proof (Z.div_mod z 10 ltac:(lia)). lia.
Qed.

(** Reading back a printed number. *)
Lemma dec_value_dec z : 0 <= z -> dec_value (dec z) = z.
Proof.
  intros Hz. unfold dec, digits. apply digs_ten_value; [done|].
  pose proof (Z.log2_nonneg z). lia.
Qed.

Lemma dec_isdigit z : 0 <= z -> Forall (fun c => 48 <= c <= 57) (dec z).
Proof.
  intros Hz. unfold dec. rewrite Forall_fmap. apply Forall_forall. intros d Hd.
  apply digs_bounds in Hd; [|lia..]. cbn. unfold digit_char. case_ltb; lia.
Qed.

Lemma dec_nonempty z : dec z <> [].
Proof. unfold dec, digits. cbn [digs]. case_ltb; [done|]. rewrite fmap_app. by destruct (_ <$> _). Qed.
