(* ===== verification/Sds.v ===== *)
(** Dynamic strings ([hiredis-win32-master/sds.c], [sds.h]).

    An [sds] points to the characters of a block whose header precedes them;
    here it is the value [sdshdr] of that block: the two [int] counters and
    every byte of the flexible array, the indeterminate ones included.  An
    operation that may move the block takes the value and returns the new one,
    or [None] for NULL.  All accesses are bounds-checked: a run that would
    write or read outside the block is a [Fault]. *)

From S2P Require Import Prelude Machine Printf.
From stdpp Require Import base tactics list numbers strings.

Local Open Scope Z_scope.

Record sdshdr := mkSds { sh_len : Z; sh_free : Z; sh_buf : list char }.

(** [sizeof(struct sdshdr)]: two [int]s. *)
Definition SDSHDR_SIZE : Z := 8.

Definition sdslen (s : sdshdr) : Z := size_t (sh_len s).
Definition sdsavail (s : sdshdr) : Z := size_t (sh_free s).

(** * Creation and release *)

Definition sdsnewlen (init : option (list char)) (initlen : Z) : M (option sdshdr) :=
  let* blk := malloc (size_t (SDSHDR_SIZE + initlen + 1)) in
  match blk with
  | None => ret None
  | Some sh =>
      let buf := drop (Z.to_nat SDSHDR_SIZE) sh in
      let* buf :=
        (if initlen =? 0 then ret buf
         else match init with
              | Some p => let* d := lift (mem_read p 0 initlen) in lift (mem_write buf 0 d)
              | None => lift (mem_write buf 0 (replicate (Z.to_nat initlen) 0))
              end) in
      let* buf := lift (mem_write buf initlen [NUL]) in
      ret (Some (mkSds (int initlen) 0 buf))
  end.

Definition sdsempty : M (option sdshdr) := sdsnewlen (Some [NUL]) 0.

Definition sdsnew (init : option (list char)) : M (option sdshdr) :=
  match init with
  | None => sdsnewlen None 0
  | Some p => match strlen p with
              | Some n => sdsnewlen init n
              | None => crash OutOfBounds
              end
  end.

Definition sdsdup (s : sdshdr) : M (option sdshdr) := sdsnewlen (Some (sh_buf s)) (sdslen s).

Definition sdsfree (s : option sdshdr) : M unit :=
  match s with None => ret tt | Some _ => free end.

Definition sdsupdatelen (s : sdshdr) : M sdshdr :=
  match strlen (sh_buf s) with
  | None => crash OutOfBounds
  | Some n =>
      let reallen := int n in
      let* d := lift (int_ok (sh_len s - reallen)) in
      let* f := lift (int_ok (sh_free s + d)) in
      ret (mkSds reallen f (sh_buf s))
  end.

(** * Growth *)

Definition sdsMakeRoomFor (s : sdshdr) (addlen : Z) : M (option sdshdr) :=
  let free := sdsavail s in
  if addlen <=? free then ret (Some s)
  else
    let len := sdslen s in
    let newlen := size_t ((len + addlen) * 2) in
    let* blk := realloc (replicate (Z.to_nat SDSHDR_SIZE) 0 ++ sh_buf s)
                        (size_t (SDSHDR_SIZE + newlen + 1)) in
    match blk with
    | None => ret None
    | Some b => ret (Some (mkSds (sh_len s) (int (newlen - len)) (drop (Z.to_nat SDSHDR_SIZE) b)))
    end.

Definition sdsgrowzero (s : sdshdr) (len : Z) : M (option sdshdr) :=
  let curlen := size_t (sh_len s) in
  if len <=? curlen then ret (Some s)
  else
    let* r := sdsMakeRoomFor s (size_t (len - curlen)) in
    match r with
    | None => ret None
    | Some s =>
        let* b := lift (mem_write (sh_buf s) curlen
                                  (replicate (Z.to_nat (size_t (len - curlen + 1))) 0)) in
        let* totlen := lift (int_ok (sh_len s + sh_free s)) in
        let newlen := int len in
        ret (Some (mkSds newlen (int (totlen - newlen)) b))
    end.

Definition sdscatlen (s : sdshdr) (t : list char) (len : Z) : M (option sdshdr) :=
  let curlen := sdslen s in
  let* r := sdsMakeRoomFor s len in
  match r with
  | None => ret None
  | Some s =>
      let* d := lift (mem_read t 0 len) in
      let* b := lift (mem_write (sh_buf s) curlen d) in
      let* b := lift (mem_write b (size_t (curlen + len)) [NUL]) in
      ret (Some (mkSds (int (curlen + len)) (int (sh_free s - len)) b))
  end.

Definition sdscat (s : sdshdr) (t : list char) : M (option sdshdr) :=
  match strlen t with
  | Some n => sdscatlen s t n
  | None => crash OutOfBounds
  end.

Definition sdscpylen (s : sdshdr) (t : list char) (len : Z) : M (option sdshdr) :=
  let* tot0 := lift (int_ok (sh_free s + sh_len s)) in
  let* r :=
    (if size_t tot0 <? len then
       let* r := sdsMakeRoomFor s (size_t (len - sh_len s)) in
       match r with
       | None => ret None
       | Some s => let* tot := lift (int_ok (sh_free s + sh_len s)) in ret (Some (s, size_t tot))
       end
     else ret (Some (s, size_t tot0))) in
  match r with
  | None => ret None
  | Some (s, totlen) =>
      let* d := lift (mem_read t 0 len) in
      let* b := lift (mem_write (sh_buf s) 0 d) in
      let* b := lift (mem_write b len [NUL]) in
      ret (Some (mkSds (int len) (int (totlen - len)) b))
  end.

Definition sdscpy (s : sdshdr) (t : list char) : M (option sdshdr) :=
  match strlen t with
  | Some n => sdscpylen s t n
  | None => crash OutOfBounds
  end.

(** * Formatted output *)

(** The [while(1)] of [sdscatvprintf]: double the buffer until the byte before
    its last stays NUL. *)
Fixpoint vprintf_loop (fuel : nat) (buflen : Z) (text : list char) : M (option (list char)) :=
  match fuel with
  | O => crash OutOfFuel
  | S f =>
      let* blk := malloc buflen in
      match blk with
      | None => ret None
      | Some buf =>
          let* buf := lift (mem_write buf (buflen - 2) [NUL]) in
          let* buf := lift (mem_write buf 0 (vsnprintf_bytes buflen text)) in
          let* c := lift (mem_get buf (buflen - 2)) in
          if negb (c =? NUL) then
            let* _ := free in
            vprintf_loop f (size_t (buflen * 2)) text
          else ret (Some buf)
      end
  end.

Definition sdscatvprintf `{FloatFmt} (s : sdshdr) (fmt : list char) (ap : va_list)
  : M (option sdshdr) :=
  let* text := lift (vsprintf fmt ap) in
  let* r := vprintf_loop (S (length text)) 16 text in
  match r with
  | None => ret None
  | Some buf =>
      let* t := sdscat s buf in
      let* _ := free in
      ret t
  end.

Definition sdscatprintf `{FloatFmt} (s : sdshdr) (fmt : list char) (ap : va_list)
  : M (option sdshdr) := sdscatvprintf s fmt ap.

(** * Trimming and slicing *)

(** [while(sp <= end && strchr(cset, *sp)) sp++;] *)
Fixpoint trim_left (fuel : nat) (b cset : list char) (sp end_ : Z) : outcome Z :=
  match fuel with
  | O => Fault OutOfFuel
  | S f =>
      if sp <=? end_ then
        match mem_get b sp with
        | Ok c => if strchr cset c then trim_left f b cset (sp + 1) end_ else Ok sp
        | Fault e => Fault e
        end
      else Ok sp
  end.

(** [while(ep > start && strchr(cset, *ep)) ep--;] *)
Fixpoint trim_right (fuel : nat) (b cset : list char) (ep start : Z) : outcome Z :=
  match fuel with
  | O => Fault OutOfFuel
  | S f =>
      if start <? ep then
        match mem_get b ep with
        | Ok c => if strchr cset c then trim_right f b cset (ep - 1) start else Ok ep
        | Fault e => Fault e
        end
      else Ok ep
  end.

Definition sdstrim (s : sdshdr) (cset : list char) : M sdshdr :=
  let end_ := sdslen s - 1 in
  let fuel := S (S (length (sh_buf s))) in
  let* sp := lift (trim_left fuel (sh_buf s) cset 0 end_) in
  let* ep := lift (trim_right fuel (sh_buf s) cset end_ 0) in
  let len := if ep <? sp then 0 else ep - sp + 1 in
  let* b := (if sp =? 0 then ret (sh_buf s)
             else let* d := lift (mem_read (sh_buf s) sp len) in
                  lift (mem_write (sh_buf s) 0 d)) in
  let* b := lift (mem_write b len [NUL]) in
  ret (mkSds (int len) (int (sh_free s + (sh_len s - len))) b).

(** A negative index of [sdsrange] counts from the end. *)
Definition range_index (len i : Z) : Z :=
  if i <? 0 then let i := int (len + i) in if i <? 0 then 0 else i else i.

(** [(start > end) ? 0 : (end-start)+1], in [int]. *)
Definition range_newlen (start end_ : Z) : outcome Z :=
  if end_ <? start then Ok 0 else int_ok (end_ - start + 1).

(** The [newlen] of [sdsrange] and the [start] it is counted from. *)
Definition range_clip (len start end_ : Z) : M (Z * Z) :=
  let* newlen := lift (range_newlen start end_) in
  if negb (newlen =? 0) then
    if int len <=? start then ret (start, 0)
    else if int len <=? end_ then
      let* newlen := lift (range_newlen start (int (len - 1))) in
      ret (start, newlen)
    else ret (start, newlen)
  else ret (0, newlen).

Definition sdsrange (s : sdshdr) (start end_ : Z) : M sdshdr :=
  let len := sdslen s in
  if len =? 0 then ret s
  else
    let start := range_index len start in
    let end_ := range_index len end_ in
    let* (start, newlen) := range_clip len start end_ in
    let* b := (if negb (start =? 0) && negb (newlen =? 0) then
                 let* d := lift (mem_read (sh_buf s) start newlen) in
                 lift (mem_write (sh_buf s) 0 d)
               else ret (sh_buf s)) in
    let* b := lift (mem_write b newlen [NUL]) in
    ret (mkSds (int newlen) (int (sh_free s + (sh_len s - newlen))) b).

(** * Case mapping and comparison *)

(** [for (j = 0; j < len; j++) s[j] = f(s[j]);] *)
Fixpoint map_chars (n : nat) (f : char -> char) (b : list char) (j : Z) : outcome (list char) :=
  match n with
  | O => Ok b
  | S n' =>
      match mem_get b j with
      | Fault e => Fault e
      | Ok c => match mem_write b j [f c] with
                | Fault e => Fault e
                | Ok b' => map_chars n' f b' (j + 1)
                end
      end
  end.

Definition sdstolower (s : sdshdr) : M sdshdr :=
  let* b := lift (map_chars (Z.to_nat (int (sdslen s))) tolower (sh_buf s) 0) in
  ret (mkSds (sh_len s) (sh_free s) b).

Definition sdstoupper (s : sdshdr) : M sdshdr :=
  let* b := lift (map_chars (Z.to_nat (int (sdslen s))) toupper (sh_buf s) 0) in
  ret (mkSds (sh_len s) (sh_free s) b).

Definition sdscmp (s1 s2 : sdshdr) : M Z :=
  let l1 := sdslen s1 in
  let l2 := sdslen s2 in
  let minlen := if l1 <? l2 then l1 else l2 in
  let* a := lift (mem_read (sh_buf s1) 0 minlen) in
  let* b := lift (mem_read (sh_buf s2) 0 minlen) in
  let cmp := memcmp a b in
  if cmp =? 0 then ret (int (l1 - l2)) else ret cmp.

(** * Splitting *)

(** [cleanup:] of [sdssplitlen], and the release of the vector at [err:] of
    [sdssplitargs]. *)
Fixpoint free_tokens (tokens : list sdshdr) : M unit :=
  match tokens with
  | [] => free
  | t :: ts => let* _ := sdsfree (Some t) in free_tokens ts
  end.

(** The separator test of [sdssplitlen]. *)
Definition sep_at (s : list char) (j : Z) (sep : list char) (seplen : Z) : outcome bool :=
  let cmp := match mem_read s j seplen, mem_read sep 0 seplen with
             | Ok a, Ok b => Ok (memcmp a b =? 0)
             | Fault e, _ => Fault e
             | _, Fault e => Fault e
             end in
  if seplen =? 1 then
    match mem_get s j, mem_get sep 0 with
    | Ok a, Ok b => if a =? b then Ok true else cmp
    | Fault e, _ => Fault e
    | _, Fault e => Fault e
    end
  else cmp.

(** [tokens[elements] = v;] in an array of [slots] pointers. *)
Definition put_token (slots : Z) (tokens : list sdshdr) (v : sdshdr) : M (list sdshdr) :=
  if zlen tokens <? slots then ret (tokens ++ [v]) else crash OutOfBounds.

(** The [for] of [sdssplitlen]; [elements] is the length of [tokens], [None] is
    the jump to [cleanup]. *)
Fixpoint split_loop (fuel : nat) (s : list char) (len : Z) (sep : list char) (seplen : Z)
    (j start slots : Z) (tokens : list sdshdr) : M (option (Z * Z * list sdshdr)) :=
  match fuel with
  | O => crash OutOfFuel
  | S f =>
      if j <? len - (seplen - 1) then
        let* room :=
          (if slots <? zlen tokens + 2 then
             let* slots' := lift (int_ok (slots * 2)) in
             let* ok := realloc_block true in
             ret (if ok : bool then Some slots' else None)
           else ret (Some slots)) in
        match room with
        | None => let* _ := free_tokens tokens in ret None
        | Some slots =>
            let* hit := lift (sep_at s j sep seplen) in
            if hit : bool then
              let* t := sdsnewlen (Some (drop (Z.to_nat start) s)) (size_t (j - start)) in
              match t with
              | None => let* _ := free_tokens tokens in ret None
              | Some t =>
                  let* tokens := put_token slots tokens t in
                  split_loop f s len sep seplen (j + seplen - 1 + 1) (j + seplen) slots tokens
              end
            else split_loop f s len sep seplen (j + 1) start slots tokens
        end
      else ret (Some (start, slots, tokens))
  end.

(** Returns the tokens and [*count], or [None] for NULL. *)
Definition sdssplitlen (s : list char) (len : Z) (sep : list char) (seplen : Z)
  : M (option (list sdshdr * Z)) :=
  let slots := 5 in
  let* tokens := alloc_block in
  if (seplen <? 1) || (len <? 0) || negb tokens then ret None
  else if len =? 0 then ret (Some ([], 0))
  else
    let* r := split_loop (S (Z.to_nat len)) s len sep seplen 0 0 slots [] in
    match r with
    | None => ret None
    | Some (start, slots, tokens) =>
        let* t := sdsnewlen (Some (drop (Z.to_nat start) s)) (size_t (len - start)) in
        match t with
        | None => let* _ := free_tokens tokens in ret None
        | Some t =>
            let* tokens := put_token slots tokens t in
            ret (Some (tokens, zlen tokens))
        end
    end.

(** [while(count--) sdsfree(tokens[count]);] *)
Fixpoint freesplit_loop (count : nat) (tokens : list sdshdr) : M unit :=
  match count with
  | O => ret tt
  | S n => match tokens !! n with
           | Some t => let* _ := sdsfree (Some t) in freesplit_loop n tokens
           | None => crash OutOfBounds
           end
  end.

Definition sdsfreesplitres (tokens : option (list sdshdr)) (count : Z) : M unit :=
  match tokens with
  | None => ret tt
  | Some ts =>
      if count <? 0 then crash OutOfBounds
      else let* _ := freesplit_loop (Z.to_nat count) ts in free
  end.

(** * Numbers *)

(** The [do ... while(v)] of [sdsfromlonglong]: fills [buf] from [p] down. *)
Fixpoint ll_digits (fuel : nat) (buf : list char) (p v : Z) : outcome (list char * Z) :=
  match fuel with
  | O => Fault OutOfFuel
  | S f =>
      match mem_write buf p [48 + v mod 10] with
      | Fault e => Fault e
      | Ok buf' => if v / 10 =? 0 then Ok (buf', p - 1) else ll_digits f buf' (p - 1) (v / 10)
      end
  end.

Definition sdsfromlonglong (value : Z) : M (option sdshdr) :=
  let* w := get_world in
  let buf := junk_bytes w 32 in
  let* v := (if value <? 0 then lift (llong_ok (- value)) else ret value) in
  let* (buf, p) := lift (ll_digits 20 buf 31 v) in
  let* (buf, p) := (if value <? 0
                    then let* b := lift (mem_write buf p [45]) in ret (b, p - 1)
                    else ret (buf, p)) in
  let p := p + 1 in
  sdsnewlen (Some (drop (Z.to_nat p) buf)) (size_t (32 - p)).

(** * Quoting *)

(** The text appended for one byte: either copied with [sdscatlen] or printed
    with [sdscatprintf]. *)
Definition catrepr_char (s : sdshdr) (c : char) : M (option sdshdr) :=
  if (c =? BACKSLASH) || (c =? DQUOTE) then @sdscatprintf no_float s (lit "\%c") (mkVa [VNum (schar c)] [])
  else if c =? 10 then sdscatlen s (lit "\n") 2
  else if c =? 13 then sdscatlen s (lit "\r") 2
  else if c =? 9 then sdscatlen s (lit "\t") 2
  else if c =? 7 then sdscatlen s (lit "\a") 2
  else if c =? 8 then sdscatlen s (lit "\b") 2
  else if isprint c then @sdscatprintf no_float s (lit "%c") (mkVa [VNum (schar c)] [])
  else @sdscatprintf no_float s (lit "\x%02x") (mkVa [VNum c] []).

(** [while(len--)]; [p] is what is left of the bytes to quote. *)
Fixpoint catrepr_loop (n : nat) (s : sdshdr) (p : list char) : M (option sdshdr) :=
  match n with
  | O => sdscatlen s [DQUOTE] 1
  | S n' =>
      match p with
      | [] => crash OutOfBounds
      | c :: p' =>
          let* r := catrepr_char s c in
          match r with
          | None => ret None
          | Some s => catrepr_loop n' s p'
          end
      end
  end.

Definition sdscatrepr (s : sdshdr) (p : list char) (len : Z) : M (option sdshdr) :=
  let* r := sdscatlen s [DQUOTE] 1 in
  match r with
  | None => ret None
  | Some s => catrepr_loop (Z.to_nat len) s p
  end.

(** * Splitting a line into arguments *)

(** [while( *p && isspace( *p)) p++;] *)
Fixpoint skip_blanks (fuel : nat) (line : list char) (p : Z) : outcome Z :=
  match fuel with
  | O => Fault OutOfFuel
  | S f =>
      match mem_get line p with
      | Fault e => Fault e
      | Ok c => if negb (c =? NUL) && isspace c then skip_blanks f line (p + 1) else Ok p
      end
  end.

Definition unescape (c : char) : char :=
  if c =? 110 then 10 else if c =? 114 then 13 else if c =? 116 then 9
  else if c =? 98 then 8 else if c =? 97 then 7 else c.

(** How the inner loop of [sdssplitargs] is left: the jump to [err] with the
    value of [current], or [done] with the position and the token. *)
Inductive token_exit :=
| TokErr (current : option sdshdr)
| TokDone (p : Z) (current : sdshdr).

(** [while(!done)]. *)
Fixpoint token_loop (fuel : nat) (line : list char) (p : Z) (inq : bool) (current : sdshdr)
  : M token_exit :=
  match fuel with
  | O => crash OutOfFuel
  | S f =>
      let* c := lift (mem_get line p) in
      (* the end of the loop body: [if ( *p) p++; if (current == NULL) goto err;] *)
      let next p inq (cur : option sdshdr) :=
        let* c := lift (mem_get line p) in
        let p := if negb (c =? NUL) then p + 1 else p in
        match cur with
        | None => ret (TokErr None)
        | Some cur => token_loop f line p inq cur
        end in
      let finish p :=
        let* c := lift (mem_get line p) in
        ret (TokDone (if negb (c =? NUL) then p + 1 else p) current) in
      if inq then
        let* esc := (if c =? BACKSLASH
                     then let* c1 := lift (mem_get line (p + 1)) in ret (negb (c1 =? NUL))
                     else ret false) in
        if esc : bool then
          let* c1 := lift (mem_get line (p + 1)) in
          let* cur := sdscatlen current [unescape c1] 1 in
          next (p + 1) true cur
        else if c =? DQUOTE then
          let* c1 := lift (mem_get line (p + 1)) in
          if negb (c1 =? NUL) && negb (isspace c1) then ret (TokErr (Some current))
          else finish p
        else if c =? NUL then ret (TokErr (Some current))
        else
          let* cur := sdscatlen current [c] 1 in
          next p true cur
      else if (c =? 32) || (c =? 10) || (c =? 13) || (c =? 9) || (c =? NUL) then finish p
      else if c =? DQUOTE then next p true (Some current)
      else
        let* cur := sdscatlen current [c] 1 in
        next p false cur
  end.

(** [err:] releases the vector and the current token; [*argc] ends up -1. *)
Definition splitargs_err (vector : option (list sdshdr)) (current : option sdshdr)
  : M (option (list sdshdr) * Z) :=
  let* _ := match vector with Some ts => free_tokens ts | None => ret tt end in
  let* _ := sdsfree current in
  ret (None, -1).

Fixpoint splitargs_loop (fuel : nat) (line : list char) (p : Z) (vector : option (list sdshdr))
  : M (option (list sdshdr) * Z) :=
  match fuel with
  | O => crash OutOfFuel
  | S f =>
      let argc := match vector with Some ts => zlen ts | None => 0 end in
      let* p := lift (skip_blanks (S (length line)) line p) in
      let* c := lift (mem_get line p) in
      if negb (c =? NUL) then
        let* current := sdsempty in
        match current with
        | None => splitargs_err vector None
        | Some current =>
            let* r := token_loop (S (length line)) line p false current in
            match r with
            | TokErr cur => splitargs_err vector cur
            | TokDone p current =>
                let* ok := realloc_block (match vector with Some _ => true | None => false end) in
                if negb ok then splitargs_err vector (Some current)
                else splitargs_loop f line p (Some (default [] vector ++ [current]))
            end
        end
      else ret (vector, argc)
  end.

(** The vector of tokens ([None] for NULL) and [*argc]. *)
Definition sdssplitargs (line : list char) : M (option (list sdshdr) * Z) :=
  splitargs_loop (S (length line)) line 0 None.

(** * Well-formed strings *)

(** The string an [sds] holds. *)
Definition sds_str (s : sdshdr) : list char := take (Z.to_nat (sh_len s)) (sh_buf s).

(** The counters describe the block: [len] characters, a NUL after them, and
    [free] more bytes. *)
Record sds_wf (s : sdshdr) : Prop := {
  wf_len : 0 <= sh_len s;
  wf_free : 0 <= sh_free s;
  wf_max : sh_len s + sh_free s <= INT_MAX;
  wf_size : zlen (sh_buf s) = sh_len s + sh_free s + 1;
  wf_nul : sh_buf s !! Z.to_nat (sh_len s) = Some NUL
}.

Create HintDb sds.
#[export] Hint Resolve wf_len wf_free wf_max wf_size : sds.

Section wf.
Context (s : sdshdr) (Hwf : sds_wf s).

Lemma sdslen_wf : sdslen s = sh_len s.
Proof. destruct Hwf. unfold sdslen. apply size_t_id. climits. Qed.

Lemma sdsavail_wf : sdsavail s = sh_free s.
Proof. destruct Hwf. unfold sdsavail. apply size_t_id. climits. Qed.

Lemma length_sds_str : zlen (sds_str s) = sh_len s.
Proof. destruct Hwf. unfold sds_str. rewrite length_take. lia. Qed.

Lemma sdslen_str : sdslen s = zlen (sds_str s).
Proof. by rewrite sdslen_wf, length_sds_str. Qed.

(** The characters are followed by their NUL. *)
Lemma sds_buf_split : exists rest, sh_buf s = sds_str s ++ NUL :: rest /\ zlen rest = sh_free s.
Proof.
  destruct Hwf as [? ? ? Hs Hn]. exists (drop (S (Z.to_nat (sh_len s))) (sh_buf s)). split.
  - unfold sds_str. by rewrite <- (drop_S _ _ _ Hn), take_drop.
  - rewrite length_drop. lia.
Qed.
End wf.

(** A block whose bytes are a string, a NUL and slack. *)
Lemma sds_wf_intro str rest :
  zlen str + zlen rest <= INT_MAX ->
  sds_wf (mkSds (zlen str) (zlen rest) (str ++ NUL :: rest)) /\
  sds_str (mkSds (zlen str) (zlen rest) (str ++ NUL :: rest)) = str.
Proof.
  intros H. split.
  - split; cbn; try lia.
    + rewrite length_app; cbn; lia.
    + rewrite Nat2Z.id. by apply list_lookup_middle.
  - unfold sds_str. cbn. rewrite Nat2Z.id. apply take_app_length.
Qed.

(** ** Creation *)

Lemma sdsnewlen_allocs init n w :
  0 <= n < INT_MAX ->
  match init with Some p => n <= zlen p | None => True end ->
  allocs (sdsnewlen init n) w 1 (fun s =>
    sds_wf s /\ sh_free s = 0 /\
    sds_str s = match init with Some p => take (Z.to_nat n) p | None => replicate (Z.to_nat n) 0 end).
Proof.
  intros Hn Hp. unfold sdsnewlen, SDSHDR_SIZE. rewrite size_t_id by climits.
  destruct (malloc_spec (8 + n + 1) w) as (p & w1 & E & Ha & H).
  set (str := match init with Some p => take (Z.to_nat n) p | None => replicate (Z.to_nat n) 0 end).
  assert (zlen str = n) as Hstr.
  { unfold str. destruct init; [rewrite length_take|rewrite length_replicate]; lia. }
  unfold allocs. rewrite (bind_ok _ _ _ _ _ E). destruct p as [blk|].
  2: { exists None, w1. split_and!; try done. intros Hno.
       rewrite (malloc_no_oom _ _ Hno) in E. done. }
  destruct H as [Hlen Hlive]. set (b := drop (Z.to_nat 8) blk).
  assert (zlen b = n + 1) as Hb by (unfold b; rewrite length_drop; lia).
  destruct (length_1_inv (drop (Z.to_nat n) b)) as [x Hx]; [rewrite length_drop; lia|].
  erewrite (bind_ok _ _ w1 (str ++ [x]) w1).
  2: { destruct (Z.eqb_spec n 0) as [->|Hn0].
       - assert (str = []) as -> by (apply nil_length_inv; lia). unfold ret. by rewrite <- Hx.
       - assert (mem_write b 0 str = Ok (str ++ [x])) as Ew.
         { rewrite mem_write_ok by lia.
           replace (Z.to_nat 0 + length str)%nat with (Z.to_nat n) by lia. by rewrite Hx. }
         unfold str in *. destruct init as [p|].
         + rewrite (bind_ok _ _ w1 (take (Z.to_nat n) p) w1); [by apply lift_ok|].
           apply lift_ok. by rewrite mem_read_ok by lia.
         + by apply lift_ok. }
  erewrite bind_ok.
  2: { apply lift_ok, mem_write_ok; rewrite ?length_app; cbn; lia. }
  replace (Z.to_nat n) with (length str) by lia.
  rewrite take_app_length, drop_ge by (rewrite length_app; cbn; lia).
  rewrite app_nil_r, (int_id n) by climits.
  eexists _, w1. split_and!; [done|done|]. rewrite <- Hstr.
  destruct (sds_wf_intro str []) as [Hw Hs]; [cbn; climits|]. done.
Qed.

(** ** Growth *)

(** Room for [n] more bytes is there, or can be made within an [int]. *)
Definition sds_fits (s : sdshdr) (n : Z) : Prop :=
  n <= sh_free s \/ 2 * (sh_len s + n) <= INT_MAX.

Lemma sdsMakeRoomFor_allocs s n w :
  sds_wf s -> 0 <= n -> sds_fits s n ->
  allocs (sdsMakeRoomFor s n) w 0 (fun s' =>
    sds_wf s' /\ sh_len s' = sh_len s /\ sds_str s' = sds_str s /\ n <= sh_free s').
Proof.
  intros Hwf Hn Hfit. unfold sdsMakeRoomFor. rewrite sdsavail_wf, sdslen_wf by done.
  destruct (Z.leb_spec n (sh_free s)) as [Hle|Hgt]; [by apply allocs_ret|].
  destruct Hfit as [?|Hfit]; [lia|]. pose proof Hwf as [Hl Hf Hm Hs Hz].
  unfold SDSHDR_SIZE. set (newlen := (sh_len s + n) * 2).
  rewrite (size_t_id newlen), size_t_id by climits.
  destruct (realloc_spec (replicate (Z.to_nat 8) 0 ++ sh_buf s) (8 + newlen + 1) w)
    as (p & w1 & E & Ha & Hlive & H).
  unfold allocs. rewrite (bind_ok _ _ _ _ _ E). destruct p as [b|].
  2: { exists None, w1. split_and!; try done. intros Hno.
       rewrite (realloc_no_oom _ _ _ Hno) in E. done. }
  destruct H as [Hb Htake]. eexists _, w1. split_and!; [done|done|].
  split; [|lia]. destruct (sds_buf_split s Hwf) as (rest & Hbuf & Hrest).
  rewrite (take_ge (_ ++ _)) in Htake by (rewrite length_app, length_replicate; lia).
  destruct (list_split_at (length (replicate (Z.to_nat 8) 0 ++ sh_buf s)) b) as (b1 & b2 & -> & Hb1).
  { rewrite length_app, length_replicate. lia. }
  rewrite <- Hb1, take_app_length in Htake. subst b1.
  rewrite <- app_assoc, drop_app_length' by done. rewrite (int_id (newlen - sh_len s)) by climits.
  rewrite Hbuf, <- app_assoc. cbn [app].
  rewrite !length_app, length_replicate in Hb. cbn in Hb.
  destruct (sds_wf_intro (sds_str s) (rest ++ b2)) as [W S].
  { rewrite length_sds_str, length_app by done. unfold newlen in *. climits. }
  rewrite length_sds_str in W, S by done.
  replace (zlen (rest ++ b2)) with (newlen - sh_len s) in W, S
    by (rewrite length_app; unfold newlen in *; lia).
  split_and!; [done|done|done|cbn; unfold newlen; lia].
Qed.

(** Overwriting what follows the characters, as every appending operation
    does. *)
Lemma sds_append_buf s d :
  sds_wf s -> zlen d <= sh_free s ->
  exists b1 b2, mem_write (sh_buf s) (sh_len s) d = Ok b1 /\
    mem_write b1 (sh_len s + zlen d) [NUL] = Ok b2 /\
    sds_wf (mkSds (sh_len s + zlen d) (sh_free s - zlen d) b2) /\
    sds_str (mkSds (sh_len s + zlen d) (sh_free s - zlen d) b2) = sds_str s ++ d.
Proof.
  intros Hwf Hd. destruct (sds_buf_split s Hwf) as (rest & Hbuf & Hrest).
  destruct (list_split_at (length d) (NUL :: rest)) as (m & z & Hm & Hlm); [cbn; lia|].
  pose proof (length_sds_str s Hwf) as Hls. rewrite Hbuf, Hm.
  assert (zlen m + zlen z = sh_free s + 1) as Hz.
  { rewrite <- Nat2Z.inj_add, <- length_app, <- Hm. cbn. lia. }
  destruct z as [|x z]; [cbn in Hz; lia|].
  eexists _, _. split; [by apply mem_write_app|]. split.
  - rewrite app_assoc. apply (mem_write_app (sds_str s ++ d) [x] z [NUL]); [|done].
    rewrite length_app. lia.
  - cbn [app]. destruct (sds_wf_intro (sds_str s ++ d) z) as [W S].
    { rewrite length_app. cbn in Hz. destruct Hwf. climits. }
    replace (zlen (sds_str s ++ d)) with (sh_len s + zlen d) in W, S by (rewrite length_app; lia).
    replace (zlen z) with (sh_free s - zlen d) in W, S by (cbn in Hz; lia). done.
Qed.

Lemma sdscatlen_allocs s t n w :
  sds_wf s -> 0 <= n <= zlen t -> sds_fits s n ->
  allocs (sdscatlen s t n) w 0 (fun s' =>
    sds_wf s' /\ sds_str s' = sds_str s ++ take (Z.to_nat n) t).
Proof.
  intros Hwf Hn Hfit. unfold sdscatlen. rewrite sdslen_wf by done.
  eapply allocs_bind; [by apply sdsMakeRoomFor_allocs; [| lia |]|].
  intros s1 w1 (Hwf1 & Hl1 & Hs1 & Hr1) _. rewrite <- Hl1, <- Hs1.
  assert (zlen (take (Z.to_nat n) t) = n) as Hd by (rewrite length_take; lia).
  destruct (sds_append_buf s1 (take (Z.to_nat n) t)) as (b1 & b2 & E1 & E2 & W & S); [done|lia|].
  rewrite Hd in *. pose proof Hwf1 as [? ? ? ? ?].
  unfold allocs. lift_step (mem_read_ok t 0 n ltac:(lia) ltac:(lia) ltac:(lia)).
  rewrite drop_0. lift_step E1. rewrite size_t_id by climits. lift_step E2.
  rewrite !int_id by climits. by apply allocs_ret.
Qed.

(** Appending a whole region. *)
Lemma sdscatlen_all_allocs s t w :
  sds_wf s -> sds_fits s (zlen t) ->
  allocs (sdscatlen s t (zlen t)) w 0 (fun s' => sds_wf s' /\ sds_str s' = sds_str s ++ t).
Proof.
  intros Hwf Hfit. eapply allocs_mono; [apply sdscatlen_allocs; [done|lia|done]|].
  cbn. intros s'. by rewrite Nat2Z.id, firstn_all.
Qed.

Lemma sdscat_allocs s t rest w :
  sds_wf s -> Forall (fun c => c <> NUL) t -> sds_fits s (zlen t) ->
  allocs (sdscat s (t ++ NUL :: rest)) w 0 (fun s' => sds_wf s' /\ sds_str s' = sds_str s ++ t).
Proof.
  intros Hwf Ht Hfit. unfold sdscat. rewrite strlen_app_nul by done.
  eapply allocs_mono; [apply sdscatlen_allocs; [done|rewrite length_app; lia|done]|].
  cbn. intros s'. by rewrite Nat2Z.id, take_app_length.
Qed.

(** Writing a prefix and its NUL over the whole block, as every operation that
    replaces or shortens the string does. *)
Lemma sds_replace_buf b d free :
  zlen b = zlen d + free + 1 -> 0 <= free -> zlen d + free <= INT_MAX ->
  exists b1 b2, mem_write b 0 d = Ok b1 /\ mem_write b1 (zlen d) [NUL] = Ok b2 /\
    sds_wf (mkSds (zlen d) free b2) /\ sds_str (mkSds (zlen d) free b2) = d.
Proof.
  intros Hb Hf Hmax.
  destruct (list_split_at (length d) b) as (m & z & -> & Hm); [lia|].
  rewrite length_app in Hb. destruct z as [|x z]; [cbn in Hb; lia|].
  exists (d ++ x :: z), (d ++ NUL :: z).
  split; [by apply (mem_write_app [] m (x :: z) d)|].
  split; [by apply (mem_write_app d [x] z [NUL])|].
  replace free with (zlen z) by (cbn in Hb; lia). apply sds_wf_intro. cbn in Hb. lia.
Qed.

Lemma sdsgrowzero_allocs s n w :
  sds_wf s -> 0 <= n -> sds_fits s (n - sh_len s) ->
  allocs (sdsgrowzero s n) w 0 (fun s' =>
    sds_wf s' /\ sds_str s' = sds_str s ++ replicate (Z.to_nat (n - sh_len s)) 0).
Proof.
  intros Hwf Hn Hfit. unfold sdsgrowzero. fold (sdslen s). rewrite sdslen_wf by done.
  pose proof Hwf as [? ? ? ? ?].
  destruct (Z.leb_spec n (sh_len s)) as [Hle|Hgt].
  { apply allocs_ret. split; [done|]. replace (Z.to_nat _) with 0%nat by lia. by rewrite app_nil_r. }
  assert (n <= INT_MAX) by (destruct Hfit; climits).
  rewrite (size_t_id (n - sh_len s)), (size_t_id (n - sh_len s + 1)) by climits.
  eapply allocs_bind; [by apply sdsMakeRoomFor_allocs; [|lia|]|].
  intros s1 w1 (Hwf1 & Hl1 & Hs1 & Hr1) _. rewrite <- Hs1, <- Hl1 in *.
  set (z := replicate (Z.to_nat (n - sh_len s1)) 0).
  assert (zlen z = n - sh_len s1) as Hz by (unfold z; rewrite length_replicate; lia).
  destruct (sds_append_buf s1 z) as (b1 & b2 & E1 & E2 & W & S); [done|lia|].
  assert (mem_write (sh_buf s1) (sh_len s1) (replicate (Z.to_nat (n - sh_len s1 + 1)) 0) = Ok b2) as E.
  { replace (replicate _ 0) with (z ++ [NUL]).
    2: { unfold z. replace (Z.to_nat (n - sh_len s1 + 1)) with (Z.to_nat (n - sh_len s1) + 1)%nat by lia.
         by rewrite replicate_add. }
    destruct (sds_buf_split s1 Hwf1) as (rest & Hbuf & Hrest).
    destruct (list_split_at (length z) (NUL :: rest)) as (m & zz & Hm & Hlm); [cbn; lia|].
    assert (zlen m + zlen zz = sh_free s1 + 1).
    { rewrite <- Nat2Z.inj_add, <- length_app, <- Hm. cbn. lia. }
    destruct zz as [|x zz]; [cbn in *; lia|].
    pose proof (length_sds_str s1 Hwf1).
    rewrite Hbuf, Hm in E1 |- *. rewrite mem_write_app in E1 by lia. injection E1 as <-.
    rewrite app_assoc in E2.
    rewrite (mem_write_app (sds_str s1 ++ z) [x] zz [NUL]) in E2 by (rewrite ?length_app; lia || done).
    injection E2 as <-.
    replace (m ++ x :: zz) with ((m ++ [x]) ++ zz) by (by rewrite <- app_assoc).
    rewrite mem_write_app by (rewrite ?length_app; cbn; lia). by rewrite <- !app_assoc. }
  pose proof Hwf1 as [? ? ? ? ?].
  unfold allocs. lift_step E. rewrite (int_id n) by climits.
  lift_step (int_ok_eq (sh_len s1 + sh_free s1) ltac:(climits)). rewrite int_id by climits.
  replace n with (sh_len s1 + zlen z) by lia.
  replace (sh_len s1 + sh_free s1 - (sh_len s1 + zlen z)) with (sh_free s1 - zlen z) by lia.
  by apply allocs_ret.
Qed.

Lemma sdscpylen_allocs s t n w :
  sds_wf s -> 0 <= n <= zlen t -> (n <= sh_len s + sh_free s \/ 2 * n <= INT_MAX) ->
  allocs (sdscpylen s t n) w 0 (fun s' => sds_wf s' /\ sds_str s' = take (Z.to_nat n) t).
Proof.
  intros Hwf Hn Hfit. pose proof Hwf as [? ? ? ? ?]. unfold sdscpylen, allocs.
  lift_step (int_ok_eq (sh_free s + sh_len s) ltac:(climits)). rewrite size_t_id by climits.
  eapply allocs_bind with (P := fun p => let '(s', tot) := p in
    sds_wf s' /\ tot = sh_free s' + sh_len s' /\ n <= tot).
  - destruct (Z.ltb_spec (sh_free s + sh_len s) n); [|apply allocs_ret; split_and!; [done|done|lia]].
    rewrite size_t_id by climits.
    eapply allocs_bind; [apply sdsMakeRoomFor_allocs; [done|lia|right; lia]|].
    intros s1 w1 (Hwf1 & Hl1 & Hs1 & Hr1) _. pose proof Hwf1 as [? ? ? ? ?].
    unfold allocs. lift_step (int_ok_eq (sh_free s1 + sh_len s1) ltac:(climits)).
    rewrite size_t_id by climits. apply allocs_ret. split_and!; [done|done|lia].
  - intros [s1 tot] w1 (Hwf1 & -> & Hr1) _. pose proof Hwf1 as [? ? ? ? ?].
    assert (zlen (take (Z.to_nat n) t) = n) as Hd by (rewrite length_take; lia).
    destruct (sds_replace_buf (sh_buf s1) (take (Z.to_nat n) t) (sh_free s1 + sh_len s1 - n))
      as (b1 & b2 & E1 & E2 & W & S); [lia|lia|climits|]. rewrite Hd in *.
    unfold allocs. lift_step (mem_read_ok t 0 n ltac:(lia) ltac:(lia) ltac:(lia)).
    rewrite drop_0. lift_step E1. lift_step E2. rewrite !int_id by climits. by apply allocs_ret.
Qed.

(** ** Slicing *)

(** What [sdsrange] keeps: the characters from [start] to [end] inclusive,
    negative indices counted from the end, both clipped. *)
Definition range_spec (str : list char) (start end_ : Z) : list char :=
  let n := zlen str in
  let a := if start <? 0 then Z.max 0 (n + start) else start in
  let b := if end_ <? 0 then Z.max 0 (n + end_) else end_ in
  take (Z.to_nat (b + 1 - a)) (drop (Z.to_nat a) str).

Lemma range_index_eq len i :
  0 <= len <= INT_MAX -> INT_MIN < i <= INT_MAX ->
  range_index len i = (if i <? 0 then Z.max 0 (len + i) else i) /\ 0 <= range_index len i <= INT_MAX.
Proof.
  intros Hl Hi. unfold range_index. destruct (Z.ltb_spec i 0); [|split; [done|climits]].
  rewrite int_id by climits. case_ltb; climits.
Qed.

Lemma range_newlen_eq a b :
  0 <= a -> 0 <= b < INT_MAX -> range_newlen a b = Ok (Z.max 0 (b - a + 1)).
Proof.
  intros. unfold range_newlen. case_ltb; [f_equal; lia|].
  rewrite int_ok_eq by climits. f_equal. lia.
Qed.

Lemma range_clip_eq len a b w :
  0 < len <= INT_MAX -> 0 <= a -> 0 <= b < INT_MAX ->
  exists st, range_clip len a b w = Ok ((st, Z.max 0 (Z.min (b + 1) len - a)), w) /\
    (Z.max 0 (Z.min (b + 1) len - a) <> 0 -> st = a).
Proof.
  intros Hl Ha Hb. unfold range_clip. lift_step (range_newlen_eq a b Ha Hb).
  rewrite (int_id len), (int_id (len - 1)) by climits.
  destruct (Z.eqb_spec (Z.max 0 (b - a + 1)) 0); cbn.
  { exists 0. split; [|lia]. unfold ret. do 3 f_equal. lia. }
  exists a. split; [|done]. destruct (Z.leb_spec len a); [unfold ret; do 3 f_equal; lia|].
  destruct (Z.leb_spec len b); [|unfold ret; do 3 f_equal; lia].
  lift_step (range_newlen_eq a (len - 1) Ha ltac:(climits)). unfold ret. do 3 f_equal. lia.
Qed.

(** A slice of the characters, read from the block. *)
Lemma sds_read_slice s a d n :
  sds_wf s -> 0 <= a <= sh_len s -> d = take n (drop (Z.to_nat a) (sds_str s)) ->
  mem_read (sh_buf s) a (zlen d) = Ok d.
Proof.
  intros Hwf Ha ->. destruct (sds_buf_split s Hwf) as (rest & -> & _).
  pose proof (length_sds_str s Hwf).
  rewrite mem_read_ok by (rewrite ?length_app, ?length_take, ?length_drop; lia).
  rewrite Nat2Z.id, drop_app_le, take_app_le by (rewrite ?length_take, ?length_drop; lia).
  by rewrite length_take, <- take_take, firstn_all.
Qed.

Lemma sdsrange_ok s start end_ w :
  sds_wf s -> INT_MIN < start <= INT_MAX -> INT_MIN < end_ < INT_MAX ->
  exists s', sdsrange s start end_ w = Ok (s', w) /\ sds_wf s' /\
    sds_str s' = range_spec (sds_str s) start end_ /\
    sh_len s' + sh_free s' = sh_len s + sh_free s.
Proof.
  intros Hwf Hst Hen. pose proof Hwf as [Hl Hf Hm Hs Hz].
  pose proof (length_sds_str s Hwf) as Hls.
  unfold sdsrange. rewrite sdslen_wf by done.
  destruct (Z.eqb_spec (sh_len s) 0) as [H0|H0].
  { exists s. split_and!; try done. unfold range_spec.
    rewrite (nil_length_inv (sds_str s)) by lia. by rewrite drop_nil, take_nil. }
  destruct (range_index_eq (sh_len s) start) as [Ea Ha]; [climits|climits|].
  destruct (range_index_eq (sh_len s) end_) as [Eb Hb]; [climits|climits|].
  set (a := range_index _ start) in *. set (b := range_index _ end_) in *.
  assert (b < INT_MAX) by (rewrite Eb; case_ltb; climits).
  set (d := take (Z.to_nat (b + 1 - a)) (drop (Z.to_nat a) (sds_str s))).
  assert (range_spec (sds_str s) start end_ = d) as ->.
  { unfold range_spec. rewrite Hls. by rewrite <- Ea, <- Eb. }
  clear Ea Eb. clearbody a b.
  assert (zlen d = Z.max 0 (Z.min (b + 1) (sh_len s) - a)) as Hd.
  { unfold d. rewrite length_take, length_drop. lia. }
  destruct (range_clip_eq (sh_len s) a b w) as (st & Est & Hst'); [lia..|].
  rewrite (bind_ok _ _ _ _ _ Est). clear Est. rewrite <- Hd in *.
  destruct (sds_replace_buf (sh_buf s) d (sh_len s + sh_free s - zlen d))
    as (b1 & b2 & E1 & E2 & W & S); [lia|lia|climits|].
  assert (zlen d <> 0 -> mem_read (sh_buf s) a (zlen d) = Ok d) as Hr.
  { intros. by eapply sds_read_slice; [|lia|]. }
  erewrite (bind_ok _ _ w b1 w).
  2: { destruct (Z.eqb_spec (zlen d) 0) as [Hd0|Hd0].
       - rewrite andb_false_r. rewrite (nil_length_inv d) in E1 by lia.
         rewrite mem_write_ok in E1 by (cbn; lia). cbn in E1. by injection E1 as <-.
       - rewrite (Hst' Hd0). destruct (Z.eqb_spec a 0) as [->|Ha0]; cbn.
         + specialize (Hr Hd0). rewrite mem_read_ok in Hr by lia. injection Hr as Hr.
           rewrite drop_0, Nat2Z.id in Hr. unfold ret. do 2 f_equal.
           assert (sh_buf s = d ++ drop (length d) (sh_buf s)) as Hpre
             by (by rewrite <- Hr at 1; rewrite take_drop).
           pose proof (mem_write_app [] d (drop (length d) (sh_buf s)) d 0 eq_refl eq_refl) as Ew.
           cbn [app] in Ew. rewrite <- Hpre, E1 in Ew. by injection Ew.
         + lift_step (Hr Hd0). by apply lift_ok. }
  lift_step E2.
  replace (sh_free s + (sh_len s - zlen d)) with (sh_len s + sh_free s - zlen d) by lia.
  rewrite !int_id by climits. eexists. split_and!; [done|done|done|cbn; lia].
Qed.

(** ** Formatted output *)

(** One round of the loop: the byte tested and the buffer it leaves. *)
Lemma vprintf_round buf buflen text :
  zlen buf = buflen -> 2 <= buflen -> Forall (fun c => c <> NUL) text ->
  exists b1 b2 c, mem_write buf (buflen - 2) [NUL] = Ok b1 /\
    mem_write b1 0 (vsnprintf_bytes buflen text) = Ok b2 /\ mem_get b2 (buflen - 2) = Ok c /\
    (if buflen - 1 <=? zlen text then c <> NUL
     else c = NUL /\ exists rest, b2 = text ++ NUL :: rest).
Proof.
  intros Hb Hl Ht. unfold vsnprintf_bytes.
  destruct (list_split_at (Z.to_nat (buflen - 2)) buf) as (x & yz & -> & Hx); [lia|].
  rewrite length_app in Hb. destruct yz as [|y [|z [|]]]; cbn in Hb; try lia.
  exists (x ++ [NUL; z]).
  destruct (Z.leb_spec (buflen - 1) (zlen text)) as [Hlong|Hshort].
  - destruct (list_split_at (Z.to_nat (buflen - 2)) text) as (t1 & t2 & -> & Ht1); [lia|].
    rewrite length_app in Hlong. destruct t2 as [|c t2]; [cbn in Hlong; lia|].
    exists (t1 ++ [c; NUL]), c. split_and!.
    + apply (mem_write_app x [y] [z] [NUL]); [lia|done].
    + replace (t1 ++ c :: t2) with ((t1 ++ [c]) ++ t2) by (by rewrite <- app_assoc).
      rewrite take_app_length' by (rewrite length_app; cbn; lia). rewrite <- app_assoc. cbn [app].
      pose proof (mem_write_app [] (x ++ [NUL; z]) [] (t1 ++ [c; NUL]) 0 eq_refl) as Ew.
      rewrite !app_nil_r in Ew. apply Ew. rewrite !length_app. cbn. lia.
    + apply mem_get_app. lia.
    + apply Forall_app in Ht as [_ Ht]. by inversion Ht.
  - rewrite take_ge by lia.
    assert (exists r1, x ++ [NUL; z] = r1 ++ drop (length text + 1) (x ++ [NUL; z]) /\
            length r1 = (length text + 1)%nat) as (r1 & Hr & Hr1).
    { exists (take (length text + 1) (x ++ [NUL; z])). rewrite take_drop. split; [done|].
      rewrite length_take, length_app. cbn. lia. }
    set (rest := drop _ _) in *.
    exists (text ++ NUL :: rest), NUL. split_and!.
    + apply (mem_write_app x [y] [z] [NUL]); [lia|done].
    + rewrite Hr. replace (text ++ NUL :: rest) with ([] ++ (text ++ [NUL]) ++ rest)
        by (by rewrite <- app_assoc).
      apply (mem_write_app [] r1 rest _ 0); [done|]. rewrite length_app. cbn. lia.
    + destruct (decide (zlen text = buflen - 2)); [by apply mem_get_app|].
      apply mem_get_ok; [lia|]. rewrite lookup_app_r by lia.
      replace (Z.to_nat (buflen - 2) - length text)%nat with
        (S (Z.to_nat (buflen - 2) - (length text + 1))) by lia. rewrite lookup_cons.
      unfold rest. rewrite lookup_drop.
      replace (length text + 1 + _)%nat with (length x) by lia. by apply list_lookup_middle.
    + done.
    + by exists rest.
Qed.

Lemma vprintf_loop_allocs fuel buflen text w :
  2 <= buflen -> Forall (fun c => c <> NUL) text -> zlen text <= INT_MAX ->
  zlen text + 2 <= buflen * 2 ^ Z.of_nat fuel ->
  allocs (vprintf_loop (S fuel) buflen text) w 1 (fun buf => exists rest, buf = text ++ NUL :: rest).
Proof.
  revert buflen w. induction fuel as [|f IH]; intros buflen w Hb Ht Hmax Hf.
  all: cbn [vprintf_loop]; destruct (malloc_spec buflen w) as (p & w1 & E & Ha & H).
  all: unfold allocs; rewrite (bind_ok _ _ _ _ _ E); destruct p as [buf|].
  2,4: exists None, w1; split_and!; try done; intros Hno; by rewrite (malloc_no_oom _ _ Hno) in E.
  all: destruct H as [Hlen Hlive].
  all: destruct (vprintf_round buf buflen text) as (b1 & b2 & c & E1 & E2 & E3 & H); [lia|done..|].
  all: lift_step E1; lift_step E2; lift_step E3.
  all: destruct (Z.leb_spec (buflen - 1) (zlen text)).
  - lia.
  - destruct H as [-> [rest ->]]. cbn. eexists _, w1. split_and!; [done|done|split; [by eexists|done]].
  - destruct (Z.eqb_spec c NUL); [done|]. cbn [negb]. rewrite size_t_id by climits.
    erewrite bind_ok by reflexivity.
    destruct (IH (buflen * 2) (add_live (-1) w1)) as (r & w2 & E' & Ha' & H'); [lia|done|done| |].
    { rewrite Nat2Z.inj_succ, Z.pow_succ_r in Hf by lia. lia. }
    exists r, w2. split_and!; [done| |].
    + etrans; [done|]. etrans; [|done]. apply alloc_only_add_live.
    + cbn in H'. destruct r; [destruct H'; split; [done|lia]|].
      destruct H' as [? Hn]. split; [lia|]. intros Hno. apply Hn. by apply (alloc_only_no_oom _ _ Ha).
  - destruct H as [-> [rest ->]]. cbn. eexists _, w1. split_and!; [done|done|split; [by eexists|done]].
Qed.

Lemma sdscatvprintf_allocs `{FloatFmt} s fmt ap text w :
  sds_wf s -> vsprintf fmt ap = Ok text -> Forall (fun c => c <> NUL) text ->
  zlen text <= INT_MAX -> sds_fits s (zlen text) ->
  allocs (sdscatvprintf s fmt ap) w 0 (fun s' => sds_wf s' /\ sds_str s' = sds_str s ++ text).
Proof.
  intros Hwf Et Hnul Hmax Hfit. unfold sdscatvprintf, allocs. lift_step Et.
  destruct (vprintf_loop_allocs (length text) 16 text w) as (r & w1 & E & Ha & Hr); [lia|done|done| |].
  { pose proof (Z.pow_gt_lin_r 2 (zlen text) ltac:(lia) ltac:(lia)). lia. }
  rewrite (bind_ok _ _ _ _ _ E). destruct r as [buf|]; [|by exists None, w1].
  destruct Hr as [[rest ->] Hlive].
  destruct (sdscat_allocs s text rest w1) as (r & w2 & E2 & Ha2 & Hr2); [done..|].
  rewrite (bind_ok _ _ _ _ _ E2). erewrite bind_ok by reflexivity.
  exists r, (add_live (-1) w2). split_and!; [done| |].
  - etrans; [done|]. etrans; [done|]. apply alloc_only_add_live.
  - destruct r; [destruct Hr2; split; [done|]; cbn; lia|].
    destruct Hr2 as [? Hn]. split; [cbn; lia|]. intros Hno. apply Hn. by apply (alloc_only_no_oom _ _ Ha).
Qed.
