(* ===== verification/SdsSpec.v ===== *)
(** Dynamic strings as a data type: every operation keeps the header of a string
    consistent with its block, and computes what its name says on the
    characters, whatever the allocator answers. *)

From stdpp Require Import base tactics list numbers strings gmap.
From Stdlib Require Import ZArith Lia.
From S2P Require Import Prelude Machine Printf Sds.

Local Open Scope Z_scope.

(** * Letters *)

Lemma map_chars_ok f b : forall a c, map_chars (length b) f (a ++ b ++ c) (zlen a) = Ok (a ++ (f <$> b) ++ c).
Proof.
  induction b as [|x b IH]; intros a c; cbn [length map_chars app fmap list_fmap]; [done|].
  rewrite mem_get_app by done. rewrite (mem_write_app a [x] (b ++ c) [f x]) by done.
  replace (zlen a + 1) with (zlen (a ++ [f x])) by (rewrite length_app; cbn; lia).
  rewrite (app_assoc a [f x] (b ++ c)), IH. by rewrite <- app_assoc.
Qed.

Lemma sds_map_ok s f w : sds_wf s ->
  exists s', (let* b := lift (map_chars (Z.to_nat (int (sdslen s))) f (sh_buf s) 0) in ret (mkSds (sh_len s) (sh_free s) b)) w = Ok (s', w) /\
    sds_wf s' /\ sds_str s' = f <$> sds_str s.
Proof.
  intros Hwf. pose proof Hwf as [Hl Hf Hm _ _]. destruct (sds_buf_split s Hwf) as (rest & Hb & Hr). pose proof (length_sds_str s Hwf) as Hls.
  rewrite sdslen_wf, int_id by (done || climits). rewrite Hb, <- Hls, Nat2Z.id.
  rewrite (bind_ok _ _ w ((f <$> sds_str s) ++ NUL :: rest) w) by (apply lift_ok, (map_chars_ok f (sds_str s) [] (NUL :: rest))).
  eexists. split; [done|]. rewrite <- (length_fmap f (sds_str s)), <- Hr. apply sds_wf_intro. rewrite length_fmap. lia.
Qed.

(** * Histories of a string *)

Inductive sds_op :=
| OpCat (t : list char)
| OpCpy (t : list char)
| OpGrow (n : Z)
| OpRange (start end_ : Z)
| OpLower
| OpUpper.

Definition run_op (s : sdshdr) (o : sds_op) : M (option sdshdr) :=
  match o with
  | OpCat t => sdscatlen s t (zlen t)
  | OpCpy t => sdscpylen s t (zlen t)
  | OpGrow n => sdsgrowzero s n
  | OpRange a b => let* s' := sdsrange s a b in ret (Some s')
  | OpLower => let* s' := sdstolower s in ret (Some s')
  | OpUpper => let* s' := sdstoupper s in ret (Some s')
  end.

(** A NULL ends the history. *)
Fixpoint run_ops (s : sdshdr) (ops : list sds_op) : M (option sdshdr) :=
  match ops with
  | [] => ret (Some s)
  | o :: ops' => let* r := run_op s o in match r with None => ret None | Some s' => run_ops s' ops' end
  end.

(** What an operation does to the characters. *)
Definition meaning (str : list char) (o : sds_op) : list char :=
  match o with
  | OpCat t => str ++ t
  | OpCpy t => t
  | OpGrow n => str ++ replicate (Z.to_nat (n - zlen str)) 0
  | OpRange a b => range_spec str a b
  | OpLower => tolower <$> str
  | OpUpper => toupper <$> str
  end.

(** The sizes that the [int] counters of the header can take, with the
    doubling of [sdsMakeRoomFor]. *)
Definition op_fits (str : list char) (o : sds_op) : Prop :=
  match o with
  | OpCat t => 2 * (zlen str + zlen t) <= INT_MAX
  | OpCpy t => 2 * zlen t <= INT_MAX
  | OpGrow n => 0 <= n /\ 2 * n <= INT_MAX
  | OpRange a b => INT_MIN < a <= INT_MAX /\ INT_MIN < b < INT_MAX
  | OpLower | OpUpper => True
  end.

Fixpoint ops_fit (str : list char) (ops : list sds_op) : Prop :=
  match ops with [] => True | o :: ops' => op_fits str o /\ ops_fit (meaning str o) ops' end.

Lemma sds_run_op_ok s o w : sds_wf s -> op_fits (sds_str s) o ->
  allocs (run_op s o) w 0 (fun s' => sds_wf s' /\ sds_str s' = meaning (sds_str s) o).
Proof.
  intros Hwf Hfit. pose proof (length_sds_str s Hwf) as Hl.
  assert (forall m s', m w = Ok (s', w) -> sds_wf s' /\ sds_str s' = meaning (sds_str s) o ->
    allocs (let* s' := m in ret (Some s')) w 0 (fun s' => sds_wf s' /\ sds_str s' = meaning (sds_str s) o)) as Hpure.
  { intros m s' E HP. unfold allocs. rewrite (bind_ok _ _ _ _ _ E). by apply allocs_ret. }
  destruct o as [t|t|n|a b| |]; cbn [run_op op_fits meaning] in *.
  - apply sdscatlen_all_allocs; [done|]. right. lia.
  - eapply allocs_mono; [apply sdscpylen_allocs; [done|lia|by right]|]. cbn. intros s'. by rewrite Nat2Z.id, take_ge by lia.
  - rewrite Hl. apply sdsgrowzero_allocs; [done|lia|]. right. lia.
  - destruct (sdsrange_ok s a b w Hwf) as (s' & E & H1 & H2 & _); [lia|lia|]. by eapply Hpure.
  - destruct (sds_map_ok s tolower w Hwf) as (s' & E & H). by eapply Hpure.
  - destruct (sds_map_ok s toupper w Hwf) as (s' & E & H). by eapply Hpure.
Qed.

Lemma sds_run_ops_ok ops : forall s w, sds_wf s -> ops_fit (sds_str s) ops ->
  allocs (run_ops s ops) w 0 (fun s' => sds_wf s' /\ sds_str s' = foldl meaning (sds_str s) ops).
Proof.
  induction ops as [|o ops IH]; intros s w Hwf Hfit; cbn [run_ops foldl]; [by apply allocs_ret|]. destruct Hfit as [Ho Hops].
  eapply allocs_bind; [by apply sds_run_op_ok|]. cbn. intros s' w' [Hwf' E] _. rewrite <- E in *. by apply IH.
Qed.

(** A string from its creation on. *)
Definition history (init : list char) (ops : list sds_op) : M (option sdshdr) :=
  let* r := sdsnewlen (Some init) (zlen init) in
  match r with None => ret None | Some s => run_ops s ops end.

(** C32: a dynamic string stays well formed: after any sequence of appending,
    copying, growing, slicing and changing case, its counters describe its
    block, a NUL follows its characters, and the characters are those the
    operations denote; one block is live for it.  When the allocator refuses,
    the operation returns NULL, and in no case is memory outside the block
    touched. *)
Theorem sds_well_formed init ops w : zlen init < INT_MAX -> ops_fit init ops ->
  exists r w', history init ops w = Ok (r, w') /\
    match r with
    | Some s => sds_wf s /\ sds_str s = foldl meaning init ops /\ w_live w' = w_live w + 1
    | None => ~ no_oom w
    end.
Proof.
  intros Hl Hfit. unfold history. destruct (sdsnewlen_allocs (Some init) (zlen init) w) as (r & w1 & E & Ha & Hr); [lia|lia|].
  rewrite (bind_ok _ _ _ _ _ E). destruct r as [s|]; [|exists None, w1; split; [done|apply Hr]]. destruct Hr as [(Hwf & _ & Hs) Hlive].
  rewrite Nat2Z.id, take_ge in Hs by lia. subst init. destruct (sds_run_ops_ok ops s w1 Hwf Hfit) as (r & w2 & E2 & Ha2 & H2).
  exists r, w2. split; [done|]. destruct r as [s'|].
  - destruct H2 as [[Hw' Hs'] Hl2]. split_and!; [done|done|lia].
  - intros Hn. apply (proj2 H2). by apply (alloc_only_no_oom w w1).
Qed.

Lemma sds_well_formed_witness :
  exists r w', history (lit "Hello") [OpCat (lit ", World"); OpRange (-5) (-1); OpUpper; OpGrow 7] world0 = Ok (r, w') /\
    match r with
    | Some s => sds_wf s /\ sds_str s = lit "WORLD" ++ [0; 0] /\ w_live w' = 0 + 1
    | None => ~ no_oom world0
    end.
Proof.
  refine (sds_well_formed (lit "Hello") [OpCat (lit ", World"); OpRange (-5) (-1); OpUpper; OpGrow 7] world0 _ _).
  - reflexivity.
  - cbn. repeat split; discriminate.
Defined.
