(* ===== verification/Reply.v ===== *)
(** Reply objects and the functions that build them
    ([hiredis-win32-master/hiredis.c], lines 47-187; the types of [hiredis.h]).

    The reader never touches a reply itself: it calls the functions of a
    [redisReplyObjectFunctions] table, an interface that may be absent, or
    lack members.  The default table builds [redisReply] objects in the
    store. *)

From S2P Require Import Prelude Machine.
From stdpp Require Import base tactics list numbers gmap.

Local Open Scope Z_scope.

(** A task of the reader.  [tk_parent] is the index in the task stack of the
    task the pointer [parent] designates. *)
Record redisReadTask := mkTask {
  tk_type : Z;
  tk_elements : Z;
  tk_idx : Z;
  tk_obj : option objptr;
  tk_parent : option nat;
  tk_privdata : Z
}.

(** The table of reply functions; a NULL member is [None].  The functions get
    the task stack besides the task, for [task->parent]. *)
Record redisReplyObjectFunctions := mkFn {
  fn_createString :
    option (list redisReadTask -> redisReadTask -> list char -> Z -> M (option objptr));
  fn_createArray : option (list redisReadTask -> redisReadTask -> Z -> M (option objptr));
  fn_createInteger : option (list redisReadTask -> redisReadTask -> Z -> M (option objptr));
  fn_createNil : option (list redisReadTask -> redisReadTask -> M (option objptr));
  fn_freeObject : option (objptr -> M unit)
}.

(** * The store of objects *)

Definition get_obj (l : loc) : M redisReply :=
  fun w => match w_objs w !! l with Some r => Ok (r, w) | None => Fault UseAfterFree end.

(** The object of a reply: with the default functions a reply is one. *)
Definition reply_obj (reply : objptr) : M redisReply :=
  match reply with Obj l => get_obj l | Tag _ => crash OutOfBounds end.

Definition str_of (r : redisReply) : M (list char) := deref (rp_str r).

Definition put_obj (l : loc) (r : redisReply) : M unit :=
  modify (fun w => set_objs (<[l := r]> (w_objs w)) w).

(** [free] of a reply object. *)
Definition free_obj (l : loc) : M unit :=
  let* _ := get_obj l in
  let* _ := modify (fun w => set_objs (delete l (w_objs w)) w) in
  free.

(** * Creation and release *)

Definition createReplyObject (type : Z) : M (option loc) :=
  let* ok := alloc_block in
  if ok : bool then
    fun w =>
      let l := w_next w in
      Ok (Some l, set_next (S l) (set_objs (<[l := mkReply type 0 0 None 0 None]> (w_objs w)) w))
  else ret None.

Section freeReply.
Variable free_child : loc -> M unit.

(** [for (j = 0; j < r->elements; j++) if (r->element[j] != NULL) ...] *)
Fixpoint free_elements (n j : nat) (v : list (option loc)) : M unit :=
  match n with
  | O => ret tt
  | S n' =>
      match v !! j with
      | None => crash OutOfBounds
      | Some None => free_elements n' (S j) v
      | Some (Some c) => let* _ := free_child c in free_elements n' (S j) v
      end
  end.
End freeReply.

(** [freeReplyObject], with a bound on the depth of the recursion. *)
Fixpoint freeReply (fuel : nat) (l : loc) : M unit :=
  match fuel with
  | O => crash OutOfFuel
  | S f =>
      let* r := get_obj l in
      let t := rp_type r in
      let* _ :=
        (if t =? REDIS_REPLY_INTEGER then ret tt
         else if t =? REDIS_REPLY_ARRAY then
           match rp_element r with
           | None => ret tt
           | Some v =>
               let* _ := free_elements (freeReply f) (Z.to_nat (rp_elements r)) 0 v in
               free
           end
         else if (t =? REDIS_REPLY_ERROR) || (t =? REDIS_REPLY_STATUS) || (t =? REDIS_REPLY_STRING)
         then match rp_str r with Some _ => free | None => ret tt end
         else ret tt) in
      free_obj l
  end.

(** A chain of objects is at most as long as the store is large. *)
Definition freeReplyObject (reply : objptr) : M unit :=
  match reply with
  | Tag _ => crash UseAfterFree
  | Obj l => let* w := get_world in freeReply (S (size (w_objs w))) l
  end.

(** [if (task->parent) { parent = task->parent->obj; assert(...);
    parent->element[task->idx] = r; }] *)
Definition attach (stk : list redisReadTask) (task : redisReadTask) (l : loc) : M unit :=
  match tk_parent task with
  | None => ret tt
  | Some p =>
      match stk !! p with
      | None => crash OutOfBounds
      | Some pt =>
          match tk_obj pt with
          | None => crash NullDeref
          | Some (Tag _) => crash UseAfterFree
          | Some (Obj pl) =>
              let* parent := get_obj pl in
              let* _ := assert_ (rp_type parent =? REDIS_REPLY_ARRAY) in
              match rp_element parent with
              | None => crash NullDeref
              | Some v =>
                  if (0 <=? tk_idx task) && (tk_idx task <? zlen v) then
                    put_obj pl (mkReply (rp_type parent) (rp_integer parent) (rp_len parent)
                                  (rp_str parent) (rp_elements parent)
                                  (Some (<[Z.to_nat (tk_idx task) := Some l]> v)))
                  else crash OutOfBounds
              end
          end
      end
  end.

Definition createStringObject (stk : list redisReadTask) (task : redisReadTask)
    (str : list char) (len : Z) : M (option objptr) :=
  let* r := createReplyObject (tk_type task) in
  match r with
  | None => ret None
  | Some l =>
      let* blk := malloc (size_t (len + 1)) in
      match blk with
      | None => let* _ := freeReplyObject (Obj l) in ret None
      | Some buf =>
          let* _ := assert_ ((tk_type task =? REDIS_REPLY_ERROR)
                             || (tk_type task =? REDIS_REPLY_STATUS)
                             || (tk_type task =? REDIS_REPLY_STRING)) in
          let* d := lift (mem_read str 0 len) in
          let* buf := lift (mem_write buf 0 d) in
          let* buf := lift (mem_write buf len [NUL]) in
          let* _ := put_obj l (mkReply (tk_type task) 0 (int len) (Some buf) 0 None) in
          let* _ := attach stk task l in
          ret (Some (Obj l))
      end
  end.

Definition createArrayObject (stk : list redisReadTask) (task : redisReadTask) (elements : Z)
  : M (option objptr) :=
  let* r := createReplyObject REDIS_REPLY_ARRAY in
  match r with
  | None => ret None
  | Some l =>
      let* vec :=
        (if 0 <? elements then
           let* ok := alloc_block in
           if ok : bool then ret (Some (Some (replicate (Z.to_nat elements) None)))
           else let* _ := freeReplyObject (Obj l) in ret None
         else ret (Some None)) in
      match vec with
      | None => ret None
      | Some v =>
          let* _ := put_obj l (mkReply REDIS_REPLY_ARRAY 0 0 None (size_t elements) v) in
          let* _ := attach stk task l in
          ret (Some (Obj l))
      end
  end.

Definition createIntegerObject (stk : list redisReadTask) (task : redisReadTask) (value : Z)
  : M (option objptr) :=
  let* r := createReplyObject REDIS_REPLY_INTEGER in
  match r with
  | None => ret None
  | Some l =>
      let* _ := put_obj l (mkReply REDIS_REPLY_INTEGER value 0 None 0 None) in
      let* _ := attach stk task l in
      ret (Some (Obj l))
  end.

Definition createNilObject (stk : list redisReadTask) (task : redisReadTask) : M (option objptr) :=
  let* r := createReplyObject REDIS_REPLY_NIL in
  match r with
  | None => ret None
  | Some l =>
      let* _ := attach stk task l in
      ret (Some (Obj l))
  end.

Definition defaultFunctions : redisReplyObjectFunctions :=
  mkFn (Some createStringObject) (Some createArrayObject) (Some createIntegerObject)
       (Some createNilObject) (Some freeReplyObject).
