(* ===== verification/Reader.v ===== *)
(** The protocol reader ([hiredis-win32-master/hiredis.c], lines 189-668).

    [redisReaderFeed] appends bytes to the buffer, [redisReaderGetReply] parses
    as many items as the buffer holds; the state between two calls is the
    position in the buffer and the stack of at most three read tasks.  A
    pointer into the buffer is its offset. *)

From S2P Require Import Prelude Machine Printf Sds Reply.
From stdpp Require Import base tactics list numbers strings gmap.

Local Open Scope Z_scope.

Record redisReader := mkReader {
  r_err : Z;
  r_errstr : list char;
  r_buf : option sdshdr;
  r_pos : Z;
  r_len : Z;
  r_rstack : list redisReadTask;
  r_ridx : Z;
  r_reply : option objptr;
  r_fn : option redisReplyObjectFunctions;
  r_privdata : Z
}.

Definition set_err (e : Z) (s : list char) (r : redisReader) : redisReader :=
  mkReader e s (r_buf r) (r_pos r) (r_len r) (r_rstack r) (r_ridx r) (r_reply r) (r_fn r) (r_privdata r).
Definition set_buf (b : option sdshdr) (pos len : Z) (r : redisReader) : redisReader :=
  mkReader (r_err r) (r_errstr r) b pos len (r_rstack r) (r_ridx r) (r_reply r) (r_fn r) (r_privdata r).
Definition set_pos (pos : Z) (r : redisReader) : redisReader :=
  set_buf (r_buf r) pos (r_len r) r.
Definition set_stack (s : list redisReadTask) (i : Z) (r : redisReader) : redisReader :=
  mkReader (r_err r) (r_errstr r) (r_buf r) (r_pos r) (r_len r) s i (r_reply r) (r_fn r) (r_privdata r).
Definition set_ridx (i : Z) (r : redisReader) : redisReader := set_stack (r_rstack r) i r.
Definition set_reply (o : option objptr) (r : redisReader) : redisReader :=
  mkReader (r_err r) (r_errstr r) (r_buf r) (r_pos r) (r_len r) (r_rstack r) (r_ridx r) o (r_fn r) (r_privdata r).

(** [&(r->rstack[i])]. *)
Definition get_task (r : redisReader) (i : Z) : M redisReadTask :=
  if 0 <=? i then
    match r_rstack r !! Z.to_nat i with Some t => ret t | None => crash OutOfBounds end
  else crash OutOfBounds.

Definition put_task (i : Z) (t : redisReadTask) (r : redisReader) : redisReader :=
  set_stack (<[Z.to_nat i := t]> (r_rstack r)) (r_ridx r) r.

(** * Errors *)

(** [sizeof(r->errstr)]. *)
Definition ERRSTR_SIZE : Z := 128.

Definition __redisReaderSetError (r : redisReader) (type : Z) (str : list char) : M redisReader :=
  let* r :=
    match r_reply r, r_fn r with
    | Some obj, Some fn =>
        match fn_freeObject fn with
        | Some freeObject => let* _ := freeObject obj in ret (set_reply None r)
        | None => ret r
        end
    | _, _ => ret r
    end in
  let* r :=
    match r_buf r with
    | Some b => let* _ := sdsfree (Some b) in ret (set_buf None 0 0 r)
    | None => ret r
    end in
  let r := set_ridx (-1) r in
  let len := zlen str in
  let len := if len <? ERRSTR_SIZE - 1 then len else ERRSTR_SIZE - 1 in
  ret (set_err type (take (Z.to_nat len) str) r).

(** The text [chrtos] leaves in a buffer of [size] bytes. *)
Definition chrtos (size : Z) (byte : char) : outcome (list char) :=
  let q s := [DQUOTE] ++ s ++ [DQUOTE] in
  let text :=
    if (byte =? BACKSLASH) || (byte =? DQUOTE) then sprintf (q (lit "\%c")) [VNum (schar byte)]
    else if byte =? 10 then sprintf (q (lit "\n")) []
    else if byte =? 13 then sprintf (q (lit "\r")) []
    else if byte =? 9 then sprintf (q (lit "\t")) []
    else if byte =? 7 then sprintf (q (lit "\a")) []
    else if byte =? 8 then sprintf (q (lit "\b")) []
    else if isprint byte then sprintf (q (lit "%c")) [VNum (schar byte)]
    else sprintf (q (lit "\x%02x")) [VNum byte] in
  match text with
  | Ok t => Ok (take (Z.to_nat (size - 1)) t)
  | Fault e => Fault e
  end.

Definition __redisReaderSetErrorProtocolByte (r : redisReader) (byte : char) : M redisReader :=
  let* cbuf := lift (chrtos 8 byte) in
  let* sbuf := lift (sprintf (lit "Protocol error, got %s as reply type byte") [VPtr cbuf]) in
  __redisReaderSetError r REDIS_ERR_PROTOCOL (take 127 sbuf).

Definition __redisReaderSetErrorOOM (r : redisReader) : M redisReader :=
  __redisReaderSetError r REDIS_ERR_OOM (lit "Out of memory").

(** * Reading from the buffer *)

(** The memory from [r->buf + pos] on. *)
Definition buf_from (r : redisReader) (pos : Z) : M (list char) :=
  let* b := deref (r_buf r) in ret (drop (Z.to_nat pos) (sh_buf b)).

(** The offset of the bytes read, and the reader behind them. *)
Definition readBytes (r : redisReader) (bytes : Z) : M (option Z * redisReader) :=
  if bytes <=? size_t (r_len r - r_pos r) then
    ret (Some (r_pos r), set_pos (size_t (r_pos r + bytes)) r)
  else ret (None, r).

(** [while(pos < _len && s[pos] != '\r') pos++;] *)
Fixpoint seek_cr (fuel : nat) (s : list char) (pos len : Z) : outcome Z :=
  match fuel with
  | O => Fault OutOfFuel
  | S f =>
      if pos <? len then
        match mem_get s pos with
        | Ok c => if negb (c =? CR) then seek_cr f s (pos + 1) len else Ok pos
        | Fault e => Fault e
        end
      else Ok pos
  end.

(** [while (pos < _len) ...] *)
Fixpoint seek_loop (fuel : nat) (s : list char) (pos len : Z) : outcome (option Z) :=
  match fuel with
  | O => Fault OutOfFuel
  | S f =>
      if pos <? len then
        match seek_cr fuel s pos len with
        | Fault e => Fault e
        | Ok pos =>
            match mem_get s pos with
            | Fault e => Fault e
            | Ok c =>
                if negb (c =? CR) then Ok None
                else
                  match mem_get s (pos + 1) with
                  | Fault e => Fault e
                  | Ok d => if d =? LF then Ok (Some pos) else seek_loop f s (pos + 1) len
                  end
            end
        end
      else Ok None
  end.

(** The offset of the first CR LF in the [len] bytes at [s]. *)
Definition seekNewline (s : list char) (len : Z) : outcome (option Z) :=
  let _len := int (len - 1) in
  seek_loop (S (S (Z.to_nat _len))) s 0 _len.

(** [while ((c = *(s++)) != '\r')]. *)
Fixpoint read_digits (s : list char) (mult v : Z) : outcome Z :=
  match s with
  | [] => Fault OutOfBounds
  | c :: s' =>
      if c =? CR then llong_ok (mult * v)
      else
        let dec := schar c - 48 in
        if (0 <=? dec) && (dec <? 10) then
          match llong_ok (v * 10) with
          | Fault e => Fault e
          | Ok v10 => match llong_ok (v10 + dec) with
                      | Fault e => Fault e
                      | Ok v' => read_digits s' mult v'
                      end
          end
        else Ok (-1)
  end.

Definition readLongLong (s : list char) : outcome Z :=
  match s with
  | [] => Fault OutOfBounds
  | c :: s' =>
      if c =? 45 then read_digits s' (-1) 0
      else if c =? 43 then read_digits s' 1 0
      else read_digits s 1 0
  end.

(** The offset and length of the line, and the reader behind its CR LF. *)
Definition readLine (r : redisReader) : M (option (Z * Z) * redisReader) :=
  let* p := buf_from r (r_pos r) in
  let* s := lift (seekNewline p (size_t (r_len r - r_pos r))) in
  match s with
  | Some off =>
      let len := int off in
      ret (Some (r_pos r, len), set_pos (size_t (r_pos r + len + 2)) r)
  | None => ret (None, r)
  end.

(** * Items *)

Fixpoint next_task_loop (fuel : nat) (r : redisReader) : M redisReader :=
  match fuel with
  | O => crash OutOfFuel
  | S f =>
      if 0 <=? r_ridx r then
        if r_ridx r =? 0 then ret (set_ridx (r_ridx r - 1) r)
        else
          let* cur := get_task r (r_ridx r) in
          let* prv := get_task r (r_ridx r - 1) in
          let* _ := assert_ (tk_type prv =? REDIS_REPLY_ARRAY) in
          let* last := lift (int_ok (tk_elements prv - 1)) in
          if tk_idx cur =? last then next_task_loop f (set_ridx (r_ridx r - 1) r)
          else
            let* _ := assert_ (tk_idx cur <? tk_elements prv) in
            ret (put_task (r_ridx r)
                   (mkTask (-1) (-1) (tk_idx cur + 1) (tk_obj cur) (tk_parent cur) (tk_privdata cur)) r)
      else ret r
  end.

Definition moveToNextTask (r : redisReader) : M redisReader :=
  next_task_loop (S (S (Z.to_nat (r_ridx r)))) r.

(** [fn] and one of its members, when both are there. *)
Definition fn_member {F} (r : redisReader) (member : redisReplyObjectFunctions -> option F) : option F :=
  match r_fn r with Some fn => member fn | None => None end.

Definition processLineItem (r : redisReader) : M (Z * redisReader) :=
  let* cur := get_task r (r_ridx r) in
  let* (line, r) := readLine r in
  match line with
  | None => ret (REDIS_ERR, r)
  | Some (p, len) =>
      let* obj :=
        (if tk_type cur =? REDIS_REPLY_INTEGER then
           match fn_member r fn_createInteger with
           | Some createInteger =>
               let* s := buf_from r p in
               let* v := lift (readLongLong s) in
               createInteger (r_rstack r) cur v
           | None => ret (Some (Tag REDIS_REPLY_INTEGER))
           end
         else
           match fn_member r fn_createString with
           | Some createString =>
               let* s := buf_from r p in
               createString (r_rstack r) cur s (size_t len)
           | None => ret (Some (Tag (tk_type cur)))
           end) in
      match obj with
      | None => let* r := __redisReaderSetErrorOOM r in ret (REDIS_ERR, r)
      | Some obj =>
          let r := if r_ridx r =? 0 then set_reply (Some obj) r else r in
          let* r := moveToNextTask r in
          ret (REDIS_OK, r)
      end
  end.

Definition processBulkItem (r : redisReader) : M (Z * redisReader) :=
  let* cur := get_task r (r_ridx r) in
  let* p := buf_from r (r_pos r) in
  let* s := lift (seekNewline p (size_t (r_len r - r_pos r))) in
  match s with
  | None => ret (REDIS_ERR, r)
  | Some off =>
      let bytelen := ulong (off + 2) in
      let* len := lift (readLongLong p) in
      let* (success, obj, bytelen) :=
        (if len <? 0 then
           let* obj := match fn_member r fn_createNil with
                       | Some createNil => createNil (r_rstack r) cur
                       | None => ret (Some (Tag REDIS_REPLY_NIL))
                       end in
           ret (true, obj, bytelen)
         else
           let* len2 := lift (llong_ok (len + 2)) in
           let bytelen := ulong (bytelen + len2) in
           if size_t (r_pos r + bytelen) <=? r_len r then
             let* obj := match fn_member r fn_createString with
                         | Some createString =>
                             createString (r_rstack r) cur (drop (Z.to_nat (off + 2)) p) (size_t len)
                         | None => ret (Some (Tag REDIS_REPLY_STRING))
                         end in
             ret (true, obj, bytelen)
           else ret (false, None, bytelen)) in
      if success : bool then
        match obj with
        | None => let* r := __redisReaderSetErrorOOM r in ret (REDIS_ERR, r)
        | Some obj =>
            let r := set_pos (size_t (r_pos r + bytelen)) r in
            let r := if r_ridx r =? 0 then set_reply (Some obj) r else r in
            let* r := moveToNextTask r in
            ret (REDIS_OK, r)
        end
      else ret (REDIS_ERR, r)
  end.

Definition NESTED_ERROR : list char :=
  lit "No support for nested multi bulk replies with depth > 1".

Definition processMultiBulkItem (r : redisReader) : M (Z * redisReader) :=
  let* cur := get_task r (r_ridx r) in
  if r_ridx r =? 2 then
    let* r := __redisReaderSetError r REDIS_ERR_PROTOCOL NESTED_ERROR in ret (REDIS_ERR, r)
  else
    let* (line, r) := readLine r in
    match line with
    | None => ret (REDIS_ERR, r)
    | Some (p, _) =>
        let* s := buf_from r p in
        let* elements := lift (readLongLong s) in
        let root := r_ridx r =? 0 in
        if elements =? -1 then
          let* obj := match fn_member r fn_createNil with
                      | Some createNil => createNil (r_rstack r) cur
                      | None => ret (Some (Tag REDIS_REPLY_NIL))
                      end in
          match obj with
          | None => let* r := __redisReaderSetErrorOOM r in ret (REDIS_ERR, r)
          | Some obj =>
              let* r := moveToNextTask r in
              ret (REDIS_OK, if root then set_reply (Some obj) r else r)
          end
        else
          let* obj := match fn_member r fn_createArray with
                      | Some createArray => createArray (r_rstack r) cur (int elements)
                      | None => ret (Some (Tag REDIS_REPLY_ARRAY))
                      end in
          match obj with
          | None => let* r := __redisReaderSetErrorOOM r in ret (REDIS_ERR, r)
          | Some obj =>
              let* r :=
                (if 0 <? elements then
                   let cur' := mkTask (tk_type cur) (int elements) (tk_idx cur) (Some obj)
                                      (tk_parent cur) (tk_privdata cur) in
                   let child := mkTask (-1) (-1) 0 None (Some (Z.to_nat (r_ridx r))) (r_privdata r) in
                   let r1 := set_ridx (r_ridx r + 1) (put_task (r_ridx r) cur' r) in
                   let* _ := get_task r1 (r_ridx r1) in
                   ret (put_task (r_ridx r1) child r1)
                 else moveToNextTask r) in
              ret (REDIS_OK, if root then set_reply (Some obj) r else r)
          end
    end.

(** [cur->type = t]. *)
Definition set_cur_type (r : redisReader) (cur : redisReadTask) (t : Z) : redisReader :=
  put_task (r_ridx r)
    (mkTask t (tk_elements cur) (tk_idx cur) (tk_obj cur) (tk_parent cur) (tk_privdata cur)) r.

(** The reply type announced by a type byte. *)
Definition type_of_byte (c : char) : option Z :=
  if c =? 45 then Some REDIS_REPLY_ERROR
  else if c =? 43 then Some REDIS_REPLY_STATUS
  else if c =? 58 then Some REDIS_REPLY_INTEGER
  else if c =? 36 then Some REDIS_REPLY_STRING
  else if c =? 42 then Some REDIS_REPLY_ARRAY
  else None.

(** [switch(cur->type)]. *)
Definition processTyped (r : redisReader) (type : Z) : M (Z * redisReader) :=
  if (type =? REDIS_REPLY_ERROR) || (type =? REDIS_REPLY_STATUS) || (type =? REDIS_REPLY_INTEGER)
  then processLineItem r
  else if type =? REDIS_REPLY_STRING then processBulkItem r
  else if type =? REDIS_REPLY_ARRAY then processMultiBulkItem r
  else crash AssertFailed.

Definition processItem (r : redisReader) : M (Z * redisReader) :=
  let* cur := get_task r (r_ridx r) in
  if tk_type cur <? 0 then
    let* (p, r) := readBytes r 1 in
    match p with
    | None => ret (REDIS_ERR, r)
    | Some p =>
        let* s := buf_from r p in
        let* c := lift (mem_get s 0) in
        match type_of_byte c with
        | None => let* r := __redisReaderSetErrorProtocolByte r c in ret (REDIS_ERR, r)
        | Some t => processTyped (set_cur_type r cur t) t
        end
    end
  else processTyped r (tk_type cur).

(** * The public operations *)

Definition empty_task : redisReadTask := mkTask 0 0 0 None None 0.

Definition redisReaderCreate : M (option redisReader) :=
  let* ok := alloc_block in
  if negb ok then ret None
  else
    let* b := sdsempty in
    match b with
    | None => let* _ := free in ret None
    | Some _ =>
        ret (Some (mkReader 0 [] b 0 0 [empty_task; empty_task; empty_task] (-1) None
                     (Some defaultFunctions) 0))
    end.

Definition redisReaderFree (r : redisReader) : M unit :=
  let* _ := match r_reply r, fn_member r fn_freeObject with
            | Some obj, Some freeObject => freeObject obj
            | _, _ => ret tt
            end in
  let* _ := match r_buf r with Some b => sdsfree (Some b) | None => ret tt end in
  free.

(** [buf] is NULL or a region with at least [len] bytes. *)
Definition redisReaderFeed (r : redisReader) (buf : option (list char)) (len : Z)
  : M (Z * redisReader) :=
  if negb (r_err r =? 0) then ret (REDIS_ERR, r)
  else
    match buf with
    | Some data =>
        if 1 <=? len then
          let* b := deref (r_buf r) in
          let* r :=
            (if (r_len r =? 0) && (16 * 1024 <? sdsavail b) then
               let* _ := sdsfree (Some b) in
               let* nb := sdsempty in
               let* _ := assert_ (match nb with Some _ => true | None => false end) in
               ret (set_buf nb 0 (r_len r) r)
             else ret r) in
          let* b := deref (r_buf r) in
          let* newbuf := sdscatlen b data len in
          match newbuf with
          | None => let* r := __redisReaderSetErrorOOM r in ret (REDIS_ERR, r)
          | Some nb => ret (REDIS_OK, set_buf (Some nb) (r_pos r) (sdslen nb) r)
          end
        else ret (REDIS_OK, r)
    | None => ret (REDIS_OK, r)
    end.

(** [while (r->ridx >= 0) if (processItem(r) != REDIS_OK) break;] *)
Fixpoint items_loop (fuel : nat) (r : redisReader) : M redisReader :=
  match fuel with
  | O => crash OutOfFuel
  | S f =>
      if 0 <=? r_ridx r then
        let* (st, r) := processItem r in
        if negb (st =? REDIS_OK) then ret r else items_loop f r
      else ret r
  end.

(** The status, [*reply] and the reader.  Every item that succeeds consumes at
    least one byte, which bounds the loop. *)
Definition redisReaderGetReply (r : redisReader) : M (Z * option objptr * redisReader) :=
  if negb (r_err r =? 0) then ret (REDIS_ERR, None, r)
  else if r_len r =? 0 then ret (REDIS_OK, None, r)
  else
    let r := if r_ridx r =? -1 then
               set_ridx 0 (put_task 0 (mkTask (-1) (-1) (-1) None None (r_privdata r)) r)
             else r in
    let* r := items_loop (S (S (Z.to_nat (r_len r - r_pos r)))) r in
    if negb (r_err r =? 0) then ret (REDIS_ERR, None, r)
    else
      let* r :=
        (if 1024 <=? r_pos r then
           let* b := deref (r_buf r) in
           let* b := sdsrange b (int (r_pos r)) (-1) in
           ret (set_buf (Some b) 0 (sdslen b) r)
         else ret r) in
      if r_ridx r =? -1 then ret (REDIS_OK, r_reply r, set_reply None r)
      else ret (REDIS_OK, None, r).
