(* ===== verification/ReaderSpec.v ===== *)
(** The reader without its buffer: a lexer on the bytes not consumed yet, a
    machine that acts on the tokens, and the theorem that [processItem] and
    its loop implement that machine whatever block and offset hold the bytes.
    Splitting the input differently is then invisible. *)

From S2P Require Import Prelude Machine Printf Sds Reply Reader.
From stdpp Require Import base tactics list numbers strings gmap.

Local Open Scope Z_scope.

(** * Lines *)

(** The index of the first CR LF. *)
Fixpoint find_crlf (d : list char) : option nat :=
  match d with
  | c :: d' =>
      if (c =? CR) && match d' with e :: _ => e =? LF | [] => false end
      then Some 0%nat else S <$> find_crlf d'
  | [] => None
  end.

Lemma find_crlf_lt d k : find_crlf d = Some k -> (k + 2 <= length d)%nat.
Proof.
  revert k. induction d as [|c d IH]; intros k; cbn; [done|].
  destruct (_ && _) eqn:E.
  - intros [= <-]. destruct d; [by rewrite andb_false_r in E|cbn; lia].
  - destruct (find_crlf d) as [j|] eqn:Ej; cbn; [|done]. intros [= <-]. specialize (IH j eq_refl). lia.
Qed.

(** More input does not move the first line end. *)
Lemma find_crlf_app d e k : find_crlf d = Some k -> find_crlf (d ++ e) = Some k.
Proof.
  revert k. induction d as [|c d IH]; intros k; cbn; [done|].
  destruct (_ && _) eqn:E.
  - intros [= <-]. destruct d; [by rewrite andb_false_r in E|]. cbn in *. by rewrite E.
  - destruct (find_crlf d) as [j|] eqn:Ej; cbn; [|done]. intros [= <-].
    destruct d as [|c' d]; [done|]. cbn [app] in *. rewrite E. by rewrite (IH j).
Qed.

(** A line without CR LF, followed by one. *)
Lemma find_crlf_line s rest :
  find_crlf s = None -> find_crlf (s ++ CRLF ++ rest) = Some (length s).
Proof.
  induction s as [|c s IH]; cbn; [done|].
  destruct (_ && _) eqn:E; [done|]. destruct (find_crlf s) eqn:Es; [done|]. intros _.
  replace (match s ++ CR :: LF :: rest with e :: _ => e =? LF | [] => false end)
    with (match s with e :: _ => e =? LF | [] => false end) by (by destruct s).
  rewrite E. cbn in IH. by rewrite IH.
Qed.

(** [seek_cr] skips to the first CR or to the limit. *)
Lemma seek_cr_spec d x rest pre fuel :
  (length d < fuel)%nat ->
  exists d1 d2, d = d1 ++ d2 /\ Forall (fun c => c <> CR) d1 /\
    (d2 = [] \/ exists d3, d2 = CR :: d3) /\
    seek_cr fuel (pre ++ d ++ x :: rest) (zlen pre) (zlen pre + zlen d) = Ok (zlen pre + zlen d1).
Proof.
  revert pre fuel. induction d as [|c d IH]; intros pre fuel Hf; (destruct fuel as [|f]; [cbn in Hf; lia|]).
  - exists [], []. split_and!; [done|done|by left|]. cbn [seek_cr length].
    rewrite Z.add_0_r. by bfalse (zlen pre <? zlen pre).
  - cbn [seek_cr]. rewrite (proj2 (Z.ltb_lt _ _)) by (cbn; lia). cbn [app].
    rewrite (mem_get_app pre c) by done.
    destruct (Z.eqb_spec c CR) as [->|Hc]; cbn [negb].
    + exists [], (CR :: d). split_and!; [done|done|right; eauto|]. f_equal. cbn. lia.
    + destruct (IH (pre ++ [c]) f) as (d1 & d2 & -> & H1 & H2 & E); [cbn in Hf; lia|].
      exists (c :: d1), d2. split_and!; [done|by constructor|done|].
      rewrite <- app_assoc in E. cbn [app] in *.
      replace (zlen pre + 1) with (zlen (pre ++ [c])) by (rewrite length_app; cbn; lia).
      replace (zlen pre + zlen (c :: d1 ++ d2)) with (zlen (pre ++ [c]) + zlen (d1 ++ d2))
        by (rewrite length_app; cbn; lia).
      rewrite E. f_equal. rewrite length_app. cbn. lia.
Qed.

Lemma find_crlf_skip d1 d2 :
  Forall (fun c => c <> CR) d1 -> find_crlf (d1 ++ d2) = Nat.add (length d1) <$> find_crlf d2.
Proof.
  induction 1 as [|c d1 Hc _ IH]; cbn; [by destruct (find_crlf d2)|].
  bfalse (c =? CR). cbn. rewrite IH. by destruct (find_crlf d2).
Qed.

(** The loop of [seekNewline] from an offset: the limit is the last of the
    bytes [d ++ [y]], a NUL follows. *)
Lemma seek_loop_spec fuel pre d y rest :
  (length d + 1 < fuel)%nat ->
  seek_loop fuel (pre ++ d ++ y :: NUL :: rest) (zlen pre) (zlen pre + zlen d) =
    Ok ((fun k => zlen pre + Z.of_nat k) <$> find_crlf (d ++ [y])).
Proof.
  revert pre d. induction fuel as [|f IH]; intros pre d Hf; [lia|]. cbn [seek_loop].
  destruct d as [|c0 d0] eqn:Ed.
  { cbn. rewrite Z.add_0_r, andb_false_r. by bfalse (zlen pre <? zlen pre). }
  rewrite <- Ed in *. rewrite (proj2 (Z.ltb_lt _ _)) by (rewrite Ed; cbn; lia).
  destruct (seek_cr_spec d y (NUL :: rest) pre (S f)) as (d1 & d2 & Hd & H1 & H2 & E); [lia|].
  rewrite E. destruct H2 as [->|[d3 ->]].
  - rewrite app_nil_r in Hd. subst d1. clear E.
    rewrite app_assoc, mem_get_app by (rewrite length_app; lia).
    rewrite find_crlf_skip by done. cbn [find_crlf]. rewrite andb_false_r. cbn.
    destruct (Z.eqb_spec y CR) as [->|Hy]; cbn [negb]; [|done].
    replace ((pre ++ d) ++ CR :: NUL :: rest) with ((pre ++ d ++ [CR]) ++ NUL :: rest)
      by (by rewrite <- !app_assoc).
    rewrite mem_get_app by (rewrite !length_app; cbn; lia). cbn [Z.eqb].
    change (NUL =? LF) with false. cbn. destruct f as [|f]; [lia|]. cbn [seek_loop].
    by bfalse (zlen pre + zlen d + 1 <? zlen pre + zlen d).
  - rewrite Hd, <- app_assoc, (app_assoc pre). cbn [app].
    rewrite mem_get_app by (rewrite length_app; lia). cbn.
    replace ((d1 ++ CR :: d3) ++ [y]) with (d1 ++ CR :: d3 ++ [y]) by (by rewrite <- app_assoc).
    rewrite find_crlf_skip by done. cbn [find_crlf]. rewrite Z.eqb_refl. cbn [andb].
    replace ((pre ++ d1) ++ CR :: d3 ++ y :: NUL :: rest)
      with ((pre ++ d1 ++ [CR]) ++ d3 ++ y :: NUL :: rest) by (by rewrite <- !app_assoc).
    assert (exists e t, d3 ++ y :: NUL :: rest = e :: t /\
              match d3 ++ [y] with e :: _ => e =? LF | [] => false end = (e =? LF)) as (e & t & Et & Ee).
    { destruct d3; cbn; eauto. }
    rewrite Ee. rewrite Et at 1. rewrite mem_get_app by (rewrite !length_app; cbn; lia).
    destruct (e =? LF); [cbn; do 2 f_equal; lia|].
    replace (zlen pre + zlen d1 + 1) with (zlen (pre ++ d1 ++ [CR])) by (rewrite !length_app; cbn; lia).
    replace (zlen pre + zlen (d1 ++ CR :: d3)) with (zlen (pre ++ d1 ++ [CR]) + zlen d3)
      by (rewrite !length_app; cbn; lia).
    rewrite IH by (rewrite Hd, length_app in Hf; cbn in Hf; lia).
    destruct (find_crlf (d3 ++ [y])); cbn; [|done]. do 2 f_equal. rewrite !length_app. cbn. lia.
Qed.

(** [seekNewline] finds the first line end of the bytes it is given, provided
    a NUL follows them, as it does in an [sds]. *)
Lemma seekNewline_spec d rest :
  zlen d <= INT_MAX ->
  seekNewline (d ++ NUL :: rest) (zlen d) = Ok (Z.of_nat <$> find_crlf d).
Proof.
  intros Hd. unfold seekNewline. destruct d as [|y d _] using rev_ind.
  { cbn. done. }
  rewrite length_app in *. cbn [length] in *.
  replace (Z.of_nat (length d + 1) - 1) with (zlen d) by lia. rewrite int_id by climits.
  rewrite <- app_assoc. cbn [app].
  pose proof (seek_loop_spec (S (S (Z.to_nat (zlen d)))) [] d y rest ltac:(lia)) as E.
  cbn [app length] in E. change (Z.of_nat 0) with 0 in E. rewrite Z.add_0_l in E. rewrite E.
  by destruct (find_crlf (d ++ [y])).
Qed.

(** * Numbers *)

Lemma read_digits_local d x mult v :
  CR ∈ d -> read_digits (d ++ x) mult v = read_digits d mult v.
Proof.
  revert v. induction d as [|c d IH]; intros v Hin; [by apply elem_of_nil in Hin|]. cbn.
  destruct (Z.eqb_spec c CR) as [->|Hc]; [done|].
  apply elem_of_cons in Hin as [?|Hin]; [done|].
  destruct (_ && _); [|done]. destruct (llong_ok (v * 10)); [|done].
  destruct (llong_ok _); [|done]. by apply IH.
Qed.

(** [readLongLong] looks at nothing behind the first CR. *)
Lemma readLongLong_local d x : CR ∈ d -> readLongLong (d ++ x) = readLongLong d.
Proof.
  intros Hin. destruct d as [|c d]; [by apply elem_of_nil in Hin|]. cbn [app readLongLong].
  destruct (Z.eqb_spec c 45) as [->|]; [|destruct (Z.eqb_spec c 43) as [->|]].
  - apply elem_of_cons in Hin as [?|Hin]; [done|]. by apply read_digits_local.
  - apply elem_of_cons in Hin as [?|Hin]; [done|]. by apply read_digits_local.
  - by apply (read_digits_local (c :: d)).
Qed.

Lemma find_crlf_CR d k : find_crlf d = Some k -> CR ∈ d.
Proof.
  revert k. induction d as [|c d IH]; intros k; cbn; [done|].
  destruct (Z.eqb_spec c CR) as [->|]; [intros _; left|]. cbn.
  destruct (find_crlf d) eqn:E; [|done]. intros _. right. by eapply IH.
Qed.

(** Reading digits up to a CR gives their value, while it fits. *)
Lemma read_digits_value s rest mult v :
  (mult = 1 \/ mult = -1) -> 0 <= v -> Forall (fun c => 48 <= c <= 57) s ->
  dec_value_from v s <= LLONG_MAX ->
  read_digits (s ++ CR :: rest) mult v = Ok (mult * dec_value_from v s).
Proof.
  intros Hm. revert v. induction s as [|c s IH]; intros v Hv Hs Hmax; cbn [app read_digits].
  - rewrite Z.eqb_refl. apply llong_ok_eq. unfold dec_value_from in *. cbn in *. climits.
  - inversion Hs as [|? ? Hc Hs']; subst.
    assert (schar c = c) as -> by (unfold schar; apply signed_id; lia).
    assert (0 <= v * 10 + (c - 48)) by lia.
    assert (v * 10 + (c - 48) <= dec_value_from (v * 10 + (c - 48)) s) as Hmono.
    { clear -Hs' H. revert H. generalize (v * 10 + (c - 48)). induction Hs' as [|a s Ha Hs IH]; intros z Hz; [done|].
      change (dec_value_from z (a :: s)) with (dec_value_from (z * 10 + (a - 48)) s).
      etrans; [|apply IH; lia]. lia. }
    change (dec_value_from v (c :: s)) with (dec_value_from (v * 10 + (c - 48)) s) in *.
    bfalse (c =? CR). btrue ((0 <=? c - 48) && (c - 48 <? 10)).
    rewrite !llong_ok_eq by climits. by apply IH.
Qed.

(** A printed number is read back, all of [long long] but its minimum. *)
Lemma readLongLong_dec z rest :
  LLONG_MIN < z <= LLONG_MAX -> readLongLong (dec_signed z ++ CR :: rest) = Ok z.
Proof.
  intros Hz. unfold dec_signed. destruct (Z.ltb_spec z 0).
  - cbn [app readLongLong]. rewrite Z.eqb_refl. rewrite read_digits_value; [|lia|lia|apply dec_isdigit; lia|].
    + change (dec_value_from 0 (dec (- z))) with (dec_value (dec (- z))). rewrite dec_value_dec by lia. f_equal. lia.
    + change (dec_value_from 0 (dec (- z))) with (dec_value (dec (- z))). rewrite dec_value_dec by lia. climits.
  - pose proof (dec_isdigit z ltac:(lia)) as Hd. pose proof (dec_nonempty z) as Hne.
    assert (readLongLong (dec z ++ CR :: rest) = read_digits (dec z ++ CR :: rest) 1 0) as ->.
    { destruct (dec z) as [|c s]; [done|]. inversion Hd; subst. cbn [app readLongLong].
      by bfalse (c =? 45); bfalse (c =? 43). }
    rewrite read_digits_value; [|lia|lia|done|].
    + change (dec_value_from 0 (dec z)) with (dec_value (dec z)). rewrite dec_value_dec by lia. f_equal. lia.
    + change (dec_value_from 0 (dec z)) with (dec_value (dec z)). rewrite dec_value_dec by lia. climits.
Qed.

(** * Tokens *)

Inductive token :=
| TkInt (z : Z)
| TkStr (s : list char)
| TkNil
| TkArr (n : Z).

(** The item of a given type at the head of the data, and the data behind it;
    [None]: not all of it has arrived. *)
Definition lex (type : Z) (d : list char) : outcome (option (token * list char)) :=
  match find_crlf d with
  | None => Ok None
  | Some k =>
      let line := take k d in
      let rest := drop (k + 2) d in
      if type =? REDIS_REPLY_INTEGER then
        match readLongLong d with Ok z => Ok (Some (TkInt z, rest)) | Fault e => Fault e end
      else if type =? REDIS_REPLY_STRING then
        match readLongLong d with
        | Fault e => Fault e
        | Ok n =>
            if n <? 0 then Ok (Some (TkNil, rest))
            else
              match llong_ok (n + 2) with
              | Fault e => Fault e
              | Ok _ =>
                  if n + 2 <=? zlen rest
                  then Ok (Some (TkStr (take (Z.to_nat n) rest), drop (Z.to_nat (n + 2)) rest))
                  else Ok None
              end
        end
      else if type =? REDIS_REPLY_ARRAY then
        match readLongLong d with
        | Fault e => Fault e
        | Ok n => Ok (Some (if n =? -1 then TkNil else TkArr n, rest))
        end
      else Ok (Some (TkStr line, rest))
  end.

(** What the lexer decides, more input does not change. *)
Lemma lex_app type d e :
  match lex type d with
  | Fault f => lex type (d ++ e) = Fault f
  | Ok (Some (tok, rest)) => lex type (d ++ e) = Ok (Some (tok, rest ++ e))
  | Ok None => True
  end.
Proof.
  unfold lex. destruct (find_crlf d) as [k|] eqn:Ek; [|done].
  rewrite (find_crlf_app _ e _ Ek). pose proof (find_crlf_lt _ _ Ek) as Hk.
  rewrite (readLongLong_local d e) by (by eapply find_crlf_CR).
  rewrite take_app_le, drop_app_le by lia.
  destruct (type =? REDIS_REPLY_INTEGER); [by destruct (readLongLong d)|].
  destruct (type =? REDIS_REPLY_STRING).
  - destruct (readLongLong d) as [n|]; [|done]. destruct (Z.ltb_spec n 0); [done|].
    destruct (llong_ok (n + 2)); [|done].
    set (rest := drop (k + 2) d). destruct (Z.leb_spec (n + 2) (zlen rest)); [|done].
    rewrite length_app. rewrite (proj2 (Z.leb_le (n + 2) _)) by lia.
    by rewrite take_app_le, drop_app_le by lia.
  - destruct (type =? REDIS_REPLY_ARRAY); [by destruct (readLongLong d)|done].
Qed.

(** Every item takes bytes. *)
Lemma lex_shrinks type d tok rest :
  lex type d = Ok (Some (tok, rest)) -> (length rest < length d)%nat.
Proof.
  unfold lex. destruct (find_crlf d) as [k|] eqn:Ek; [|done].
  pose proof (find_crlf_lt _ _ Ek) as Hk. repeat case_match; intros; simplify_eq;
    rewrite ?length_drop; lia.
Qed.

(** * The machine on pending bytes *)

(** The reader without its buffer. *)
Definition core (r : redisReader) : redisReader := set_buf None 0 0 r.

(** How a step ends: an item was read; more bytes are needed; the reader is
    in error.  The bytes left are returned with the state. *)
Inductive astep :=
| AItem (c : redisReader) (d : list char)
| AMore (c : redisReader) (d : list char)
| AError (c : redisReader).

Definition acreate (c : redisReader) (cur : redisReadTask) (tok : token) : M (option objptr) :=
  match tok with
  | TkInt z => createIntegerObject (r_rstack c) cur z
  | TkStr s => createStringObject (r_rstack c) cur s (zlen s)
  | TkNil => createNilObject (r_rstack c) cur
  | TkArr n => createArrayObject (r_rstack c) cur (int n)
  end.

(** Where the reader goes after the object of an item exists. *)
Definition aplace (c : redisReader) (cur : redisReadTask) (tok : token) (obj : objptr)
  : M redisReader :=
  let c := if r_ridx c =? 0 then set_reply (Some obj) c else c in
  match tok with
  | TkArr n =>
      if 0 <? n then
        let cur' := mkTask (tk_type cur) (int n) (tk_idx cur) (Some obj)
                           (tk_parent cur) (tk_privdata cur) in
        let child := mkTask (-1) (-1) 0 None (Some (Z.to_nat (r_ridx c))) (r_privdata c) in
        let c1 := set_ridx (r_ridx c + 1) (put_task (r_ridx c) cur' c) in
        let* _ := get_task c1 (r_ridx c1) in
        ret (put_task (r_ridx c1) child c1)
      else moveToNextTask c
  | _ => moveToNextTask c
  end.

Definition known_type (t : Z) : bool :=
  (t =? REDIS_REPLY_ERROR) || (t =? REDIS_REPLY_STATUS) || (t =? REDIS_REPLY_INTEGER)
  || (t =? REDIS_REPLY_STRING) || (t =? REDIS_REPLY_ARRAY).

Definition atyped (c : redisReader) (t : Z) (d : list char) : M astep :=
  if negb (known_type t) then crash AssertFailed
  else
    let* cur := get_task c (r_ridx c) in
    if (t =? REDIS_REPLY_ARRAY) && (r_ridx c =? 2) then
      let* c := __redisReaderSetError c REDIS_ERR_PROTOCOL NESTED_ERROR in ret (AError c)
    else
      let* l := lift (lex t d) in
      match l with
      | None => ret (AMore c d)
      | Some (tok, d') =>
          let* obj := acreate c cur tok in
          match obj with
          | None => let* c := __redisReaderSetErrorOOM c in ret (AError c)
          | Some obj => let* c := aplace c cur tok obj in ret (AItem c d')
          end
      end.

Definition aitem (c : redisReader) (d : list char) : M astep :=
  let* cur := get_task c (r_ridx c) in
  if tk_type cur <? 0 then
    match d with
    | [] => ret (AMore c [])
    | b :: d' =>
        match type_of_byte b with
        | None => let* c := __redisReaderSetErrorProtocolByte c b in ret (AError c)
        | Some t => atyped (set_cur_type c cur t) t d'
        end
    end
  else atyped c (tk_type cur) d.

(** ** [processItem] implements [aitem] *)

(** [c] holds a buffer [b] read up to [pos]. *)
Definition at_buf (b : sdshdr) (pos : Z) (c : redisReader) : redisReader :=
  set_buf (Some b) pos (sh_len b) c.

Record core_wf (c : redisReader) : Prop := {
  cw_buf : core c = c;
  cw_err : r_err c = 0;
  cw_fn : r_fn c = Some defaultFunctions
}.

(** What the concrete reader does when the machine does [a]. *)
Definition implements (b : sdshdr) (a : outcome (astep * world)) (p : outcome (Z * redisReader * world))
  : Prop :=
  match a with
  | Fault f => p = Fault f
  | Ok (AItem c d, w) =>
      exists pos, p = Ok (REDIS_OK, at_buf b pos c, w) /\
        0 <= pos <= sh_len b /\ drop (Z.to_nat pos) (sds_str b) = d
  | Ok (AMore c d, w) =>
      exists pos, p = Ok (REDIS_ERR, at_buf b pos c, w) /\
        0 <= pos <= sh_len b /\ drop (Z.to_nat pos) (sds_str b) = d
  | Ok (AError c, w) => p = Ok (REDIS_ERR, c, add_live (-1) w)
  end.

Lemma next_task_loop_at_buf fuel b pos c w :
  next_task_loop fuel (at_buf b pos c) w =
    (let* c' := next_task_loop fuel c in ret (at_buf b pos c')) w.
Proof.
  revert c w. induction fuel as [|f IH]; intros c w; [done|]. cbn [next_task_loop].
  change (r_ridx (at_buf b pos c)) with (r_ridx c).
  destruct (0 <=? r_ridx c); [|done]. destruct (r_ridx c =? 0); [done|].
  do 4 (rewrite bind_assoc; apply bind_ext; intros). destruct (tk_idx _ =? _).
  - by rewrite <- (IH (set_ridx (r_ridx c - 1) c)).
  - rewrite bind_assoc; by apply bind_ext.
Qed.

Lemma moveToNextTask_at_buf b pos c w :
  moveToNextTask (at_buf b pos c) w = (let* c' := moveToNextTask c in ret (at_buf b pos c')) w.
Proof. apply next_task_loop_at_buf. Qed.

Lemma next_task_loop_set_reply fuel o c w :
  next_task_loop fuel (set_reply o c) w =
    (let* c' := next_task_loop fuel c in ret (set_reply o c')) w.
Proof.
  revert c w. induction fuel as [|f IH]; intros c w; [done|]. cbn [next_task_loop].
  change (r_ridx (set_reply o c)) with (r_ridx c).
  destruct (0 <=? r_ridx c); [|done]. destruct (r_ridx c =? 0); [done|].
  do 4 (rewrite bind_assoc; apply bind_ext; intros). destruct (tk_idx _ =? _).
  - by rewrite <- (IH (set_ridx (r_ridx c - 1) c)).
  - rewrite bind_assoc; by apply bind_ext.
Qed.

Lemma set_error_at_buf b pos c type str w :
  core_wf c ->
  __redisReaderSetError (at_buf b pos c) type str w =
    (let* c' := __redisReaderSetError c type str in
     let* _ := free in ret c') w.
Proof.
  intros [Hc _ Hfn]. unfold __redisReaderSetError.
  change (r_reply (at_buf b pos c)) with (r_reply c).
  change (r_fn (at_buf b pos c)) with (r_fn c). rewrite Hfn.
  destruct c as [? ? buf p l ? ? o ? ?]. unfold core, set_buf in Hc. cbn in *.
  injection Hc as <- <- <-.
  destruct o as [obj|]; cbn [fn_freeObject defaultFunctions].
  - rewrite !bind_assoc. by apply bind_ext.
  - done.
Qed.

Lemma implements_error b pos c type str w :
  core_wf c ->
  implements b ((let* c := __redisReaderSetError c type str in ret (AError c)) w)
    ((let* r := __redisReaderSetError (at_buf b pos c) type str in ret (REDIS_ERR, r)) w).
Proof.
  intros Hc. unfold bind. rewrite set_error_at_buf by done. unfold bind.
  by destruct (__redisReaderSetError c type str w) as [[c' w']|].
Qed.

Lemma implements_move b pos c d w :
  0 <= pos <= sh_len b -> drop (Z.to_nat pos) (sds_str b) = d ->
  implements b ((let* c := moveToNextTask c in ret (AItem c d)) w)
    ((let* r := moveToNextTask (at_buf b pos c) in ret (REDIS_OK, r)) w).
Proof.
  intros Hp Hd. unfold bind. rewrite moveToNextTask_at_buf. unfold bind.
  destruct (moveToNextTask c w) as [[c' w']|]; [|done]. exists pos. done.
Qed.

(** Both programs begin with the same step. *)
Lemma implements_bind {A} b (m : M A) (k : A -> M astep) (k' : A -> M (Z * redisReader)) w :
  (forall a w', m w = Ok (a, w') -> implements b (k a w') (k' a w')) ->
  implements b (bind m k w) (bind m k' w).
Proof. intros H. unfold bind. destruct (m w) as [[a w']|]; [by apply H|done]. Qed.

Section item.
Context (b : sdshdr) (pos : Z) (c : redisReader).
Context (Hb : sds_wf b) (Hpos : 0 <= pos <= sh_len b) (Hc : core_wf c).
Context (d : list char) (Hd : drop (Z.to_nat pos) (sds_str b) = d).

Lemma pending_length : zlen d = sh_len b - pos.
Proof. rewrite <- Hd, length_drop. pose proof (length_sds_str b Hb). lia. Qed.

Lemma buf_from_at : exists rest, forall w,
  buf_from (at_buf b pos c) pos w = Ok (d ++ NUL :: rest, w).
Proof.
  destruct (sds_buf_split b Hb) as (rest & E & _). exists rest. intros w.
  unfold buf_from, bind, deref. cbn. rewrite E, drop_app_le; [by rewrite Hd|].
  pose proof (length_sds_str b Hb). lia.
Qed.

Lemma seek_at rest :
  seekNewline (d ++ NUL :: rest) (size_t (sh_len b - pos)) = Ok (Z.of_nat <$> find_crlf d).
Proof.
  pose proof (wf_max _ Hb). pose proof (wf_free _ Hb).
  rewrite <- pending_length, size_t_id, seekNewline_spec; [done| |];
    rewrite pending_length; climits.
Qed.

(** The line at the head of the pending data. *)
Lemma readLine_at w :
  readLine (at_buf b pos c) w =
    Ok (match find_crlf d with
        | Some k => (Some (pos, Z.of_nat k), at_buf b (pos + Z.of_nat k + 2) c)
        | None => (None, at_buf b pos c)
        end, w).
Proof.
  destruct buf_from_at as [rest E]. unfold readLine. cbn [r_pos r_len at_buf set_buf].
  rewrite (bind_ok _ _ _ _ _ (E w)). rewrite (bind_ok _ _ _ _ _ (lift_ok _ _ w (seek_at rest))).
  destruct (find_crlf d) as [k|] eqn:Ek; cbn; [|done].
  pose proof (find_crlf_lt _ _ Ek). pose proof pending_length. pose proof (wf_max _ Hb).
  pose proof (wf_free _ Hb). rewrite int_id, size_t_id by climits. done.
Qed.

Lemma drop_behind_line k :
  drop (Z.to_nat (pos + Z.of_nat k + 2)) (sds_str b) = drop (k + 2) d.
Proof. rewrite <- Hd, drop_drop. f_equal. lia. Qed.

Lemma readLongLong_at k rest :
  find_crlf d = Some k -> readLongLong (d ++ NUL :: rest) = readLongLong d.
Proof. intros Hk. apply readLongLong_local. by eapply find_crlf_CR. Qed.

(** The object of an item exists, or memory ran out. *)
Lemma implements_obj obj pos0 pos' cur tok d' w :
  0 <= pos' <= sh_len b -> drop (Z.to_nat pos') (sds_str b) = d' ->
  (forall n, tok = TkArr n -> n <= 0) ->
  implements b
    (match obj with
     | None => let* c := __redisReaderSetErrorOOM c in ret (AError c)
     | Some obj => let* c := aplace c cur tok obj in ret (AItem c d')
     end w)
    (match obj with
     | None => let* r := __redisReaderSetErrorOOM (at_buf b pos0 c) in ret (REDIS_ERR, r)
     | Some obj =>
         let r := at_buf b pos' c in
         let r := if r_ridx r =? 0 then set_reply (Some obj) r else r in
         let* r := moveToNextTask r in ret (REDIS_OK, r)
     end w).
Proof.
  intros Hp Hd' Ht. destruct obj as [o|]; [|by apply implements_error].
  cbn zeta. change (r_ridx (at_buf b pos' c)) with (r_ridx c).
  assert (aplace c cur tok o =
    moveToNextTask (if r_ridx c =? 0 then set_reply (Some o) c else c)) as ->.
  { unfold aplace. destruct tok as [| | |n]; try done. specialize (Ht n eq_refl).
    by bfalse (0 <? n). }
  destruct (r_ridx c =? 0); [|by apply implements_move].
  by apply (implements_move b pos' (set_reply (Some o) c)).
Qed.
End item.

Lemma createStringObject_prefix stk cur s x w :
  createStringObject stk cur (s ++ x) (zlen s) w = createStringObject stk cur s (zlen s) w.
Proof.
  assert (mem_read (s ++ x) 0 (zlen s) = Ok s /\ mem_read s 0 (zlen s) = Ok s) as [E1 E2].
  { split; [by apply (mem_read_app [])|].
    rewrite <- (app_nil_r s) at 1. by apply (mem_read_app []). }
  unfold createStringObject. by rewrite E1, E2.
Qed.

Section items.
Context (b : sdshdr) (pos : Z) (c : redisReader).
Context (Hb : sds_wf b) (Hpos : 0 <= pos <= sh_len b) (Hc : core_wf c).
Context (d : list char) (Hd : drop (Z.to_nat pos) (sds_str b) = d).

Lemma fn_member_at {F} (member : redisReplyObjectFunctions -> option F) p :
  fn_member (at_buf b p c) member = member defaultFunctions.
Proof. unfold fn_member. change (r_fn (at_buf b p c)) with (r_fn c). by rewrite (cw_fn _ Hc). Qed.

Lemma behind_line k : find_crlf d = Some k -> 0 <= pos + Z.of_nat k + 2 <= sh_len b.
Proof.
  intros Hk. pose proof (find_crlf_lt _ _ Hk). pose proof (pending_length b pos Hb Hpos d Hd).
  lia.
Qed.

(** A bind on a checked operation that both programs perform. *)
Lemma implements_lift {A} (o : outcome A) (k : A -> M astep) (k' : A -> M (Z * redisReader)) w :
  (forall a, o = Ok a -> implements b (k a w) (k' a w)) ->
  implements b (bind (lift o) k w) (bind (lift o) k' w).
Proof. intros H. apply implements_bind. intros a w'. unfold lift. destruct o; [|done]. intros [= <- <-]. by apply H. Qed.

Lemma processLineItem_implements cur t w :
  get_task c (r_ridx c) w = Ok (cur, w) -> tk_type cur = t ->
  t = REDIS_REPLY_ERROR \/ t = REDIS_REPLY_STATUS \/ t = REDIS_REPLY_INTEGER ->
  implements b (atyped c t d w) (processLineItem (at_buf b pos c) w).
Proof.
  intros Hcur Ht Htype.
  assert (known_type t = true /\ (t =? REDIS_REPLY_ARRAY) = false /\ (t =? REDIS_REPLY_STRING) = false)
    as (E1 & E2 & E3) by (destruct Htype as [->|[->| ->]]; done).
  unfold atyped, processLineItem. rewrite E1, E2. cbn [negb andb].
  change (get_task (at_buf b pos c)) with (get_task c). change (r_ridx (at_buf b pos c)) with (r_ridx c).
  rewrite !(bind_ok _ _ _ _ _ Hcur), Ht.
  rewrite (bind_ok _ _ _ _ _ (readLine_at b pos c Hb Hpos d Hd w)).
  unfold lex. rewrite E2, E3. destruct (find_crlf d) as [k|] eqn:Ek.
  2: { exists pos. done. }
  destruct (buf_from_at b pos c Hb Hpos d Hd) as [rest E].
  rewrite !fn_member_at. cbn [fn_createInteger fn_createString defaultFunctions].
  change (buf_from (at_buf b (pos + Z.of_nat k + 2) c)) with (buf_from (at_buf b pos c)).
  change (r_rstack (at_buf b (pos + Z.of_nat k + 2) c)) with (r_rstack c).
  cbn beta iota zeta. pose proof (behind_line k Ek).
  pose proof (find_crlf_lt _ _ Ek) as Hk.
  destruct (t =? REDIS_REPLY_INTEGER).
  - rewrite bind_assoc, (bind_ok _ _ _ _ _ (E w)).
    rewrite bind_assoc, (readLongLong_at d k rest Ek).
    destruct (readLongLong d) as [z|]; [|done]. cbn [lift bind].
    apply implements_bind. intros obj w' _.
    apply implements_obj; try done. by eapply drop_behind_line.
  - rewrite bind_assoc, (bind_ok _ _ _ _ _ (E w)). cbn [lift bind].
    pose proof (pending_length b pos Hb Hpos d Hd). pose proof (wf_max _ Hb). pose proof (wf_free _ Hb).
    rewrite size_t_id by climits.
    replace (d ++ NUL :: rest) with (take k d ++ drop k d ++ NUL :: rest)
      by (by rewrite app_assoc, take_drop).
    replace (Z.of_nat k) with (zlen (take k d)) at 1 by (rewrite length_take; lia).
    rewrite (bind_first _ _ _ _ (createStringObject_prefix _ _ _ _ _)).
    apply implements_bind. intros obj w' _. apply implements_obj; try done. by eapply drop_behind_line.
Qed.

Lemma processBulkItem_implements cur w :
  get_task c (r_ridx c) w = Ok (cur, w) ->
  implements b (atyped c REDIS_REPLY_STRING d w) (processBulkItem (at_buf b pos c) w).
Proof.
  intros Hcur. unfold atyped, processBulkItem.
  change (get_task (at_buf b pos c)) with (get_task c). change (r_ridx (at_buf b pos c)) with (r_ridx c).
  change (known_type REDIS_REPLY_STRING) with true. change (REDIS_REPLY_STRING =? REDIS_REPLY_ARRAY) with false.
  cbn [negb andb]. rewrite !(bind_ok _ _ _ _ _ Hcur).
  destruct (buf_from_at b pos c Hb Hpos d Hd) as [rest E].
  cbn [r_pos r_len at_buf set_buf]. rewrite (bind_ok _ _ _ _ _ (E w)).
  rewrite (bind_ok _ _ _ _ _ (lift_ok _ _ w (seek_at b pos Hb Hpos d Hd rest))).
  unfold lex. change (REDIS_REPLY_STRING =? REDIS_REPLY_INTEGER) with false.
  change (REDIS_REPLY_STRING =? REDIS_REPLY_STRING) with true. cbn iota.
  destruct (find_crlf d) as [k|] eqn:Ek; [|by exists pos].
  cbn [option_fmap option_map fmap]. rewrite (readLongLong_at d k rest Ek).
  destruct (readLongLong d) as [n|]; [|done]. rewrite (bind_ok (lift (Ok n)) _ w n w) by done.
  pose proof (behind_line k Ek). pose proof (find_crlf_lt _ _ Ek) as Hk.
  pose proof (pending_length b pos Hb Hpos d Hd). pose proof (wf_max _ Hb). pose proof (wf_free _ Hb).
  assert (ulong (Z.of_nat k + 2) = Z.of_nat k + 2) as -> by (apply size_t_id; climits).
  rewrite !fn_member_at. cbn [fn_createNil fn_createString defaultFunctions].
  destruct (Z.ltb_spec n 0).
  - rewrite bind_assoc, (bind_ok (lift (Ok _)) _ w _ w) by done. apply implements_bind. intros obj w' _.
    cbn [ret bind]. rewrite size_t_id by climits. rewrite Z.add_assoc.
    eapply (implements_obj b c Hc _ pos); try done. by eapply drop_behind_line.
  - rewrite bind_assoc. destruct (llong_ok (n + 2)) as [n2|] eqn:En; [|done].
    assert (n2 = n + 2 /\ n + 2 <= LLONG_MAX) as [-> Hn2].
    { unfold llong_ok in En. destruct (_ && _) eqn:Eb; [|done]. injection En as <-. lia. }
    rewrite (bind_ok (lift (Ok (n + 2))) _ w (n + 2) w) by done.
    assert (ulong (Z.of_nat k + 2 + (n + 2)) = Z.of_nat k + n + 4) as ->.
    { rewrite size_t_id by climits. lia. }
    rewrite size_t_id by climits. rewrite length_drop.
    destruct (Z.leb_spec (n + 2) (Z.of_nat (length d - (k + 2)))).
    2: { rewrite (proj2 (Z.leb_gt _ _)) by lia. by exists pos. }
    rewrite (proj2 (Z.leb_le _ _)) by lia. rewrite bind_assoc, (bind_ok (lift (Ok _)) _ w _ w) by done.
    assert (drop (Z.to_nat (Z.of_nat k + 2)) (d ++ NUL :: rest) =
      take (Z.to_nat n) (drop (k + 2) d) ++ drop (Z.to_nat n) (drop (k + 2) d) ++ NUL :: rest) as ->.
    { rewrite drop_app_le by lia. rewrite app_assoc, take_drop. do 2 f_equal. lia. }
    rewrite size_t_id by climits.
    rewrite (bind_first (createStringObject _ _ _ n)
               (createStringObject (r_rstack c) cur (take (Z.to_nat n) (drop (k + 2) d))
                  (zlen (take (Z.to_nat n) (drop (k + 2) d))))).
    2: { rewrite <- (createStringObject_prefix _ _ _ (drop (Z.to_nat n) (drop (k + 2) d) ++ NUL :: rest)).
         f_equal. rewrite length_take, length_drop. lia. }
    apply implements_bind. intros obj w' _. cbn [ret bind].
    rewrite size_t_id by climits. eapply (implements_obj b c Hc _ pos); [lia| |done].
    rewrite <- Hd, !drop_drop. f_equal. lia.
Qed.

Lemma processMultiBulkItem_implements cur w :
  get_task c (r_ridx c) w = Ok (cur, w) ->
  implements b (atyped c REDIS_REPLY_ARRAY d w) (processMultiBulkItem (at_buf b pos c) w).
Proof.
  intros Hcur. unfold atyped, processMultiBulkItem.
  change (get_task (at_buf b pos c)) with (get_task c). change (r_ridx (at_buf b pos c)) with (r_ridx c).
  change (known_type REDIS_REPLY_ARRAY) with true. change (REDIS_REPLY_ARRAY =? REDIS_REPLY_ARRAY) with true.
  cbn [negb andb]. rewrite !(bind_ok _ _ _ _ _ Hcur).
  destruct (r_ridx c =? 2); [by apply implements_error|].
  rewrite (bind_ok _ _ _ _ _ (readLine_at b pos c Hb Hpos d Hd w)).
  unfold lex. change (REDIS_REPLY_ARRAY =? REDIS_REPLY_INTEGER) with false.
  change (REDIS_REPLY_ARRAY =? REDIS_REPLY_STRING) with false.
  change (REDIS_REPLY_ARRAY =? REDIS_REPLY_ARRAY) with true. cbn iota.
  destruct (find_crlf d) as [k|] eqn:Ek; [|by exists pos].
  destruct (buf_from_at b pos c Hb Hpos d Hd) as [rest E].
  change (buf_from (at_buf b (pos + Z.of_nat k + 2) c)) with (buf_from (at_buf b pos c)).
  rewrite (bind_ok _ _ _ _ _ (E w)), (readLongLong_at d k rest Ek).
  destruct (readLongLong d) as [n|]; [|done]. rewrite !(bind_ok (lift (Ok _)) _ w _ w) by done.
  pose proof (behind_line k Ek). pose proof (drop_behind_line b pos Hpos d Hd k) as Hrest.
  rewrite !fn_member_at. cbn [fn_createNil fn_createArray defaultFunctions].
  set (r := at_buf b (pos + Z.of_nat k + 2) c).
  assert (forall obj w', implements b
    ((let* c' := moveToNextTask (if r_ridx c =? 0 then set_reply (Some obj) c else c) in
      ret (AItem c' (drop (k + 2) d))) w')
    ((let* r' := moveToNextTask r in
      ret (REDIS_OK, if r_ridx r =? 0 then set_reply (Some obj) r' else r')) w')) as Hmove.
  { intros obj w'. change (r_ridx r) with (r_ridx c). unfold bind, r. rewrite moveToNextTask_at_buf.
    destruct (r_ridx c =? 0); [unfold moveToNextTask; rewrite next_task_loop_set_reply|];
      unfold moveToNextTask, bind; (destruct (next_task_loop _ c w') as [[c' w'']|]; [|done]);
      by exists (pos + Z.of_nat k + 2). }
  destruct (Z.eqb_spec n (-1)) as [->|Hn1].
  - apply implements_bind. intros obj w' _. destruct obj as [obj|]; [|by apply implements_error].
    apply Hmove.
  - apply implements_bind. intros obj w' _. destruct obj as [obj|]; [|by apply implements_error].
    unfold aplace. destruct (Z.ltb_spec 0 n).
    2: { apply Hmove. }
    change (r_ridx r) with (r_ridx c).
    destruct (r_ridx c =? 0); rewrite bind_assoc; rewrite bind_assoc; apply implements_bind; intros ? w2 _;
      by exists (pos + Z.of_nat k + 2).
Qed.

Lemma processTyped_implements cur t w :
  get_task c (r_ridx c) w = Ok (cur, w) -> tk_type cur = t ->
  implements b (atyped c t d w) (processTyped (at_buf b pos c) t w).
Proof.
  intros Hcur Ht. unfold processTyped.
  destruct (_ || _) eqn:E1; [apply (processLineItem_implements cur); [done..|lia]|].
  destruct (Z.eqb_spec t REDIS_REPLY_STRING) as [->|H2]; [by eapply processBulkItem_implements|].
  destruct (Z.eqb_spec t REDIS_REPLY_ARRAY) as [->|H3]; [by eapply processMultiBulkItem_implements|].
  unfold atyped. replace (known_type t) with false; [done|].
  unfold known_type. rewrite E1. cbn [orb]. lia.
Qed.
End items.

Lemma get_task_inv c i w cur w' :
  get_task c i w = Ok (cur, w') -> w' = w /\ 0 <= i /\ r_rstack c !! Z.to_nat i = Some cur.
Proof.
  unfold get_task. destruct (Z.leb_spec 0 i); [|done].
  destruct (r_rstack c !! Z.to_nat i); [|done]. intros [= -> ->]. done.
Qed.

Lemma get_task_set_cur_type c cur t w w' :
  get_task c (r_ridx c) w = Ok (cur, w') ->
  get_task (set_cur_type c cur t) (r_ridx c) w =
    Ok (mkTask t (tk_elements cur) (tk_idx cur) (tk_obj cur) (tk_parent cur) (tk_privdata cur), w).
Proof.
  intros (_ & Hi & Hs)%get_task_inv. unfold get_task. btrue (0 <=? r_ridx c). cbn.
  by rewrite list_lookup_insert_eq by (by eapply lookup_lt_Some).
Qed.

(** [processItem] on a buffer implements [aitem] on the bytes not read yet. *)
Lemma processItem_implements b pos c w :
  sds_wf b -> 0 <= pos <= sh_len b -> core_wf c ->
  implements b (aitem c (drop (Z.to_nat pos) (sds_str b)) w) (processItem (at_buf b pos c) w).
Proof.
  intros Hb Hpos Hc. unfold aitem, processItem.
  change (get_task (at_buf b pos c)) with (get_task c). change (r_ridx (at_buf b pos c)) with (r_ridx c).
  apply implements_bind. intros cur w' Hcur. destruct (get_task_inv _ _ _ _ _ Hcur) as (-> & Hi & Hs).
  destruct (tk_type cur <? 0).
  2: { by eapply processTyped_implements. }
  destruct (buf_from_at b pos c Hb Hpos _ eq_refl) as [rest E].
  pose proof (pending_length b pos Hb Hpos _ eq_refl) as Hl.
  pose proof (wf_max _ Hb). pose proof (wf_free _ Hb).
  unfold readBytes. cbn [r_pos r_len at_buf set_buf]. rewrite !size_t_id by climits.
  destruct (drop (Z.to_nat pos) (sds_str b)) as [|x d] eqn:Ed.
  { cbn in Hl. rewrite (proj2 (Z.leb_gt _ _)) by lia. by exists pos. }
  cbn [length] in Hl. rewrite (proj2 (Z.leb_le _ _)) by lia.
  rewrite (bind_ok (ret _) _ w _ w) by done.
  change (set_pos (pos + 1) (at_buf b pos c)) with (at_buf b (pos + 1) c).
  change (buf_from (at_buf b (pos + 1) c)) with (buf_from (at_buf b pos c)).
  cbn beta iota. rewrite (bind_ok _ _ _ _ _ (E w)). cbn [app].
  change (mem_get (x :: d ++ NUL :: rest) 0) with (@Ok Z x). rewrite (bind_ok (lift (Ok x)) _ w x w) by done.
  assert (drop (Z.to_nat (pos + 1)) (sds_str b) = d) as Ed'.
  { replace (Z.to_nat (pos + 1)) with (Z.to_nat pos + 1)%nat by lia.
    by rewrite <- drop_drop, Ed. }
  destruct (type_of_byte x) as [t|].
  - apply (processTyped_implements b (pos + 1) (set_cur_type c cur t) Hb ltac:(lia)) with
      (cur := mkTask t (tk_elements cur) (tk_idx cur) (tk_obj cur) (tk_parent cur) (tk_privdata cur)).
    + destruct Hc as [Hc1 Hc2 Hc3]. split; try done. destruct c. unfold core, set_buf in *. cbn in *.
      injection Hc1 as <- <- <-. done.
    + done.
    + by apply (get_task_set_cur_type c cur t w w).
    + done.
  - unfold __redisReaderSetErrorProtocolByte. rewrite !bind_assoc. apply implements_bind. intros cb w1 _.
    rewrite !bind_assoc. apply implements_bind. intros sb w2 _. by apply implements_error.
Qed.
