(* ===== verification/ReaderStream.v ===== *)
(** The reader on a stream: what has been parsed does not depend on how the
    bytes arrived.  [redisReaderGetReply] implements a machine on the pending
    bytes ([aget]); that machine commutes with appending bytes, so feeding a
    stream in pieces and draining the replies after each gives what feeding it
    at once gives. *)

From S2P Require Import Prelude Machine Printf Sds Reply Reader ReaderSpec.
From stdpp Require Import base tactics list numbers strings gmap.

Local Open Scope Z_scope.

(** * Well-formed states are kept *)

(** The fields parsing never touches. *)
Definition same_frame (c c' : redisReader) : Prop :=
  r_err c' = r_err c /\ r_errstr c' = r_errstr c /\ r_buf c' = r_buf c /\ r_pos c' = r_pos c /\
  r_len c' = r_len c /\ r_fn c' = r_fn c /\ r_privdata c' = r_privdata c /\
  length (r_rstack c') = length (r_rstack c).

#[export] Instance same_frame_refl : Reflexive same_frame.
Proof. intros c. by split_and!. Qed.
#[export] Instance same_frame_trans : Transitive same_frame.
Proof. intros c1 c2 c3 (?&?&?&?&?&?&?&?) (?&?&?&?&?&?&?&?). split_and!; congruence. Qed.

Lemma same_frame_wf c c' : same_frame c c' -> core_wf c -> core_wf c'.
Proof.
  intros (?&?&Hb&Hp&Hl&?&?&?) [Hc ? ?]. split; try congruence.
  destruct c, c'. unfold core, set_buf in *. cbn in *. injection Hc as <- <- <-. by subst.
Qed.

Lemma same_frame_put_task i t c : same_frame c (put_task i t c).
Proof. split_and!; try done. cbn. by rewrite length_insert. Qed.

Lemma same_frame_set_ridx i c : same_frame c (set_ridx i c).
Proof. by split_and!. Qed.

Lemma same_frame_set_reply o c : same_frame c (set_reply o c).
Proof. by split_and!. Qed.

Lemma same_frame_set_cur_type c cur t : same_frame c (set_cur_type c cur t).
Proof. apply same_frame_put_task. Qed.

Create HintDb frame.
#[export] Hint Extern 1 (same_frame ?c ?c) => reflexivity : frame.
#[export] Hint Resolve same_frame_put_task same_frame_set_ridx same_frame_set_reply
  same_frame_set_cur_type : frame.

(** The end of a run stays in the range of the task indices. *)
Definition ridx_ok (c : redisReader) : Prop := -1 <= r_ridx c < zlen (r_rstack c).

Lemma next_task_loop_frame fuel c w c' w' :
  next_task_loop fuel c w = Ok (c', w') ->
  w' = w /\ same_frame c c' /\ (ridx_ok c -> ridx_ok c') /\ r_reply c' = r_reply c.
Proof.
  revert c w. induction fuel as [|f IH]; intros c w; [done|]. cbn [next_task_loop].
  destruct (Z.leb_spec 0 (r_ridx c)) as [Hr|]; [|intros [= <- <-]; done].
  destruct (r_ridx c =? 0).
  { intros [= <- <-]. split_and!; try done. unfold ridx_ok. cbn. lia. }
  intros (cur & w1 & (-> & _)%get_task_inv & H)%bind_inv.
  apply bind_inv in H as (prv & w2 & (-> & _)%get_task_inv & H).
  apply bind_inv in H as (u & w3 & Ha & H).
  assert (w3 = w) as -> by (revert Ha; unfold assert_; destruct (_ =? _); by intros [= <-]).
  apply bind_inv in H as (last & w4 & Hl & H).
  assert (w4 = w) as -> by (revert Hl; unfold lift; destruct (int_ok _); by intros [= <-]).
  destruct (tk_idx cur =? last).
  - apply IH in H as (-> & Hf & Hi & Hrep). split_and!; [done| | |done].
    + etrans; [|done]. auto with frame.
    + intros Ho. apply Hi. unfold ridx_ok in *. cbn. lia.
  - apply bind_inv in H as (u' & w5 & Ha' & [= <- <-]).
    assert (w5 = w) as -> by (revert Ha'; unfold assert_; destruct (_ <? _); by intros [= <-]).
    split_and!; [done|auto with frame| |done]. unfold ridx_ok. cbn. rewrite length_insert. lia.
Qed.

Lemma moveToNextTask_frame c w c' w' :
  moveToNextTask c w = Ok (c', w') ->
  w' = w /\ same_frame c c' /\ (ridx_ok c -> ridx_ok c') /\ r_reply c' = r_reply c.
Proof. apply next_task_loop_frame. Qed.

Lemma aplace_frame c cur tok obj w c' w' :
  aplace c cur tok obj w = Ok (c', w') -> same_frame c c' /\ (ridx_ok c -> ridx_ok c').
Proof.
  unfold aplace. set (c0 := if r_ridx c =? 0 then set_reply (Some obj) c else c).
  assert (same_frame c c0 /\ (ridx_ok c -> ridx_ok c0)) as [H0 Hi0].
  { unfold c0. destruct (_ =? _); (split; [by auto with frame|done]). }
  assert (moveToNextTask c0 w = Ok (c', w') -> same_frame c c' /\ (ridx_ok c -> ridx_ok c')) as Hmove.
  { intros (_ & Hf & Hi & _)%moveToNextTask_frame. split; [by etrans|auto]. }
  destruct tok as [| | |n]; [done..|]. destruct (0 <? n); [|done].
  intros (t & w1 & (-> & Hlo & Hlt)%get_task_inv & [= <- <-])%bind_inv. split.
  - etrans; [done|]. etrans; [|apply same_frame_put_task]. etrans; [|apply same_frame_set_ridx]. auto with frame.
  - intros _. apply lookup_lt_Some in Hlt. unfold ridx_ok. cbn in *. rewrite !length_insert in *. lia.
Qed.

Definition astep_state (a : astep) : redisReader :=
  match a with AItem c _ | AMore c _ | AError c => c end.

Definition not_error (a : astep) : Prop := match a with AError _ => False | _ => True end.

Lemma atyped_frame c t d w a w' :
  atyped c t d w = Ok (a, w') -> not_error a ->
  same_frame c (astep_state a) /\ (ridx_ok c -> ridx_ok (astep_state a)).
Proof.
  unfold atyped. destruct (negb _); [done|].
  intros (cur & w1 & _ & H)%bind_inv Hne. destruct (_ && _).
  { apply bind_inv in H as (? & ? & _ & [= <- <-]). done. }
  apply bind_inv in H as (l & w2 & _ & H). destruct l as [[tok d']|].
  2: { by injection H as <- <-. }
  apply bind_inv in H as (obj & w3 & _ & H). destruct obj as [obj|].
  - apply bind_inv in H as (c' & w4 & H & [= <- <-]). by eapply aplace_frame.
  - apply bind_inv in H as (? & ? & _ & [= <- <-]). done.
Qed.

Lemma aitem_frame c d w a w' :
  aitem c d w = Ok (a, w') -> not_error a ->
  same_frame c (astep_state a) /\ (ridx_ok c -> ridx_ok (astep_state a)).
Proof.
  unfold aitem. intros (cur & w1 & _ & H)%bind_inv Hne. destruct (_ <? _).
  2: by eapply atyped_frame.
  destruct d as [|x d]; [by injection H as <- <-|].
  destruct (type_of_byte x).
  - apply atyped_frame in H as [Hf Hi]; [|done]. split; [etrans; [|done]; auto with frame|].
    intros Ho. apply Hi. unfold ridx_ok in *. cbn. by rewrite length_insert.
  - apply bind_inv in H as (? & ? & _ & [= <- <-]). done.
Qed.

(** Every item takes at least a byte. *)
Lemma atyped_shrinks c t d w c' d' w' :
  atyped c t d w = Ok (AItem c' d', w') -> (length d' < length d)%nat.
Proof.
  unfold atyped. destruct (negb _); [done|]. intros (cur & w1 & _ & H)%bind_inv. destruct (_ && _).
  { by apply bind_inv in H as (? & ? & _ & [=]). }
  apply bind_inv in H as (l & w2 & Hl & H). destruct l as [[tok d1]|]; [|done].
  assert (lex t d = Ok (Some (tok, d1))) as Hlex.
  { revert Hl. unfold lift. destruct (lex t d); [|done]. by intros [= -> _]. }
  apply bind_inv in H as (obj & w3 & _ & H). destruct obj as [obj|].
  - apply bind_inv in H as (? & ? & _ & [= <- <- <-]). by eapply lex_shrinks.
  - by apply bind_inv in H as (? & ? & _ & [=]).
Qed.

Lemma aitem_shrinks c d w c' d' w' :
  aitem c d w = Ok (AItem c' d', w') -> (length d' < length d)%nat.
Proof.
  unfold aitem. intros (cur & w1 & _ & H)%bind_inv. destruct (_ <? _).
  2: by eapply atyped_shrinks.
  destruct d as [|x d]; [done|]. destruct (type_of_byte x).
  - apply atyped_shrinks in H. cbn. lia.
  - by apply bind_inv in H as (? & ? & _ & [=]).
Qed.

(** * Appending bytes *)

(** Continue a step when the bytes [e] arrive behind those it had. *)
Definition resume (k : redisReader -> list char -> M astep) (e : list char) (a : astep) : M astep :=
  match a with
  | AItem c d => ret (AItem c (d ++ e))
  | AMore c d => k c (d ++ e)
  | AError c => ret (AError c)
  end.

Lemma atyped_app c t d e w :
  atyped c t (d ++ e) w = bind (atyped c t d) (resume (fun c => atyped c t) e) w.
Proof.
  unfold atyped at 1 2. destruct (negb (known_type t)) eqn:Ek; [done|].
  rewrite bind_assoc. apply bind_ext. intros cur w1 Hcur.
  destruct (get_task_inv _ _ _ _ _ Hcur) as (-> & _ & _).
  destruct (_ && _) eqn:Er.
  { rewrite bind_assoc. by apply bind_ext. }
  pose proof (lex_app t d e) as Hlex. rewrite bind_assoc.
  destruct (lex t d) as [[[tok rest]|]|f].
  - rewrite Hlex. do 2 (rewrite (bind_ok (lift (Ok _)) _ w _ w) by done).
    cbn beta iota. rewrite bind_assoc. apply bind_ext. intros obj w2 _. destruct obj as [obj|].
    + rewrite bind_assoc. by apply bind_ext.
    + rewrite bind_assoc. by apply bind_ext.
  - rewrite (bind_ok (lift (Ok None)) _ w _ w) by done.
    cbn beta iota. rewrite (bind_ok (ret _) _ w _ w) by done. cbn [resume].
    unfold atyped. by rewrite Ek, (bind_ok _ _ _ _ _ Hcur), Er.
  - by rewrite Hlex.
Qed.

Lemma type_of_byte_nonneg x t : type_of_byte x = Some t -> 0 <= t.
Proof. unfold type_of_byte. repeat case_match; intros; simplify_eq; done. Qed.

Lemma aitem_typed c cur d w :
  get_task c (r_ridx c) w = Ok (cur, w) -> 0 <= tk_type cur -> aitem c d w = atyped c (tk_type cur) d w.
Proof. intros Hcur Ht. unfold aitem. rewrite (bind_ok _ _ _ _ _ Hcur). by bfalse (tk_type cur <? 0). Qed.

(** A step that waits leaves the state it started in, the type being known. *)
Lemma atyped_waits c t d w c' d' w' :
  atyped c t d w = Ok (AMore c' d', w') -> c' = c /\ w' = w /\ d' = d.
Proof.
  unfold atyped. destruct (negb _); [done|]. intros (cur & w1 & (-> & _)%get_task_inv & H)%bind_inv.
  destruct (_ && _). { by apply bind_inv in H as (? & ? & _ & [=]). }
  apply bind_inv in H as (l & w2 & Hl & H).
  assert (w2 = w) as -> by (revert Hl; unfold lift; destruct (lex t d); by intros [= _ <-]).
  destruct l as [[tok d1]|].
  - apply bind_inv in H as (obj & w3 & _ & H).
    destruct obj; by apply bind_inv in H as (? & ? & _ & [=]).
  - by injection H as <- <- <-.
Qed.

Lemma aitem_waits c d w c' d' w' :
  aitem c d w = Ok (AMore c' d', w') -> r_ridx c' = r_ridx c /\ w' = w /\ (length d' <= length d)%nat.
Proof.
  unfold aitem. intros (cur & w1 & (-> & _)%get_task_inv & H)%bind_inv. destruct (_ <? _).
  - destruct d as [|x d]; [by injection H as <- <- <-|]. destruct (type_of_byte x).
    + apply atyped_waits in H as (-> & -> & ->). cbn. auto.
    + by apply bind_inv in H as (? & ? & _ & [=]).
  - by apply atyped_waits in H as (-> & -> & ->).
Qed.

Lemma atyped_app_item c cur t d e w :
  get_task c (r_ridx c) w = Ok (cur, w) -> tk_type cur = t -> 0 <= t ->
  atyped c t (d ++ e) w = bind (atyped c t d) (resume aitem e) w.
Proof.
  intros Hcur Ht H0. rewrite atyped_app. apply bind_ext. intros a w' Ha.
  destruct a as [c' d'|c' d'|c']; [done| |done]. apply atyped_waits in Ha as (-> & -> & ->).
  cbn [resume]. subst t. symmetry. by apply aitem_typed.
Qed.

(** What a step does is not changed by bytes that arrive later. *)
Lemma aitem_app c d e w : aitem c (d ++ e) w = bind (aitem c d) (resume aitem e) w.
Proof.
  unfold aitem at 1 2. rewrite bind_assoc. apply bind_ext. intros cur w1 Hcur.
  destruct (get_task_inv _ _ _ _ _ Hcur) as (-> & _ & _).
  destruct (Z.ltb_spec (tk_type cur) 0) as [Hneg|Hpos].
  2: { by eapply atyped_app_item. }
  destruct d as [|x d].
  - cbn [app]. rewrite (bind_ok (ret _) _ w _ w) by done. cbn [resume app].
    unfold aitem. rewrite (bind_ok _ _ _ _ _ Hcur). by btrue (tk_type cur <? 0).
  - cbn [app]. destruct (type_of_byte x) as [t|] eqn:Et.
    + eapply atyped_app_item; [by apply (get_task_set_cur_type c cur t w w)|done|].
      by eapply type_of_byte_nonneg.
    + rewrite bind_assoc. by apply bind_ext.
Qed.

(** * The loop *)

Fixpoint arun (fuel : nat) (c : redisReader) (d : list char) : M astep :=
  match fuel with
  | O => crash OutOfFuel
  | S f =>
      if 0 <=? r_ridx c then
        let* a := aitem c d in
        match a with AItem c' d' => arun f c' d' | _ => ret a end
      else ret (AItem c d)
  end.

(** Enough fuel: a step for every byte, and one to find that bytes lack. *)
Definition run (c : redisReader) (d : list char) : M astep := arun (S (length d)) c d.

Lemma arun_fuel f1 f2 c d w :
  (length d < f1)%nat -> (length d < f2)%nat -> arun f1 c d w = arun f2 c d w.
Proof.
  revert f2 c d w. induction f1 as [|f1 IH]; intros f2 c d w H1 H2; [lia|].
  destruct f2 as [|f2]; [lia|]. cbn [arun]. destruct (0 <=? r_ridx c); [|done].
  apply bind_ext. intros a w' Ha. destruct a as [c' d'| |]; [|done|done].
  apply aitem_shrinks in Ha. apply IH; lia.
Qed.

Lemma run_eq c d w :
  run c d w =
    (if 0 <=? r_ridx c then
       let* a := aitem c d in
       match a with AItem c' d' => run c' d' | _ => ret a end
     else ret (AItem c d)) w.
Proof.
  unfold run at 1. cbn [arun]. destruct (0 <=? r_ridx c); [|done].
  apply bind_ext. intros a w' Ha. destruct a as [c' d'| |]; [|done|done].
  apply aitem_shrinks in Ha. apply arun_fuel; lia.
Qed.

Lemma run_app c d e w : run c (d ++ e) w = bind (run c d) (resume run e) w.
Proof.
  remember (length d) as n eqn:Hn. revert c d w Hn.
  induction n as [n IH] using lt_wf_ind; intros c d w Hn.
  rewrite (run_eq c (d ++ e)), (bind_first _ _ _ _ (run_eq c d w)).
  destruct (0 <=? r_ridx c) eqn:Hr; [|done].
  rewrite (bind_first _ _ _ _ (aitem_app c d e w)), !bind_assoc. apply bind_ext.
  intros a w' Ha. destruct a as [c' d'|c' d'|c']; [| |done].
  - apply aitem_shrinks in Ha. rewrite (bind_ok (resume aitem e (AItem c' d')) _ w' _ w') by done.
    apply (IH (length d')); lia.
  - rewrite (bind_ok (ret _) _ w' _ w') by done. cbn [resume].
    apply aitem_waits in Ha as (Hr' & -> & _). rewrite run_eq. by rewrite Hr', Hr.
Qed.

(** * The allocator stays willing *)

Definition keeps {A} (P : world -> Prop) (m : M A) : Prop :=
  forall w a w', m w = Ok (a, w') -> P w -> P w'.

Lemma keeps_ret {A} P (a : A) : keeps P (ret a).
Proof. by intros w ? ? [= <- <-]. Qed.
Lemma keeps_crash {A} P f : keeps P (@crash A f).
Proof. by intros w ? ?. Qed.
Lemma keeps_lift {A} P (o : outcome A) : keeps P (lift o).
Proof. intros w ? ?. unfold lift. destruct o; by intros [= <- <-]. Qed.
Lemma keeps_bind {A B} P (m : M A) (k : A -> M B) :
  keeps P m -> (forall a, keeps P (k a)) -> keeps P (bind m k).
Proof. intros Hm Hk w b w' (a & w1 & H1 & H2)%bind_inv Hw. by eapply Hk, Hm. Qed.
Lemma keeps_assert P c : keeps P (assert_ c).
Proof. unfold assert_. destruct c; [apply keeps_ret|apply keeps_crash]. Qed.

Lemma keeps_modify P f : (forall w, P w -> P (f w)) -> keeps P (modify f).
Proof. intros H w a w' [= <- <-]. auto. Qed.
Lemma keeps_get_world P : keeps P get_world.
Proof. by intros w a w' [= <- <-]. Qed.
Lemma keeps_ask_alloc : keeps no_oom ask_alloc.
Proof. intros w a w' H Hw. rewrite ask_alloc_no_oom in H by done. by injection H as <- <-. Qed.
Lemma keeps_get_obj P l : keeps P (get_obj l).
Proof. intros w a w'. unfold get_obj. destruct (_ !! _); by intros [= <- <-]. Qed.
Lemma keeps_get_task P c i : keeps P (get_task c i).
Proof. unfold get_task. repeat case_match; by apply keeps_ret || apply keeps_crash. Qed.

Create HintDb keeps.
#[export] Hint Resolve keeps_ret keeps_crash keeps_lift keeps_assert keeps_modify
  keeps_get_world keeps_ask_alloc keeps_get_obj keeps_get_task : keeps.

(** Go through a program step by step. *)
Ltac keeps_step :=
  repeat first
    [ match goal with |- keeps _ (bind _ _) => apply keeps_bind; [|intros ?] end
    | progress auto with keeps
    | progress case_match ].

Lemma keeps_alloc_block : keeps no_oom alloc_block.
Proof. unfold alloc_block. keeps_step. Qed.
Lemma keeps_malloc n : keeps no_oom (malloc n).
Proof. unfold malloc. keeps_step. Qed.
Lemma keeps_free : keeps no_oom free.
Proof. unfold free. keeps_step. Qed.
Lemma keeps_put_obj l r : keeps no_oom (put_obj l r).
Proof. unfold put_obj. keeps_step. Qed.
#[export] Hint Resolve keeps_alloc_block keeps_malloc keeps_free keeps_put_obj : keeps.

Lemma keeps_free_obj l : keeps no_oom (free_obj l).
Proof. unfold free_obj. keeps_step. Qed.
#[export] Hint Resolve keeps_free_obj : keeps.

Lemma keeps_free_elements f n j v :
  (forall l, keeps no_oom (f l)) -> keeps no_oom (free_elements f n j v).
Proof. intros Hf. revert j. induction n as [|n IH]; intros j; cbn; keeps_step. Qed.
#[export] Hint Resolve keeps_free_elements : keeps.

Lemma keeps_freeReply fuel l : keeps no_oom (freeReply fuel l).
Proof. revert l. induction fuel as [|f IH]; intros l; cbn; keeps_step. Qed.
#[export] Hint Resolve keeps_freeReply : keeps.

Lemma keeps_freeReplyObject o : keeps no_oom (freeReplyObject o).
Proof. unfold freeReplyObject. keeps_step. Qed.

Lemma keeps_createReplyObject t : keeps no_oom (createReplyObject t).
Proof. unfold createReplyObject. keeps_step. by intros w r w' [= <- <-]. Qed.

Lemma keeps_attach stk task l : keeps no_oom (attach stk task l).
Proof. unfold attach. keeps_step. Qed.
#[export] Hint Resolve keeps_freeReplyObject keeps_createReplyObject keeps_attach : keeps.

Lemma keeps_acreate c cur tok : keeps no_oom (acreate c cur tok).
Proof.
  unfold acreate, createIntegerObject, createStringObject, createNilObject, createArrayObject.
  keeps_step.
Qed.

Lemma keeps_next_task fuel c : keeps no_oom (next_task_loop fuel c).
Proof. intros w a w' (-> & _)%next_task_loop_frame. done. Qed.

Lemma keeps_set_error c t s : r_fn c = Some defaultFunctions -> keeps no_oom (__redisReaderSetError c t s).
Proof. intros Hfn. unfold __redisReaderSetError, sdsfree. rewrite Hfn. cbn [fn_freeObject defaultFunctions]. keeps_step. Qed.
#[export] Hint Resolve keeps_acreate keeps_next_task keeps_set_error : keeps.

Lemma keeps_atyped c t d : r_fn c = Some defaultFunctions -> keeps no_oom (atyped c t d).
Proof. intros Hfn. unfold atyped, aplace, __redisReaderSetErrorOOM, moveToNextTask. keeps_step. Qed.
#[export] Hint Resolve keeps_atyped : keeps.

Lemma keeps_aitem c d : r_fn c = Some defaultFunctions -> keeps no_oom (aitem c d).
Proof. intros Hfn. unfold aitem, __redisReaderSetErrorProtocolByte. keeps_step. Qed.

(** * Error states *)

(** After an error the reader owns nothing and stays in error. *)
Record dead (c : redisReader) : Prop := {
  dead_err : r_err c <> 0;
  dead_buf : r_buf c = None;
  dead_reply : r_reply c = None
}.

Lemma set_error_dead c t s w c' w' :
  __redisReaderSetError c t s w = Ok (c', w') -> core_wf c -> (t =? 0) = false -> dead c'.
Proof.
  intros Herr [Hc _ Hfn] Ht%Z.eqb_neq. revert Herr. unfold __redisReaderSetError. rewrite Hfn. cbn [fn_freeObject defaultFunctions].
  assert (r_buf c = None) as Hb by (by rewrite <- Hc).
  destruct (r_reply c) as [o|] eqn:Er.
  - intros (r1 & w1 & (? & ? & _ & [= <- <-])%bind_inv & H)%bind_inv.
    cbn [r_buf set_reply] in H. rewrite Hb in H. injection H as <- <-. by split.
  - intros (r1 & w1 & [= <- <-] & H)%bind_inv. rewrite Hb in H. injection H as <- <-. split; done || exact Er.
Qed.

Lemma atyped_error c t d w c' w' :
  core_wf c -> atyped c t d w = Ok (AError c', w') -> dead c'.
Proof.
  intros Hc. unfold atyped. destruct (negb _); [done|]. intros (cur & w1 & _ & H)%bind_inv.
  destruct (_ && _).
  { apply bind_inv in H as (c1 & w2 & H & [= -> ->]). by eapply set_error_dead. }
  apply bind_inv in H as (l & w2 & _ & H). destruct l as [[tok d']|]; [|done].
  apply bind_inv in H as (obj & w3 & _ & H). destruct obj as [obj|].
  - by apply bind_inv in H as (? & ? & _ & [=]).
  - apply bind_inv in H as (c1 & w4 & H & [= -> ->]). by eapply set_error_dead.
Qed.

Lemma set_cur_type_wf c cur t : core_wf c -> core_wf (set_cur_type c cur t).
Proof. apply same_frame_wf. auto with frame. Qed.

Lemma aitem_error c d w c' w' :
  core_wf c -> aitem c d w = Ok (AError c', w') -> dead c'.
Proof.
  intros Hc. unfold aitem. intros (cur & w1 & _ & H)%bind_inv. destruct (_ <? _).
  2: by eapply atyped_error.
  destruct d as [|x d]; [done|]. destruct (type_of_byte x).
  - eapply atyped_error; [|done]. by apply set_cur_type_wf.
  - apply bind_inv in H as (c1 & w2 & H & [= -> ->]). unfold __redisReaderSetErrorProtocolByte in H.
    apply bind_inv in H as (? & ? & _ & H). apply bind_inv in H as (? & ? & _ & H).
    by eapply set_error_dead.
Qed.

(** * States between two calls *)

(** The root task of the next reply, pushed when the stack is empty. *)
Definition start (c : redisReader) : redisReader :=
  if r_ridx c =? -1 then
    set_ridx 0 (put_task 0 (mkTask (-1) (-1) (-1) None None (r_privdata c)) c)
  else c.

(** The current task waits for bytes: its type is not known, or it is and the
    item is not complete. *)
Definition waiting (c : redisReader) : Prop :=
  exists cur, r_rstack c !! Z.to_nat (r_ridx c) = Some cur /\
    (tk_type cur < 0 \/
     (0 <= tk_type cur /\ known_type (tk_type cur) = true /\
      (tk_type cur =? REDIS_REPLY_ARRAY) && (r_ridx c =? 2) = false)).

Record live (c : redisReader) : Prop := {
  lv_wf : core_wf c;
  lv_ridx : 0 <= r_ridx c < zlen (r_rstack c);
  lv_root : 0 < r_ridx c -> is_Some (r_reply c);
  lv_wait : waiting c
}.

Lemma live_task c w : live c -> exists cur, get_task c (r_ridx c) w = Ok (cur, w) /\
  r_rstack c !! Z.to_nat (r_ridx c) = Some cur.
Proof.
  intros [_ Hi _ (cur & Hcur & _)]. exists cur. split; [|done]. unfold get_task.
  btrue (0 <=? r_ridx c). by rewrite Hcur.
Qed.

Lemma waiting_nil c w : live c -> aitem c [] w = Ok (AMore c [], w).
Proof.
  intros Hl. pose proof Hl as [_ Hi _ (cur & Hcur & Ht)].
  destruct (live_task c w Hl) as (cur' & Hg & Hcur'). simplify_eq.
  unfold aitem. rewrite (bind_ok _ _ _ _ _ Hg). destruct Ht as [Ht|(Ht & Hk & Hn)].
  - by btrue (tk_type cur <? 0).
  - bfalse (tk_type cur <? 0). unfold atyped. rewrite Hk. cbn [negb]. by rewrite (bind_ok _ _ _ _ _ Hg), Hn.
Qed.

Lemma atyped_waiting c t d w c' d' w' cur :
  atyped c t d w = Ok (AMore c' d', w') -> r_rstack c !! Z.to_nat (r_ridx c) = Some cur ->
  tk_type cur = t -> 0 <= t -> waiting c'.
Proof.
  intros H Hcur Ht H0. pose proof (atyped_waits _ _ _ _ _ _ _ H) as (-> & -> & ->).
  exists cur. split; [done|]. right. subst t. unfold atyped in H.
  destruct (known_type (tk_type cur)); [|done]. cbn [negb] in H.
  apply bind_inv in H as (? & ? & _ & H). destruct (_ && _) eqn:E; [|done].
  by apply bind_inv in H as (? & ? & _ & [=]).
Qed.

Lemma aitem_waiting c d w c' d' w' : aitem c d w = Ok (AMore c' d', w') -> waiting c'.
Proof.
  unfold aitem. intros (cur & w1 & (-> & Hi & Hcur)%get_task_inv & H)%bind_inv.
  destruct (Z.ltb_spec (tk_type cur) 0); [|by eapply atyped_waiting].
  destruct d as [|x d].
  - injection H as <- <- <-. exists cur. auto.
  - destruct (type_of_byte x) eqn:Et; [|by apply bind_inv in H as (? & ? & _ & [=])].
    eapply atyped_waiting; [done| | |by eapply type_of_byte_nonneg].
    + cbn. apply list_lookup_insert_eq. by eapply lookup_lt_Some.
    + done.
Qed.

(** The reply of a run is there as soon as its first item is. *)
Lemma aplace_reply c cur tok obj w c' w' :
  (r_ridx c <> 0 -> is_Some (r_reply c)) ->
  aplace c cur tok obj w = Ok (c', w') -> is_Some (r_reply c').
Proof.
  intros Hr. unfold aplace. set (c0 := if r_ridx c =? 0 then set_reply (Some obj) c else c).
  assert (is_Some (r_reply c0)) as H0.
  { unfold c0. destruct (Z.eqb_spec (r_ridx c) 0); [by eexists|auto]. }
  assert (moveToNextTask c0 w = Ok (c', w') -> is_Some (r_reply c')) as Hmove.
  { intros (_ & _ & _ & ->)%moveToNextTask_frame. done. }
  destruct tok as [| | |n]; [done..|]. destruct (0 <? n); [|done].
  by intros (t & w1 & _ & [= <- <-])%bind_inv.
Qed.

Lemma atyped_reply c t d w a w' :
  (r_ridx c <> 0 -> is_Some (r_reply c)) -> atyped c t d w = Ok (a, w') ->
  match a with
  | AItem c' _ => is_Some (r_reply c')
  | AMore c' _ => r_reply c' = r_reply c
  | AError _ => True
  end.
Proof.
  intros Hr. unfold atyped. destruct (negb _); [done|]. intros (cur & w1 & _ & H)%bind_inv.
  destruct (_ && _). { by apply bind_inv in H as (? & ? & _ & [= <- <-]). }
  apply bind_inv in H as (l & w2 & _ & H). destruct l as [[tok d']|]; [|by injection H as <- <-].
  apply bind_inv in H as (obj & w3 & _ & H). destruct obj as [obj|].
  - apply bind_inv in H as (c1 & w4 & H & [= <- <-]). by eapply aplace_reply.
  - by apply bind_inv in H as (? & ? & _ & [= <- <-]).
Qed.

Lemma aitem_reply c d w a w' :
  (r_ridx c <> 0 -> is_Some (r_reply c)) -> aitem c d w = Ok (a, w') ->
  match a with
  | AItem c' _ => is_Some (r_reply c')
  | AMore c' _ => r_reply c' = r_reply c
  | AError _ => True
  end.
Proof.
  intros Hr. unfold aitem. intros (cur & w1 & _ & H)%bind_inv.
  destruct (_ <? _); [|by eapply atyped_reply].
  destruct d as [|x d]; [by injection H as <- <-|]. destruct (type_of_byte x).
  - by eapply (atyped_reply (set_cur_type c cur z)).
  - by apply bind_inv in H as (? & ? & _ & [= <- <-]).
Qed.

(** * Runs of the loop *)

Definition run_post (c : redisReader) (d : list char) (a : astep) : Prop :=
  match a with
  | AItem c' d' =>
      same_frame c c' /\ r_ridx c' = -1 /\ is_Some (r_reply c') /\ (length d' <= length d)%nat
  | AMore c' d' => same_frame c c' /\ live c' /\ (length d' <= length d)%nat
  | AError c' => dead c'
  end.

Lemma run_spec c d w a w' :
  run c d w = Ok (a, w') -> core_wf c -> ridx_ok c -> (r_ridx c <> 0 -> is_Some (r_reply c)) ->
  run_post c d a /\ (no_oom w -> no_oom w').
Proof.
  remember (length d) as n eqn:Hn. revert c d w Hn.
  induction n as [n IH] using lt_wf_ind; intros c d w Hn Hrun Hc Hi Hr.
  rewrite run_eq in Hrun. destruct (Z.leb_spec 0 (r_ridx c)) as [H0|Hneg].
  2: { injection Hrun as <- <-. split; [|done]. split_and!; try done; [unfold ridx_ok in Hi; lia|].
       apply Hr. lia. }
  apply bind_inv in Hrun as (a1 & w1 & Ha & H).
  assert (no_oom w -> no_oom w1) as Hk by (eapply keeps_aitem; [by apply Hc|done]).
  pose proof (aitem_reply _ _ _ _ _ Hr Ha) as Hrep.
  destruct a1 as [c1 d1|c1 d1|c1].
  - pose proof (aitem_frame _ _ _ _ _ Ha I) as [Hf Hi1]. cbn in Hf, Hi1.
    pose proof (aitem_shrinks _ _ _ _ _ _ Ha).
    eapply (IH (length d1)) in H as [Hp Hk1]; [|lia|done|by eapply same_frame_wf|auto|done].
    split; [|auto]. destruct a as [c2 d2|c2 d2|c2]; [| |done].
    + destruct Hp as (? & ? & ? & ?). split_and!; [by etrans|done|done|lia].
    + destruct Hp as (? & ? & ?). split_and!; [by etrans|done|lia].
  - injection H as <- <-. pose proof (aitem_frame _ _ _ _ _ Ha I) as [Hf Hi1]. cbn in Hf, Hi1.
    pose proof (aitem_waits _ _ _ _ _ _ Ha) as (Hri & -> & Hl). split; [|done]. split_and!; [done| |done].
    split; [by eapply same_frame_wf| | |by eapply aitem_waiting].
    + specialize (Hi1 Hi). unfold ridx_ok in Hi1. lia.
    + intros ?. rewrite Hrep. apply Hr. lia.
  - injection H as <- <-. split; [|done]. by eapply aitem_error.
Qed.

Lemma live_ridx_ok c : live c -> ridx_ok c.
Proof. intros [_ Hi _ _]. unfold ridx_ok. lia. Qed.

Lemma run_live_spec c d w a w' :
  run c d w = Ok (a, w') -> live c -> run_post c d a /\ (no_oom w -> no_oom w').
Proof.
  intros Hrun Hl. apply run_spec in Hrun; [done|apply Hl|by apply live_ridx_ok|].
  intros ?. destruct Hl as [_ Hi Hr _]. apply Hr. lia.
Qed.

(** Delivering a reply consumes at least a byte. *)
Lemma run_item_shrinks c d w c' d' w' :
  run c d w = Ok (AItem c' d', w') -> live c -> (length d' < length d)%nat.
Proof.
  intros Hrun Hl. rewrite run_eq in Hrun. pose proof Hl as [Hc Hi Hroot _].
  rewrite (proj2 (Z.leb_le _ _)) in Hrun by lia. apply bind_inv in Hrun as (a1 & w1 & Ha & H).
  destruct a1 as [c1 d1| |]; [|done|done].
  pose proof (aitem_shrinks _ _ _ _ _ _ Ha). pose proof (aitem_frame _ _ _ _ _ Ha I) as [Hf Hi1].
  assert (r_ridx c <> 0 -> is_Some (r_reply c)) as Hr by (intros ?; apply Hroot; lia).
  pose proof (aitem_reply _ _ _ _ _ Hr Ha) as Hrep.
  apply run_spec in H as [(_ & _ & _ & ?) _]; [lia|by eapply same_frame_wf| |done].
  by apply Hi1, live_ridx_ok.
Qed.

Lemma run_nil c w : live c -> run c [] w = Ok (AMore c [], w).
Proof.
  intros Hl. rewrite run_eq. rewrite (proj2 (Z.leb_le _ _)) by (destruct Hl; lia).
  by rewrite (bind_ok _ _ _ _ _ (waiting_nil c w Hl)).
Qed.

(** A waiting state has nothing left to do. *)
Lemma run_settled c d w c' d' w' :
  run c d w = Ok (AMore c' d', w') -> run c' d' w' = Ok (AMore c' d', w').
Proof.
  intros H. pose proof (run_app c d [] w) as Happ. rewrite app_nil_r, (bind_ok _ _ _ _ _ H), H in Happ.
  cbn [resume] in Happ. by rewrite app_nil_r in Happ.
Qed.

(** ** The loop of the code *)

Lemma items_loop_implements b pos c w fuel :
  sds_wf b -> 0 <= pos <= sh_len b -> core_wf c ->
  (length (drop (Z.to_nat pos) (sds_str b)) < fuel)%nat ->
  match run c (drop (Z.to_nat pos) (sds_str b)) w with
  | Fault f => items_loop fuel (at_buf b pos c) w = Fault f
  | Ok (AItem c' d', w') | Ok (AMore c' d', w') =>
      exists pos', items_loop fuel (at_buf b pos c) w = Ok (at_buf b pos' c', w') /\
        0 <= pos' <= sh_len b /\ drop (Z.to_nat pos') (sds_str b) = d'
  | Ok (AError c', w') => items_loop fuel (at_buf b pos c) w = Ok (c', add_live (-1) w')
  end.
Proof.
  intros Hb. revert pos c w. induction fuel as [|f IH]; intros pos c w Hpos Hc Hf; [lia|].
  rewrite run_eq. cbn [items_loop]. change (r_ridx (at_buf b pos c)) with (r_ridx c).
  destruct (0 <=? r_ridx c).
  2: { exists pos. done. }
  pose proof (processItem_implements b pos c w Hb Hpos Hc) as Himpl.
  unfold implements in Himpl. unfold bind.
  destruct (aitem c _ w) as [[a1 w1]|] eqn:Ha; [|by rewrite Himpl].
  destruct a1 as [c1 d1|c1 d1|c1].
  - destruct Himpl as (pos1 & -> & Hp1 & Hd1). change (negb (REDIS_OK =? REDIS_OK)) with false. cbn iota.
    pose proof (aitem_shrinks _ _ _ _ _ _ Ha). pose proof (aitem_frame _ _ _ _ _ Ha I) as [Hf1 _].
    rewrite <- Hd1. apply IH; [done|by eapply same_frame_wf|]. rewrite Hd1. lia.
  - destruct Himpl as (pos1 & -> & Hp1 & Hd1). by exists pos1.
  - by rewrite Himpl.
Qed.

(** * The public operations *)

(** The reader [r] is in the abstract state [c] with the bytes [d] pending, in
    a buffer of at most [n] bytes. *)
Definition holds (n : Z) (r c : redisReader) (d : list char) : Prop :=
  exists b pos c0, r = at_buf b pos c0 /\ start c0 = c /\ core_wf c0 /\ live c /\
    sds_wf b /\ 0 <= pos <= sh_len b /\ drop (Z.to_nat pos) (sds_str b) = d /\ sh_len b <= n.

Lemma start_live c : live c -> start c = c.
Proof. intros [_ Hi _ _]. unfold start. by bfalse (r_ridx c =? -1). Qed.

Lemma live_start c : core_wf c -> r_ridx c = -1 -> (0 < length (r_rstack c))%nat -> live (start c).
Proof.
  intros Hc Hi Hl. unfold start. rewrite Hi. cbn [Z.eqb Pos.eqb]. split.
  - eapply same_frame_wf; [|done]. etrans; [|apply same_frame_set_ridx]. apply same_frame_put_task.
  - cbn. rewrite length_insert. lia.
  - cbn. lia.
  - eexists. cbn. rewrite list_lookup_insert_eq by done. split; [done|]. left. cbn. lia.
Qed.

Lemma range_spec_drop str pos :
  (pos <= length str)%nat -> range_spec str (Z.of_nat pos) (-1) = drop pos str.
Proof.
  intros Hp. unfold range_spec. bfalse (Z.of_nat pos <? 0). cbn [Z.ltb Z.compare].
  rewrite Nat2Z.id. apply take_ge. rewrite length_drop. lia.
Qed.

(** "Discard part of the buffer": the pending bytes stay. *)
Lemma discard_ok b pos c w :
  sds_wf b -> 0 <= pos <= sh_len b ->
  exists b' pos',
    (if 1024 <=? r_pos (at_buf b pos c) then
       let* b := deref (r_buf (at_buf b pos c)) in
       let* b := sdsrange b (int (r_pos (at_buf b pos c))) (-1) in
       ret (set_buf (Some b) 0 (sdslen b) (at_buf b pos c))
     else ret (at_buf b pos c)) w = Ok (at_buf b' pos' c, w) /\
    sds_wf b' /\ 0 <= pos' <= sh_len b' /\
    drop (Z.to_nat pos') (sds_str b') = drop (Z.to_nat pos) (sds_str b) /\ sh_len b' <= sh_len b.
Proof.
  intros Hb Hp. cbn [r_pos r_buf at_buf set_buf].
  destruct (1024 <=? pos); [|by exists b, pos].
  pose proof (wf_max _ Hb). pose proof (wf_free _ Hb). pose proof (length_sds_str b Hb).
  destruct (sdsrange_ok b pos (-1) w Hb) as (b' & E & Hb' & Hs & Hlf); [climits..|].
  exists b', 0. split_and!; [|done|lia| |  |].
  - unfold deref. rewrite (bind_ok (ret b) _ w b w) by done. rewrite int_id by climits.
    rewrite (bind_ok _ _ _ _ _ E), sdslen_wf by done. done.
  - apply Hb'.
  - rewrite Hs. replace pos with (Z.of_nat (Z.to_nat pos)) at 1 by lia. by rewrite range_spec_drop by lia.
  - rewrite <- (length_sds_str b' Hb'), Hs. replace pos with (Z.of_nat (Z.to_nat pos)) by lia.
    rewrite range_spec_drop, length_drop by lia. lia.
Qed.

(** What [redisReaderGetReply] does when the machine does [a]. *)
Definition get_reply_post (n : Z) (a : outcome (astep * world))
    (p : outcome (Z * option objptr * redisReader * world)) : Prop :=
  match a with
  | Fault f => p = Fault f
  | Ok (AItem c d, w) =>
      exists r, p = Ok (REDIS_OK, r_reply c, r, w) /\ holds n r (start (set_reply None c)) d
  | Ok (AMore c d, w) => exists r, p = Ok (REDIS_OK, None, r, w) /\ holds n r c d
  | Ok (AError c, w) => p = Ok (REDIS_ERR, None, c, add_live (-1) w)
  end.

Lemma redisReaderGetReply_post n r c d w :
  holds n r c d -> get_reply_post n (run c d w) (redisReaderGetReply r w).
Proof.
  intros (b & pos & c0 & -> & Hst & Hc0 & Hl & Hb & Hpos & Hd & Hn).
  unfold redisReaderGetReply. change (r_err (at_buf b pos c0)) with (r_err c0).
  rewrite (cw_err _ Hc0). change (negb (0 =? 0)) with false. cbn iota.
  change (r_len (at_buf b pos c0)) with (sh_len b).
  destruct (Z.eqb_spec (sh_len b) 0) as [Hz|Hz].
  { assert (d = []) as ->.
    { rewrite <- Hd. apply nil_length_inv. rewrite length_drop.
      pose proof (length_sds_str b Hb). lia. }
    rewrite run_nil by done. exists (at_buf b pos c0). split; [done|]. exists b, pos, c0. done. }
  assert ((if r_ridx (at_buf b pos c0) =? -1
           then set_ridx 0 (put_task 0 (mkTask (-1) (-1) (-1) None None (r_privdata (at_buf b pos c0)))
                              (at_buf b pos c0))
           else at_buf b pos c0) = at_buf b pos c) as ->.
  { rewrite <- Hst. unfold start. change (r_ridx (at_buf b pos c0)) with (r_ridx c0).
    by destruct (r_ridx c0 =? -1). }
  cbn zeta. change (r_len (at_buf b pos c)) with (sh_len b). change (r_pos (at_buf b pos c)) with pos.
  pose proof (pending_length b pos Hb Hpos d Hd).
  pose proof (items_loop_implements b pos c w (S (S (Z.to_nat (sh_len b - pos)))) Hb Hpos
    (lv_wf _ Hl) ltac:(rewrite Hd; lia)) as Hloop. rewrite Hd in Hloop.
  destruct (run c d w) as [[a w1]|f] eqn:Hrun; [|by unfold bind; rewrite Hloop].
  pose proof (run_live_spec _ _ _ _ _ Hrun Hl) as [Hpost _]. destruct a as [c1 d1|c1 d1|c1].
  - destruct Hloop as (pos1 & E & Hp1 & Hd1). destruct Hpost as (Hf & Hri & _ & _).
    pose proof (same_frame_wf _ _ Hf (lv_wf _ Hl)) as Hc1.
    rewrite (bind_ok _ _ _ _ _ E). change (r_err (at_buf b pos1 c1)) with (r_err c1).
    rewrite (cw_err _ Hc1). change (negb (0 =? 0)) with false. cbn iota.
    destruct (discard_ok b pos1 c1 w1 Hb Hp1) as (b2 & pos2 & E2 & Hb2 & Hp2 & Hd2 & Hl2).
    rewrite (bind_ok _ _ _ _ _ E2). change (r_ridx (at_buf b2 pos2 c1)) with (r_ridx c1).
    rewrite Hri. change (-1 =? -1) with true. cbn iota.
    exists (set_reply None (at_buf b2 pos2 c1)). split; [done|].
    assert (core_wf (set_reply None c1)) as Hc2 by (eapply same_frame_wf; [|done]; auto with frame).
    exists b2, pos2, (set_reply None c1). split_and!; try done.
    + apply live_start; [done|done|]. cbn. destruct Hf as (?&?&?&?&?&?&?&->).
      destruct Hl as [_ [? ?] _ _]. lia.
    + lia.
    + lia.
    + by rewrite Hd2.
    + lia.
  - destruct Hloop as (pos1 & E & Hp1 & Hd1). destruct Hpost as (Hf & Hl1 & _).
    rewrite (bind_ok _ _ _ _ _ E). change (r_err (at_buf b pos1 c1)) with (r_err c1).
    rewrite (cw_err _ (lv_wf _ Hl1)). change (negb (0 =? 0)) with false. cbn iota.
    destruct (discard_ok b pos1 c1 w1 Hb Hp1) as (b2 & pos2 & E2 & Hb2 & Hp2 & Hd2 & Hl2).
    rewrite (bind_ok _ _ _ _ _ E2). change (r_ridx (at_buf b2 pos2 c1)) with (r_ridx c1).
    pose proof (lv_ridx _ Hl1). bfalse (r_ridx c1 =? -1). eexists. split; [done|].
    exists b2, pos2, c1. split_and!; try done; try lia; [by apply start_live|apply Hl1|congruence].
  - rewrite (bind_ok _ _ _ _ _ Hloop). pose proof (dead_err _ Hpost).
    rewrite (proj2 (Z.eqb_neq _ _)) by done. done.
Qed.

(** A reader that has given a reply keeps less than 1024 consumed bytes. *)
Lemma redisReaderGetReply_pos r w st o r' w' :
  redisReaderGetReply r w = Ok (st, Some o, r', w') -> r_pos r' < 1024.
Proof.
  unfold redisReaderGetReply. destruct (negb _); [done|]. destruct (r_len r =? 0); [done|]. cbv zeta. intros E.
  apply bind_inv in E as (r1 & w1 & _ & E). destruct (negb _); [done|].
  apply bind_inv in E as (r2 & w2 & E2 & E).
  assert (r_pos r2 < 1024) as Hp.
  { destruct (Z.leb_spec 1024 (r_pos r1)); [|by injection E2 as <- _].
    apply bind_inv in E2 as (b1 & w3 & _ & E2). apply bind_inv in E2 as (b2 & w4 & _ & E2).
    injection E2 as <- _. cbn. lia. }
  destruct (r_ridx r2 =? -1); [|done]. by injection E as _ _ <- _.
Qed.

Lemma holds_mono n m r c d : n <= m -> holds n r c d -> holds m r c d.
Proof. intros Hn (b & pos & c0 & ?). exists b, pos, c0. naive_solver lia. Qed.

(** Nothing but consumed bytes. *)
Lemma holds_consumed n r c m : holds n r c [] -> r_pos r <= m -> holds m r c [].
Proof.
  intros (b & pos & c0 & -> & Hst & Hc0 & Hl & Hb & Hpos & Hd & Hn) Hm. exists b, pos, c0.
  split_and!; try (done || lia). cbn in Hm. apply (f_equal length) in Hd. rewrite length_drop in Hd. cbn in Hd.
  pose proof (length_sds_str b Hb). lia.
Qed.

(** An empty buffer with a large block is exchanged for a small one. *)
Lemma sdsempty_no_oom w :
  no_oom w -> exists b, sdsempty w = Ok (Some b, add_live 1 w) /\ sds_wf b /\ sds_str b = [].
Proof.
  intros Hw. destruct (allocs_no_oom (sdsnewlen (Some [NUL]) 0) w 1
    (fun s => sds_wf s /\ sh_free s = 0 /\ sds_str s = [])) as (b & E & Hb & _ & Hs); [|done|by exists b].
  apply sdsnewlen_allocs; cbn; climits.
Qed.

Lemma redisReaderFeed_holds n r c d data w :
  holds n r c d -> no_oom w -> 2 * (n + zlen data) <= INT_MAX ->
  exists r', redisReaderFeed r (Some data) (zlen data) w = Ok (REDIS_OK, r', w) /\
    holds (n + zlen data) r' c (d ++ data).
Proof.
  intros (b & pos & c0 & -> & Hst & Hc0 & Hl & Hb & Hpos & Hd & Hn) Hw Hmax.
  unfold redisReaderFeed. change (r_err (at_buf b pos c0)) with (r_err c0).
  rewrite (cw_err _ Hc0). change (negb (0 =? 0)) with false. cbn iota.
  destruct (Z.leb_spec 1 (zlen data)) as [H1|H1].
  2: { destruct data; [|cbn in H1; lia]. rewrite app_nil_r. eexists. split; [done|].
       exists b, pos, c0. split_and!; try done; cbn; lia. }
  change (r_buf (at_buf b pos c0)) with (Some b). unfold deref at 1.
  rewrite (bind_ok (ret b) _ w b w) by done.
  assert (exists b1 pos1,
    (if (r_len (at_buf b pos c0) =? 0) && (16 * 1024 <? sdsavail b) then
       let* _ := sdsfree (Some b) in
       let* nb := sdsempty in
       let* _ := assert_ (match nb with Some _ => true | None => false end) in
       ret (set_buf nb 0 (r_len (at_buf b pos c0)) (at_buf b pos c0))
     else ret (at_buf b pos c0)) w = Ok (at_buf b1 pos1 c0, w) /\
    sds_wf b1 /\ 0 <= pos1 <= sh_len b1 /\ drop (Z.to_nat pos1) (sds_str b1) = d /\ sh_len b1 <= n)
    as (b1 & pos1 & E1 & Hb1 & Hp1 & Hd1 & Hn1).
  { destruct (_ && _) eqn:Ec; [|by exists b, pos].
    change (r_len (at_buf b pos c0)) with (sh_len b) in *.
    destruct (sdsempty_no_oom (add_live (-1) w)) as (nb & E & Hnb & Hs); [done|].
    exists nb, 0. pose proof (length_sds_str nb Hnb) as Hlen. rewrite Hs in Hlen. cbn in Hlen.
    split_and!; [|done|lia|lia| |lia].
    - rewrite (bind_ok (sdsfree _) _ w tt (add_live (-1) w)) by done.
      rewrite (bind_ok _ _ _ _ _ E). rewrite add_live_add.
      change (-1 + 1) with 0. rewrite add_live_0. unfold bind, assert_, ret, at_buf.
      replace (sh_len b) with (sh_len nb) by lia. done.
    - rewrite Hs, drop_nil, <- Hd. symmetry. apply nil_length_inv. rewrite length_drop.
      pose proof (length_sds_str b Hb). lia. }
  rewrite (bind_ok _ _ _ _ _ E1). change (r_buf (at_buf b1 pos1 c0)) with (Some b1). unfold deref.
  rewrite (bind_ok (ret b1) _ w b1 w) by done.
  destruct (allocs_no_oom _ w 0 _ (sdscatlen_all_allocs b1 data w Hb1 ltac:(right; lia)) Hw)
    as (b2 & E2 & Hb2 & Hs2).
  rewrite (bind_ok _ _ _ _ _ E2), add_live_0. eexists. split; [done|].
  pose proof (length_sds_str b1 Hb1). pose proof (length_sds_str b2 Hb2) as Hl2.
  rewrite Hs2, length_app in Hl2.
  exists b2, pos1, c0. rewrite sdslen_wf by done. split_and!; try done; try lia.
  rewrite Hs2, drop_app_le by lia. by rewrite Hd1.
Qed.

(** ** A client of the reader *)

(** Fetch replies until there is none, or an error. *)
Fixpoint drain (fuel : nat) (r : redisReader) : M (list objptr * Z * redisReader) :=
  match fuel with
  | O => crash OutOfFuel
  | S f =>
      let* (st, reply, r) := redisReaderGetReply r in
      match reply with
      | Some o =>
          let* (os, st, r) := drain f r in
          ret (o :: os, st, r)
      | None => ret ([], st, r)
      end
  end.

(** Feed the pieces of a stream one by one, fetching the replies after each. *)
Fixpoint feed_all (r : redisReader) (chunks : list (list char)) : M (list objptr * Z * redisReader) :=
  match chunks with
  | [] => ret ([], REDIS_OK, r)
  | d :: ds =>
      let* (st, r) := redisReaderFeed r (Some d) (zlen d) in
      if negb (st =? REDIS_OK) then ret ([], st, r)
      else
        let* (os, st, r) := drain (S (Z.to_nat (r_len r))) r in
        if negb (st =? REDIS_OK) then ret (os, st, r)
        else
          let* (os', st, r) := feed_all r ds in
          ret (os ++ os', st, r)
  end.

(** The same on pending bytes. *)
Inductive aend :=
| EMore (c : redisReader) (d : list char)
| EError (c : redisReader).

Fixpoint adrain_f (fuel : nat) (c : redisReader) (d : list char) : M (list objptr * aend) :=
  match fuel with
  | O => crash OutOfFuel
  | S f =>
      let* a := run c d in
      match a with
      | AItem c' d' =>
          let* o := deref (r_reply c') in
          let* (os, e) := adrain_f f (start (set_reply None c')) d' in
          ret (o :: os, e)
      | AMore c' d' => ret ([], EMore c' d')
      | AError c' => ret ([], EError c')
      end
  end.

Definition adrain (c : redisReader) (d : list char) : M (list objptr * aend) :=
  adrain_f (S (length d)) c d.

Lemma run_item_next c d w c' d' w' :
  run c d w = Ok (AItem c' d', w') -> live c ->
  live (start (set_reply None c')) /\ is_Some (r_reply c') /\ (length d' < length d)%nat.
Proof.
  intros Hrun Hl. pose proof (run_item_shrinks _ _ _ _ _ _ Hrun Hl).
  apply run_live_spec in Hrun as [(Hf & Hri & Hrep & _) _]; [|done]. split_and!; [|done|done].
  apply live_start; [|done|].
  - eapply same_frame_wf; [|apply (lv_wf _ Hl)]. etrans; [done|]. auto with frame.
  - destruct Hf as (?&?&?&?&?&?&?&Hlen). cbn. rewrite Hlen. destruct Hl as [_ [? ?] _ _]. lia.
Qed.

Lemma adrain_fuel f1 f2 c d w :
  live c -> (length d < f1)%nat -> (length d < f2)%nat -> adrain_f f1 c d w = adrain_f f2 c d w.
Proof.
  revert f2 c d w. induction f1 as [|f1 IH]; intros f2 c d w Hl H1 H2; [lia|].
  destruct f2 as [|f2]; [lia|]. cbn [adrain_f]. apply bind_ext. intros a w' Ha.
  destruct a as [c' d'| |]; [|done|done]. pose proof (run_item_next _ _ _ _ _ _ Ha Hl) as (? & _ & ?).
  apply bind_ext. intros o w2 _. apply bind_first, IH; [done|lia|lia].
Qed.

Lemma adrain_eq c d w :
  live c ->
  adrain c d w =
    (let* a := run c d in
     match a with
     | AItem c' d' =>
         let* o := deref (r_reply c') in
         let* (os, e) := adrain (start (set_reply None c')) d' in
         ret (o :: os, e)
     | AMore c' d' => ret ([], EMore c' d')
     | AError c' => ret ([], EError c')
     end) w.
Proof.
  intros Hl. unfold adrain at 1. cbn [adrain_f]. apply bind_ext. intros a w' Ha.
  destruct a as [c' d'| |]; [|done|done]. pose proof (run_item_next _ _ _ _ _ _ Ha Hl) as (? & _ & ?).
  apply bind_ext. intros o w2 _. apply bind_first, adrain_fuel; [done|lia|lia].
Qed.

(** Draining commutes with appending bytes. *)
Lemma adrain_app c d e w :
  live c ->
  adrain c (d ++ e) w =
    (let* (os, en) := adrain c d in
     match en with
     | EMore c' d' => let* (os', en') := adrain c' (d' ++ e) in ret (os ++ os', en')
     | EError c' => ret (os, EError c')
     end) w.
Proof.
  remember (length d) as n eqn:Hn. revert c d w Hn.
  induction n as [n IH] using lt_wf_ind; intros c d w Hn Hl.
  rewrite (adrain_eq c (d ++ e)), (bind_first _ _ _ _ (adrain_eq c d w Hl)) by done.
  rewrite (bind_first _ _ _ _ (run_app c d e w)), !bind_assoc. apply bind_ext.
  intros a w' Ha. destruct a as [c' d'|c' d'|c'].
  - pose proof (run_item_next _ _ _ _ _ _ Ha Hl) as (Hl' & [o Ho] & Hlt).
    rewrite (bind_ok (resume run e (AItem c' d')) _ w' _ w') by done. rewrite !Ho.
    rewrite bind_assoc, !(bind_ok (deref (Some o)) _ w' o w') by done.
    rewrite (bind_first _ _ _ _ (IH (length d') ltac:(lia) _ _ w' eq_refl Hl')), !bind_assoc.
    apply bind_ext. intros [os en] w2 _. rewrite (bind_ok (ret _) _ w2 _ w2) by done.
    destruct en as [c2 d2|c2]; [|done]. rewrite bind_assoc. by apply bind_ext; intros [] ? _.
  - rewrite (bind_ok (ret _) _ w' _ w') by done. cbn [resume].
    apply run_live_spec in Ha as [(_ & Hl' & _) _]; [|done].
    rewrite <- (adrain_eq c' (d' ++ e) w' Hl'). cbn [app]. unfold bind, ret.
    by destruct (adrain c' (d' ++ e) w') as [[[os en] w2]|].
  - done.
Qed.

(** Nothing to deliver in the state [c] with [d] pending. *)
Definition settled (c : redisReader) (d : list char) (w : world) : Prop :=
  run c d w = Ok (AMore c d, w).

Lemma settled_adrain c d w : live c -> settled c d w -> adrain c d w = Ok ([], EMore c d, w).
Proof. intros Hl Hs. rewrite adrain_eq by done. by rewrite (bind_ok _ _ _ _ _ Hs). Qed.

(** What [drain] and [feed_all] do when the machine ends in [a]. *)
Definition drain_post (n : Z) (a : outcome (list objptr * aend * world))
    (p : outcome (list objptr * Z * redisReader * world)) : Prop :=
  match a with
  | Fault f => p = Fault f
  | Ok (os, EMore c d, w) =>
      exists r, p = Ok (os, REDIS_OK, r, w) /\ holds n r c d /\ settled c d w /\ no_oom w
  | Ok (os, EError c, w) => p = Ok (os, REDIS_ERR, c, add_live (-1) w) /\ dead c
  end.

Lemma holds_live n r c d : holds n r c d -> live c.
Proof. by intros (b & pos & c0 & -> & _ & _ & Hl & _). Qed.

Lemma drain_implements fuel n r c d w :
  holds n r c d -> no_oom w -> (length d < fuel)%nat -> drain_post n (adrain c d w) (drain fuel r w).
Proof.
  revert r c d w. induction fuel as [|f IH]; intros r c d w Hh Hw Hf; [lia|].
  pose proof (holds_live _ _ _ _ Hh) as Hl.
  rewrite adrain_eq by done. cbn [drain]. pose proof (redisReaderGetReply_post n r c d w Hh) as Hg.
  destruct (run c d w) as [[a w1]|] eqn:Hrun; [|unfold bind; by rewrite Hrun, Hg].
  rewrite (bind_ok _ _ _ _ _ Hrun). pose proof (run_live_spec _ _ _ _ _ Hrun Hl) as [Hpost Hk].
  destruct a as [c1 d1|c1 d1|c1].
  - pose proof (run_item_next _ _ _ _ _ _ Hrun Hl) as (Hl' & [o Ho] & Hlt).
    destruct Hg as (r1 & E & Hh1). rewrite (bind_ok _ _ _ _ _ E). cbn beta iota. rewrite Ho.
    rewrite (bind_ok (deref (Some o)) _ w1 o w1) by done.
    specialize (IH r1 _ d1 w1 Hh1 (Hk Hw) ltac:(lia)). unfold bind.
    destruct (adrain _ d1 w1) as [[[os en] w2]|]; cbn [drain_post] in IH.
    + destruct en as [c2 d2|c2].
      * destruct IH as (r2 & -> & Hrest). by exists r2.
      * destruct IH as [-> Hd]. done.
    + by rewrite IH.
  - destruct Hg as (r1 & E & Hh1). rewrite (bind_ok _ _ _ _ _ E). exists r1. split_and!; try done; auto.
    by eapply run_settled.
  - by rewrite (bind_ok _ _ _ _ _ Hg).
Qed.

Lemma holds_pending n r c d : holds n r c d -> zlen d <= r_len r.
Proof.
  intros (b & pos & c0 & -> & _ & _ & _ & Hb & Hpos & <- & _). cbn.
  pose proof (length_sds_str b Hb). rewrite length_drop. lia.
Qed.

(** Feeding the pieces and draining is draining their concatenation. *)
Lemma feed_all_implements chunks n r c d w :
  holds n r c d -> no_oom w -> settled c d w -> 2 * (n + zlen (concat chunks)) <= INT_MAX ->
  drain_post (n + zlen (concat chunks)) (adrain c (d ++ concat chunks) w) (feed_all r chunks w).
Proof.
  revert n r c d w. induction chunks as [|x chunks IH]; intros n r c d w Hh Hw Hs Hmax.
  - pose proof (holds_live _ _ _ _ Hh) as Hl. cbn [concat feed_all]. rewrite app_nil_r, settled_adrain by done.
    exists r. cbn [length]. change (Z.of_nat 0) with 0. by rewrite Z.add_0_r.
  - cbn [concat feed_all] in *. rewrite length_app in *.
    destruct (redisReaderFeed_holds n r c d x w Hh Hw ltac:(lia)) as (r1 & E & Hh1).
    rewrite (bind_ok _ _ _ _ _ E). change (negb (REDIS_OK =? REDIS_OK)) with false. cbn iota.
    pose proof (holds_live _ _ _ _ Hh) as Hl. pose proof (holds_pending _ _ _ _ Hh1).
    rewrite app_assoc, adrain_app by done.
    pose proof (drain_implements (S (Z.to_nat (r_len r1))) _ r1 c (d ++ x) w Hh1 Hw ltac:(lia)) as Hd.
    unfold bind at 1 3. destruct (adrain c (d ++ x) w) as [[[os en] w1]|]; cbn [drain_post] in Hd.
    2: by rewrite Hd.
    destruct en as [c1 d1|c1].
    + destruct Hd as (r2 & -> & Hh2 & Hs2 & Hw2). change (negb (REDIS_OK =? REDIS_OK)) with false. cbn iota.
      specialize (IH _ r2 c1 d1 w1 Hh2 Hw2 Hs2 ltac:(lia)). unfold bind.
      replace (n + (zlen x + zlen (concat chunks))) with (n + zlen x + zlen (concat chunks)) in * by lia.
      rewrite Nat2Z.inj_add, Z.add_assoc.
      destruct (adrain c1 (d1 ++ concat chunks) w1) as [[[os2 en2] w2]|]; cbn [drain_post] in IH.
      * destruct en2 as [c3 d3|c3].
        -- destruct IH as (r3 & -> & Hrest). by exists r3.
        -- destruct IH as [-> Hd]. done.
      * by rewrite IH.
    + destruct Hd as [-> Hdead]. done.
Qed.
