(* ===== verification/ReplyTree.v ===== *)
(** Replies as values: the wire encoding of a reply, the objects that stand
    for it in the store, and the theorem that the reader turns the first into
    the second, and [freeReplyObject] the second into nothing. *)

From S2P Require Import Prelude Machine Printf Sds Reply Reader ReaderSpec ReaderStream.
From stdpp Require Import base tactics list numbers strings gmap.

Local Open Scope Z_scope.

(** * Values and their encoding *)

Inductive value :=
| VStatus (s : list char)
| VError (s : list char)
| VInteger (z : Z)
| VBulk (s : list char)
| VNilBulk
| VNilArray
| VArray (vs : list value).

Fixpoint encode (v : value) : list char :=
  match v with
  | VStatus s => 43 :: s ++ CRLF
  | VError s => 45 :: s ++ CRLF
  | VInteger z => 58 :: dec_signed z ++ CRLF
  | VBulk s => 36 :: dec_signed (zlen s) ++ CRLF ++ s ++ CRLF
  | VNilBulk => 36 :: dec_signed (-1) ++ CRLF
  | VNilArray => 42 :: dec_signed (-1) ++ CRLF
  | VArray vs => 42 :: dec_signed (zlen vs) ++ CRLF ++ concat (encode <$> vs)
  end.

(** What the reader accepts: lines without CR LF, numbers [readLongLong] can
    read, and arrays nested at most [depth] deep. *)
Definition scalar_ok (v : value) : Prop :=
  match v with
  | VStatus s | VError s => find_crlf s = None
  | VInteger z => LLONG_MIN < z <= LLONG_MAX
  | _ => True
  end.

Fixpoint value_ok (depth : nat) (v : value) : Prop :=
  scalar_ok v /\
  match v, depth with
  | VNilArray, O | VArray _, O => False
  | VArray vs, S d => Forall (value_ok d) vs
  | _, _ => True
  end.

(** * The objects of a value *)

Fixpoint objects (v : value) : nat :=
  match v with VArray vs => S (sum_list (objects <$> vs)) | _ => 1 end.

(** The blocks behind them: the object, its string or its vector. *)
Fixpoint blocks (v : value) : Z :=
  match v with
  | VStatus _ | VError _ | VBulk _ => 2
  | VInteger _ | VNilBulk | VNilArray => 1
  | VArray [] => 1
  | VArray vs => 2 + foldr Z.add 0 (blocks <$> vs)
  end.

(** The addresses of consecutive values from [l] on. *)
Fixpoint locs (l : loc) (vs : list value) : list loc :=
  match vs with [] => [] | v :: vs => l :: locs (l + objects v) vs end.

Definition str_obj (type : Z) (s : list char) : redisReply :=
  mkReply type 0 (zlen s) (Some (s ++ [NUL])) 0 None.
Definition arr_obj (n : Z) (v : list (option loc)) : redisReply :=
  mkReply REDIS_REPLY_ARRAY 0 0 None n (Some v).

Section layouts.
Variable layout : loc -> value -> list redisReply.
Fixpoint layouts (l : loc) (vs : list value) : list redisReply :=
  match vs with [] => [] | v :: vs => layout l v ++ layouts (l + objects v) vs end.
End layouts.

(** The objects from address [l] on, in the order of their creation. *)
Fixpoint layout (l : loc) (v : value) : list redisReply :=
  match v with
  | VStatus s => [str_obj REDIS_REPLY_STATUS s]
  | VError s => [str_obj REDIS_REPLY_ERROR s]
  | VInteger z => [mkReply REDIS_REPLY_INTEGER z 0 None 0 None]
  | VBulk s => [str_obj REDIS_REPLY_STRING s]
  | VNilBulk | VNilArray => [mkReply REDIS_REPLY_NIL 0 0 None 0 None]
  | VArray [] => [mkReply REDIS_REPLY_ARRAY 0 0 None 0 None]
  | VArray vs => arr_obj (zlen vs) (Some <$> locs (S l) vs) :: layouts layout (S l) vs
  end.

Lemma length_locs l vs : length (locs l vs) = length vs.
Proof. revert l. induction vs as [|v vs IH]; intros l; cbn; auto. Qed.

(** * Lexing an encoded item *)

Lemma find_crlf_no_cr s : Forall (fun c => c <> CR) s -> find_crlf s = None.
Proof. induction 1 as [|c s Hc _ IH]; cbn; [done|]. bfalse (c =? CR). cbn. by rewrite IH. Qed.

Lemma dec_signed_no_cr z : Forall (fun c => c <> CR) (dec_signed z).
Proof.
  unfold dec_signed. destruct (Z.ltb_spec z 0); [constructor; [done|]|].
  - eapply Forall_impl; [apply dec_isdigit; lia|]. unfold CR. cbn. lia.
  - eapply Forall_impl; [apply dec_isdigit; lia|]. unfold CR. cbn. lia.
Qed.

Lemma take_drop_line s rest :
  take (length s) (s ++ CRLF ++ rest) = s /\ drop (length s + 2) (s ++ CRLF ++ rest) = rest.
Proof.
  split; [apply take_app_length|]. rewrite app_assoc.
  replace (length s + 2)%nat with (length (s ++ CRLF)) by (rewrite length_app; done).
  apply drop_app_length.
Qed.

Lemma lex_line t s rest :
  t = REDIS_REPLY_STATUS \/ t = REDIS_REPLY_ERROR -> find_crlf s = None ->
  lex t (s ++ CRLF ++ rest) = Ok (Some (TkStr s, rest)).
Proof.
  intros Ht Hs. unfold lex. rewrite find_crlf_line by done.
  destruct (take_drop_line s rest) as [-> ->]. by destruct Ht as [->| ->].
Qed.

Lemma lex_number z rest :
  LLONG_MIN < z <= LLONG_MAX ->
  find_crlf (dec_signed z ++ CRLF ++ rest) = Some (length (dec_signed z)) /\
  readLongLong (dec_signed z ++ CRLF ++ rest) = Ok z /\
  drop (length (dec_signed z) + 2) (dec_signed z ++ CRLF ++ rest) = rest.
Proof.
  intros Hz. split_and!; [apply find_crlf_line, find_crlf_no_cr, dec_signed_no_cr| |].
  - by apply readLongLong_dec.
  - apply take_drop_line.
Qed.

Lemma lex_integer z rest :
  LLONG_MIN < z <= LLONG_MAX ->
  lex REDIS_REPLY_INTEGER (dec_signed z ++ CRLF ++ rest) = Ok (Some (TkInt z, rest)).
Proof. intros Hz. destruct (lex_number z rest Hz) as (E1 & E2 & E3). unfold lex. by rewrite E1, E2, E3. Qed.

Lemma lex_array z rest :
  LLONG_MIN < z <= LLONG_MAX ->
  lex REDIS_REPLY_ARRAY (dec_signed z ++ CRLF ++ rest) =
    Ok (Some (if z =? -1 then TkNil else TkArr z, rest)).
Proof. intros Hz. destruct (lex_number z rest Hz) as (E1 & E2 & E3). unfold lex. by rewrite E1, E2, E3. Qed.

Lemma lex_nil_bulk rest :
  lex REDIS_REPLY_STRING (dec_signed (-1) ++ CRLF ++ rest) = Ok (Some (TkNil, rest)).
Proof. destruct (lex_number (-1) rest ltac:(climits)) as (E1 & E2 & E3). unfold lex. by rewrite E1, E2, E3. Qed.

Lemma lex_bulk s rest :
  zlen s <= INT_MAX ->
  lex REDIS_REPLY_STRING (dec_signed (zlen s) ++ CRLF ++ s ++ CRLF ++ rest) = Ok (Some (TkStr s, rest)).
Proof.
  intros Hs. destruct (lex_number (zlen s) (s ++ CRLF ++ rest) ltac:(climits)) as (E1 & E2 & E3).
  unfold lex. rewrite E1, E2, E3. cbn [Z.eqb Pos.eqb REDIS_REPLY_STRING REDIS_REPLY_INTEGER].
  bfalse (zlen s <? 0). rewrite llong_ok_eq by climits.
  rewrite (proj2 (Z.leb_le _ _)) by (rewrite !length_app; cbn; lia).
  rewrite Nat2Z.id. replace (Z.to_nat (zlen s + 2)) with (length s + 2)%nat by lia.
  by destruct (take_drop_line s rest) as [-> ->].
Qed.

(** * Creating the objects *)

(** The array the new object goes into: its address, its length and vector. *)
Definition parent : Type := option (loc * Z * list (option loc)).

Definition parent_ok (i : nat) (stk : list redisReadTask) (t : redisReadTask) (w : world)
    (par : parent) : Prop :=
  match par with
  | None => tk_parent t = None
  | Some (pl, n, vec) =>
      exists p pt, tk_parent t = Some p /\ stk !! p = Some pt /\ tk_obj pt = Some (Obj pl) /\
        w_objs w !! pl = Some (arr_obj n vec) /\ 0 <= tk_idx t < zlen vec /\ (pl < w_next w)%nat /\ (p < i)%nat
  end.

(** The store once the parent points to [l]. *)
Definition linked (par : parent) (idx : Z) (l : loc) (h : gmap loc redisReply) : gmap loc redisReply :=
  match par with
  | None => h
  | Some (pl, n, vec) => <[pl := arr_obj n (<[Z.to_nat idx := Some l]> vec)]> h
  end.

(** The state after the objects [rs] have been created in [w], [nb] blocks
    having been allocated, and the first of them attached to the parent. *)
Definition built (par : parent) (idx : Z) (rs : list redisReply) (nb : Z) (w : world) : world :=
  set_next (w_next w + length rs)
    (add_live nb (set_objs (map_seq (w_next w) rs ∪ linked par idx (w_next w) (w_objs w)) w)).

Lemma attach_ok i stk t l w par r0 :
  parent_ok i stk t w par ->
  let h := w_objs w in
  forall w', w_objs w' = <[w_next w := r0]> h ->
  attach stk t l w' =
    Ok (tt, set_objs (<[w_next w := r0]> (linked par (tk_idx t) l h)) w').
Proof.
  intros Hp h w' Hh. unfold attach. destruct par as [[[pl n] vec]|]; cbn in Hp |- *.
  2: { rewrite Hp. unfold ret. do 2 f_equal. rewrite <- Hh. by destruct w'. }
  destruct Hp as (p & pt & -> & -> & -> & Hpl & Hidx & Hlt & _).
  assert (w_objs w' !! pl = Some (arr_obj n vec)) as E.
  { rewrite Hh, lookup_insert_ne by lia. done. }
  unfold bind, get_obj. rewrite E. cbn.
  rewrite (proj2 (andb_true_iff _ _)) by (split; lia).
  unfold put_obj, modify. rewrite Hh, insert_insert_ne by lia. done.
Qed.

Lemma createReplyObject_no_oom t w :
  no_oom w ->
  createReplyObject t w =
    Ok (Some (w_next w), set_next (S (w_next w))
      (add_live 1 (set_objs (<[w_next w := mkReply t 0 0 None 0 None]> (w_objs w)) w))).
Proof. intros Hw. unfold createReplyObject. by rewrite (bind_ok _ _ _ _ _ (alloc_block_no_oom w Hw)). Qed.

Lemma map_seq_singleton_union (l : loc) (r : redisReply) (h : gmap loc redisReply) :
  map_seq l [r] ∪ h = <[l := r]> h.
Proof. cbn. by rewrite <- insert_union_l, (left_id_L ∅ (∪)). Qed.

Lemma modify_0 w : modify (add_live 0) w = Ok (tt, w).
Proof. unfold modify. by rewrite add_live_0. Qed.

Section create.
Context (i : nat) (stk : list redisReadTask) (t : redisReadTask) (w : world) (par : parent).
Context (Hw : no_oom w) (Hp : parent_ok i stk t w par).

(** The common part: the object is created, filled and attached. *)
Lemma create_attach type r0 d :
  (let* r := createReplyObject type in
   match r with
   | None => ret None
   | Some l =>
       let* _ := modify (add_live d) in
       let* _ := put_obj l r0 in
       let* _ := attach stk t l in
       ret (Some (Obj l))
   end) w = Ok (Some (Obj (w_next w)), built par (tk_idx t) [r0] (1 + d) w).
Proof.
  rewrite (bind_ok _ _ _ _ _ (createReplyObject_no_oom type w Hw)). unfold modify, put_obj, bind. cbn.
  rewrite (attach_ok i stk t (w_next w) w par r0 Hp) by (cbn; by rewrite insert_insert_eq).
  unfold built. rewrite map_seq_singleton_union. unfold ret. do 2 f_equal.
  unfold set_objs, set_next, add_live. cbn. f_equal; lia.
Qed.

Lemma createIntegerObject_ok z :
  createIntegerObject stk t z w =
    Ok (Some (Obj (w_next w)),
        built par (tk_idx t) [mkReply REDIS_REPLY_INTEGER z 0 None 0 None] 1 w).
Proof.
  rewrite <- (create_attach REDIS_REPLY_INTEGER _ 0). unfold createIntegerObject.
  apply bind_ext. intros [l|] w' _; [|done]. by rewrite (bind_ok _ _ _ _ _ (modify_0 w')).
Qed.

Lemma createNilObject_ok :
  createNilObject stk t w =
    Ok (Some (Obj (w_next w)),
        built par (tk_idx t) [mkReply REDIS_REPLY_NIL 0 0 None 0 None] 1 w).
Proof.
  rewrite <- (create_attach REDIS_REPLY_NIL _ 0). unfold createNilObject.
  rewrite !(bind_ok _ _ _ _ _ (createReplyObject_no_oom _ w Hw)). set (w1 := set_next _ _).
  rewrite (bind_ok _ _ _ _ _ (modify_0 w1)). unfold put_obj.
  rewrite (bind_ok (modify _) _ w1 tt w1); [done|]. unfold modify. cbn. by rewrite insert_insert_eq.
Qed.

Lemma createStringObject_ok s :
  tk_type t = REDIS_REPLY_ERROR \/ tk_type t = REDIS_REPLY_STATUS \/ tk_type t = REDIS_REPLY_STRING ->
  zlen s <= INT_MAX ->
  createStringObject stk t s (zlen s) w =
    Ok (Some (Obj (w_next w)), built par (tk_idx t) [str_obj (tk_type t) s] 2 w).
Proof.
  intros Ht Hs. rewrite <- (create_attach (tk_type t) _ 1). unfold createStringObject.
  rewrite !(bind_ok _ _ _ _ _ (createReplyObject_no_oom _ w Hw)). set (w1 := set_next _ _).
  rewrite (bind_ok _ _ _ _ _ (malloc_no_oom _ w1 Hw)). rewrite size_t_id by climits.
  set (buf := junk_bytes _ _). assert (length buf = length s + 1)%nat as Hb.
  { unfold buf. rewrite length_junk_bytes. lia. }
  unfold assert_. rewrite (proj2 (orb_true_iff _ _)) by (rewrite orb_true_iff; lia).
  destruct (list_split_at (length s) buf) as (b1 & b2 & E & Hb1); [lia|].
  destruct (length_1_inv b2) as [x ->]; [rewrite E, length_app in Hb; lia|]. rewrite E.
  rewrite (bind_ok (ret tt) _ _ tt _) by done.
  assert (mem_read s 0 (zlen s) = Ok s) as Hr.
  { rewrite <- (app_nil_r s) at 1. by apply (mem_read_app []). }
  lift_step Hr. lift_step (mem_write_app [] b1 [x] s 0 eq_refl (eq_sym Hb1)). cbn [app].
  lift_step (mem_write_app s [x] [] [NUL] (zlen s) eq_refl eq_refl). rewrite app_nil_r.
  rewrite int_id by climits. done.
Qed.

Lemma createArrayObject_ok n :
  0 <= n <= INT_MAX ->
  createArrayObject stk t n w =
    Ok (Some (Obj (w_next w)),
        if 0 <? n then built par (tk_idx t) [arr_obj n (replicate (Z.to_nat n) None)] 2 w
        else built par (tk_idx t) [mkReply REDIS_REPLY_ARRAY 0 0 None n None] 1 w).
Proof.
  intros Hn. unfold createArrayObject. destruct (Z.ltb_spec 0 n).
  - rewrite <- (create_attach REDIS_REPLY_ARRAY _ 1).
    rewrite !(bind_ok _ _ _ _ _ (createReplyObject_no_oom _ w Hw)). set (w1 := set_next _ _).
    rewrite bind_assoc, (bind_ok _ _ _ _ _ (alloc_block_no_oom w1 Hw)). rewrite size_t_id by climits. done.
  - rewrite <- (create_attach REDIS_REPLY_ARRAY _ 0).
    rewrite !(bind_ok _ _ _ _ _ (createReplyObject_no_oom _ w Hw)). set (w1 := set_next _ _).
    rewrite !(bind_ok (ret _) _ w1 _ w1) by done. rewrite size_t_id by climits.
    by rewrite (bind_ok _ _ _ _ _ (modify_0 w1)).
Qed.
End create.

(** * One value *)

(** The state reached from [c] when the object [l] of the task [i] is complete,
    before [moveToNextTask]: the tasks below are as they were. *)
Record after (c c' : redisReader) (i : nat) (l : loc) : Prop := {
  af_frame : same_frame c c';
  af_ridx : r_ridx c' = Z.of_nat i;
  af_below : forall j, (j < i)%nat -> r_rstack c' !! j = r_rstack c !! j;
  af_task : exists t t', r_rstack c !! i = Some t /\ r_rstack c' !! i = Some t' /\
    tk_idx t' = tk_idx t /\ tk_parent t' = tk_parent t;
  af_reply : r_reply c' = if Nat.eqb i 0 then Some (Obj l) else r_reply c
}.

(** A task [i] is about to begin. *)
Record ready (c : redisReader) (i : nat) (t : redisReadTask) : Prop := {
  rd_wf : core_wf c;
  rd_ridx : r_ridx c = Z.of_nat i;
  rd_stack : length (r_rstack c) = 3%nat;
  rd_task : r_rstack c !! i = Some t;
  rd_type : tk_type t < 0
}.

Definition typed_task (t : redisReadTask) (ty : Z) : redisReadTask :=
  mkTask ty (tk_elements t) (tk_idx t) (tk_obj t) (tk_parent t) (tk_privdata t).

Lemma ready_get c i t w : ready c i t -> get_task c (r_ridx c) w = Ok (t, w).
Proof.
  intros [_ -> _ Ht _]. unfold get_task. rewrite (proj2 (Z.leb_le _ _)) by lia.
  by rewrite Nat2Z.id, Ht.
Qed.

Lemma parent_ok_typed i c t w par ty :
  parent_ok i (r_rstack c) t w par -> r_ridx c = Z.of_nat i ->
  parent_ok i (r_rstack (set_cur_type c t ty)) (typed_task t ty) w par.
Proof.
  intros Hp Hi. destruct par as [[[pl n] vec]|]; [|done].
  destruct Hp as (p & pt & H1 & H2 & H3 & H4 & H5 & H6 & H7). exists p, pt. cbn in *. split_and!; try done; try lia.
  rewrite Hi, Nat2Z.id, list_lookup_insert_ne by lia. done.
Qed.

(** The item at the head of the data, up to the placement of its object. *)
Lemma run_item c i t x body rest ty tok o w w2 :
  ready c i t -> type_of_byte x = Some ty ->
  (ty =? REDIS_REPLY_ARRAY) && (r_ridx c =? 2) = false ->
  lex ty (body ++ rest) = Ok (Some (tok, rest)) ->
  acreate (set_cur_type c t ty) (typed_task t ty) tok w = Ok (Some o, w2) ->
  run c (x :: body ++ rest) w =
    (let* c2 := aplace (set_cur_type c t ty) (typed_task t ty) tok o in run c2 rest) w2.
Proof.
  intros Hr Hty Hn Hlex Hcr. pose proof (ready_get c i t w Hr) as Hg. pose proof Hr as [_ Hi _ _ Ht].
  rewrite run_eq, (proj2 (Z.leb_le _ _)) by lia.
  unfold aitem. rewrite bind_assoc, (bind_ok _ _ _ _ _ Hg).
  btrue (tk_type t <? 0). rewrite Hty. unfold atyped.
  assert (known_type ty = true) as ->.
  { revert Hty. unfold type_of_byte. repeat case_match; intros; by simplify_eq. }
  cbn [negb]. rewrite bind_assoc.
  rewrite (bind_ok _ _ _ _ _ (get_task_set_cur_type c t ty w w Hg)).
  change (r_ridx (set_cur_type c t ty)) with (r_ridx c). rewrite Hn.
  rewrite bind_assoc. lift_step Hlex. cbn beta iota. rewrite bind_assoc.
  rewrite (bind_ok _ _ _ _ _ Hcr). cbn beta iota. rewrite bind_assoc. by apply bind_ext.
Qed.

Definition set_root (c : redisReader) (o : objptr) : redisReader :=
  if r_ridx c =? 0 then set_reply (Some o) c else c.

Lemma after_typed c i t ty l :
  ready c i t -> after c (set_root (set_cur_type c t ty) (Obj l)) i l.
Proof.
  intros [Hc Hi Hs Ht _]. unfold set_root. change (r_ridx (set_cur_type c t ty)) with (r_ridx c).
  assert ((i < 3)%nat) by (rewrite <- Hs; by eapply lookup_lt_Some).
  assert (forall c1, r_rstack c1 = r_rstack (set_cur_type c t ty) ->
    (forall j, (j < i)%nat -> r_rstack c1 !! j = r_rstack c !! j) /\
    exists t0 t', r_rstack c !! i = Some t0 /\ r_rstack c1 !! i = Some t' /\
      tk_idx t' = tk_idx t0 /\ tk_parent t' = tk_parent t0) as Hstk.
  { intros c1 ->. cbn. rewrite Hi, Nat2Z.id. split.
    - intros j Hj. by rewrite list_lookup_insert_ne by lia.
    - exists t, (typed_task t ty). rewrite list_lookup_insert_eq by lia. done. }
  assert ((r_ridx c =? 0) = Nat.eqb i 0) as Eq.
  { rewrite Hi. destruct (Nat.eqb_spec i 0); [by subst|lia]. }
  destruct (r_ridx c =? 0) eqn:E0.
  - destruct (Hstk (set_reply (Some (Obj l)) (set_cur_type c t ty)) eq_refl) as [H1 H2].
    split; [|done|done|done|by rewrite <- Eq].
    etrans; [|apply same_frame_set_reply]. auto with frame.
  - destruct (Hstk (set_cur_type c t ty) eq_refl) as [H1 H2].
    split; [|done|done|done|by rewrite <- Eq]. auto with frame.
Qed.

(** What parsing [v] at the task [i] of [c] comes to. *)
Definition parses (v : value) (c : redisReader) (i : nat) (t : redisReadTask) (par : parent)
    (rest : list char) (w : world) : Prop :=
  exists c', after c c' i (w_next w) /\
    run c (encode v ++ rest) w =
      (let* c2 := moveToNextTask c' in run c2 rest)
        (built par (tk_idx t) (layout (w_next w) v) (blocks v) w).

(** Items that push no task. *)
Lemma run_leaf v c i t par rest w x body ty tok :
  ready c i t -> type_of_byte x = Some ty -> encode v = x :: body ->
  (ty =? REDIS_REPLY_ARRAY) && (r_ridx c =? 2) = false ->
  lex ty (body ++ rest) = Ok (Some (tok, rest)) ->
  (forall n, tok = TkArr n -> n <= 0) ->
  acreate (set_cur_type c t ty) (typed_task t ty) tok w =
    Ok (Some (Obj (w_next w)), built par (tk_idx t) (layout (w_next w) v) (blocks v) w) ->
  parses v c i t par rest w.
Proof.
  intros Hr Hty He Hn Hlex Htok Hcr. exists (set_root (set_cur_type c t ty) (Obj (w_next w))).
  split; [by apply after_typed|]. rewrite He. cbn [app].
  rewrite (run_item c i t x body rest ty tok _ w _ Hr Hty Hn Hlex Hcr). unfold aplace.
  fold (set_root (set_cur_type c t ty) (Obj (w_next w))).
  destruct tok as [| | |n]; try done. specialize (Htok n eq_refl). by bfalse (0 <? n).
Qed.

Definition leaf (v : value) : bool := match v with VArray (_ :: _) => false | _ => true end.

Lemma leaf_run d v c i t par rest w :
  leaf v = true -> value_ok d v -> zlen (encode v) <= INT_MAX -> ready c i t -> (i + d = 2)%nat ->
  no_oom w -> parent_ok i (r_rstack c) t w par -> parses v c i t par rest w.
Proof.
  intros Hleaf Hok Hlen Hr Hid Hw Hp.
  assert (forall ty, parent_ok i (r_rstack (set_cur_type c t ty)) (typed_task t ty) w par) as Hp'.
  { intros ty. apply parent_ok_typed; [done|]. by destruct Hr. }
  assert (value_ok d v -> match v with VNilArray | VArray _ => r_ridx c <> 2 | _ => True end) as Hdepth.
  { pose proof (rd_ridx _ _ _ Hr). destruct d, v; cbn; try done; try lia; by intros []. }
  specialize (Hdepth Hok).
  assert (scalar_ok v) as Hsc by (by destruct d, Hok).
  destruct v as [s|s|z|s| | |[|v vs]]; cbn in Hsc, Hdepth; cbn [encode length] in Hlen;
    rewrite ?length_app in Hlen; try done.
  - eapply (run_leaf _ c i t par rest w 43 (s ++ CRLF)); try done.
    + rewrite <- app_assoc. apply lex_line; [by left|done].
    + done.
    + apply (createStringObject_ok i _ _ w par Hw (Hp' _)); [by right; left|climits].
  - eapply (run_leaf _ c i t par rest w 45 (s ++ CRLF)); try done.
    + rewrite <- app_assoc. apply lex_line; [by right|done].
    + done.
    + apply (createStringObject_ok i _ _ w par Hw (Hp' _)); [by left|climits].
  - eapply (run_leaf _ c i t par rest w 58 (dec_signed z ++ CRLF)); try done.
    + rewrite <- app_assoc. by apply lex_integer.
    + done.
    + apply (createIntegerObject_ok i _ _ w par Hw (Hp' _)).
  - eapply (run_leaf _ c i t par rest w 36 (dec_signed (zlen s) ++ CRLF ++ s ++ CRLF)); try done.
    + rewrite <- !app_assoc. apply lex_bulk. lia.
    + done.
    + apply (createStringObject_ok i _ _ w par Hw (Hp' _)); [by right; right|lia].
  - eapply (run_leaf _ c i t par rest w 36 (dec_signed (-1) ++ CRLF)); try done.
    apply (createNilObject_ok i _ _ w par Hw (Hp' _)).
  - eapply (run_leaf _ c i t par rest w 42 (dec_signed (-1) ++ CRLF) REDIS_REPLY_ARRAY); try done.
    + by rewrite (proj2 (Z.eqb_neq _ _) Hdepth).
    + apply (createNilObject_ok i _ _ w par Hw (Hp' _)).
  - eapply (run_leaf _ c i t par rest w 42 (dec_signed 0 ++ CRLF ++ []) REDIS_REPLY_ARRAY); try done.
    + by rewrite (proj2 (Z.eqb_neq _ _) Hdepth).
    + intros n [= <-]. done.
    + exact (createArrayObject_ok i _ _ w par Hw (Hp' _) 0 ltac:(climits)).
Qed.

(** * Arrays *)

Lemma value_ind' (P : value -> Prop) :
  (forall v, leaf v = true -> P v) ->
  (forall v vs, Forall P (v :: vs) -> P (VArray (v :: vs))) ->
  forall v, P v.
Proof.
  intros Hleaf Harr. fix IH 1. intros [| | | | | |vs]; try by apply Hleaf.
  destruct vs as [|v vs]; [by apply Hleaf|]. apply Harr. constructor; [apply IH|].
  induction vs as [|v' vs IHvs]; constructor; [apply IH|apply IHvs].
Qed.

Lemma length_layouts l vs :
  Forall (fun v => forall l, length (layout l v) = objects v) vs ->
  length (layouts layout l vs) = sum_list (objects <$> vs).
Proof.
  intros H. revert l. induction H as [|v vs Hv _ IH]; intros l; cbn; [done|].
  by rewrite length_app, Hv, IH.
Qed.

Lemma length_layout l v : length (layout l v) = objects v.
Proof.
  revert l. induction v as [v Hv|v vs IH] using value_ind'; intros l.
  - by destruct v as [| | | | | |[]].
  - cbn [layout objects length]. by rewrite length_layouts.
Qed.

(** After the last element, the array task is current again. *)
Lemma move_up c i t p :
  r_ridx c = Z.of_nat (S i) -> r_rstack c !! S i = Some t -> r_rstack c !! i = Some p ->
  tk_type p = REDIS_REPLY_ARRAY -> 0 < tk_elements p <= INT_MAX -> tk_idx t = tk_elements p - 1 ->
  forall w, moveToNextTask c w = moveToNextTask (set_ridx (Z.of_nat i) c) w.
Proof.
  intros Hi Ht Hp Hty Hn Hidx w. unfold moveToNextTask. rewrite Hi.
  replace (Z.to_nat (Z.of_nat (S i))) with (S i) by lia. cbn [next_task_loop].
  rewrite Hi, (proj2 (Z.leb_le _ _)), (proj2 (Z.eqb_neq _ _)) by lia.
  replace (Z.of_nat (S i) - 1) with (Z.of_nat i) by lia.
  unfold get_task, bind. rewrite !(proj2 (Z.leb_le _ _)) by lia. rewrite !Nat2Z.id, Ht, Hp. cbn.
  rewrite Hty. cbn. rewrite int_ok_eq by climits. cbn. rewrite Hidx, Z.eqb_refl.
  change (r_ridx (set_ridx (Z.of_nat i) c)) with (Z.of_nat i). by rewrite Nat2Z.id.
Qed.

(** Otherwise the same task starts over for the next element. *)
Lemma move_sibling c i t p :
  r_ridx c = Z.of_nat (S i) -> r_rstack c !! S i = Some t -> r_rstack c !! i = Some p ->
  tk_type p = REDIS_REPLY_ARRAY -> 0 <= tk_idx t < tk_elements p - 1 -> tk_elements p <= INT_MAX ->
  forall w, moveToNextTask c w =
    Ok (put_task (r_ridx c) (mkTask (-1) (-1) (tk_idx t + 1) (tk_obj t) (tk_parent t) (tk_privdata t)) c, w).
Proof.
  intros Hi Ht Hp Hty Hn Hmax w. unfold moveToNextTask. rewrite Hi. cbn [next_task_loop].
  rewrite Hi, (proj2 (Z.leb_le _ _)), (proj2 (Z.eqb_neq _ _)) by lia.
  replace (Z.of_nat (S i) - 1) with (Z.of_nat i) by lia.
  unfold get_task, bind. rewrite !(proj2 (Z.leb_le _ _)) by lia. rewrite !Nat2Z.id, Ht, Hp. cbn [ret].
  unfold assert_. rewrite Hty. change (REDIS_REPLY_ARRAY =? REDIS_REPLY_ARRAY) with true. cbn [ret].
  rewrite int_ok_eq by climits. cbn [lift].
  rewrite (proj2 (Z.eqb_neq _ _)), (proj2 (Z.ltb_lt _ _)) by lia. done.
Qed.

(** After the root, the stack is empty. *)
Lemma move_root c : r_ridx c = 0 -> forall w, moveToNextTask c w = Ok (set_ridx (-1) c, w).
Proof. intros Hi w. unfold moveToNextTask. rewrite Hi. cbn [Z.to_nat next_task_loop]. by rewrite Hi. Qed.

(** The state when all of [vs] have been read into the array [l], whose vector
    began with [pre]. *)
Definition filled (l : loc) (n : Z) (pre : list (option loc)) (vs : list value) (w : world) : world :=
  set_next (w_next w + sum_list (objects <$> vs))
    (add_live (foldr Z.add 0 (blocks <$> vs))
       (set_objs (map_seq (w_next w) (layouts layout (w_next w) vs) ∪
                  <[l := arr_obj n (pre ++ (Some <$> locs (w_next w) vs))]> (w_objs w)) w)).

Definition room (l : loc) (n : Z) (pre : list (option loc)) (k : nat) (w : world) : Prop :=
  w_objs w !! l = Some (arr_obj n (pre ++ replicate k None)) /\ (l < w_next w)%nat.

(** Reading one element and then the others. *)
Lemma map_seq_lookup_lt {A} (l m : nat) (rs : list A) :
  (l < m)%nat -> (map_seq m rs : gmap nat A) !! l = None.
Proof. intros H. apply lookup_map_seq_None. by left. Qed.

Lemma filled_cons l n pre v vs w :
  room l n pre (S (length vs)) w ->
  let w1 := built (Some (l, n, pre ++ replicate (S (length vs)) None)) (zlen pre)
                  (layout (w_next w) v) (blocks v) w in
  room l n (pre ++ [Some (w_next w)]) (length vs) w1 /\
  filled l n (pre ++ [Some (w_next w)]) vs w1 = filled l n pre (v :: vs) w.
Proof.
  intros [Hl Hlt]. unfold built, linked. cbn [w_next w_objs set_next set_objs add_live].
  rewrite Nat2Z.id, insert_app_r_alt, Nat.sub_diag by lia. cbn [replicate list_insert insert].
  rewrite length_layout. split.
  - split; [|cbn; lia]. cbn. rewrite lookup_union_r by (by apply map_seq_lookup_lt).
    rewrite lookup_insert_eq. by rewrite <- app_assoc.
  - unfold filled. cbn. rewrite map_seq_app, length_layout.
    unfold set_next, add_live, set_objs. cbn. f_equal; [lia| |lia].
    rewrite insert_union_r by (by apply map_seq_lookup_lt). rewrite insert_insert_eq, <- app_assoc.
    rewrite (assoc_L (∪)). f_equal. apply map_union_comm, map_disjoint_spec; 
      intros j x y [H1 _]%lookup_map_seq_Some [H2 H3%lookup_lt_Some]%lookup_map_seq_Some.
    rewrite length_layout in H3. lia.
Qed.

Lemma no_oom_built par idx rs nb w : no_oom w -> no_oom (built par idx rs nb w).
Proof. done. Qed.

(** The array task below the current one. *)
Definition array_task (c : redisReader) (i : nat) (l : loc) (n : Z) : Prop :=
  exists p, r_rstack c !! i = Some p /\ tk_type p = REDIS_REPLY_ARRAY /\
    tk_elements p = n /\ tk_obj p = Some (Obj l).

(** The state reached when the elements above the task [i] are complete. *)
Definition back_at (c c' : redisReader) (i : nat) : Prop :=
  same_frame c c' /\ r_ridx c' = Z.of_nat i /\ r_reply c' = r_reply c /\
  (forall j, (j <= i)%nat -> r_rstack c' !! j = r_rstack c !! j).

Section elements.
Context (d : nat).
Context (IHd : forall v c i t par rest w,
  value_ok d v -> zlen (encode v) <= INT_MAX -> ready c i t -> (i + d = 2)%nat ->
  no_oom w -> parent_ok i (r_rstack c) t w par -> parses v c i t par rest w).

(** One element, the reader standing on the task above [i]. *)
Lemma element_run v c i t l n pre k rest w :
  value_ok d v -> zlen (encode v) <= INT_MAX -> ready c (S i) t -> (S i + d = 2)%nat ->
  no_oom w -> array_task c i l n -> tk_parent t = Some i -> tk_idx t = zlen pre ->
  room l n pre (S k) w ->
  exists c' t', after c c' (S i) (w_next w) /\ r_rstack c' !! S i = Some t' /\
    tk_idx t' = zlen pre /\ tk_parent t' = Some i /\ array_task c' i l n /\
    r_reply c' = r_reply c /\
    run c (encode v ++ rest) w =
      (let* c2 := moveToNextTask c' in run c2 rest)
        (built (Some (l, n, pre ++ replicate (S k) None)) (zlen pre) (layout (w_next w) v) (blocks v) w).
Proof.
  intros Hok Hlen Hr Hid Hw (p & Hp & Hpt & Hpn & Hpo) Htp Hti [Hl Hlt].
  destruct (IHd v c (S i) t (Some (l, n, pre ++ replicate (S k) None)) rest w) as (c' & Haf & E);
    try done.
  { exists i, p. rewrite Hti, length_app, length_replicate. split_and!; try done; lia. }
  destruct (af_task _ _ _ _ Haf) as (t0 & t' & Ht0 & Ht' & Hidx & Hpar).
  rewrite (rd_task _ _ _ Hr) in Ht0. injection Ht0 as <-.
  exists c', t'. rewrite Hti in *. split_and!; try done; try congruence.
  - exists p. rewrite (af_below _ _ _ _ Haf) by lia. done.
  - by rewrite (af_reply _ _ _ _ Haf).
Qed.

Lemma elements_run vs c i t l n pre rest w :
  vs <> [] -> Forall (value_ok d) vs -> zlen (concat (encode <$> vs)) <= INT_MAX ->
  ready c (S i) t -> (S i + d = 2)%nat -> no_oom w -> array_task c i l n ->
  tk_parent t = Some i -> tk_idx t = zlen pre -> n = zlen pre + zlen vs -> n <= INT_MAX ->
  room l n pre (length vs) w ->
  exists c', back_at c c' i /\
    run c (concat (encode <$> vs) ++ rest) w =
      (let* c2 := moveToNextTask c' in run c2 rest) (filled l n pre vs w).
Proof.
  revert c t pre w. induction vs as [|v vs IH]; intros c t pre w Hne Hok Hlen Hr Hid Hw Harr Htp Hti Hn Hmax Hroom;
    [done|]. clear Hne.
  cbn [fmap list_fmap concat length] in *. rewrite length_app in Hlen.
  apply Forall_cons in Hok as [Hv Hvs].
  destruct (element_run v c i t l n pre (length vs) (concat (encode <$> vs) ++ rest) w)
    as (c' & t' & Haf & Ht' & Hidx & Hpar & Harr' & Hrep & E); try done; try lia.
  rewrite <- app_assoc, E. clear E.
  destruct (filled_cons l n pre v vs w Hroom) as [Hroom1 Hfill].
  destruct Harr' as (p & Hp & Hpt & Hpn & Hpo).
  pose proof (af_ridx _ _ _ _ Haf) as Hri.
  pose proof (same_frame_wf _ _ (af_frame _ _ _ _ Haf) (rd_wf _ _ _ Hr)) as Hc'.
  assert (length (r_rstack c') = 3%nat) as Hlen3.
  { destruct (af_frame _ _ _ _ Haf) as (?&?&?&?&?&?&?&->). by destruct Hr. }
  destruct vs as [|v2 vs].
  - exists (set_ridx (Z.of_nat i) c'). split.
    + split_and!; [etrans; [apply (af_frame _ _ _ _ Haf)|auto with frame]|done|done|].
      intros j Hj. apply (af_below _ _ _ _ Haf). lia.
    + cbn [concat fmap list_fmap app]. cbn [length] in *. rewrite <- Hfill.
      rewrite (bind_first _ _ _ _ (move_up c' i t' p Hri Ht' Hp Hpt ltac:(lia) ltac:(lia) _)).
      f_equal. unfold filled. cbn. rewrite Nat.add_0_r, (left_id_L ∅ (∪)), !app_nil_r.
      destruct Hroom1 as [Hl1 _]. cbn in Hl1. rewrite app_nil_r in Hl1.
      rewrite insert_id by done. unfold built. cbn. unfold set_next, set_objs, add_live. cbn. f_equal. lia.
  - cbn [length] in *.
    rewrite (bind_ok _ _ _ _ _ (move_sibling c' i t' p Hri Ht' Hp Hpt ltac:(lia) ltac:(lia) _)).
    set (t2 := mkTask (-1) (-1) (tk_idx t' + 1) (tk_obj t') (tk_parent t') (tk_privdata t')).
    destruct (IH (put_task (r_ridx c') t2 c') t2 (pre ++ [Some (w_next w)])
      (built (Some (l, n, pre ++ replicate (S (S (length vs))) None))
         (zlen pre) (layout (w_next w) v) (blocks v) w)) as (c2 & Hback & E2).
    + done.
    + done.
    + lia.
    + split; [eapply same_frame_wf; [apply same_frame_put_task|done]|done|cbn; by rewrite length_insert| |cbn; lia].
      cbn. rewrite Hri, Nat2Z.id, list_lookup_insert_eq by lia. done.
    + done.
    + done.
    + exists p. cbn. rewrite Hri, Nat2Z.id, list_lookup_insert_ne by lia. done.
    + done.
    + cbn. rewrite length_app, Hidx. cbn. lia.
    + rewrite length_app. cbn [length]. lia.
    + done.
    + done.
    + exists c2. rewrite E2, Hfill. split; [|done]. destruct Hback as (Hf & Hr2 & Hrep2 & Hbelow).
      split_and!; [|done|by rewrite Hrep2|].
      * etrans; [apply (af_frame _ _ _ _ Haf)|]. etrans; [apply same_frame_put_task|done].
      * intros j Hj. rewrite Hbelow by done. cbn.
        rewrite Hri, Nat2Z.id, list_lookup_insert_ne by lia. apply (af_below _ _ _ _ Haf). lia.
Qed.
End elements.

Lemma length_vs_encode vs : (length vs <= length (concat (encode <$> vs)))%nat.
Proof.
  induction vs as [|v vs IH]; cbn; [lia|]. rewrite length_app.
  assert (0 < length (encode v))%nat by (destruct v; cbn; lia). lia.
Qed.

(** The header of an array: the object exists, the task of its first element
    is current. *)
Lemma array_header c i t par v vs rest w :
  ready c i t -> (i < 2)%nat -> zlen (v :: vs) <= INT_MAX -> no_oom w ->
  parent_ok i (r_rstack c) t w par ->
  let n := zlen (v :: vs) in
  let w1 := built par (tk_idx t) [arr_obj n (replicate (length (v :: vs)) None)] 2 w in
  let t1 := mkTask (-1) (-1) 0 None (Some i) (r_privdata c) in
  exists c1, ready c1 (S i) t1 /\ array_task c1 i (w_next w) n /\
    same_frame c c1 /\ r_reply c1 = (if Nat.eqb i 0 then Some (Obj (w_next w)) else r_reply c) /\
    (forall j, (j < i)%nat -> r_rstack c1 !! j = r_rstack c !! j) /\
    (exists t', r_rstack c1 !! i = Some t' /\ tk_idx t' = tk_idx t /\ tk_parent t' = tk_parent t) /\
    run c (encode (VArray (v :: vs)) ++ rest) w = run c1 (concat (encode <$> (v :: vs)) ++ rest) w1.
Proof.
  intros Hr Hi2 Hn Hw Hp n w1 t1. pose proof Hr as [Hc Hi Hs Ht _].
  pose proof (parent_ok_typed i c t w par REDIS_REPLY_ARRAY Hp Hi) as Hp'.
  assert (0 < n) as Hn0 by (unfold n; cbn [length]; lia).
  set (c0 := set_root (set_cur_type c t REDIS_REPLY_ARRAY) (Obj (w_next w))).
  set (t0 := mkTask REDIS_REPLY_ARRAY n (tk_idx t) (Some (Obj (w_next w))) (tk_parent t) (tk_privdata t)).
  set (c1 := put_task (Z.of_nat (S i)) t1 (set_ridx (Z.of_nat (S i)) (put_task (Z.of_nat i) t0 c0))).
  pose proof (after_typed c i t REDIS_REPLY_ARRAY (w_next w) Hr) as Haf. fold c0 in Haf.
  assert (same_frame c c1) as Hf.
  { etrans; [apply (af_frame _ _ _ _ Haf)|]. unfold c1. etrans; [|apply same_frame_put_task].
    etrans; [|apply same_frame_set_ridx]. apply same_frame_put_task. }
  assert (length (r_rstack c0) = 3%nat) as Hs0.
  { destruct (af_frame _ _ _ _ Haf) as (?&?&?&?&?&?&?&->). done. }
  assert (forall j, r_rstack c1 !! j = <[S i := t1]> (<[i := t0]> (r_rstack c0)) !! j) as Hstk.
  { intros j. unfold c1. cbn [r_rstack put_task set_stack set_ridx]. rewrite !Nat2Z.id. done. }
  exists c1. split_and!; [| |done|by rewrite <- (af_reply _ _ _ _ Haf)| | |].
  - split; [by eapply same_frame_wf|done| | |done].
    + destruct Hf as (?&?&?&?&?&?&?&->). done.
    + rewrite Hstk, list_lookup_insert_eq by (rewrite length_insert; lia). done.
  - exists t0. rewrite Hstk, list_lookup_insert_ne, list_lookup_insert_eq by lia. done.
  - intros j Hj. rewrite Hstk, !list_lookup_insert_ne by lia. by apply (af_below _ _ _ _ Haf).
  - exists t0. rewrite Hstk, list_lookup_insert_ne, list_lookup_insert_eq by lia. done.
  - cbn [encode app]. rewrite <- !app_assoc.
    rewrite (app_assoc (dec_signed _)).
    rewrite (run_item c i t 42 (dec_signed n ++ CRLF) _ REDIS_REPLY_ARRAY (TkArr n) (Obj (w_next w)) w w1); try done.
    + unfold aplace. fold (set_root (set_cur_type c t REDIS_REPLY_ARRAY) (Obj (w_next w))). fold c0.
      btrue (0 <? n). rewrite bind_assoc. unfold n. rewrite int_id by climits. fold n.
      rewrite (af_ridx _ _ _ _ Haf). cbn [tk_type tk_idx tk_parent tk_privdata typed_task]. fold t0.
      replace (Z.of_nat i + 1) with (Z.of_nat (S i)) by lia.
      change (r_ridx (set_ridx (Z.of_nat (S i)) (put_task (Z.of_nat i) t0 c0))) with (Z.of_nat (S i)).
      assert (exists x, r_rstack (set_ridx (Z.of_nat (S i)) (put_task (Z.of_nat i) t0 c0)) !! S i = Some x) as [x Hx].
      { apply lookup_lt_is_Some. cbn. rewrite length_insert. lia. }
      unfold bind at 1. unfold get_task. rewrite (proj2 (Z.leb_le _ _)) by lia. rewrite !Nat2Z.id, Hx.
      replace (r_privdata c0) with (r_privdata c); [done|].
      by destruct (af_frame _ _ _ _ Haf) as (?&?&?&?&?&?&->&?).
    + rewrite Hi. rewrite (proj2 (Z.eqb_neq (Z.of_nat i) 2)) by lia. done.
    + rewrite <- app_assoc. rewrite lex_array by climits. by rewrite (proj2 (Z.eqb_neq n (-1))) by lia.
    + unfold acreate. unfold n. rewrite int_id by climits.
      rewrite (createArrayObject_ok i _ _ w par Hw Hp') by lia. fold n. btrue (0 <? n).
      unfold w1, n. by rewrite Nat2Z.id.
Qed.

(** The reader builds the objects of a value and moves on. *)
Lemma value_run d v c i t par rest w :
  value_ok d v -> zlen (encode v) <= INT_MAX -> ready c i t -> (i + d = 2)%nat ->
  no_oom w -> parent_ok i (r_rstack c) t w par -> parses v c i t par rest w.
Proof.
  revert v c i t par rest w. induction d as [|d IHd]; intros v c i t par rest w Hok Hlen Hr Hid Hw Hp.
  { eapply leaf_run; try done. destruct v as [| | | | | |[]]; try done. by destruct Hok. }
  destruct (leaf v) eqn:Hleaf; [by eapply leaf_run|]. destruct v as [| | | | | |[|v vs]]; try done.
  destruct Hok as [_ Hvs]. cbn [encode length] in Hlen. rewrite !length_app in Hlen.
  pose proof (length_vs_encode (v :: vs)).
  destruct (array_header c i t par v vs rest w Hr ltac:(lia) ltac:(lia) Hw Hp)
    as (c1 & Hr1 & Harr & Hf & Hrep & Hbelow & Htask & E).
  set (w1 := built par (tk_idx t) _ 2 w) in E. set (n := zlen (v :: vs)) in *.
  destruct (elements_run d IHd (v :: vs) c1 i (mkTask (-1) (-1) 0 None (Some i) (r_privdata c))
    (w_next w) n [] rest w1) as (c' & Hback & E'); try done; try lia.
  { split; [|cbn; lia]. unfold w1, built. cbn [w_objs set_next add_live set_objs app].
    by rewrite map_seq_singleton_union, lookup_insert_eq. }
  destruct Hback as (Hf' & Hri & Hrep' & Hstk).
  exists c'. split.
  - split; [by etrans|done| | |by rewrite Hrep'].
    + intros j Hj. rewrite Hstk by lia. by apply Hbelow.
    + destruct Htask as (t' & Ht' & ? & ?). exists t, t'. rewrite Hstk by lia. by destruct Hr.
  - rewrite E, E'. f_equal. unfold filled, w1, built. cbn [w_next w_objs set_next set_objs add_live length app].
    unfold set_next, set_objs, add_live. cbn [w_alloc w_junk w_live w_objs w_next w_errno w_os w_trace].
    cbn [layout length]. rewrite length_layouts by (apply Forall_forall; intros; apply length_layout).
    f_equal; [cbn; lia| |lia].
    rewrite Nat.add_1_r, map_seq_singleton_union, insert_insert_eq. fold n. cbn [map_seq].
    rewrite <- insert_union_l. symmetry. apply insert_union_r.
    by apply map_seq_lookup_lt; lia.
Qed.

(** * Streams of values *)

(** The state once all of [vs] have been read. *)
Definition stored (vs : list value) (w : world) : world :=
  set_next (w_next w + sum_list (objects <$> vs))
    (add_live (foldr Z.add 0 (blocks <$> vs))
       (set_objs (map_seq (w_next w) (layouts layout (w_next w) vs) ∪ w_objs w) w)).

Lemma stored_nil w : stored [] w = w.
Proof.
  unfold stored. destruct w. cbn. unfold set_next, add_live, set_objs. cbn.
  rewrite (left_id_L ∅ (∪)), Nat.add_0_r. f_equal. lia.
Qed.

Lemma stored_cons v vs w :
  stored (v :: vs) w = stored vs (built None (-1) (layout (w_next w) v) (blocks v) w).
Proof.
  unfold stored, built, linked. cbn. unfold set_next, add_live, set_objs. cbn.
  rewrite length_layout. f_equal; [lia| |lia].
  rewrite map_seq_app, length_layout, (assoc_L (∪)). f_equal.
  apply map_union_comm, map_disjoint_spec.
  intros j x y [H1 H3%lookup_lt_Some]%lookup_map_seq_Some [H2 _]%lookup_map_seq_Some.
  rewrite length_layout in H3. lia.
Qed.

(** A reader between two replies. *)
Record idle (c : redisReader) : Prop := {
  id_wf : core_wf c;
  id_ridx : r_ridx c = -1;
  id_stack : length (r_rstack c) = 3%nat;
  id_reply : r_reply c = None
}.

Definition root_task (c : redisReader) : redisReadTask :=
  mkTask (-1) (-1) (-1) None None (r_privdata c).

Lemma idle_ready c : idle c -> ready (start c) 0 (root_task c) /\ live (start c).
Proof.
  intros [Hc Hi Hs _]. assert (live (start c)) as Hl by (apply live_start; [done|done|lia]).
  split; [|done]. destruct Hl as [Hwf _ _ _]. unfold start in *. rewrite Hi in *.
  cbn [Z.eqb Pos.eqb] in *. split; [done|done|cbn; by rewrite length_insert| |done].
  cbn. by rewrite list_lookup_insert_eq by lia.
Qed.

Lemma run_root c v rest w :
  idle c -> value_ok 2 v -> zlen (encode v) <= INT_MAX -> no_oom w ->
  exists c', run (start c) (encode v ++ rest) w =
      Ok (AItem c' rest, built None (-1) (layout (w_next w) v) (blocks v) w) /\
    r_reply c' = Some (Obj (w_next w)) /\ idle (set_reply None c').
Proof.
  intros Hid Hok Hlen Hw. destruct (idle_ready c Hid) as [Hr Hl].
  destruct (value_run 2 v (start c) 0 (root_task c) None rest w) as (c1 & Haf & E); try done.
  destruct Haf as [Hf Hri _ _ Hrep]. cbn in Hri.
  exists (set_ridx (-1) c1). rewrite E, (bind_ok _ _ _ _ _ (move_root c1 Hri _)), run_eq.
  split_and!; [done|done|].
  split; [|done| |done].
  - eapply same_frame_wf; [|apply (lv_wf _ Hl)]. etrans; [done|]. etrans; [apply same_frame_set_ridx|].
    apply same_frame_set_reply.
  - destruct Hf as (?&?&?&?&?&?&?&Hlen3). cbn. rewrite Hlen3. by destruct Hr.
Qed.

(** Draining the encoding of [vs] delivers the objects of [vs], in order. *)
Lemma adrain_values vs c w :
  idle c -> Forall (value_ok 2) vs -> zlen (concat (encode <$> vs)) <= INT_MAX -> no_oom w ->
  exists c', adrain (start c) (concat (encode <$> vs)) w =
      Ok (Obj <$> locs (w_next w) vs, EMore (start c') [], stored vs w) /\ idle c'.
Proof.
  revert c w. induction vs as [|v vs IH]; intros c w Hid Hok Hlen Hw.
  - destruct (idle_ready c Hid) as [_ Hl]. exists c. split; [|done]. rewrite stored_nil.
    apply settled_adrain; [done|]. by apply run_nil.
  - apply Forall_cons in Hok as [Hv Hvs]. cbn [fmap list_fmap concat] in *. rewrite length_app in Hlen.
    destruct (idle_ready c Hid) as [_ Hl].
    destruct (run_root c v (concat (encode <$> vs)) w) as (c1 & E & Hrep & Hid1); try done; [lia|].
    destruct (IH (set_reply None c1) (built None (-1) (layout (w_next w) v) (blocks v) w))
      as (c2 & E2 & Hid2); try done; [lia|].
    exists c2. split; [|done]. rewrite adrain_eq by done. rewrite (bind_ok _ _ _ _ _ E), Hrep.
    erewrite (bind_ok (deref (Some _))) by reflexivity. rewrite (bind_ok _ _ _ _ _ E2), stored_cons.
    unfold ret. cbn [w_next built set_next locs fmap list_fmap]. by rewrite length_layout.
Qed.

(** A fresh reader. *)
Definition fresh_core : redisReader :=
  mkReader 0 [] None 0 0 [empty_task; empty_task; empty_task] (-1) None (Some defaultFunctions) 0.

Lemma fresh_idle : idle fresh_core.
Proof. by split. Qed.

Lemma redisReaderCreate_ok w :
  no_oom w ->
  exists r, redisReaderCreate w = Ok (Some r, add_live 2 w) /\ holds 0 r (start fresh_core) [].
Proof.
  intros Hw. unfold redisReaderCreate. rewrite (bind_ok _ _ _ _ _ (alloc_block_no_oom w Hw)). cbn [negb].
  destruct (sdsempty_no_oom (add_live 1 w) Hw) as (b & E & Hb & Hs).
  rewrite (bind_ok _ _ _ _ _ E), add_live_add. eexists. split; [done|].
  pose proof (length_sds_str b Hb) as Hl. rewrite Hs in Hl. cbn in Hl.
  exists b, 0, fresh_core. split_and!; try done; try lia; [|apply (idle_ready _ fresh_idle)].
  unfold at_buf. by rewrite <- Hl.
Qed.

(** Any way of cutting the encodings of [vs] into pieces: the replies are the
    objects of [vs], in order, and nothing else was allocated or touched. *)
Lemma feed_values vs chunks r c w :
  holds 0 r (start c) [] -> idle c -> Forall (value_ok 2) vs -> no_oom w ->
  concat chunks = concat (encode <$> vs) -> 2 * zlen (concat chunks) <= INT_MAX ->
  exists r' c', feed_all r chunks w = Ok (Obj <$> locs (w_next w) vs, REDIS_OK, r', stored vs w) /\
    holds (zlen (concat chunks)) r' (start c') [] /\ idle c'.
Proof.
  intros Hh Hid Hok Hw Hcat Hmax.
  assert (settled (start c) [] w) as Hs by (apply run_nil; by eapply holds_live).
  pose proof (feed_all_implements chunks 0 r (start c) [] w Hh Hw Hs ltac:(lia)) as Hf.
  destruct (adrain_values vs c w Hid Hok) as (c' & E & Hid'); [rewrite <- Hcat; lia|done|].
  cbn [app] in Hf. rewrite Hcat in Hf at 2. rewrite E in Hf. destruct Hf as (r' & Hf & Hh' & _).
  by exists r', c'.
Qed.

(** * Releasing a reply *)

(** Nothing of the store lies in the [n] addresses from [l] on. *)
Definition vacant (l n : nat) (h : gmap loc redisReply) : Prop :=
  forall j, (l <= j < l + n)%nat -> h !! j = None.

(** The addresses from the next one on are free. *)
Definition fresh_above (w : world) : Prop := forall j, (w_next w <= j)%nat -> w_objs w !! j = None.

Lemma fresh_vacant w n : fresh_above w -> vacant (w_next w) n (w_objs w).
Proof. intros Hf j Hj. apply Hf. lia. Qed.

Lemma vacant_mono l n l' n' h : vacant l n h -> (l <= l')%nat -> (l' + n' <= l + n)%nat -> vacant l' n' h.
Proof. intros H ? ? j Hj. apply H. lia. Qed.

Lemma delete_head l r rs h :
  h !! l = None -> delete l (map_seq l (r :: rs) ∪ h : gmap loc redisReply) = map_seq (S l) rs ∪ h.
Proof.
  intros Hl. cbn. rewrite <- insert_union_l. apply delete_insert_id.
  rewrite lookup_union_None. split; [|done]. apply map_seq_lookup_lt. lia.
Qed.

Lemma free_obj_ok l r rs h w :
  w_objs w = map_seq l (r :: rs) ∪ h -> h !! l = None ->
  free_obj l w = Ok (tt, add_live (-1) (set_objs (map_seq (S l) rs ∪ h) w)).
Proof.
  intros Hw Hl. unfold free_obj, get_obj, bind, modify, free. rewrite Hw. cbn [map_seq].
  rewrite lookup_union_l', lookup_insert_eq by (by rewrite lookup_insert_eq). cbn.
  rewrite Hw. by rewrite delete_head.
Qed.

Definition frees (v : value) : Prop := forall fuel l h w,
  (objects v <= fuel)%nat -> vacant l (objects v) h -> w_objs w = map_seq l (layout l v) ∪ h ->
  freeReply fuel l w = Ok (tt, add_live (- blocks v) (set_objs h w)).

(** Free the only object of a leaf. *)
Lemma free_last l r h w :
  w_objs w = map_seq l [r] ∪ h -> h !! l = None ->
  free_obj l w = Ok (tt, add_live (-1) (set_objs h w)).
Proof. intros Hw Hl. rewrite (free_obj_ok l r [] h w) by done. cbn [map_seq]. by rewrite (left_id_L ∅ (∪)). Qed.

Lemma get_head l r rs h w :
  w_objs w = map_seq l (r :: rs) ∪ h -> get_obj l w = Ok (r, w).
Proof.
  intros Hw. unfold get_obj. rewrite Hw. cbn [map_seq].
  by rewrite lookup_union_l', lookup_insert_eq by (by rewrite lookup_insert_eq).
Qed.

Lemma leaf_frees v : leaf v = true -> frees v.
Proof.
  intros Hleaf fuel l h w Hf Hv Hw.
  assert (h !! l = None) as Hl.
  { apply Hv. assert (0 < objects v)%nat by (destruct v; cbn; lia). lia. }
  assert (exists r, layout l v = [r]) as [r Hr] by (destruct v as [| | | | | |[]]; cbn; eauto; done).
  rewrite Hr in Hw. destruct fuel as [|f]; [destruct v; cbn in Hf; lia|]. cbn [freeReply].
  rewrite (bind_ok _ _ _ _ _ (get_head l r [] h w Hw)).
  assert (free_obj l (add_live (-1) w) = Ok (tt, add_live (-2) (set_objs h w))) as E2.
  { rewrite (free_last l r h) by done. unfold add_live, set_objs. cbn. do 3 f_equal. lia. }
  destruct v as [s|s|z|s| | |[|]]; try done; cbn in Hr; injection Hr as <-; cbn [rp_type rp_str str_obj].
  1,2,4: by rewrite (bind_ok free _ w tt (add_live (-1) w)).
  all: by rewrite (bind_ok (ret tt) _ w tt w), (free_last l _ h w Hw Hl).
Qed.

Lemma elements_free f vs pre m h w :
  Forall frees vs -> (sum_list (objects <$> vs) <= f)%nat ->
  vacant m (sum_list (objects <$> vs)) h -> w_objs w = map_seq m (layouts layout m vs) ∪ h ->
  free_elements (freeReply f) (length vs) (length pre) (pre ++ (Some <$> locs m vs)) w =
    Ok (tt, add_live (- foldr Z.add 0 (blocks <$> vs)) (set_objs h w)).
Proof.
  intros Hfr. revert pre m w. induction Hfr as [|v vs Hv _ IH]; intros pre m w Hf Hva Hw; cbn in Hf, Hva, Hw.
  - cbn. unfold ret. rewrite (left_id_L ∅ (∪)) in Hw. rewrite <- Hw. do 2 f_equal. destruct w.
    unfold add_live, set_objs. cbn. f_equal. lia.
  - cbn [length free_elements locs fmap list_fmap].
    rewrite (list_lookup_middle pre _ (Some m)) by done.
    rewrite map_seq_app, <- (assoc_L (∪)), length_layout in Hw.
    set (h1 := map_seq (m + objects v) (layouts layout (m + objects v) vs) ∪ h) in *.
    assert (vacant m (objects v) h1) as Hva1.
    { intros j Hj. unfold h1. rewrite lookup_union_None. split; [|apply Hva; lia].
      apply map_seq_lookup_lt. lia. }
    rewrite (bind_ok _ _ _ _ _ (Hv f m h1 w ltac:(lia) Hva1 Hw)).
    replace (pre ++ Some m :: (Some <$> locs (m + objects v) vs))
      with ((pre ++ [Some m]) ++ (Some <$> locs (m + objects v) vs)) by (by rewrite <- app_assoc).
    replace (S (length pre)) with (length (pre ++ [Some m])) by (rewrite length_app; cbn; lia).
    rewrite (IH (pre ++ [Some m]) (m + objects v)%nat); [|lia|eapply vacant_mono; [done|lia|lia]|done].
    unfold add_live, set_objs. cbn. do 3 f_equal. lia.
Qed.

Lemma value_frees v : frees v.
Proof.
  induction v as [v Hleaf|v vs Hvs] using value_ind'; [by apply leaf_frees|].
  intros fuel l h w Hf Hva Hw. destruct fuel as [|f]; [cbn in Hf; lia|]. cbn [freeReply objects] in *.
  cbn [layout] in Hw. set (arr := arr_obj _ _) in Hw.
  assert (h !! l = None) as Hl by (apply Hva; lia).
  rewrite (bind_ok _ _ _ _ _ (get_head l _ _ h w Hw)).
  cbn [arr rp_type rp_element rp_elements arr_obj]. change (REDIS_REPLY_ARRAY =? REDIS_REPLY_INTEGER) with false.
  change (REDIS_REPLY_ARRAY =? REDIS_REPLY_ARRAY) with true. cbn iota.
  rewrite Nat2Z.id. rewrite bind_assoc.
  assert (w_objs w = map_seq (S l) (layouts layout (S l) (v :: vs)) ∪ <[l := arr]> h) as Hw1.
  { rewrite Hw. cbn [map_seq]. rewrite <- insert_union_l. apply insert_union_r.
    apply map_seq_lookup_lt. lia. }
  rewrite (bind_ok _ _ _ _ _ (elements_free f (v :: vs) [] (S l) (<[l := arr]> h) w Hvs ltac:(lia)
    ltac:(intros j Hj; rewrite lookup_insert_ne by lia; apply Hva; lia) Hw1)).
  erewrite (bind_ok free) by reflexivity. rewrite (free_last l arr h); [| |done].
  - unfold add_live, set_objs. cbn. do 3 f_equal. lia.
  - cbn [w_objs add_live set_objs]. by rewrite map_seq_singleton_union.
Qed.

Lemma size_map_seq (l : loc) (rs : list redisReply) : size (map_seq l rs : gmap loc redisReply) = length rs.
Proof.
  revert l. induction rs as [|r rs IH]; intros l; cbn [map_seq length].
  - apply map_size_empty.
  - rewrite map_size_insert_None by (apply map_seq_lookup_lt; lia). by rewrite IH.
Qed.

(** [freeReplyObject] gives the store and the blocks of the reply back. *)
Lemma freeReplyObject_ok v l h w :
  vacant l (objects v) h -> w_objs w = map_seq l (layout l v) ∪ h ->
  freeReplyObject (Obj l) w = Ok (tt, add_live (- blocks v) (set_objs h w)).
Proof.
  intros Hva Hw. unfold freeReplyObject, get_world. erewrite bind_ok by reflexivity.
  apply value_frees; [|done|done]. rewrite Hw, map_size_disj_union, size_map_seq, length_layout; [lia|].
  apply map_disjoint_spec. intros j x y [H1 H2%lookup_lt_Some]%lookup_map_seq_Some Hy.
  rewrite length_layout in H2. rewrite (Hva j) in Hy by lia. done.
Qed.

(** * Properties *)

(** A client: create a reader and feed it a stream in pieces, taking the
    replies out after each. *)
Definition read_stream (chunks : list (list char)) : M (list objptr * Z * redisReader) :=
  let* r := redisReaderCreate in
  let* r := deref r in
  feed_all r chunks.

Lemma read_stream_eq chunks w :
  no_oom w ->
  exists r, read_stream chunks w = feed_all r chunks (add_live 2 w) /\
    holds 0 r (start fresh_core) [].
Proof.
  intros Hw. destruct (redisReaderCreate_ok w Hw) as (r & E & Hh). exists r. split; [|done].
  unfold read_stream. rewrite (bind_ok _ _ _ _ _ E). by erewrite (bind_ok (deref (Some r))) by reflexivity.
Qed.

(** C2: parse after print.  However the encodings of the replies [vs] are cut
    into pieces, feeding the pieces and draining the reader after each gives
    exactly the replies [vs], in order: the addresses returned are those of
    their objects, and the final state is the initial one with those objects
    added, the two blocks of the reader and the blocks of the objects. *)
Theorem reader_roundtrip vs chunks w :
  no_oom w -> Forall (value_ok 2) vs -> concat chunks = concat (encode <$> vs) ->
  2 * zlen (concat chunks) <= INT_MAX ->
  exists r, read_stream chunks w =
    Ok (Obj <$> locs (w_next w) vs, REDIS_OK, r, stored vs (add_live 2 w)).
Proof.
  intros Hw Hok Hcat Hmax. destruct (read_stream_eq chunks w Hw) as (r & -> & Hh).
  destruct (feed_values vs chunks r fresh_core (add_live 2 w)) as (r' & c' & E & _); try done.
  by exists r'.
Qed.

(** A status, an array with a string and a nested array, and a nil, one byte
    at a time. *)
Definition sample_values : list value :=
  [VStatus (lit "OK"); VArray [VBulk (lit "ab"); VArray [VInteger (-7)]; VNilBulk]].

Lemma reader_roundtrip_witness :
  exists r, read_stream ((fun c => [c]) <$> concat (encode <$> sample_values)) world0 =
    Ok (Obj <$> locs 1 sample_values, REDIS_OK, r, stored sample_values (add_live 2 world0)).
Proof.
  apply (reader_roundtrip sample_values _ world0).
  - reflexivity.
  - repeat constructor. vm_compute. discriminate.
  - vm_compute. reflexivity.
  - vm_compute. discriminate.
Defined.

(** Two runs that a client cannot tell apart: the same replies, status and
    state, and readers that behave alike on whatever is fed next. *)
Definition same_run (p q : outcome (list objptr * Z * redisReader * world)) : Prop :=
  match p, q with
  | Ok (os, st, r, w), Ok (os', st', r', w') =>
      os = os' /\ st = st' /\ w = w' /\
      (r = r' \/ exists n m c d, holds n r c d /\ holds m r' c d)
  | Fault f, Fault f' => f = f'
  | _, _ => False
  end.

Lemma drain_post_same n m a p q : drain_post n a p -> drain_post m a q -> same_run p q.
Proof.
  destruct a as [[[os [c d|c]] w]|f]; cbn.
  - intros (r & -> & H & _) (r' & -> & H' & _). split_and!; try done. right. by exists n, m, c, d.
  - intros [-> _] [-> _]. split_and!; try done. by left.
  - intros -> ->. done.
Qed.

(** C7: the reader sees a stream of bytes, not of packets.  For any bytes at
    all, complete, truncated or malformed, two ways of cutting them into pieces
    give the same replies, the same status, the same objects in the same state,
    or the same fault, and leave readers with the same bytes pending. *)
Theorem reader_chunking chunks chunks' w :
  no_oom w -> concat chunks = concat chunks' -> 2 * zlen (concat chunks) <= INT_MAX ->
  same_run (read_stream chunks w) (read_stream chunks' w).
Proof.
  intros Hw Hcat Hmax. destruct (redisReaderCreate_ok w Hw) as (r & E & Hh).
  assert (forall cs, read_stream cs w = feed_all r cs (add_live 2 w)) as Hrs.
  { intros cs. unfold read_stream. rewrite (bind_ok _ _ _ _ _ E).
    by erewrite (bind_ok (deref (Some r))) by reflexivity. }
  rewrite !Hrs.
  assert (settled (start fresh_core) [] (add_live 2 w)) as Hs by (apply run_nil; by eapply holds_live).
  pose proof (feed_all_implements chunks 0 r _ [] (add_live 2 w) Hh Hw Hs ltac:(lia)) as H1.
  pose proof (feed_all_implements chunks' 0 r _ [] (add_live 2 w) Hh Hw Hs ltac:(rewrite <- Hcat; lia)) as H2.
  rewrite <- Hcat in H2. by eapply drain_post_same.
Qed.

Lemma reader_chunking_witness :
  same_run (read_stream [lit "*2"; [13; 10; 36]; lit "x"] world0) (read_stream [lit "*2" ++ [13; 10] ++ lit "$x"] world0).
Proof.
  apply (reader_chunking [lit "*2"; [13; 10; 36]; lit "x"]).
  - reflexivity.
  - vm_compute. reflexivity.
  - vm_compute. discriminate.
Defined.

(** C23: [freeReplyObject] releases what the reader allocated for a reply and
    nothing else: on a store that holds the objects of the value [v] from
    address [l] on, it removes exactly those objects and releases exactly their
    blocks, to any depth. *)
Theorem freeReplyObject_releases v l h w :
  vacant l (objects v) h -> w_objs w = map_seq l (layout l v) ∪ h ->
  freeReplyObject (Obj l) w = Ok (tt, add_live (- blocks v) (set_objs h w)).
Proof. apply freeReplyObject_ok. Qed.

Lemma freeReplyObject_releases_witness :
  let v := VArray [VBulk (lit "ab"); VArray [VInteger (-7)]; VNilBulk] in
  let w := stored [v] world0 in
  freeReplyObject (Obj 1%nat) w = Ok (tt, add_live (-8) (set_objs ∅ w)).
Proof.
  intros v w. apply (freeReplyObject_releases v 1 ∅ w).
  - intros j _. apply lookup_empty.
  - vm_compute. reflexivity.
Defined.

(** No reply leaks.  Reading a reply and then releasing it leaves the
    store and the number of live blocks as they were but for the reader. *)
Theorem read_then_free v chunks w :
  no_oom w -> value_ok 2 v -> concat chunks = encode v -> 2 * zlen (concat chunks) <= INT_MAX ->
  vacant (w_next w) (objects v) (w_objs w) ->
  exists os st r w', read_stream chunks w = Ok (os, st, r, w') /\ os = [Obj (w_next w)] /\
    exists w'', freeReplyObject (Obj (w_next w)) w' = Ok (tt, w'') /\
      w_objs w'' = w_objs w /\ w_live w'' = w_live w + 2.
Proof.
  intros Hw Hok Hcat Hmax Hva. destruct (read_stream_eq chunks w Hw) as (r & E0 & Hh).
  destruct (feed_values [v] chunks r fresh_core (add_live 2 w)) as (r' & c' & E & _); try done.
  - by apply Forall_singleton.
  - cbn. by rewrite app_nil_r.
  - eexists _, _, _, _. split; [by rewrite E0|]. split; [done|].
    eexists. split; [|split].
    + apply (freeReplyObject_ok v _ (w_objs w)); [done|]. cbn. by rewrite app_nil_r.
    + done.
    + cbn. lia.
Qed.

Lemma read_then_free_witness :
  exists os st r w', read_stream [lit "$2" ++ [13; 10; 104]; [105; 13; 10]] world0 = Ok (os, st, r, w') /\
    os = [Obj 1%nat] /\
    exists w'', freeReplyObject (Obj 1%nat) w' = Ok (tt, w'') /\ w_objs w'' = ∅ /\ w_live w'' = 0 + 2.
Proof.
  apply (read_then_free (VBulk (lit "hi")) _ world0).
  - reflexivity.
  - repeat constructor.
  - vm_compute. reflexivity.
  - vm_compute. discriminate.
  - intros j _. apply lookup_empty.
Defined.
