(* ===== verification/Dict.v ===== *)
(** The hash table ([hiredis-win32-master/dict.c] and [dict.h]), used by the
    asynchronous client for its subscriptions.

    A table is an array of chains.  The entries of a chain are kept as a list,
    each with the address it was allocated at, so that the pointers an iterator
    holds are addresses and the [next] field of an entry is its successor in
    the chain.  Keys, values and the functions on them are the interface
    [dictType], whose members may be absent as in the code; [DictKeys] states
    what a table relies on, and under it every operation implements the same
    operation on a finite map. *)

From S2P Require Import Prelude Machine.
From stdpp Require Import base tactics list numbers gmap sorting.

Local Open Scope Z_scope.

Definition DICT_OK : Z := 0.
Definition DICT_ERR : Z := 1.
Definition DICT_HT_INITIAL_SIZE : Z := 4.

(** [hash = ((hash << 5) + hash) + c] over the bytes, in an [unsigned int]. *)
Fixpoint hash_bytes (hash : Z) (buf : list char) : Z :=
  match buf with
  | [] => hash
  | c :: buf => hash_bytes (uint (uint (uint (Z.shiftl hash 5) + hash) + c)) buf
  end.

(** [len] counts down to zero: a negative one runs off the buffer. *)
Definition dictGenHashFunction (buf : list char) (len : Z) : outcome Z :=
  match mem_read buf 0 len with
  | Ok d => Ok (hash_bytes 5381 d)
  | Fault e => Fault e
  end.

Section dict.
Context {K V : Type} `{EqDecision K}.

(** The functions of a table; a NULL member is [None]. *)
Record dictType := mkType {
  hashFunction : K -> outcome Z;
  keyDup : option (Z -> K -> M K);
  valDup : option (Z -> V -> M V);
  keyCompare : option (Z -> K -> K -> outcome bool);
  keyDestructor : option (Z -> K -> M unit);
  valDestructor : option (Z -> V -> M unit)
}.

Record dictEntry := mkEntry { de_addr : loc; de_key : K; de_val : V }.

Record dict := mkDict {
  ht_table : option (list (list dictEntry));
  ht_type : dictType;
  ht_size : Z;
  ht_sizemask : Z;
  ht_used : Z;
  ht_privdata : Z
}.

Record dictIterator := mkIter {
  it_index : Z;
  it_entry : option loc;
  it_nextEntry : option loc
}.

Definition set_table (t : option (list (list dictEntry))) (used : Z) (ht : dict) : dict :=
  mkDict t (ht_type ht) (ht_size ht) (ht_sizemask ht) used (ht_privdata ht).

(** ** Macros of [dict.h] *)

Definition dictFreeEntryVal (ht : dict) (e : dictEntry) : M unit :=
  match valDestructor (ht_type ht) with Some f => f (ht_privdata ht) (de_val e) | None => ret tt end.

Definition dictFreeEntryKey (ht : dict) (e : dictEntry) : M unit :=
  match keyDestructor (ht_type ht) with Some f => f (ht_privdata ht) (de_key e) | None => ret tt end.

Definition dictSetHashVal (ht : dict) (val : V) : M V :=
  match valDup (ht_type ht) with Some f => f (ht_privdata ht) val | None => ret val end.

Definition dictSetHashKey (ht : dict) (key : K) : M K :=
  match keyDup (ht_type ht) with Some f => f (ht_privdata ht) key | None => ret key end.

Definition dictCompareHashKeys (ht : dict) (k1 k2 : K) : M bool :=
  match keyCompare (ht_type ht) with
  | Some f => lift (f (ht_privdata ht) k1 k2)
  | None => ret (bool_decide (k1 = k2))
  end.

Definition dictHashKey (ht : dict) (key : K) : M Z := lift (hashFunction (ht_type ht) key).

(** [ht->table[i]]. *)
Definition get_slot (t : option (list (list dictEntry))) (i : Z) : M (list dictEntry) :=
  match t with
  | None => crash NullDeref
  | Some t =>
      if 0 <=? i then match t !! Z.to_nat i with Some c => ret c | None => crash OutOfBounds end
      else crash OutOfBounds
  end.

(** [ht->table[i] = c]. *)
Definition put_slot (t : option (list (list dictEntry))) (i : Z) (c : list dictEntry)
  : M (option (list (list dictEntry))) :=
  let* _ := get_slot t i in
  ret ((fun t => <[Z.to_nat i := c]> t) <$> t).

(** ** Creation and growth *)

Definition _dictReset (ht : dict) : dict :=
  mkDict None (ht_type ht) 0 0 0 (ht_privdata ht).

Definition _dictInit (type : dictType) (privDataPtr : Z) : dict :=
  _dictReset (mkDict None type 0 0 0 privDataPtr).

Definition dictCreate (type : dictType) (privDataPtr : Z) : M dict :=
  let* ok := alloc_block in
  if ok : bool then ret (_dictInit type privDataPtr) else crash NullDeref.

(** [while(1) { if (i >= size) return i; i *= 2; }] *)
Fixpoint next_power_loop (fuel : nat) (i size : Z) : outcome Z :=
  match fuel with
  | O => Fault OutOfFuel
  | S f => if size <=? i then Ok i else next_power_loop f (ulong (i * 2)) size
  end.

(** Sixty-two doublings of the initial size pass every smaller [size]. *)
Definition _dictNextPower (size : Z) : outcome Z :=
  if LLONG_MAX <=? size then Ok LLONG_MAX
  else next_power_loop 64 DICT_HT_INITIAL_SIZE size.

(** [while(he) ...]: move the entries of a chain to the new table. *)
Fixpoint move_chain (ht : dict) (he : list dictEntry) (n : dict) (used : Z) : M (dict * Z) :=
  match he with
  | [] => ret (n, used)
  | e :: nextHe =>
      let* hash := dictHashKey ht (de_key e) in
      let h := uint (Z.land hash (ht_sizemask n)) in
      let* slot := get_slot (ht_table n) h in
      let* t := put_slot (ht_table n) h (e :: slot) in
      move_chain ht nextHe (set_table t (ht_used n) n) (ulong (used - 1))
  end.

(** [for (i = 0; i < ht->size && ht->used > 0; i++)], [k] slots to go. *)
Fixpoint expand_loop (k : nat) (i : Z) (ht n : dict) (used : Z) : M (dict * Z) :=
  match k with
  | O => ret (n, used)
  | S k' =>
      if 0 <? used then
        let* he := get_slot (ht_table ht) i in
        let* (n, used) := move_chain ht he n used in
        expand_loop k' (i + 1) ht n used
      else ret (n, used)
  end.

(** The status and the table. *)
Definition dictExpand (ht : dict) (size : Z) : M (Z * dict) :=
  let* realsize := lift (_dictNextPower size) in
  if size <? ht_used ht then ret (DICT_ERR, ht)
  else
    let* ok := alloc_block in
    let table := if ok : bool then Some (replicate (Z.to_nat realsize) []) else None in
    let n := mkDict table (ht_type ht) realsize (ulong (realsize - 1)) (ht_used ht) (ht_privdata ht) in
    let* (n, used) := expand_loop (Z.to_nat (ht_size ht)) 0 ht n (ht_used ht) in
    let* _ := assert_ (used =? 0) in
    let* _ := match ht_table ht with Some _ => free | None => ret tt end in
    ret (DICT_OK, n).

Definition _dictExpandIfNeeded (ht : dict) : M (Z * dict) :=
  if ht_size ht =? 0 then dictExpand ht DICT_HT_INITIAL_SIZE
  else if ht_used ht =? ht_size ht then dictExpand ht (ulong (ht_size ht * 2))
  else ret (DICT_OK, ht).

(** ** Search *)

(** [while(he) { if (compare) return he; he = he->next; }] *)
Fixpoint find_chain (ht : dict) (key : K) (he : list dictEntry) : M (option dictEntry) :=
  match he with
  | [] => ret None
  | e :: next =>
      let* eq := dictCompareHashKeys ht key (de_key e) in
      if eq : bool then ret (Some e) else find_chain ht key next
  end.

Definition _dictKeyIndex (ht : dict) (key : K) : M (Z * dict) :=
  let* (st, ht) := _dictExpandIfNeeded ht in
  if st =? DICT_ERR then ret (-1, ht)
  else
    let* hash := dictHashKey ht key in
    let h := uint (Z.land hash (ht_sizemask ht)) in
    let* he := get_slot (ht_table ht) h in
    let* found := find_chain ht key he in
    match found with Some _ => ret (-1, ht) | None => ret (int h, ht) end.

Definition dictFind (ht : dict) (key : K) : M (option dictEntry) :=
  if ht_size ht =? 0 then ret None
  else
    let* hash := dictHashKey ht key in
    let h := uint (Z.land hash (ht_sizemask ht)) in
    let* he := get_slot (ht_table ht) h in
    find_chain ht key he.

(** ** Change *)

(** [entry = malloc(sizeof( *entry))], used without a test. *)
Definition new_entry : M loc :=
  let* ok := alloc_block in
  if ok : bool then fun w => Ok (w_next w, set_next (S (w_next w)) w) else crash NullDeref.

Definition dictAdd (ht : dict) (key : K) (val : V) : M (Z * dict) :=
  let* (index, ht) := _dictKeyIndex ht key in
  if index =? -1 then ret (DICT_ERR, ht)
  else
    let* a := new_entry in
    let* slot := get_slot (ht_table ht) index in
    let* k := dictSetHashKey ht key in
    let* v := dictSetHashVal ht val in
    let* t := put_slot (ht_table ht) index (mkEntry a k v :: slot) in
    ret (DICT_OK, set_table t (ulong (ht_used ht + 1)) ht).

(** Store the value [v] in the entry at address [a]. *)
Definition set_val (a : loc) (v : V) (e : dictEntry) : dictEntry :=
  if Nat.eqb (de_addr e) a then mkEntry (de_addr e) (de_key e) v else e.

Definition dictReplace (ht : dict) (key : K) (val : V) : M (Z * dict) :=
  let* (st, ht) := dictAdd ht key val in
  if st =? DICT_OK then ret (1, ht)
  else
    let* entry := dictFind ht key in
    let* entry := deref entry in
    let* v := dictSetHashVal ht val in
    let* _ := dictFreeEntryVal ht entry in
    ret (0, set_table (map (map (set_val (de_addr entry) v)) <$> ht_table ht) (ht_used ht) ht).

(** The entry found, and the chain without it. *)
Fixpoint delete_chain (ht : dict) (key : K) (de : list dictEntry)
  : M (option (dictEntry * list dictEntry)) :=
  match de with
  | [] => ret None
  | e :: next =>
      let* eq := dictCompareHashKeys ht key (de_key e) in
      if eq : bool then ret (Some (e, next))
      else
        let* r := delete_chain ht key next in
        ret ((fun p : dictEntry * list dictEntry => (p.1, e :: p.2)) <$> r)
  end.

Definition dictDelete (ht : dict) (key : K) : M (Z * dict) :=
  if ht_size ht =? 0 then ret (DICT_ERR, ht)
  else
    let* hash := dictHashKey ht key in
    let h := uint (Z.land hash (ht_sizemask ht)) in
    let* de := get_slot (ht_table ht) h in
    let* found := delete_chain ht key de in
    match found with
    | Some (e, rest) =>
        let* t := put_slot (ht_table ht) h rest in
        let* _ := dictFreeEntryKey ht e in
        let* _ := dictFreeEntryVal ht e in
        let* _ := free in
        ret (DICT_OK, set_table t (ulong (ht_used ht - 1)) ht)
    | None => ret (DICT_ERR, ht)
    end.

Fixpoint clear_chain (ht : dict) (he : list dictEntry) (used : Z) : M Z :=
  match he with
  | [] => ret used
  | e :: nextHe =>
      let* _ := dictFreeEntryKey ht e in
      let* _ := dictFreeEntryVal ht e in
      let* _ := free in
      clear_chain ht nextHe (ulong (used - 1))
  end.

Fixpoint clear_loop (k : nat) (i : Z) (ht : dict) (used : Z) : M Z :=
  match k with
  | O => ret used
  | S k' =>
      if 0 <? used then
        let* he := get_slot (ht_table ht) i in
        let* used := clear_chain ht he used in
        clear_loop k' (i + 1) ht used
      else ret used
  end.

Definition _dictClear (ht : dict) : M dict :=
  let* _ := clear_loop (Z.to_nat (ht_size ht)) 0 ht (ht_used ht) in
  let* _ := match ht_table ht with Some _ => free | None => ret tt end in
  ret (_dictReset ht).

Definition dictRelease (ht : dict) : M unit :=
  let* _ := _dictClear ht in
  free.

(** ** Iteration *)

Definition dictGetIterator : M dictIterator :=
  let* ok := alloc_block in
  if ok : bool then ret (mkIter (-1) None None) else crash NullDeref.

(** The chain from the entry at address [a] on. *)
Fixpoint suffix_at (a : loc) (c : list dictEntry) : option (list dictEntry) :=
  match c with
  | [] => None
  | e :: c' => if Nat.eqb (de_addr e) a then Some c else suffix_at a c'
  end.

Fixpoint suffix_in (a : loc) (t : list (list dictEntry)) : option (list dictEntry) :=
  match t with
  | [] => None
  | c :: t' => match suffix_at a c with Some s => Some s | None => suffix_in a t' end
  end.

(** Dereference a pointer to an entry: the entry and its [next]. *)
Definition entry_at (ht : dict) (a : loc) : M (dictEntry * option loc) :=
  match ht_table ht with
  | None => crash UseAfterFree
  | Some t =>
      match suffix_in a t with
      | Some (e :: rest) => ret (e, de_addr <$> head rest)
      | _ => crash UseAfterFree
      end
  end.

(** [while (1)]: a chain ends once, and there are [size] of them. *)
Fixpoint next_loop (fuel : nat) (ht : dict) (it : dictIterator) : M (option dictEntry * dictIterator) :=
  match fuel with
  | O => crash OutOfFuel
  | S f =>
      match it_entry it with
      | None =>
          let* index := lift (int_ok (it_index it + 1)) in
          if int (ht_size ht) <=? index then ret (None, mkIter index None (it_nextEntry it))
          else
            let* c := get_slot (ht_table ht) index in
            match head c with
            | Some e =>
                let* (e, next) := entry_at ht (de_addr e) in
                ret (Some e, mkIter index (Some (de_addr e)) next)
            | None => next_loop f ht (mkIter index None (it_nextEntry it))
            end
      | Some _ =>
          match it_nextEntry it with
          | Some a =>
              let* (e, next) := entry_at ht a in
              ret (Some e, mkIter (it_index it) (Some a) next)
          | None => next_loop f ht (mkIter (it_index it) None (it_nextEntry it))
          end
      end
  end.

Definition dictNext (ht : dict) (it : dictIterator) : M (option dictEntry * dictIterator) :=
  next_loop (S (S (Z.to_nat (ht_size ht)))) ht it.

Definition dictReleaseIterator : M unit := free.
End dict.
Arguments dictType K V : clear implicits.
Arguments dictEntry K V : clear implicits.
Arguments dict K V : clear implicits.

(** * What a table relies on *)

(** The keys of a table of type [ty] stand for elements of [C]: comparison is
    equality of what they stand for, and the hash depends on nothing else.
    Copies of a key or value stand for the same and cost a fixed number of
    blocks, which the destructors release. *)
Class DictKeys {K V} `{EqDecision K} (C : Type) `{Countable C} (ty : dictType K V) := {
  dk_valid : K -> Prop;
  dk_canon : K -> C;
  dk_hash : C -> Z;
  dk_kcost : Z;
  dk_vcost : Z;
  dk_hash_range c : 0 <= dk_hash c < 2 ^ 32;
  dk_hash_ok k : dk_valid k -> hashFunction ty k = Ok (dk_hash (dk_canon k));
  dk_compare_ok pd k1 k2 : dk_valid k1 -> dk_valid k2 ->
    match keyCompare ty with
    | Some f => f pd k1 k2 = Ok (bool_decide (dk_canon k1 = dk_canon k2))
    | None => k1 = k2 <-> dk_canon k1 = dk_canon k2
    end;
  dk_kdup_ok pd k w : dk_valid k -> no_oom w ->
    match keyDup ty with
    | Some f => exists k' d, f pd k w = Ok (k', add_live d w) /\ dk_valid k' /\ dk_canon k' = dk_canon k
    | None => True
    end;
  dk_vdup_ok pd v w : no_oom w ->
    match valDup ty with
    | Some f => f pd v w = Ok (v, add_live dk_vcost w)
    | None => True
    end;
  dk_kfree_ok pd k w :
    match keyDestructor ty with
    | Some f => f pd k w = Ok (tt, add_live (- dk_kcost) w)
    | None => dk_kcost = 0
    end;
  dk_vfree_ok pd v w :
    match valDestructor ty with
    | Some f => f pd v w = Ok (tt, add_live (- dk_vcost) w)
    | None => dk_vcost = 0
    end
}.

(** * Well-formed tables and the map they represent *)

Section spec.
Context {K V C : Type} `{EqDecision K} `{Countable C}.

Definition entries (ht : dict K V) : list (dictEntry K V) :=
  match ht_table ht with Some t => concat t | None => [] end.

Context (ty : dictType K V) `{Hkeys : !DictKeys C ty}.

(** An entry in its slot. *)
Definition placed (mask : Z) (i : nat) (e : dictEntry K V) : Prop :=
  dk_valid (de_key e) /\ Z.land (dk_hash (dk_canon (de_key e))) mask = Z.of_nat i.

Definition slots_ok (mask : Z) (t : list (list (dictEntry K V))) : Prop :=
  forall i c, t !! i = Some c -> Forall (placed mask i) c.

Definition table_ok (ht : dict K V) : Prop :=
  match ht_table ht with
  | None => ht_size ht = 0
  | Some t =>
      exists k, 2 <= k <= 30 /\ ht_size ht = 2 ^ k /\ ht_sizemask ht = 2 ^ k - 1 /\
        zlen t = ht_size ht /\ slots_ok (ht_sizemask ht) t
  end.

(** [n]: the addresses from [n] on are free. *)
Record dict_wf (n : nat) (ht : dict K V) : Prop := {
  dw_type : ht_type ht = ty;
  dw_table : table_ok ht;
  dw_used : ht_used ht = zlen (entries ht);
  dw_keys : NoDup (dk_canon ∘ de_key <$> entries ht);
  dw_addr : NoDup (de_addr <$> entries ht);
  dw_below : Forall (fun a => (a < n)%nat) (de_addr <$> entries ht)
}.

(** The map a table represents. *)
Definition dict_map (ht : dict K V) : gmap C V :=
  list_to_map ((fun e => (dk_canon (de_key e), de_val e)) <$> entries ht).

(** ** Search *)

Lemma compare_ok ht k1 k2 w :
  ht_type ht = ty -> dk_valid k1 -> dk_valid k2 ->
  dictCompareHashKeys ht k1 k2 w = Ok (bool_decide (dk_canon k1 = dk_canon k2), w).
Proof.
  intros Hty H1 H2. unfold dictCompareHashKeys. rewrite Hty.
  pose proof (dk_compare_ok (ht_privdata ht) k1 k2 H1 H2) as Hc.
  destruct (keyCompare ty); [by rewrite Hc|]. unfold ret. do 2 f_equal.
  by apply bool_decide_ext.
Qed.

Definition matches (key : K) (e : dictEntry K V) : Prop := dk_canon (de_key e) = dk_canon key.
#[local] Instance matches_dec key e : Decision (matches key e).
Proof. unfold matches. apply _. Defined.

Lemma find_chain_ok ht key c w :
  ht_type ht = ty -> dk_valid key -> Forall (fun e => dk_valid (de_key e)) c ->
  find_chain ht key c w = Ok (snd <$> list_find (matches key) c, w).
Proof.
  intros Hty Hk. induction 1 as [|e c He Hc IH]; cbn [find_chain list_find]; [done|].
  rewrite (bind_ok _ _ _ _ _ (compare_ok ht key (de_key e) w Hty Hk He)).
  case_bool_decide as Hm; destruct (decide (matches key e)) as [Hm'|Hm']; try (unfold matches in Hm'; congruence); [done|].
  rewrite IH. by destruct (list_find (matches key) c) as [[]|].
Qed.

(** Chains partition the keys by their hash. *)
Lemma slot_index ht t key :
  ht_table ht = Some t -> table_ok ht ->
  exists h c, Z.land (dk_hash (dk_canon key)) (ht_sizemask ht) = Z.of_nat h /\
    uint (Z.land (dk_hash (dk_canon key)) (ht_sizemask ht)) = Z.of_nat h /\
    Z.of_nat h < 2 ^ 30 /\ t !! h = Some c /\ Forall (placed (ht_sizemask ht) h) c.
Proof.
  intros Ht Htab. unfold table_ok in Htab. rewrite Ht in Htab.
  destruct Htab as (k & Hk & Hsz & Hm & Hlen & Hslots).
  assert (Z.land (dk_hash (dk_canon key)) (ht_sizemask ht) = dk_hash (dk_canon key) mod 2 ^ k) as E.
  { rewrite Hm. replace (2 ^ k - 1) with (Z.ones k) by (rewrite Z.ones_equiv; lia).
    apply Z.land_ones. lia. }
  pose proof (Z.mod_pos_bound (dk_hash (dk_canon key)) (2 ^ k) ltac:(lia)) as Hb.
  assert (2 ^ k <= 2 ^ 30) by (apply Z.pow_le_mono_r; lia).
  set (h := Z.to_nat (dk_hash (dk_canon key) mod 2 ^ k)).
  destruct (lookup_lt_is_Some_2 t h) as [c Hc]; [lia|].
  exists h, c. rewrite E. split_and!; [lia| |lia|done|by apply Hslots].
  rewrite unsigned_id; lia.
Qed.
Lemma elem_of_entries ht t e :
  ht_table ht = Some t -> e ∈ entries ht <-> exists i c, t !! i = Some c /\ e ∈ c.
Proof.
  intros Ht. unfold entries. rewrite Ht, list_elem_of_In, in_concat. split.
  - intros (c & Hc%list_elem_of_In & He%list_elem_of_In). apply list_elem_of_lookup in Hc as [i Hi]. eauto.
  - intros (i & c & Hi & He). exists c. rewrite <- !list_elem_of_In. split; [|done].
    by eapply list_elem_of_lookup_2.
Qed.

Lemma entry_slot ht t key e h c :
  ht_table ht = Some t -> table_ok ht -> e ∈ entries ht -> matches key e ->
  Z.land (dk_hash (dk_canon key)) (ht_sizemask ht) = Z.of_nat h -> t !! h = Some c -> e ∈ c.
Proof.
  intros Ht Htab He Hm Hh Hc. apply (elem_of_entries ht t e Ht) in He as (i & c' & Hi & He).
  unfold table_ok in Htab. rewrite Ht in Htab. destruct Htab as (k & _ & _ & _ & _ & Hslots).
  pose proof (proj1 (Forall_forall _ _) (Hslots i c' Hi) e He) as [_ Hpl].
  unfold matches in Hm. rewrite Hm, Hh in Hpl. assert (i = h) as -> by lia. congruence.
Qed.

(** What a search returns. *)
Definition found (ht : dict K V) (key : K) (r : option (dictEntry K V)) : Prop :=
  match r with
  | Some e => e ∈ entries ht /\ matches key e
  | None => forall e, e ∈ entries ht -> ~ matches key e
  end.

Lemma placed_valid mask i c : Forall (placed mask i) c -> Forall (fun e => dk_valid (de_key e)) c.
Proof. intros H'. eapply Forall_impl; [done|]. by intros e []. Qed.

(** The search in the slot of a key. *)
Lemma find_slot_ok ht t key h c w :
  ht_type ht = ty -> ht_table ht = Some t -> table_ok ht -> dk_valid key ->
  Z.land (dk_hash (dk_canon key)) (ht_sizemask ht) = Z.of_nat h -> t !! h = Some c ->
  Forall (placed (ht_sizemask ht) h) c ->
  exists r, find_chain ht key c w = Ok (r, w) /\ found ht key r.
Proof.
  intros Hty Ht Htab Hk Hh Hc Hpl.
  rewrite find_chain_ok by (done || by eapply placed_valid). eexists. split; [done|].
  destruct (list_find (matches key) c) as [[j e]|] eqn:Ef; cbn.
  - apply list_find_Some in Ef as (Hj & Hm & _). split; [|done].
    apply (elem_of_entries ht t e Ht). exists h, c. split; [done|]. by eapply list_elem_of_lookup_2.
  - apply list_find_None in Ef. intros e He Hm.
    apply (proj1 (Forall_forall _ _) Ef e); [|done]. by eapply entry_slot.
Qed.

Lemma get_slot_ok (t : list (list (dictEntry K V))) h c w :
  t !! h = Some c -> get_slot (Some t) (Z.of_nat h) w = Ok (c, w).
Proof. intros Hc. unfold get_slot. rewrite (proj2 (Z.leb_le _ _)) by lia. by rewrite Nat2Z.id, Hc. Qed.

Lemma put_slot_ok (t : list (list (dictEntry K V))) h c c' w :
  t !! h = Some c -> put_slot (Some t) (Z.of_nat h) c' w = Ok (Some (<[h := c']> t), w).
Proof. intros Hc. unfold put_slot. rewrite (bind_ok _ _ _ _ _ (get_slot_ok t h c w Hc)). cbn. by rewrite Nat2Z.id. Qed.

Lemma hash_ok ht key w :
  ht_type ht = ty -> dk_valid key -> dictHashKey ht key w = Ok (dk_hash (dk_canon key), w).
Proof. intros Hty Hk. unfold dictHashKey. rewrite Hty, dk_hash_ok by done. done. Qed.

Lemma dictFind_ok n ht key w :
  dict_wf n ht -> dk_valid key -> exists r, dictFind ht key w = Ok (r, w) /\ found ht key r.
Proof.
  intros [Hty Htab _ _ _ _] Hk. unfold dictFind. destruct (ht_table ht) as [t|] eqn:Ht.
  - destruct (slot_index ht t key Ht Htab) as (h & c & Hh & Hu & _ & Hc & Hpl).
    assert ((ht_size ht =? 0) = false) as ->.
    { unfold table_ok in Htab. rewrite Ht in Htab. destruct Htab as (k & Hk2 & -> & _).
      apply Z.eqb_neq. lia. }
    rewrite (bind_ok _ _ _ _ _ (hash_ok ht key w Hty Hk)), Hu.
    rewrite (bind_ok _ _ _ _ _ (get_slot_ok t h c w Hc)). by eapply find_slot_ok.
  - unfold table_ok in Htab. rewrite Ht in Htab. rewrite Htab. exists None. split; [done|].
    unfold found, entries. rewrite Ht. intros e He. by apply elem_of_nil in He.
Qed.

(** ** The map *)

Lemma dict_map_lookup ht c v :
  NoDup (dk_canon ∘ de_key <$> entries ht) ->
  dict_map ht !! c = Some v <-> exists e, e ∈ entries ht /\ dk_canon (de_key e) = c /\ de_val e = v.
Proof.
  intros Hnd. unfold dict_map. rewrite <- elem_of_list_to_map.
  - rewrite list_elem_of_fmap. split.
    + intros (e & [= -> ->] & He). eauto.
    + intros (e & He & <- & <-). eauto.
  - rewrite <- list_fmap_compose. done.
Qed.

Lemma found_lookup ht key r :
  NoDup (dk_canon ∘ de_key <$> entries ht) -> found ht key r ->
  dict_map ht !! dk_canon key = de_val <$> r.
Proof.
  intros Hnd Hf. destruct r as [e|]; cbn in *.
  - destruct Hf as [He Hm]. apply (dict_map_lookup ht _ _ Hnd). exists e. done.
  - apply eq_None_not_Some. intros [v Hv]. apply (dict_map_lookup ht _ _ Hnd) in Hv as (e & He & Hc & _).
    by apply (Hf e He).
Qed.

(** Tables with the same entries represent the same map. *)
Lemma dict_map_perm ht ht' :
  NoDup (dk_canon ∘ de_key <$> entries ht) -> entries ht' ≡ₚ entries ht -> dict_map ht' = dict_map ht.
Proof.
  intros Hnd Hp. unfold dict_map. apply list_to_map_proper.
  - rewrite <- list_fmap_compose. rewrite Hp. done.
  - by rewrite Hp.
Qed.

(** ** Growth *)

Lemma concat_insert (t : list (list (dictEntry K V))) h c c' :
  t !! h = Some c -> exists rest, concat t ≡ₚ c ++ rest /\ concat (<[h := c']> t) ≡ₚ c' ++ rest.
Proof.
  intros Hc. exists (concat (take h t) ++ concat (drop (S h) t)).
  rewrite insert_take_drop by (by eapply lookup_lt_Some).
  rewrite <- (take_drop_middle t h c Hc) at 1. rewrite !concat_app. cbn [concat].
  split; by rewrite !(Permutation_app_comm (concat (take h t))), <- !app_assoc,
    (Permutation_app_comm (concat (drop (S h) t))).
Qed.

Lemma slots_ok_insert mask t h c :
  slots_ok mask t -> Forall (placed mask h) c -> slots_ok mask (<[h := c]> t).
Proof.
  intros Ht Hc i c' Hi. destruct (decide (i = h)) as [->|Hne].
  - destruct (decide (h < length t)%nat) as [Hlt|Hge].
    + rewrite list_lookup_insert_eq in Hi by done. by injection Hi as <-.
    + rewrite list_insert_ge in Hi by lia. by apply Ht.
  - rewrite list_lookup_insert_ne in Hi by done. by apply Ht.
Qed.

(** A table that can take entries of [ty]. *)
Definition open_table (n : dict K V) (t : list (list (dictEntry K V))) : Prop :=
  ht_table n = Some t /\ table_ok n.

Lemma open_table_put n t h c used :
  open_table n t -> Forall (placed (ht_sizemask n) h) c ->
  open_table (set_table (Some (<[h := c]> t)) used n) (<[h := c]> t).
Proof.
  intros [Ht Htab] Hc. split; [done|]. unfold table_ok in *. rewrite Ht in Htab. cbn.
  destruct Htab as (k & ? & ? & ? & ? & ?). exists k. rewrite length_insert.
  split_and!; try done; try lia. by apply slots_ok_insert.
Qed.

Lemma move_chain_ok ht he n t used w :
  ht_type ht = ty -> Forall (fun e => dk_valid (de_key e)) he -> open_table n t ->
  zlen he <= used -> used < 2 ^ 63 ->
  exists t', move_chain ht he n used w = Ok (set_table (Some t') (ht_used n) n, used - zlen he, w) /\
    open_table (set_table (Some t') (ht_used n) n) t' /\ concat t' ≡ₚ he ++ concat t.
Proof.
  intros Hty Hv. revert n t used. induction Hv as [|e he He Hhe IH]; intros n t used Hn Hu Hmax.
  - exists t. destruct Hn as [Ht Htab].
    assert (set_table (Some t) (ht_used n) n = n) as -> by (destruct n; cbn in *; by subst).
    cbn. rewrite Z.sub_0_r. done.
  - cbn [move_chain length] in *. rewrite (bind_ok _ _ _ _ _ (hash_ok ht (de_key e) w Hty He)).
    pose proof Hn as [Ht Htab].
    destruct (slot_index n t (de_key e) Ht Htab) as (h & c & Hh & Huh & _ & Hc & Hpl).
    rewrite Huh, Ht. rewrite (bind_ok _ _ _ _ _ (get_slot_ok t h c w Hc)).
    rewrite (bind_ok _ _ _ _ _ (put_slot_ok t h c (e :: c) w Hc)).
    assert (Forall (placed (ht_sizemask n) h) (e :: c)) as Hpl' by (by constructor).
    pose proof (open_table_put n t h (e :: c) (ht_used n) Hn Hpl') as Hn'.
    rewrite size_t_id by climits.
    destruct (IH _ _ (used - 1) Hn' ltac:(lia) ltac:(lia)) as (t' & E & Ho & Hp).
    exists t'. cbn [set_table ht_used ht_type ht_size ht_sizemask ht_privdata] in *.
    split_and!; [|done|].
    + rewrite E. unfold set_table. cbn. do 3 f_equal. lia.
    + rewrite Hp. destruct (concat_insert t h c (e :: c) Hc) as (rest & Hp1 & Hp2).
      rewrite Hp2, Hp1. cbn. by rewrite <- Permutation_middle.
Qed.
(** The loop over the slots stops when the entries are exhausted. *)
Lemma expand_loop_ok ht t0 n t used i w :
  ht_type ht = ty -> ht_table ht = Some t0 -> Forall (Forall (fun e => dk_valid (de_key e))) t0 ->
  open_table n t -> (i <= length t0)%nat ->
  used = zlen (concat (drop i t0)) -> used < 2 ^ 63 ->
  exists t', expand_loop (length t0 - i) (Z.of_nat i) ht n used w =
      Ok (set_table (Some t') (ht_used n) n, 0, w) /\
    open_table (set_table (Some t') (ht_used n) n) t' /\ concat t' ≡ₚ concat (drop i t0) ++ concat t.
Proof.
  intros Hty Ht0 Hv. remember (length t0 - i)%nat as k eqn:Hk.
  revert i n t used Hk. induction k as [|k IH]; intros i n t used Hk Hn Hi Hu Hmax; cbn [expand_loop].
  - assert (drop i t0 = []) as Hd by (apply drop_ge; lia). rewrite Hd in *. cbn in Hu. subst used.
    exists t. destruct Hn as [Ht Htab].
    assert (set_table (Some t) (ht_used n) n = n) as -> by (destruct n; cbn in *; by subst). done.
  - destruct (lookup_lt_is_Some_2 t0 i) as [c Hc]; [lia|].
    rewrite (drop_S t0 c i Hc) in Hu. cbn [concat] in Hu. rewrite length_app in Hu.
    rewrite (drop_S t0 c i Hc). cbn [concat].
    destruct (Z.ltb_spec 0 used) as [Hpos|Hz].
    2: { assert (concat (drop (S i) t0) = [] /\ c = []) as [-> ->].
         { split; apply nil_length_inv; lia. }
         exists t. destruct Hn as [Ht Htab].
         assert (set_table (Some t) (ht_used n) n = n) as -> by (destruct n; cbn in *; by subst).
         split_and!; [|done..]. unfold ret. do 3 f_equal. lia. }
    rewrite Ht0, (bind_ok _ _ _ _ _ (get_slot_ok t0 i c w Hc)).
    assert (Forall (fun e => dk_valid (de_key e)) c) as Hcv by (by eapply Forall_lookup_1).
    destruct (move_chain_ok ht c n t used w Hty Hcv Hn ltac:(lia) Hmax) as (t1 & E & Ho & Hp).
    rewrite (bind_ok _ _ _ _ _ E).
    destruct (IH (S i) (set_table (Some t1) (ht_used n) n) t1 (used - zlen c)) as (t' & E' & Ho' & Hp');
      [lia|done|lia|lia|lia|].
    exists t'. replace (Z.of_nat i + 1) with (Z.of_nat (S i)) by lia. split_and!; [done|done|].
    rewrite Hp', Hp. by rewrite app_assoc, (Permutation_app_comm (concat (drop (S i) t0))).
Qed.

Lemma next_power_loop_ok fuel i j size :
  0 <= i <= j -> j <= 63 -> size <= 2 ^ j -> i = j \/ 2 ^ (j - 1) < size -> j - i < Z.of_nat fuel ->
  next_power_loop fuel (2 ^ i) size = Ok (2 ^ j).
Proof.
  revert i. induction fuel as [|f IH]; intros i Hi Hj Hs Hs' Hf; [lia|]. cbn [next_power_loop].
  assert (2 ^ j <= 2 ^ 63) by (apply Z.pow_le_mono_r; lia).
  destruct (Z.leb_spec size (2 ^ i)) as [Hle|Hgt].
  - destruct (decide (i = j)) as [->|Hne]; [done|].
    assert (2 ^ i <= 2 ^ (j - 1)) by (apply Z.pow_le_mono_r; lia). lia.
  - assert (i <> j) by (intros ->; lia).
    assert (2 ^ i * 2 = 2 ^ (i + 1)) as -> by (rewrite Z.pow_add_r; lia).
    assert (2 ^ (i + 1) <= 2 ^ j) by (apply Z.pow_le_mono_r; lia).
    assert (0 < 2 ^ (i + 1)) by (apply Z.pow_pos_nonneg; lia).
    rewrite size_t_id by climits. apply IH; lia.
Qed.

(** The capacity asked for is a power of two already. *)
Lemma dictNextPower_pow k : 2 <= k <= 30 -> _dictNextPower (2 ^ k) = Ok (2 ^ k).
Proof.
  intros Hk. unfold _dictNextPower.
  assert (2 ^ k <= 2 ^ 30) by (apply Z.pow_le_mono_r; lia).
  rewrite (proj2 (Z.leb_gt _ _)) by climits. apply (next_power_loop_ok 64 2 k); try lia.
  right. apply Z.pow_lt_mono_r; lia.
Qed.

Lemma concat_replicate_nil n : concat (replicate n ([] : list (dictEntry K V))) = [].
Proof. induction n; cbn; auto. Qed.

(** The block of the new table replaces the old one, if there was one. *)
Definition table_cost (ht : dict K V) : Z :=
  match ht_table ht with Some _ => 0 | None => 1 end.

(** The new table has the size asked for and the same entries. *)
Lemma dictExpand_ok m ht k w :
  dict_wf m ht -> no_oom w -> 2 <= k <= 30 -> ht_used ht <= 2 ^ k ->
  exists ht' d, dictExpand ht (2 ^ k) w = Ok (DICT_OK, ht', add_live d w) /\
    d = table_cost ht /\ dict_wf m ht' /\ entries ht' ≡ₚ entries ht /\
    ht_size ht' = 2 ^ k /\ is_Some (ht_table ht').
Proof.
  intros [Hty Htab Hused Hkeys' Haddr Hbelow] Hw Hk Hu. unfold dictExpand.
  assert (2 ^ k <= 2 ^ 30) by (apply Z.pow_le_mono_r; lia).
  lift_step (dictNextPower_pow k Hk). rewrite (proj2 (Z.ltb_ge _ _)) by lia.
  rewrite (bind_ok _ _ _ _ _ (alloc_block_no_oom w Hw)).
  assert (0 < 2 ^ k) by (apply Z.pow_pos_nonneg; lia).
  set (t := replicate (Z.to_nat (2 ^ k)) []).
  set (n := mkDict _ _ _ _ _ _).
  assert (open_table n t) as Hn.
  { split; [done|]. unfold table_ok. cbn. exists k. rewrite size_t_id by climits.
    split_and!; [lia|lia|done|done|unfold t; rewrite length_replicate; lia|].
    intros i c Hc. unfold t in Hc. apply lookup_replicate in Hc as [-> _]. constructor. }
  assert (exists t', expand_loop (Z.to_nat (ht_size ht)) 0 ht n (ht_used ht) (add_live 1 w) =
      Ok (set_table (Some t') (ht_used n) n, 0, add_live 1 w) /\
    open_table (set_table (Some t') (ht_used n) n) t' /\ concat t' ≡ₚ entries ht) as (t' & E & Ho & Hp).
  { unfold entries in *. unfold table_ok in Htab. destruct (ht_table ht) as [t0|] eqn:Ht0.
    - destruct Htab as (k0 & _ & _ & _ & Hlen & Hslots).
      assert (Forall (Forall (fun e => dk_valid (de_key e))) t0) as Hv.
      { apply Forall_lookup. intros i c Hc. eapply placed_valid. by apply Hslots. }
      destruct (expand_loop_ok ht t0 n t (ht_used ht) 0 (add_live 1 w)) as (t' & E & Ho & Hp); try done; try lia.
      exists t'. rewrite <- Hlen, Nat2Z.id. rewrite Nat.sub_0_r in E. cbn [drop] in Hp.
      unfold t in Hp. rewrite concat_replicate_nil, app_nil_r in Hp. done.
    - exists t. rewrite Htab. cbn [Z.to_nat expand_loop]. cbn in Hused. rewrite Hused.
      split_and!; [done|done|]. unfold t. by rewrite concat_replicate_nil. }
  rewrite (bind_ok _ _ _ _ _ E). rewrite (bind_ok (assert_ (0 =? 0)) _ _ tt (add_live 1 w)) by done.
  exists (set_table (Some t') (ht_used n) n), (table_cost ht).
  assert (dict_wf m (set_table (Some t') (ht_used n) n)) as Hwf.
  { split; [done|apply Ho| | | |]; unfold entries; cbn; rewrite Hp; done. }
  split_and!; [|done|done|done|done|by eexists].
  unfold table_cost. destruct (ht_table ht); [|done]. unfold free, bind, modify, ret. do 2 f_equal.
  rewrite add_live_add. done.
Qed.
Lemma size_zero ht : table_ok ht -> ht_size ht = 0 <-> ht_table ht = None.
Proof.
  unfold table_ok. destruct (ht_table ht); [|done]. intros (k & Hk & -> & _). split; [lia|done].
Qed.

Lemma dictExpandIfNeeded_ok m ht w :
  dict_wf m ht -> no_oom w -> ht_used ht < 2 ^ 30 ->
  exists ht', _dictExpandIfNeeded ht w = Ok (DICT_OK, ht', add_live (table_cost ht) w) /\
    dict_wf m ht' /\ entries ht' ≡ₚ entries ht /\ is_Some (ht_table ht').
Proof.
  intros Hwf Hw Hu. pose proof Hwf as [_ Htab Hused _ _ _]. unfold _dictExpandIfNeeded.
  destruct (Z.eqb_spec (ht_size ht) 0) as [Hz|Hz].
  - assert (ht_used ht <= 2 ^ 2) as Hle.
    { apply (size_zero ht Htab) in Hz. unfold entries in Hused. rewrite Hz in Hused. cbn in Hused. lia. }
    destruct (dictExpand_ok m ht 2 w Hwf Hw ltac:(lia) Hle) as (ht' & d & E & -> & Hwf' & Hp & _ & Hs).
    by exists ht'.
  - assert (exists t, ht_table ht = Some t) as [t Ht].
    { destruct (ht_table ht) eqn:E; [eauto|]. by apply (size_zero ht Htab) in E. }
    destruct (Z.eqb_spec (ht_used ht) (ht_size ht)) as [Heq|Hne].
    + unfold table_ok in Htab. rewrite Ht in Htab. destruct Htab as (k & Hk & Hsz & _).
      assert (k < 30). { apply (Z.pow_lt_mono_r_iff 2); lia. }
      assert (2 ^ k * 2 = 2 ^ (k + 1)) as Hdbl by (rewrite Z.pow_add_r; lia).
      assert (2 ^ (k + 1) <= 2 ^ 30) by (apply Z.pow_le_mono_r; lia).
      assert (0 < 2 ^ (k + 1)) by (apply Z.pow_pos_nonneg; lia).
      rewrite Hsz, Hdbl, size_t_id by climits.
      destruct (dictExpand_ok m ht (k + 1) w Hwf Hw ltac:(lia) ltac:(lia)) as (ht' & d & E & -> & Hwf' & Hp & _ & Hs).
      by exists ht'.
    + exists ht. unfold table_cost. rewrite Ht, add_live_0. split_and!; try done; by eexists.
Qed.

(** The slot for a new key, or -1. *)
Lemma dictKeyIndex_ok m ht key w :
  dict_wf m ht -> no_oom w -> ht_used ht < 2 ^ 30 -> dk_valid key ->
  exists idx ht' t, _dictKeyIndex ht key w = Ok (idx, ht', add_live (table_cost ht) w) /\
    dict_wf m ht' /\ entries ht' ≡ₚ entries ht /\ ht_table ht' = Some t /\
    match dict_map ht !! dk_canon key with
    | Some _ => idx = -1
    | None => exists h c, idx = Z.of_nat h /\ t !! h = Some c /\
        Z.land (dk_hash (dk_canon key)) (ht_sizemask ht') = Z.of_nat h /\
        Forall (placed (ht_sizemask ht') h) c
    end.
Proof.
  intros Hwf Hw Hu Hk. unfold _dictKeyIndex.
  destruct (dictExpandIfNeeded_ok m ht w Hwf Hw Hu) as (ht' & E & Hwf' & Hp & [t Ht]).
  rewrite (bind_ok _ _ _ _ _ E). cbn beta iota. change (DICT_OK =? DICT_ERR) with false. cbn iota.
  pose proof Hwf' as [Hty Htab _ Hnd _ _].
  destruct (slot_index ht' t key Ht Htab) as (h & c & Hh & Huh & Hlt & Hc & Hpl).
  rewrite (bind_ok _ _ _ _ _ (hash_ok ht' key _ Hty Hk)), Huh, Ht.
  rewrite (bind_ok _ _ _ _ _ (get_slot_ok t h c _ Hc)).
  destruct (find_slot_ok ht' t key h c (add_live (table_cost ht) w) Hty Ht Htab Hk Hh Hc Hpl) as (r & Ef & Hf).
  rewrite (bind_ok _ _ _ _ _ Ef).
  assert (dict_map ht !! dk_canon key = de_val <$> r) as Hlk.
  { rewrite <- (dict_map_perm ht ht'); [by apply found_lookup|by destruct Hwf|done]. }
  rewrite Hlk. destruct r as [e|]; cbn.
  - by exists (-1), ht', t.
  - exists (int (Z.of_nat h)), ht', t. rewrite int_id by climits. split_and!; try done.
    by exists h, c.
Qed.

(** ** Insertion *)

Lemma dict_map_cons ht ht' e :
  NoDup (dk_canon ∘ de_key <$> entries ht') -> entries ht' ≡ₚ e :: entries ht ->
  dict_map ht' = <[dk_canon (de_key e) := de_val e]> (dict_map ht).
Proof.
  intros Hnd Hp. unfold dict_map.
  change (<[dk_canon (de_key e):=de_val e]> (list_to_map (M := gmap C V) ((fun e => (dk_canon (de_key e), de_val e)) <$> entries ht)))
    with (list_to_map (M := gmap C V) ((fun e => (dk_canon (de_key e), de_val e)) <$> (e :: entries ht))).
  apply list_to_map_proper.
  - rewrite <- list_fmap_compose. done.
  - by rewrite Hp.
Qed.

Lemma set_key_ok ht key w :
  ht_type ht = ty -> dk_valid key -> no_oom w ->
  exists k d, dictSetHashKey ht key w = Ok (k, add_live d w) /\ dk_valid k /\ dk_canon k = dk_canon key.
Proof.
  intros Hty Hk Hw. unfold dictSetHashKey. rewrite Hty.
  pose proof (dk_kdup_ok (ht_privdata ht) key w Hk Hw) as Hd. destruct (keyDup ty); [done|].
  exists key, 0. by rewrite add_live_0.
Qed.

Lemma set_val_ok ht v w :
  ht_type ht = ty -> no_oom w -> exists d, dictSetHashVal ht v w = Ok (v, add_live d w).
Proof.
  intros Hty Hw. unfold dictSetHashVal. rewrite Hty.
  pose proof (dk_vdup_ok (ht_privdata ht) v w Hw) as Hd. destruct (valDup ty); [eauto|].
  exists 0. by rewrite add_live_0.
Qed.

(** A new entry at the head of its slot. *)
Lemma put_entry_wf m ht t h c e :
  dict_wf m ht -> ht_table ht = Some t -> t !! h = Some c -> ht_used ht < 2 ^ 30 ->
  Forall (placed (ht_sizemask ht) h) (e :: c) -> de_addr e = m ->
  (forall e', e' ∈ entries ht -> dk_canon (de_key e') <> dk_canon (de_key e)) ->
  let ht' := set_table (Some (<[h := e :: c]> t)) (ulong (ht_used ht + 1)) ht in
  dict_wf (S m) ht' /\ dict_map ht' = <[dk_canon (de_key e) := de_val e]> (dict_map ht).
Proof.
  intros [Hty Htab Hused Hnd Haddr Hbelow] Ht Hc Hu Hpl Ha Hfresh ht'.
  assert (entries ht' ≡ₚ e :: entries ht) as Hp.
  { unfold entries. cbn. rewrite Ht. destruct (concat_insert t h c (e :: c) Hc) as (rest & H1 & H2).
    rewrite H2, H1. done. }
  assert (NoDup (dk_canon ∘ de_key <$> entries ht')) as Hnd'.
  { rewrite Hp. cbn. constructor; [|done]. intros (e' & He' & Hin)%list_elem_of_fmap.
    by apply (Hfresh e' Hin). }
  split; [|by apply dict_map_cons]. split; [done| | |done| |].
  - destruct (open_table_put ht t h (e :: c) (ulong (ht_used ht + 1)) (conj Ht Htab) Hpl) as [_ Ho]. done.
  - rewrite Hp. cbn. rewrite size_t_id by climits. lia.
  - rewrite Hp. cbn. constructor; [|done]. intros Hin. rewrite Forall_forall in Hbelow.
    specialize (Hbelow _ Hin). lia.
  - rewrite Hp. cbn. constructor; [lia|]. eapply Forall_impl; [done|]. cbn. lia.
Qed.

(** [dictAdd] adds a binding for a key without one, and nothing else. *)
Lemma dictAdd_ok ht key val w :
  dict_wf (w_next w) ht -> no_oom w -> ht_used ht < 2 ^ 30 -> dk_valid key ->
  exists st ht' w', dictAdd ht key val w = Ok (st, ht', w') /\ dict_wf (w_next w') ht' /\
    no_oom w' /\ w_objs w' = w_objs w /\ w_os w' = w_os w /\ w_trace w' = w_trace w /\
    (w_next w <= w_next w')%nat /\
    match dict_map ht !! dk_canon key with
    | Some _ => st = DICT_ERR /\ dict_map ht' = dict_map ht
    | None => st = DICT_OK /\ dict_map ht' = <[dk_canon key := val]> (dict_map ht)
    end.
Proof.
  intros Hwf Hw Hu Hk. unfold dictAdd.
  destruct (dictKeyIndex_ok _ ht key w Hwf Hw Hu Hk) as (idx & ht1 & t & E & Hwf1 & Hp & Ht & Hidx).
  rewrite (bind_ok _ _ _ _ _ E). cbn beta iota.
  assert (dict_map ht1 = dict_map ht) as Hmap by (apply dict_map_perm; [by destruct Hwf|done]).
  destruct (dict_map ht !! dk_canon key) as [v0|] eqn:Hlk.
  { subst idx. exists DICT_ERR, ht1, (add_live (table_cost ht) w). rewrite Z.eqb_refl.
    split_and!; done. }
  destruct Hidx as (h & c & -> & Hc & Hh & Hpl). rewrite (proj2 (Z.eqb_neq _ _)) by lia.
  set (w1 := add_live (table_cost ht) w).
  set (w2 := set_next (S (w_next w)) (add_live 1 w1)).
  assert (new_entry w1 = Ok (w_next w, w2)) as En.
  { unfold new_entry. by rewrite (bind_ok _ _ _ _ _ (alloc_block_no_oom w1 Hw)). }
  rewrite (bind_ok _ _ _ _ _ En), Ht, (bind_ok _ _ _ _ _ (get_slot_ok t h c w2 Hc)).
  pose proof Hwf1 as [Hty _ Hused1 _ _ _].
  destruct (set_key_ok ht1 key w2 Hty Hk Hw) as (k & dk & Ek & Hkv & Hkc). rewrite (bind_ok _ _ _ _ _ Ek).
  destruct (set_val_ok ht1 val (add_live dk w2) Hty Hw) as (dv & Ev). rewrite (bind_ok _ _ _ _ _ Ev).
  rewrite (bind_ok _ _ _ _ _ (put_slot_ok t h c _ _ Hc)).
  destruct (put_entry_wf (w_next w) ht1 t h c (mkEntry (w_next w) k val)) as [Hwf2 Hmap2]; try done.
  - rewrite Hused1, Hp. destruct Hwf as [_ _ <- _ _ _]. done.
  - constructor; [|done]. split; [done|]. cbn. by rewrite Hkc.
  - cbn. rewrite Hkc. intros e' He' Heq. rewrite <- Hmap in Hlk.
    assert (dict_map ht1 !! dk_canon key = Some (de_val e')) as Hx; [|congruence].
    apply dict_map_lookup; [by destruct Hwf1|]. by exists e'.
  - eexists _, _, _. split; [done|]. split_and!; try done; [cbn; lia|].
    etrans; [exact Hmap2|]. cbn [de_key de_val]. by rewrite Hkc, Hmap.
Qed.

(** ** Update *)

Lemma elem_of_set_val a v (l : list (dictEntry K V)) e' :
  NoDup (de_addr <$> l) -> forall e, e ∈ l -> de_addr e = a ->
  e' ∈ map (set_val a v) l <->
    (e' = mkEntry a (de_key e) v \/ (e' ∈ l /\ de_addr e' <> a)).
Proof.
  intros Hnd e He Ha. change (map (set_val a v) l) with (set_val a v <$> l).
  rewrite list_elem_of_fmap. split.
  - intros (x & -> & Hx). unfold set_val. destruct (Nat.eqb_spec (de_addr x) a) as [Hxa|Hxa].
    + left. assert (x = e) as -> by (apply (NoDup_fmap_elem de_addr l); congruence || done). by subst a.
    + right. done.
  - intros [->|[He' Hne]].
    + exists e. split; [|done]. unfold set_val. rewrite Ha, Nat.eqb_refl. done.
    + exists e'. split; [|done]. unfold set_val. by rewrite (proj2 (Nat.eqb_neq _ _)).
Qed.

Definition update_entry (ht : dict K V) (a : loc) (v : V) : dict K V :=
  set_table (map (map (set_val a v)) <$> ht_table ht) (ht_used ht) ht.

Lemma entries_update ht a v : entries (update_entry ht a v) = map (set_val a v) (entries ht).
Proof.
  unfold entries, update_entry. cbn. destruct (ht_table ht) as [t|]; [|done]. cbn. by rewrite concat_map.
Qed.

Lemma set_val_key a v (e : dictEntry K V) :
  de_key (set_val a v e) = de_key e /\ de_addr (set_val a v e) = de_addr e.
Proof. unfold set_val. by destruct (Nat.eqb _ _). Qed.

Lemma fmap_set_val {B} (f : dictEntry K V -> B) a v l :
  (forall e, f (set_val a v e) = f e) -> f <$> map (set_val a v) l = f <$> l.
Proof. intros Hf. induction l as [|e l IH]; cbn; [done|]. by rewrite Hf, IH. Qed.

Lemma update_entry_wf m ht e v :
  dict_wf m ht -> e ∈ entries ht ->
  dict_wf m (update_entry ht (de_addr e) v) /\
  dict_map (update_entry ht (de_addr e) v) = <[dk_canon (de_key e) := v]> (dict_map ht).
Proof.
  intros [Hty Htab Hused Hnd Haddr Hbelow] He.
  assert (NoDup (dk_canon ∘ de_key <$> entries (update_entry ht (de_addr e) v))) as Hnd'.
  { rewrite entries_update, fmap_set_val; [done|]. intros x. cbn. by rewrite (proj1 (set_val_key _ _ x)). }
  split.
  - split; [done| | |done| |].
    + unfold table_ok, update_entry in *. cbn. destruct (ht_table ht) as [t|]; [|done]. cbn.
      destruct Htab as (k & ? & ? & ? & ? & Hs). exists k. rewrite length_map. split_and!; try done; try lia.
      intros i c Hc. rewrite list_lookup_fmap in Hc. destruct (t !! i) as [c0|] eqn:Hi; [|done].
      injection Hc as <-. apply Forall_map. eapply Forall_impl; [by apply Hs|].
      intros x Hx. unfold placed in *. cbn. by rewrite (proj1 (set_val_key _ _ x)).
    + rewrite entries_update, length_map. done.
    + rewrite entries_update, fmap_set_val; [done|]. intros x. apply (set_val_key _ _ x).
    + rewrite entries_update, fmap_set_val; [done|]. intros x. apply (set_val_key _ _ x).
  - apply map_eq. intros c. apply option_eq. intros x.
    rewrite (dict_map_lookup _ _ _ Hnd'), entries_update.
    setoid_rewrite (elem_of_set_val (de_addr e) v (entries ht) _ Haddr e He eq_refl).
    destruct (decide (c = dk_canon (de_key e))) as [->|Hne].
    + rewrite lookup_insert_eq. split.
      * intros (e' & [->|[Hin Ha]] & Hc & Hv); cbn in *; [congruence|]. exfalso. apply Ha.
        by rewrite (NoDup_fmap_elem (dk_canon ∘ de_key) (entries ht) e' e Hnd Hin He Hc).
      * intros [= ->]. exists (mkEntry (de_addr e) (de_key e) x). split_and!; try done. by left.
    + rewrite lookup_insert_ne by done. rewrite (dict_map_lookup _ _ _ Hnd). split.
      * intros (e' & [->|[Hin Ha]] & Hc & Hv); cbn in *; [congruence|]. eauto.
      * intros (e' & Hin & Hc & Hv). exists e'. split_and!; try done. right. split; [done|].
        intros Ha. apply Hne. by rewrite <- Hc, (NoDup_fmap_elem de_addr (entries ht) e' e Haddr Hin He Ha).
Qed.

Lemma free_val_ok ht e w :
  ht_type ht = ty -> dictFreeEntryVal ht e w = Ok (tt, add_live (- dk_vcost) w).
Proof.
  intros Hty. unfold dictFreeEntryVal. rewrite Hty. pose proof (dk_vfree_ok (ht_privdata ht) (de_val e) w) as Hf.
  destruct (valDestructor ty); [done|]. rewrite Hf. by rewrite Z.opp_0, add_live_0.
Qed.

Lemma free_key_ok ht e w :
  ht_type ht = ty -> dictFreeEntryKey ht e w = Ok (tt, add_live (- dk_kcost) w).
Proof.
  intros Hty. unfold dictFreeEntryKey. rewrite Hty. pose proof (dk_kfree_ok (ht_privdata ht) (de_key e) w) as Hf.
  destruct (keyDestructor ty); [done|]. rewrite Hf. by rewrite Z.opp_0, add_live_0.
Qed.

(** [dictReplace] binds the key to the value in any case. *)
Lemma dictReplace_ok ht key val w :
  dict_wf (w_next w) ht -> no_oom w -> ht_used ht < 2 ^ 30 -> dk_valid key ->
  exists st ht' w', dictReplace ht key val w = Ok (st, ht', w') /\ dict_wf (w_next w') ht' /\
    no_oom w' /\ w_objs w' = w_objs w /\ w_os w' = w_os w /\ w_trace w' = w_trace w /\
    (w_next w <= w_next w')%nat /\
    st = (match dict_map ht !! dk_canon key with Some _ => 0 | None => 1 end) /\
    dict_map ht' = <[dk_canon key := val]> (dict_map ht).
Proof.
  intros Hwf Hw Hu Hk. unfold dictReplace.
  destruct (dictAdd_ok ht key val w Hwf Hw Hu Hk) as (st & ht1 & w1 & E & Hwf1 & Hw1 & Ho1 & Hos1 & Htr1 & Hnx1 & Hcase).
  rewrite (bind_ok _ _ _ _ _ E). cbn beta iota.
  destruct (dict_map ht !! dk_canon key) as [v0|] eqn:Hlk.
  2: { destruct Hcase as [-> Hmap]. change (DICT_OK =? DICT_OK) with true. by exists 1, ht1, w1. }
  destruct Hcase as [-> Hmap]. change (DICT_ERR =? DICT_OK) with false. cbn iota.
  destruct (dictFind_ok _ ht1 key w1 Hwf1 Hk) as (r & Ef & Hf). rewrite (bind_ok _ _ _ _ _ Ef).
  pose proof Hwf1 as [Hty _ _ Hnd _ _].
  pose proof (found_lookup ht1 key r Hnd Hf) as Hr. rewrite Hmap, Hlk in Hr.
  destruct r as [e|]; [|done]. destruct Hf as [He Hm]. erewrite (bind_ok (deref (Some e))) by reflexivity.
  destruct (set_val_ok ht1 val w1 Hty Hw1) as (dv & Ev). rewrite (bind_ok _ _ _ _ _ Ev).
  rewrite (bind_ok _ _ _ _ _ (free_val_ok ht1 e _ Hty)).
  destruct (update_entry_wf (w_next w1) ht1 e val Hwf1 He) as [Hwf2 Hmap2].
  eexists _, _, _. split; [done|]. split_and!; try done. etrans; [exact Hmap2|].
  unfold matches in Hm. by rewrite Hm, Hmap.
Qed.

(** ** Deletion *)

Lemma delete_chain_ok ht key c w :
  ht_type ht = ty -> dk_valid key -> Forall (fun e => dk_valid (de_key e)) c ->
  exists r, delete_chain ht key c w = Ok (r, w) /\
    match r with
    | Some (e, rest) => matches key e /\ exists pre post, c = pre ++ e :: post /\ rest = pre ++ post
    | None => Forall (fun e => ~ matches key e) c
    end.
Proof.
  intros Hty Hk. induction 1 as [|e c He Hc IH]; cbn [delete_chain].
  - exists None. by split.
  - rewrite (bind_ok _ _ _ _ _ (compare_ok ht key (de_key e) w Hty Hk He)).
    case_bool_decide as Hm.
    + exists (Some (e, c)). split; [done|]. split; [done|]. by exists [], c.
    + destruct IH as (r & E & Hr). rewrite (bind_ok _ _ _ _ _ E).
      eexists. split; [done|]. destruct r as [[e' rest]|]; cbn.
      * destruct Hr as [Hm' (pre & post & -> & ->)]. split; [done|]. by exists (e :: pre), post.
      * constructor; [|done]. unfold matches. congruence.
Qed.

Lemma Forall_sub {A} (P : A -> Prop) pre x post :
  Forall P (pre ++ x :: post) -> Forall P (pre ++ post).
Proof. rewrite !Forall_app, Forall_cons. tauto. Qed.

(** Unlinking an entry. *)
Lemma unlink_wf m ht t h pre e post :
  dict_wf m ht -> ht_table ht = Some t -> t !! h = Some (pre ++ e :: post) ->
  let ht' := set_table (Some (<[h := pre ++ post]> t)) (ulong (ht_used ht - 1)) ht in
  ht_used ht < 2 ^ 31 ->
  dict_wf m ht' /\ entries ht ≡ₚ e :: entries ht' /\
  dict_map ht' = delete (dk_canon (de_key e)) (dict_map ht).
Proof.
  intros [Hty Htab Hused Hnd Haddr Hbelow] Ht Hc ht' Hu.
  assert (entries ht ≡ₚ e :: entries ht') as Hp.
  { unfold entries. cbn. rewrite Ht. destruct (concat_insert t h _ (pre ++ post) Hc) as (rest & E1 & E2).
    by rewrite E1, E2, <- Permutation_middle. }
  rewrite Hp in Hused, Hnd, Haddr, Hbelow. cbn in Hused, Hnd, Haddr, Hbelow.
  apply NoDup_cons in Hnd as [Hfresh Hnd]. apply NoDup_cons in Haddr as [_ Haddr].
  apply Forall_cons in Hbelow as [_ Hbelow]. split_and!; [|done|].
  - split; [done| | |done|done|done].
    + unfold table_ok in Htab. rewrite Ht in Htab.
      destruct Htab as (k & ? & ? & ? & ? & Hs). exists k. cbn. rewrite length_insert.
      split_and!; try done; try lia. apply slots_ok_insert; [done|]. eapply Forall_sub. by apply Hs.
    + cbn. rewrite size_t_id by climits. lia.
  - rewrite (dict_map_cons ht' ht e); [|by rewrite Hp; apply NoDup_cons|done].
    rewrite delete_insert_id; [done|]. apply eq_None_not_Some. intros [v Hv].
    apply (dict_map_lookup ht' _ _ Hnd) in Hv as (e' & He' & Hceq & _). apply Hfresh.
    apply list_elem_of_fmap. by exists e'.
Qed.

(** The blocks of an entry: itself, its key and its value. *)
Definition entry_cost : Z := 1 + dk_kcost + dk_vcost.

Lemma free_entry_ok ht e w {B} (k : M B) :
  ht_type ht = ty ->
  (let* _ := dictFreeEntryKey ht e in let* _ := dictFreeEntryVal ht e in let* _ := free in k) w =
    k (add_live (- entry_cost) w).
Proof.
  intros Hty. rewrite (bind_ok _ _ _ _ _ (free_key_ok ht e w Hty)).
  rewrite (bind_ok _ _ _ _ _ (free_val_ok ht e _ Hty)). erewrite (bind_ok free) by reflexivity.
  rewrite !add_live_add. f_equal. f_equal. unfold entry_cost. lia.
Qed.

(** [dictDelete] removes the binding of the key, and only it. *)
Lemma dictDelete_ok m ht key w :
  dict_wf m ht -> ht_used ht < 2 ^ 31 -> dk_valid key ->
  match dict_map ht !! dk_canon key with
  | Some _ => exists ht', dictDelete ht key w = Ok (DICT_OK, ht', add_live (- entry_cost) w) /\
      dict_wf m ht' /\ dict_map ht' = delete (dk_canon key) (dict_map ht)
  | None => dictDelete ht key w = Ok (DICT_ERR, ht, w)
  end.
Proof.
  intros Hwf Hu Hk. pose proof Hwf as [Hty Htab _ Hnd _ _]. unfold dictDelete.
  destruct (Z.eqb_spec (ht_size ht) 0) as [Hz|Hz].
  { apply (size_zero ht Htab) in Hz. unfold dict_map, entries. by rewrite Hz. }
  destruct (ht_table ht) as [t|] eqn:Ht; [|by apply (size_zero ht Htab) in Ht].
  destruct (slot_index ht t key Ht Htab) as (h & c & Hh & Huh & _ & Hc & Hpl).
  rewrite (bind_ok _ _ _ _ _ (hash_ok ht key w Hty Hk)), Huh, (bind_ok _ _ _ _ _ (get_slot_ok t h c w Hc)).
  destruct (delete_chain_ok ht key c w Hty Hk (placed_valid _ _ _ Hpl)) as (r & E & Hr).
  rewrite (bind_ok _ _ _ _ _ E). destruct r as [[e rest]|].
  - destruct Hr as [Hm (pre & post & -> & ->)].
    assert (dict_map ht !! dk_canon key = Some (de_val e)) as ->.
    { apply dict_map_lookup; [done|]. exists e. split_and!; [|done|done].
      apply (elem_of_entries ht t e Ht). exists h, (pre ++ e :: post). split; [done|]. set_solver. }
    cbn beta iota. rewrite (bind_ok _ _ _ _ _ (put_slot_ok t h _ _ w Hc)), free_entry_ok by done.
    destruct (unlink_wf m ht t h pre e post Hwf Ht Hc Hu) as (Hwf' & _ & Hmap).
    eexists. split_and!; [done|done|]. etrans; [exact Hmap|]. unfold matches in Hm. by rewrite Hm.
  - assert (dict_map ht !! dk_canon key = None) as ->; [|done].
    apply eq_None_not_Some. intros [v (e & He & Hce & _)%dict_map_lookup]; [|done].
    rewrite Forall_forall in Hr. apply (Hr e); [by eapply entry_slot|done].
Qed.

(** Deleting a given entry unlinks it. *)
Lemma delete_chain_entry ht key pre e post w :
  ht_type ht = ty -> dk_valid key -> Forall (fun x => dk_valid (de_key x)) (pre ++ e :: post) ->
  Forall (fun x => ~ matches key x) pre -> matches key e ->
  delete_chain ht key (pre ++ e :: post) w = Ok (Some (e, pre ++ post), w).
Proof.
  intros Hty Hk. induction pre as [|x pre IH]; intros Hv Hn Hm; cbn [app delete_chain];
    apply Forall_cons in Hv as [Hx Hv]; rewrite (bind_ok _ _ _ _ _ (compare_ok ht key _ w Hty Hk Hx)).
  - rewrite bool_decide_eq_true_2 by (by symmetry). done.
  - apply Forall_cons in Hn as [Hnx Hn]. rewrite bool_decide_eq_false_2 by (intros ?; by apply Hnx).
    by rewrite (bind_ok _ _ _ _ _ (IH Hv Hn Hm)).
Qed.

Lemma dictDelete_entry m ht t i pre e post w :
  dict_wf m ht -> ht_used ht < 2 ^ 31 -> ht_table ht = Some t -> t !! i = Some (pre ++ e :: post) ->
  let ht' := set_table (Some (<[i := pre ++ post]> t)) (ulong (ht_used ht - 1)) ht in
  dictDelete ht (de_key e) w = Ok (DICT_OK, ht', add_live (- entry_cost) w) /\ dict_wf m ht'.
Proof.
  intros Hwf Hu Ht Hi ht'. pose proof Hwf as [Hty Htab _ Hnd _ _].
  split; [|by apply (unlink_wf m ht t i pre e post)].
  unfold entries in Hnd. rewrite Ht in Hnd. unfold table_ok in Htab. rewrite Ht in Htab.
  destruct Htab as (k & Hk & Hsz & _ & _ & Hslots). pose proof (Hslots i _ Hi) as Hpl.
  pose proof (placed_valid _ _ _ Hpl) as Hv.
  pose proof (proj1 (Forall_forall _ _) Hpl e ltac:(apply elem_of_app; right; left)) as [Hke Hh].
  unfold dictDelete. rewrite (proj2 (Z.eqb_neq _ _)) by lia.
  rewrite (bind_ok _ _ _ _ _ (hash_ok ht (de_key e) w Hty Hke)), Hh.
  pose proof (dw_table _ _ Hwf) as Htab.
  destruct (slot_index ht t (de_key e) Ht Htab) as (h & c & Hh' & Huh & _ & _ & _).
  assert (h = i) as -> by lia. rewrite Hh in Huh. rewrite Huh, Ht.
  rewrite (bind_ok _ _ _ _ _ (get_slot_ok t i _ w Hi)).
  erewrite (bind_ok (delete_chain _ _ _)).
  2: { apply delete_chain_entry; [done|done|done| |done]. apply Forall_forall. intros x Hx Hm.
       destruct (concat_insert t i _ [] Hi) as (rest & Hp & _). rewrite Hp in Hnd.
       rewrite <- app_assoc, fmap_app in Hnd. apply NoDup_app in Hnd as (_ & Hdis & _).
       apply (Hdis (dk_canon (de_key x))).
       - apply list_elem_of_fmap. by exists x.
       - cbn. rewrite Hm. left. }
  cbn beta iota. by rewrite (bind_ok _ _ _ _ _ (put_slot_ok t i _ _ w Hi)), free_entry_ok by done.
Qed.

(** ** Release *)

Lemma clear_chain_ok ht c used w :
  ht_type ht = ty -> zlen c <= used -> used < 2 ^ 63 ->
  clear_chain ht c used w = Ok (used - zlen c, add_live (- (zlen c * entry_cost)) w).
Proof.
  intros Hty. revert used w. induction c as [|e c IH]; intros used w Hu Hmax; cbn [clear_chain length] in *.
  - change (Z.of_nat 0) with 0. by rewrite Z.mul_0_l, Z.opp_0, add_live_0, Z.sub_0_r.
  - rewrite free_entry_ok by done. rewrite size_t_id by climits. rewrite IH by lia.
    rewrite add_live_add, Nat2Z.inj_succ. do 2 f_equal; [lia|]. f_equal. ring.
Qed.

Lemma clear_loop_ok ht t used i w :
  ht_type ht = ty -> ht_table ht = Some t -> (i <= length t)%nat ->
  used = zlen (concat (drop i t)) -> used < 2 ^ 63 ->
  clear_loop (length t - i) (Z.of_nat i) ht used w =
    Ok (0, add_live (- (zlen (concat (drop i t)) * entry_cost)) w).
Proof.
  intros Hty Ht. remember (length t - i)%nat as k eqn:Hk.
  revert i used w Hk. induction k as [|k IH]; intros i used w Hk Hi Hu Hmax; cbn [clear_loop].
  - rewrite drop_ge in * by lia. cbn in Hu. subst used. cbn. by rewrite add_live_0.
  - destruct (lookup_lt_is_Some_2 t i) as [c Hc]; [lia|].
    rewrite (drop_S t c i Hc) in *. cbn [concat] in *. rewrite length_app in *.
    destruct (Z.ltb_spec 0 used) as [Hpos|Hz].
    + rewrite Ht, (bind_ok _ _ _ _ _ (get_slot_ok t i c w Hc)).
      rewrite (bind_ok _ _ _ _ _ (clear_chain_ok ht c used w Hty ltac:(lia) Hmax)).
      replace (Z.of_nat i + 1) with (Z.of_nat (S i)) by lia.
      rewrite IH by lia. rewrite add_live_add, Nat2Z.inj_add. do 2 f_equal. f_equal. ring.
    + assert (length c + length (concat (drop (S i) t)) = 0)%nat as -> by lia.
      cbn. rewrite add_live_0. unfold ret. do 2 f_equal. lia.
Qed.

(** [dictRelease] gives back every block of the table: its own, that of the
    slots, and those of the entries. *)
Lemma dictRelease_ok m ht w :
  dict_wf m ht -> ht_used ht < 2 ^ 63 ->
  dictRelease ht w =
    Ok (tt, add_live (- (1 + (1 - table_cost ht) + ht_used ht * entry_cost)) w).
Proof.
  intros [Hty Htab Hused _ _ _] Hu. unfold dictRelease, _dictClear, table_cost, entries, table_ok in *.
  rewrite !bind_assoc. destruct (ht_table ht) as [t|] eqn:Ht.
  - destruct Htab as (k & _ & _ & _ & Hlen & _).
    pose proof (clear_loop_ok ht t (ht_used ht) 0 w Hty Ht ltac:(lia) Hused Hu) as E.
    rewrite Nat.sub_0_r in E. change (Z.of_nat 0) with 0 in E. cbn [drop] in E.
    rewrite <- Hlen, Nat2Z.id. rewrite (bind_ok _ _ _ _ _ E). unfold free, bind, modify, ret.
    rewrite !add_live_add, drop_0, <- Hused. do 2 f_equal. f_equal. lia.
  - rewrite Htab. cbn in Hused. cbn [Z.to_nat clear_loop]. unfold free, bind, modify, ret.
    by rewrite Hused.
Qed.

(** ** Iteration *)

Lemma suffix_at_ok a (pre : list (dictEntry K V)) e post :
  NoDup (de_addr <$> (pre ++ e :: post)) -> de_addr e = a ->
  suffix_at a (pre ++ e :: post) = Some (e :: post).
Proof.
  intros Hnd Ha. induction pre as [|x pre IH]; cbn [app suffix_at].
  - by rewrite Ha, Nat.eqb_refl.
  - cbn in Hnd. apply NoDup_cons in Hnd as [Hx Hnd].
    rewrite (proj2 (Nat.eqb_neq _ _)); [by apply IH|]. intros Hxa. apply Hx.
    rewrite fmap_app. apply elem_of_app. right. cbn. rewrite Hxa, Ha. left.
Qed.

Lemma suffix_at_None a (c : list (dictEntry K V)) : a ∉ (de_addr <$> c) -> suffix_at a c = None.
Proof.
  induction c as [|e c IH]; cbn; [done|]. intros Hn. rewrite (proj2 (Nat.eqb_neq _ _)); set_solver.
Qed.

Lemma suffix_in_ok a (t : list (list (dictEntry K V))) i pre e post :
  NoDup (de_addr <$> concat t) -> t !! i = Some (pre ++ e :: post) -> de_addr e = a ->
  suffix_in a t = Some (e :: post).
Proof.
  revert i. induction t as [|c t IH]; intros i Hnd Hi Ha; [done|]. cbn [suffix_in concat] in *.
  rewrite fmap_app in Hnd. apply NoDup_app in Hnd as (Hc & Hdis & Ht). destruct i as [|i]; cbn in Hi.
  - injection Hi as ->. by rewrite suffix_at_ok.
  - rewrite suffix_at_None; [by eapply IH|]. intros Hin. apply (Hdis a Hin).
    apply list_elem_of_fmap. exists e. split; [done|]. apply list_elem_of_In, in_concat.
    exists (pre ++ e :: post). rewrite <- !list_elem_of_In. split; [by eapply list_elem_of_lookup_2|].
    apply elem_of_app. right. left.
Qed.

(** The iterator will still return the entries [rem]. *)
Inductive iter_at (t : list (list (dictEntry K V))) : dictIterator -> list (dictEntry K V) -> Prop :=
| iter_slot i next : (i <= length t)%nat ->
    iter_at t (mkIter (Z.of_nat i - 1) None next) (concat (drop i t))
| iter_entry i a pre post : t !! i = Some (pre ++ post) ->
    iter_at t (mkIter (Z.of_nat i) (Some a) (de_addr <$> head post)) (post ++ concat (drop (S i) t)).

Lemma entry_at_ok (ht : dict K V) t i pre e post w :
  ht_table ht = Some t -> NoDup (de_addr <$> concat t) -> t !! i = Some (pre ++ e :: post) ->
  entry_at ht (de_addr e) w = Ok (e, de_addr <$> head post, w).
Proof. intros Ht Hnd Hi. unfold entry_at. rewrite Ht. by rewrite (suffix_in_ok _ t i pre e post). Qed.

(** From the end of a chain: the first entry of the next chain that has one. *)
Lemma next_slot_ok ht t fuel i next w :
  ht_table ht = Some t -> table_ok ht -> NoDup (de_addr <$> concat t) ->
  (i <= length t)%nat -> (length t - i < fuel)%nat ->
  exists r it, next_loop fuel ht (mkIter (Z.of_nat i - 1) None next) w = Ok (r, it, w) /\
    match concat (drop i t) with
    | [] => r = None
    | e :: rem => r = Some e /\ iter_at t it rem
    end.
Proof.
  intros Ht Htab Hnd. unfold table_ok in Htab. rewrite Ht in Htab.
  destruct Htab as (k & Hk & Hsz & _ & Hlen & _).
  assert (2 ^ k <= 2 ^ 30) by (apply Z.pow_le_mono_r; lia).
  revert i. induction fuel as [|f IH]; intros i Hi Hf; [lia|]. cbn [next_loop it_entry it_index].
  rewrite int_ok_eq by climits. erewrite (bind_ok (lift (Ok _))) by reflexivity.
  replace (Z.of_nat i - 1 + 1) with (Z.of_nat i) by lia. rewrite (int_id (ht_size ht)) by climits.
  destruct (Z.leb_spec (ht_size ht) (Z.of_nat i)) as [Hend|Hlt].
  - eexists _, _. split; [done|]. by rewrite drop_ge by lia.
  - destruct (lookup_lt_is_Some_2 t i) as [c Hc]; [lia|].
    rewrite Ht, (bind_ok _ _ _ _ _ (get_slot_ok t i c w Hc)). rewrite (drop_S t c i Hc). cbn [concat].
    destruct c as [|e c]; cbn [head app].
    + cbn. specialize (IH (S i) ltac:(lia) ltac:(lia)).
      replace (Z.of_nat (S i) - 1) with (Z.of_nat i) in IH by lia. exact IH.
    + rewrite (bind_ok _ _ _ _ _ (entry_at_ok ht t i [] e c w Ht Hnd Hc)).
      eexists _, _. split; [done|]. split; [done|]. by apply (iter_entry t i _ [e] c).
Qed.

(** Each call returns the next entry. *)
Lemma dictNext_ok m ht t it rem w :
  dict_wf m ht -> ht_table ht = Some t -> iter_at t it rem ->
  exists r it', dictNext ht it w = Ok (r, it', w) /\
    match rem with [] => r = None | e :: rem' => r = Some e /\ iter_at t it' rem' end.
Proof.
  intros [_ Htab _ _ Haddr _] Ht Hit. unfold entries in Haddr. rewrite Ht in Haddr. unfold dictNext.
  assert (Z.to_nat (ht_size ht) = length t) as ->.
  { unfold table_ok in Htab. rewrite Ht in Htab. destruct Htab as (k & _ & _ & _ & Hlen & _). lia. }
  destruct Hit as [i next Hi|i a pre post Hi].
  - eapply next_slot_ok; (done || lia).
  - pose proof (lookup_lt_Some _ _ _ Hi).
    destruct post as [|e post]; cbn [head fmap option_fmap option_map].
    + change (next_loop (S (S (length t))) ht (mkIter (Z.of_nat i) (Some a) None) w)
        with (next_loop (S (length t)) ht (mkIter (Z.of_nat i) None None) w).
      destruct (next_slot_ok ht t (S (length t)) (S i) None w Ht Htab Haddr ltac:(lia) ltac:(lia)) as (r & it' & E & Hr).
      replace (Z.of_nat (S i) - 1) with (Z.of_nat i) in E by lia. rewrite E. by exists r, it'.
    + cbn [next_loop it_entry it_nextEntry it_index].
      rewrite (bind_ok _ _ _ _ _ (entry_at_ok ht t i pre e post w Ht Haddr Hi)).
      eexists _, _. split; [done|]. split; [done|].
      apply (iter_entry t i _ (pre ++ [e]) post). by rewrite <- app_assoc.
Qed.

(** Walk through the whole table. *)
Fixpoint iterate (fuel : nat) (ht : dict K V) (it : dictIterator) : M (list (dictEntry K V)) :=
  match fuel with
  | O => crash OutOfFuel
  | S f =>
      let* (e, it) := dictNext ht it in
      match e with
      | None => ret []
      | Some e => let* es := iterate f ht it in ret (e :: es)
      end
  end.

Lemma iterate_ok fuel m ht t it rem w :
  dict_wf m ht -> ht_table ht = Some t -> iter_at t it rem -> (length rem < fuel)%nat ->
  iterate fuel ht it w = Ok (rem, w).
Proof.
  intros Hwf Ht. revert it rem. induction fuel as [|f IH]; intros it rem Hit Hf; [lia|]. cbn [iterate].
  destruct (dictNext_ok m ht t it rem w Hwf Ht Hit) as (r & it' & E & Hr). rewrite (bind_ok _ _ _ _ _ E).
  destruct rem as [|e rem]; [by subst r|]. destruct Hr as [-> Hit']. cbn beta iota.
  cbn [length] in Hf. rewrite (bind_ok _ _ _ _ _ (IH it' rem Hit' ltac:(lia))). done.
Qed.
End spec.

(** * Properties *)

(** A table with integer keys, to run the theorems on. *)
Definition num_type : dictType Z Z :=
  mkType (fun k => Ok (uint k)) None None None None None.

#[export, refine] Instance num_keys : DictKeys Z num_type := {
  dk_valid := fun _ => True;
  dk_canon := fun k => k;
  dk_hash := fun k => uint k;
  dk_kcost := 0;
  dk_vcost := 0
}.
Proof.
  - intros c. apply unsigned_range. lia.
  - done.
  - done.
  - done.
  - done.
  - done.
  - done.
Defined.

Definition num_entry (z : Z) : dictEntry Z Z := mkEntry (Z.to_nat z) z (z * z).
Definition num_dict : dict Z Z :=
  mkDict (Some [[num_entry 4]; [num_entry 5; num_entry 1]; []; []]) num_type 4 3 3 0.

Lemma num_dict_wf : dict_wf num_type 9 num_dict.
Proof.
  split; [done| |done| | |].
  - exists 2. split_and!; try done; try lia. intros i c Hc.
    destruct i as [|[|[|[|i]]]]; cbn in Hc; simplify_eq; repeat constructor.
  - apply (bool_decide_unpack _). vm_compute. exact I.
  - apply (bool_decide_unpack _). vm_compute. exact I.
  - apply (bool_decide_unpack _). vm_compute. exact I.
Qed.

Section properties.
Context {K V C : Type} `{EqDecision K} `{Countable C}.
Context (ty : dictType K V) `{Hkeys : !DictKeys C ty}.

(** C6: the table is a finite map.  On a well-formed table [dictFind] returns
    the binding of the key, [dictAdd] adds a binding unless the key has one,
    [dictReplace] binds the key in any case and says whether it was new, and
    [dictDelete] removes the binding and releases the entry, or reports that
    there is none; the table stays well formed, also when it grows, and no
    other binding changes. *)
Theorem dict_refines_map (ht : dict K V) (key : K) (val : V) (w : world) :
  dict_wf ty (w_next w) ht -> no_oom w -> ht_used ht < 2 ^ 30 -> dk_valid key ->
  let m := dict_map ty ht in
  let c := dk_canon key in
  (exists e, dictFind ht key w = Ok (e, w) /\ de_val <$> e = m !! c) /\
  (exists st ht' w', dictAdd ht key val w = Ok (st, ht', w') /\ dict_wf ty (w_next w') ht' /\
     if m !! c is Some _ then st = DICT_ERR /\ dict_map ty ht' = m
     else st = DICT_OK /\ dict_map ty ht' = <[c := val]> m) /\
  (exists ht' w', dictReplace ht key val w = Ok (if m !! c is Some _ then 0 else 1, ht', w') /\
     dict_wf ty (w_next w') ht' /\ dict_map ty ht' = <[c := val]> m) /\
  (exists ht' w', dictDelete ht key w = Ok (if m !! c is Some _ then DICT_OK else DICT_ERR, ht', w') /\
     dict_wf ty (w_next w) ht' /\ dict_map ty ht' = delete c m).
Proof.
  intros Hwf Hw Hu Hk m c. split_and!.
  - destruct (dictFind_ok ty _ ht key w Hwf Hk) as (e & E & Hf). exists e. split; [done|].
    symmetry. apply found_lookup; [by destruct Hwf|done].
  - destruct (dictAdd_ok ty ht key val w Hwf Hw Hu Hk) as (st & ht' & w' & E & Hwf' & _ & _ & _ & _ & _ & Hm).
    by exists st, ht', w'.
  - destruct (dictReplace_ok ty ht key val w Hwf Hw Hu Hk) as (st & ht' & w' & E & Hwf' & _ & _ & _ & _ & _ & -> & Hm).
    by exists ht', w'.
  - pose proof (dictDelete_ok ty _ ht key w Hwf ltac:(lia) Hk) as Hd. fold m c in Hd.
    destruct (m !! c) eqn:Hlk.
    + destruct Hd as (ht' & E & Hwf' & Hm). by exists ht', (add_live (- entry_cost ty) w).
    + exists ht, w. split_and!; [done|done|]. by rewrite delete_id.
Qed.

(** An iteration meets every entry of the table exactly once, and then
    ends. *)
Theorem dict_iteration (ht : dict K V) (n : nat) (w : world) :
  dict_wf ty n ht -> is_Some (ht_table ht) ->
  iterate (S (Z.to_nat (ht_used ht))) ht (mkIter (-1) None None) w = Ok (entries ht, w) /\
  NoDup (de_addr <$> entries ht) /\
  list_to_map ((fun e => (dk_canon (de_key e), de_val e)) <$> entries ht) = dict_map ty ht.
Proof.
  intros Hwf [t Ht]. split_and!; [|by destruct Hwf|done].
  pose proof (iter_slot t 0 None ltac:(lia)) as Hit. change (Z.of_nat 0 - 1) with (-1) in Hit.
  rewrite drop_0 in Hit. unfold entries. rewrite Ht.
  eapply iterate_ok; [done|done|done|]. destruct Hwf as [_ _ Hused _ _ _]. unfold entries in Hused.
  rewrite Ht in Hused. lia.
Qed.

(** "the iterator user may delete the entry we are returning": once the
    entry the iterator stands on has been unlinked, the iteration still goes
    through all the entries that were to come. *)
Theorem dict_iteration_delete (ht : dict K V) (n : nat) t i pre e post (w : world) :
  dict_wf ty n ht -> ht_used ht < 2 ^ 31 -> ht_table ht = Some t -> t !! i = Some (pre ++ e :: post) ->
  let it := mkIter (Z.of_nat i) (Some (de_addr e)) (de_addr <$> head post) in
  exists ht' w', dictDelete ht (de_key e) w = Ok (DICT_OK, ht', w') /\
    iterate (S (Z.to_nat (ht_used ht))) ht' it w' = Ok (post ++ concat (drop (S i) t), w').
Proof.
  intros Hwf Hu Ht Hi it. pose proof Hwf as [Hty Htab Hused Hnd _ _].
  destruct (dictDelete_entry ty n ht t i pre e post w Hwf Hu Ht Hi) as (E & Hwf').
  set (t' := <[i := pre ++ post]> t) in *. eexists _, _. split; [done|].
  assert (drop (S i) t' = drop (S i) t) as Hdrop by (unfold t'; by rewrite drop_insert_lt by lia).
  rewrite <- Hdrop. eapply (iterate_ok ty _ n _ t'); [done|done| |].
  - apply (iter_entry t' i (de_addr e) pre post). unfold t'.
    apply list_lookup_insert_eq. by eapply lookup_lt_Some.
  - rewrite Hdrop, length_app, Hused. unfold entries. rewrite Ht.
    assert (concat t = concat (take i t) ++ (pre ++ e :: post) ++ concat (drop (S i) t)) as ->.
    { rewrite <- (take_drop_middle t i _ Hi) at 1. by rewrite concat_app. }
    rewrite !length_app. cbn [length]. lia.
Qed.

(** [dictRelease] gives back every block of a table: the header, the slot
    array, and for each entry its own block and those of its key and value,
    each once. *)
Theorem dict_release (ht : dict K V) (n : nat) (w : world) :
  dict_wf ty n ht -> ht_used ht < 2 ^ 63 ->
  dictRelease ht w =
    Ok (tt, add_live (- (1 + (if ht_table ht is Some _ then 1 else 0) +
                         zlen (entries ht) * (1 + dk_kcost + dk_vcost))) w).
Proof.
  intros Hwf Hu. rewrite (dictRelease_ok ty n ht w Hwf Hu), <- (dw_used _ _ _ Hwf).
  unfold table_cost, entry_cost. by destruct (ht_table ht).
Qed.
End properties.

(** The search for a table size ends for every [unsigned long], with a
    power of two that is large enough, up to the largest value, which is
    answered with [LONG_MAX]. *)
Theorem dictNextPower_total (size : Z) :
  0 <= size <= SIZE_MAX ->
  (size < LLONG_MAX /\ exists k, _dictNextPower size = Ok (2 ^ k) /\ 2 <= k <= 63 /\ size <= 2 ^ k) \/
  (LLONG_MAX <= size /\ _dictNextPower size = Ok LLONG_MAX).
Proof.
  intros Hs. unfold _dictNextPower. destruct (Z.leb_spec LLONG_MAX size) as [|Hlt]; [by right|]. left.
  split; [done|]. destruct (Z.leb_spec size 4) as [H4|H4].
  - exists 2. split_and!; [|lia|lia|done]. apply (next_power_loop_ok 64 2 2); [lia|lia|done|by left|lia].
  - exists (Z.log2_up size). pose proof (Z.log2_up_spec size ltac:(lia)) as [Hlo Hhi].
    assert (Z.log2_up size <= 63). { apply Z.log2_up_le_pow2; climits. }
    assert (2 < Z.log2_up size).
    { destruct (Z.le_gt_cases (Z.log2_up size) 2) as [Hc|]; [|done]. apply Z.log2_up_le_pow2 in Hc; lia. }
    split_and!; [|lia|lia|done]. apply (next_power_loop_ok 64 2 (Z.log2_up size)); [lia|lia|done| |lia].
    right. by rewrite <- Z.sub_1_r in Hlo.
Qed.

Lemma dictNextPower_total_witness :
  (17 < LLONG_MAX /\ exists k, _dictNextPower 17 = Ok (2 ^ k) /\ 2 <= k <= 63 /\ 17 <= 2 ^ k) \/
  (LLONG_MAX <= 17 /\ _dictNextPower 17 = Ok LLONG_MAX).
Proof. apply (dictNextPower_total 17). vm_compute. split; discriminate. Defined.

Lemma dict_refines_map_witness :
  let w := set_next 9 world0 in
  let m := dict_map num_type num_dict in
  (exists e, dictFind num_dict 5 w = Ok (e, w) /\ de_val <$> e = m !! 5) /\
  (exists st ht' w', dictAdd num_dict 5 7 w = Ok (st, ht', w') /\ dict_wf num_type (w_next w') ht' /\
     if m !! 5 is Some _ then st = DICT_ERR /\ dict_map num_type ht' = m
     else st = DICT_OK /\ dict_map num_type ht' = <[5 := 7]> m) /\
  (exists ht' w', dictReplace num_dict 5 7 w = Ok (if m !! 5 is Some _ then 0 else 1, ht', w') /\
     dict_wf num_type (w_next w') ht' /\ dict_map num_type ht' = <[5 := 7]> m) /\
  (exists ht' w', dictDelete num_dict 5 w = Ok (if m !! 5 is Some _ then DICT_OK else DICT_ERR, ht', w') /\
     dict_wf num_type 9 ht' /\ dict_map num_type ht' = delete 5 m).
Proof.
  exact (dict_refines_map num_type num_dict 5 7 (set_next 9 world0) num_dict_wf eq_refl eq_refl I).
Defined.

Lemma dict_iteration_witness :
  iterate 4 num_dict (mkIter (-1) None None) world0 = Ok (entries num_dict, world0) /\
  NoDup (de_addr <$> entries num_dict) /\
  list_to_map ((fun e => (de_key e, de_val e)) <$> entries num_dict) = dict_map num_type num_dict.
Proof.
  exact (dict_iteration num_type num_dict 9 world0 num_dict_wf (ex_intro _ _ eq_refl)).
Defined.

Lemma dict_iteration_delete_witness :
  exists ht' w', dictDelete num_dict 5 world0 = Ok (DICT_OK, ht', w') /\
    iterate 4 ht' (mkIter 1 (Some 5%nat) (Some 1%nat)) w' = Ok ([num_entry 1], w').
Proof.
  apply (dict_iteration_delete num_type num_dict 9 [[num_entry 4]; [num_entry 5; num_entry 1]; []; []] 1
           [] (num_entry 5) [num_entry 1] world0).
  - apply num_dict_wf.
  - reflexivity.
  - reflexivity.
  - reflexivity.
Defined.

Lemma dict_release_witness :
  dictRelease num_dict world0 = Ok (tt, add_live (-5) world0).
Proof. exact (dict_release num_type num_dict 9 world0 num_dict_wf eq_refl). Defined.
