(* ===== verification/Format.v ===== *)
(** Commands on the wire ([hiredis-win32-master/hiredis.c], lines 670-932):
    [redisvFormatCommand] interpolates a format string, splits it at spaces and
    writes the arguments in the protocol's encoding; [redisFormatCommandArgv]
    does so for a vector of arguments.

    The output is proved to be the encoding of the array of the arguments that
    the reader of [Reader.v] accepts, whatever bytes the arguments hold, and no
    block is lost on any path, out of memory included. *)

From stdpp Require Import base tactics list numbers strings gmap.
From S2P Require Import Prelude Machine Printf Sds Reply Reader ReaderSpec ReaderStream ReplyTree.

Local Open Scope Z_scope.

(** * Lengths *)

(** [do { len++; i /= 10; } while(i);] *)
Fixpoint intlen_loop (fuel : nat) (i len : Z) : outcome Z :=
  match fuel with
  | O => Fault OutOfFuel
  | S f =>
      let len := len + 1 in
      let i := Z.quot i 10 in
      if i =? 0 then Ok len else intlen_loop f i len
  end.

Definition intlen (i : Z) : outcome Z :=
  if i <? 0 then
    match int_ok (- i) with
    | Ok i => intlen_loop 11 i 1
    | Fault e => Fault e
    end
  else intlen_loop 11 i 0.

Definition bulklen (len : Z) : outcome Z :=
  match intlen (int len) with
  | Ok n => Ok (size_t (size_t (1 + n + 2) + len + 2))
  | Fault e => Fault e
  end.

(** [totlen += bulklen(len)]: the sum is unsigned, the result an [int]. *)
Definition add_bulklen (totlen len : Z) : outcome Z :=
  match bulklen len with Ok n => Ok (int (size_t (size_t totlen + n))) | Fault e => Fault e end.

(** * The arguments of a format *)

Record fstate := mkF {
  f_curarg : option sdshdr;
  f_touched : bool;
  f_argv : list sdshdr;
  f_vec : bool;
  f_totlen : Z
}.

Definition set_curarg (s : option sdshdr) (t : bool) (st : fstate) : fstate :=
  mkF s t (f_argv st) (f_vec st) (f_totlen st).

(** [realloc] the vector, append [curarg], count its bytes.  [false]: out of
    memory, [goto err]. *)
Definition push_arg (st : fstate) (curarg : sdshdr) : M (bool * fstate) :=
  let* ok := realloc_block (f_vec st) in
  if negb ok then ret (false, st)
  else
    let* totlen := lift (add_bulklen (f_totlen st) (sdslen curarg)) in
    ret (true, mkF (f_curarg st) (f_touched st) (f_argv st ++ [curarg]) true totlen).

(** [*p]. *)
Definition peek (p : list char) : outcome char :=
  match p with c :: _ => Ok c | [] => Fault OutOfBounds end.

(** [if ( *_p != '\0' && *_p == x) _p++;] *)
Definition skip_char (x : char) (p : list char) : outcome (list char) :=
  match p with [] => Fault OutOfBounds | c :: p' => Ok (if c =? x then p' else p) end.

(** [while ( *_p != '\0' && isdigit( *_p)) _p++;] *)
Fixpoint skip_digits (p : list char) : outcome (list char) :=
  match p with [] => Fault OutOfBounds | c :: p' => if isdigit c then skip_digits p' else Ok p end.

(** Flags, width, precision and modifiers. *)
Definition scan_spec (p : list char) : M (list char) :=
  let* p := lift (skip_char 35 p) in
  let* p := lift (skip_char 48 p) in
  let* p := lift (skip_char 45 p) in
  let* p := lift (skip_char 32 p) in
  let* p := lift (skip_char 43 p) in
  let* p := lift (skip_digits p) in
  let* c := lift (peek p) in
  let* p := (if c =? 46 then lift (skip_digits (tail p)) else ret p) in
  let* c := lift (peek p) in
  if (c =? 104) || (c =? 108) then
    let* d := lift (peek (tail p)) in
    ret (if c =? d then tail (tail p) else tail p)
  else ret p.

Definition CONVERSIONS : list char := lit "diouxXeEfFgGaA".

Section format.
Context `{FloatFmt}.

(** A conversion of [printf]: the new argument and the rest of the format. *)
Definition printf_arg (curarg : sdshdr) (c : list char) (ap : va_list)
  : M (option sdshdr * list char) :=
  let* p := scan_spec (tail c) in
  let* x := lift (peek p) in
  if negb (x =? NUL) && existsb (Z.eqb x) CONVERSIONS then
    let l := zlen c - zlen (tail p) in
    if l <? 14 then
      let* newarg := sdscatvprintf curarg (take (Z.to_nat l) c ++ [NUL]) ap in
      ret (newarg, tail p)
    else ret (Some curarg, tail (tail c))
  else ret (Some curarg, tail (tail c)).

(** The [switch] on the character [x] after a percent sign at [c]: [newarg],
    what remains of the format and of the arguments. *)
Definition interpolate (curarg : sdshdr) (c : list char) (x : char) (ap : va_list)
  : M (option sdshdr * list char * va_list) :=
  if x =? 115 then
    let* (arg, ap) := lift (va_ptr ap) in
    match strlen arg with
    | None => crash OutOfBounds
    | Some size =>
        let* newarg := (if 0 <? size then sdscatlen curarg arg size else ret (Some curarg)) in
        ret (newarg, tail (tail c), ap)
    end
  else if x =? 98 then
    let* (arg, ap) := lift (va_ptr ap) in
    let* (size, ap) := lift (va_num ap) in
    let* newarg := (if 0 <? size then sdscatlen curarg arg size else ret (Some curarg)) in
    ret (newarg, tail (tail c), ap)
  else if x =? 37 then
    let* newarg := sdscat curarg [37; NUL] in
    ret (newarg, tail (tail c), ap)
  else
    let* (newarg, rest) := printf_arg curarg c ap in
    ret (newarg, rest, va_skip ap).

(** [while( *c != '\0')]; [false]: [goto err]. *)
Fixpoint format_loop (fuel : nat) (c : list char) (ap : va_list) (st : fstate) : M (bool * fstate) :=
  match fuel with
  | O => crash OutOfFuel
  | S f =>
      let* x := lift (peek c) in
      if x =? NUL then ret (true, st)
      else
        let* curarg := deref (f_curarg st) in
        let* plain := (if negb (x =? 37) then ret true
                       else let* y := lift (peek (tail c)) in ret (y =? NUL)) in
        if plain : bool then
          if x =? 32 then
            if f_touched st then
              let* (ok, st) := push_arg st curarg in
              if negb ok then ret (false, st)
              else
                let* e := sdsempty in
                match e with
                | None => ret (false, set_curarg None (f_touched st) st)
                | Some _ => format_loop f (tail c) ap (set_curarg e false st)
                end
            else format_loop f (tail c) ap st
          else
            let* newarg := sdscatlen curarg c 1 in
            match newarg with
            | None => ret (false, st)
            | Some _ => format_loop f (tail c) ap (set_curarg newarg true st)
            end
        else
          let* y := lift (peek (tail c)) in
          let* (newarg, rest, ap) := interpolate curarg c y ap in
          match newarg with
          | None => ret (false, st)
          | Some _ => format_loop f rest ap (set_curarg newarg true st)
          end
  end.

(** * Building the command *)

(** [pos += sprintf(cmd+pos, ...)]: the text and its NUL. *)
Definition write_text (cmd : list char) (pos : Z) (text : list char) : outcome (list char * Z) :=
  match mem_write cmd pos (text ++ [NUL]) with
  | Ok cmd => Ok (cmd, pos + zlen text)
  | Fault e => Fault e
  end.

(** The header, the [len] bytes at [arg] and CR LF. *)
Definition write_bulk (cmd : list char) (pos : Z) (arg : list char) (len : Z) : M (list char * Z) :=
  let* text := lift (sprintf (lit "$%zu" ++ CRLF) [VNum len]) in
  let* (cmd, pos) := lift (write_text cmd pos text) in
  let* d := lift (mem_read arg 0 len) in
  let* cmd := lift (mem_write cmd pos d) in
  let pos := pos + len in
  let* cmd := lift (mem_write cmd pos [CR]) in
  let* cmd := lift (mem_write cmd (pos + 1) [LF]) in
  ret (cmd, pos + 2).

Fixpoint write_argv (argv : list sdshdr) (cmd : list char) (pos : Z) : M (list char * Z) :=
  match argv with
  | [] => ret (cmd, pos)
  | s :: argv =>
      let* (cmd, pos) := write_bulk cmd pos (sh_buf s) (sdslen s) in
      let* _ := sdsfree (Some s) in
      write_argv argv cmd pos
  end.

(** [while(argc--) sdsfree(curargv[argc]);] *)
Fixpoint free_argv (argv : list sdshdr) : M unit :=
  match argv with
  | [] => ret tt
  | s :: argv => let* _ := sdsfree (Some s) in free_argv argv
  end.

(** [free(p)]: nothing for NULL. *)
Definition free_opt (p : bool) : M unit := if p then free else ret tt.

(** The label [err]; [cmd] is still NULL there. *)
Definition format_err (st : fstate) : M (Z * option (list char)) :=
  let* _ := free_argv (f_argv st) in
  let* _ := free_opt (f_vec st) in
  let* _ := match f_curarg st with Some s => sdsfree (Some s) | None => ret tt end in
  ret (-1, None).

(** The last argument, if there is one. *)
Definition format_last (st : fstate) : M (bool * fstate) :=
  let* curarg := deref (f_curarg st) in
  if f_touched st then
    let* (ok, st) := push_arg st curarg in
    ret (ok, if ok then set_curarg None (f_touched st) st else st)
  else
    let* _ := sdsfree (Some curarg) in
    ret (true, set_curarg None (f_touched st) st).

(** The multi-bulk count is added, the command allocated and written. *)
Definition format_build (st : fstate) : M (Z * option (list char)) :=
  let argc := zlen (f_argv st) in
  let* n := lift (intlen argc) in
  let* totlen := lift (int_ok (f_totlen st + (1 + n + 2))) in
  let* size := lift (int_ok (totlen + 1)) in
  let* blk := malloc (size_t size) in
  match blk with
  | None => format_err st
  | Some cmd =>
      let* text := lift (sprintf (lit "*%d" ++ CRLF) [VNum argc]) in
      let* (cmd, pos) := lift (write_text cmd 0 text) in
      let* (cmd, pos) := write_argv (f_argv st) cmd pos in
      let* _ := assert_ (pos =? totlen) in
      let* cmd := lift (mem_write cmd pos [NUL]) in
      let* _ := free_opt (f_vec st) in
      ret (totlen, Some cmd)
  end.

(** Return value and [*target]; [target] tells whether the pointer is there. *)
Definition redisvFormatCommand (target : bool) (format : list char) (ap : va_list)
  : M (Z * option (list char)) :=
  if negb target then ret (-1, None)
  else
    let* curarg := sdsempty in
    match curarg with
    | None => ret (-1, None)
    | Some _ =>
        let* (ok, st) := format_loop (S (length format)) format ap (mkF curarg false [] false 0) in
        if negb ok then format_err st
        else
          let* (ok, st) := format_last st in
          if negb ok then format_err st
          else
            format_build st
    end.

Definition redisFormatCommand (target : bool) (format : list char) (args : va_list)
  : M (Z * option (list char)) := redisvFormatCommand target format args.
End format.

(** ** Vectors of arguments *)

(** [argvlen ? argvlen[j] : strlen(argv[j])], and the region. *)
Definition arg_len (argv : list (list char)) (argvlen : option (list Z)) (j : nat)
  : outcome (list char * Z) :=
  match argv !! j with
  | None => Fault OutOfBounds
  | Some arg =>
      match argvlen with
      | Some lens => match lens !! j with Some n => Ok (arg, n) | None => Fault OutOfBounds end
      | None => match strlen arg with Some n => Ok (arg, n) | None => Fault OutOfBounds end
      end
  end.

(** [for (j = 0; j < argc; j++)]: the lengths. *)
Fixpoint sum_argv (n j : nat) (argv : list (list char)) (argvlen : option (list Z)) (totlen : Z)
  : outcome Z :=
  match n with
  | O => Ok totlen
  | S n' =>
      match arg_len argv argvlen j with
      | Fault e => Fault e
      | Ok (_, len) =>
          match add_bulklen totlen len with
          | Fault e => Fault e
          | Ok totlen => sum_argv n' (S j) argv argvlen totlen
          end
      end
  end.

Fixpoint copy_argv (n j : nat) (argv : list (list char)) (argvlen : option (list Z))
    (cmd : list char) (pos : Z) : M (list char * Z) :=
  match n with
  | O => ret (cmd, pos)
  | S n' =>
      let* (arg, len) := lift (arg_len argv argvlen j) in
      let* (cmd, pos) := write_bulk cmd pos arg len in
      copy_argv n' (S j) argv argvlen cmd pos
  end.

Definition redisFormatCommandArgv (argc : Z) (argv : list (list char)) (argvlen : option (list Z))
  : M (Z * option (list char)) :=
  let* n := lift (intlen argc) in
  let* totlen := lift (sum_argv (Z.to_nat argc) 0 argv argvlen (1 + n + 2)) in
  let* size := lift (int_ok (totlen + 1)) in
  let* blk := malloc (size_t size) in
  match blk with
  | None => ret (-1, None)
  | Some cmd =>
      let* text := lift (sprintf (lit "*%d" ++ CRLF) [VNum argc]) in
      let* (cmd, pos) := lift (write_text cmd 0 text) in
      let* (cmd, pos) := copy_argv (Z.to_nat argc) 0 argv argvlen cmd pos in
      let* _ := assert_ (pos =? totlen) in
      let* cmd := lift (mem_write cmd pos [NUL]) in
      ret (totlen, Some cmd)
  end.

(** * Lengths are right *)

Lemma intlen_loop_digs f g z len :
  0 <= z < 10 ^ Z.of_nat f -> (0 < f)%nat -> z < 2 ^ Z.of_nat g -> (0 < g)%nat ->
  intlen_loop f z len = Ok (len + zlen (digs g 10 z)).
Proof.
  revert g z len. induction f as [|f IH]; intros g z len Hz Hf Hg Hg0; [lia|].
  destruct g as [|g]; [lia|]. cbn [intlen_loop digs]. rewrite Z.quot_div_nonneg by lia.
  rewrite !Nat2Z.inj_succ, !Z.pow_succ_r in * by lia.
  destruct (Z.ltb_spec z 10) as [H10|H10].
  - by rewrite Z.div_small, Z.eqb_refl by lia.
  - pose proof (Z.div_mod z 10 ltac:(lia)). pose proof (Z.mod_pos_bound z 10 ltac:(lia)).
    rewrite (proj2 (Z.eqb_neq _ _)) by lia.
    rewrite (IH g); [| lia | | lia | ].
    + rewrite length_app. cbn [length]. f_equal. lia.
    + destruct f; [cbn in Hz; lia|lia].
    + destruct g; [cbn in Hg; lia|lia].
Qed.

(** [intlen] is the length of the printed number. *)
Lemma intlen_dec z : 0 <= z <= INT_MAX -> intlen z = Ok (zlen (dec z)).
Proof.
  intros Hz. unfold intlen. bfalse (z <? 0). unfold dec, digits. rewrite length_fmap.
  rewrite (intlen_loop_digs 11 (S (Z.to_nat (Z.log2 z))) z 0); [done|climits|lia| |lia].
  destruct (decide (z = 0)) as [->|Hne]; [done|].
  pose proof (Z.log2_spec z ltac:(lia)). pose proof (Z.log2_nonneg z).
  rewrite Nat2Z.inj_succ, Z2Nat.id by lia. lia.
Qed.

Definition bulk (s : list char) : list char := encode (VBulk s).

Lemma dec_signed_nonneg z : 0 <= z -> dec_signed z = dec z.
Proof. intros. unfold dec_signed. by bfalse (z <? 0). Qed.

Lemma length_bulk s : zlen (bulk s) = 5 + zlen (dec (zlen s)) + zlen s.
Proof.
  unfold bulk. cbn [encode]. rewrite dec_signed_nonneg by lia. cbn [length].
  rewrite !length_app. cbn [length CRLF]. lia.
Qed.

Lemma bulklen_bulk s : zlen (bulk s) <= INT_MAX -> bulklen (zlen s) = Ok (zlen (bulk s)).
Proof.
  intros Hs. rewrite length_bulk in *. unfold bulklen. rewrite int_id by climits.
  rewrite intlen_dec by climits. rewrite (size_t_id (1 + _ + 2)), size_t_id by climits. f_equal. lia.
Qed.

Lemma add_bulklen_ok t s :
  0 <= t -> t + zlen (bulk s) <= INT_MAX -> add_bulklen t (zlen s) = Ok (t + zlen (bulk s)).
Proof.
  intros Ht Hs. unfold add_bulklen. rewrite bulklen_bulk by climits.
  rewrite (size_t_id t), size_t_id, int_id by climits. done.
Qed.

(** * Writing *)

Lemma mem_write_over pre rest d :
  (length d <= length rest)%nat ->
  mem_write (pre ++ rest) (zlen pre) d = Ok (pre ++ d ++ drop (length d) rest).
Proof.
  intros Hd. rewrite <- (take_drop (length d) rest) at 1. apply mem_write_app; [done|].
  rewrite length_take. lia.
Qed.

Lemma replicate_neg n (x : Z) (s : list char) : n <= 0 -> replicate (Z.to_nat (n - zlen s)) x = [].
Proof. intros Hn. replace (Z.to_nat (n - zlen s)) with 0%nat by lia. done. Qed.

#[local] Arguments fmt_signed : simpl never.
#[local] Arguments fmt_unsigned : simpl never.

Lemma sprintf_count z : 0 <= z <= INT_MAX ->
  sprintf (lit "*%d" ++ CRLF) [VNum z] = Ok (42 :: dec_signed z ++ CRLF).
Proof.
  intros Hz. change (lit "*%d" ++ CRLF) with [42; 37; 100; 13; 10].
  unfold sprintf, vsprintf. cbn. unfold fmt_signed. cbn [fs_len len_bits fs_plus fs_space].
  rewrite int_id by climits. bfalse (z <? 0). unfold int_digits, fmt_number, pad. cbn [fs_prec fs_zero fs_left fs_width andb app].
  rewrite Z.abs_eq by lia. rewrite replicate_neg by lia. cbn [app].
  rewrite dec_signed_nonneg by lia. done.
Qed.

Lemma sprintf_bulk z : 0 <= z <= SIZE_MAX ->
  sprintf (lit "$%zu" ++ CRLF) [VNum z] = Ok (36 :: dec z ++ CRLF).
Proof.
  intros Hz. change (lit "$%zu" ++ CRLF) with [36; 37; 122; 117; 13; 10].
  unfold sprintf, vsprintf. cbn. unfold fmt_unsigned. cbn [fs_len len_bits fs_alt andb].
  rewrite size_t_id by done. unfold int_digits, fmt_number, pad. cbn [fs_prec fs_zero fs_left fs_width andb app].
  rewrite replicate_neg by lia. done.
Qed.

Lemma write_text_ok pre rest text :
  (length text < length rest)%nat ->
  write_text (pre ++ rest) (zlen pre) text =
    Ok ((pre ++ text) ++ NUL :: drop (S (length text)) rest, zlen (pre ++ text)).
Proof.
  intros Hl. unfold write_text. rewrite mem_write_over by (rewrite length_app; cbn; lia).
  rewrite !length_app, <- !app_assoc. cbn [length app]. rewrite Nat.add_1_r. do 2 f_equal. lia.
Qed.

Lemma write_bulk_ok pre rest arg s w :
  take (length s) arg = s -> (length (bulk s) <= length rest)%nat -> zlen (bulk s) <= INT_MAX ->
  exists rest', write_bulk (pre ++ rest) (zlen pre) arg (zlen s) w =
      Ok ((pre ++ bulk s) ++ rest', zlen (pre ++ bulk s), w) /\
    (length rest' + length (bulk s) = length rest)%nat.
Proof.
  intros Harg Hrest Hmax. pose proof (length_bulk s) as Hb.
  assert (length s <= length arg)%nat as Hla.
  { rewrite <- Harg at 1. rewrite length_take. lia. }
  unfold write_bulk. lift_step (sprintf_bulk (zlen s) ltac:(climits)).
  set (text := 36 :: dec (zlen s) ++ CRLF).
  assert (length text = length (dec (zlen s)) + 3)%nat as Ht by (unfold text; cbn; rewrite length_app; cbn; lia).
  lift_step (write_text_ok pre rest text ltac:(lia)). cbn beta iota.
  assert (mem_read arg 0 (zlen s) = Ok s) as Hr.
  { rewrite mem_read_ok by lia. by rewrite Nat2Z.id, drop_0, Harg. }
  lift_step Hr. set (rest1 := NUL :: drop (S (length text)) rest).
  assert (length rest1 + length text = length rest)%nat as Hr1.
  { unfold rest1. cbn [length]. rewrite length_drop. lia. }
  lift_step (mem_write_over (pre ++ text) rest1 s ltac:(lia)). rewrite (app_assoc _ s).
  replace (zlen (pre ++ text) + zlen s) with (zlen ((pre ++ text) ++ s)) by (rewrite !length_app; lia).
  set (rest2 := drop (length s) rest1).
  assert (length rest2 + length s = length rest1)%nat as Hr2 by (unfold rest2; rewrite length_drop; lia).
  lift_step (mem_write_over ((pre ++ text) ++ s) rest2 [CR] ltac:(cbn; lia)). rewrite (app_assoc _ [CR]).
  replace (zlen ((pre ++ text) ++ s) + 1) with (zlen (((pre ++ text) ++ s) ++ [CR]))
    by (rewrite (length_app _ [CR]); cbn [length]; lia).
  lift_step (mem_write_over (((pre ++ text) ++ s) ++ [CR]) (drop 1 rest2) [LF]
    ltac:(rewrite length_drop; cbn; lia)).
  exists (drop 1 (drop 1 rest2)). split; [|rewrite !length_drop; lia].
  assert (pre ++ bulk s = (((pre ++ text) ++ s) ++ [CR]) ++ [LF]) as ->.
  { unfold bulk, text. cbn [encode]. rewrite dec_signed_nonneg by lia. by rewrite <- !app_assoc; cbn; rewrite <- !app_assoc. }
  cbn [length]. rewrite <- !app_assoc. unfold ret. do 3 f_equal. rewrite !length_app. cbn. lia.
Qed.

(** * The command for a list of arguments *)

Definition command (args : list (list char)) : list char := encode (VArray (VBulk <$> args)).
Definition header (n : Z) : list char := 42 :: dec_signed n ++ CRLF.

Lemma command_eq args : command args = header (zlen args) ++ concat (bulk <$> args).
Proof.
  unfold command, header. cbn [encode app]. rewrite length_fmap, <- app_assoc, <- list_fmap_compose. done.
Qed.

Lemma length_header n : 0 <= n -> zlen (header n) = 1 + zlen (dec n) + 2.
Proof. intros. unfold header. rewrite dec_signed_nonneg by lia. cbn [length]. rewrite length_app. cbn [length CRLF]. lia. Qed.

(** What a formatting function comes to, whatever the allocator does: the
    command and its length, or -1 and nothing kept. *)
Definition formats (m : M (Z * option (list char))) (w : world) (cmd : list char) : Prop :=
  exists r w', m w = Ok (r, w') /\ alloc_only w w' /\
    ((r = (zlen cmd, Some (cmd ++ [NUL])) /\ w_live w' = w_live w + 1) \/
     (r = (-1, None) /\ w_live w' = w_live w /\ ~ no_oom w)).

(** The arguments a vector with its lengths denotes. *)
Definition denotes (argv : list (list char)) (argvlen : option (list Z)) (args : list (list char)) : Prop :=
  forall j s, args !! j = Some s ->
    exists region, arg_len argv argvlen j = Ok (region, zlen s) /\ take (length s) region = s.

Lemma sum_argv_ok argv argvlen args1 args2 t :
  denotes argv argvlen (args1 ++ args2) -> 0 <= t ->
  t + zlen (concat (bulk <$> args2)) <= INT_MAX ->
  sum_argv (length args2) (length args1) argv argvlen t = Ok (t + zlen (concat (bulk <$> args2))).
Proof.
  revert args1 t. induction args2 as [|s args2 IH]; intros args1 t Hd Ht Hmax; cbn [length sum_argv fmap list_fmap concat] in *.
  - f_equal. lia.
  - rewrite length_app in *. destruct (Hd (length args1) s) as (region & E & _); [by apply list_lookup_middle|].
    rewrite E, add_bulklen_ok by lia. rewrite <- (Nat.add_1_r (length args1)).
    replace (length args1 + 1)%nat with (length (args1 ++ [s])) by (rewrite length_app; cbn; lia).
    rewrite IH; [f_equal; lia|by rewrite <- app_assoc|lia|lia].
Qed.

Lemma copy_argv_ok argv argvlen args1 args2 pre rest w :
  denotes argv argvlen (args1 ++ args2) ->
  (length (concat (bulk <$> args2)) <= length rest)%nat -> zlen (concat (bulk <$> args2)) <= INT_MAX ->
  exists rest', copy_argv (length args2) (length args1) argv argvlen (pre ++ rest) (zlen pre) w =
      Ok ((pre ++ concat (bulk <$> args2)) ++ rest', zlen (pre ++ concat (bulk <$> args2)), w) /\
    (length rest' + length (concat (bulk <$> args2)) = length rest)%nat.
Proof.
  revert args1 pre rest. induction args2 as [|s args2 IH]; intros args1 pre rest Hd Hl Hmax;
    cbn [length copy_argv fmap list_fmap concat] in *.
  - exists rest. rewrite app_nil_r. split; [done|lia].
  - rewrite length_app in Hl, Hmax. destruct (Hd (length args1) s) as (region & E & Htake); [by apply list_lookup_middle|].
    lift_step E. cbn beta iota.
    destruct (write_bulk_ok pre rest region s w Htake ltac:(lia) ltac:(lia)) as (rest1 & E1 & Hl1).
    rewrite (bind_ok _ _ _ _ _ E1). cbn beta iota. rewrite <- (Nat.add_1_r (length args1)).
    replace (length args1 + 1)%nat with (length (args1 ++ [s])) by (rewrite length_app; cbn; lia).
    destruct (IH (args1 ++ [s]) (pre ++ bulk s) rest1) as (rest2 & E2 & Hl2); [by rewrite <- app_assoc|lia|lia|].
    exists rest2. rewrite E2, <- !app_assoc. split; [done|rewrite length_app; lia].
Qed.

Lemma mem_write_last pre rest x :
  length rest = 1%nat -> mem_write (pre ++ rest) (zlen pre) [x] = Ok (pre ++ [x]).
Proof.
  intros Hl. rewrite mem_write_over by (cbn; lia). rewrite drop_ge by (cbn; lia). by rewrite app_nil_r.
Qed.

(** The header goes into a fresh block of the right size. *)
Lemma write_header_ok n blk text :
  0 <= n -> length blk = S (length (header n ++ text)) ->
  write_text blk 0 (header n) =
    Ok (header n ++ NUL :: drop (S (length (header n))) blk, zlen (header n)) /\
  length (NUL :: drop (S (length (header n))) blk) = S (length text).
Proof.
  intros Hn Hblk. rewrite length_app in Hblk.
  pose proof (write_text_ok [] blk (header n) ltac:(lia)) as Hw. cbn [app] in Hw. split; [exact Hw|].
  cbn [length]. rewrite length_drop. lia.
Qed.

Lemma format_argv_ok argc argv argvlen args w :
  argc = zlen args -> denotes argv argvlen args -> zlen (command args) < INT_MAX ->
  formats (redisFormatCommandArgv argc argv argvlen) w (command args).
Proof.
  intros -> Hd Hmax. rewrite command_eq, length_app in *. unfold formats, redisFormatCommandArgv.
  pose proof (length_header (zlen args) ltac:(lia)) as Hh.
  assert (zlen args <= zlen (concat (bulk <$> args))) as Hn.
  { pose proof (length_vs_encode (VBulk <$> args)) as Hle. rewrite length_fmap, <- list_fmap_compose in Hle.
    change (encode ∘ VBulk) with bulk in Hle. lia. }
  lift_step (intlen_dec (zlen args) ltac:(climits)). rewrite Nat2Z.id, <- Hh.
  lift_step (sum_argv_ok argv argvlen [] args (zlen (header (zlen args))) Hd ltac:(lia) ltac:(lia)).
  assert (INT_MIN <= zlen (header (zlen args)) + zlen (concat (bulk <$> args)) + 1 <= INT_MAX) as Hsz by climits.
  lift_step (int_ok_eq _ Hsz).
  rewrite size_t_id by climits.
  destruct (malloc_spec (zlen (header (zlen args)) + zlen (concat (bulk <$> args)) + 1) w) as (p & w1 & E & Ha & Hp).
  rewrite (bind_ok _ _ _ _ _ E). destruct p as [blk|].
  2: { exists (-1, None), w1. split_and!; try done. right. split_and!; try done. intros Hno.
       rewrite malloc_no_oom in E by done. done. }
  destruct Hp as [Hblk Hlive]. lift_step (sprintf_count (zlen args) ltac:(climits)).
  fold (header (zlen args)).
  destruct (write_header_ok (zlen args) blk (concat (bulk <$> args))) as [Ew Hrest]; [lia|rewrite length_app; lia|].
  lift_step Ew. cbn beta iota.
  destruct (copy_argv_ok argv argvlen [] args (header (zlen args)) _ w1 Hd
    ltac:(rewrite Hrest; lia) ltac:(lia)) as (rest & Ec & Hl).
  rewrite (bind_ok _ _ _ _ _ Ec). cbn beta iota. rewrite length_app, Nat2Z.inj_add, Z.eqb_refl.
  erewrite (bind_ok (assert_ true)) by reflexivity. rewrite Hrest in Hl.
  rewrite <- Nat2Z.inj_add, <- length_app. lift_step (mem_write_last (header (zlen args) ++ concat (bulk <$> args)) rest NUL ltac:(lia)).
  eexists _, _. split; [done|]. split; [done|]. left. rewrite length_app. done.
Qed.

(** * What a format means *)

(** A format with its arguments is a sequence of separators and of bytes that
    belong to the current argument, whatever they are. *)
Inductive piece :=
| Sep
| Bytes (s : list char).

(** The arguments: an empty one exists only if something was interpolated. *)
Fixpoint pieces_args (cur : list char) (touched : bool) (ps : list piece) : list (list char) :=
  match ps with
  | [] => if touched then [cur] else []
  | Sep :: ps => if touched then cur :: pieces_args [] false ps else pieces_args cur false ps
  | Bytes s :: ps => pieces_args (cur ++ s) true ps
  end.

Definition is_special (y : char) : bool := (y =? 115) || (y =? 98) || (y =? 37) || (y =? NUL).

(** [expands c ap ps]: the rest [c] of the format, NUL-terminated, with the
    arguments [ap], stands for [ps]. *)
Inductive expands `{FloatFmt} : list char -> va_list -> list piece -> Prop :=
| ex_end r ap : expands (NUL :: r) ap []
| ex_space c ap ps : expands c ap ps -> expands (32 :: c) ap (Sep :: ps)
| ex_char x c ap ps :
    x <> NUL -> x <> 32 -> x <> 37 \/ (exists r, c = NUL :: r) -> expands c ap ps ->
    expands (x :: c) ap (Bytes [x] :: ps)
| ex_s c ap ap' s r ps :
    va_ptr ap = Ok (s ++ NUL :: r, ap') -> Forall (fun c => c <> NUL) s -> expands c ap' ps ->
    expands (37 :: 115 :: c) ap (Bytes s :: ps)
| ex_b c ap ap' ap'' arg n ps :
    va_ptr ap = Ok (arg, ap') -> va_num ap' = Ok (n, ap'') -> 0 <= n <= zlen arg -> expands c ap'' ps ->
    expands (37 :: 98 :: c) ap (Bytes (take (Z.to_nat n) arg) :: ps)
| ex_percent c ap ps : expands c ap ps -> expands (37 :: 37 :: c) ap (Bytes [37] :: ps)
| ex_printf y c p x rest ap text ps :
    is_special y = false -> (forall w, scan_spec (y :: c) w = Ok (p, w)) -> p = x :: rest ->
    x <> NUL -> existsb (Z.eqb x) CONVERSIONS = true ->
    let l := zlen (37 :: y :: c) - zlen rest in
    l < 14 -> vsprintf (take (Z.to_nat l) (37 :: y :: c) ++ [NUL]) ap = Ok text ->
    Forall (fun c => c <> NUL) text -> expands rest (va_skip ap) ps ->
    expands (37 :: y :: c) ap (Bytes text :: ps)
| ex_unknown y c p x rest ap ps :
    is_special y = false -> (forall w, scan_spec (y :: c) w = Ok (p, w)) -> p = x :: rest ->
    existsb (Z.eqb x) CONVERSIONS = false \/ x = NUL -> expands c (va_skip ap) ps ->
    expands (37 :: y :: c) ap (Bytes [] :: ps).

Section loop.
Context `{FloatFmt}.

(** The state holds the finished arguments [args] and the current one [cur]. *)
Record fst_ok (st : fstate) (args : list (list char)) (cur : list char) (t : bool) : Prop := {
  fo_argv : Forall2 (fun s a => sds_wf s /\ sds_str s = a) (f_argv st) args;
  fo_vec : f_vec st = negb (bool_decide (args = []));
  fo_totlen : f_totlen st = zlen (concat (bulk <$> args));
  fo_cur : exists s, f_curarg st = Some s /\ sds_wf s /\ sds_str s = cur;
  fo_touched : f_touched st = t
}.

(** The blocks a state owns. *)
Definition owned (st : fstate) : Z :=
  zlen (f_argv st) + Z.b2z (f_vec st) + (if f_curarg st is Some _ then 1 else 0).

Definition loop_post (st : fstate) (total : list (list char)) (w : world)
    (o : outcome (bool * fstate * world)) : Prop :=
  exists ok st' w', o = Ok (ok, st', w') /\ alloc_only w w' /\
    w_live w' - owned st' = w_live w - owned st /\
    if ok : bool then
      exists args cur t, fst_ok st' args cur t /\ args ++ (if t : bool then [cur] else []) = total
    else ~ no_oom w.

Lemma loop_post_shift st st1 total w w1 o :
  loop_post st1 total w1 o -> alloc_only w w1 -> w_live w1 - owned st1 = w_live w - owned st ->
  loop_post st total w o.
Proof.
  intros (ok & st' & w' & -> & Ha & Hl & Hok) Ha1 Hl1. exists ok, st', w'.
  split_and!; [done|by etrans|lia|]. destruct ok; [done|]. intros Hno. apply Hok. by eapply alloc_only_no_oom.
Qed.

(** Bytes are appended to the current argument, or memory runs out. *)
Lemma loop_append m f rest ap st args cur t s total w :
  fst_ok st args cur t -> allocs m w 0 (fun s' => sds_wf s' /\ sds_str s' = cur ++ s) ->
  (forall s' w1, fst_ok (set_curarg (Some s') true st) args (cur ++ s) true ->
     loop_post (set_curarg (Some s') true st) total w1
       (format_loop f rest ap (set_curarg (Some s') true st) w1)) ->
  loop_post st total w
    ((let* newarg := m in
      match newarg with
      | None => ret (false, st)
      | Some _ => format_loop f rest ap (set_curarg newarg true st)
      end) w).
Proof.
  intros [Hargv Hvec Htot (s0 & Hcur & Hwf & Hs0) Ht] (r & w1 & E & Ha & Hr) Hk.
  rewrite (bind_ok _ _ _ _ _ E). destruct r as [s'|].
  - destruct Hr as [[Hwf' Hs'] Hl]. eapply loop_post_shift; [apply Hk|done|].
    + split; try done. by exists s'.
    + unfold owned. rewrite Hcur. cbn. lia.
  - destruct Hr as [Hl Hno]. exists false, st, w1. split_and!; [done|done|lia|done].
Qed.

Lemma cur_bound cur ps : zlen cur <= zlen (concat (bulk <$> pieces_args cur true ps)).
Proof.
  revert cur. induction ps as [|[|s] ps IH]; intros cur; cbn [pieces_args fmap list_fmap concat].
  - rewrite app_nil_r, length_bulk. lia.
  - rewrite length_app. pose proof (length_bulk cur). lia.
  - etrans; [|apply IH]. rewrite length_app. lia.
Qed.

(** The current argument joins the vector. *)
Lemma push_arg_ok st args cur t s w :
  fst_ok st args cur t -> f_curarg st = Some s -> sds_wf s -> sds_str s = cur ->
  zlen (concat (bulk <$> (args ++ [cur]))) <= INT_MAX ->
  exists ok st' w', push_arg st s w = Ok (ok, st', w') /\ alloc_only w w' /\
    if ok : bool then
      Forall2 (fun s a => sds_wf s /\ sds_str s = a) (f_argv st') (args ++ [cur]) /\
      f_vec st' = true /\ f_totlen st' = zlen (concat (bulk <$> (args ++ [cur]))) /\
      f_curarg st' = Some s /\ f_touched st' = t /\ w_live w' - owned st' = w_live w - owned st - 1
    else st' = st /\ w_live w' = w_live w /\ ~ no_oom w.
Proof.
  intros [Hargv Hvec Htot _ Ht] Hcur Hwf Hs Hmax. unfold push_arg.
  rewrite fmap_app, concat_app, length_app in *. cbn [fmap list_fmap concat] in *. rewrite app_nil_r in *.
  destruct (realloc_block_spec (f_vec st) w) as (b & w1 & E & Ha & Hl). rewrite (bind_ok _ _ _ _ _ E).
  destruct b; cbn [negb andb] in *.
  - rewrite sdslen_str, Hs, Htot by done.
    assert (zlen (concat (bulk <$> args)) + zlen (bulk cur) <= INT_MAX) as Hsum by lia.
    lift_step (add_bulklen_ok (zlen (concat (bulk <$> args))) cur ltac:(lia) Hsum).
    eexists _, _, _. split; [done|]. split; [done|]. cbn. split_and!; try done.
    + apply Forall2_app; [done|]. by constructor.
    + lia.
    + unfold owned. cbn [f_argv f_vec f_curarg]. rewrite Hcur, length_app. cbn [length].
      destruct (f_vec st); cbn [Z.b2z negb] in *; lia.
  - exists false, st, w1. split_and!; try done; [lia|]. intros Hno.
    unfold realloc_block in E. destruct (f_vec st).
    + rewrite ask_alloc_no_oom in E by done. done.
    + rewrite alloc_block_no_oom in E by done. done.
Qed.

Lemma skip_char_length x p q : skip_char x p = Ok q -> (length q <= length p)%nat.
Proof. destruct p as [|c p]; cbn; [done|]. intros [= <-]. destruct (c =? x); cbn; lia. Qed.

Lemma skip_digits_length p q : skip_digits p = Ok q -> (length q <= length p)%nat.
Proof.
  revert q. induction p as [|c p IH]; intros q; cbn; [done|]. destruct (isdigit c).
  - intros Hq%IH. lia.
  - intros [= <-]. done.
Qed.

Lemma lift_inv {A} (o : outcome A) w a w' : lift o w = Ok (a, w') -> o = Ok a /\ w' = w.
Proof. unfold lift. destruct o; [|done]. by intros [= -> ->]. Qed.

(** The scan goes forward. *)
Lemma scan_spec_length p w q w' : scan_spec p w = Ok (q, w') -> (length q <= length p)%nat.
Proof.
  unfold scan_spec. intros Hs.
  apply bind_inv in Hs as (p1 & ? & [Hq1 ->]%lift_inv & Hs). apply skip_char_length in Hq1.
  apply bind_inv in Hs as (p2 & ? & [Hq2 ->]%lift_inv & Hs). apply skip_char_length in Hq2.
  apply bind_inv in Hs as (p3 & ? & [Hq3 ->]%lift_inv & Hs). apply skip_char_length in Hq3.
  apply bind_inv in Hs as (p4 & ? & [Hq4 ->]%lift_inv & Hs). apply skip_char_length in Hq4.
  apply bind_inv in Hs as (p5 & ? & [Hq5 ->]%lift_inv & Hs). apply skip_char_length in Hq5.
  apply bind_inv in Hs as (p6 & ? & [Hd ->]%lift_inv & Hs). apply skip_digits_length in Hd.
  apply bind_inv in Hs as (c & ? & [_ ->]%lift_inv & Hs).
  apply bind_inv in Hs as (p7 & w7 & Hp7 & Hs).
  assert (length p7 <= length p6)%nat.
  { destruct (c =? 46).
    - apply lift_inv in Hp7 as [Hd7 _]. apply skip_digits_length in Hd7. destruct p6; cbn in *; lia.
    - by injection Hp7 as <- <-. }
  apply bind_inv in Hs as (c' & ? & [_ ->]%lift_inv & Hs).
  assert (forall l : list char, length (tail l) <= length l)%nat as Htl by (intros []; cbn; lia).
  destruct (_ || _).
  - apply bind_inv in Hs as (d & ? & _ & [= <- _]). pose proof (Htl p7). pose proof (Htl (tail p7)).
    destruct (c' =? d); lia.
  - injection Hs as <- _. lia.
Qed.

Lemma lift_peek x c w : lift (peek (x :: c)) w = Ok (x, w).
Proof. done. Qed.

Lemma plain_char x c w :
  x <> 37 \/ (exists r, c = NUL :: r) ->
  (if negb (x =? 37) then ret true else let* y := lift (peek (tail (x :: c))) in ret (y =? NUL)) w = Ok (true, w).
Proof.
  intros Hx. destruct (Z.eqb_spec x 37) as [->|Hne]; [|done]. destruct Hx as [?|[r ->]]; done.
Qed.

(** Appending the [n] bytes of an argument, nothing when there are none. *)
Lemma append_arg_allocs s0 arg n cur w :
  sds_wf s0 -> sds_str s0 = cur -> 0 <= n <= zlen arg -> 2 * (zlen cur + n) <= INT_MAX ->
  allocs (if 0 <? n then sdscatlen s0 arg n else ret (Some s0)) w 0
    (fun s' => sds_wf s' /\ sds_str s' = cur ++ take (Z.to_nat n) arg).
Proof.
  intros Hwf Hs Hn Hmax. destruct (Z.ltb_spec 0 n).
  - rewrite <- Hs. apply sdscatlen_allocs; [done|lia|]. right. rewrite <- (length_sds_str s0 Hwf), Hs. lia.
  - assert (n = 0) as -> by lia. apply allocs_ret. split; [done|]. by rewrite app_nil_r.
Qed.

Lemma pieces_bytes_bound cur t s ps :
  zlen cur + zlen s <= zlen (concat (bulk <$> pieces_args cur t (Bytes s :: ps))).
Proof. cbn [pieces_args]. pose proof (cur_bound (cur ++ s) ps) as Hb. rewrite length_app in Hb. lia. Qed.

Lemma special_false y : is_special y = false ->
  (y =? 115) = false /\ (y =? 98) = false /\ (y =? 37) = false /\ (y =? NUL) = false.
Proof. unfold is_special. intros E. repeat split; lia. Qed.

Lemma conversion_char y c w :
  y <> NUL ->
  (if negb (37 =? 37) then ret true else let* y := lift (peek (tail (37 :: y :: c))) in ret (y =? NUL)) w =
    Ok (false, w).
Proof. intros Hy. cbn. by rewrite (proj2 (Z.eqb_neq y NUL) Hy). Qed.

(** What the loop does at a position, by induction on the rest. *)
Definition loop_ok (c : list char) (ap : va_list) (ps : list piece) : Prop :=
  forall fuel st args cur t w,
    (length c < fuel)%nat -> fst_ok st args cur t ->
    2 * zlen (concat (bulk <$> (args ++ pieces_args cur t ps))) <= INT_MAX ->
    loop_post st (args ++ pieces_args cur t ps) w (format_loop fuel c ap st w).

Lemma bytes_bound ps (args : list (list char)) cur t s :
  2 * zlen (concat (bulk <$> (args ++ pieces_args cur t (Bytes s :: ps)))) <= INT_MAX ->
  2 * (zlen cur + zlen s) <= INT_MAX.
Proof.
  intros Hm. rewrite fmap_app, concat_app, length_app in Hm.
  pose proof (pieces_bytes_bound cur t s ps). lia.
Qed.

(** A space ends the argument. *)
Lemma loop_space c ap ps : loop_ok c ap ps -> loop_ok (32 :: c) ap (Sep :: ps).
Proof.
  intros IH fuel st args cur t w Hf Hst Hmax. destruct fuel as [|f]; [cbn in Hf; lia|]. cbn [format_loop].
  rewrite (bind_ok _ _ _ _ _ (lift_peek _ _ w)). pose proof Hst as [_ _ _ (s0 & Hcur & Hwf & Hs0) Ht].
  change (32 =? NUL) with false. cbn iota. rewrite Hcur. erewrite (bind_ok (deref (Some s0))) by reflexivity.
  rewrite (bind_ok _ _ _ _ _ (plain_char 32 c w ltac:(by left))). change (32 =? 32) with true. cbn iota.
  rewrite Ht. cbn [pieces_args tail] in *. cbn [length] in Hf. destruct t.
  2: { apply IH; try done; lia. }
  replace (args ++ cur :: pieces_args [] false ps) with ((args ++ [cur]) ++ pieces_args [] false ps) in *
    by (by rewrite <- app_assoc).
  destruct (push_arg_ok st args cur true s0 w Hst Hcur Hwf Hs0) as (ok & st1 & w1 & E & Ha & Hpost).
  { rewrite fmap_app, concat_app, length_app in Hmax. lia. }
  rewrite (bind_ok _ _ _ _ _ E). cbn beta iota. destruct ok; cbn [negb].
  2: { destruct Hpost as (-> & Hl & Hno). exists false, st, w1. split_and!; [done|done|lia|done]. }
  destruct Hpost as (Hargv1 & Hvec1 & Htot1 & Hcur1 & Ht1 & Hl1).
  destruct (sdsnewlen_allocs (Some [NUL]) 0 w1 ltac:(climits) ltac:(cbn; lia)) as (e & w2 & Ee & Ha2 & He2).
  change (sdsnewlen (Some [NUL]) 0) with sdsempty in Ee. rewrite (bind_ok _ _ _ _ _ Ee). destruct e as [e|].
  - destruct He2 as [(Hwe & _ & Hse) Hl2]. cbn in Hse. eapply loop_post_shift.
    + apply IH with (t := false) (cur := []); [lia| |done].
      split; cbn; [done| |done|by exists e|done]. rewrite Hvec1. symmetry. apply negb_true_iff, bool_decide_eq_false.
      by destruct args.
    + by etrans.
    + unfold owned in *. cbn. rewrite Hcur1 in *. lia.
  - destruct He2 as [Hl2 Hno]. exists false, (set_curarg None (f_touched st1) st1), w2.
    split_and!; [done|by etrans| |].
    + unfold owned in *. cbn. rewrite Hcur1 in *. lia.
    + intros Hn. apply Hno. by eapply alloc_only_no_oom.
Qed.

(** Bytes: the program at the position runs [m] on the current argument and
    goes on behind it. *)
Lemma loop_bytes c rest ap ap' s ps (m : sdshdr -> M (option sdshdr)) :
  loop_ok rest ap' ps -> (length rest < length c)%nat ->
  (forall f st s0 w, f_curarg st = Some s0 ->
     format_loop (S f) c ap st w =
       (let* newarg := m s0 in
        match newarg with
        | None => ret (false, st)
        | Some _ => format_loop f rest ap' (set_curarg newarg true st)
        end) w) ->
  (forall s0 cur w, sds_wf s0 -> sds_str s0 = cur -> 2 * (zlen cur + zlen s) <= INT_MAX ->
     allocs (m s0) w 0 (fun s' => sds_wf s' /\ sds_str s' = cur ++ s)) ->
  loop_ok c ap (Bytes s :: ps).
Proof.
  intros IH Hlen Hstep Hm fuel st args cur t w Hf Hst Hmax. destruct fuel as [|f]; [lia|].
  pose proof Hst as [_ _ _ (s0 & Hcur & Hwf & Hs0) _]. rewrite (Hstep f st s0 w Hcur).
  pose proof (bytes_bound _ _ _ _ _ Hmax) as Hb. cbn [pieces_args] in *.
  eapply (loop_append _ _ _ _ _ args cur t s); [done|by apply Hm|].
  intros s' w1 Hst1. apply IH; [lia|done|done].
Qed.

(** The program at a conversion. *)
Lemma loop_conversion y c ap f st s0 w :
  y <> NUL -> f_curarg st = Some s0 ->
  format_loop (S f) (37 :: y :: c) ap st w =
    (let* (newarg, rest, ap) := interpolate s0 (37 :: y :: c) y ap in
     match newarg with
     | None => ret (false, st)
     | Some _ => format_loop f rest ap (set_curarg newarg true st)
     end) w.
Proof.
  intros Hy Hcur. cbn [format_loop]. rewrite (bind_ok _ _ _ _ _ (lift_peek _ _ w)).
  change (37 =? NUL) with false. cbn iota. rewrite Hcur. erewrite (bind_ok (deref (Some s0))) by reflexivity.
  rewrite (bind_ok _ _ _ _ _ (conversion_char y c w Hy)). cbn [tail].
  by rewrite (bind_ok _ _ _ _ _ (lift_peek _ _ w)).
Qed.

Lemma format_loop_ok c ap ps : expands c ap ps -> loop_ok c ap ps.
Proof.
  induction 1 as [r ap|c ap ps He IH|x c ap ps Hx0 Hx32 Hx He IH|c ap ap' s r ps Hva Hs He IH
    |c ap ap' ap'' arg n ps Hva Hvn Hn He IH|c ap ps He IH
    |y c p x rest ap text ps Hy Hscan -> Hx0 Hconv l Hl Htext Hnul He IH
    |y c p x rest ap ps Hy Hscan -> Hconv He IH].
  - intros fuel st args cur t w Hf Hst _. destruct fuel as [|f]; [cbn in Hf; lia|].
    exists true, st, w. split_and!; try done. by exists args, cur, t.
  - by apply loop_space.
  - apply (loop_bytes _ c ap ap [x] ps (fun s0 => sdscatlen s0 (x :: c) 1) IH); [cbn; lia| |].
    + intros f st s0 w Hcur. cbn [format_loop]. rewrite (bind_ok _ _ _ _ _ (lift_peek _ _ w)).
      rewrite (proj2 (Z.eqb_neq x NUL) Hx0), Hcur. erewrite (bind_ok (deref (Some s0))) by reflexivity.
      by rewrite (bind_ok _ _ _ _ _ (plain_char x c w Hx)), (proj2 (Z.eqb_neq x 32) Hx32).
    + intros s0 cur w Hwf Hs0 Hmax. apply (append_arg_allocs s0 (x :: c) 1 cur w); try done; cbn [length] in *; lia.
  - assert (take (Z.to_nat (zlen s)) (s ++ NUL :: r) = s) as Htk by (by rewrite Nat2Z.id, take_app_length).
    apply (loop_bytes _ c ap ap' s ps (fun s0 => if 0 <? zlen s then sdscatlen s0 (s ++ NUL :: r) (zlen s) else ret (Some s0)) IH);
      [cbn; lia| |].
    + intros f st s0 w Hcur. rewrite (loop_conversion 115 c ap f st s0 w) by done.
      unfold interpolate. change (115 =? 115) with true. cbn iota. rewrite bind_assoc. lift_step Hva.
      cbn beta iota. rewrite strlen_app_nul by done. rewrite bind_assoc. by apply bind_ext.
    + intros s0 cur w Hwf Hs0 Hmax. eapply allocs_mono.
      * apply (append_arg_allocs s0 (s ++ NUL :: r) (zlen s) cur w); try done. rewrite length_app. lia.
      * intros a. by rewrite Htk.
  - apply (loop_bytes _ c ap ap'' _ ps (fun s0 => if 0 <? n then sdscatlen s0 arg n else ret (Some s0)) IH);
      [cbn; lia| |].
    + intros f st s0 w Hcur. rewrite (loop_conversion 98 c ap f st s0 w) by done.
      unfold interpolate. change (98 =? 115) with false. change (98 =? 98) with true. cbn iota.
      rewrite bind_assoc. lift_step Hva. cbn beta iota. rewrite bind_assoc. lift_step Hvn. cbn beta iota.
      rewrite bind_assoc. by apply bind_ext.
    + intros s0 cur w Hwf Hs0 Hmax. rewrite length_take in Hmax.
      apply (append_arg_allocs s0 arg n cur w); try done. lia.
  - apply (loop_bytes _ c ap ap [37] ps (fun s0 => sdscat s0 [37; NUL]) IH); [cbn; lia| |].
    + intros f st s0 w Hcur. rewrite (loop_conversion 37 c ap f st s0 w) by done.
      unfold interpolate. change (37 =? 115) with false. change (37 =? 98) with false. change (37 =? 37) with true.
      cbn iota. rewrite bind_assoc. by apply bind_ext.
    + intros s0 cur w Hwf Hs0 Hmax. rewrite <- Hs0. apply (sdscat_allocs s0 [37] [] w); [done|by repeat constructor|].
      right. rewrite <- (length_sds_str s0 Hwf), Hs0. cbn [length] in *. lia.
  - pose proof (special_false y Hy) as (Hy1 & Hy2 & Hy3 & Hy4).
    pose proof (scan_spec_length _ _ _ _ (Hscan world0)) as Hsl. cbn [length] in Hsl.
    apply (loop_bytes _ rest ap (va_skip ap) text ps
      (fun s0 => sdscatvprintf s0 (take (Z.to_nat l) (37 :: y :: c) ++ [NUL]) ap) IH); [cbn [length]; lia| |].
    + intros f st s0 w Hcur. rewrite (loop_conversion y c ap f st s0 w) by first [done|lia].
      unfold interpolate. rewrite Hy1, Hy2, Hy3. rewrite bind_assoc. unfold printf_arg. cbn [tail].
      rewrite bind_assoc, (bind_ok _ _ _ _ _ (Hscan w)).
      rewrite bind_assoc, (bind_ok _ _ _ _ _ (lift_peek _ _ w)).
      rewrite (proj2 (Z.eqb_neq x NUL) Hx0), Hconv. cbn [negb andb tail]. fold l. btrue (l <? 14).
      rewrite bind_assoc. by apply bind_ext.
    + intros s0 cur w Hwf Hs0 Hmax. rewrite <- Hs0. apply sdscatvprintf_allocs; try done; [climits|].
      right. rewrite <- (length_sds_str s0 Hwf), Hs0. lia.
  - pose proof (special_false y Hy) as (Hy1 & Hy2 & Hy3 & Hy4).
    apply (loop_bytes _ c ap (va_skip ap) [] ps (fun s0 => ret (Some s0)) IH); [cbn [length]; lia| |].
    + intros f st s0 w Hcur. rewrite (loop_conversion y c ap f st s0 w) by first [done|lia].
      unfold interpolate. rewrite Hy1, Hy2, Hy3. rewrite bind_assoc. unfold printf_arg. cbn [tail].
      rewrite bind_assoc, (bind_ok _ _ _ _ _ (Hscan w)).
      rewrite bind_assoc, (bind_ok _ _ _ _ _ (lift_peek _ _ w)).
      assert (negb (x =? NUL) && existsb (Z.eqb x) CONVERSIONS = false) as ->.
      { destruct Hconv as [->| ->]; [apply andb_false_r|done]. }
      done.
    + intros s0 cur w Hwf Hs0 Hmax. apply allocs_ret. by rewrite app_nil_r.
Qed.

(** * The whole function *)

Lemma free_argv_ok argv w : free_argv argv w = Ok (tt, add_live (- zlen argv) w).
Proof.
  revert w. induction argv as [|s argv IH]; intros w; cbn [free_argv length].
  - change (- Z.of_nat 0) with 0. by rewrite add_live_0.
  - unfold sdsfree. erewrite (bind_ok free) by reflexivity. rewrite IH, add_live_add. do 3 f_equal. lia.
Qed.

Lemma free_opt_ok b w : free_opt b w = Ok (tt, add_live (- Z.b2z b) w).
Proof. destruct b; [done|]. cbn. by rewrite add_live_0. Qed.

(** The error path gives back what the state owns. *)
Lemma format_err_ok st w : format_err st w = Ok (-1, None, add_live (- owned st) w).
Proof.
  unfold format_err. rewrite (bind_ok _ _ _ _ _ (free_argv_ok _ w)), (bind_ok _ _ _ _ _ (free_opt_ok _ _)).
  rewrite add_live_add. unfold owned. destruct (f_curarg st).
  - unfold sdsfree. erewrite (bind_ok free) by reflexivity. rewrite add_live_add. unfold ret. do 3 f_equal. lia.
  - erewrite (bind_ok (ret tt)) by reflexivity. unfold ret. do 3 f_equal. lia.
Qed.

Lemma write_argv_ok argv args pre rest w :
  Forall2 (fun s a => sds_wf s /\ sds_str s = a) argv args ->
  (length (concat (bulk <$> args)) <= length rest)%nat -> zlen (concat (bulk <$> args)) <= INT_MAX ->
  exists rest', write_argv argv (pre ++ rest) (zlen pre) w =
      Ok ((pre ++ concat (bulk <$> args)) ++ rest', zlen (pre ++ concat (bulk <$> args)),
          add_live (- zlen argv) w) /\
    (length rest' + length (concat (bulk <$> args)) = length rest)%nat.
Proof.
  intros Hargs. revert pre rest w. induction Hargs as [|s a argv args [Hwf Hs] Hargs IH]; intros pre rest w Hl Hmax;
    cbn [length write_argv fmap list_fmap concat] in *.
  - exists rest. rewrite app_nil_r. change (- Z.of_nat 0) with 0. rewrite add_live_0. split; [done|lia].
  - rewrite length_app in Hl, Hmax.
    assert (take (length a) (sh_buf s) = a) as Htake.
    { rewrite <- Hs at 2. unfold sds_str. f_equal. rewrite <- Hs. pose proof (length_sds_str s Hwf). lia. }
    destruct (write_bulk_ok pre rest (sh_buf s) a w Htake ltac:(lia) ltac:(lia)) as (rest1 & E1 & Hl1).
    rewrite sdslen_str, Hs, (bind_ok _ _ _ _ _ E1) by done. cbn beta iota.
    unfold sdsfree. erewrite (bind_ok free) by reflexivity.
    destruct (IH (pre ++ bulk a) rest1 (add_live (-1) w)) as (rest2 & E2 & Hl2); [lia|lia|].
    exists rest2. rewrite E2, <- !app_assoc, add_live_add. split; [|rewrite length_app; lia].
    do 3 f_equal. lia.
Qed.

Lemma format_last_ok st args cur t w :
  fst_ok st args cur t -> zlen (concat (bulk <$> (args ++ (if t then [cur] else [])))) <= INT_MAX ->
  exists ok st' w', format_last st w = Ok (ok, st', w') /\ alloc_only w w' /\
    w_live w' - owned st' = w_live w - owned st /\
    if ok : bool then
      Forall2 (fun s a => sds_wf s /\ sds_str s = a) (f_argv st') (args ++ (if t then [cur] else [])) /\
      f_totlen st' = zlen (concat (bulk <$> (args ++ (if t then [cur] else [])))) /\ f_curarg st' = None
    else ~ no_oom w.
Proof.
  intros Hst Hmax. pose proof Hst as [Hargv Hvec Htot (s0 & Hcur & Hwf & Hs0) Ht]. unfold format_last.
  rewrite Hcur. erewrite (bind_ok (deref (Some s0))) by reflexivity. rewrite Ht. destruct t.
  - destruct (push_arg_ok st args cur true s0 w Hst Hcur Hwf Hs0 Hmax) as (ok & st1 & w1 & E & Ha & Hpost).
    rewrite (bind_ok _ _ _ _ _ E). destruct ok.
    + destruct Hpost as (H1 & H2 & H3 & H4 & H5 & H6). eexists true, _, w1. split_and!; try done.
      unfold owned in *. cbn. rewrite H4 in H6. lia.
    + destruct Hpost as (-> & Hl & Hno). exists false, st, w1. split_and!; [done|done|lia|done].
  - unfold sdsfree. erewrite (bind_ok free) by reflexivity. rewrite app_nil_r in *.
    eexists true, _, (add_live (-1) w). split_and!; try done; [apply alloc_only_add_live|].
    unfold owned. rewrite Hcur. cbn. lia.
Qed.

Lemma args_le_bulks args : zlen args <= zlen (concat (bulk <$> args)).
Proof.
  pose proof (length_vs_encode (VBulk <$> args)) as Hle. rewrite length_fmap, <- list_fmap_compose in Hle.
  change (encode ∘ VBulk) with bulk in Hle. lia.
Qed.

(** Either outcome of a formatting function that owns the blocks of [st]. *)
Definition build_post (st : fstate) (cmd : list char) (w : world)
    (o : outcome (Z * option (list char) * world)) : Prop :=
  exists r w', o = Ok (r, w') /\ alloc_only w w' /\
    ((r = (zlen cmd, Some (cmd ++ [NUL])) /\ w_live w' = w_live w - owned st + 1) \/
     (r = (-1, None) /\ w_live w' = w_live w - owned st /\ ~ no_oom w)).

Lemma format_err_post st cmd w w' :
  alloc_only w w' -> w_live w' = w_live w -> ~ no_oom w -> build_post st cmd w (format_err st w').
Proof.
  intros Ha Hl Hno. rewrite format_err_ok. eexists _, _. split; [done|]. split.
  - etrans; [done|apply alloc_only_add_live].
  - right. split_and!; [done|cbn; lia|done].
Qed.

Lemma format_err_done st cmd w w' :
  alloc_only w w' -> w_live w' - owned st = w_live w -> ~ no_oom w ->
  exists r w'', format_err st w' = Ok (r, w'') /\ alloc_only w w'' /\
    ((r = (zlen cmd, Some (cmd ++ [NUL])) /\ w_live w'' = w_live w + 1) \/
     (r = (-1, None) /\ w_live w'' = w_live w /\ ~ no_oom w)).
Proof.
  intros Ha Hl Hno. rewrite format_err_ok. eexists _, _. split; [done|]. split.
  - etrans; [done|apply alloc_only_add_live].
  - right. split_and!; [done|cbn; lia|done].
Qed.

Lemma format_build_ok st args w :
  Forall2 (fun s a => sds_wf s /\ sds_str s = a) (f_argv st) args ->
  f_totlen st = zlen (concat (bulk <$> args)) -> f_curarg st = None -> zlen (command args) < INT_MAX ->
  build_post st (command args) w (format_build st w).
Proof.
  intros Hargv Htot Hcur Hmax. pose proof (Forall2_length _ _ _ Hargv) as Hlen. unfold format_build.
  rewrite command_eq, length_app in Hmax. pose proof (length_header (zlen args) ltac:(lia)) as Hh.
  pose proof (args_le_bulks args) as Hn. rewrite Hlen.
  lift_step (intlen_dec (zlen args) ltac:(climits)). rewrite <- Hh, Htot.
  set (tot := zlen (concat (bulk <$> args)) + zlen (header (zlen args))).
  assert (INT_MIN <= tot <= INT_MAX /\ INT_MIN <= tot + 1 <= INT_MAX) as [Ht Hsz] by (unfold tot; climits).
  lift_step (int_ok_eq _ Ht). lift_step (int_ok_eq _ Hsz). rewrite size_t_id by (unfold tot; climits).
  destruct (malloc_spec (tot + 1) w) as (p & w1 & E & Ha & Hp). rewrite (bind_ok _ _ _ _ _ E).
  destruct p as [blk|].
  2: { apply format_err_post; [done|done|]. intros Hno. rewrite malloc_no_oom in E by done. done. }
  destruct Hp as [Hblk Hlive]. lift_step (sprintf_count (zlen args) ltac:(climits)). fold (header (zlen args)).
  destruct (write_header_ok (zlen args) blk (concat (bulk <$> args))) as [Ew Hrest]; [lia|rewrite length_app; lia|].
  lift_step Ew. cbn beta iota.
  destruct (write_argv_ok (f_argv st) args (header (zlen args)) (NUL :: drop (S (length (header (zlen args)))) blk) w1 Hargv
    ltac:(rewrite Hrest; lia) ltac:(lia)) as (rest & Ec & Hl).
  rewrite (bind_ok _ _ _ _ _ Ec). cbn beta iota. rewrite <- command_eq in *.
  assert (zlen (command args) = tot) as Hc by (rewrite command_eq, length_app; unfold tot; lia).
  rewrite Hc, Z.eqb_refl. erewrite (bind_ok (assert_ true)) by reflexivity. rewrite <- Hc.
  lift_step (mem_write_last (command args) rest NUL ltac:(lia)).
  rewrite (bind_ok _ _ _ _ _ (free_opt_ok _ _)), add_live_add.
  eexists _, _. split; [done|]. split; [etrans; [done|apply alloc_only_add_live]|]. left. split; [done|].
  unfold owned. rewrite Hcur. cbn. lia.
Qed.

Lemma format_command_ok format ap ps w :
  expands format ap ps -> let args := pieces_args [] false ps in
  2 * zlen (concat (bulk <$> args)) <= INT_MAX -> zlen (command args) < INT_MAX ->
  formats (redisvFormatCommand true format ap) w (command args).
Proof.
  intros He args Hmax Hmax2. unfold formats, redisvFormatCommand. cbn [negb].
  destruct (sdsnewlen_allocs (Some [NUL]) 0 w ltac:(climits) ltac:(cbn; lia)) as (e & w0 & Ee & Ha0 & He0).
  change (sdsnewlen (Some [NUL]) 0) with sdsempty in Ee. rewrite (bind_ok _ _ _ _ _ Ee).
  destruct e as [e|]; [|exists (-1, None), w0; split_and!; try done; by right].
  destruct He0 as [(Hwe & _ & Hse) Hl0]. cbn in Hse.
  set (st0 := mkF (Some e) false [] false 0).
  destruct (format_loop_ok format ap ps He (S (length format)) st0 [] [] false w0) as
    (ok & st1 & w1 & E1 & Ha1 & Hl1 & Hok); [lia| |done|].
  { split; cbn; [done|done|done|by exists e|done]. }
  rewrite (bind_ok _ _ _ _ _ E1). cbn beta iota. assert (owned st0 = 1) as Hown by done.
  destruct ok; cbn [negb].
  2: { apply (format_err_done st1); [by etrans|lia|]. intros Hn. apply Hok. by eapply alloc_only_no_oom. }
  destruct Hok as (args1 & cur1 & t1 & Hst1 & Htotal). cbn [app] in Htotal.
  destruct (format_last_ok st1 args1 cur1 t1 w1 Hst1 ltac:(rewrite Htotal; fold args; lia))
    as (ok2 & st2 & w2 & E2 & Ha2 & Hl2 & Hok2). rewrite (bind_ok _ _ _ _ _ E2). cbn beta iota.
  assert (alloc_only w w1) as Ha01 by (by etrans). assert (alloc_only w w2) as Ha02 by (by etrans).
  destruct ok2; cbn [negb].
  2: { apply (format_err_done st2); [done|lia|]. intros Hn. apply Hok2. by eapply alloc_only_no_oom. }
  rewrite Htotal in Hok2. fold args in Hok2. destruct Hok2 as (Hargv2 & Htot2 & Hcur2).
  destruct (format_build_ok st2 args w2 Hargv2 Htot2 Hcur2 Hmax2) as (r & w3 & E3 & Ha3 & Hr).
  rewrite E3. exists r, w3. split_and!; [done|by etrans|].
  destruct Hr as [[-> ?]|(-> & ? & Hno)]; [left; split; [done|lia]|right; split_and!; [done|lia|]].
  intros Hn. apply Hno. by eapply alloc_only_no_oom.
Qed.
End loop.

(** * Properties *)

(** C24: [redisvFormatCommand] on a format that stands for the pieces [ps],
    whatever the allocator does: it returns the length and the text of the
    protocol's encoding of exactly the arguments the format describes, in a
    block of the right size, or -1 with nothing kept and only when memory was
    refused.  Bytes interpolated by [%s], [%b] and the [printf] conversions
    stay inside their argument, spaces, CR and LF among them. *)
Theorem format_command_correct `{FloatFmt} format ap ps w :
  expands format ap ps ->
  2 * zlen (concat (bulk <$> pieces_args [] false ps)) <= INT_MAX ->
  zlen (command (pieces_args [] false ps)) < INT_MAX ->
  formats (redisvFormatCommand true format ap) w (command (pieces_args [] false ps)).
Proof. apply format_command_ok. Qed.

(** An argument with a space and a line end, and an allocator that refuses the
    fourth request. *)
Definition set_args : va_list := mkVa [VPtr (lit "a b" ++ [NUL]); VPtr [13; 10; 0]; VNum 3] [].

Lemma format_command_correct_witness :
  let w := set_alloc [true; true; true; false] world0 in
  formats (@redisvFormatCommand no_float true (lit "SET %s %b" ++ [NUL]) set_args) w
    (command [lit "SET"; lit "a b"; [13; 10; 0]]).
Proof.
  apply (@format_command_correct no_float (lit "SET %s %b" ++ [NUL]) set_args
    [Bytes (lit "S"); Bytes (lit "E"); Bytes (lit "T"); Sep; Bytes (lit "a b"); Sep; Bytes [13; 10; 0]]).
  - do 3 (apply ex_char; [discriminate|discriminate|left; discriminate|]). apply ex_space.
    eapply (ex_s _ _ _ (lit "a b") []); [reflexivity|repeat constructor; discriminate|]. apply ex_space.
    eapply (ex_b _ _ _ _ [13; 10; 0] 3); [reflexivity|reflexivity|cbn; lia|]. apply ex_end.
  - vm_compute. discriminate.
  - vm_compute. reflexivity.
Defined.

(** [redisFormatCommandArgv] on a vector of arguments, with their lengths
    or as C strings: the encoding of exactly these arguments, or -1 with
    nothing kept when memory is refused. *)
Theorem format_argv_correct argv argvlen args w :
  denotes argv argvlen args -> zlen (command args) < INT_MAX ->
  formats (redisFormatCommandArgv (zlen args) argv argvlen) w (command args).
Proof. intros. by apply format_argv_ok. Qed.

Lemma format_argv_correct_witness :
  formats (redisFormatCommandArgv 2 [lit "GET" ++ [NUL]; lit "k" ++ [NUL]] None) world0
    (command [lit "GET"; lit "k"]).
Proof.
  apply (format_argv_correct _ None [lit "GET"; lit "k"]).
  - intros [|[|j]] s Hs; cbn in Hs; simplify_eq; (eexists; split; [reflexivity|reflexivity]).
  - vm_compute. reflexivity.
Defined.

(** The value a command is for its receiver. *)
Definition command_value (args : list (list char)) : value := VArray (VBulk <$> args).

(** The receiver of a formatted command, fed the bytes in any pieces,
    reads an array of bulk strings with exactly the arguments, and is ready for
    the next command: the formatter and the reader agree on the protocol. *)
Theorem command_roundtrip argv argvlen args chunks w cmd w1 :
  no_oom w -> denotes argv argvlen args -> 2 * zlen (command args) <= INT_MAX ->
  redisFormatCommandArgv (zlen args) argv argvlen w = Ok (zlen cmd, Some (cmd ++ [NUL]), w1) ->
  concat chunks = cmd ->
  exists r, read_stream chunks w1 =
    Ok ([Obj (w_next w)], REDIS_OK, r, stored [command_value args] (add_live 3 w)).
Proof.
  intros Hw Hd Hmax E Hcat.
  destruct (format_argv_ok (zlen args) argv argvlen args w eq_refl Hd ltac:(climits)) as (r & w' & E' & Ha & Hr).
  destruct Hr as [[-> Hl]|(_ & _ & Hno)]; [|done]. rewrite E in E'.
  assert (w1 = w' /\ cmd = command args) as [-> ->].
  { injection E' as _ Hcmd ->. split; [done|]. by apply (app_inv_tail [NUL]). }
  apply (alloc_only_add_live_eq 1 w w' Hw) in Ha as ->; [|done].
  destruct (read_stream_eq chunks (add_live 1 w) Hw) as (r & -> & Hh).
  destruct (feed_values [command_value args] chunks r fresh_core (add_live 2 (add_live 1 w))) as (r' & c' & Ef & _); try done.
  - apply Forall_singleton. split; [done|]. cbn. apply Forall_fmap, Forall_true. done.
  - rewrite Hcat. cbn. by rewrite app_nil_r.
  - rewrite Hcat. climits.
  - exists r'. rewrite Ef, add_live_add. done.
Qed.

Lemma command_roundtrip_witness :
  exists r, read_stream ((fun c => [c]) <$> command [lit "PING"]) (add_live 1 world0) =
    Ok ([Obj 1%nat], REDIS_OK, r, stored [command_value [lit "PING"]] (add_live 3 world0)).
Proof.
  apply (command_roundtrip [lit "PING"] (Some [4]) [lit "PING"] _ world0 (command [lit "PING"])).
  - reflexivity.
  - intros [|j] s Hs; cbn in Hs; simplify_eq. eexists; split; [reflexivity|reflexivity].
  - vm_compute. discriminate.
  - vm_compute. reflexivity.
  - vm_compute. reflexivity.
Defined.
