(* ===== verification/Net.v ===== *)
(** The context and its connection ([hiredis-win32-master/net.c]; the struct
    and [__redisSetError] from [hiredis.h] and [hiredis.c]).

    The socket is created non-blocking, connected, and handed to the context
    only when every step succeeded.  The theorem of this file is about the
    descriptors: whatever the kernel answers, the descriptor the function opens
    ends in [c->fd] or is closed exactly once. *)

From S2P Require Import Prelude Machine Printf Sds Reply Reader.
From stdpp Require Import base tactics list numbers strings gmap.

Local Open Scope Z_scope.

(** * The context ([hiredis.h]) *)

Definition REDIS_BLOCK : Z := 1.
Definition REDIS_CONNECTED : Z := 2.
Definition REDIS_DISCONNECTING : Z := 4.
Definition REDIS_FREEING : Z := 8.
Definition REDIS_IN_CALLBACK : Z := 16.
Definition REDIS_SUBSCRIBED : Z := 32.

Record redisContext := mkContext {
  c_err : Z;
  c_errstr : list char;
  c_fd : Z;
  c_flags : Z;
  c_obuf : option sdshdr;
  c_reader : option redisReader
}.

Definition set_c_err (e : Z) (s : list char) (c : redisContext) : redisContext :=
  mkContext e s (c_fd c) (c_flags c) (c_obuf c) (c_reader c).
Definition set_c_fd (fd : Z) (c : redisContext) : redisContext :=
  mkContext (c_err c) (c_errstr c) fd (c_flags c) (c_obuf c) (c_reader c).
Definition set_c_flags (f : Z) (c : redisContext) : redisContext :=
  mkContext (c_err c) (c_errstr c) (c_fd c) f (c_obuf c) (c_reader c).
Definition set_c_obuf (b : option sdshdr) (c : redisContext) : redisContext :=
  mkContext (c_err c) (c_errstr c) (c_fd c) (c_flags c) b (c_reader c).
Definition set_c_reader (r : option redisReader) (c : redisContext) : redisContext :=
  mkContext (c_err c) (c_errstr c) (c_fd c) (c_flags c) (c_obuf c) r.

(** [c->flags & f]. *)
Definition has_flag (c : redisContext) (f : Z) : bool := negb (Z.land (c_flags c) f =? 0).

(** The message of an error number, without its terminating NUL. *)
Class Strerror := strerror : Z -> list char.

(** The text [strerror_r(e, buf, size)] leaves in [buf]. *)
Definition strerror_r `{Strerror} (e size : Z) : list char := take (Z.to_nat (size - 1)) (strerror e).

Section Net.
Context `{Strerror}.

(** [str] is [None] for NULL, and a text without its NUL otherwise. *)
Definition __redisSetError (c : redisContext) (type : Z) (str : option (list char)) : M redisContext :=
  match str with
  | Some str =>
      let len := zlen str in
      let len := if len <? ERRSTR_SIZE - 1 then len else ERRSTR_SIZE - 1 in
      ret (set_c_err type (take (Z.to_nat len) str) c)
  | None =>
      let* _ := assert_ (type =? REDIS_ERR_IO) in
      let* e := errno in
      ret (set_c_err type (strerror_r e ERRSTR_SIZE) c)
  end.

(** * Sockets ([net.c]) *)

Definition AF_LOCAL : Z := 1.
Definition AF_INET : Z := 2.
Definition SOL_SOCKET : Z := 1.
Definition SO_REUSEADDR : Z := 2.
Definition SO_ERROR : Z := 4.
Definition SO_RCVTIMEO : Z := 20.
Definition SO_SNDTIMEO : Z := 21.
Definition IPPROTO_TCP : Z := 6.
Definition TCP_NODELAY : Z := 1.
Definition F_GETFL : Z := 3.
Definition F_SETFL : Z := 4.
Definition O_NONBLOCK : Z := 2048.
Definition FD_SETSIZE : Z := 1024.
Definition EAGAIN : Z := 11.
Definition ETIMEDOUT : Z := 110.
Definition EINPROGRESS : Z := 115.

(** [strerror_r(errno, buf+len, sizeof(buf)-len)] behind the prefix. *)
Definition __redisSetErrorFromErrno (c : redisContext) (type : Z) (prefix : option (list char))
  : M redisContext :=
  let pre := match prefix with Some p => p ++ lit ": " | None => [] end in
  let len := zlen pre in
  let* _ := lift (if len <? 128 then Ok tt else Fault OutOfBounds) in
  let* e := errno in
  __redisSetError c type (Some (pre ++ strerror_r e (128 - len))).

(** The error is set and the socket closed: the end of every failing step. *)
Definition fail_close (c : redisContext) (fd : Z) (prefix : option (list char)) : M (Z * redisContext) :=
  let* c := __redisSetErrorFromErrno c REDIS_ERR_IO prefix in
  let* _ := sys_close fd in
  ret (REDIS_ERR, c).

Definition redisCreateSocket (c : redisContext) (type : Z) : M (Z * redisContext) :=
  let* a := oscall (SysSocket type) in
  let s := sr_val a in
  if s =? -1 then
    let* c := __redisSetErrorFromErrno c REDIS_ERR_IO None in
    ret (REDIS_ERR, c)
  else if type =? AF_INET then
    let* a := oscall (SysSetsockopt s SOL_SOCKET SO_REUSEADDR) in
    if sr_val a =? -1 then fail_close c s None
    else ret (s, c)
  else ret (s, c).

Definition redisSetBlocking (c : redisContext) (fd : Z) (blocking : bool) : M (Z * redisContext) :=
  let* a := oscall (SysFcntl fd F_GETFL 0) in
  let flags := sr_val a in
  if flags =? -1 then fail_close c fd (Some (lit "fcntl(F_GETFL)"))
  else
    let flags := if blocking then Z.land flags (Z.lnot O_NONBLOCK) else Z.lor flags O_NONBLOCK in
    let* a := oscall (SysFcntl fd F_SETFL flags) in
    if sr_val a =? -1 then fail_close c fd (Some (lit "fcntl(F_SETFL)"))
    else ret (REDIS_OK, c).

Definition redisSetTcpNoDelay (c : redisContext) (fd : Z) : M (Z * redisContext) :=
  let* a := oscall (SysSetsockopt fd IPPROTO_TCP TCP_NODELAY) in
  if sr_val a =? -1 then fail_close c fd (Some (lit "setsockopt(TCP_NODELAY)"))
  else ret (REDIS_OK, c).

(** [FD_SET] writes outside the [fd_set] for a descriptor from [FD_SETSIZE] on;
    [sr_word] of the answer to [select] is [FD_ISSET(fd, &wfd)]. *)
Definition redisContextWaitReady (c : redisContext) (fd : Z) (timeout : option timeval)
  : M (Z * redisContext) :=
  let* e := errno in
  if e =? EINPROGRESS then
    let* _ := lift (if (0 <=? fd) && (fd <? FD_SETSIZE) then Ok tt else Fault OutOfBounds) in
    let* a := oscall (SysSelect fd timeout) in
    if sr_val a =? -1 then fail_close c fd (Some (lit "select(2)"))
    else if sr_word a =? 0 then
      let* _ := modify (set_errno ETIMEDOUT) in
      fail_close c fd None
    else ret (REDIS_OK, c)
  else fail_close c fd None.

Definition redisCheckSocketError (c : redisContext) (fd : Z) : M (Z * redisContext) :=
  let* a := oscall (SysGetsockopt fd SOL_SOCKET SO_ERROR) in
  if sr_val a =? -1 then fail_close c fd (Some (lit "getsockopt(SO_ERROR)"))
  else
    let err := sr_word a in
    if negb (err =? 0) then
      let* _ := modify (set_errno err) in
      fail_close c fd None
    else ret (REDIS_OK, c).

Definition redisContextSetTimeout (c : redisContext) (tv : timeval) : M (Z * redisContext) :=
  let* a := oscall (SysSetsockopt (c_fd c) SOL_SOCKET SO_RCVTIMEO) in
  if sr_val a =? -1 then
    let* c := __redisSetErrorFromErrno c REDIS_ERR_IO (Some (lit "setsockopt(SO_RCVTIMEO)")) in
    ret (REDIS_ERR, c)
  else
    let* a := oscall (SysSetsockopt (c_fd c) SOL_SOCKET SO_SNDTIMEO) in
    if sr_val a =? -1 then
      let* c := __redisSetErrorFromErrno c REDIS_ERR_IO (Some (lit "setsockopt(SO_SNDTIMEO)")) in
      ret (REDIS_ERR, c)
    else ret (REDIS_OK, c).

(** [inet_pton(AF_INET, s)]: four decimal octets without leading zeros. *)
Fixpoint inet_octets (s : list char) (octets : Z) (cur : option Z) (addr : Z) : option Z :=
  match s with
  | [] => match cur with Some v => if octets =? 3 then Some (addr * 256 + v) else None | None => None end
  | ch :: s =>
      if isdigit ch then
        match cur with
        | None => inet_octets s octets (Some (ch - 48)) addr
        | Some v =>
            let v' := v * 10 + (ch - 48) in
            if (v =? 0) || (255 <? v') then None else inet_octets s octets (Some v') addr
        end
      else if ch =? 46 then
        match cur with
        | Some v => if octets =? 3 then None else inet_octets s (octets + 1) None (addr * 256 + v)
        | None => None
        end
      else None
  end.

Definition inet_pton (s : list char) : option Z := inet_octets s 0 None 0.

Definition htons (port : Z) : Z := unsigned 16 port.

(** [connect] and the wait for it; [true] when the caller goes on. *)
Definition connect_wait (c : redisContext) (s : Z) (sa : sockaddr) (blocking : bool)
  (timeout : option timeval) : M (bool * redisContext) :=
  let* a := oscall (SysConnect s sa) in
  if sr_val a =? -1 then
    let* e := errno in
    if (e =? EINPROGRESS) && negb blocking then ret (true, c)
    else
      let* (st, c) := redisContextWaitReady c s timeout in
      ret (st =? REDIS_OK, c)
  else ret (true, c).

(** [addr] is the name without its NUL. *)
Definition redisContextConnectTcp (c : redisContext) (addr : list char) (port : Z)
  (timeout : option timeval) : M (Z * redisContext) :=
  let blocking := has_flag c REDIS_BLOCK in
  let* (s, c) := redisCreateSocket c AF_INET in
  if s <? 0 then ret (REDIS_ERR, c)
  else
    let* (st, c) := redisSetBlocking c s false in
    if negb (st =? REDIS_OK) then ret (REDIS_ERR, c)
    else
      let* sin_addr := match inet_pton addr with
                       | Some ip => ret (Some ip)
                       | None =>
                           let* he := oscall (SysResolve addr) in
                           ret (if sr_val he =? -1 then None else Some (sr_word he))
                       end in
      match sin_addr with
      | None =>
          let* c := __redisSetError c REDIS_ERR_OTHER (Some (take 127 (lit "Can't resolve: " ++ addr))) in
          let* _ := sys_close s in
          ret (REDIS_ERR, c)
      | Some ip =>
          let* (go, c) := connect_wait c s (SockIn ip (htons port)) blocking timeout in
          if negb go then ret (REDIS_ERR, c)
          else
            let* (st, c) := if blocking then redisSetBlocking c s true else ret (REDIS_OK, c) in
            if negb (st =? REDIS_OK) then ret (REDIS_ERR, c)
            else
              let* (st, c) := redisSetTcpNoDelay c s in
              if negb (st =? REDIS_OK) then ret (REDIS_ERR, c)
              else ret (REDIS_OK, set_c_flags (Z.lor (c_flags c) REDIS_CONNECTED) (set_c_fd s c))
      end.

(** [strncpy] into the 108 bytes of [sun_path], of which the last is left as
    it was on the stack. *)
Definition sun_path (path : list char) (junk : char) : list char :=
  take 107 (path ++ replicate 107 NUL) ++ [junk].

Definition redisContextConnectUnix (c : redisContext) (path : list char) (timeout : option timeval)
  : M (Z * redisContext) :=
  let blocking := has_flag c REDIS_BLOCK in
  let* (s, c) := redisCreateSocket c AF_LOCAL in
  if s <? 0 then ret (REDIS_ERR, c)
  else
    let* (st, c) := redisSetBlocking c s false in
    if negb (st =? REDIS_OK) then ret (REDIS_ERR, c)
    else
      let* w := get_world in
      let* (go, c) := connect_wait c s (SockUn (sun_path path (w_junk w 0))) blocking timeout in
      if negb go then ret (REDIS_ERR, c)
      else
        let* (st, c) := if blocking then redisSetBlocking c s true else ret (REDIS_OK, c) in
        if negb (st =? REDIS_OK) then ret (REDIS_ERR, c)
        else ret (REDIS_OK, set_c_flags (Z.lor (c_flags c) REDIS_CONNECTED) (set_c_fd s c)).

End Net.

(** * Runs against the kernel *)

(** From [w] to [w'] the program made the calls [t] and touched nothing else
    but [errno]. *)
Record calls (w : world) (t : list (syscall * Z)) (w' : world) : Prop := {
  cl_alloc : w_alloc w' = w_alloc w;
  cl_junk : w_junk w' = w_junk w;
  cl_live : w_live w' = w_live w;
  cl_objs : w_objs w' = w_objs w;
  cl_next : w_next w' = w_next w;
  cl_trace : w_trace w' = w_trace w ++ t
}.

Lemma calls_nil w : calls w [] w.
Proof. split; try done. by rewrite app_nil_r. Qed.

Lemma calls_errno e w : calls w [] (set_errno e w).
Proof. split; try done. by rewrite app_nil_r. Qed.

Lemma calls_app w1 t1 w2 t2 w3 : calls w1 t1 w2 -> calls w2 t2 w3 -> calls w1 (t1 ++ t2) w3.
Proof. intros [????? E1] [????? E2]; split; try congruence. by rewrite E2, E1, app_assoc. Qed.

(** [does n m w Q]: given [n] answers, [m] returns, having used at most [n];
    its result and its calls satisfy [Q]. *)
Definition does {A} (n : nat) (m : M A) (w : world) (Q : A -> list (syscall * Z) -> world -> Prop) : Prop :=
  (n <= length (w_os w))%nat ->
  exists a w' t, m w = Ok (a, w') /\ calls w t w' /\
    (length (w_os w) <= n + length (w_os w'))%nat /\ Q a t w'.

Lemma does_ret {A} (a : A) w (Q : A -> list (syscall * Z) -> world -> Prop) :
  Q a [] w -> does 0 (ret a) w Q.
Proof. intros HQ _. exists a, w, []. split_and!; [done|apply calls_nil|lia|done]. Qed.

Lemma does_bind {A B} n1 n2 n (m : M A) (k : A -> M B) w Q1 Q :
  does n1 m w Q1 -> n = (n1 + n2)%nat ->
  (forall a t1 w1, Q1 a t1 w1 -> does n2 (k a) w1 (fun b t2 w2 => Q b (t1 ++ t2) w2)) ->
  does n (bind m k) w Q.
Proof.
  intros Hm -> Hk Hn. destruct Hm as (a & w1 & t1 & E1 & C1 & L1 & H1); [lia|].
  destruct (Hk a t1 w1 H1) as (b & w2 & t2 & E2 & C2 & L2 & H2); [lia|].
  exists b, w2, (t1 ++ t2). rewrite (bind_ok _ _ _ _ _ E1). split_and!; [done|by eapply calls_app|lia|done].
Qed.

Lemma does_mono {A} n n' (m : M A) w (Q Q' : A -> list (syscall * Z) -> world -> Prop) :
  does n m w Q -> (n <= n')%nat -> (forall a t w', Q a t w' -> Q' a t w') -> does n' m w Q'.
Proof.
  intros H Hle HQ Hn. destruct H as (a & w' & t & E & C & L & ?); [lia|].
  exists a, w', t. split_and!; [done|done|lia|auto].
Qed.

Lemma does_oscall sc w :
  does 1 (oscall sc) w (fun a t _ => t = [(sc, sr_val a)] /\ -1 <= sr_val a /\
    exists a0 os, w_os w = a0 :: os /\ sr_val a = ret_val a0).
Proof.
  intros Hn. destruct (w_os w) as [|a0 os] eqn:Eos; [cbn in Hn; lia|].
  eexists _, _, _. split_and!.
  - unfold oscall, next_answer, bind. rewrite Eos. reflexivity.
  - destruct (sr_val a0 <? 0); by split.
  - destruct (sr_val a0 <? 0); cbn; lia.
  - done.
  - cbn. unfold ret_val. destruct (Z.ltb_spec (sr_val a0) 0); lia.
  - by exists a0, os.
Qed.

Lemma does_close fd w : does 0 (sys_close fd) w (fun _ t _ => t = [(SysClose fd, 0)]).
Proof. intros _. eexists _, _, _. split_and!; [reflexivity|by split|cbn; lia|done]. Qed.

(** * Failing steps *)

(** [c'] is [c] with an error set. *)
Definition failed (c c' : redisContext) : Prop :=
  c_err c' <> 0 /\ c_fd c' = c_fd c /\ c_flags c' = c_flags c /\
  c_obuf c' = c_obuf c /\ c_reader c' = c_reader c.

(** Calls that open and close no descriptor. *)
Definition quiet (e : syscall * Z) : bool :=
  match e.1 with SysSocket _ | SysClose _ => false | _ => true end.

Lemma fds_after_app l t1 t2 :
  fds_after l (t1 ++ t2) = fds_after l t1 ≫= fun l' => fds_after l' t2.
Proof.
  revert l. induction t1 as [|[sc v] t1 IH]; intros l; [done|].
  destruct sc; cbn; rewrite ?IH; try done. by case_decide.
Qed.

Lemma fds_after_quiet l t : forallb quiet t = true -> fds_after l t = Some l.
Proof. induction t as [|[sc v] t IH]; [done|]. destruct sc; cbn; done || apply IH. Qed.

Lemma fds_after_close s l : fds_after (s :: l) [(SysClose s, 0)] = Some l.
Proof. cbn. rewrite decide_True by set_solver. by rewrite Z.eqb_refl. Qed.

(** The mode the calls leave the descriptor in, when they set one: [true] is
    blocking. *)
Fixpoint sock_mode (fd : Z) (t : list (syscall * Z)) : option bool :=
  match t with
  | [] => None
  | (SysFcntl fd' cmd arg, v) :: t =>
      match sock_mode fd t with
      | Some b => Some b
      | None => if (fd' =? fd) && (cmd =? F_SETFL) && negb (v =? -1)
                then Some (negb (Z.testbit arg 11)) else None
      end
  | _ :: t => sock_mode fd t
  end.

Lemma sock_mode_app fd t1 t2 :
  sock_mode fd (t1 ++ t2) = match sock_mode fd t2 with Some b => Some b | None => sock_mode fd t1 end.
Proof.
  induction t1 as [|[sc v] t1 IH]; [cbn; by destruct (sock_mode fd t2)|].
  destruct sc; cbn [app sock_mode]; rewrite ?IH; try done.
  destruct (sock_mode fd t2); done.
Qed.

(** A step on an open socket [fd]: it succeeds and leaves [fd] open, or it
    fails and has closed [fd]. *)
Definition step_post (fd : Z) (c : redisContext) (mode : option bool)
  (r : Z * redisContext) (t : list (syscall * Z)) : Prop :=
  (r = (REDIS_OK, c) /\ forallb quiet t = true /\ sock_mode fd t = mode) \/
  (exists c' q, r = (REDIS_ERR, c') /\ failed c c' /\ forallb quiet q = true /\
     t = q ++ [(SysClose fd, 0)]).

Section NetProofs.
Context `{Strerror}.

Lemma set_error_from_errno_ok c type prefix w :
  type <> 0 -> zlen (default [] prefix) < 126 ->
  exists c', __redisSetErrorFromErrno c type prefix w = Ok (c', w) /\ failed c c' /\ c_err c' = type.
Proof.
  intros Ht Hp. unfold __redisSetErrorFromErrno.
  set (pre := match prefix with Some p => p ++ lit ": " | None => [] end).
  assert (zlen pre < 128) as Hl.
  { destruct prefix; cbn in *; [|lia]. unfold pre. rewrite length_app. cbn. lia. }
  btrue (zlen pre <? 128). unfold bind, lift, errno, __redisSetError, ret.
  eexists. split_and!; [reflexivity|by split_and!|done].
Qed.

Lemma does_fail_close c fd prefix w :
  zlen (default [] prefix) < 126 ->
  does 0 (fail_close c fd prefix) w
    (fun r t _ => exists c', r = (REDIS_ERR, c') /\ failed c c' /\ t = [(SysClose fd, 0)]).
Proof.
  intros Hp _. destruct (set_error_from_errno_ok c REDIS_ERR_IO prefix w) as (c' & E & Hc & _); [done..|].
  unfold fail_close. rewrite (bind_ok _ _ _ _ _ E).
  eexists _, _, _. split_and!; [reflexivity|by split|cbn; lia|]. by exists c'.
Qed.

(** The ends of a step, behind the calls [F] has recorded. *)
Lemma does_fail_step c fd prefix w n mode (F : list (syscall * Z) -> list (syscall * Z)) :
  let q := removelast (F [(SysClose fd, 0)]) in
  zlen (default [] prefix) < 126 -> forallb quiet q = true ->
  F [(SysClose fd, 0)] = q ++ [(SysClose fd, 0)] ->
  does n (fail_close c fd prefix) w (fun r t _ => step_post fd c mode r (F t)).
Proof.
  intros q Hp Hq HF. eapply does_mono; [by apply does_fail_close|lia|].
  intros r t w' (c' & -> & Hc & ->). right. by exists c', q.
Qed.

Lemma does_ok_step c fd w n mode (F : list (syscall * Z) -> list (syscall * Z)) :
  forallb quiet (F []) = true -> sock_mode fd (F []) = mode ->
  does n (ret (REDIS_OK, c)) w (fun r t _ => step_post fd c mode r (F t)).
Proof.
  intros Hq Hm. eapply does_mono; [by apply (does_ret _ _ (fun a t _ => a = (REDIS_OK, c) /\ t = []))|lia|].
  intros ? ? ? [-> ->]. by left.
Qed.

Lemma redisSetBlocking_does c fd b w :
  does 2 (redisSetBlocking c fd b) w (fun r t _ => step_post fd c (Some b) r t).
Proof.
  unfold redisSetBlocking. eapply (does_bind 1 1); [apply does_oscall|done|].
  intros a t1 w1 (-> & Ha & _). destruct (sr_val a =? -1) eqn:E1.
  { by apply does_fail_step. }
  eapply (does_bind 1 0); [apply does_oscall|done|]. intros a2 t2 w2 (-> & Ha2 & _).
  destruct (sr_val a2 =? -1) eqn:E2; [by apply does_fail_step|].
  apply does_ok_step; [done|]. cbn [sock_mode app]. rewrite Z.eqb_refl, E2. cbn [andb F_SETFL Z.eqb].
  cbn -[Z.testbit]. f_equal.
  destruct b; [rewrite Z.land_spec, Z.lnot_spec by lia|rewrite Z.lor_spec];
    by rewrite ?andb_false_r, ?orb_true_r.
Qed.

Lemma redisSetTcpNoDelay_does c fd w :
  does 1 (redisSetTcpNoDelay c fd) w (fun r t _ => step_post fd c None r t).
Proof.
  unfold redisSetTcpNoDelay. eapply (does_bind 1 0); [apply does_oscall|done|].
  intros a t1 w1 (-> & Ha & _). destruct (sr_val a =? -1) eqn:E1.
  - by apply does_fail_step.
  - by apply does_ok_step.
Qed.

Lemma redisCheckSocketError_does c fd w :
  does 1 (redisCheckSocketError c fd) w (fun r t _ => step_post fd c None r t).
Proof.
  unfold redisCheckSocketError. eapply (does_bind 1 0); [apply does_oscall|done|].
  intros a t1 w1 (-> & Ha & _). destruct (sr_val a =? -1) eqn:E1.
  { by apply does_fail_step. }
  destruct (negb _); [|by apply does_ok_step].
  eapply (does_bind 0 0 0 _ _ _ (fun _ t _ => t = [])); [|done|].
  - intros _. eexists _, _, _. split_and!; [reflexivity|apply calls_errno|cbn; lia|done].
  - intros ? ? ? ->. by apply does_fail_step.
Qed.

Lemma redisContextWaitReady_does c fd timeout w :
  0 <= fd < FD_SETSIZE ->
  does 1 (redisContextWaitReady c fd timeout) w (fun r t _ => step_post fd c None r t).
Proof.
  intros Hfd. unfold redisContextWaitReady.
  eapply (does_bind 0 1 1 _ _ _ (fun _ t _ => t = [])); [|done|].
  { intros _. eexists _, _, _. split_and!; [reflexivity|apply calls_nil|lia|done]. }
  intros e ? w1 ->. destruct (e =? EINPROGRESS); [|by apply does_fail_step].
  btrue ((0 <=? fd) && (fd <? FD_SETSIZE)).
  eapply (does_bind 0 1 1 _ _ _ (fun _ t _ => t = [])); [|done|].
  { intros _. eexists _, _, _. split_and!; [reflexivity|apply calls_nil|lia|done]. }
  intros [] t0 w2 ->. eapply (does_bind 1 0); [apply does_oscall|done|].
  intros a t1 w3 (-> & Ha & _). destruct (sr_val a =? -1) eqn:E1.
  { by apply does_fail_step. }
  destruct (sr_word a =? 0); [|by apply does_ok_step].
  eapply (does_bind 0 0 0 _ _ _ (fun _ t _ => t = [])); [|done|].
  - intros _. eexists _, _, _. split_and!; [reflexivity|apply calls_errno|cbn; lia|done].
  - intros ? ? ? ->. by apply does_fail_step.
Qed.

(** * Connecting *)

Lemma redisCreateSocket_does c type w :
  (forall a os, w_os w = a :: os -> sr_val a < FD_SETSIZE) ->
  does 2 (redisCreateSocket c type) w (fun r t _ =>
    (exists s, r = (s, c) /\ 0 <= s < FD_SETSIZE /\
       forall l, fds_after l t = Some (s :: l)) \/
    (exists c', r = (REDIS_ERR, c') /\ failed c c' /\ forall l, fds_after l t = Some l)).
Proof.
  intros Hw. unfold redisCreateSocket. eapply (does_bind 1 1); [apply does_oscall|done|].
  intros a t1 w1 (-> & Ha & a0 & os & Hos & Hv). specialize (Hw _ _ Hos).
  destruct (Z.eqb_spec (sr_val a) (-1)) as [E1|E1].
  { intros _. destruct (set_error_from_errno_ok c REDIS_ERR_IO None w1) as (c' & E & Hc & _); [done..|].
    exists (REDIS_ERR, c'), w1, []. rewrite (bind_ok _ _ _ _ _ E). split_and!; [done|apply calls_nil|lia|].
    right. exists c'. split_and!; [done..|]. intros l. by rewrite E1. }
  assert (0 <= sr_val a < FD_SETSIZE) as Hs.
  { unfold ret_val in Hv. destruct (Z.ltb_spec (sr_val a0) 0); lia. }
  destruct (type =? AF_INET).
  2: { eapply does_mono; [by apply (does_ret _ _ (fun r t _ => r = (sr_val a, c) /\ t = []))|lia|].
       intros r t w' [-> ->]. left. exists (sr_val a). split_and!; [done|lia|lia|].
       intros l. cbn. by bfalse (sr_val a <? 0). }
  eapply (does_bind 1 0); [apply does_oscall|done|]. intros a2 t2 w2 (-> & _ & _).
  destruct (sr_val a2 =? -1).
  - eapply does_mono; [by apply does_fail_close|lia|]. intros r t w' (c' & -> & Hc & ->).
    right. exists c'. split_and!; [done..|]. intros l. cbn [app fds_after].
    bfalse (sr_val a <? 0). apply (fds_after_close (sr_val a)).
  - eapply does_mono; [by apply (does_ret _ _ (fun r t _ => r = (sr_val a, c) /\ t = []))|lia|].
    intros r t w' [-> ->]. left. exists (sr_val a). split_and!; [done|lia|lia|].
    intros l. cbn. by bfalse (sr_val a <? 0).
Qed.

Lemma connect_wait_does c s sa blocking timeout w :
  0 <= s < FD_SETSIZE ->
  does 2 (connect_wait c s sa blocking timeout) w (fun r t _ =>
    step_post s c None (if r.1 : bool then REDIS_OK else REDIS_ERR, r.2) t).
Proof.
  intros Hs. unfold connect_wait. eapply (does_bind 1 1); [apply does_oscall|done|].
  intros a t1 w1 (-> & Ha & _).
  assert (does 1 (ret (true, c)) w1 (fun r t _ =>
            step_post s c None (if r.1 : bool then REDIS_OK else REDIS_ERR, r.2)
              ([(SysConnect s sa, sr_val a)] ++ t))) as Hok.
  { eapply does_mono; [by apply (does_ret _ _ (fun r t _ => r = (true, c) /\ t = []))|lia|].
    intros r t w' [-> ->]. by left. }
  destruct (sr_val a =? -1); [|done].
  eapply (does_bind 0 1 1 _ _ _ (fun _ t _ => t = [])); [|done|].
  { intros _. eexists _, _, _. split_and!; [reflexivity|apply calls_nil|lia|done]. }
  intros e t0 w2 ->. destruct (_ && _).
  { eapply does_mono; [by apply (does_ret _ _ (fun r t _ => r = (true, c) /\ t = []))|lia|].
    intros r t w' [-> ->]. by left. }
  eapply (does_bind 1 0); [by apply redisContextWaitReady_does|done|].
  intros [st c1] t2 w3 Hst. apply does_ret. rewrite app_nil_r.
  destruct Hst as [([= -> ->] & Hq & Hm)|(c' & q & [= -> ->] & Hc & Hq & ->)].
  - by left.
  - right. exists c', ((SysConnect s sa, sr_val a) :: q). by split_and!.
Qed.

(** The calls [t] leave the new socket [s] open, in the given mode. *)
Definition opens (s : Z) (mode : option bool) (t : list (syscall * Z)) : Prop :=
  (forall l, fds_after l t = Some (s :: l)) /\ sock_mode s t = mode.

(** The context with the socket in it. *)
Definition connected (s : Z) (c : redisContext) : redisContext :=
  set_c_flags (Z.lor (c_flags c) REDIS_CONNECTED) (set_c_fd s c).

Definition connect_post (c : redisContext) (r : Z * redisContext) (t : list (syscall * Z)) : Prop :=
  (exists s, r = (REDIS_OK, connected s c) /\ 0 <= s < FD_SETSIZE /\
     opens s (Some (has_flag c REDIS_BLOCK)) t) \/
  (exists c', r = (REDIS_ERR, c') /\ failed c c' /\ forall l, fds_after l t = Some l).

Lemma opens_quiet s mode t q :
  opens s mode t -> forallb quiet q = true ->
  opens s (match sock_mode s q with Some b => Some b | None => mode end) (t ++ q).
Proof.
  intros [Ho Hm] Hq. split.
  - intros l. rewrite fds_after_app, Ho. cbn. by apply fds_after_quiet.
  - by rewrite sock_mode_app, Hm.
Qed.

Lemma opens_closed s mode t q l :
  opens s mode t -> forallb quiet q = true -> fds_after l (t ++ q ++ [(SysClose s, 0)]) = Some l.
Proof.
  intros [Ho _] Hq. rewrite fds_after_app, Ho. cbn. rewrite fds_after_app, fds_after_quiet by done.
  apply fds_after_close.
Qed.

(** One step of connecting, with the early return when it fails. *)
Lemma does_step {A} (test : A -> bool) (code : A -> Z) n1 n2 n (m : M (A * redisContext))
    (k : redisContext -> M (Z * redisContext)) w c s mode mode1 t0 :
  does n1 m w (fun r t _ => step_post s c mode1 (code r.1, r.2) t) ->
  (forall a, test a = (code a =? REDIS_OK)) ->
  n = (n1 + n2)%nat -> opens s mode t0 ->
  (forall t1 w1, opens s (match mode1 with Some b => Some b | None => mode end) t1 ->
     does n2 (k c) w1 (fun r t _ => connect_post c r (t1 ++ t))) ->
  does n (let* (a, c') := m in if negb (test a) then ret (REDIS_ERR, c') else k c') w
    (fun r t _ => connect_post c r (t0 ++ t)).
Proof.
  intros Hm Htest -> Ho Hk. eapply (does_bind n1 n2); [done|done|].
  intros [a c1] t1 w1 Hst. rewrite Htest.
  destruct Hst as [([= Ea ->] & Hq & Hmode)|(c' & q & [= Ea ->] & Hc & Hq & ->)]; rewrite Ea; cbn [negb].
  - pose proof (opens_quiet _ _ _ _ Ho Hq) as Ho1. rewrite Hmode in Ho1.
    eapply does_mono; [by apply Hk|lia|]. intros r t w'. cbn beta. by rewrite <- app_assoc.
  - eapply does_mono; [by apply (does_ret _ _ (fun r t _ => r = (REDIS_ERR, c') /\ t = []))|lia|].
    intros r t w' [-> ->]. right. exists c'. split_and!; [done..|].
    intros l. rewrite app_nil_r. by eapply opens_closed.
Qed.

(** [if (blocking && redisSetBlocking(c,s,1) != REDIS_OK)]. *)
Lemma reset_blocking_does c s w (b : bool) :
  does 2 (if b then redisSetBlocking c s true else ret (REDIS_OK, c)) w
    (fun r t _ => step_post s c (if b then Some true else None) (r.1, r.2) t).
Proof.
  destruct b.
  - eapply does_mono; [apply redisSetBlocking_does|lia|]. by intros [st c'] t w'.
  - eapply does_mono; [by apply (does_ret _ _ (fun r t _ => r = (REDIS_OK, c) /\ t = []))|lia|].
    intros r t w' [-> ->]. by left.
Qed.

Lemma does_connected c s w t0 :
  0 <= s < FD_SETSIZE -> opens s (Some (has_flag c REDIS_BLOCK)) t0 ->
  does 0 (ret (REDIS_OK, connected s c)) w (fun r t _ => connect_post c r (t0 ++ t)).
Proof. intros Hs Ho. apply does_ret. rewrite app_nil_r. left. by exists s. Qed.

Lemma pair_post s c mode n (m : M (Z * redisContext)) w :
  does n m w (fun r t _ => step_post s c mode r t) ->
  does n m w (fun r t _ => step_post s c mode (r.1, r.2) t).
Proof. intros Hm. eapply does_mono; [done|lia|]. by intros [] t w'. Qed.

(** What follows [connect] when the socket stays: the mode is restored. *)
Lemma restored_mode (b : bool) :
  match (if b then Some true else None : option bool) with Some x => Some x | None => Some false end = Some b.
Proof. by destruct b. Qed.

Lemma redisContextConnectTcp_does c addr port timeout w :
  (forall a os, w_os w = a :: os -> sr_val a < FD_SETSIZE) ->
  does 10 (redisContextConnectTcp c addr port timeout) w (fun r t _ => connect_post c r t).
Proof.
  intros Hw. unfold redisContextConnectTcp. eapply (does_bind 2 8); [by apply redisCreateSocket_does|done|].
  intros [s c1] t1 w1 [(s' & [= -> ->] & Hs & Ho)|(c' & [= -> ->] & Hc & Ho)].
  2: { eapply does_mono; [by apply (does_ret _ _ (fun r t _ => r = (REDIS_ERR, c') /\ t = []))|lia|].
       intros r t w' [-> ->]. right. exists c'. rewrite app_nil_r. done. }
  cbn beta iota. bfalse (s' <? 0).
  eapply (does_step (fun st => st =? REDIS_OK) (fun st => st) 2 6 8 _ _ _ _ s' (sock_mode s' t1));
    [apply pair_post, redisSetBlocking_does|done|done|by split|].
  intros t2 w2 Ho2. cbn beta.
  eapply (does_bind 1 5 6 _ _ _ (fun _ t _ => forallb quiet t = true /\ sock_mode s' t = None)); [|done|].
  { destruct (inet_pton addr) as [ip|].
    - eapply does_mono; [by apply (does_ret _ _ (fun _ t _ => t = []))|lia|]. by intros ? ? ? ->.
    - eapply (does_bind 1 0); [apply does_oscall|done|]. intros a t3 w3 (-> & _). by apply does_ret. }
  intros ip t3 w3 [Hq3 Hm3]. pose proof (opens_quiet _ _ _ _ Ho2 Hq3) as Ho3. rewrite Hm3 in Ho3.
  destruct ip as [ip|].
  - eapply does_mono; [|reflexivity|by intros r t w'; rewrite app_assoc; intros Hr; exact Hr].
    eapply (does_step (fun b => b) (fun b : bool => if b then REDIS_OK else REDIS_ERR) 2 3);
      [by apply connect_wait_does|by intros []|done|done|].
    intros t4 w4 Ho4. cbn beta.
    eapply (does_step (fun st => st =? REDIS_OK) (fun st => st) 2 1 3);
      [apply reset_blocking_does|done|done|done|].
    intros t5 w5 Ho5. cbn beta in *. rewrite restored_mode in Ho5.
    eapply (does_step (fun st => st =? REDIS_OK) (fun st => st) 1 0 1);
      [apply pair_post, redisSetTcpNoDelay_does|done|done|done|].
    intros t6 w6 Ho6. by apply does_connected.
  - intros _. eexists _, _, _. split_and!; [reflexivity|by split|cbn; lia|]. right.
    eexists. split_and!; [reflexivity|by split_and!|]. intros l. rewrite app_assoc. by apply (opens_closed s' (Some false) _ []).
Qed.

Lemma redisContextConnectUnix_does c path timeout w :
  (forall a os, w_os w = a :: os -> sr_val a < FD_SETSIZE) ->
  does 8 (redisContextConnectUnix c path timeout) w (fun r t _ => connect_post c r t).
Proof.
  intros Hw. unfold redisContextConnectUnix. eapply (does_bind 2 6); [by apply redisCreateSocket_does|done|].
  intros [s c1] t1 w1 [(s' & [= -> ->] & Hs & Ho)|(c' & [= -> ->] & Hc & Ho)].
  2: { eapply does_mono; [by apply (does_ret _ _ (fun r t _ => r = (REDIS_ERR, c') /\ t = []))|lia|].
       intros r t w' [-> ->]. right. exists c'. rewrite app_nil_r. done. }
  cbn beta iota. bfalse (s' <? 0).
  eapply (does_step (fun st => st =? REDIS_OK) (fun st => st) 2 4 6 _ _ _ _ s' (sock_mode s' t1));
    [apply pair_post, redisSetBlocking_does|done|done|by split|].
  intros t2 w2 Ho2. cbn beta.
  eapply (does_bind 0 4 4 _ _ _ (fun _ t _ => t = [])); [|done|].
  { intros _. eexists _, _, _. split_and!; [reflexivity|apply calls_nil|lia|done]. }
  intros w0 t3 w3 ->. cbn [app].
  eapply (does_step (fun b => b) (fun b : bool => if b then REDIS_OK else REDIS_ERR) 2 2);
    [by apply connect_wait_does|by intros []|done|done|].
  intros t4 w4 Ho4. cbn beta.
  eapply (does_step (fun st => st =? REDIS_OK) (fun st => st) 2 0 2);
    [apply reset_blocking_does|done|done|done|].
  intros t5 w5 Ho5. cbn beta in *. rewrite restored_mode in Ho5. by apply does_connected.
Qed.

End NetProofs.

(** * Properties *)

(** A call that returns [v], and a call that fails with the error number [e]. *)
Definition answer (v : Z) : sysret := mkRet v 0 [] 0.
Definition failure (e : Z) : sysret := mkRet (-1) e [] 0.

(** Connecting, over TCP or to a Unix socket, always returns when the
    kernel answers its calls, whatever the answers are, and never leaks or
    doubly closes a descriptor: on success the new socket is open, stored in
    the context, and in the mode (blocking or not) the context asks for; on
    failure the socket has been closed exactly once, the context carries an
    error and is otherwise unchanged. *)
Theorem connect_descriptor `{Strerror} c timeout w :
  (10 <= length (w_os w))%nat ->
  (forall a os, w_os w = a :: os -> sr_val a < FD_SETSIZE) ->
  (forall addr port, exists r w' t,
     redisContextConnectTcp c addr port timeout w = Ok (r, w') /\ calls w t w' /\ connect_post c r t) /\
  (forall path, exists r w' t,
     redisContextConnectUnix c path timeout w = Ok (r, w') /\ calls w t w' /\ connect_post c r t).
Proof.
  intros Hn Hw. split.
  - intros addr port. destruct (redisContextConnectTcp_does c addr port timeout w Hw Hn)
      as (r & w' & t & E & C & _ & HQ). by exists r, w', t.
  - intros path. destruct (redisContextConnectUnix_does c path timeout w Hw) as (r & w' & t & E & C & _ & HQ);
      [lia|]. by exists r, w', t.
Qed.

Definition context0 : redisContext := mkContext 0 [] 0 REDIS_BLOCK None None.
Definition no_strerror : Strerror := fun _ => lit "error".

(** Answers of a connection that is refused after the wait. *)
Definition refused : list sysret :=
  [answer 7; answer 0; answer 2; answer 0; failure EINPROGRESS; answer 0; answer 0; answer 0; answer 0; answer 0].

Lemma connect_descriptor_witness :
  exists r w' t,
    @redisContextConnectTcp no_strerror context0 (lit "127.0.0.1") 6379 (Some (1, 0)) (set_os refused world0)
      = Ok (r, w') /\
    calls (set_os refused world0) t w' /\ connect_post context0 r t.
Proof.
  refine (proj1 (@connect_descriptor no_strerror context0 (Some (1, 0)) (set_os refused world0) _ _)
            (lit "127.0.0.1") 6379).
  - cbn. lia.
  - intros a os [= <- <-]. reflexivity.
Defined.

(** The state after a call. *)
Definition logged (e : syscall * Z) (os : list sysret) (w : world) : world :=
  set_trace (w_trace w ++ [e]) (set_os os w).

Lemma oscall_answer sc w v os :
  w_os w = answer v :: os -> 0 <= v -> oscall sc w = Ok (answer v, logged (sc, v) os w).
Proof.
  intros E Hv. unfold oscall, next_answer, bind, ret_val. rewrite E. cbn [sr_val answer].
  by bfalse (v <? 0).
Qed.

Lemma oscall_failure sc w e os :
  w_os w = failure e :: os -> oscall sc w = Ok (failure e, set_errno e (logged (sc, -1) os w)).
Proof. intros E. unfold oscall, next_answer, bind, ret_val. by rewrite E. Qed.

Lemma wait_large_descriptor `{Strerror} c s timeout w :
  w_errno w = EINPROGRESS -> FD_SETSIZE <= s ->
  redisContextWaitReady c s timeout w = Fault OutOfBounds.
Proof.
  intros He Hs. unfold redisContextWaitReady, FD_SETSIZE, errno, bind, lift in *. rewrite He.
  bfalse ((0 <=? s) && (s <? 1024)). done.
Qed.

(** The wait for a connection in progress is only defined for descriptors
    below [FD_SETSIZE]: when a blocking connect gets a larger one, [FD_SET]
    writes outside the [fd_set] on the stack. *)
Theorem connect_large_descriptor `{Strerror} c addr ip port timeout w s v1 v2 v3 os :
  has_flag c REDIS_BLOCK = true -> inet_pton addr = Some ip ->
  FD_SETSIZE <= s -> 0 <= v1 -> 0 <= v2 -> 0 <= v3 ->
  w_os w = answer s :: answer v1 :: answer v2 :: answer v3 :: failure EINPROGRESS :: os ->
  redisContextConnectTcp c addr port timeout w = Fault OutOfBounds.
Proof.
  intros Hb Hip Hs H1 H2 H3 Hos. assert (1024 <= s) by done.
  unfold redisContextConnectTcp, redisCreateSocket, redisSetBlocking, connect_wait. rewrite Hb, Hip, !bind_assoc.
  erewrite (bind_ok (oscall _)) by (apply (oscall_answer _ _ s); [done|lia]).
  cbn [sr_val answer]. bfalse (s =? -1). change (AF_INET =? AF_INET) with true. cbn iota. rewrite bind_assoc.
  erewrite (bind_ok (oscall _)) by (apply (oscall_answer _ _ v1); [done|lia]).
  cbn [sr_val answer]. bfalse (v1 =? -1). rewrite (bind_ok (ret _)) with (1 := eq_refl). cbn beta iota.
  bfalse (s <? 0). rewrite bind_assoc.
  erewrite (bind_ok (oscall _)) by (apply (oscall_answer _ _ v2); [done|lia]).
  cbn [sr_val answer]. bfalse (v2 =? -1). rewrite bind_assoc.
  erewrite (bind_ok (oscall _)) by (apply (oscall_answer _ _ v3); [done|lia]).
  cbn [sr_val answer]. bfalse (v3 =? -1). rewrite (bind_ok (ret _)) with (1 := eq_refl).
  cbn beta iota. change (negb (REDIS_OK =? REDIS_OK)) with false. cbn iota.
  rewrite (bind_ok (ret _)) with (1 := eq_refl). cbn beta iota.
  rewrite bind_assoc. erewrite (bind_ok (oscall _)) by (by apply (oscall_failure _ _ EINPROGRESS)).
  apply bind_fault. cbn [sr_val failure]. change (-1 =? -1) with true. cbn iota.
  rewrite (bind_ok errno) with (1 := eq_refl). change ((EINPROGRESS =? EINPROGRESS) && negb true) with false. cbn iota.
  apply bind_fault, wait_large_descriptor; done.
Qed.

Lemma connect_large_descriptor_witness :
  @redisContextConnectTcp no_strerror context0 (lit "127.0.0.1") 6379 None
    (set_os [answer 1024; answer 0; answer 2; answer 0; failure EINPROGRESS] world0) = Fault OutOfBounds.
Proof.
  refine (@connect_large_descriptor no_strerror context0 (lit "127.0.0.1") 2130706433 6379 None _ 1024 0 2 0 [] _ _ _ _ _ _ _);
    reflexivity || (unfold FD_SETSIZE; lia).
Defined.
