(* ===== verification/Context.v ===== *)
(** The synchronous client ([hiredis-win32-master/hiredis.c], lines 950-1275):
    a context is created, connected and released; commands are appended to its
    output buffer; [redisBufferWrite] and [redisBufferRead] move bytes between
    the context and the kernel; [redisGetReply] does both until a reply is
    there.

    The loops of [redisGetReply] end when the kernel stops answering, so the
    number of pending answers bounds them. *)

From S2P Require Import Prelude Machine Printf Sds Reply Reader.
From S2P Require Import ReaderSpec ReaderStream ReplyTree Format Net.
From stdpp Require Import base tactics list numbers strings gmap.

Local Open Scope Z_scope.

Section Context_.
Context `{Strerror} `{FloatFmt}.

(** * Life cycle *)

Definition redisContextInit : M (option redisContext) :=
  let* ok := alloc_block in
  if negb ok then ret None
  else
    let* obuf := sdsempty in
    let* reader := redisReaderCreate in
    ret (Some (mkContext 0 [] 0 0 obuf reader)).

Definition redisFree (c : redisContext) : M unit :=
  let* _ := if 0 <? c_fd c then sys_close (c_fd c) else ret tt in
  let* _ := match c_obuf c with Some b => sdsfree (Some b) | None => ret tt end in
  let* _ := match c_reader c with Some r => redisReaderFree r | None => ret tt end in
  free.

(** [c->flags |= REDIS_BLOCK] and [c->flags &= ~REDIS_BLOCK]. *)
Definition set_block (b : bool) (c : redisContext) : redisContext :=
  set_c_flags (if b then Z.lor (c_flags c) REDIS_BLOCK else Z.land (c_flags c) (Z.lnot REDIS_BLOCK)) c.

(** The body shared by the [redisConnect] functions: the result of
    [redisContextInit] is not tested. *)
Definition connect_with (block : bool) (conn : redisContext -> M (Z * redisContext)) : M redisContext :=
  let* c := redisContextInit in
  let* c := deref c in
  let* (_, c) := conn (set_block block c) in
  ret c.

Definition redisConnect (ip : list char) (port : Z) : M redisContext :=
  connect_with true (fun c => redisContextConnectTcp c ip port None).
Definition redisConnectWithTimeout (ip : list char) (port : Z) (tv : timeval) : M redisContext :=
  connect_with true (fun c => redisContextConnectTcp c ip port (Some tv)).
Definition redisConnectNonBlock (ip : list char) (port : Z) : M redisContext :=
  connect_with false (fun c => redisContextConnectTcp c ip port None).
Definition redisConnectUnix (path : list char) : M redisContext :=
  connect_with true (fun c => redisContextConnectUnix c path None).
Definition redisConnectUnixWithTimeout (path : list char) (tv : timeval) : M redisContext :=
  connect_with true (fun c => redisContextConnectUnix c path (Some tv)).
Definition redisConnectUnixNonBlock (path : list char) : M redisContext :=
  connect_with false (fun c => redisContextConnectUnix c path None).

Definition redisSetTimeout (c : redisContext) (tv : timeval) : M (Z * redisContext) :=
  if has_flag c REDIS_BLOCK then redisContextSetTimeout c tv else ret (REDIS_ERR, c).

(** * Input and output *)

(** The error of the reader becomes the error of the context. *)
Definition reader_error (c : redisContext) (r : redisReader) : M redisContext :=
  __redisSetError c (r_err r) (Some (r_errstr r)).

Definition READ_SIZE : Z := 2048.

Definition redisBufferRead (c : redisContext) : M (Z * redisContext) :=
  if negb (c_err c =? 0) then ret (REDIS_ERR, c)
  else
    let* (n, buf) := sys_read (c_fd c) READ_SIZE in
    let nread := int n in
    if nread =? -1 then
      let* e := errno in
      if (e =? EAGAIN) && negb (has_flag c REDIS_BLOCK) then ret (REDIS_OK, c)
      else
        let* c := __redisSetError c REDIS_ERR_IO None in
        ret (REDIS_ERR, c)
    else if nread =? 0 then
      let* c := __redisSetError c REDIS_ERR_EOF (Some (lit "Server closed the connection")) in
      ret (REDIS_ERR, c)
    else
      let* r := deref (c_reader c) in
      let* (st, r) := redisReaderFeed r (Some buf) (size_t nread) in
      let c := set_c_reader (Some r) c in
      if negb (st =? REDIS_OK) then
        let* c := reader_error c r in
        ret (REDIS_ERR, c)
      else ret (REDIS_OK, c).

(** The status, the context and [*done]; callers pass a pointer for [done]. *)
Definition redisBufferWrite (c : redisContext) : M (Z * redisContext * bool) :=
  if negb (c_err c =? 0) then ret (REDIS_ERR, c, false)
  else
    let* obuf := deref (c_obuf c) in
    let* (st, c) :=
      (if 0 <? sdslen obuf then
         let* data := lift (mem_read (sh_buf obuf) 0 (sdslen obuf)) in
         let* n := sys_write (c_fd c) data in
         let nwritten := int n in
         if nwritten =? -1 then
           let* e := errno in
           if (e =? EAGAIN) && negb (has_flag c REDIS_BLOCK) then ret (REDIS_OK, c)
           else
             let* c := __redisSetError c REDIS_ERR_IO None in
             ret (REDIS_ERR, c)
         else if 0 <? nwritten then
           if nwritten =? int (sdslen obuf) then
             let* _ := sdsfree (Some obuf) in
             let* b := sdsempty in
             ret (REDIS_OK, set_c_obuf b c)
           else
             let* b := sdsrange obuf nwritten (-1) in
             ret (REDIS_OK, set_c_obuf (Some b) c)
         else ret (REDIS_OK, c)
       else ret (REDIS_OK, c)) in
    if negb (st =? REDIS_OK) then ret (REDIS_ERR, c, false)
    else
      let* obuf := deref (c_obuf c) in
      ret (REDIS_OK, c, sdslen obuf =? 0).

Definition redisGetReplyFromReader (c : redisContext) : M (Z * option objptr * redisContext) :=
  let* r := deref (c_reader c) in
  let* (st, reply, r) := redisReaderGetReply r in
  let c := set_c_reader (Some r) c in
  if st =? REDIS_ERR then
    let* c := reader_error c r in
    ret (REDIS_ERR, reply, c)
  else ret (REDIS_OK, reply, c).

(** [do { ... } while (!wdone)]. *)
Fixpoint write_loop (fuel : nat) (c : redisContext) : M (Z * redisContext) :=
  match fuel with
  | O => crash OutOfFuel
  | S f =>
      let* (st, c, wdone) := redisBufferWrite c in
      if st =? REDIS_ERR then ret (REDIS_ERR, c)
      else if negb wdone then write_loop f c
      else ret (REDIS_OK, c)
  end.

(** [do { ... } while (aux == NULL)]. *)
Fixpoint read_loop (fuel : nat) (c : redisContext) : M (Z * option objptr * redisContext) :=
  match fuel with
  | O => crash OutOfFuel
  | S f =>
      let* (st, c) := redisBufferRead c in
      if st =? REDIS_ERR then ret (REDIS_ERR, None, c)
      else
        let* (st, aux, c) := redisGetReplyFromReader c in
        if st =? REDIS_ERR then ret (REDIS_ERR, None, c)
        else
          match aux with
          | None => read_loop f c
          | Some _ => ret (REDIS_OK, aux, c)
          end
  end.

(** The pending answers bound a loop of system calls. *)
Definition os_fuel : M nat := fun w => Ok (S (length (w_os w)), w).

(** The status and [*reply]; on an error [*reply] is not stored ([None]). *)
Definition redisGetReply (c : redisContext) : M (Z * option objptr * redisContext) :=
  let* (st, aux, c) := redisGetReplyFromReader c in
  if st =? REDIS_ERR then ret (REDIS_ERR, None, c)
  else
    match aux with
    | Some _ => ret (REDIS_OK, aux, c)
    | None =>
        if has_flag c REDIS_BLOCK then
          let* fuel := os_fuel in
          let* (st, c) := write_loop fuel c in
          if st =? REDIS_ERR then ret (REDIS_ERR, None, c)
          else
            let* fuel := os_fuel in
            read_loop fuel c
        else ret (REDIS_OK, aux, c)
    end.

(** * Commands *)

Definition OOM_TEXT : list char := lit "Out of memory".

Definition __redisAppendCommand (c : redisContext) (cmd : list char) (len : Z) : M (Z * redisContext) :=
  let* obuf := deref (c_obuf c) in
  let* newbuf := sdscatlen obuf cmd len in
  match newbuf with
  | None =>
      let* c := __redisSetError c REDIS_ERR_OOM (Some OOM_TEXT) in
      ret (REDIS_ERR, c)
  | Some _ => ret (REDIS_OK, set_c_obuf newbuf c)
  end.

(** What the append functions do with the result of formatting. *)
Definition append_formatted (c : redisContext) (formatted : Z * option (list char))
  : M (Z * redisContext) :=
  let (len, cmd) := formatted in
  if len =? -1 then
    let* c := __redisSetError c REDIS_ERR_OOM (Some OOM_TEXT) in
    ret (REDIS_ERR, c)
  else
    let* cmd := deref cmd in
    let* (st, c) := __redisAppendCommand c cmd (size_t len) in
    if negb (st =? REDIS_OK) then
      let* _ := free in ret (REDIS_ERR, c)
    else
      let* _ := free in ret (REDIS_OK, c).

Definition redisvAppendCommand (c : redisContext) (format : list char) (ap : va_list)
  : M (Z * redisContext) :=
  let* f := redisvFormatCommand true format ap in append_formatted c f.

Definition redisAppendCommand (c : redisContext) (format : list char) (args : va_list)
  : M (Z * redisContext) := redisvAppendCommand c format args.

Definition redisAppendCommandArgv (c : redisContext) (argc : Z) (argv : list (list char))
  (argvlen : option (list Z)) : M (Z * redisContext) :=
  let* f := redisFormatCommandArgv argc argv argvlen in append_formatted c f.

Definition __redisBlockForReply (c : redisContext) : M (option objptr * redisContext) :=
  if has_flag c REDIS_BLOCK then
    let* (st, reply, c) := redisGetReply c in
    if negb (st =? REDIS_OK) then ret (None, c) else ret (reply, c)
  else ret (None, c).

Definition redisvCommand (c : redisContext) (format : list char) (ap : va_list)
  : M (option objptr * redisContext) :=
  let* (st, c) := redisvAppendCommand c format ap in
  if negb (st =? REDIS_OK) then ret (None, c) else __redisBlockForReply c.

Definition redisCommand (c : redisContext) (format : list char) (args : va_list)
  : M (option objptr * redisContext) := redisvCommand c format args.

Definition redisCommandArgv (c : redisContext) (argc : Z) (argv : list (list char))
  (argvlen : option (list Z)) : M (option objptr * redisContext) :=
  let* (st, c) := redisAppendCommandArgv c argc argv argvlen in
  if negb (st =? REDIS_OK) then ret (None, c) else __redisBlockForReply c.

End Context_.
