(* ===== verification/Session.v ===== *)
(** Sessions of the synchronous client: what reaches the kernel is what was
    appended, and the replies come out in the order the server sent them,
    however the kernel cuts both streams. *)

From stdpp Require Import base tactics list numbers strings gmap.
From S2P Require Import Prelude Machine Printf Sds Reply Reader.
From S2P Require Import ReaderSpec ReaderStream ReplyTree Format Net Context.

Local Open Scope Z_scope.

(** * The parser does not see the kernel *)

(** The state [w] with other pending answers, calls and [errno]. *)
Definition io (os : list sysret) (t : list (syscall * Z)) (e : Z) (w : world) : world :=
  set_errno e (set_trace t (set_os os w)).

Definition io_result {A} (os : list sysret) (t : list (syscall * Z)) (e : Z)
  (r : outcome (A * world)) : outcome (A * world) :=
  match r with Ok (a, w) => Ok (a, io os t e w) | Fault f => Fault f end.

(** The computation neither reads nor changes the kernel's side of the state. *)
Definition pure_io {A} (m : M A) : Prop :=
  forall os t e w, m (io os t e w) = io_result os t e (m w).

Lemma pure_ret {A} (a : A) : pure_io (ret a).
Proof. by intros os t e w. Qed.
Lemma pure_crash {A} f : pure_io (@crash A f).
Proof. by intros os t e w. Qed.
Lemma pure_lift {A} (o : outcome A) : pure_io (lift o).
Proof. intros os t e w. unfold lift. by destruct o. Qed.
Lemma pure_assert b : pure_io (assert_ b).
Proof. by destruct b. Qed.
Lemma pure_deref {A} (p : option A) : pure_io (deref p).
Proof. by destruct p. Qed.
Lemma pure_bind {A B} (m : M A) (k : A -> M B) :
  pure_io m -> (forall a, pure_io (k a)) -> pure_io (bind m k).
Proof.
  intros Hm Hk os t e w. unfold bind. rewrite Hm. destruct (m w) as [[a w']|]; [apply Hk|done].
Qed.
Lemma pure_modify f : (forall os t e w, f (io os t e w) = io os t e (f w)) -> pure_io (modify f).
Proof. intros Hf os t e w. unfold modify. by rewrite Hf. Qed.
Lemma pure_ask_alloc : pure_io ask_alloc.
Proof. intros os t e w. unfold ask_alloc. cbn. by destruct (w_alloc w). Qed.
Lemma pure_get_obj l : pure_io (get_obj l).
Proof. intros os t e w. unfold get_obj. cbn. by destruct (w_objs w !! l). Qed.
Lemma pure_get_task c i : pure_io (get_task c i).
Proof. unfold get_task. repeat case_match; by apply pure_ret || apply pure_crash. Qed.
Lemma pure_free : pure_io free.
Proof. by intros os t e w. Qed.
Lemma pure_malloc n : pure_io (malloc n).
Proof.
  intros os t e w. unfold malloc, bind. rewrite (pure_ask_alloc os t e w).
  destruct (ask_alloc w) as [[b w']|]; [|done]. by destruct b.
Qed.
Lemma pure_put_obj l r : pure_io (put_obj l r).
Proof. apply pure_modify. done. Qed.

Create HintDb pure.
#[export] Hint Resolve pure_ret pure_crash pure_lift pure_assert pure_deref pure_ask_alloc
  pure_get_obj pure_get_task pure_free pure_malloc pure_put_obj : pure.
#[export] Hint Extern 2 (pure_io (modify _)) => apply pure_modify; done : pure.

Ltac pure_step :=
  repeat first
    [ match goal with |- pure_io (bind _ _) => apply pure_bind; [|intros ?] end
    | progress auto with pure
    | progress case_match ].

Lemma pure_alloc_block : pure_io alloc_block.
Proof. unfold alloc_block. pure_step. Qed.
Lemma pure_free_obj l : pure_io (free_obj l).
Proof. unfold free_obj. pure_step. Qed.
#[export] Hint Resolve pure_alloc_block pure_free_obj : pure.

Lemma pure_free_elements f n j v : (forall l, pure_io (f l)) -> pure_io (free_elements f n j v).
Proof. intros Hf. revert j. induction n as [|n IH]; intros j; cbn; pure_step. Qed.
#[export] Hint Resolve pure_free_elements : pure.

Lemma pure_freeReply fuel l : pure_io (freeReply fuel l).
Proof. revert l. induction fuel as [|f IH]; intros l; cbn; pure_step. Qed.
#[export] Hint Resolve pure_freeReply : pure.

Lemma pure_freeReplyObject o : pure_io (freeReplyObject o).
Proof.
  unfold freeReplyObject. destruct o as [l|]; [|pure_step].
  intros os t e w. unfold get_world, bind. apply pure_freeReply.
Qed.

Lemma pure_createReplyObject ty : pure_io (createReplyObject ty).
Proof.
  unfold createReplyObject. pure_step. intros os t e w. done.
Qed.
Lemma pure_attach stk task l : pure_io (attach stk task l).
Proof. unfold attach. pure_step. Qed.
#[export] Hint Resolve pure_freeReplyObject pure_createReplyObject pure_attach : pure.

Lemma pure_acreate c cur tok : pure_io (acreate c cur tok).
Proof.
  unfold acreate, createIntegerObject, createStringObject, createNilObject, createArrayObject.
  pure_step.
Qed.
Lemma pure_next_task fuel c : pure_io (next_task_loop fuel c).
Proof. revert c. induction fuel as [|f IH]; intros c; cbn; pure_step. Qed.
Lemma pure_set_error c ty s : r_fn c = Some defaultFunctions -> pure_io (__redisReaderSetError c ty s).
Proof.
  intros Hfn. unfold __redisReaderSetError, sdsfree. rewrite Hfn.
  cbn [fn_freeObject defaultFunctions]. pure_step.
Qed.
#[export] Hint Resolve pure_acreate pure_next_task pure_set_error : pure.

Lemma pure_atyped c t d : r_fn c = Some defaultFunctions -> pure_io (atyped c t d).
Proof. intros Hfn. unfold atyped, aplace, __redisReaderSetErrorOOM, moveToNextTask. pure_step. Qed.
#[export] Hint Resolve pure_atyped : pure.

Lemma pure_aitem c d : r_fn c = Some defaultFunctions -> pure_io (aitem c d).
Proof. intros Hfn. unfold aitem, __redisReaderSetErrorProtocolByte. pure_step. Qed.

Lemma pure_run c d : core_wf c -> pure_io (run c d).
Proof.
  intros Hc os t e w. remember (length d) as n eqn:Hn. revert c d w Hn Hc.
  induction n as [n IH] using lt_wf_ind; intros c d w Hn Hc.
  rewrite !run_eq. destruct (0 <=? r_ridx c); [|done].
  unfold bind. rewrite (pure_aitem c d (cw_fn _ Hc) os t e w).
  destruct (aitem c d w) as [[a w']|] eqn:Ha; [|done]. cbn [io_result].
  destruct a as [c' d'| |]; [|done|done].
  pose proof (aitem_shrinks _ _ _ _ _ _ Ha). pose proof (aitem_frame _ _ _ _ _ Ha I) as [Hf _].
  apply (IH (length d')); [lia|done|by eapply same_frame_wf].
Qed.

(** * Writing *)

Section writing.
Context `{Strerror}.

(** The output buffer of [c] holds the bytes [out]. *)
Definition pending (c : redisContext) (out : list char) : Prop :=
  exists b, c_obuf c = Some b /\ sds_wf b /\ sds_str b = out.

(** [c'] differs from [c] in its buffer only. *)
Definition same_but_obuf (c c' : redisContext) : Prop := c' = set_c_obuf (c_obuf c') c.

Lemma sys_write_ok fd data a os w :
  w_os w = a :: os -> 0 <= sr_val a ->
  sys_write fd data w = Ok (Z.min (sr_val a) (zlen data), logged (SysWrite fd data, Z.min (sr_val a) (zlen data)) os w).
Proof.
  intros Hos Ha. unfold sys_write, next_answer, bind. rewrite Hos. by bfalse (sr_val a <? 0).
Qed.

Lemma sys_write_fails fd data a os w :
  w_os w = a :: os -> sr_val a < 0 ->
  sys_write fd data w = Ok (-1, set_errno (sr_errno a) (logged (SysWrite fd data, -1) os w)).
Proof.
  intros Hos Ha. unfold sys_write, next_answer, bind. rewrite Hos. by btrue (sr_val a <? 0).
Qed.

Lemma sds_read_all b : sds_wf b -> mem_read (sh_buf b) 0 (sdslen b) = Ok (sds_str b).
Proof.
  intros Hb. destruct (sds_buf_split b Hb) as (rest & -> & Hr). rewrite sdslen_str by done.
  apply (mem_read_app [] (sds_str b) (NUL :: rest)); done.
Qed.

(** The buffer after the kernel took [k] bytes of it. *)
Lemma consume_ok b k c w :
  sds_wf b -> no_oom w -> 0 < k <= zlen (sds_str b) ->
  exists b', sds_wf b' /\ sds_str b' = drop (Z.to_nat k) (sds_str b) /\
    (if k =? int (sdslen b) then
       let* _ := sdsfree (Some b) in
       let* nb := sdsempty in
       ret (REDIS_OK, set_c_obuf nb c)
     else
       let* nb := sdsrange b k (-1) in
       ret (REDIS_OK, set_c_obuf (Some nb) c)) w = Ok (REDIS_OK, set_c_obuf (Some b') c, w).
Proof.
  intros Hb Hw Hk. pose proof (wf_max _ Hb). pose proof (wf_free _ Hb). pose proof (length_sds_str b Hb).
  rewrite sdslen_str, int_id by (done || climits). destruct (Z.eqb_spec k (zlen (sds_str b))) as [->|Hne].
  - destruct (sdsempty_no_oom (add_live (-1) w) Hw) as (b' & E & Hb' & Hs). exists b'.
    split_and!; [done|by rewrite Nat2Z.id, drop_all, Hs|].
    rewrite (bind_ok (sdsfree (Some b)) _ w tt (add_live (-1) w)) by done.
    rewrite (bind_ok _ _ _ _ _ E), add_live_add. change (-1 + 1) with 0. by rewrite add_live_0.
  - destruct (sdsrange_ok b k (-1) w Hb) as (b' & E & Hb' & Hs & _); [climits..|]. exists b'.
    split_and!; [done| |by rewrite (bind_ok _ _ _ _ _ E)].
    rewrite Hs. replace k with (Z.of_nat (Z.to_nat k)) at 1 by lia. apply range_spec_drop. lia.
Qed.

Lemma wdone_eq b : sds_wf b -> (sdslen b =? 0) = bool_decide (sds_str b = []).
Proof.
  intros Hb. rewrite sdslen_str by done. destruct (sds_str b) as [|x l]; [done|].
  rewrite bool_decide_false by done. apply Z.eqb_neq. cbn [length]. lia.
Qed.

(** Nothing to write. *)
Lemma redisBufferWrite_empty c w :
  c_err c = 0 -> pending c [] -> redisBufferWrite c w = Ok (REDIS_OK, c, true, w).
Proof.
  intros He (b & Hob & Hb & Hs). unfold redisBufferWrite. rewrite He. change (negb (0 =? 0)) with false. cbn iota.
  rewrite Hob. erewrite (bind_ok (deref (Some b))) by reflexivity.
  pose proof (wdone_eq b Hb) as Hd. rewrite Hs in Hd. apply Z.eqb_eq in Hd as Hz.
  bfalse (0 <? sdslen b). rewrite (bind_ok (ret _)) with (1 := eq_refl). cbn beta iota.
  change (negb (REDIS_OK =? REDIS_OK)) with false. cbn iota.
  rewrite Hob. erewrite (bind_ok (deref (Some b))) by reflexivity. by rewrite Hd.
Qed.

(** The kernel accepts some of the bytes, maybe none. *)
Lemma redisBufferWrite_accepted c out a os w :
  c_err c = 0 -> pending c out -> out <> [] -> no_oom w -> w_os w = a :: os -> 0 <= sr_val a ->
  let k := Z.min (sr_val a) (zlen out) in
  exists b', sds_wf b' /\ sds_str b' = drop (Z.to_nat k) out /\
    redisBufferWrite c w =
      Ok (REDIS_OK, set_c_obuf (Some b') c, bool_decide (drop (Z.to_nat k) out = []),
          logged (SysWrite (c_fd c) out, k) os w).
Proof.
  intros He (b & Hob & Hb & Hs) Hne Hw Hos Ha k. unfold redisBufferWrite. rewrite He.
  change (negb (0 =? 0)) with false. cbn iota. rewrite Hob. erewrite (bind_ok (deref (Some b))) by reflexivity.
  assert (0 < zlen out) as Hpos by (destruct out; cbn; [done|lia]).
  pose proof (length_sds_str b Hb) as Hlen. pose proof (wf_max _ Hb). pose proof (wf_free _ Hb).
  rewrite Hs in Hlen. rewrite (sdslen_str b Hb), Hs. btrue (0 <? zlen out).
  rewrite bind_assoc. erewrite bind_ok by (apply lift_ok; rewrite <- Hs, <- (sdslen_str b Hb); by apply sds_read_all).
  rewrite Hs, bind_assoc, (bind_ok _ _ _ _ _ (sys_write_ok (c_fd c) out a os w Hos Ha)). fold k.
  rewrite int_id by (unfold k; climits). bfalse (k =? -1).
  set (w1 := logged _ os w).
  assert (exists b', sds_wf b' /\ sds_str b' = drop (Z.to_nat k) out /\
    (if 0 <? k then
       if k =? int (zlen out) then
         let* _ := sdsfree (Some b) in let* nb := sdsempty in ret (REDIS_OK, set_c_obuf nb c)
       else let* nb := sdsrange b k (-1) in ret (REDIS_OK, set_c_obuf (Some nb) c)
     else ret (REDIS_OK, c)) w1 = Ok (REDIS_OK, set_c_obuf (Some b') c, w1)) as (b' & Hb' & Hs' & E).
  { destruct (Z.ltb_spec 0 k) as [Hk|Hk].
    - rewrite <- Hs, <- (sdslen_str b Hb). apply consume_ok; [done|done|].
      rewrite Hs. unfold k. lia.
    - exists b. assert (k = 0) as Hk0 by (unfold k in *; lia). rewrite Hk0. cbn [Z.to_nat drop].
      split_and!; [done|done|]. unfold ret. do 3 f_equal. destruct c. cbn in *. by subst. }
  exists b'. split_and!; [done..|]. rewrite (bind_ok _ _ _ _ _ E). cbn beta iota.
  change (negb (REDIS_OK =? REDIS_OK)) with false. cbn [c_obuf set_c_obuf].
  erewrite (bind_ok (deref (Some b'))) by reflexivity. by rewrite (wdone_eq b' Hb'), Hs'.
Qed.

(** The kernel refuses: a temporary condition on a non-blocking context keeps
    everything, anything else is an error of the context. *)
Lemma redisBufferWrite_refused c out a os w :
  c_err c = 0 -> pending c out -> out <> [] -> w_os w = a :: os -> sr_val a < 0 ->
  exists st c' wdone,
    redisBufferWrite c w =
      Ok (st, c', wdone, set_errno (sr_errno a) (logged (SysWrite (c_fd c) out, -1) os w)) /\
    ((sr_errno a = EAGAIN /\ has_flag c REDIS_BLOCK = false /\ st = REDIS_OK /\ c' = c /\ wdone = false) \/
     (st = REDIS_ERR /\ failed c c' /\ c_err c' = REDIS_ERR_IO)).
Proof.
  intros He (b & Hob & Hb & Hs) Hne Hos Ha. unfold redisBufferWrite. rewrite He.
  change (negb (0 =? 0)) with false. cbn iota. rewrite Hob. erewrite (bind_ok (deref (Some b))) by reflexivity.
  assert (0 < zlen out) as Hpos by (destruct out; cbn; [done|lia]).
  rewrite (sdslen_str b Hb), Hs. btrue (0 <? zlen out).
  rewrite bind_assoc. erewrite bind_ok by (apply lift_ok; rewrite <- Hs, <- (sdslen_str b Hb); by apply sds_read_all).
  rewrite Hs, bind_assoc, (bind_ok _ _ _ _ _ (sys_write_fails (c_fd c) out a os w Hos Ha)).
  change (int (-1) =? -1) with true. cbn iota. rewrite bind_assoc.
  rewrite (bind_ok errno) with (1 := eq_refl). cbn [w_errno set_errno].
  destruct (Z.eqb_spec (sr_errno a) EAGAIN) as [E1|E1]; destruct (has_flag c REDIS_BLOCK) eqn:E2; cbn [negb andb].
  2: { exists REDIS_OK, c, false. split; [|left; done].
       rewrite (bind_ok (ret _)) with (1 := eq_refl). cbn beta iota.
       change (negb (REDIS_OK =? REDIS_OK)) with false. cbn iota. rewrite Hob.
       erewrite (bind_ok (deref (Some b))) by reflexivity. rewrite (wdone_eq b Hb), Hs, bool_decide_false by done.
       reflexivity. }
  all: eexists _, _, _; split; [reflexivity|right; by split_and!].
Qed.
End writing.

(** ** Flushing *)

(** The kernel accepts [n] bytes in the given steps and no sooner. *)
Fixpoint flushes (writes : list sysret) (n : Z) : Prop :=
  match writes with
  | [] => n = 0
  | a :: writes => 0 < n /\ 0 <= sr_val a /\ flushes writes (n - Z.min (sr_val a) n)
  end.

Lemma sent_app fd t1 t2 : sent fd (t1 ++ t2) = sent fd t1 ++ sent fd t2.
Proof. unfold sent. by rewrite fmap_app, concat_app. Qed.

Lemma io_io os t e os' t' e' w : io os t e (io os' t' e' w) = io os t e w.
Proof. done. Qed.

Lemma io_id w : io (w_os w) (w_trace w) (w_errno w) w = w.
Proof. by destruct w. Qed.

Section loops.
Context `{Strerror}.

Lemma write_loop_ok writes fuel c out os t e w :
  c_err c = 0 -> pending c out -> no_oom w -> flushes writes (zlen out) -> (length writes < fuel)%nat ->
  exists b t', sds_wf b /\ sds_str b = [] /\ sent (c_fd c) t' = out /\ forallb quiet t' = true /\
    write_loop fuel c (io (writes ++ os) t e w) = Ok (REDIS_OK, set_c_obuf (Some b) c, io os (t ++ t') e w).
Proof.
  revert fuel c out t. induction writes as [|a writes IH]; intros fuel c out t He Hp Hw Hfl Hf;
    (destruct fuel as [|fuel]; [cbn in Hf; lia|]); cbn [write_loop].
  - assert (out = []) as -> by (apply nil_length_inv; cbn in Hfl; lia).
    rewrite (bind_ok _ _ _ _ _ (redisBufferWrite_empty c _ He Hp)). destruct Hp as (b & Hob & Hb & Hs).
    exists b, []. split_and!; [done..|]. rewrite app_nil_r. cbn. unfold ret. do 3 f_equal.
    destruct c. cbn in *. by subst.
  - destruct Hfl as (Hn & Ha & Hfl).
    destruct (redisBufferWrite_accepted c out a (writes ++ os) (io (a :: writes ++ os) t e w))
      as (b1 & Hb1 & Hs1 & E); try done.
    { intros ->. cbn in Hn. lia. }
    cbn [app]. rewrite (bind_ok _ _ _ _ _ E). change (REDIS_OK =? REDIS_ERR) with false. cbn iota.
    set (k := Z.min (sr_val a) (zlen out)) in *. set (c1 := set_c_obuf (Some b1) c).
    change (logged (SysWrite (c_fd c) out, k) (writes ++ os) (io (a :: writes ++ os) t e w))
      with (io (writes ++ os) (t ++ [(SysWrite (c_fd c) out, k)]) e w) in *.
    assert (pending c1 (drop (Z.to_nat k) out)) as Hp1 by (by exists b1).
    assert (zlen (drop (Z.to_nat k) out) = zlen out - k) as Hlen by (rewrite length_drop; lia).
    destruct (bool_decide_reflect (drop (Z.to_nat k) out = [])) as [Hd|Hd]; cbn [negb].
    + rewrite Hd in Hlen. cbn [length] in Hlen. destruct writes as [|a2 writes]; [|cbn in Hfl; lia].
      exists b1, [(SysWrite (c_fd c) out, k)]. split_and!; [done|congruence| |done|done].
      cbn. rewrite Z.eqb_refl, app_nil_r. apply take_ge. lia.
    + destruct (IH fuel c1 (drop (Z.to_nat k) out) (t ++ [(SysWrite (c_fd c) out, k)]))
        as (b2 & t2 & Hb2 & Hs2 & Hsent & Hq & E2); try done; [by rewrite Hlen|cbn in Hf; lia|].
      exists b2, ((SysWrite (c_fd c) out, k) :: t2). split_and!; [done|done| |done|].
      * change (?x :: t2) with ([x] ++ t2). rewrite sent_app. change (c_fd c1) with (c_fd c) in Hsent. rewrite Hsent. cbn. rewrite Z.eqb_refl, app_nil_r.
        apply take_drop.
      * rewrite E2, <- app_assoc. done.
Qed.

(** * Reading *)

(** The answer to [read] that delivers the bytes [x]. *)
Definition delivers (a : sysret) (x : list char) : Prop :=
  0 <= sr_val a /\ sr_data a = x /\ x <> [] /\ zlen x <= READ_SIZE.

Lemma redisBufferRead_ok c r n rc d a x os t e w :
  c_err c = 0 -> c_reader c = Some r -> holds n r rc d -> no_oom w -> delivers a x ->
  2 * (n + zlen x) <= INT_MAX ->
  exists r', holds (n + zlen x) r' rc (d ++ x) /\
    redisBufferRead c (io (a :: os) t e w) =
      Ok (REDIS_OK, set_c_reader (Some r') c, io os (t ++ [(SysRead (c_fd c) READ_SIZE, zlen x)]) e w).
Proof.
  intros He Hr Hh Hw (Ha & Hx & Hne & Hlen) Hmax. unfold redisBufferRead. rewrite He.
  change (negb (0 =? 0)) with false. cbn iota.
  assert (sys_read (c_fd c) READ_SIZE (io (a :: os) t e w) =
            Ok (zlen x, x, io os (t ++ [(SysRead (c_fd c) READ_SIZE, zlen x)]) e w)) as E.
  { unfold sys_read, next_answer, bind. cbn [w_os io set_errno set_trace set_os].
    bfalse (sr_val a <? 0). rewrite Hx, take_ge by (unfold READ_SIZE in *; lia). done. }
  rewrite (bind_ok _ _ _ _ _ E). cbn beta iota.
  assert (0 < zlen x) by (destruct x; cbn; [done|lia]).
  rewrite int_id by (unfold READ_SIZE in *; climits). bfalse (zlen x =? -1). bfalse (zlen x =? 0).
  rewrite Hr. erewrite (bind_ok (deref (Some r))) by reflexivity.
  destruct (redisReaderFeed_holds n r rc d x (io os (t ++ [(SysRead (c_fd c) READ_SIZE, zlen x)]) e w) Hh)
    as (r' & Ef & Hh'); [done|done|].
  exists r'. split; [done|]. rewrite size_t_id by (unfold READ_SIZE in *; climits).
  by rewrite (bind_ok _ _ _ _ _ Ef).
Qed.

(** The state once the first of the values has been read. *)
Definition next_world (v : value) (w : world) : world :=
  built None (-1) (layout (w_next w) v) (blocks v) w.

(** With the bytes [e] ahead of it, the reader in the state [rc] goes on as one
    that reads the values [vs] from the state [w0] of the store. *)
Definition upcoming (rc : redisReader) (e : list char) (w : world) (vs : list value) (w0 : world) : Prop :=
  no_oom w0 /\ Forall (value_ok 2) vs /\ zlen (concat (encode <$> vs)) <= INT_MAX /\
  match vs with
  | [] => e = [] /\ w = w0 /\ exists c, idle c /\ rc = start c
  | v :: vs' => exists c, idle c /\ run rc e w = run (start c) (encode v ++ concat (encode <$> vs')) w0
  end.

Lemma upcoming_start c vs w :
  idle c -> no_oom w -> Forall (value_ok 2) vs -> zlen (concat (encode <$> vs)) <= INT_MAX ->
  upcoming (start c) (concat (encode <$> vs)) w vs w.
Proof. intros Hc Hw Hok Hlen. split_and!; [done..|]. destruct vs as [|v vs]; [eauto|]. by exists c. Qed.

(** One run of the reader: the next value is complete, or there is more to
    come. *)
Lemma upcoming_run rc d e w a w1 v vs w0 :
  upcoming rc (d ++ e) w (v :: vs) w0 -> run rc d w = Ok (a, w1) ->
  match a with
  | AItem c1 d1 => r_reply c1 = Some (Obj (w_next w0)) /\ w1 = next_world v w0 /\
      upcoming (start (set_reply None c1)) (d1 ++ e) w1 vs w1
  | AMore c1 d1 => upcoming c1 (d1 ++ e) w1 (v :: vs) w0
  | AError c1 => False
  end.
Proof.
  intros (Hw0 & Hok & Hlen & c & Hc & E) Hrun. rewrite run_app, (bind_ok _ _ _ _ _ Hrun) in E.
  pose proof Hok as Hok0. apply Forall_cons in Hok as [Hv Hvs]. pose proof Hlen as Hlen0. cbn in Hlen.
  rewrite length_app in Hlen.
  destruct (run_root c v (concat (encode <$> vs)) w0) as (c' & E2 & Hrep & Hid); try done; [lia|].
  destruct a as [c1 d1|c1 d1|c1]; cbn [resume] in E.
  - rewrite E2 in E. injection E as -> Hd ->. split_and!; [done|done|]. rewrite Hd.
    apply upcoming_start; [done|done|done|lia].
  - split_and!; [done..|]. by exists c.
  - by rewrite E2 in E.
Qed.

Lemma upcoming_fault rc d e w f v vs w0 :
  upcoming rc (d ++ e) w (v :: vs) w0 -> run rc d w = Fault f -> False.
Proof.
  intros (Hw0 & Hok & Hlen & c & Hc & E) Hrun. rewrite run_app in E. unfold bind in E. rewrite Hrun in E.
  apply Forall_cons in Hok as [Hv Hvs]. cbn in Hlen. rewrite length_app in Hlen.
  destruct (run_root c v (concat (encode <$> vs)) w0) as (c' & E2 & _); try done; [lia|].
  by rewrite E2 in E.
Qed.

(** The reader of [c] has the values [vs] before it, their first bytes in its
    buffer and the pieces [xs] on their way. *)
Record expects (c : redisContext) (w : world) (xs : list (list char)) (vs : list value) (w0 : world) : Prop := {
  ex_err : c_err c = 0;
  ex_no_oom : no_oom w;
  ex_reader : exists r n rc d, c_reader c = Some r /\ holds n r rc d /\
    2 * (n + zlen (concat xs)) <= INT_MAX /\ upcoming rc (d ++ concat xs) w vs w0
}.

(** The reader has no bytes in its buffer. *)
Definition drained (c : redisContext) : Prop :=
  exists r n rc, c_reader c = Some r /\ holds n r rc [].

Lemma holds_pending_eq n n' r rc rc' d d' : holds n r rc d -> holds n' r rc' d' -> d = d'.
Proof.
  intros (b & pos & c0 & -> & _ & _ & _ & _ & _ & <- & _) (b' & pos' & c0' & E & _ & _ & _ & _ & _ & <- & _).
  unfold at_buf, set_buf in E. injection E as _ _ -> -> _ _ _ _ _ _. done.
Qed.

(** [redisGetReplyFromReader] takes the first of them, or finds that its bytes
    are not all there. *)
Lemma redisGetReplyFromReader_ok c w xs v vs w0 os t e :
  expects c w xs (v :: vs) w0 ->
  exists reply r w1, let c1 := set_c_reader (Some r) c in
    redisGetReplyFromReader c (io os t e w) = Ok (REDIS_OK, reply, c1, io os t e w1) /\
    match reply with
    | Some o => o = Obj (w_next w0) /\ w1 = next_world v w0 /\ expects c1 w1 xs vs w1
    | None => expects c1 w1 xs (v :: vs) w0 /\ xs <> []
    end /\ (drained c -> reply = None).
Proof.
  intros [He Hw (r & n & rc & d & Hr & Hh & Hmax & Hup)].
  unfold redisGetReplyFromReader. rewrite Hr. erewrite (bind_ok (deref (Some r))) by reflexivity.
  pose proof (redisReaderGetReply_post n r rc d (io os t e w) Hh) as Hg.
  pose proof (holds_live _ _ _ _ Hh) as Hl. rewrite (pure_run rc d (lv_wf _ Hl) os t e w) in Hg.
  destruct (run rc d w) as [[a w1]|f] eqn:Hrun; [|by destruct (upcoming_fault _ _ _ _ _ _ _ _ Hup Hrun)].
  pose proof (upcoming_run _ _ _ _ _ _ _ _ _ Hup Hrun) as Hnext. cbn [io_result] in Hg.
  pose proof (run_live_spec _ _ _ _ _ Hrun Hl) as [_ Hk]. specialize (Hk Hw).
  destruct a as [c1 d1|c1 d1|c1]; cbn [get_reply_post] in Hg.
  - destruct Hg as (r1 & E & Hh1). destruct Hnext as (Hrep & Hw1 & Hnext). rewrite Hrep in E.
    exists (Some (Obj (w_next w0))), r1, w1. rewrite (bind_ok _ _ _ _ _ E). split; [done|].
    split; [split_and!; [done|done|]; split; [done|done|]; by exists r1, n, (start (set_reply None c1)), d1|].
    intros (r' & n' & rc' & Hr' & Hh'). simplify_eq. rewrite (holds_pending_eq _ _ _ _ _ _ _ Hh Hh') in Hrun.
    by rewrite run_nil in Hrun.
  - destruct Hg as (r1 & E & Hh1). exists None, r1, w1. rewrite (bind_ok _ _ _ _ _ E). split; [done|].
    split; [|done]. split; [split; [done|done|]; by exists r1, n, c1, d1|].
    intros ->. apply run_settled in Hrun.
    destruct Hnext as (_ & Hok & Hlen & c0 & Hc0 & E0). cbn [concat] in E0. rewrite app_nil_r, Hrun in E0.
    apply Forall_cons in Hok as [Hv Hvs]. cbn in Hlen. rewrite length_app in Hlen.
    destruct (run_root c0 v (concat (encode <$> vs)) w0) as (c' & E2 & _); try done; [lia|by destruct Hup|].
    by rewrite E2 in E0.
  - done.
Qed.

Lemma expects_read c w x xs vs w0 a os t e :
  expects c w (x :: xs) vs w0 -> delivers a x ->
  exists r, let c1 := set_c_reader (Some r) c in
    redisBufferRead c (io (a :: os) t e w) =
      Ok (REDIS_OK, c1, io os (t ++ [(SysRead (c_fd c) READ_SIZE, zlen x)]) e w) /\
    expects c1 w xs vs w0.
Proof.
  intros [He Hw (r & n & rc & d & Hr & Hh & Hmax & Hup)] Ha. cbn [concat] in *.
  rewrite length_app in Hmax.
  destruct (redisBufferRead_ok c r n rc d a x os t e w) as (r' & Hh' & E); try done; [lia|].
  exists r'. split; [done|]. split; [done|done|].
  exists r', (n + zlen x), rc, (d ++ x). rewrite <- app_assoc. split_and!; [done|done|lia|done].
Qed.

(** The reads of the pieces [xs]. *)
Definition reads (fd : Z) (xs : list (list char)) : list (syscall * Z) :=
  (fun x => (SysRead fd READ_SIZE, zlen x)) <$> xs.

Lemma read_loop_ok answers fuel c w xs v vs w0 os t e :
  expects c w xs (v :: vs) w0 -> Forall2 delivers answers xs -> (length xs < fuel)%nat -> xs <> [] ->
  exists r as2 xs1 xs2, let c1 := set_c_reader (Some r) c in let w1 := next_world v w0 in
    xs = xs1 ++ xs2 /\ Forall2 delivers as2 xs2 /\ expects c1 w1 xs2 vs w1 /\
    read_loop fuel c (io (answers ++ os) t e w) =
      Ok (REDIS_OK, Some (Obj (w_next w0)), c1, io (as2 ++ os) (t ++ reads (c_fd c) xs1) e w1).
Proof.
  intros Hex Hans. revert fuel c w t Hex. induction Hans as [|a x answers xs Ha Hans IH];
    intros fuel c w t Hex Hf Hne; [done|].
  destruct fuel as [|fuel]; [cbn in Hf; lia|]. cbn [read_loop app].
  destruct (expects_read c w x xs (v :: vs) w0 a (answers ++ os) t e Hex Ha) as (r1 & E1 & Hex1).
  rewrite (bind_ok _ _ _ _ _ E1). change (REDIS_OK =? REDIS_ERR) with false. cbn beta iota.
  set (t1 := t ++ _). set (c1 := set_c_reader (Some r1) c) in *.
  destruct (redisGetReplyFromReader_ok c1 w xs v vs w0 (answers ++ os) t1 e Hex1)
    as (reply & r2 & w1 & E2 & Hrep & _).
  rewrite (bind_ok _ _ _ _ _ E2). change (REDIS_OK =? REDIS_ERR) with false. cbn beta iota.
  destruct reply as [o|].
  - destruct Hrep as (-> & -> & Hex2). exists r2, answers, [x], xs. done.
  - destruct Hrep as [Hex2 Hnil].
    destruct (IH fuel _ w1 t1 Hex2) as (r3 & as2 & xs1 & xs2 & -> & Has & Hex3 & E3); [cbn in Hf; lia|done|].
    exists r3, as2, (x :: xs1), xs2. split_and!; [done|done|done|].
    rewrite E3. unfold t1. cbn. by rewrite <- app_assoc.
Qed.

(** * Replies, one after the other *)

(** The whole of a blocking client that waits for the values [vs]: the bytes
    [out] are still to be written, which the kernel will do in the steps
    [writes], and to be read are the pieces [xs]. *)
Record session (c : redisContext) (w : world) (out : list char) (writes : list sysret)
    (xs : list (list char)) (answers : list sysret) (vs : list value) (w0 : world) : Prop := {
  se_expects : expects c w xs vs w0;
  se_block : has_flag c REDIS_BLOCK = true;
  se_pending : pending c out;
  se_writes : flushes writes (zlen out);
  se_answers : Forall2 delivers answers xs
}.

Lemma redisGetReply_ok c w out writes xs answers v vs w0 os t e :
  session c w out writes xs answers (v :: vs) w0 ->
  exists c1 out1 writes1 as1 xs1 t1, let w1 := next_world v w0 in
    session c1 w1 out1 writes1 xs1 as1 vs w1 /\ c_fd c1 = c_fd c /\
    sent (c_fd c) t1 ++ out1 = out /\ forallb quiet t1 = true /\ (drained c -> out1 = []) /\
    redisGetReply c (io (writes ++ answers ++ os) t e w) =
      Ok (REDIS_OK, Some (Obj (w_next w0)), c1, io (writes1 ++ as1 ++ os) (t ++ t1) e w1).
Proof.
  intros [Hex Hbl Hp Hfl Hans]. unfold redisGetReply.
  destruct (redisGetReplyFromReader_ok c w xs v vs w0 (writes ++ answers ++ os) t e Hex) as (reply & r & w1 & E & Hrep & Hdr).
  rewrite (bind_ok _ _ _ _ _ E). change (REDIS_OK =? REDIS_ERR) with false. cbn beta iota.
  set (c1 := set_c_reader (Some r) c) in *.
  destruct reply as [o|].
  { destruct Hrep as (-> & -> & Hex1). exists c1, out, writes, answers, xs, []. rewrite app_nil_r.
    split_and!; [by split|done..| |done]. by intros Hd%Hdr. }
  destruct Hrep as [Hex1 Hne]. change (has_flag c1 REDIS_BLOCK) with (has_flag c REDIS_BLOCK). rewrite Hbl.
  rewrite (bind_ok os_fuel) with (1 := eq_refl).
  destruct (write_loop_ok writes (S (length (writes ++ answers ++ os))) c1 out (answers ++ os) t e w1)
    as (b & t1 & Hb & Hs & Hsent & Hq & E1); try done.
  { by apply Hex1. } { by apply Hex1. } { rewrite length_app. lia. }
  rewrite (bind_ok _ _ _ _ _ E1). change (REDIS_OK =? REDIS_ERR) with false. cbn beta iota.
  rewrite (bind_ok os_fuel) with (1 := eq_refl).
  set (c2 := set_c_obuf (Some b) c1).
  assert (expects c2 w1 xs (v :: vs) w0) as Hex2 by (by destruct Hex1; split).
  destruct (read_loop_ok answers (S (length (answers ++ os))) c2 w1 xs v vs w0 os (t ++ t1) e Hex2)
    as (r3 & as2 & xs1 & xs2 & -> & Has & Hex3 & E3); [done| |done|].
  { apply Forall2_length in Hans. rewrite !length_app in *. lia. }
  exists (set_c_reader (Some r3) c2), [], [], as2, xs2, (t1 ++ reads (c_fd c) xs1).
  split_and!; [|done| | |done|].
  - split; try done. by exists b.
  - rewrite sent_app, app_nil_r. change (c_fd c1) with (c_fd c) in Hsent. rewrite Hsent.
    replace (sent (c_fd c) (reads (c_fd c) xs1)) with (@nil Z); [by rewrite app_nil_r|].
    symmetry. clear. induction xs1; [done|]. exact IHxs1.
  - rewrite forallb_app, Hq. clear. induction xs1; [done|]. exact IHxs1.
  - cbn [app]. rewrite app_assoc. done.
Qed.
End loops.

Section properties.
Context `{Strerror}.

(** Wait for [n] replies, one [redisGetReply] for each. *)
Fixpoint get_replies (n : nat) (c : redisContext) : M (list objptr * Z * redisContext) :=
  match n with
  | O => ret ([], REDIS_OK, c)
  | S n' =>
      let* (st, reply, c) := redisGetReply c in
      if negb (st =? REDIS_OK) then ret ([], st, c)
      else
        let* o := deref reply in
        let* (os, st, c) := get_replies n' c in
        ret (o :: os, st, c)
  end.

(** A blocking context without an error, whose reader has consumed what it was
    fed: at most 1024 bytes of that are still in its buffer. *)
Definition CONSUMED : Z := 1024.
Record quiescent (c : redisContext) : Prop := {
  qu_err : c_err c = 0;
  qu_block : has_flag c REDIS_BLOCK = true;
  qu_reader : exists r rc, c_reader c = Some r /\ holds CONSUMED r (start rc) [] /\ idle rc
}.

Lemma quiescent_session c w out writes xs answers vs :
  quiescent c -> pending c out -> no_oom w -> Forall (value_ok 2) vs ->
  concat xs = concat (encode <$> vs) -> 2 * (CONSUMED + zlen (concat xs)) <= INT_MAX ->
  flushes writes (zlen out) -> Forall2 delivers answers xs ->
  session c w out writes xs answers vs w /\ drained c.
Proof.
  intros [He Hb (r & rc & Hr & Hh & Hid)] Hp Hw Hok Hcat Hmax Hfl Hans. split; [split; try done|].
  - split; [done|done|]. exists r, CONSUMED, (start rc), []. split_and!; [done|done|lia|].
    cbn [app]. rewrite Hcat. apply upcoming_start; [done|done|done|]. rewrite <- Hcat. unfold CONSUMED in Hmax. climits.
  - by exists r, CONSUMED, (start rc).
Qed.

(** The reader of a context that has just returned a reply. *)
Definition trimmed (c : redisContext) : Prop := exists r, c_reader c = Some r /\ r_pos r < CONSUMED.

Lemma redisGetReplyFromReader_trimmed c w st o c' w' :
  redisGetReplyFromReader c w = Ok (st, Some o, c', w') -> trimmed c'.
Proof.
  unfold redisGetReplyFromReader. intros E. apply bind_inv in E as (r & w1 & _ & E).
  apply bind_inv in E as ([[st1 reply] r1] & w2 & E1 & E). destruct (st1 =? REDIS_ERR) eqn:Est.
  - apply bind_inv in E as (c1 & w3 & E2 & E). injection E as _ -> <- _. apply redisReaderGetReply_pos in E1.
    unfold reader_error, __redisSetError in E2. exists r1. split; [|done].
    repeat first [case_match|apply bind_inv in E2 as (? & ? & _ & E2)]; by injection E2 as <- _.
  - injection E as _ -> <- _. exists r1. split; [done|]. by eapply redisReaderGetReply_pos.
Qed.

Lemma read_loop_trimmed fuel c w st o c' w' : read_loop fuel c w = Ok (st, Some o, c', w') -> trimmed c'.
Proof.
  revert c w. induction fuel as [|f IH]; intros c w E; [done|]. cbn [read_loop] in E.
  apply bind_inv in E as ([st1 c1] & w1 & _ & E). destruct (st1 =? REDIS_ERR); [done|].
  apply bind_inv in E as ([[st2 aux] c2] & w2 & E2 & E). destruct (st2 =? REDIS_ERR); [done|].
  destruct aux as [o2|]; [|by eapply IH]. injection E as _ _ <- _. by eapply redisGetReplyFromReader_trimmed.
Qed.

Lemma redisGetReply_trimmed c w st o c' w' : redisGetReply c w = Ok (st, Some o, c', w') -> trimmed c'.
Proof.
  unfold redisGetReply. intros E. apply bind_inv in E as ([[st1 aux] c1] & w1 & E1 & E).
  destruct (st1 =? REDIS_ERR); [done|]. destruct aux as [o1|].
  { injection E as _ _ <- _. by eapply redisGetReplyFromReader_trimmed. }
  destruct (has_flag c1 REDIS_BLOCK); [|done]. apply bind_inv in E as (f & w2 & _ & E).
  apply bind_inv in E as ([st2 c2] & w3 & _ & E). destruct (st2 =? REDIS_ERR); [done|].
  apply bind_inv in E as (f' & w4 & _ & E). by eapply read_loop_trimmed.
Qed.

Lemma session_end c w out writes xs answers w0 : session c w out writes xs answers [] w0 -> answers = [] /\ w = w0.
Proof.
  intros [[_ _ (r & n & rc & d & _ & _ & _ & _ & _ & _ & He & -> & _)] _ _ _ Hans]. split; [|done].
  apply app_eq_nil in He as [_ He]. destruct Hans as [|a x answers xs (_ & _ & Hne & _) _]; [done|].
  cbn in He. by apply app_eq_nil in He as [-> _].
Qed.

(** All replies are there: the context is as it was before the first command. *)
Lemma session_quiescent c w out writes xs answers w0 :
  session c w out writes xs answers [] w0 -> trimmed c -> quiescent c.
Proof.
  intros [[He _ (r & n & rc & d & Hr & Hh & _ & _ & _ & _ & Hnil & _ & c0 & Hid & ->)] Hbl _ _ _] (r' & Hr' & Hp).
  split; [done|done|]. exists r, c0. rewrite Hr in Hr'. injection Hr' as <-.
  apply app_eq_nil in Hnil as [-> _]. split_and!; [done| |done]. eapply holds_consumed; [done|lia].
Qed.

Lemma next_world_stored v vs w :
  stored (v :: vs) w = stored vs (next_world v w) /\ w_next (next_world v w) = (w_next w + objects v)%nat.
Proof. split; [apply stored_cons|]. unfold next_world, built. cbn. by rewrite length_layout. Qed.

Lemma get_replies_ok vs c w out writes xs answers w0 os t e :
  session c w out writes xs answers vs w0 ->
  exists c1 out1 writes1 t1,
    get_replies (length vs) c (io (writes ++ answers ++ os) t e w) =
      Ok (Obj <$> locs (w_next w0) vs, REDIS_OK, c1, io (writes1 ++ os) (t ++ t1) e (stored vs w0)) /\
    c_fd c1 = c_fd c /\ sent (c_fd c) t1 ++ out1 = out /\ forallb quiet t1 = true /\
    pending c1 out1 /\ flushes writes1 (zlen out1) /\ (drained c -> vs <> [] -> out1 = []) /\
    (vs <> [] \/ trimmed c -> quiescent c1).
Proof.
  revert c w out writes xs answers w0 t. induction vs as [|v vs IH]; intros c w out writes xs answers w0 t Hs.
  - pose proof (session_end _ _ _ _ _ _ _ Hs) as [-> ->]. pose proof (se_pending _ _ _ _ _ _ _ _ Hs).
    pose proof (se_writes _ _ _ _ _ _ _ _ Hs).
    exists c, out, writes, []. rewrite app_nil_r, stored_nil. split_and!; try done.
    intros [|Ht]; [done|]. by eapply session_quiescent.
  - destruct (redisGetReply_ok c w out writes xs answers v vs w0 os t e Hs)
      as (c1 & out1 & writes1 & as1 & xs1 & t1 & Hs1 & Hfd & Hsent & Hq & Hdr & E).
    destruct (IH c1 _ out1 writes1 xs1 as1 _ (t ++ t1) Hs1)
      as (c2 & out2 & writes2 & t2 & E2 & Hfd2 & Hsent2 & Hq2 & Hp2 & Hfl2 & _ & Hqui2).
    destruct (next_world_stored v vs w0) as [Hst Hnx].
    exists c2, out2, writes2, (t1 ++ t2). cbn [length get_replies locs fmap list_fmap].
    rewrite (bind_ok _ _ _ _ _ E). change (negb (REDIS_OK =? REDIS_OK)) with false. cbn iota.
    erewrite (bind_ok (deref (Some _))) by reflexivity. rewrite (bind_ok _ _ _ _ _ E2), <- Hst, Hnx, app_assoc.
    split_and!; [done|congruence| |by rewrite forallb_app, Hq|done|done| |].
    + rewrite sent_app, <- app_assoc. rewrite Hfd in Hsent2. by rewrite Hsent2.
    + intros Hd _. rewrite (Hdr Hd) in Hsent2. by apply app_eq_nil in Hsent2 as [_ ->].
    + intros _. apply Hqui2. right. by eapply redisGetReply_trimmed.
Qed.

(** C25: pipelining.  The commands in the output buffer are written out in
    full and in order, whatever partial writes the kernel makes of them, and as
    many calls of [redisGetReply] as the server sends replies return exactly
    these replies, in order, however the kernel cuts the stream of bytes it
    delivers: across packets a reply may be split, and one packet may hold
    several.  All the answers of the kernel are used up, only the objects of
    the replies are new, and the context is idle again. *)
Theorem pipeline_fifo c w out writes xs answers vs os :
  quiescent c -> pending c out -> no_oom w -> Forall (value_ok 2) vs -> vs <> [] ->
  concat xs = concat (encode <$> vs) -> 2 * (CONSUMED + zlen (concat xs)) <= INT_MAX ->
  flushes writes (zlen out) -> Forall2 delivers answers xs -> w_os w = writes ++ answers ++ os ->
  exists c' t,
    get_replies (length vs) c w =
      Ok (Obj <$> locs (w_next w) vs, REDIS_OK, c', io os (w_trace w ++ t) (w_errno w) (stored vs w)) /\
    sent (c_fd c) t = out /\ pending c' [] /\ quiescent c' /\ c_fd c' = c_fd c.
Proof.
  intros Hqu Hp Hw Hok Hne Hcat Hmax Hfl Hans Hos.
  destruct (quiescent_session c w out writes xs answers vs) as [Hs Hd]; try done.
  destruct (get_replies_ok vs c w out writes xs answers w os (w_trace w) (w_errno w) Hs)
    as (c1 & out1 & writes1 & t1 & E & Hfd & Hsent & _ & Hp1 & Hfl1 & Hdr & Hqui).
  rewrite <- Hos, io_id in E. specialize (Hdr Hd Hne) as ->. rewrite app_nil_r in Hsent.
  destruct writes1 as [|a writes1]; [|cbn in Hfl1; lia]. exists c1, t1. split_and!; try done. apply Hqui. by left.
Qed.
(** ** Appending *)

Lemma append_formatted_ok m c out cmd w :
  formats m w cmd -> pending c out -> 2 * zlen (out ++ cmd) <= INT_MAX ->
  exists st c' w', (let* f := m in append_formatted c f) w = Ok (st, c', w') /\ alloc_only w w' /\
    w_live w' = w_live w /\ c_fd c' = c_fd c /\ c_flags c' = c_flags c /\ c_reader c' = c_reader c /\
    ((st = REDIS_OK /\ pending c' (out ++ cmd) /\ c_err c' = c_err c) \/
     (st = REDIS_ERR /\ pending c' out /\ c_err c' = REDIS_ERR_OOM /\ ~ no_oom w)).
Proof.
  intros (f & w1 & E & Ha & Hf) (b & Hob & Hb & Hs) Hmax. rewrite (bind_ok _ _ _ _ _ E).
  assert (sds_fits b (zlen cmd)) as Hfit.
  { right. rewrite <- (length_sds_str b Hb), Hs. rewrite length_app in Hmax. lia. }
  destruct Hf as [[-> Hl]|(-> & Hl & Hno)].
  - unfold append_formatted. rewrite (proj2 (Z.eqb_neq (zlen cmd) (-1))) by lia.
    erewrite (bind_ok (deref (Some _))) by reflexivity.
    unfold __redisAppendCommand. rewrite Hob, bind_assoc. erewrite (bind_ok (deref (Some b))) by reflexivity.
    rewrite length_app in Hmax. rewrite size_t_id by climits.
    destruct (sdscatlen_allocs b (cmd ++ [NUL]) (zlen cmd) w1) as (r & w2 & E2 & Ha2 & Hr);
      [done|rewrite length_app; lia|done|].
    rewrite bind_assoc, (bind_ok _ _ _ _ _ E2). destruct r as [b'|].
    + destruct Hr as [[Hb' Hs'] Hl2]. eexists _, _, _. split; [reflexivity|].
      split_and!; [etrans; [done|]; etrans; [done|apply alloc_only_add_live]|cbn; lia|done|done|done|].
      left. split_and!; [done| |done]. exists b'. split_and!; [done|done|].
      by rewrite Hs', Nat2Z.id, take_app_length, Hs.
    + destruct Hr as [Hl2 Hno]. eexists _, _, _. split; [reflexivity|].
      split_and!; [etrans; [done|]; etrans; [done|apply alloc_only_add_live]|cbn; lia|done|done|done|].
      right. split_and!; [done|by exists b|done|]. intros Hn. by eapply Hno, alloc_only_no_oom.
  - eexists _, _, _. split; [reflexivity|]. split_and!; [done|done|done|done|done|].
    right. split_and!; [done|by exists b|done|done].
Qed.

Lemma append_argv_ok args c out argv argvlen w :
  denotes argv argvlen args -> pending c out -> 2 * zlen (out ++ command args) <= INT_MAX ->
  exists st c' w', redisAppendCommandArgv c (zlen args) argv argvlen w = Ok (st, c', w') /\
    alloc_only w w' /\ w_live w' = w_live w /\
    c_fd c' = c_fd c /\ c_flags c' = c_flags c /\ c_reader c' = c_reader c /\
    ((st = REDIS_OK /\ pending c' (out ++ command args) /\ c_err c' = c_err c) \/
     (st = REDIS_ERR /\ pending c' out /\ c_err c' = REDIS_ERR_OOM /\ ~ no_oom w)).
Proof.
  intros Hd Hp Hmax. apply append_formatted_ok; [|done|done]. apply format_argv_ok; [done|done|].
  rewrite length_app in Hmax. climits.
Qed.

(** ** Appending and writing in any order *)

Inductive client_op :=
| OpAppend (args : list (list char))
| OpWrite.

Definition run_op (o : client_op) (c : redisContext) : M redisContext :=
  match o with
  | OpAppend args =>
      let* (_, c) := redisAppendCommandArgv c (zlen args) args (Some ((fun s => zlen s) <$> args)) in ret c
  | OpWrite => let* (_, c, _) := redisBufferWrite c in ret c
  end.

Fixpoint run_ops (ops : list client_op) (c : redisContext) : M redisContext :=
  match ops with
  | [] => ret c
  | o :: ops => let* c := run_op o c in run_ops ops c
  end.

(** The bytes an operation adds. *)
Definition op_bytes (o : client_op) : list char :=
  match o with OpAppend args => command args | OpWrite => [] end.

Lemma denotes_lengths args : denotes args (Some ((fun s => zlen s) <$> args)) args.
Proof.
  intros j s Hj. exists s. unfold arg_len. rewrite list_lookup_fmap, Hj. split; [done|]. by apply take_ge.
Qed.

(** Nothing but the answers and the calls of the kernel changes. *)
Lemma run_op_ok o c out w :
  no_oom w -> pending c out -> 2 * zlen (out ++ op_bytes o) <= INT_MAX -> w_os w <> [] ->
  exists c' out' w' t, run_op o c w = Ok (c', w') /\ calls w t w' /\ pending c' out' /\
    sent (c_fd c) t ++ out' = out ++ op_bytes o /\ c_fd c' = c_fd c /\
    (length (w_os w) <= S (length (w_os w')))%nat.
Proof.
  intros Hw Hp Hmax Hos. destruct o as [args|]; cbn [run_op op_bytes] in *.
  - destruct (append_argv_ok args c out args _ w (denotes_lengths args) Hp Hmax)
      as (st & c' & w' & E & Ha & Hl & Hfd & _ & _ & Hcase).
    destruct Hcase as [(-> & Hp' & _)|(_ & _ & _ & Hno)]; [|done].
    apply (alloc_only_add_live_eq 0 w w' Hw) in Ha as ->; [|lia]. rewrite add_live_0 in *.
    exists c', (out ++ command args), w, []. rewrite (bind_ok _ _ _ _ _ E).
    split_and!; [done|apply calls_nil|done|done|done|lia].
  - destruct (w_os w) as [|a os] eqn:Ea; [done|]. rewrite app_nil_r.
    destruct (Z.eqb_spec (c_err c) 0) as [He|He].
    2: { assert (redisBufferWrite c w = Ok (REDIS_ERR, c, false, w)) as E.
         { unfold redisBufferWrite. by rewrite (proj2 (Z.eqb_neq _ _) He). }
         exists c, out, w, []. rewrite (bind_ok _ _ _ _ _ E), Ea.
         split_and!; [done|apply calls_nil|done|done|done|cbn; lia]. }
    destruct (decide (out = [])) as [->|Hne].
    { exists c, [], w, []. rewrite (bind_ok _ _ _ _ _ (redisBufferWrite_empty c w He Hp)), Ea.
      split_and!; [done|apply calls_nil|done|done|done|cbn; lia]. }
    destruct (Z.leb_spec 0 (sr_val a)) as [Hv|Hv].
    + destruct (redisBufferWrite_accepted c out a os w) as (b' & Hb' & Hs' & E); try done.
      set (k := Z.min _ _) in *. eexists _, (drop (Z.to_nat k) out), _, [(SysWrite (c_fd c) out, k)].
      rewrite (bind_ok _ _ _ _ _ E). split_and!; [reflexivity|by split|by exists b'| |done|cbn; lia].
      cbn. rewrite Z.eqb_refl, app_nil_r. apply take_drop.
    + destruct (redisBufferWrite_refused c out a os w) as (st & c' & wd & E & Hc); try done.
      exists c', out, (set_errno (sr_errno a) (logged (SysWrite (c_fd c) out, -1) os w)), [(SysWrite (c_fd c) out, -1)].
      rewrite (bind_ok _ _ _ _ _ E). split_and!; [done|by split| | | |cbn; lia].
      * destruct Hc as [(_ & _ & _ & -> & _)|(_ & (_ & _ & _ & Hob & _) & _)]; [done|].
        destruct Hp as (b & Hb). exists b. by rewrite Hob.
      * cbn. by rewrite Z.eqb_refl.
      * destruct Hc as [(_ & _ & _ & -> & _)|(_ & (_ & Hfd & _) & _)]; done.
Qed.

(** C26: no byte is lost, repeated or reordered on the way out.  After any
    sequence of appended commands and write attempts, with the kernel taking
    everything, a part or nothing each time, or failing, what it has accepted
    followed by what is still in the output buffer is what was in the buffer at
    the start followed by the appended commands, in order; the program never
    faults and holds as many blocks as before. *)
Theorem write_conserves ops c out w :
  no_oom w -> pending c out -> 2 * zlen (out ++ concat (op_bytes <$> ops)) <= INT_MAX ->
  (length ops <= length (w_os w))%nat ->
  exists c' out' w' t, run_ops ops c w = Ok (c', w') /\ calls w t w' /\ pending c' out' /\
    sent (c_fd c) t ++ out' = out ++ concat (op_bytes <$> ops).
Proof.
  revert c out w. induction ops as [|o ops IH]; intros c out w Hw Hp Hmax Hlen.
  - exists c, out, w, []. split_and!; [done|apply calls_nil|done|by rewrite app_nil_r].
  - cbn [fmap list_fmap concat length run_ops] in *. rewrite !length_app in Hmax.
    destruct (run_op_ok o c out w Hw Hp) as (c1 & out1 & w1 & t1 & E1 & C1 & Hp1 & Hs1 & Hfd & Hl1).
    { rewrite length_app. lia. } { intros Hnil. rewrite Hnil in Hlen. cbn in Hlen. lia. }
    assert (zlen out1 <= zlen out + zlen (op_bytes o)) as Hle.
    { rewrite <- Nat2Z.inj_add, <- length_app, <- Hs1, length_app. lia. }
    destruct (IH c1 out1 w1) as (c2 & out2 & w2 & t2 & E2 & C2 & Hp2 & Hs2).
    { unfold no_oom. by rewrite (cl_alloc _ _ _ C1). } { done. } { rewrite length_app. lia. } { lia. }
    exists c2, out2, w2, (t1 ++ t2). rewrite (bind_ok _ _ _ _ _ E1). split_and!; [done|by eapply calls_app|done|].
    rewrite sent_app, <- app_assoc. rewrite Hfd in Hs2. rewrite Hs2, app_assoc, Hs1. by rewrite <- app_assoc.
Qed.

(** ** A command and its reply *)

Lemma block_for_reply_ok c args v xs writes answers os w :
  quiescent c -> pending c (command args) -> no_oom w -> value_ok 2 v ->
  concat xs = encode v -> 2 * (CONSUMED + zlen (encode v)) <= INT_MAX ->
  flushes writes (zlen (command args)) -> Forall2 delivers answers xs -> w_os w = writes ++ answers ++ os ->
  exists c' t,
    __redisBlockForReply c w = Ok (Some (Obj (w_next w)), c', io os (w_trace w ++ t) (w_errno w) (stored [v] w)) /\
    sent (c_fd c) t = command args /\ forallb quiet t = true /\ pending c' [] /\ quiescent c' /\ c_fd c' = c_fd c.
Proof.
  intros Hqu Hp Hw Hok Hcat Hmax Hfl Hans Hos.
  destruct (quiescent_session c w (command args) writes xs answers [v]) as [Hs Hdr]; try done.
  { by apply Forall_singleton. } { by cbn; rewrite app_nil_r. } { by rewrite Hcat. }
  destruct (redisGetReply_ok c w _ writes xs answers v [] w os (w_trace w) (w_errno w) Hs)
    as (c2 & out2 & writes2 & as2 & xs2 & t2 & Hs2 & Hfd2 & Hsent & Hq & Hout & E2).
  rewrite (Hout Hdr) in *. pose proof (session_end _ _ _ _ _ _ _ Hs2) as [-> _].
  pose proof (session_quiescent _ _ _ _ _ _ _ Hs2 (redisGetReply_trimmed _ _ _ _ _ _ E2)) as Hqu2.
  destruct Hs2 as [_ _ Hp2 Hfl2 _]. destruct writes2 as [|a writes2]; [|cbn in Hfl2; lia].
  exists c2, t2. rewrite app_nil_r in Hsent. split_and!; try done.
  unfold __redisBlockForReply. rewrite (qu_block _ Hqu). rewrite <- Hos, io_id in E2.
  rewrite (bind_ok _ _ _ _ _ E2). change (negb (REDIS_OK =? REDIS_OK)) with false. cbn iota.
  destruct (next_world_stored v [] w) as [-> _]. by rewrite stored_nil.
Qed.

(** Appending leaves the reader alone. *)
Lemma quiescent_append c c' :
  quiescent c -> c_err c' = c_err c -> c_flags c' = c_flags c -> c_reader c' = c_reader c -> quiescent c'.
Proof.
  intros [He Hb Hr] Ee Ef Er. split; [congruence| |by rewrite Er]. unfold has_flag in *. by rewrite Ef.
Qed.

(** C9: a command end to end.  On an idle blocking context
    [redisCommandArgv] writes exactly the encoding of its arguments, whatever
    partial writes the kernel makes of it, reads whatever pieces the encoding of
    the server's reply [v] arrives in, and returns the object of [v]; nothing
    else is allocated or sent, and the context is idle again: the next command
    finds it as this one did. *)
Theorem command_reply c argv argvlen args v xs writes answers os w :
  quiescent c -> pending c [] -> no_oom w -> denotes argv argvlen args -> value_ok 2 v ->
  2 * zlen (command args) <= INT_MAX -> concat xs = encode v -> 2 * (CONSUMED + zlen (encode v)) <= INT_MAX ->
  flushes writes (zlen (command args)) -> Forall2 delivers answers xs -> w_os w = writes ++ answers ++ os ->
  exists c' t,
    redisCommandArgv c (zlen args) argv argvlen w =
      Ok (Some (Obj (w_next w)), c', io os (w_trace w ++ t) (w_errno w) (stored [v] w)) /\
    sent (c_fd c) t = command args /\ pending c' [] /\ quiescent c' /\ c_fd c' = c_fd c.
Proof.
  intros Hqu Hp Hw Hd Hok Hmax Hcat Hmax2 Hfl Hans Hos.
  destruct (append_argv_ok args c [] argv argvlen w Hd Hp Hmax)
    as (st & c1 & w1 & E & Ha & Hl & Hfd & Hflags & Hrd & Hcase).
  destruct Hcase as [(-> & Hp1 & He1)|(_ & _ & _ & Hno)]; [|done].
  apply (alloc_only_add_live_eq 0 w w1 Hw) in Ha as ->; [|lia]. rewrite add_live_0 in E.
  destruct (block_for_reply_ok c1 args v xs writes answers os w) as (c2 & t & E2 & Hs & _ & Hp2 & Hq2 & Hfd2);
    try done; [by eapply quiescent_append|].
  exists c2, t. rewrite Hfd in *. split_and!; [|done..].
  unfold redisCommandArgv. rewrite (bind_ok _ _ _ _ _ E). change (negb (REDIS_OK =? REDIS_OK)) with false. done.
Qed.
End properties.

(** A connected context on descriptor 3, as [redisConnect] leaves it. *)
Definition empty_sds : sdshdr := mkSds 0 0 [NUL].
Definition demo_context : redisContext :=
  mkContext 0 [] 3 (Z.lor REDIS_BLOCK REDIS_CONNECTED) (Some empty_sds) (Some (at_buf empty_sds 0 fresh_core)).

Lemma empty_sds_wf : sds_wf empty_sds.
Proof. by split. Qed.

Lemma demo_quiescent : quiescent demo_context /\ pending demo_context [].
Proof.
  split; [|by exists empty_sds; split_and!; [|apply empty_sds_wf|]].
  split; [done|done|]. exists (at_buf empty_sds 0 fresh_core), fresh_core.
  split_and!; [done| |apply fresh_idle]. exists empty_sds, 0, fresh_core.
  split_and!; try done; apply (idle_ready _ fresh_idle).
Qed.

(** The answer to a [read] that delivers the bytes [x]. *)
Definition data (x : list char) : sysret := mkRet (zlen x) 0 x 0.

Lemma delivers_data x : x <> [] -> zlen x <= READ_SIZE -> delivers (data x) x.
Proof. intros. split_and!; cbn; done || lia. Qed.

(** The write of [PING] is split, and its reply arrives byte by byte. *)
Definition pong : list (list char) := (fun ch => [ch]) <$> encode (VStatus (lit "PONG")).

Lemma command_reply_witness :
  let w := set_os ([answer 5; answer 0; answer 100] ++ (data <$> pong)) world0 in
  exists c' t,
    @redisCommandArgv no_strerror demo_context 1 [lit "PING"] (Some [4]) w =
      Ok (Some (Obj 1%nat), c', io [] t 0 (stored [VStatus (lit "PONG")] w)) /\
    sent 3 t = command [lit "PING"] /\ pending c' [] /\ quiescent c' /\ c_fd c' = 3.
Proof.
  refine (@command_reply no_strerror demo_context [lit "PING"] (Some [4]) [lit "PING"] (VStatus (lit "PONG")) pong
    [answer 5; answer 0; answer 100] (data <$> pong) [] _ _ _ _ _ _ _ _ _ _ _ _).
  - exact (proj1 demo_quiescent).
  - exact (proj2 demo_quiescent).
  - reflexivity.
  - exact (denotes_lengths [lit "PING"]).
  - repeat constructor; discriminate.
  - vm_compute. discriminate.
  - vm_compute. reflexivity.
  - vm_compute. discriminate.
  - vm_compute. repeat split; discriminate.
  - unfold pong. rewrite Forall2_fmap_l. apply Forall_Forall2_diag, Forall_fmap, Forall_forall.
    intros x _. apply delivers_data; [done|vm_compute; discriminate].
  - vm_compute. reflexivity.
Defined.

(** Two replies in three packets, the first of which holds one and a half. *)
Definition two_replies : list value := [VInteger 1; VBulk (lit "ab")].
Definition two_packets : list (list char) := [encode (VInteger 1) ++ lit "$2"; CRLF; lit "ab" ++ CRLF].

Lemma pipeline_fifo_witness :
  let w := set_os (data <$> two_packets) world0 in
  exists c' t,
    @get_replies no_strerror 2 demo_context w =
      Ok (Obj <$> locs 1 two_replies, REDIS_OK, c', io [] t 0 (stored two_replies w)) /\
    sent 3 t = [] /\ pending c' [] /\ quiescent c' /\ c_fd c' = 3.
Proof.
  refine (@pipeline_fifo no_strerror demo_context _ [] [] two_packets (data <$> two_packets) two_replies []
    _ _ _ _ _ _ _ _ _ _).
  - exact (proj1 demo_quiescent).
  - exact (proj2 demo_quiescent).
  - reflexivity.
  - repeat constructor; vm_compute; discriminate.
  - discriminate.
  - vm_compute. reflexivity.
  - vm_compute. discriminate.
  - reflexivity.
  - repeat constructor; vm_compute; discriminate.
  - reflexivity.
Defined.

Lemma write_conserves_witness :
  let ops := [OpAppend [lit "PING"]; OpWrite; OpAppend [lit "GET"; lit "k"]; OpWrite; OpWrite] in
  exists c' out' w' t,
    @run_ops no_strerror ops demo_context
      (set_os [answer 7; failure EAGAIN; answer 3; answer 0; answer 0] world0) = Ok (c', w') /\
    calls (set_os [answer 7; failure EAGAIN; answer 3; answer 0; answer 0] world0) t w' /\
    pending c' out' /\ sent 3 t ++ out' = command [lit "PING"] ++ command [lit "GET"; lit "k"].
Proof.
  refine (@write_conserves no_strerror
    [OpAppend [lit "PING"]; OpWrite; OpAppend [lit "GET"; lit "k"]; OpWrite; OpWrite] demo_context []
    (set_os [answer 7; failure EAGAIN; answer 3; answer 0; answer 0] world0) _ _ _ _).
  - reflexivity.
  - exact (proj2 demo_quiescent).
  - vm_compute. discriminate.
  - cbn. lia.
Defined.

(** * Connecting and releasing *)

Section release.
Context `{Strerror}.

Lemma redisContextInit_ok w :
  no_oom w ->
  exists b r, redisContextInit w = Ok (Some (mkContext 0 [] 0 0 (Some b) (Some r)), add_live 4 w) /\
    sds_wf b /\ sds_str b = [] /\ holds 0 r (start fresh_core) [].
Proof.
  intros Hw. unfold redisContextInit. rewrite (bind_ok _ _ _ _ _ (alloc_block_no_oom w Hw)). cbn [negb].
  destruct (sdsempty_no_oom (add_live 1 w) Hw) as (b & E & Hb & Hs). rewrite (bind_ok _ _ _ _ _ E).
  destruct (redisReaderCreate_ok (add_live 1 (add_live 1 w)) Hw) as (r & E2 & Hh).
  rewrite (bind_ok _ _ _ _ _ E2), !add_live_add. by exists b, r.
Qed.

Lemma start_reply c : r_reply (start c) = r_reply c.
Proof. unfold start. by destruct (r_ridx c =? -1). Qed.

Lemma redisReaderFree_ok n r c d w :
  holds n r (start c) d -> r_reply c = None -> redisReaderFree r w = Ok (tt, add_live (-2) w).
Proof.
  intros (b & pos & c0 & -> & Hst & _) Hrep. unfold redisReaderFree.
  assert (r_reply c0 = None) as H0 by (by rewrite <- (start_reply c0), Hst, start_reply).
  change (r_reply (at_buf b pos c0)) with (r_reply c0). rewrite H0.
  rewrite (bind_ok (ret tt)) with (1 := eq_refl). cbn [r_buf at_buf set_buf].
  rewrite (bind_ok (sdsfree (Some b))) with (1 := eq_refl). unfold free, modify. by rewrite add_live_add.
Qed.

(** The descriptors open once the context is released: descriptor 0 stays,
    since [redisFree] takes it for "no descriptor". *)
Definition left_open (c : redisContext) (l : list Z) : list Z :=
  if has_flag c REDIS_CONNECTED && (c_fd c =? 0) then 0 :: l else l.

Lemma redisFree_holds c b r n rc d w :
  c_obuf c = Some b -> c_reader c = Some r -> holds n r (start rc) d -> r_reply rc = None ->
  exists t, redisFree c w = Ok (tt, set_trace (w_trace w ++ t) (add_live (-4) w)) /\
    t = if 0 <? c_fd c then [(SysClose (c_fd c), 0)] else [].
Proof.
  intros Hob Hr Hh Hrep. unfold redisFree. rewrite Hob, Hr.
  set (w1 := set_trace (w_trace w ++ (if 0 <? c_fd c then [(SysClose (c_fd c), 0)] else [])) w).
  assert ((if 0 <? c_fd c then sys_close (c_fd c) else ret tt) w = Ok (tt, w1)) as E.
  { unfold w1. destruct (0 <? c_fd c); [done|]. rewrite app_nil_r. by destruct w. }
  rewrite (bind_ok _ _ _ _ _ E). rewrite (bind_ok (sdsfree (Some b))) with (1 := eq_refl).
  rewrite (bind_ok _ _ _ _ _ (redisReaderFree_ok n r rc d _ Hh Hrep)).
  eexists. split; [|done]. unfold free, modify. by rewrite !add_live_add.
Qed.

Lemma redisFree_ok c b r w :
  c_obuf c = Some b -> c_reader c = Some r -> holds 0 r (start fresh_core) [] ->
  exists t, redisFree c w = Ok (tt, set_trace (w_trace w ++ t) (add_live (-4) w)) /\
    t = if 0 <? c_fd c then [(SysClose (c_fd c), 0)] else [].
Proof. intros Hob Hr Hh. by eapply redisFree_holds. Qed.

Lemma has_flag_connected s c : has_flag (connected s c) REDIS_CONNECTED = true.
Proof.
  unfold has_flag, connected. cbn [c_flags set_c_flags]. apply negb_true_iff, Z.eqb_neq. intros E.
  assert (Z.testbit (Z.land (Z.lor (c_flags c) REDIS_CONNECTED) REDIS_CONNECTED) 1 = true) as Hb.
  { rewrite Z.land_spec, Z.lor_spec. by rewrite orb_true_r. }
  by rewrite E in Hb.
Qed.

(** C27: [redisConnect], with or without a timeout, and then [redisFree] leave
    nothing behind, whether the connection was established or not: every block
    is released and every descriptor closed, once, except that a connection on
    descriptor 0 stays open.  The context tells the two cases apart: it is
    connected and without error, or carries an error. *)
Theorem connect_then_free ip port w :
  no_oom w -> (10 <= length (w_os w))%nat ->
  (forall a os, w_os w = a :: os -> sr_val a < FD_SETSIZE) ->
  exists c w1 w2 t, redisConnect ip port w = Ok (c, w1) /\
    (has_flag c REDIS_CONNECTED = true <-> c_err c = 0) /\
    redisFree c w1 = Ok (tt, w2) /\ w_live w2 = w_live w /\ w_objs w2 = w_objs w /\
    w_trace w2 = w_trace w ++ t /\ forall l, fds_after l t = Some (left_open c l).
Proof.
  intros Hw Hn Hfd. unfold redisConnect, connect_with.
  destruct (redisContextInit_ok w Hw) as (b & r & E0 & Hb & Hs & Hh). rewrite (bind_ok _ _ _ _ _ E0).
  erewrite (bind_ok (deref (Some _))) by reflexivity.
  set (c0 := set_block true _).
  destruct (redisContextConnectTcp_does c0 ip port None (add_live 4 w) Hfd Hn) as (res & w1 & t1 & E1 & C1 & _ & Hp).
  rewrite (bind_ok _ _ _ _ _ E1). destruct res as [st c1]. cbn beta iota.
  assert (c_obuf c1 = Some b /\ c_reader c1 = Some r) as [Hob Hrd].
  { destruct Hp as [(s & [= _ ->] & _)|(c' & [= _ ->] & (_ & _ & _ & -> & ->) & _)]; done. }
  destruct (redisFree_ok c1 b r w1 Hob Hrd Hh) as (t2 & E2 & ->).
  exists c1, w1, (set_trace (w_trace w1 ++ (if 0 <? c_fd c1 then [(SysClose (c_fd c1), 0)] else [])) (add_live (-4) w1)),
    (t1 ++ (if 0 <? c_fd c1 then [(SysClose (c_fd c1), 0)] else [])).
  pose proof (cl_live _ _ _ C1). pose proof (cl_objs _ _ _ C1). pose proof (cl_trace _ _ _ C1) as Ht.
  cbn in *. split_and!; [done| |done|lia|done|rewrite Ht; by rewrite app_assoc|].
  - destruct Hp as [(s & [= _ ->] & _)|(c' & [= _ ->] & (Hne & _ & Hfl & _) & _)].
    + by rewrite has_flag_connected.
    + unfold has_flag. rewrite Hfl. split; [done|]. intros ?. by destruct Hne.
  - intros l. rewrite fds_after_app. unfold left_open.
    destruct Hp as [(s & [= _ ->] & Hs0 & Ho & _)|(c' & [= _ ->] & (_ & Hfd0 & Hfl & _) & Ho)].
    + rewrite Ho, has_flag_connected. cbn [mbind option_bind]. change (c_fd (connected s c0)) with s.
      destruct (Z.ltb_spec 0 s) as [Hpos|Hpos].
      * rewrite fds_after_close. by bfalse (s =? 0).
      * assert (s = 0) as -> by lia. done.
    + rewrite Ho, Hfd0. unfold has_flag. rewrite Hfl. done.
Qed.
End release.

Lemma connect_then_free_witness :
  let w := set_os (replicate 10 (answer 3)) world0 in
  exists c w1 w2 t, @redisConnect no_strerror (lit "127.0.0.1") 6379 w = Ok (c, w1) /\
    (has_flag c REDIS_CONNECTED = true <-> c_err c = 0) /\
    redisFree c w1 = Ok (tt, w2) /\ w_live w2 = 0 /\ w_objs w2 = ∅ /\
    w_trace w2 = t /\ forall l, fds_after l t = Some (left_open c l).
Proof.
  refine (@connect_then_free no_strerror (lit "127.0.0.1") 6379 (set_os (replicate 10 (answer 3)) world0) _ _ _).
  - reflexivity.
  - cbn. lia.
  - intros a os [= <- <-]. reflexivity.
Defined.
