(* ===== verification/Async.v ===== *)
(** The asynchronous client ([hiredis-win32-master/async.c] and [async.h]).

    An asynchronous context owns a non-blocking context, a queue with the
    callback of every command whose reply is still to come, and two tables
    with the callbacks of the subscriptions.  An event library calls
    [redisAsyncHandleRead] and [redisAsyncHandleWrite] when the socket is ready;
    replies are handed to the callbacks in the order of the commands.

    The functions the user installs are the class [UserCode]: a callback gets
    the context and returns it, changed by the operations of this file that it
    called.  Operations that may release the context return [None] when they
    did. *)

From stdpp Require Import base tactics list numbers strings gmap.
From S2P Require Import Prelude Machine Printf Sds Reply Reader Dict Format Net Context.

Local Open Scope Z_scope.

(** * Data ([async.h]) *)

Record redisCallback := mkCallback {
  cb_next : option loc;
  cb_fn : option Z;
  cb_privdata : Z
}.

Record redisCallbackList := mkList { cl_head : option loc; cl_tail : option loc }.

(** The hooks of the event library; a function is known by its number. *)
Record events := mkEvents {
  ev_data : Z;
  ev_fn : hook -> option Z
}.

#[export] Instance sdshdr_eq_dec : EqDecision sdshdr.
Proof. solve_decision. Defined.

(** [ac_errstr] tells whether [ac->errstr] points to [c.errstr] or is NULL;
    [ac_nodes] is the part of the heap with the nodes of the callback lists. *)
Record redisAsyncContext := mkAsync {
  ac_c : redisContext;
  ac_err : Z;
  ac_errstr : bool;
  ac_ev : events;
  ac_onDisconnect : option Z;
  ac_onConnect : option Z;
  ac_replies : redisCallbackList;
  ac_invalid : redisCallbackList;
  ac_channels : dict sdshdr redisCallback;
  ac_patterns : dict sdshdr redisCallback;
  ac_nodes : gmap loc redisCallback
}.

Definition set_ac_c (c : redisContext) (ac : redisAsyncContext) : redisAsyncContext :=
  mkAsync c (ac_err ac) (ac_errstr ac) (ac_ev ac) (ac_onDisconnect ac) (ac_onConnect ac)
    (ac_replies ac) (ac_invalid ac) (ac_channels ac) (ac_patterns ac) (ac_nodes ac).
Definition set_ac_err (e : Z) (s : bool) (ac : redisAsyncContext) : redisAsyncContext :=
  mkAsync (ac_c ac) e s (ac_ev ac) (ac_onDisconnect ac) (ac_onConnect ac)
    (ac_replies ac) (ac_invalid ac) (ac_channels ac) (ac_patterns ac) (ac_nodes ac).
Definition set_onConnect (f : option Z) (ac : redisAsyncContext) : redisAsyncContext :=
  mkAsync (ac_c ac) (ac_err ac) (ac_errstr ac) (ac_ev ac) (ac_onDisconnect ac) f
    (ac_replies ac) (ac_invalid ac) (ac_channels ac) (ac_patterns ac) (ac_nodes ac).
Definition set_onDisconnect (f : option Z) (ac : redisAsyncContext) : redisAsyncContext :=
  mkAsync (ac_c ac) (ac_err ac) (ac_errstr ac) (ac_ev ac) f (ac_onConnect ac)
    (ac_replies ac) (ac_invalid ac) (ac_channels ac) (ac_patterns ac) (ac_nodes ac).
Definition set_replies (l : redisCallbackList) (h : gmap loc redisCallback) (ac : redisAsyncContext)
  : redisAsyncContext :=
  mkAsync (ac_c ac) (ac_err ac) (ac_errstr ac) (ac_ev ac) (ac_onDisconnect ac) (ac_onConnect ac)
    l (ac_invalid ac) (ac_channels ac) (ac_patterns ac) h.
Definition set_invalid (l : redisCallbackList) (h : gmap loc redisCallback) (ac : redisAsyncContext)
  : redisAsyncContext :=
  mkAsync (ac_c ac) (ac_err ac) (ac_errstr ac) (ac_ev ac) (ac_onDisconnect ac) (ac_onConnect ac)
    (ac_replies ac) l (ac_channels ac) (ac_patterns ac) h.
Definition set_subs (pvariant : bool) (d : dict sdshdr redisCallback) (ac : redisAsyncContext)
  : redisAsyncContext :=
  mkAsync (ac_c ac) (ac_err ac) (ac_errstr ac) (ac_ev ac) (ac_onDisconnect ac) (ac_onConnect ac)
    (ac_replies ac) (ac_invalid ac) (if pvariant then ac_channels ac else d)
    (if pvariant then d else ac_patterns ac) (ac_nodes ac).

(** The table of patterns or of channels. *)
Definition subs (pvariant : bool) (ac : redisAsyncContext) : dict sdshdr redisCallback :=
  if pvariant then ac_patterns ac else ac_channels ac.

(** [c->flags |= f], [c->flags &= ~f] and [c->flags & f]. *)
Definition or_flag (f : Z) (ac : redisAsyncContext) : redisAsyncContext :=
  set_ac_c (set_c_flags (Z.lor (c_flags (ac_c ac)) f) (ac_c ac)) ac.
Definition clear_flag (f : Z) (ac : redisAsyncContext) : redisAsyncContext :=
  set_ac_c (set_c_flags (Z.land (c_flags (ac_c ac)) (Z.lnot f)) (ac_c ac)) ac.
Definition ac_flag (ac : redisAsyncContext) (f : Z) : bool := has_flag (ac_c ac) f.

(** * The functions of the user *)

Class UserCode := {
  call_fn : Z -> redisAsyncContext -> option objptr -> Z -> M redisAsyncContext;
  call_connect : Z -> redisAsyncContext -> Z -> M redisAsyncContext;
  call_disconnect : Z -> redisAsyncContext -> Z -> M unit
}.

(** The macros [_EL_ADD_READ] to [_EL_CLEANUP]. *)
Definition run_hook (h : hook) (ac : redisAsyncContext) : M unit :=
  match ev_fn (ac_ev ac) h with
  | Some f => log (CallHook h f (ev_data (ac_ev ac))) 0
  | None => ret tt
  end.

(** * The tables of subscriptions *)

Definition callbackHash (key : sdshdr) : outcome Z := dictGenHashFunction (sh_buf key) (int (sdslen key)).

Definition callbackValDup (privdata : Z) (src : redisCallback) : M redisCallback :=
  let* ok := alloc_block in
  if ok : bool then ret src else crash NullDeref.

Definition callbackKeyCompare (privdata : Z) (key1 key2 : sdshdr) : outcome bool :=
  let l1 := int (sdslen key1) in
  let l2 := int (sdslen key2) in
  if negb (l1 =? l2) then Ok false
  else
    match mem_read (sh_buf key1) 0 l1, mem_read (sh_buf key2) 0 l1 with
    | Ok a, Ok b => Ok (memcmp a b =? 0)
    | Fault e, _ | _, Fault e => Fault e
    end.

Definition callbackKeyDestructor (privdata : Z) (key : sdshdr) : M unit := sdsfree (Some key).
Definition callbackValDestructor (privdata : Z) (val : redisCallback) : M unit := free.

Definition callbackDict : dictType sdshdr redisCallback :=
  mkType callbackHash None (Some callbackValDup) (Some callbackKeyCompare)
    (Some callbackKeyDestructor) (Some callbackValDestructor).

(** * Creation *)

Definition no_events : events := mkEvents 0 (fun _ => None).
Definition empty_list : redisCallbackList := mkList None None.

Definition redisAsyncInitialize (c : redisContext) : M redisAsyncContext :=
  let* ok := realloc_block true in
  if negb ok then crash NullDeref
  else
    let c := set_c_flags (Z.land (c_flags c) (Z.lnot REDIS_CONNECTED)) c in
    let* channels := dictCreate callbackDict 0 in
    let* patterns := dictCreate callbackDict 0 in
    ret (mkAsync c 0 false no_events None None empty_list empty_list channels patterns ∅).

Definition __redisAsyncCopyError (ac : redisAsyncContext) : redisAsyncContext :=
  set_ac_err (c_err (ac_c ac)) true ac.

(** * Callback lists *)

(** The list and the heap after [__redisPushCallback]; [source] is not NULL in
    any call. *)
Definition __redisPushCallback (l : redisCallbackList) (h : gmap loc redisCallback) (source : redisCallback)
  : M (redisCallbackList * gmap loc redisCallback) :=
  let* ok := alloc_block in
  if negb ok then crash NullDeref
  else
    let* cb := (fun w => Ok (w_next w, set_next (S (w_next w)) w)) in
    let h := <[cb := mkCallback None (cb_fn source) (cb_privdata source)]> h in
    let head := match cl_head l with None => Some cb | Some a => Some a end in
    let* h := match cl_tail l with
              | Some a =>
                  let* t := match h !! a with Some t => ret t | None => crash UseAfterFree end in
                  ret (<[a := mkCallback (Some cb) (cb_fn t) (cb_privdata t)]> h)
              | None => ret h
              end in
    ret (mkList head (Some cb), h).

(** The callback taken out, if any. *)
Definition __redisShiftCallback (l : redisCallbackList) (h : gmap loc redisCallback)
  : M (option redisCallback * redisCallbackList * gmap loc redisCallback) :=
  match cl_head l with
  | Some a =>
      let* cb := match h !! a with Some cb => ret cb | None => crash UseAfterFree end in
      let tail := if bool_decide (cl_tail l = Some a) then None else cl_tail l in
      let* _ := free in
      ret (Some cb, mkList (cb_next cb) tail, delete a h)
  | None => ret (None, l, h)
  end.

Definition shift_replies (ac : redisAsyncContext) : M (option redisCallback * redisAsyncContext) :=
  let* (cb, l, h) := __redisShiftCallback (ac_replies ac) (ac_nodes ac) in ret (cb, set_replies l h ac).
Definition shift_invalid (ac : redisAsyncContext) : M (option redisCallback * redisAsyncContext) :=
  let* (cb, l, h) := __redisShiftCallback (ac_invalid ac) (ac_nodes ac) in ret (cb, set_invalid l h ac).

(** * Arguments of a formatted command *)

(** [strchr(p, x)] as an offset into the region, from the offset [p] on. *)
Fixpoint strchr_from (s : list char) (p x : Z) : outcome (option Z) :=
  match s with
  | [] => Fault OutOfBounds
  | c :: s =>
      if c =? x then Ok (Some p)
      else if c =? NUL then Ok None
      else strchr_from s (p + 1) x
  end.

(** [strtol(s, NULL, 10)]: the digits after blanks and a sign, saturated. *)
Fixpoint strtol_digits (s : list char) (v : Z) : outcome Z :=
  match s with
  | [] => Fault OutOfBounds
  | c :: s => if isdigit c then strtol_digits s (v * 10 + (c - 48)) else Ok v
  end.
Fixpoint strtol (s : list char) : outcome Z :=
  match s with
  | [] => Fault OutOfBounds
  | c :: s' =>
      if isspace c then strtol s'
      else
        let clip r := match r with
                      | Ok v => Ok (Z.max LLONG_MIN (Z.min LLONG_MAX v))
                      | Fault e => Fault e
                      end in
        if c =? 45 then clip (match strtol_digits s' 0 with Ok v => Ok (- v) | Fault e => Fault e end)
        else if c =? 43 then clip (strtol_digits s' 0)
        else clip (strtol_digits s 0)
  end.

(** The offsets of the argument and of what follows it, and its length. *)
Definition nextArgument (cmd : list char) (start : Z) : M (option (Z * Z * Z)) :=
  let* c := lift (mem_get cmd start) in
  let* p := (if negb (c =? 36) then lift (strchr_from (drop (Z.to_nat start) cmd) start 36)
             else ret (Some start)) in
  match p with
  | None => ret None
  | Some p =>
      let* n := lift (strtol (drop (Z.to_nat (p + 1)) cmd)) in
      let len := size_t (int n) in
      let* q := lift (strchr_from (drop (Z.to_nat p) cmd) p CR) in
      let* _ := assert_ (match q with Some _ => true | None => false end) in
      let* q := deref q in
      ret (Some (q + 2, len, q + 2 + len + 2))
  end.

(** [strncasecmp(a, b, n) == 0] and [strcasecmp(a, b) == 0]. *)
Fixpoint strncaseeq (n : nat) (a b : list char) : outcome bool :=
  match n with
  | O => Ok true
  | S n =>
      match a, b with
      | x :: a, y :: b =>
          if negb (tolower x =? tolower y) then Ok false
          else if x =? NUL then Ok true
          else strncaseeq n a b
      | _, _ => Fault OutOfBounds
      end
  end.
Definition strcaseeq (a b : list char) : outcome bool := strncaseeq (length b) a b.

Section Async.
Context `{Strerror} `{FloatFmt} `{UserCode}.

(** * Connecting *)

Definition redisAsyncConnect (ip : list char) (port : Z) : M redisAsyncContext :=
  let* c := redisConnectNonBlock ip port in
  let* ac := redisAsyncInitialize c in
  ret (__redisAsyncCopyError ac).

Definition redisAsyncConnectUnix (path : list char) : M redisAsyncContext :=
  let* c := redisConnectUnixNonBlock path in
  let* ac := redisAsyncInitialize c in
  ret (__redisAsyncCopyError ac).

Definition redisAsyncSetConnectCallback (ac : redisAsyncContext) (fn : option Z)
  : M (Z * redisAsyncContext) :=
  match ac_onConnect ac with
  | None =>
      let ac := set_onConnect fn ac in
      let* _ := run_hook AddWrite ac in
      ret (REDIS_OK, ac)
  | Some _ => ret (REDIS_ERR, ac)
  end.

Definition redisAsyncSetDisconnectCallback (ac : redisAsyncContext) (fn : option Z)
  : M (Z * redisAsyncContext) :=
  match ac_onDisconnect ac with
  | None => ret (REDIS_OK, set_onDisconnect fn ac)
  | Some _ => ret (REDIS_ERR, ac)
  end.

(** * Running callbacks and releasing the context *)

Definition __redisRunCallback (ac : redisAsyncContext) (cb : redisCallback) (reply : option objptr)
  : M redisAsyncContext :=
  match cb_fn cb with
  | Some fn =>
      let ac := or_flag REDIS_IN_CALLBACK ac in
      let* w := get_world in
      let* _ := log (CallFn fn reply (cb_privdata cb) (w_objs w)) 0 in
      let* ac := call_fn fn ac reply (cb_privdata cb) in
      ret (clear_flag REDIS_IN_CALLBACK ac)
  | None => ret ac
  end.

(** [while (__redisShiftCallback(...) == REDIS_OK) __redisRunCallback(ac,&cb,NULL);] *)
Fixpoint flush_callbacks (shift : redisAsyncContext -> M (option redisCallback * redisAsyncContext))
  (fuel : nat) (ac : redisAsyncContext) : M redisAsyncContext :=
  match fuel with
  | O => crash OutOfFuel
  | S f =>
      let* (cb, ac) := shift ac in
      match cb with
      | Some cb =>
          let* ac := __redisRunCallback ac cb None in
          flush_callbacks shift f ac
      | None => ret ac
      end
  end.

(** [while ((de = dictNext(it)) != NULL) __redisRunCallback(ac,dictGetEntryVal(de),NULL);] *)
Fixpoint flush_subs (pvariant : bool) (fuel : nat) (ac : redisAsyncContext) (it : dictIterator)
  : M redisAsyncContext :=
  match fuel with
  | O => crash OutOfFuel
  | S f =>
      let* (de, it) := dictNext (subs pvariant ac) it in
      match de with
      | Some de =>
          let* ac := __redisRunCallback ac (de_val de) None in
          flush_subs pvariant f ac it
      | None => ret ac
      end
  end.

Definition release_subs (pvariant : bool) (ac : redisAsyncContext) : M redisAsyncContext :=
  let* it := dictGetIterator in
  let* ac := flush_subs pvariant (S (Z.to_nat (ht_used (subs pvariant ac)))) ac it in
  let* _ := dictReleaseIterator in
  let* _ := dictRelease (subs pvariant ac) in
  ret ac.

Definition __redisAsyncFree (ac : redisAsyncContext) : M unit :=
  let* ac := flush_callbacks shift_replies (S (size (ac_nodes ac))) ac in
  let* ac := flush_callbacks shift_invalid (S (size (ac_nodes ac))) ac in
  let* ac := release_subs false ac in
  let* ac := release_subs true ac in
  let* _ := run_hook Cleanup ac in
  let* _ := match ac_onDisconnect ac with
            | Some fn =>
                if ac_flag ac REDIS_CONNECTED then
                  let status := if ac_flag ac REDIS_FREEING then REDIS_OK
                                else if ac_err ac =? 0 then REDIS_OK else REDIS_ERR in
                  let* _ := log (CallDisconnect fn status) 0 in
                  call_disconnect fn ac status
                else ret tt
            | None => ret tt
            end in
  redisFree (ac_c ac).

Definition redisAsyncFree (ac : redisAsyncContext) : M (option redisAsyncContext) :=
  let ac := or_flag REDIS_FREEING ac in
  if negb (ac_flag ac REDIS_IN_CALLBACK) then
    let* _ := __redisAsyncFree ac in ret None
  else ret (Some ac).

Definition __redisAsyncDisconnect (ac : redisAsyncContext) : M unit :=
  let ac := __redisAsyncCopyError ac in
  let* ac :=
    (if ac_err ac =? 0 then
       let* (cb, ac) := shift_replies ac in
       let* _ := assert_ (match cb with None => true | Some _ => false end) in
       ret ac
     else ret (or_flag REDIS_DISCONNECTING ac)) in
  __redisAsyncFree ac.

Definition redisAsyncDisconnect (ac : redisAsyncContext) : M (option redisAsyncContext) :=
  let ac := or_flag REDIS_DISCONNECTING ac in
  if negb (ac_flag ac REDIS_IN_CALLBACK) && bool_decide (cl_head (ac_replies ac) = None) then
    let* _ := __redisAsyncDisconnect ac in ret None
  else ret (Some ac).

(** * Replies *)

(** [reply->element[j]], an object. *)
Definition element (r : redisReply) (j : nat) : M redisReply :=
  let* v := deref (rp_element r) in
  match v !! j with
  | Some (Some l) => get_obj l
  | Some None => crash NullDeref
  | None => crash OutOfBounds
  end.

(** [dictFind(callbacks,sname)]: a NULL key is read only by a table that is not
    empty. *)
Definition find_sub (callbacks : dict sdshdr redisCallback) (sname : option sdshdr)
  : M (option (dictEntry sdshdr redisCallback)) :=
  match sname with
  | Some key => dictFind callbacks key
  | None => if ht_size callbacks =? 0 then ret None else crash NullDeref
  end.

(** [dstcb] is indeterminate ([None]) until something is copied to it. *)
Definition __redisGetSubscribeCallback (ac : redisAsyncContext) (reply : redisReply)
  (dstcb : option redisCallback) : M (option redisCallback * redisAsyncContext) :=
  if rp_type reply =? REDIS_REPLY_ARRAY then
    let* _ := assert_ (2 <=? rp_elements reply) in
    let* e0 := element reply 0 in
    let* _ := assert_ (rp_type e0 =? REDIS_REPLY_STRING) in
    let* stype := str_of e0 in
    let* c0 := lift (mem_get stype 0) in
    let pvariant := tolower c0 =? 112 in
    let* e1 := element reply 1 in
    let* _ := assert_ (rp_type e1 =? REDIS_REPLY_STRING) in
    let* sname := sdsnewlen (rp_str e1) (size_t (rp_len e1)) in
    let* de := find_sub (subs pvariant ac) sname in
    let* (dstcb, ac) :=
      match de with
      | Some de =>
          let dst := Some (de_val de) in
          let* un := lift (strcaseeq (if pvariant then drop 1 stype else stype) (lit "unsubscribe" ++ [NUL])) in
          if un : bool then
            let* key := deref sname in
            let* (_, d) := dictDelete (subs pvariant ac) key in
            let ac := set_subs pvariant d ac in
            let* e2 := element reply 2 in
            let* _ := assert_ (rp_type e2 =? REDIS_REPLY_INTEGER) in
            ret (dst, if rp_integer e2 =? 0 then clear_flag REDIS_SUBSCRIBED ac else ac)
          else ret (dst, ac)
      | None => ret (dstcb, ac)
      end in
    let* _ := sdsfree sname in
    ret (dstcb, ac)
  else
    let* (cb, ac) := shift_invalid ac in
    ret (match cb with Some cb => Some cb | None => dstcb end, ac).

(** [c->reader->fn->freeObject(reply)]. *)
Definition free_reply (ac : redisAsyncContext) (reply : objptr) : M unit :=
  let* r := deref (c_reader (ac_c ac)) in
  let* fn := deref (r_fn r) in
  let* f := deref (fn_freeObject fn) in
  f reply.

Definition set_reply_error (ac : redisAsyncContext) (str : list char) : redisAsyncContext :=
  set_ac_c (set_c_err REDIS_ERR_OTHER (take 127 (cstring str)) (ac_c ac)) ac.

(** What is done with one reply: the context when the loop goes on with the
    callback variable, or [None] when it was released. *)
Definition process_reply (ac : redisAsyncContext) (cb : option redisCallback) (reply : objptr)
  : M (option (redisAsyncContext * option redisCallback)) :=
  let* (shifted, ac) := shift_replies ac in
  let* next :=
    match shifted with
    | Some cb => ret (Some (Some cb, ac))
    | None =>
        let* r := reply_obj reply in
        if negb (ac_flag ac REDIS_SUBSCRIBED) && (rp_type r =? REDIS_REPLY_ERROR) then
          let* str := str_of r in
          let* _ := __redisAsyncDisconnect (set_reply_error ac str) in
          ret None
        else
          let* _ := assert_ (ac_flag ac REDIS_SUBSCRIBED) in
          let* (cb, ac) := __redisGetSubscribeCallback ac r cb in
          ret (Some (cb, ac))
    end in
  match next with
  | None => ret None
  | Some (cb, ac) =>
      match cb with
      | None => crash Uninitialised
      | Some cb1 =>
          match cb_fn cb1 with
          | Some _ =>
              let* ac := __redisRunCallback ac cb1 (Some reply) in
              let* _ := free_reply ac reply in
              if ac_flag ac REDIS_FREEING then
                let* _ := __redisAsyncFree ac in ret None
              else ret (Some (ac, cb))
          | None =>
              let* _ := free_reply ac reply in
              ret (Some (ac, cb))
          end
      end
  end.

(** [while((status = redisGetReply(c,&reply)) == REDIS_OK)]: every reply takes
    bytes out of the reader. *)
Fixpoint process_loop (fuel : nat) (ac : redisAsyncContext) (cb : option redisCallback)
  : M (option redisAsyncContext) :=
  match fuel with
  | O => crash OutOfFuel
  | S f =>
      let* (status, reply, c) := redisGetReply (ac_c ac) in
      let ac := set_ac_c c ac in
      if negb (status =? REDIS_OK) then
        let* _ := __redisAsyncDisconnect ac in ret None
      else
        match reply with
        | None =>
            if ac_flag ac REDIS_DISCONNECTING then
              let* obuf := deref (c_obuf (ac_c ac)) in
              if sdslen obuf =? 0 then
                let* _ := __redisAsyncDisconnect ac in ret None
              else ret (Some ac)
            else ret (Some ac)
        | Some reply =>
            let* next := process_reply ac cb reply in
            match next with
            | None => ret None
            | Some (ac, cb) => process_loop f ac cb
            end
        end
  end.

Definition redisProcessCallbacks (ac : redisAsyncContext) : M (option redisAsyncContext) :=
  let* r := deref (c_reader (ac_c ac)) in
  process_loop (S (S (Z.to_nat (r_len r)))) ac None.

(** * Events *)

Definition __redisAsyncHandleConnect (ac : redisAsyncContext) : M (Z * option redisAsyncContext) :=
  let* (st, c) := redisCheckSocketError (ac_c ac) (c_fd (ac_c ac)) in
  let ac := set_ac_c c ac in
  if st =? REDIS_ERR then
    let* e := errno in
    if e =? EINPROGRESS then ret (REDIS_OK, Some ac)
    else
      let* ac := match ac_onConnect ac with
                 | Some fn => let* _ := log (CallConnect fn REDIS_ERR) 0 in call_connect fn ac REDIS_ERR
                 | None => ret ac
                 end in
      let* _ := __redisAsyncDisconnect ac in
      ret (REDIS_ERR, None)
  else
    let ac := or_flag REDIS_CONNECTED ac in
    let* ac := match ac_onConnect ac with
               | Some fn => let* _ := log (CallConnect fn REDIS_OK) 0 in call_connect fn ac REDIS_OK
               | None => ret ac
               end in
    ret (REDIS_OK, Some ac).

(** The part shared by the two handlers: the context when they go on, and the
    result when they return at once. *)
Definition ensure_connected (ac : redisAsyncContext)
  : M (redisAsyncContext + option redisAsyncContext) :=
  if negb (ac_flag ac REDIS_CONNECTED) then
    let* (st, ac') := __redisAsyncHandleConnect ac in
    match ac' with
    | Some ac1 =>
        if negb (st =? REDIS_OK) then ret (inr ac')
        else if negb (ac_flag ac1 REDIS_CONNECTED) then ret (inr ac')
        else ret (inl ac1)
    | None => ret (inr ac')
    end
  else ret (inl ac).

Definition redisAsyncHandleRead (ac : redisAsyncContext) : M (option redisAsyncContext) :=
  let* r := ensure_connected ac in
  match r with
  | inr stop => ret stop
  | inl ac =>
      let* (st, c) := redisBufferRead (ac_c ac) in
      let ac := set_ac_c c ac in
      if st =? REDIS_ERR then
        let* _ := __redisAsyncDisconnect ac in ret None
      else
        let* _ := run_hook AddRead ac in
        redisProcessCallbacks ac
  end.

Definition redisAsyncHandleWrite (ac : redisAsyncContext) : M (option redisAsyncContext) :=
  let* r := ensure_connected ac in
  match r with
  | inr stop => ret stop
  | inl ac =>
      let* (st, c, done) := redisBufferWrite (ac_c ac) in
      let ac := set_ac_c c ac in
      if st =? REDIS_ERR then
        let* _ := __redisAsyncDisconnect ac in ret None
      else
        let* _ := run_hook (if negb done then AddWrite else DelWrite) ac in
        let* _ := run_hook AddRead ac in
        ret (Some ac)
  end.

(** * Commands *)

(** [while ((p = nextArgument(p,&astr,&alen)) != NULL)]: every argument takes
    bytes of the command. *)
Fixpoint subscribe_loop (fuel : nat) (ac : redisAsyncContext) (cmd : list char) (p : Z)
  (pvariant : bool) (cb : redisCallback) : M redisAsyncContext :=
  match fuel with
  | O => crash OutOfFuel
  | S f =>
      let* arg := nextArgument cmd p in
      match arg with
      | None => ret ac
      | Some (astr, alen, p) =>
          let* sname := sdsnewlen (Some (drop (Z.to_nat astr) cmd)) alen in
          let* sname := deref sname in
          let* (_, d) := dictReplace (subs pvariant ac) sname cb in
          subscribe_loop f (set_subs pvariant d ac) cmd p pvariant cb
      end
  end.

(** [cmd] is the block with the command and its NUL. *)
Definition __redisAsyncCommand (ac : redisAsyncContext) (fn : option Z) (privdata : Z)
  (cmd : list char) (len : Z) : M (Z * redisAsyncContext) :=
  if ac_flag ac (Z.lor REDIS_DISCONNECTING REDIS_FREEING) then ret (REDIS_ERR, ac)
  else
    let cb := mkCallback None fn privdata in
    let* arg := nextArgument cmd 0 in
    let* _ := assert_ (match arg with Some _ => true | None => false end) in
    let* (cstr, _, p) := deref arg in
    let* c := lift (mem_get cmd p) in
    let hasnext := c =? 36 in
    let* c0 := lift (mem_get cmd cstr) in
    let pvariant := tolower c0 =? 112 in
    let cstr := if pvariant then cstr + 1 else cstr in
    let name := drop (Z.to_nat cstr) cmd in
    let* is_sub := (if hasnext then lift (strncaseeq 11 name (lit "subscribe" ++ CRLF)) else ret false) in
    let* next :=
      (if is_sub : bool then
         let ac := or_flag REDIS_SUBSCRIBED ac in
         let* ac := subscribe_loop (S (length cmd)) ac cmd p pvariant cb in
         ret (Some ac)
       else
         let* is_unsub := lift (strncaseeq 13 name (lit "unsubscribe" ++ CRLF)) in
         if is_unsub : bool then
           ret (if negb (ac_flag ac REDIS_SUBSCRIBED) then None else Some ac)
         else if ac_flag ac REDIS_SUBSCRIBED then
           let* (l, h) := __redisPushCallback (ac_invalid ac) (ac_nodes ac) cb in
           ret (Some (set_invalid l h ac))
         else
           let* (l, h) := __redisPushCallback (ac_replies ac) (ac_nodes ac) cb in
           ret (Some (set_replies l h ac))) in
    match next with
    | None => ret (REDIS_ERR, ac)
    | Some ac =>
        let* (_, c) := __redisAppendCommand (ac_c ac) cmd len in
        let ac := set_ac_c c ac in
        let* _ := run_hook AddWrite ac in
        ret (REDIS_OK, ac)
    end.

(** The result of formatting is not tested: on failure [cmd] is indeterminate. *)
Definition async_formatted (ac : redisAsyncContext) (fn : option Z) (privdata : Z)
  (formatted : Z * option (list char)) : M (Z * redisAsyncContext) :=
  let (len, cmd) := formatted in
  match cmd with
  | None => crash Uninitialised
  | Some cmd =>
      let* (status, ac) := __redisAsyncCommand ac fn privdata cmd (size_t len) in
      let* _ := free in
      ret (status, ac)
  end.

Definition redisvAsyncCommand (ac : redisAsyncContext) (fn : option Z) (privdata : Z)
  (format : list char) (ap : va_list) : M (Z * redisAsyncContext) :=
  let* f := redisvFormatCommand true format ap in async_formatted ac fn privdata f.

Definition redisAsyncCommand (ac : redisAsyncContext) (fn : option Z) (privdata : Z)
  (format : list char) (args : va_list) : M (Z * redisAsyncContext) :=
  redisvAsyncCommand ac fn privdata format args.

Definition redisAsyncCommandArgv (ac : redisAsyncContext) (fn : option Z) (privdata : Z)
  (argc : Z) (argv : list (list char)) (argvlen : option (list Z)) : M (Z * redisAsyncContext) :=
  let* f := redisFormatCommandArgv argc argv argvlen in async_formatted ac fn privdata f.
End Async.
