(* ===== verification/AsyncSpec.v ===== *)
(** The parts of the asynchronous client: its callback lists are queues, its
    tables of subscriptions are finite maps from channel names, and the scanner
    of formatted commands finds their arguments. *)

From stdpp Require Import base tactics list numbers strings gmap.
From S2P Require Import Prelude Machine Printf Sds Reply Reader ReaderSpec ReaderStream ReplyTree.
From S2P Require Import Dict Format Net Context Session Async.

Local Open Scope Z_scope.

(** * Callback lists are queues *)

(** A callback as the user gave it. *)
Abbreviation callback := (option Z * Z)%type (only parsing).
Definition node (next : option loc) (x : callback) : redisCallback := mkCallback next x.1 x.2.

(** The nodes at the addresses [addrs] hold the callbacks [q], each pointing to
    the next. *)
Fixpoint chain (h : gmap loc redisCallback) (addrs : list loc) (q : list callback) : Prop :=
  match addrs, q with
  | [], [] => True
  | a :: addrs, x :: q => h !! a = Some (node (head addrs) x) /\ chain h addrs q
  | _, _ => False
  end.

(** The list [l] has the callbacks [q], in nodes at the addresses [addrs]. *)
Record queue (h : gmap loc redisCallback) (l : redisCallbackList) (addrs : list loc) (q : list callback)
  : Prop := {
  q_head : cl_head l = head addrs;
  q_tail : cl_tail l = last addrs;
  q_chain : chain h addrs q;
  q_nodup : NoDup addrs
}.

Lemma queue_empty h : queue h empty_list [] [].
Proof. split; try done. constructor. Qed.

Lemma chain_frame h h' addrs q :
  chain h addrs q -> (forall a, a ∈ addrs -> h' !! a = h !! a) -> chain h' addrs q.
Proof.
  revert q. induction addrs as [|a addrs IH]; intros [|x q] Hc Heq; try done. destruct Hc as [Ha Hc].
  split; [rewrite Heq by set_solver; done|]. apply IH; [done|]. intros b Hb. apply Heq. set_solver.
Qed.

(** Only the nodes of the list matter. *)
Lemma queue_frame h h' l addrs q :
  queue h l addrs q -> (forall a, a ∈ addrs -> h' !! a = h !! a) -> queue h' l addrs q.
Proof. intros [Hh Ht Hc Hd] Heq. split; try done. by eapply chain_frame. Qed.

Lemma chain_length h addrs q : chain h addrs q -> length addrs = length q.
Proof.
  revert q. induction addrs as [|a addrs IH]; intros [|x q] Hc; try done. cbn. f_equal. by apply IH, Hc.
Qed.

(** Linking a node behind the last one. *)
Lemma chain_link h addrs a q x y n :
  chain h (addrs ++ [a]) (q ++ [x]) -> length q = length addrs -> NoDup (addrs ++ [a]) -> n ∉ addrs ++ [a] ->
  h !! a = Some (node None x) /\
  chain (<[a := node (Some n) x]> (<[n := node None y]> h)) (addrs ++ [a; n]) (q ++ [x; y]).
Proof.
  revert q. induction addrs as [|b addrs IH]; intros [|z q] Hc Hl Hd Hn; try done; cbn in *.
  - destruct Hc as [Ha _]. rewrite lookup_insert_eq, lookup_insert_ne, lookup_insert_eq by set_solver. done.
  - destruct Hc as [Hb Hc]. apply NoDup_cons in Hd as [Hba Hd].
    destruct (IH q Hc ltac:(lia) Hd ltac:(set_solver)) as [Ha Hc']. split_and!; [done| |done].
    rewrite !lookup_insert_ne by set_solver. rewrite Hb. by destruct addrs.
Qed.

Definition push_world (w : world) : world := set_next (S (w_next w)) (add_live 1 w).

Lemma push_ok h l addrs q src w :
  no_oom w -> queue h l addrs q -> (forall a, a ∈ addrs -> (a < w_next w)%nat) ->
  exists l' h', __redisPushCallback l h src w = Ok (l', h', push_world w) /\
    queue h' l' (addrs ++ [w_next w]) (q ++ [(cb_fn src, cb_privdata src)]) /\
    (forall a, a ∉ addrs -> a <> w_next w -> h' !! a = h !! a) /\
    dom h' = {[w_next w]} ∪ dom h.
Proof.
  intros Hw [Hh Ht Hc Hd] Hlt. unfold __redisPushCallback.
  rewrite (bind_ok _ _ _ _ _ (alloc_block_no_oom w Hw)). cbn [negb].
  set (n := w_next w). set (y := (cb_fn src, cb_privdata src)).
  change (mkCallback None (cb_fn src) (cb_privdata src)) with (node None y).
  assert (n ∉ addrs) as Hfresh by (intros Hin; specialize (Hlt _ Hin); unfold n in *; lia).
  erewrite (bind_ok (fun w0 : world => _)) by reflexivity. change (w_next (add_live 1 w)) with n. fold (push_world w).
  destruct addrs as [|a0 addrs0 _] using rev_ind.
  - destruct q; [|done]. rewrite Ht, Hh. cbn [last head]. rewrite (bind_ok (ret _)) with (1 := eq_refl).
    eexists _, _. split; [reflexivity|]. split_and!; [|intros a _ Hne; by apply lookup_insert_ne|by rewrite dom_insert_L].
    split; try done; [by split; [rewrite lookup_insert_eq|]|apply NoDup_singleton].
  - rewrite Ht, last_snoc. pose proof (chain_length _ _ _ Hc) as Hlen. rewrite length_app in Hlen. cbn in Hlen.
    destruct q as [|x q0 _] using rev_ind; [cbn in Hlen; lia|]. rewrite length_app in Hlen. cbn in Hlen.
    destruct (chain_link h addrs0 a0 q0 x y n Hc ltac:(lia) Hd Hfresh) as [Ha0 Hc'].
    assert (n <> a0) as Hna by (intros ->; set_solver).
    rewrite lookup_insert_ne, Ha0 by done. rewrite bind_assoc, (bind_ok (ret _)) with (1 := eq_refl).
    rewrite (bind_ok (ret _)) with (1 := eq_refl). cbn [node cb_fn cb_privdata].
    eexists _, _. split; [reflexivity|]. split_and!.
    + split; [cbn; rewrite Hh; by destruct addrs0|cbn [cl_tail]; by rewrite last_snoc| |].
      * rewrite <- !app_assoc. exact Hc'.
      * apply NoDup_app. split_and!; [done| |apply NoDup_singleton]. intros z Hz ->%list_elem_of_singleton. done.
    + intros a Ha Hne. rewrite !lookup_insert_ne; [done|done|]. intros ->. set_solver.
    + rewrite !dom_insert_L. assert (a0 ∈ dom h) by (by apply elem_of_dom). set_solver.
Qed.

Lemma shift_ok h l a addrs x q w :
  queue h l (a :: addrs) (x :: q) ->
  exists l', __redisShiftCallback l h w = Ok (Some (node (head addrs) x), l', delete a h, add_live (-1) w) /\
    queue (delete a h) l' addrs q.
Proof.
  intros [Hh Ht [Ha Hc] Hd]. unfold __redisShiftCallback. rewrite Hh. cbn [head]. rewrite Ha.
  rewrite (bind_ok (ret _)) with (1 := eq_refl), (bind_ok free) with (1 := eq_refl).
  eexists. split; [reflexivity|]. apply NoDup_cons in Hd as [Ha' Hd].
  split; [done| | |done].
  - cbn [cl_tail]. rewrite Ht. destruct addrs as [|b addrs _] using rev_ind; cbn [last].
    + by rewrite bool_decide_true.
    + rewrite app_comm_cons, last_snoc. rewrite bool_decide_false; [by rewrite last_snoc|].
      intros [= ->]. set_solver.
  - eapply chain_frame; [done|]. intros b Hb. apply lookup_delete_ne. set_solver.
Qed.

Lemma shift_empty h l q w :
  queue h l [] q -> __redisShiftCallback l h w = Ok (None, l, h, w).
Proof. intros [Hh _ _ _]. unfold __redisShiftCallback. by rewrite Hh. Qed.

(** ** Sequences of operations *)

Inductive queue_op := QPush (x : callback) | QShift.

(** The callbacks taken out. *)
Fixpoint run_queue (ops : list queue_op) (l : redisCallbackList) (h : gmap loc redisCallback)
  : M (list callback * redisCallbackList * gmap loc redisCallback) :=
  match ops with
  | [] => ret ([], l, h)
  | QPush x :: ops =>
      let* (l, h) := __redisPushCallback l h (node None x) in
      run_queue ops l h
  | QShift :: ops =>
      let* (cb, l, h) := __redisShiftCallback l h in
      let* (out, l, h) := run_queue ops l h in
      ret (match cb with Some cb => (cb_fn cb, cb_privdata cb) :: out | None => out end, l, h)
  end.

(** The same on a list. *)
Fixpoint fifo (ops : list queue_op) (q : list callback) : list callback * list callback :=
  match ops with
  | [] => ([], q)
  | QPush x :: ops => fifo ops (q ++ [x])
  | QShift :: ops =>
      match q with
      | [] => fifo ops []
      | x :: q => let r := fifo ops q in (x :: r.1, r.2)
      end
  end.

Lemma run_queue_ok ops h l addrs q w :
  no_oom w -> queue h l addrs q -> (forall a, a ∈ addrs -> (a < w_next w)%nat) ->
  exists l' h' addrs' w', let r := fifo ops q in
    run_queue ops l h w = Ok (r.1, l', h', w') /\ queue h' l' addrs' r.2 /\
    w_live w' - w_live w = zlen r.2 - zlen q.
Proof.
  revert h l addrs q w. induction ops as [|[x|] ops IH]; intros h l addrs q w Hw Hq Hlt; cbn [run_queue fifo].
  - exists l, h, addrs, w. split_and!; [done|done|cbn; lia].
  - destruct (push_ok h l addrs q (node None x) w Hw Hq Hlt) as (l1 & h1 & E & Hq1 & _ & _).
    rewrite (bind_ok _ _ _ _ _ E). cbn [node cb_fn cb_privdata] in Hq1. rewrite <- surjective_pairing in Hq1.
    destruct (IH h1 l1 _ _ (push_world w) Hw Hq1) as (l2 & h2 & addrs2 & w2 & E2 & Hq2 & Hl2).
    { intros a [Ha| ->%list_elem_of_singleton]%elem_of_app; cbn; [specialize (Hlt _ Ha)|]; lia. }
    exists l2, h2, addrs2, w2. split_and!; [done|done|]. cbn in Hl2. rewrite length_app in Hl2. cbn in Hl2. lia.
  - destruct addrs as [|a addrs].
    + assert (q = []) as -> by (destruct q; [done|by destruct Hq]).
      rewrite (bind_ok _ _ _ _ _ (shift_empty h l [] w Hq)).
      destruct (IH h l [] [] w Hw Hq Hlt) as (l2 & h2 & addrs2 & w2 & E2 & Hq2 & Hl2).
      exists l2, h2, addrs2, w2. by rewrite (bind_ok _ _ _ _ _ E2).
    + destruct q as [|x q]; [by destruct Hq|].
      destruct (shift_ok h l a addrs x q w Hq) as (l1 & E & Hq1). rewrite (bind_ok _ _ _ _ _ E).
      destruct (IH (delete a h) l1 addrs q (add_live (-1) w) Hw Hq1) as (l2 & h2 & addrs2 & w2 & E2 & Hq2 & Hl2).
      { intros b Hb. apply Hlt. set_solver. }
      exists l2, h2, addrs2, w2. rewrite (bind_ok _ _ _ _ _ E2). cbn [node cb_fn cb_privdata].
      rewrite <- surjective_pairing. split_and!; [done|done|]. cbn in *. lia.
Qed.

(** * Arguments of a formatted command *)

Lemma strchr_from_found s rest x p :
  Forall (fun c => c <> x /\ c <> NUL) s ->
  strchr_from (s ++ x :: rest) p x = Ok (Some (p + zlen s)).
Proof.
  intros Hs. revert p. induction Hs as [|c s [Hx Hn] _ IH]; intros p; cbn [strchr_from app length].
  - rewrite Z.eqb_refl. do 2 f_equal. cbn. lia.
  - rewrite (proj2 (Z.eqb_neq _ _) Hx), (proj2 (Z.eqb_neq _ _) Hn), IH. do 2 f_equal. lia.
Qed.

Lemma strtol_digits_dec s v rest :
  Forall (fun c => 48 <= c <= 57) s -> strtol_digits (s ++ CR :: rest) v = Ok (dec_value_from v s).
Proof.
  intros Hs. revert v. induction Hs as [|c s Hc _ IH]; intros v; cbn [strtol_digits app].
  - done.
  - unfold isdigit. btrue ((48 <=? c) && (c <=? 57)). by rewrite IH.
Qed.

Lemma strtol_dec z rest : 0 <= z <= LLONG_MAX -> strtol (dec z ++ CR :: rest) = Ok z.
Proof.
  intros Hz. pose proof (dec_isdigit z ltac:(lia)) as Hd. pose proof (dec_nonempty z) as Hne.
  pose proof (dec_value_dec z ltac:(lia)) as Hv. destruct (dec z) as [|c s]; [done|].
  pose proof (Forall_inv Hd) as Hc. cbn [app strtol]. unfold isspace.
  bfalse ((c =? 32) || ((9 <=? c) && (c <=? 13))). bfalse (c =? 45). bfalse (c =? 43).
  pose proof (strtol_digits_dec (c :: s) 0 rest Hd) as E. cbn [app] in E. rewrite E. fold (dec_value (c :: s)). rewrite Hv. do 2 f_equal. climits.
Qed.

Lemma dec_plain z : 0 <= z -> Forall (fun c => c <> CR /\ c <> NUL) (dec z).
Proof. intros Hz. eapply Forall_impl; [by apply dec_isdigit|]. unfold CR, NUL. cbn. lia. Qed.

Lemma drop_zlen {A} (a b : list A) p : p = zlen a -> drop (Z.to_nat p) (a ++ b) = b.
Proof. intros ->. by rewrite Nat2Z.id, drop_app_length. Qed.

(** Where the bytes of an argument are, behind its [$] and its length. *)
Definition bulk_offset (s : list char) : Z := 1 + zlen (dec (zlen s)) + 2.

(** From anywhere before an argument with no [$] and no NUL in between. *)
Lemma nextArgument_ok pre skip s rest w :
  Forall (fun c => c <> 36 /\ c <> NUL) skip -> zlen s <= INT_MAX ->
  let cmd := pre ++ skip ++ bulk s ++ rest in
  let p := zlen (pre ++ skip) in
  nextArgument cmd (zlen pre) w = Ok (Some (p + bulk_offset s, zlen s, p + zlen (bulk s)), w) /\
  drop (Z.to_nat (p + bulk_offset s)) cmd = s ++ CRLF ++ rest.
Proof.
  intros Hskip Hs cmd p.
  assert (bulk s = 36 :: dec (zlen s) ++ CRLF ++ s ++ CRLF) as Hb.
  { unfold bulk. cbn [encode]. by rewrite dec_signed_nonneg by lia. }
  set (body := dec (zlen s) ++ CRLF ++ s ++ CRLF ++ rest).
  assert (cmd = (pre ++ skip) ++ 36 :: body) as Hcmd.
  { unfold cmd, body. rewrite Hb. cbn [app]. by rewrite <- !app_assoc. }
  assert (strtol (drop (Z.to_nat (p + 1)) cmd) = Ok (zlen s)) as Hnum.
  { rewrite Hcmd. change (36 :: body) with ([36] ++ body). rewrite app_assoc, drop_zlen.
    - unfold body. apply strtol_dec. climits.
    - rewrite !length_app. unfold p. rewrite length_app. cbn. lia. }
  assert (strchr_from (drop (Z.to_nat p) cmd) p CR = Ok (Some (p + zlen (36 :: dec (zlen s))))) as Hcr.
  { rewrite Hcmd, drop_zlen by done. unfold body.
    apply (strchr_from_found (36 :: dec (zlen s)) (LF :: s ++ CRLF ++ rest) CR p).
    constructor; [done|]. apply dec_plain. lia. }
  assert ((let* c := lift (mem_get cmd (zlen pre)) in
           if negb (c =? 36) then lift (strchr_from (drop (Z.to_nat (zlen pre)) cmd) (zlen pre) 36)
           else ret (Some (zlen pre))) w = Ok (Some p, w)) as Hp.
  { rewrite Hcmd. unfold p. destruct skip as [|y skip].
    - rewrite app_nil_r. lift_step (mem_get_app pre 36 body (zlen pre) eq_refl). done.
    - rewrite <- app_assoc. cbn [app].
      lift_step (mem_get_app pre y (skip ++ 36 :: body) (zlen pre) eq_refl).
      destruct (Forall_inv Hskip) as [Hy _]. rewrite (proj2 (Z.eqb_neq _ _) Hy). cbn [negb].
      rewrite drop_zlen by done. rewrite app_comm_cons, (strchr_from_found (y :: skip)) by done.
      cbn [lift]. rewrite length_app. unfold lift. do 4 f_equal. lia. }
  split.
  - unfold nextArgument.
    assert (forall B (k : option Z -> M B), (let* c := lift (mem_get cmd (zlen pre)) in
        let* q := if negb (c =? 36) then lift (strchr_from (drop (Z.to_nat (zlen pre)) cmd) (zlen pre) 36)
                  else ret (Some (zlen pre)) in k q) w = k (Some p) w) as Hstep.
    { intros B k. rewrite <- bind_assoc. by rewrite (bind_ok _ _ _ _ _ Hp). }
    rewrite Hstep. lift_step Hnum. lift_step Hcr. rewrite (bind_ok (assert_ true)) with (1 := eq_refl).
    erewrite (bind_ok (deref (Some _))) by reflexivity. unfold ret.
    rewrite int_id, size_t_id by climits. unfold bulk_offset. rewrite length_bulk. cbn [length].
    do 4 f_equal; [|lia]. f_equal. lia.
  - rewrite Hcmd. unfold bulk_offset.
    replace ((pre ++ skip) ++ 36 :: body)
      with (((pre ++ skip) ++ 36 :: dec (zlen s) ++ CRLF) ++ s ++ CRLF ++ rest).
    + apply drop_zlen. rewrite !length_app. unfold p. cbn [length]. rewrite !length_app. cbn. lia.
    + unfold body. rewrite <- !app_assoc. cbn [app]. by rewrite <- !app_assoc.
Qed.

(** * The tables of subscriptions *)

Lemma hash_bytes_range h s : 0 <= h < 2 ^ 32 -> 0 <= hash_bytes h s < 2 ^ 32.
Proof.
  revert h. induction s as [|c s IH]; intros h Hh; cbn [hash_bytes]; [done|]. apply IH.
  apply unsigned_range. lia.
Qed.

Lemma sds_read_str s : sds_wf s -> mem_read (sh_buf s) 0 (int (sdslen s)) = Ok (sds_str s).
Proof.
  intros Hs. pose proof (wf_max _ Hs). pose proof (wf_free _ Hs). pose proof (length_sds_str s Hs).
  rewrite int_id by (rewrite sdslen_str by done; climits). by apply sds_read_all.
Qed.

(** The keys are names; comparing and hashing see their bytes only. *)
#[export, refine] Instance callback_keys : DictKeys (list Z) callbackDict := {
  dk_valid := sds_wf;
  dk_canon := sds_str;
  dk_hash := hash_bytes 5381;
  dk_kcost := 1;
  dk_vcost := 1
}.
Proof.
  - intros c. apply hash_bytes_range. lia.
  - intros k Hk. cbn [hashFunction callbackDict]. unfold callbackHash, dictGenHashFunction. by rewrite sds_read_str.
  - intros pd k1 k2 H1 H2. cbn [keyCompare callbackDict]. unfold callbackKeyCompare.
    pose proof (sds_read_str k1 H1) as E1. pose proof (sds_read_str k2 H2) as E2.
    pose proof (wf_max _ H1). pose proof (wf_free _ H1). pose proof (wf_max _ H2). pose proof (wf_free _ H2).
    pose proof (length_sds_str k1 H1). pose proof (length_sds_str k2 H2).
    rewrite !sdslen_str, !int_id in * by (done || climits).
    destruct (Z.eqb_spec (zlen (sds_str k1)) (zlen (sds_str k2))) as [He|Hne]; cbn [negb].
    + rewrite E1, He, E2. f_equal. apply Nat2Z.inj in He. destruct (Z.eqb_spec (memcmp (sds_str k1) (sds_str k2)) 0) as [Hm|Hm].
      * rewrite bool_decide_true; [done|]. by apply memcmp_eq.
      * rewrite bool_decide_false; [done|]. intros Heq. apply Hm. by apply memcmp_eq.
    + rewrite bool_decide_false; [done|]. intros Heq. by rewrite Heq in Hne.
  - done.
  - intros pd v w Hw. cbn [valDup callbackDict]. unfold callbackValDup.
    by rewrite (bind_ok _ _ _ _ _ (alloc_block_no_oom w Hw)).
  - done.
  - done.
Defined.

(** The subscriptions of a table: the callback of each name. *)
Definition sub_map (d : dict sdshdr redisCallback) : gmap (list Z) redisCallback := dict_map callbackDict d.
Definition sub_wf (n : nat) (d : dict sdshdr redisCallback) : Prop := dict_wf callbackDict n d.

Lemma used_size n d : sub_wf n d -> ht_used d = Z.of_nat (size (sub_map d)).
Proof.
  intros Hd. pose proof (dw_used _ _ _ Hd) as ->. pose proof (dw_keys _ _ _ Hd) as Hnd.
  unfold sub_map, dict_map. f_equal.
  induction (entries d) as [|e l IH]; cbn in *; [by rewrite map_size_empty|].
  apply NoDup_cons in Hnd as [Hni Hnd]. rewrite map_size_insert_None; [by rewrite IH|].
  apply not_elem_of_list_to_map_1. by rewrite <- list_fmap_compose.
Qed.

Lemma size_insert_le {A} (m : gmap (list Z) A) k x : (size (<[k := x]> m) <= S (size m))%nat.
Proof. rewrite map_size_insert. case_match; cbn; lia. Qed.

(** Add a binding for each of the names. *)
Definition add_names (names : list (list char)) (cb : redisCallback) (m : gmap (list Z) redisCallback)
  : gmap (list Z) redisCallback := foldl (fun m s => <[s := cb]> m) m names.

(** [s] is the name, its block has [n] more bytes behind. *)
Lemma new_name s rest w :
  no_oom w -> 2 * zlen s <= INT_MAX ->
  exists b, sdsnewlen (Some (s ++ rest)) (zlen s) w = Ok (Some b, add_live 1 w) /\ sds_wf b /\ sds_str b = s.
Proof.
  intros Hw Hs. destruct (allocs_no_oom _ w 1 _ (sdsnewlen_allocs (Some (s ++ rest)) (zlen s) w ltac:(climits)
    ltac:(cbn; rewrite length_app; lia)) Hw) as (b & E & Hb & _ & Hstr).
  exists b. split_and!; [done|done|]. rewrite Hstr. cbn. by rewrite Nat2Z.id, take_app_length.
Qed.

(** The rest of the context while subscriptions are added. *)
Lemma subs_set_subs pv d ac : subs pv (set_subs pv d ac) = d.
Proof. by destruct pv. Qed.

Lemma set_subs_set_subs pv d d' ac : set_subs pv d' (set_subs pv d ac) = set_subs pv d' ac.
Proof. by destruct pv. Qed.

Lemma next_argument_end pre w : nextArgument (pre ++ [NUL]) (zlen pre) w = Ok (None, w).
Proof.
  unfold nextArgument. lift_step (mem_get_app pre NUL [] (zlen pre) eq_refl). cbn [negb NUL Z.eqb].
  by rewrite drop_zlen.
Qed.

Section subscribe.
Context `{Strerror} `{FloatFmt} `{UserCode}.

Lemma subscribe_loop_ok names fuel ac pre pv cb w :
  (length names < fuel)%nat -> no_oom w -> sub_wf (w_next w) (subs pv ac) ->
  Forall (fun s => 2 * zlen s <= INT_MAX) names ->
  Z.of_nat (size (sub_map (subs pv ac))) + zlen names < 2 ^ 30 ->
  exists d w', subscribe_loop fuel ac (pre ++ concat (bulk <$> names) ++ [NUL]) (zlen pre) pv cb w =
      Ok (set_subs pv d ac, w') /\ sub_wf (w_next w') d /\ no_oom w' /\
    w_objs w' = w_objs w /\ w_os w' = w_os w /\ w_trace w' = w_trace w /\ (w_next w <= w_next w')%nat /\
    sub_map d = add_names names cb (sub_map (subs pv ac)).
Proof.
  revert fuel ac pre w. induction names as [|s names IH]; intros fuel ac pre w Hf Hw Hd Hn Hsize;
    (destruct fuel as [|fuel]; [cbn in Hf; lia|]); cbn [subscribe_loop fmap list_fmap concat app].
  - rewrite (bind_ok _ _ _ _ _ (next_argument_end pre w)). exists (subs pv ac), w.
    split_and!; try done. unfold ret. do 3 f_equal. by destruct pv, ac.
  - apply Forall_cons in Hn as [Hs Hn]. rewrite <- app_assoc.
    destruct (nextArgument_ok pre [] s (concat (bulk <$> names) ++ [NUL]) w) as [E Hdrop]; [constructor|climits|].
    cbn [app] in E, Hdrop. rewrite app_nil_r in E, Hdrop. rewrite (bind_ok _ _ _ _ _ E). cbn beta iota.
    rewrite Hdrop. destruct (new_name s (CRLF ++ concat (bulk <$> names) ++ [NUL]) w Hw Hs) as (b & Eb & Hb & Hbs).
    rewrite (bind_ok _ _ _ _ _ Eb). erewrite (bind_ok (deref (Some b))) by reflexivity.
    destruct (dictReplace_ok callbackDict (subs pv ac) b cb (add_live 1 w)) as
      (st & d1 & w1 & Er & Hd1 & Hw1 & Ho1 & Hos1 & Ht1 & Hnx1 & _ & Hmap1); try done.
    { rewrite (used_size _ _ Hd). cbn in Hsize. lia. }
    rewrite (bind_ok _ _ _ _ _ Er). cbn beta iota. cbn in Ho1, Hos1, Ht1, Hnx1.
    change (dk_canon b) with (sds_str b) in Hmap1. rewrite Hbs in Hmap1.
    replace (zlen pre + zlen (bulk s)) with (zlen (pre ++ bulk s)) by (rewrite length_app; lia).
    replace (pre ++ bulk s ++ concat (bulk <$> names) ++ [NUL])
      with ((pre ++ bulk s) ++ concat (bulk <$> names) ++ [NUL]) by (by rewrite <- app_assoc).
    destruct (IH fuel (set_subs pv d1 ac) (pre ++ bulk s) w1) as (d2 & w2 & E2 & Hd2 & Hw2 & Ho2 & Hos2 & Ht2 & Hnx2 & Hmap2).
    { cbn in Hf. lia. } { done. } { by rewrite subs_set_subs. } { done. }
    { rewrite subs_set_subs. unfold sub_map at 1. rewrite Hmap1. cbn in Hsize.
      pose proof (size_insert_le (sub_map (subs pv ac)) s cb) as Hi. unfold sub_map in *. lia. }
    exists d2, w2. rewrite E2, set_subs_set_subs. split_and!; try done; [congruence..| |].
    + lia.
    + rewrite Hmap2, subs_set_subs. unfold sub_map at 1. by rewrite Hmap1.
Qed.
End subscribe.

(** * Recognising commands *)

Lemma tolower_CR x : tolower x = tolower CR -> x = CR.
Proof. unfold tolower, CR. cbn. destruct (_ && _) eqn:E; [|done]. intros Heq. lia. Qed.

(** Comparing a line of a command with a word and its line end. *)
Lemma strncaseeq_word word s rest :
  Forall (fun c => c <> CR /\ c <> NUL) s -> Forall (fun c => c <> CR /\ c <> NUL) word ->
  strncaseeq (length (word ++ CRLF)) (s ++ CRLF ++ rest) (word ++ CRLF) =
    Ok (bool_decide (tolower <$> s = tolower <$> word)).
Proof.
  intros Hs. revert word. induction Hs as [|x s [Hx Hx0] _ IH]; intros word Hw.
  - destruct Hw as [|y word [Hy _] _]; [done|]. cbn [app CRLF length strncaseeq].
    destruct (Z.eqb_spec (tolower CR) (tolower y)) as [E|_]; [by apply symmetry, tolower_CR in E|]. done.
  - destruct Hw as [|y word [Hy Hy0] Hw].
    + cbn [app CRLF length strncaseeq]. destruct (Z.eqb_spec (tolower x) (tolower CR)) as [E|_]; [by apply tolower_CR in E|]. done.
    + cbn [app length strncaseeq].
      destruct (Z.eqb_spec (tolower x) (tolower y)) as [E|E]; cbn [negb fmap list_fmap].
      * rewrite (proj2 (Z.eqb_neq _ _) Hx0), (IH word Hw), E. f_equal. apply bool_decide_ext.
        split; [by intros ->|by intros [= ->]].
      * rewrite bool_decide_false; [done|]. by intros [= ?].
Qed.

(** The name of a command without the leading P of the pattern variants. *)
Definition pattern_variant (name : list char) : bool :=
  match name with c :: _ => tolower c =? 112 | [] => false end.
Definition base_name (name : list char) : list char := if pattern_variant name then drop 1 name else name.

(** The commands the client treats specially. *)
Definition is_word (word : list char) (name : list char) : bool :=
  bool_decide (tolower <$> base_name name = tolower <$> word).
Definition SUBSCRIBE : list char := lit "subscribe".
Definition UNSUBSCRIBE : list char := lit "unsubscribe".

(** A name without line ends and NULs, as every command has. *)
Definition plain_name (name : list char) : Prop := Forall (fun c => c <> CR /\ c <> NUL) name.

(** The first argument, as [__redisAsyncCommand] sees it. *)
Lemma first_argument name more w :
  zlen (command (name :: more)) <= INT_MAX ->
  let cmd := command (name :: more) ++ [NUL] in
  let p := zlen (header (zlen (name :: more)) ++ bulk name) in
  let cstr := zlen (header (zlen (name :: more))) + bulk_offset name in
  nextArgument cmd 0 w = Ok (Some (cstr, zlen name, p), w) /\
  cmd = (header (zlen (name :: more)) ++ bulk name) ++ concat (bulk <$> more) ++ [NUL] /\
  drop (Z.to_nat cstr) cmd = name ++ CRLF ++ concat (bulk <$> more) ++ [NUL].
Proof.
  intros Hmax cmd p cstr. set (hd := header (zlen (name :: more))) in *.
  assert (cmd = hd ++ bulk name ++ concat (bulk <$> more) ++ [NUL]) as Hcmd.
  { unfold cmd. rewrite command_eq. cbn [fmap list_fmap concat]. by rewrite <- !app_assoc. }
  assert (Forall (fun c => c <> 36 /\ c <> NUL) hd) as Hhd.
  { unfold hd, header. constructor; [done|]. rewrite dec_signed_nonneg by lia. apply Forall_app. split.
    - eapply Forall_impl; [apply dec_isdigit; lia|]. unfold NUL. cbn. lia.
    - repeat constructor; done. }
  assert (zlen name <= INT_MAX) as Hn.
  { rewrite command_eq, length_app in Hmax. cbn [fmap list_fmap concat] in Hmax. rewrite length_app in Hmax.
    pose proof (length_bulk name). lia. }
  destruct (nextArgument_ok [] hd name (concat (bulk <$> more) ++ [NUL]) w Hhd Hn) as [E Hd].
  cbn [app length] in E, Hd. rewrite <- Hcmd in E, Hd. unfold cstr, p. split_and!.
  - rewrite length_app, Nat2Z.inj_add. exact E.
  - by rewrite Hcmd, <- app_assoc.
  - exact Hd.
Qed.

(** What the tests of [__redisAsyncCommand] on the formatted command come to. *)
Lemma command_tests name more w B (k : bool -> bool -> bool -> Z -> M B) :
  plain_name name -> zlen (command (name :: more)) <= INT_MAX ->
  let cmd := command (name :: more) ++ [NUL] in
  (let* arg := nextArgument cmd 0 in
   let* _ := assert_ (match arg with Some _ => true | None => false end) in
   let* (cstr, _, p) := deref arg in
   let* c := lift (mem_get cmd p) in
   let hasnext := c =? 36 in
   let* c0 := lift (mem_get cmd cstr) in
   let pvariant := tolower c0 =? 112 in
   let cstr := if pvariant then cstr + 1 else cstr in
   let name := drop (Z.to_nat cstr) cmd in
   let* is_sub := (if hasnext then lift (strncaseeq 11 name (lit "subscribe" ++ CRLF)) else ret false) in
   if is_sub : bool then k pvariant true false p
   else
     let* is_unsub := lift (strncaseeq 13 name (lit "unsubscribe" ++ CRLF)) in
     k pvariant false is_unsub p) w =
  (let sub := negb (bool_decide (more = [])) && is_word SUBSCRIBE name in
   k (pattern_variant name) sub (negb sub && is_word UNSUBSCRIBE name)
     (zlen (header (zlen (name :: more)) ++ bulk name))) w.
Proof.
  intros Hname Hmax cmd. destruct (first_argument name more w Hmax) as (E & Hcmd & Hdrop). fold cmd in E, Hcmd, Hdrop.
  rewrite (bind_ok _ _ _ _ _ E). rewrite (bind_ok (assert_ true)) with (1 := eq_refl).
  erewrite (bind_ok (deref (Some _))) by reflexivity. cbn beta iota.
  set (p := zlen (_ ++ _)) in *. set (cstr := zlen _ + bulk_offset name) in *.
  assert (exists c, mem_get cmd p = Ok c /\ (c =? 36) = negb (bool_decide (more = []))) as (c & Hc & Hc36).
  { rewrite Hcmd. destruct more as [|m more].
    - exists NUL. split; [|done]. by apply mem_get_app.
    - exists 36. split; [|done]. cbn [fmap list_fmap concat]. unfold bulk at 2. cbn [encode app]. by apply mem_get_app. }
  lift_step Hc.
  assert (cmd = take (Z.to_nat cstr) cmd ++ name ++ CRLF ++ concat (bulk <$> more) ++ [NUL]) as Hsplit.
  { rewrite <- Hdrop. by rewrite take_drop. }
  assert (0 <= cstr) as Hc0 by (unfold cstr, bulk_offset; lia).
  assert (cstr = zlen (take (Z.to_nat cstr) cmd)) as Hlen.
  { rewrite length_take. assert (0 < length (drop (Z.to_nat cstr) cmd))%nat as Hd.
    { rewrite Hdrop, !length_app. cbn. lia. } rewrite length_drop in Hd. lia. }
  assert (exists c0, mem_get cmd cstr = Ok c0 /\ (tolower c0 =? 112) = pattern_variant name) as (c0 & Hg & Hpv).
  { rewrite Hsplit. destruct name as [|y name]; eexists; (split; [by apply mem_get_app|done]). }
  lift_step Hg. cbv zeta. rewrite Hpv.
  set (rest := CRLF ++ concat (bulk <$> more) ++ [NUL]) in *.
  assert (drop (Z.to_nat (if pattern_variant name then cstr + 1 else cstr)) cmd = base_name name ++ rest) as Hbase.
  { unfold base_name. destruct (pattern_variant name) eqn:Epv; [|by rewrite Hdrop].
    destruct name as [|y name]; [done|]. replace (Z.to_nat (cstr + 1)) with (Z.to_nat cstr + 1)%nat by lia.
    rewrite <- drop_drop, Hdrop. done. }
  rewrite Hbase.
  assert (plain_name (base_name name)) as Hplain.
  { unfold base_name. destruct (pattern_variant name); [by apply Forall_drop|done]. }
  assert (strncaseeq 11 (base_name name ++ rest) (lit "subscribe" ++ CRLF) = Ok (is_word SUBSCRIBE name)) as Hsub.
  { apply (strncaseeq_word SUBSCRIBE (base_name name)); [done|]. repeat constructor; done. }
  assert (strncaseeq 13 (base_name name ++ rest) (lit "unsubscribe" ++ CRLF) = Ok (is_word UNSUBSCRIBE name)) as Hunsub.
  { apply (strncaseeq_word UNSUBSCRIBE (base_name name)); [done|]. repeat constructor; done. }
  rewrite Hc36.
  assert (forall b : bool, (if b then lift (strncaseeq 11 (base_name name ++ rest) (lit "subscribe" ++ CRLF)) else ret false) w
    = Ok (b && is_word SUBSCRIBE name, w)) as Hs.
  { intros []; [|done]. by apply lift_ok. }
  rewrite (bind_ok _ _ _ _ _ (Hs _)). destruct (_ && _); [done|]. lift_step Hunsub. done.
Qed.

Section command.
Context `{Strerror} `{FloatFmt} `{UserCode}.

(** The end of [__redisAsyncCommand]. *)
Definition append_and_schedule (ac : redisAsyncContext) (cmd : list char) (len : Z) : M (Z * redisAsyncContext) :=
  let* (_, c) := __redisAppendCommand (ac_c ac) cmd len in
  let ac := set_ac_c c ac in
  let* _ := run_hook AddWrite ac in
  ret (REDIS_OK, ac).

(** [__redisAsyncCommand] behind its tests. *)
Definition dispatch_command (ac : redisAsyncContext) (fn : option Z) (privdata : Z) (cmd : list char) (len : Z)
  (pvariant is_sub is_unsub : bool) (p : Z) : M (Z * redisAsyncContext) :=
  let cb := mkCallback None fn privdata in
  if is_sub then
    let* ac := subscribe_loop (S (length cmd)) (or_flag REDIS_SUBSCRIBED ac) cmd p pvariant cb in
    append_and_schedule ac cmd len
  else if is_unsub then
    if negb (ac_flag ac REDIS_SUBSCRIBED) then ret (REDIS_ERR, ac) else append_and_schedule ac cmd len
  else if ac_flag ac REDIS_SUBSCRIBED then
    let* (l, h) := __redisPushCallback (ac_invalid ac) (ac_nodes ac) cb in
    append_and_schedule (set_invalid l h ac) cmd len
  else
    let* (l, h) := __redisPushCallback (ac_replies ac) (ac_nodes ac) cb in
    append_and_schedule (set_replies l h ac) cmd len.

Lemma async_command_eq ac fn privdata name more len w :
  plain_name name -> zlen (command (name :: more)) <= INT_MAX ->
  ac_flag ac (Z.lor REDIS_DISCONNECTING REDIS_FREEING) = false ->
  let cmd := command (name :: more) ++ [NUL] in
  let sub := negb (bool_decide (more = [])) && is_word SUBSCRIBE name in
  __redisAsyncCommand ac fn privdata cmd len w =
    dispatch_command ac fn privdata cmd len (pattern_variant name) sub (negb sub && is_word UNSUBSCRIBE name)
      (zlen (header (zlen (name :: more)) ++ bulk name)) w.
Proof.
  intros Hname Hmax Hfl cmd sub. unfold __redisAsyncCommand. rewrite Hfl.
  etrans; [|exact (command_tests name more w _ (dispatch_command ac fn privdata cmd len) Hname Hmax)].
  apply bind_ext. intros arg w1 _. apply bind_ext. intros _ w2 _. apply bind_ext. intros [[cstr clen] p] w3 _.
  apply bind_ext. intros c w4 _. cbv zeta. apply bind_ext. intros c0 w5 _. apply bind_ext. intros is_sub w6 _.
  destruct is_sub.
  - rewrite !bind_assoc. by apply bind_ext.
  - rewrite !bind_assoc. apply bind_ext. intros is_unsub w7 _. unfold dispatch_command.
    destruct is_unsub; [destruct (ac_flag ac REDIS_SUBSCRIBED); reflexivity|].
    destruct (ac_flag ac REDIS_SUBSCRIBED); rewrite !bind_assoc; apply bind_ext; by intros [l h] w8 _.
Qed.

(** The hook call of a hook. *)
Definition hook_calls (h : hook) (ac : redisAsyncContext) : list (syscall * Z) :=
  match ev_fn (ac_ev ac) h with Some f => [(CallHook h f (ev_data (ac_ev ac)), 0)] | None => [] end.

Lemma run_hook_ok h ac w : run_hook h ac w = Ok (tt, set_trace (w_trace w ++ hook_calls h ac) w).
Proof.
  unfold run_hook, hook_calls. destruct (ev_fn (ac_ev ac) h); [done|]. rewrite app_nil_r. by destruct w.
Qed.

(** Appending the command and asking the event library for writes. *)
Lemma append_and_schedule_ok ac cmd rest out w :
  no_oom w -> pending (ac_c ac) out -> 2 * zlen (out ++ cmd) <= INT_MAX ->
  exists b, append_and_schedule ac (cmd ++ rest) (zlen cmd) w =
      Ok (REDIS_OK, set_ac_c (set_c_obuf (Some b) (ac_c ac)) ac, set_trace (w_trace w ++ hook_calls AddWrite ac) w) /\
    sds_wf b /\ sds_str b = out ++ cmd.
Proof.
  intros Hw (b & Hob & Hb & Hs) Hmax. unfold append_and_schedule, __redisAppendCommand.
  rewrite Hob, bind_assoc. erewrite (bind_ok (deref (Some b))) by reflexivity.
  destruct (allocs_no_oom _ w 0 _ (sdscatlen_allocs b (cmd ++ rest) (zlen cmd) w Hb
    ltac:(rewrite length_app; lia)
    ltac:(right; rewrite <- (length_sds_str b Hb), Hs; rewrite length_app in Hmax; lia)) Hw) as (b' & E & Hb' & Hs').
  rewrite add_live_0 in E. rewrite bind_assoc, (bind_ok _ _ _ _ _ E). rewrite (bind_ok (ret _)) with (1 := eq_refl).
  cbn beta iota. rewrite (bind_ok _ _ _ _ _ (run_hook_ok _ _ _)). exists b'.
  split_and!; [done|done|]. by rewrite Hs', Hs, Nat2Z.id, take_app_length.
Qed.
End command.
