(* ===== verification/AsyncCommand.v ===== *)
(** Issuing commands on the asynchronous client refines an abstract machine:
    a queue of callbacks, a queue for commands issued while subscribed, two
    finite maps of subscriptions and the bytes to be sent. *)

From stdpp Require Import base tactics list numbers strings gmap.
From S2P Require Import Prelude Machine Printf Sds Reply Reader ReaderSpec ReaderStream ReplyTree.
From S2P Require Import Dict Format Net Context Session Async AsyncSpec.

Local Open Scope Z_scope.

(** * The abstract machine *)

Record aview := mkView {
  v_replies : list callback;
  v_invalid : list callback;
  v_channels : gmap (list Z) redisCallback;
  v_patterns : gmap (list Z) redisCallback;
  v_subscribed : bool;
  v_closing : bool;
  v_out : list char
}.

(** The command of the arguments [args] with the callback [x]: it is refused
    when the connection is closing, or for an unsubscribe without a
    subscription; subscriptions bind their callback to every name; everything
    else waits for its reply in a queue. *)
Definition spec_command (v : aview) (args : list (list char)) (x : callback) : Z * aview :=
  match args with
  | [] => (REDIS_ERR, v)
  | name :: more =>
      let out := v_out v ++ command args in
      if v_closing v then (REDIS_ERR, v)
      else if negb (bool_decide (more = [])) && is_word SUBSCRIBE name then
        if pattern_variant name then
          (REDIS_OK, mkView (v_replies v) (v_invalid v) (v_channels v)
                       (add_names more (node None x) (v_patterns v)) true false out)
        else
          (REDIS_OK, mkView (v_replies v) (v_invalid v)
                       (add_names more (node None x) (v_channels v)) (v_patterns v) true false out)
      else if is_word UNSUBSCRIBE name then
        if v_subscribed v then
          (REDIS_OK, mkView (v_replies v) (v_invalid v) (v_channels v) (v_patterns v) true false out)
        else (REDIS_ERR, v)
      else if v_subscribed v then
        (REDIS_OK, mkView (v_replies v) (v_invalid v ++ [x]) (v_channels v) (v_patterns v) true false out)
      else
        (REDIS_OK, mkView (v_replies v ++ [x]) (v_invalid v) (v_channels v) (v_patterns v) false false out)
  end.

(** * The view of a context *)

(** The two callback lists, in nodes of the heap below [n]. *)
Definition lists_ok (n : nat) (ac : redisAsyncContext) (q qi : list callback) : Prop :=
  exists a1 a2, queue (ac_nodes ac) (ac_replies ac) a1 q /\ queue (ac_nodes ac) (ac_invalid ac) a2 qi /\
    (forall a, a ∈ a1 -> a ∉ a2) /\ (forall a, a ∈ a1 ++ a2 -> (a < n)%nat) /\
    dom (ac_nodes ac) = list_to_set (a1 ++ a2).

Record view (ac : redisAsyncContext) (w : world) (v : aview) : Prop := {
  vw_lists : lists_ok (w_next w) ac (v_replies v) (v_invalid v);
  vw_channels : sub_wf (w_next w) (ac_channels ac) /\ sub_map (ac_channels ac) = v_channels v;
  vw_patterns : sub_wf (w_next w) (ac_patterns ac) /\ sub_map (ac_patterns ac) = v_patterns v;
  vw_subscribed : ac_flag ac REDIS_SUBSCRIBED = v_subscribed v;
  vw_closing : ac_flag ac (Z.lor REDIS_DISCONNECTING REDIS_FREEING) = v_closing v;
  vw_out : pending (ac_c ac) (v_out v)
}.

Lemma sub_wf_mono n m d : sub_wf n d -> (n <= m)%nat -> sub_wf m d.
Proof.
  intros [] Hle. split; try done. eapply Forall_impl; [done|]. cbn. lia.
Qed.

Lemma lists_ok_mono n m ac q qi : lists_ok n ac q qi -> (n <= m)%nat -> lists_ok m ac q qi.
Proof.
  intros (a1 & a2 & H1 & H2 & Hd & Hlt & Hdom) Hle. exists a1, a2. split_and!; try done.
  intros a Ha. specialize (Hlt a Ha). lia.
Qed.

Lemma push_replies_ok n ac q qi x w :
  no_oom w -> n = w_next w -> lists_ok n ac q qi ->
  exists l h, __redisPushCallback (ac_replies ac) (ac_nodes ac) (node None x) w = Ok (l, h, push_world w) /\
    lists_ok (S n) (set_replies l h ac) (q ++ [x]) qi.
Proof.
  intros Hw -> (a1 & a2 & H1 & H2 & Hd & Hlt & Hdom).
  destruct (push_ok _ _ _ _ (node None x) w Hw H1) as (l & h & E & Hq & Hfr & Hdm).
  { intros a Ha. apply Hlt. set_solver. }
  exists l, h. split; [done|]. cbn [node cb_fn cb_privdata] in Hq. rewrite <- surjective_pairing in Hq.
  assert (w_next w ∉ a2) as Hn2 by (intros Hin; specialize (Hlt (w_next w) ltac:(set_solver)); lia).
  exists (a1 ++ [w_next w]), a2. cbn [ac_nodes ac_replies ac_invalid set_replies]. split_and!.
  - done.
  - eapply queue_frame; [done|]. intros a Ha. apply Hfr; [intros Hin; by apply (Hd a)|by intros ->].
  - intros a [Ha| ->%list_elem_of_singleton]%elem_of_app; [by apply Hd|done].
  - intros a Ha. assert (a ∈ a1 ++ a2 \/ a = w_next w) as [Hin| ->] by set_solver; [specialize (Hlt a Hin)|]; lia.
  - rewrite Hdm, Hdom. set_solver.
Qed.

Lemma push_invalid_ok n ac q qi x w :
  no_oom w -> n = w_next w -> lists_ok n ac q qi ->
  exists l h, __redisPushCallback (ac_invalid ac) (ac_nodes ac) (node None x) w = Ok (l, h, push_world w) /\
    lists_ok (S n) (set_invalid l h ac) q (qi ++ [x]).
Proof.
  intros Hw -> (a1 & a2 & H1 & H2 & Hd & Hlt & Hdom).
  destruct (push_ok _ _ _ _ (node None x) w Hw H2) as (l & h & E & Hq & Hfr & Hdm).
  { intros a Ha. apply Hlt. set_solver. }
  exists l, h. split; [done|]. cbn [node cb_fn cb_privdata] in Hq. rewrite <- surjective_pairing in Hq.
  assert (w_next w ∉ a1) as Hn1 by (intros Hin; specialize (Hlt (w_next w) ltac:(set_solver)); lia).
  exists a1, (a2 ++ [w_next w]). cbn [ac_nodes ac_replies ac_invalid set_invalid]. split_and!.
  - eapply queue_frame; [done|]. intros a Ha. apply Hfr; [by apply Hd|by intros ->].
  - done.
  - intros a Ha [Hin| ->%list_elem_of_singleton]%elem_of_app; [by apply (Hd a)|done].
  - intros a Ha. assert (a ∈ a1 ++ a2 \/ a = w_next w) as [Hin| ->] by set_solver; [specialize (Hlt a Hin)|]; lia.
  - rewrite Hdm, Hdom. set_solver.
Qed.

(** Flags do not interfere with each other. *)
Lemma flag_or_other f g x : Z.land g f = 0 -> Z.land (Z.lor x g) f = Z.land x f.
Proof. intros Hz. by rewrite Z.land_lor_distr_l, Hz, Z.lor_0_r. Qed.

Lemma ac_flag_or_same f ac : 0 <> f -> ac_flag (or_flag f ac) f = true.
Proof.
  intros Hf. unfold ac_flag, has_flag, or_flag. cbn [ac_c c_flags set_ac_c set_c_flags].
  apply negb_true_iff, Z.eqb_neq. rewrite Z.land_comm. intros E.
  assert (Z.land f (Z.lor (c_flags (ac_c ac)) f) = f) as Hx.
  { apply Z.bits_inj'. intros i Hi. rewrite Z.land_spec, Z.lor_spec. by destruct (Z.testbit f i), (Z.testbit _ i). }
  congruence.
Qed.

Lemma ac_flag_or_other f g ac : Z.land g f = 0 -> ac_flag (or_flag g ac) f = ac_flag ac f.
Proof. intros Hz. unfold ac_flag, has_flag, or_flag. cbn. by rewrite flag_or_other. Qed.

(** Only the lists, tables and flags of the context matter to its view. *)
Lemma view_set_c ac c w v :
  view ac w v -> c_flags c = c_flags (ac_c ac) -> forall out, pending c out ->
  view (set_ac_c c ac) w (mkView (v_replies v) (v_invalid v) (v_channels v) (v_patterns v)
                            (v_subscribed v) (v_closing v) out).
Proof.
  intros [Hl Hc Hp Hs Hcl Ho] Hf out Hout. split; try done; unfold ac_flag, has_flag in *; cbn; by rewrite Hf.
Qed.

Lemma view_world ac w w' v : view ac w v -> (w_next w <= w_next w')%nat -> view ac w' v.
Proof.
  intros [Hl [Hc ?] [Hp ?] Hs Hcl Ho] Hle.
  split; try done; [by eapply lists_ok_mono|split; [by eapply sub_wf_mono|done]..].
Qed.

Section refinement.
Context `{Strerror} `{FloatFmt} `{UserCode}.

(** A command accepted, refused or registered: what the concrete step has to
    show about the abstract one. *)
Definition refined (ac : redisAsyncContext) (w : world) (s : Z * aview) (r : outcome (Z * redisAsyncContext * world)) : Prop :=
  exists ac' w', r = Ok (s.1, ac', w') /\ view ac' w' s.2 /\ no_oom w' /\
    w_objs w' = w_objs w /\ w_os w' = w_os w /\ ac_ev ac' = ac_ev ac /\ c_reader (ac_c ac') = c_reader (ac_c ac) /\
    w_trace w' = w_trace w ++ (if s.1 =? REDIS_OK then hook_calls AddWrite ac else []).

(** The end of an accepted command. *)
Lemma accepted ac ac1 w w1 v cmd :
  view ac1 w1 v -> no_oom w1 -> 2 * zlen (v_out v ++ cmd) <= INT_MAX ->
  ac_ev ac1 = ac_ev ac -> c_reader (ac_c ac1) = c_reader (ac_c ac) ->
  w_objs w1 = w_objs w -> w_os w1 = w_os w -> w_trace w1 = w_trace w ->
  refined ac w (REDIS_OK, mkView (v_replies v) (v_invalid v) (v_channels v) (v_patterns v)
                            (v_subscribed v) (v_closing v) (v_out v ++ cmd))
    (append_and_schedule ac1 (cmd ++ [NUL]) (zlen cmd) w1).
Proof.
  intros Hv Hw Hmax Hev Hrd Ho Hos Ht.
  destruct (append_and_schedule_ok ac1 cmd [NUL] (v_out v) w1 Hw (vw_out _ _ _ Hv) Hmax) as (b & E & Hb & Hs).
  eexists _, _. split; [exact E|]. cbn [fst snd]. split_and!; try done.
  - apply (view_world _ w1); [|done]. apply (view_set_c ac1 _ w1 v Hv); [done|]. by exists b.
  - cbn. unfold hook_calls. by rewrite Ht, Hev.
Qed.

Lemma subscribe_refines ac w v more x (pv : bool) pre :
  view ac w v -> no_oom w -> v_closing v = false ->
  Forall (fun s => 2 * zlen s <= INT_MAX) more ->
  Z.of_nat (size (if pv then v_patterns v else v_channels v)) + zlen more < 2 ^ 30 ->
  let cmd := pre ++ concat (bulk <$> more) ++ [NUL] in
  exists ac1 w1,
    subscribe_loop (S (length cmd)) (or_flag REDIS_SUBSCRIBED ac) cmd (zlen pre) pv (node None x) w = Ok (ac1, w1) /\
    view ac1 w1 (mkView (v_replies v) (v_invalid v)
                   (if pv then v_channels v else add_names more (node None x) (v_channels v))
                   (if pv then add_names more (node None x) (v_patterns v) else v_patterns v) true false (v_out v)) /\
    no_oom w1 /\ w_objs w1 = w_objs w /\ w_os w1 = w_os w /\ w_trace w1 = w_trace w /\
    ac_ev ac1 = ac_ev ac /\ c_reader (ac_c ac1) = c_reader (ac_c ac).
Proof.
  intros Hv Hw Hcl Hmore Hsize cmd. set (ac0 := or_flag REDIS_SUBSCRIBED ac).
  pose proof Hv as [Hl [Hc Hcm] [Hp Hpm] Hs Hclo Ho].
  destruct (subscribe_loop_ok more (S (length cmd)) ac0 pre pv (node None x) w)
    as (d & w1 & E & Hd & Hw1 & Ho1 & Hos1 & Ht1 & Hnx & Hmap).
  { unfold cmd. rewrite !length_app. pose proof (args_le_bulks more). cbn. lia. } { done. }
  { by destruct pv. } { done. } { destruct pv; cbn; [by rewrite Hpm|by rewrite Hcm]. }
  exists (set_subs pv d ac0), w1. fold cmd in E. split_and!; try done; try (by destruct pv).
  split; cbn [v_replies v_invalid v_channels v_patterns v_subscribed v_closing v_out].
  - apply (lists_ok_mono (w_next w)); [by destruct pv|lia].
  - destruct pv; cbn; [split; [by eapply sub_wf_mono|done]|]. split; [done|]. rewrite Hmap. cbn. by rewrite Hcm.
  - destruct pv; cbn; [|split; [by eapply sub_wf_mono|done]]. split; [done|]. rewrite Hmap. cbn. by rewrite Hpm.
  - transitivity (ac_flag ac0 REDIS_SUBSCRIBED); [by destruct pv|]. by apply ac_flag_or_same.
  - transitivity (ac_flag ac0 (Z.lor REDIS_DISCONNECTING REDIS_FREEING)); [by destruct pv|].
    unfold ac0. rewrite ac_flag_or_other by done. by rewrite Hclo.
  - by destruct pv.
Qed.

Lemma args_fit args n : 2 * zlen (command args) <= n -> Forall (fun s => 2 * zlen s <= n) args.
Proof.
  rewrite command_eq, length_app. intros Hmax. apply Forall_forall. intros s Hs.
  assert (zlen s <= zlen (concat (bulk <$> args))) as Hle; [|lia]. clear Hmax.
  induction args as [|a args IH]; [by apply elem_of_nil in Hs|]. cbn [fmap list_fmap concat]. rewrite length_app.
  pose proof (length_bulk a). apply elem_of_cons in Hs as [->|Hs]; [lia|]. specialize (IH Hs). lia.
Qed.

Lemma async_command_refines ac w v name more x :
  view ac w v -> no_oom w -> plain_name name ->
  2 * zlen (v_out v ++ command (name :: more)) <= INT_MAX ->
  Z.of_nat (size (v_channels v)) + zlen more < 2 ^ 30 -> Z.of_nat (size (v_patterns v)) + zlen more < 2 ^ 30 ->
  refined ac w (spec_command v (name :: more) x)
    (__redisAsyncCommand ac x.1 x.2 (command (name :: more) ++ [NUL]) (zlen (command (name :: more))) w).
Proof.
  intros Hv Hw Hname Hmax Hc Hp. pose proof Hv as [Hl Hch Hpt Hs Hcl Ho]. unfold spec_command.
  set (cmd := command (name :: more)) in *.
  assert (2 * zlen cmd <= INT_MAX) as Hcmd by (rewrite length_app in Hmax; lia).
  assert (forall s, s.1 = REDIS_ERR -> s.2 = v -> refined ac w s (Ok (REDIS_ERR, ac, w))) as Hrefuse.
  { intros [st v'] Hst Hv'. cbn in Hst, Hv'. subst. exists ac, w. split_and!; try done. cbn. by rewrite app_nil_r. }
  destruct (v_closing v) eqn:Ecl.
  { unfold __redisAsyncCommand. rewrite Hcl. by apply Hrefuse. }
  assert (zlen (command (name :: more)) <= INT_MAX) as Hlen by (fold cmd; climits).
  pose proof (async_command_eq ac x.1 x.2 name more (zlen cmd) w Hname Hlen Hcl) as Heq.
  cbv zeta in Heq. fold cmd in Heq. rewrite Heq. unfold dispatch_command.
  change (mkCallback None x.1 x.2) with (node None x).
  destruct (negb (bool_decide (more = [])) && is_word SUBSCRIBE name); cbn [negb andb].
  - pose proof (args_fit (name :: more) _ Hcmd) as [_ Hmore]%Forall_cons.
    destruct (subscribe_refines ac w v more x (pattern_variant name) (header (zlen (name :: more)) ++ bulk name) Hv Hw Ecl Hmore)
      as (ac1 & w1 & E & Hv1 & Hw1 & Ho1 & Hos1 & Ht1 & Hev1 & Hrd1).
    { destruct (pattern_variant name); lia. }
    destruct (first_argument name more w Hlen) as (_ & Hsplit & _). cbv zeta in E, Hsplit. rewrite <- Hsplit in E.
    fold cmd in E. rewrite (bind_ok _ _ _ _ _ E).
    pose proof (accepted ac ac1 w w1 _ cmd Hv1 Hw1 Hmax Hev1 Hrd1 Ho1 Hos1 Ht1) as Hacc.
    by destruct (pattern_variant name).
  - destruct (is_word UNSUBSCRIBE name).
    + rewrite Hs. destruct (v_subscribed v) eqn:Es; cbn [negb]; [|by apply Hrefuse].
      pose proof (accepted ac ac w w v cmd Hv Hw Hmax eq_refl eq_refl eq_refl eq_refl eq_refl) as Hacc.
      rewrite Es, Ecl in Hacc. exact Hacc.
    + rewrite Hs. destruct (v_subscribed v) eqn:Es.
      * destruct (push_invalid_ok _ ac _ _ x w Hw eq_refl Hl) as (l & h & E & Hl1). rewrite (bind_ok _ _ _ _ _ E).
        cbn beta iota. set (v1 := mkView (v_replies v) (v_invalid v ++ [x]) (v_channels v) (v_patterns v) true false (v_out v)).
        apply (accepted ac (set_invalid l h ac) w (push_world w) v1 cmd); try done.
        split; try done; [destruct Hch|destruct Hpt]; (split; [eapply sub_wf_mono; [done|cbn; lia]|done]).
      * destruct (push_replies_ok _ ac _ _ x w Hw eq_refl Hl) as (l & h & E & Hl1). rewrite (bind_ok _ _ _ _ _ E).
        cbn beta iota. set (v1 := mkView (v_replies v ++ [x]) (v_invalid v) (v_channels v) (v_patterns v) false false (v_out v)).
        apply (accepted ac (set_replies l h ac) w (push_world w) v1 cmd); try done.
        split; try done; [destruct Hch|destruct Hpt]; (split; [eapply sub_wf_mono; [done|cbn; lia]|done]).
Qed.
End refinement.

(** * Properties *)

(** The callback lists of the asynchronous client, kept as singly linked
    nodes with a head and a tail pointer, are first-in first-out queues: for
    every sequence of [__redisPushCallback] and [__redisShiftCallback] from the
    empty list, the callbacks taken out are those a list would give, in order,
    and exactly the nodes of those still waiting are allocated. *)
Theorem callback_list_fifo ops w :
  no_oom w ->
  exists l' h' addrs w', run_queue ops empty_list ∅ w = Ok ((fifo ops []).1, l', h', w') /\
    queue h' l' addrs (fifo ops []).2 /\ w_live w' = w_live w + zlen (fifo ops []).2.
Proof.
  intros Hw. destruct (run_queue_ok ops ∅ empty_list [] [] w Hw (queue_empty ∅)) as (l' & h' & addrs & w' & E & Hq & Hl).
  { intros a Ha. by apply elem_of_nil in Ha. }
  exists l', h', addrs, w'. split_and!; [done|done|]. cbn in Hl. lia.
Qed.

Lemma callback_list_fifo_witness :
  let ops := [QPush (Some 1, 10); QPush (None, 20); QShift; QPush (Some 3, 30); QShift] in
  exists l' h' addrs w', run_queue ops empty_list ∅ world0 = Ok ([(Some 1, 10); (None, 20)], l', h', w') /\
    queue h' l' addrs [(Some 3, 30)] /\ w_live w' = 0 + 1.
Proof.
  exact (callback_list_fifo [QPush (Some 1, 10); QPush (None, 20); QShift; QPush (Some 3, 30); QShift] world0 eq_refl).
Defined.

(** C28: issuing a command refines the abstract machine [spec_command].  The
    command is recognised from its formatted bytes: SUBSCRIBE and PSUBSCRIBE, in
    any case, bind the callback to every channel or pattern named and put the
    context in subscribed mode, UNSUBSCRIBE is refused without a subscription
    and has no callback of its own, every other command queues its callback
    behind those of the commands before it; the encoding of the command is
    appended to the output and the event library is asked for writes.  On a
    closing connection the command is refused and nothing changes. *)
Theorem async_command_correct `{Strerror} `{FloatFmt} `{UserCode} ac w v argv argvlen name more x :
  view ac w v -> no_oom w -> plain_name name -> denotes argv argvlen (name :: more) ->
  2 * zlen (v_out v ++ command (name :: more)) <= INT_MAX ->
  Z.of_nat (size (v_channels v)) + zlen more < 2 ^ 30 -> Z.of_nat (size (v_patterns v)) + zlen more < 2 ^ 30 ->
  refined ac w (spec_command v (name :: more) x)
    (redisAsyncCommandArgv ac x.1 x.2 (zlen (name :: more)) argv argvlen w).
Proof.
  intros Hv Hw Hname Hd Hmax Hc Hp. unfold redisAsyncCommandArgv.
  assert (zlen (command (name :: more)) < INT_MAX) as Hlen by (rewrite length_app in Hmax; climits).
  destruct (format_argv_ok _ argv argvlen (name :: more) w eq_refl Hd Hlen) as (f & w1 & E & Ha & Hf).
  destruct Hf as [[-> Hl]|(_ & _ & Hno)]; [|done].
  apply (alloc_only_add_live_eq 1 w w1 Hw) in Ha as ->; [|done]. rewrite (bind_ok _ _ _ _ _ E).
  unfold async_formatted. rewrite size_t_id by climits.
  destruct (async_command_refines ac (add_live 1 w) v name more x) as (ac' & w' & E2 & Hv' & Hw' & Ho & Hos & Hev & Hrd & Ht);
    try done.
  { by apply (view_world _ w). }
  rewrite (bind_ok _ _ _ _ _ E2). eexists _, _. split; [reflexivity|]. split_and!; try done.
  by apply (view_world _ w').
Qed.

(** An asynchronous context as [redisAsyncConnect] leaves it, with a hook for
    writes. *)
Definition demo_async : redisAsyncContext :=
  mkAsync (mkContext 0 [] 3 REDIS_CONNECTED (Some empty_sds) (Some (at_buf empty_sds 0 fresh_core))) 0 true
    (mkEvents 7 (fun h => match h with AddWrite => Some 1 | _ => None end)) None None
    empty_list empty_list (_dictInit callbackDict 0) (_dictInit callbackDict 0) ∅.

Definition demo_view : aview := mkView [] [] ∅ ∅ false false [].

Lemma empty_dict_ok n : sub_wf n (_dictInit callbackDict 0) /\ sub_map (_dictInit callbackDict 0) = ∅.
Proof. split; [|done]. split; try done; constructor. Qed.

Lemma demo_async_view w : view demo_async w demo_view.
Proof.
  split; try apply empty_dict_ok; try done.
  - exists [], []. split_and!; try apply queue_empty; try done; set_solver.
  - exists empty_sds. split_and!; [done|apply empty_sds_wf|done].
Qed.

#[export] Instance no_user_code : UserCode := {|
  call_fn := fun _ ac _ _ => ret ac;
  call_connect := fun _ ac _ => ret ac;
  call_disconnect := fun _ _ _ => ret tt
|}.

Lemma async_command_correct_witness :
  refined demo_async world0
    (REDIS_OK, mkView [] [] {[lit "a" := node None (Some 5, 6); lit "b" := node None (Some 5, 6)]} ∅ true false
                 (command [lit "SUBSCRIBE"; lit "a"; lit "b"]))
    (@redisAsyncCommandArgv no_strerror demo_async (Some 5) 6 3 [lit "SUBSCRIBE"; lit "a"; lit "b"] (Some [9; 1; 1]) world0).
Proof.
  exact (@async_command_correct no_strerror no_float no_user_code demo_async world0 demo_view
    [lit "SUBSCRIBE"; lit "a"; lit "b"] (Some [9; 1; 1]) (lit "SUBSCRIBE") [lit "a"; lit "b"] (Some 5, 6)
    (demo_async_view world0) eq_refl ltac:(repeat constructor; discriminate)
    (denotes_lengths [lit "SUBSCRIBE"; lit "a"; lit "b"])
    ltac:(vm_compute; discriminate) ltac:(vm_compute; reflexivity) ltac:(vm_compute; reflexivity)).
Defined.
