(* ===== verification/AsyncDispatch.v ===== *)
(** Replies and callbacks of the asynchronous client: each reply goes to the
    callback of the oldest command without one, and is released afterwards;
    releasing the context calls the callbacks that are left, once each.

    Also two defects of the code, as theorems about runs that show them. *)

From stdpp Require Import base tactics list numbers strings gmap.
From S2P Require Import Prelude Machine Printf Sds Reply Reader ReaderSpec ReaderStream ReplyTree.
From S2P Require Import Dict Format Net Context Session Async AsyncSpec AsyncCommand.

Local Open Scope Z_scope.

(** * Taking callbacks out *)

Lemma shift_replies_ok n ac x q qi w :
  lists_ok n ac (x :: q) qi ->
  exists nx l h, shift_replies ac w = Ok (Some (node nx x), set_replies l h ac, add_live (-1) w) /\
    lists_ok n (set_replies l h ac) q qi /\ (size h < size (ac_nodes ac))%nat.
Proof.
  intros (a1 & a2 & H1 & H2 & Hd & Hlt & Hdom). destruct a1 as [|a a1]; [by destruct H1|].
  destruct (shift_ok _ _ a a1 x q w H1) as (l & E & Hq). unfold shift_replies. rewrite (bind_ok _ _ _ _ _ E).
  pose proof (q_nodup _ _ _ _ H1) as [Hni Hnd]%NoDup_cons.
  eexists _, l, (delete a (ac_nodes ac)). split_and!; [reflexivity| |].
  - exists a1, a2. cbn [ac_nodes ac_replies ac_invalid set_replies]. split_and!.
    + done.
    + eapply queue_frame; [done|]. intros b Hb. apply lookup_delete_ne. intros ->. apply (Hd b); set_solver.
    + intros b Hb. apply Hd. set_solver.
    + intros b Hb. apply Hlt. set_solver.
    + rewrite dom_delete_L, Hdom. cbn [app list_to_set]. assert (a ∉ a2) by (apply Hd; set_solver). set_solver.
  - assert (is_Some (ac_nodes ac !! a)) as [y Hy] by (destruct H1 as [_ _ [-> _] _]; done).
    rewrite map_size_delete, Hy. pose proof (map_size_ne_0_lookup_2 (ac_nodes ac) a ltac:(by rewrite Hy)). lia.
Qed.

Lemma shift_invalid_ok n ac x q qi w :
  lists_ok n ac q (x :: qi) ->
  exists nx l h, shift_invalid ac w = Ok (Some (node nx x), set_invalid l h ac, add_live (-1) w) /\
    lists_ok n (set_invalid l h ac) q qi /\ (size h < size (ac_nodes ac))%nat.
Proof.
  intros (a1 & a2 & H1 & H2 & Hd & Hlt & Hdom). destruct a2 as [|a a2]; [by destruct H2|].
  destruct (shift_ok _ _ a a2 x qi w H2) as (l & E & Hq). unfold shift_invalid. rewrite (bind_ok _ _ _ _ _ E).
  pose proof (q_nodup _ _ _ _ H2) as [Hni Hnd]%NoDup_cons.
  eexists _, l, (delete a (ac_nodes ac)). split_and!; [reflexivity| |].
  - exists a1, a2. cbn [ac_nodes ac_replies ac_invalid set_invalid]. split_and!.
    + eapply queue_frame; [done|]. intros b Hb. apply lookup_delete_ne. intros ->. apply (Hd b); set_solver.
    + done.
    + intros b Hb Hin. apply (Hd b Hb). set_solver.
    + intros b Hb. apply Hlt. set_solver.
    + rewrite dom_delete_L, Hdom. assert (a ∉ a1) by (intros Hin; apply (Hd a Hin); set_solver).
      rewrite !list_to_set_app_L. cbn [list_to_set]. set_solver.
  - assert (is_Some (ac_nodes ac !! a)) as [y Hy] by (destruct H2 as [_ _ [-> _] _]; done).
    rewrite map_size_delete, Hy. pose proof (map_size_ne_0_lookup_2 (ac_nodes ac) a ltac:(by rewrite Hy)). lia.
Qed.

Lemma shift_replies_empty n ac qi w : lists_ok n ac [] qi -> shift_replies ac w = Ok (None, ac, w).
Proof.
  intros (a1 & a2 & H1 & _). destruct a1; [|by destruct H1]. unfold shift_replies.
  rewrite (bind_ok _ _ _ _ _ (shift_empty _ _ _ w H1)). by destruct ac.
Qed.

Lemma shift_invalid_empty n ac q w : lists_ok n ac q [] -> shift_invalid ac w = Ok (None, ac, w).
Proof.
  intros (a1 & a2 & _ & H2 & _). destruct a2; [|by destruct H2]. unfold shift_invalid.
  rewrite (bind_ok _ _ _ _ _ (shift_empty _ _ _ w H2)). by destruct ac.
Qed.

(** * The flag that marks a running callback *)

Lemma ac_flag_clear_other f g ac : Z.land (Z.lnot g) f = f -> ac_flag (clear_flag g ac) f = ac_flag ac f.
Proof.
  intros Hz. unfold ac_flag, has_flag, clear_flag. cbn. by rewrite <- Z.land_assoc, Hz.
Qed.

Lemma view_flags ac ac' w v :
  view ac w v -> ac_c ac' = set_c_flags (c_flags (ac_c ac')) (ac_c ac) ->
  ac_replies ac' = ac_replies ac -> ac_invalid ac' = ac_invalid ac -> ac_nodes ac' = ac_nodes ac ->
  ac_channels ac' = ac_channels ac -> ac_patterns ac' = ac_patterns ac ->
  ac_flag ac' REDIS_SUBSCRIBED = ac_flag ac REDIS_SUBSCRIBED ->
  ac_flag ac' (Z.lor REDIS_DISCONNECTING REDIS_FREEING) = ac_flag ac (Z.lor REDIS_DISCONNECTING REDIS_FREEING) ->
  view ac' w v.
Proof.
  intros [Hl Hc Hp Hs Hcl (b & Hob & Hb)] Hcc Hr Hi Hn Hch Hpt Hf1 Hf2. split.
  - destruct Hl as (a1 & a2 & H1). exists a1, a2. by rewrite Hr, Hi, Hn.
  - by rewrite Hch.
  - by rewrite Hpt.
  - by rewrite Hf1.
  - by rewrite Hf2.
  - exists b. by rewrite Hcc.
Qed.

Lemma view_in_callback ac w v : view ac w v -> view (or_flag REDIS_IN_CALLBACK ac) w v.
Proof. intros Hv. apply (view_flags ac); try done; by apply ac_flag_or_other. Qed.

Lemma view_out_callback ac w v : view ac w v -> view (clear_flag REDIS_IN_CALLBACK ac) w v.
Proof. intros Hv. apply (view_flags ac); try done; by apply ac_flag_clear_other. Qed.

(** * Handing replies to callbacks *)

(** A call of a reply callback. *)
Definition is_fn_call (e : syscall * Z) : bool := match e.1 with CallFn _ _ _ _ => true | _ => false end.
Definition fn_calls (t : list (syscall * Z)) : list (syscall * Z) := List.filter is_fn_call t.

(** The calls that answer the callbacks with the values: each callback that has
    a function is called once, with its user data and a reply at which the
    store holds the objects of its value. *)
Inductive answered : list callback -> list value -> list (syscall * Z) -> Prop :=
| answered_nil : answered [] [] []
| answered_call fn pd v l h q vs t :
    answered q vs t ->
    answered ((Some fn, pd) :: q) (v :: vs)
      ((CallFn fn (Some (Obj l)) pd (map_seq l (layout l v) ∪ h), 0) :: t)
| answered_none pd v q vs t : answered q vs t -> answered ((None, pd) :: q) (v :: vs) t.

(** What the client asks of a callback: it returns; it may issue commands,
    which queue behind those waiting, but leaves the reader, the error and the
    flags of the context and the reply objects alone. *)
Definition polite (U : UserCode) : Prop :=
  forall fn ac reply pd w v, view ac w v -> no_oom w ->
  exists ac' w' v' more t, call_fn fn ac reply pd w = Ok (ac', w') /\ view ac' w' v' /\
    v_replies v' = v_replies v ++ more /\ no_oom w' /\
    c_reader (ac_c ac') = c_reader (ac_c ac) /\ c_err (ac_c ac') = c_err (ac_c ac) /\
    c_flags (ac_c ac') = c_flags (ac_c ac) /\
    w_objs w' = w_objs w /\ (w_next w <= w_next w')%nat /\
    w_trace w' = w_trace w ++ t /\ fn_calls t = [].

(** The reader of a non-blocking context holds the encodings of [vs]. *)
Record inbox (ac : redisAsyncContext) (vs : list value) : Prop := {
  ib_err : c_err (ac_c ac) = 0;
  ib_flags : Z.land (c_flags (ac_c ac)) (Z.lor REDIS_BLOCK (Z.lor REDIS_FREEING REDIS_IN_CALLBACK)) = 0;
  ib_reader : exists r n rc, c_reader (ac_c ac) = Some r /\ holds n r (start rc) (concat (encode <$> vs)) /\ idle rc;
  ib_values : Forall (value_ok 2) vs;
  ib_size : zlen (concat (encode <$> vs)) <= INT_MAX
}.

Lemma land_sub x m f : Z.land x m = 0 -> Z.land m f = f -> Z.land x f = 0.
Proof. intros Hx Hf. by rewrite <- Hf, Z.land_assoc, Hx. Qed.

Lemma inbox_flag ac vs f :
  inbox ac vs -> Z.land (Z.lor REDIS_BLOCK (Z.lor REDIS_FREEING REDIS_IN_CALLBACK)) f = f -> ac_flag ac f = false.
Proof.
  intros Hib Hf. unfold ac_flag, has_flag. by rewrite (land_sub _ _ f (ib_flags _ _ Hib) Hf).
Qed.

Section dispatch.
Context `{Strerror} `{FloatFmt} `{U : UserCode}.

(** The state after the object of [v] is released again. *)
Definition freed_world (v : value) (w : world) : world := set_next (w_next w + objects v) w.

Lemma freed_next_world v w :
  set_objs (w_objs w) (add_live (- blocks v) (next_world v w)) = freed_world v w.
Proof.
  unfold next_world, built, linked, freed_world, set_next, add_live, set_objs. cbn. rewrite length_layout.
  f_equal. lia.
Qed.

Lemma get_reply_some ac v vs w :
  inbox ac (v :: vs) -> no_oom w ->
  exists r, let c1 := set_c_reader (Some r) (ac_c ac) in
    redisGetReply (ac_c ac) w = Ok (REDIS_OK, Some (Obj (w_next w)), c1, next_world v w) /\
    inbox (set_ac_c c1 ac) vs /\ r_fn r = Some defaultFunctions.
Proof.
  intros [He Hfl (r & n & rc & Hr & Hh & Hid) Hok Hlen] Hw. apply Forall_cons in Hok as [Hv Hvs].
  cbn [fmap list_fmap concat] in *. rewrite length_app in Hlen.
  destruct (run_root rc v (concat (encode <$> vs)) w) as (c' & E & Hrep & Hid'); try done; [lia|].
  pose proof (redisReaderGetReply_post n r (start rc) _ w Hh) as Hg. rewrite E in Hg.
  destruct Hg as (r1 & Eg & Hh1). rewrite Hrep in Eg. exists r1.
  unfold redisGetReply, redisGetReplyFromReader. rewrite Hr. erewrite !bind_assoc, (bind_ok (deref (Some r))) by reflexivity.
  rewrite bind_assoc, (bind_ok _ _ _ _ _ Eg). split_and!; [done| |].
  - split; try done; [|lia]. by exists r1, n, (set_reply None c').
  - destruct Hh1 as (b & pos & c0 & -> & Hst & Hc0 & _). cbn. by apply (cw_fn _ Hc0).
Qed.

Lemma get_reply_none ac w :
  inbox ac [] ->
  exists r, redisGetReply (ac_c ac) w = Ok (REDIS_OK, None, set_c_reader (Some r) (ac_c ac), w) /\
    inbox (set_ac_c (set_c_reader (Some r) (ac_c ac)) ac) [].
Proof.
  intros Hib. pose proof Hib as [He Hfl (r & n & rc & Hr & Hh & Hid) _ _].
  pose proof (redisReaderGetReply_post n r (start rc) _ w Hh) as Hg.
  cbn [fmap list_fmap concat] in *. rewrite run_nil in Hg by (by eapply holds_live).
  destruct Hg as (r1 & Eg & Hh1). exists r1.
  unfold redisGetReply, redisGetReplyFromReader. rewrite Hr. erewrite !bind_assoc, (bind_ok (deref (Some r))) by reflexivity.
  rewrite bind_assoc, (bind_ok _ _ _ _ _ Eg). cbn beta iota. change (REDIS_OK =? REDIS_ERR) with false. cbn iota.
  rewrite (bind_ok (ret _)) with (1 := eq_refl). cbn beta iota.
  change (REDIS_OK =? REDIS_ERR) with false. cbn iota.
  assert (has_flag (set_c_reader (Some r1) (ac_c ac)) REDIS_BLOCK = false) as ->.
  { exact (inbox_flag ac [] REDIS_BLOCK Hib eq_refl). }
  split; [done|]. split; try done. by exists r1, n, rc.
Qed.
Lemma land_lor_lnot x f : Z.land x f = 0 -> Z.land (Z.lor x f) (Z.lnot f) = x.
Proof.
  intros Hz. apply Z.bits_inj'. intros i Hi. rewrite Z.land_spec, Z.lor_spec, Z.lnot_spec by done.
  assert (Z.testbit (Z.land x f) i = false) as Hb by (by rewrite Hz, Z.bits_0).
  rewrite Z.land_spec in Hb. by destruct (Z.testbit x i), (Z.testbit f i).
Qed.

Lemma free_reply_ok ac r v l h w :
  c_reader (ac_c ac) = Some r -> r_fn r = Some defaultFunctions ->
  vacant l (objects v) h -> w_objs w = map_seq l (layout l v) ∪ h ->
  free_reply ac (Obj l) w = Ok (tt, add_live (- blocks v) (set_objs h w)).
Proof.
  intros Hr Hfn Hva Hw. unfold free_reply. rewrite Hr. erewrite (bind_ok (deref (Some r))) by reflexivity.
  rewrite Hfn. erewrite (bind_ok (deref (Some _))) by reflexivity. cbn [fn_freeObject defaultFunctions].
  erewrite (bind_ok (deref (Some _))) by reflexivity. by apply freeReplyObject_ok.
Qed.

Lemma inbox_reader ac vs :
  inbox ac vs -> exists r, c_reader (ac_c ac) = Some r /\ r_fn r = Some defaultFunctions.
Proof.
  intros [_ _ (r & n & rc & Hr & (b & pos & c0 & -> & _ & Hc0 & _) & _) _ _]. eexists. split; [done|].
  cbn. by apply (cw_fn _ Hc0).
Qed.

Lemma inbox_same ac ac' vs :
  inbox ac vs -> c_err (ac_c ac') = c_err (ac_c ac) -> c_flags (ac_c ac') = c_flags (ac_c ac) ->
  c_reader (ac_c ac') = c_reader (ac_c ac) -> inbox ac' vs.
Proof. intros [He Hf Hr Hv Hs] E1 E2 E3. split; [congruence|by rewrite E2|by rewrite E3|done|done]. Qed.

(** The calls of a callback and what it leaves behind. *)
Definition ran (ac : redisAsyncContext) (w : world) (v : aview) (vs : list value)
  (ac' : redisAsyncContext) (w' : world) (t : list (syscall * Z)) : Prop :=
  exists v' more, view ac' w' v' /\ v_replies v' = v_replies v ++ more /\ v_closing v' = v_closing v /\
    inbox ac' vs /\ no_oom w' /\ w_objs w' = w_objs w /\ (w_next w <= w_next w')%nat /\
    w_trace w' = w_trace w ++ t.

Lemma run_callback_ok ac w v vs nx fn pd reply :
  polite U -> view ac w v -> inbox ac vs -> no_oom w ->
  exists ac' w' t, __redisRunCallback ac (node nx (Some fn, pd)) reply w = Ok (ac', w') /\
    ran ac w v vs ac' w' t /\ fn_calls t = [(CallFn fn reply pd (w_objs w), 0)].
Proof.
  intros Hpol Hv Hib Hw. unfold __redisRunCallback. cbn [node cb_fn cb_privdata fst snd]. cbv zeta.
  rewrite (bind_ok get_world) with (1 := eq_refl), (bind_ok (log _ _)) with (1 := eq_refl).
  set (w1 := set_trace _ w). set (ac1 := or_flag REDIS_IN_CALLBACK ac).
  assert (view ac1 w1 v) as Hv1 by (apply (view_world _ w); [by apply view_in_callback|done]).
  destruct (Hpol fn ac1 reply pd w1 v Hv1 Hw)
    as (ac2 & w2 & v2 & more & t & E & Hv2 & Hq & Hw2 & Hr & He & Hf & Ho & Hn & Ht & Hc).
  rewrite (bind_ok _ _ _ _ _ E). exists (clear_flag REDIS_IN_CALLBACK ac2), w2, ((CallFn fn reply pd (w_objs w), 0) :: t).
  assert (c_flags (ac_c (clear_flag REDIS_IN_CALLBACK ac2)) = c_flags (ac_c ac)) as Hfl.
  { cbn. rewrite Hf. cbn. apply land_lor_lnot. apply (land_sub _ _ _ (ib_flags _ _ Hib)). done. }
  split_and!; [done| |unfold fn_calls in *; cbn; by rewrite Hc].
  exists v2, more. split_and!; try done.
  - by apply view_out_callback.
  - rewrite <- (vw_closing _ _ _ Hv2), <- (vw_closing _ _ _ Hv). unfold ac_flag, has_flag. rewrite Hf. cbn.
    by rewrite flag_or_other.
  - by apply (inbox_same ac).
  - rewrite Ht. cbn. by rewrite <- app_assoc.
Qed.

Lemma process_reply_ok ac v x q vs val w cb :
  polite U -> view ac (next_world val w) v -> v_replies v = x :: q -> inbox ac vs -> no_oom w -> fresh_above w ->
  exists ac' cb' w' t v' more,
    process_reply ac cb (Obj (w_next w)) (next_world val w) = Ok (Some (ac', cb'), w') /\
    view ac' w' v' /\ v_replies v' = q ++ more /\ v_closing v' = v_closing v /\ inbox ac' vs /\ no_oom w' /\
    w_objs w' = w_objs w /\ fresh_above w' /\ w_trace w' = w_trace w ++ t /\ answered [x] [val] (fn_calls t).
Proof.
  intros Hpol Hv Hq Hib Hw Hfr. set (w1 := next_world val w) in *. pose proof Hv as [Hl Hch Hpt Hs Hcl Ho].
  rewrite Hq in Hl. destruct (shift_replies_ok _ ac x q _ w1 Hl) as (nx & l & h & E & Hl1 & _).
  unfold process_reply. rewrite (bind_ok _ _ _ _ _ E). set (ac1 := set_replies l h ac) in *.
  rewrite (bind_ok (ret _)) with (1 := eq_refl). cbn beta iota.
  set (v1 := mkView q (v_invalid v) (v_channels v) (v_patterns v) (v_subscribed v) (v_closing v) (v_out v)).
  assert (view ac1 (add_live (-1) w1) v1) as Hv1 by (split; done).
  assert (inbox ac1 vs) as Hib1 by (by apply (inbox_same ac)).
  assert (w_objs w1 = map_seq (w_next w) (layout (w_next w) val) ∪ w_objs w) as Hobjs by done.
  assert (w_next w1 = (w_next w + objects val)%nat) as Hnx by (unfold w1; by apply (next_world_stored val [])).
  destruct x as [[fn|] pd].
  - change (cb_fn (node nx (Some fn, pd))) with (Some fn). cbn iota.
    destruct (run_callback_ok ac1 _ v1 vs nx fn pd (Some (Obj (w_next w))) Hpol Hv1 Hib1 Hw)
      as (ac2 & w2 & t & E2 & (v2 & more & Hv2 & Hq2 & Hcl2 & Hib2 & Hw2 & Ho2 & Hn2 & Ht2) & Hc2).
    rewrite (bind_ok _ _ _ _ _ E2). destruct (inbox_reader ac2 vs Hib2) as (r & Hr & Hfn).
    rewrite (bind_ok _ _ _ _ _ (free_reply_ok ac2 r val (w_next w) (w_objs w) w2 Hr Hfn
      (fresh_vacant w _ Hfr) ltac:(by rewrite Ho2))).
    rewrite (inbox_flag ac2 vs REDIS_FREEING Hib2 eq_refl).
    eexists _, _, _, t, v2, more. split; [reflexivity|]. split_and!; try done.
    + by apply (view_world _ w2).
    + intros j Hj. cbn in *. apply Hfr. lia.
    + rewrite Hc2. cbn [w_objs add_live]. rewrite Hobjs. constructor. constructor.
  - change (cb_fn (node nx (None, pd))) with (@None Z). cbn iota.
    destruct (inbox_reader ac1 vs Hib1) as (r & Hr & Hfn).
    rewrite (bind_ok _ _ _ _ _ (free_reply_ok ac1 r val (w_next w) (w_objs w) (add_live (-1) w1) Hr Hfn (fresh_vacant w _ Hfr) Hobjs)).
    eexists _, _, _, [], v1, []. split; [reflexivity|]. split_and!; try done.
    + by rewrite app_nil_r.
    + intros j Hj. cbn in Hj. apply Hfr. lia.
    + by rewrite app_nil_r.
    + constructor. constructor.
Qed.

Lemma answered_app q1 vs1 t1 q2 vs2 t2 :
  answered q1 vs1 t1 -> answered q2 vs2 t2 -> answered (q1 ++ q2) (vs1 ++ vs2) (t1 ++ t2).
Proof. intros H1 H2'. induction H1; cbn; [done|by constructor|by constructor]. Qed.

Lemma process_loop_ok vs fuel ac v w cb :
  polite U -> view ac w v -> inbox ac vs -> no_oom w -> fresh_above w -> v_closing v = false ->
  (length vs <= length (v_replies v))%nat -> (length vs < fuel)%nat ->
  exists ac' w' t v' more,
    process_loop fuel ac cb w = Ok (Some ac', w') /\ view ac' w' v' /\
    v_replies v' = drop (length vs) (v_replies v) ++ more /\ w_objs w' = w_objs w /\
    w_trace w' = w_trace w ++ t /\ answered (take (length vs) (v_replies v)) vs (fn_calls t).
Proof.
  intros Hpol. revert fuel ac v w cb. induction vs as [|val vs IH]; intros fuel ac v w cb Hv Hib Hw Hfr Hcl Hlen Hf;
    (destruct fuel as [|fuel]; [cbn in Hf; lia|]); cbn [process_loop].
  - destruct (get_reply_none ac w Hib) as (r & E & Hib1). rewrite (bind_ok _ _ _ _ _ E). cbn beta iota.
    change (negb (REDIS_OK =? REDIS_OK)) with false. cbn iota. set (ac1 := set_ac_c _ ac).
    pose proof (vw_out _ _ _ Hv) as Hout.
    assert (view ac1 w v) as Hv1.
    { pose proof (view_set_c ac (set_c_reader (Some r) (ac_c ac)) w v Hv eq_refl (v_out v) Hout) as Hx. by destruct v. }
    assert (ac_flag ac1 REDIS_DISCONNECTING = false) as ->.
    { pose proof (vw_closing _ _ _ Hv1) as Hc. rewrite Hcl in Hc. unfold ac_flag, has_flag in *.
      apply negb_false_iff, Z.eqb_eq in Hc. by rewrite (land_sub _ _ REDIS_DISCONNECTING Hc). }
    exists ac1, w, [], v, []. rewrite !app_nil_r. split_and!; try done. constructor.
  - destruct (get_reply_some ac val vs w Hib Hw) as (r & E & Hib1 & _). rewrite (bind_ok _ _ _ _ _ E). cbn beta iota.
    change (negb (REDIS_OK =? REDIS_OK)) with false. cbn iota. set (ac1 := set_ac_c _ ac) in *.
    destruct (v_replies v) as [|x q] eqn:Eq; [cbn in Hlen; lia|].
    assert (view ac1 (next_world val w) v) as Hv1.
    { apply (view_world _ w); [|cbn; lia].
      pose proof (view_set_c ac (set_c_reader (Some r) (ac_c ac)) w v Hv eq_refl (v_out v) (vw_out _ _ _ Hv)) as Hx. by destruct v. }
    destruct (process_reply_ok ac1 v x q vs val w cb Hpol Hv1 Eq Hib1 Hw Hfr)
      as (ac2 & cb2 & w2 & t & v2 & more & E2 & Hv2 & Hq2 & Hcl2 & Hib2 & Hw2 & Ho2 & Hfr2 & Ht2 & Hans).
    rewrite (bind_ok _ _ _ _ _ E2). cbn beta iota.
    destruct (IH fuel ac2 v2 w2 cb2) as (ac3 & w3 & t3 & v3 & more3 & E3 & Hv3 & Hq3 & Ho3 & Ht3 & Hans3); try done.
    { congruence. } { rewrite Hq2, length_app. cbn in Hlen. lia. } { cbn in Hf. lia. }
    cbn in Hlen. rewrite Hq2, drop_app_le, <- app_assoc in Hq3 by lia.
    rewrite Hq2, take_app_le in Hans3 by lia.
    exists ac3, w3, (t ++ t3), v3, (more ++ more3). split_and!; try done; [congruence| |].
    + rewrite Ht3, Ht2, app_assoc. done.
    + unfold fn_calls. rewrite List.filter_app. by apply (answered_app [x] [val]).
Qed.
End dispatch.

(** * Releasing the context *)

(** A callback that, told that there will be no reply, does not call back into
    the library. *)
Definition discreet (U : UserCode) : Prop :=
  (forall fn ac pd w, exists t, call_fn fn ac None pd w = Ok (ac, set_trace (w_trace w ++ t) w) /\
     fn_calls t = [] /\ forallb quiet t = true) /\
  (forall fn ac st w, exists t, call_disconnect fn ac st w = Ok (tt, set_trace (w_trace w ++ t) w) /\
     fn_calls t = [] /\ forallb quiet t = true).

(** The state after the calls [t] and [d] more blocks. *)
Definition steps (w : world) (t : list (syscall * Z)) (d : Z) : world := set_trace (w_trace w ++ t) (add_live d w).

Lemma steps_steps w t d t' d' : steps (steps w t d) t' d' = steps w (t ++ t') (d + d').
Proof. unfold steps. cbn. rewrite <- app_assoc. unfold add_live, set_trace. cbn. f_equal. lia. Qed.

Lemma steps_nil w : steps w [] 0 = w.
Proof. unfold steps. rewrite app_nil_r. cbn. destruct w. unfold add_live, set_trace. cbn. f_equal. lia. Qed.

(** The callbacks [q] called without a reply. *)
Definition null_call (h : gmap loc redisReply) (x : callback) : list (syscall * Z) :=
  match x.1 with Some fn => [(CallFn fn None x.2 h, 0)] | None => [] end.
Definition null_calls (h : gmap loc redisReply) (q : list callback) : list (syscall * Z) := concat (null_call h <$> q).

Definition callback_of (cb : redisCallback) : callback := (cb_fn cb, cb_privdata cb).

(** [ac'] is [ac] but for the flag of a running callback and its lists. *)
Record same_rest (ac ac' : redisAsyncContext) : Prop := {
  sr_c : ac_c ac' = set_c_flags (c_flags (ac_c ac')) (ac_c ac);
  sr_flag : forall f, Z.land (Z.lnot REDIS_IN_CALLBACK) f = f -> ac_flag ac' f = ac_flag ac f;
  sr_ev : ac_ev ac' = ac_ev ac;
  sr_err : ac_err ac' = ac_err ac;
  sr_onDisconnect : ac_onDisconnect ac' = ac_onDisconnect ac;
  sr_channels : ac_channels ac' = ac_channels ac;
  sr_patterns : ac_patterns ac' = ac_patterns ac
}.

#[export] Instance same_rest_refl : Reflexive same_rest.
Proof. intros ac. split; try done. by destruct (ac_c ac). Qed.
#[export] Instance same_rest_trans : Transitive same_rest.
Proof.
  intros a b c [H1 H2 ? ? ? ? ?] [G1 G2 ? ? ? ? ?]. split; try congruence.
  - rewrite G1. cbn. rewrite H1. by destruct (ac_c a), (ac_c b), (ac_c c).
  - intros f Hf. by rewrite G2, H2.
Qed.

(** The lists of [ac] and [ac'] are the same. *)
Definition same_lists (ac ac' : redisAsyncContext) : Prop :=
  ac_replies ac' = ac_replies ac /\ ac_invalid ac' = ac_invalid ac /\ ac_nodes ac' = ac_nodes ac.

Lemma same_lists_ok n ac ac' q qi : same_lists ac ac' -> lists_ok n ac q qi -> lists_ok n ac' q qi.
Proof. intros (E1 & E2 & E3) (a1 & a2 & Hl). exists a1, a2. by rewrite E1, E2, E3. Qed.

Section release.
Context `{Strerror} `{FloatFmt} `{U : UserCode}.
Context (Hdis : discreet U).

Lemma run_null_ok ac cb w :
  exists ac' t, __redisRunCallback ac cb None w = Ok (ac', steps w t 0) /\ same_rest ac ac' /\ same_lists ac ac' /\
    fn_calls t = null_call (w_objs w) (callback_of cb) /\ forallb quiet t = true.
Proof.
  unfold __redisRunCallback, null_call, callback_of. cbn [fst snd]. destruct (cb_fn cb) as [fn|].
  2: { exists ac, []. rewrite steps_nil. by split_and!. }
  cbv zeta. rewrite (bind_ok get_world) with (1 := eq_refl), (bind_ok (log _ _)) with (1 := eq_refl).
  destruct (proj1 Hdis fn (or_flag REDIS_IN_CALLBACK ac) (cb_privdata cb)
    (set_trace (w_trace w ++ [(CallFn fn None (cb_privdata cb) (w_objs w), 0)]) w)) as (t & E & Hc & Hq).
  rewrite (bind_ok _ _ _ _ _ E). eexists _, ((CallFn fn None (cb_privdata cb) (w_objs w), 0) :: t). split_and!.
  - unfold ret, steps. do 2 f_equal. cbn. rewrite <- app_assoc. unfold add_live, set_trace. cbn. f_equal. lia.
  - split; try done. intros f Hf. rewrite ac_flag_clear_other, ac_flag_or_other; [done| |done].
    rewrite <- Hf. rewrite Z.land_assoc. by rewrite Z.land_lnot_diag.
  - done.
  - unfold fn_calls in *. cbn. by rewrite Hc.
  - done.
Qed.

(** Emptying a list with a function that takes out its first callback. *)
Lemma flush_ok shift (L : list callback -> redisAsyncContext -> Prop) :
  (forall ac w, L [] ac -> shift ac w = Ok (None, ac, w)) ->
  (forall x q ac w, L (x :: q) ac -> exists nx ac1,
     shift ac w = Ok (Some (node nx x), ac1, add_live (-1) w) /\ L q ac1 /\ same_rest ac ac1) ->
  (forall q ac ac', same_lists ac ac' -> L q ac -> L q ac') ->
  forall q fuel ac w, L q ac -> (length q < fuel)%nat ->
  exists ac' t, flush_callbacks shift fuel ac w = Ok (ac', steps w t (- zlen q)) /\
    L [] ac' /\ same_rest ac ac' /\ fn_calls t = null_calls (w_objs w) q /\ forallb quiet t = true.
Proof.
  intros Hnil Hcons Hlists q. induction q as [|x q IH]; intros fuel ac w Hl Hf;
    (destruct fuel as [|fuel]; [cbn in Hf; lia|]); cbn [flush_callbacks].
  - rewrite (bind_ok _ _ _ _ _ (Hnil ac w Hl)). exists ac, []. rewrite steps_nil. by split_and!.
  - destruct (Hcons x q ac w Hl) as (nx & ac0 & E & Hl1 & Hs0). rewrite (bind_ok _ _ _ _ _ E). cbn beta iota.
    destruct (run_null_ok ac0 (node nx x) (add_live (-1) w)) as (ac1 & t1 & E1 & Hs1 & Hls & Hc1 & Hq1).
    rewrite (bind_ok _ _ _ _ _ E1).
    destruct (IH fuel ac1 (steps (add_live (-1) w) t1 0)) as (ac2 & t2 & E2 & Hl2 & Hs2 & Hc2 & Hq2).
    { by eapply Hlists. } { cbn in Hf. lia. }
    exists ac2, (t1 ++ t2). split_and!.
    + rewrite E2, steps_steps. do 2 f_equal. unfold steps, add_live, set_trace. cbn. f_equal. lia.
    + done.
    + etrans; [done|]. by etrans.
    + unfold fn_calls in *. rewrite List.filter_app, Hc1, Hc2. unfold null_calls. cbn [fmap list_fmap concat].
      by destruct x.
    + by rewrite forallb_app, Hq1, Hq2.
Qed.

Lemma same_rest_lists l1 l2 h ac : same_rest ac (set_replies l1 h ac) /\ same_rest ac (set_invalid l2 h ac).
Proof. split; split; try done; cbn; by destruct (ac_c ac). Qed.

Lemma flush_replies_ok q fuel n ac qi w :
  lists_ok n ac q qi -> (length q < fuel)%nat ->
  exists ac' t, flush_callbacks shift_replies fuel ac w = Ok (ac', steps w t (- zlen q)) /\
    lists_ok n ac' [] qi /\ same_rest ac ac' /\ fn_calls t = null_calls (w_objs w) q /\ forallb quiet t = true.
Proof.
  apply (flush_ok shift_replies (fun q ac => lists_ok n ac q qi)).
  - intros ac0 w0 Hl. by eapply shift_replies_empty.
  - intros x q0 ac0 w0 Hl. destruct (shift_replies_ok n ac0 x q0 qi w0 Hl) as (nx & l & h & E & Hl1 & _).
    exists nx, (set_replies l h ac0). split_and!; [done|done|]. apply (same_rest_lists l l).
  - intros q0 ac0 ac1. apply same_lists_ok.
Qed.

Lemma flush_invalid_ok qi fuel n ac q w :
  lists_ok n ac q qi -> (length qi < fuel)%nat ->
  exists ac' t, flush_callbacks shift_invalid fuel ac w = Ok (ac', steps w t (- zlen qi)) /\
    lists_ok n ac' q [] /\ same_rest ac ac' /\ fn_calls t = null_calls (w_objs w) qi /\ forallb quiet t = true.
Proof.
  apply (flush_ok shift_invalid (fun qi ac => lists_ok n ac q qi)).
  - intros ac0 w0 Hl. by eapply shift_invalid_empty.
  - intros x q0 ac0 w0 Hl. destruct (shift_invalid_ok n ac0 x q q0 w0 Hl) as (nx & l & h & E & Hl1 & _).
    exists nx, (set_invalid l h ac0). split_and!; [done|done|]. apply (same_rest_lists l l).
  - intros q0 ac0 ac1. apply same_lists_ok.
Qed.

Lemma lists_size n ac q qi : lists_ok n ac q qi -> size (ac_nodes ac) = (length q + length qi)%nat.
Proof.
  intros (a1 & a2 & H1 & H2 & Hd & _ & Hdom). rewrite <- size_dom, Hdom, size_list_to_set.
  - by rewrite length_app, (chain_length _ _ _ (q_chain _ _ _ _ H1)), (chain_length _ _ _ (q_chain _ _ _ _ H2)).
  - apply NoDup_app. split_and!; [by apply (q_nodup _ _ _ _ H1)|done|by apply (q_nodup _ _ _ _ H2)].
Qed.
(** The iterator returns the entries [rem] and then NULL. *)
Fixpoint iterates (d : dict sdshdr redisCallback) (it : dictIterator) (rem : list (dictEntry sdshdr redisCallback)) : Prop :=
  forall w, exists r it', dictNext d it w = Ok (r, it', w) /\
    match rem with [] => r = None | e :: rem' => r = Some e /\ iterates d it' rem' end.

Lemma iter_at_iterates n d t it rem :
  sub_wf n d -> ht_table d = Some t -> iter_at t it rem -> iterates d it rem.
Proof.
  intros Hd Ht. revert it. induction rem as [|e rem IH]; intros it Hit w;
    destruct (dictNext_ok callbackDict n d t it _ w Hd Ht Hit) as (r & it' & E & Hr); exists r, it'.
  - done.
  - destruct Hr as [-> Hit']. auto.
Qed.

Lemma iterates_start n d : sub_wf n d -> iterates d (mkIter (-1) None None) (entries d).
Proof.
  intros Hd. unfold entries. destruct (ht_table d) as [t|] eqn:Ht.
  - eapply iter_at_iterates; [done|done|]. rewrite <- (drop_0 t) at 2. apply (iter_slot t 0 None). lia.
  - intros w. pose proof (dw_table _ _ _ Hd) as Htab. unfold table_ok in Htab. rewrite Ht in Htab.
    eexists _, _. split; [|done]. unfold dictNext. rewrite Htab. cbn [Z.to_nat next_loop it_entry it_index].
    lift_step (int_ok_eq (-1 + 1) ltac:(climits)). rewrite Htab. reflexivity.
Qed.

Lemma subs_same_rest pv ac ac' : same_rest ac ac' -> subs pv ac' = subs pv ac.
Proof. intros Hs. destruct pv; apply Hs. Qed.

Lemma flush_subs_ok pv rem fuel ac it w :
  iterates (subs pv ac) it rem -> (length rem < fuel)%nat ->
  exists ac' t, flush_subs pv fuel ac it w = Ok (ac', steps w t 0) /\ same_rest ac ac' /\ same_lists ac ac' /\
    fn_calls t = null_calls (w_objs w) (callback_of ∘ de_val <$> rem) /\ forallb quiet t = true.
Proof.
  revert fuel ac it w. induction rem as [|e rem IH]; intros fuel ac it w Hit Hf;
    (destruct fuel as [|fuel]; [cbn in Hf; lia|]); cbn [flush_subs];
    destruct (Hit w) as (r & it' & E & Hr); rewrite (bind_ok _ _ _ _ _ E); cbn beta iota.
  - subst r. exists ac, []. rewrite steps_nil. by split_and!.
  - destruct Hr as [-> Hit'].
    destruct (run_null_ok ac (de_val e) w) as (ac1 & t1 & E1 & Hs1 & Hls & Hc1 & Hq1). rewrite (bind_ok _ _ _ _ _ E1).
    destruct (IH fuel ac1 it' (steps w t1 0)) as (ac2 & t2 & E2 & Hs2 & Hls2 & Hc2 & Hq2).
    { by rewrite (subs_same_rest pv ac ac1 Hs1). } { cbn in Hf. lia. }
    exists ac2, (t1 ++ t2). split_and!.
    + by rewrite E2, steps_steps.
    + by etrans.
    + destruct Hls as (? & ? & ?), Hls2 as (? & ? & ?). split_and!; congruence.
    + unfold fn_calls in *. rewrite List.filter_app, Hc1, Hc2. done.
    + by rewrite forallb_app, Hq1, Hq2.
Qed.

(** The blocks of a table. *)
Definition dict_blocks (d : dict sdshdr redisCallback) : Z := 1 + (1 - table_cost d) + ht_used d * 3.

(** The entries of a table are the bindings of its map. *)
Lemma entries_bindings n d :
  sub_wf n d -> (callback_of ∘ de_val <$> entries d) ≡ₚ (callback_of <$> (map_to_list (sub_map d)).*2).
Proof.
  intros Hd. unfold sub_map, dict_map.
  assert (NoDup (((fun e => (dk_canon (de_key e), de_val e)) <$> entries d).*1)) as Hnd.
  { rewrite <- list_fmap_compose. apply (dw_keys _ _ _ Hd). }
  rewrite (map_to_list_to_map _ Hnd), <- !list_fmap_compose. done.
Qed.

Lemma release_subs_ok pv n ac w :
  no_oom w -> sub_wf n (subs pv ac) -> ht_used (subs pv ac) < 2 ^ 63 ->
  exists ac' t l, release_subs pv ac w = Ok (ac', steps w t (- dict_blocks (subs pv ac))) /\ same_rest ac ac' /\
    l ≡ₚ callback_of <$> (map_to_list (sub_map (subs pv ac))).*2 /\
    fn_calls t = null_calls (w_objs w) l /\ forallb quiet t = true.
Proof.
  intros Hw Hd Hu. unfold release_subs, dictGetIterator. rewrite bind_assoc, (bind_ok _ _ _ _ _ (alloc_block_no_oom w Hw)).
  rewrite (bind_ok (ret _)) with (1 := eq_refl).
  destruct (flush_subs_ok pv (entries (subs pv ac)) (S (Z.to_nat (ht_used (subs pv ac)))) ac (mkIter (-1) None None)
    (add_live 1 w)) as (ac1 & t & E & Hs & _ & Hc & Hq).
  { by eapply iterates_start. } { rewrite (dw_used _ _ _ Hd). lia. }
  rewrite (bind_ok _ _ _ _ _ E). rewrite (bind_ok dictReleaseIterator) with (1 := eq_refl).
  rewrite (subs_same_rest pv ac ac1 Hs).
  rewrite (bind_ok _ _ _ _ _ (dictRelease_ok callbackDict n _ _ Hd Hu)).
  exists ac1, t, (callback_of ∘ de_val <$> entries (subs pv ac)). split_and!; [|done|by eapply entries_bindings|done|done].
  unfold ret, dict_blocks, entry_cost. do 2 f_equal. unfold steps, add_live, set_trace. cbn. f_equal. lia.
Qed.
(** The call of the disconnect callback, if there is one to make. *)
Lemma disconnect_callback_ok ac w :
  exists t, (match ac_onDisconnect ac with
             | Some fn =>
                 if ac_flag ac REDIS_CONNECTED then
                   let status := if ac_flag ac REDIS_FREEING then REDIS_OK
                                 else if ac_err ac =? 0 then REDIS_OK else REDIS_ERR in
                   let* _ := log (CallDisconnect fn status) 0 in
                   call_disconnect fn ac status
                 else ret tt
             | None => ret tt
             end) w = Ok (tt, steps w t 0) /\ fn_calls t = [] /\ forallb quiet t = true.
Proof.
  destruct (ac_onDisconnect ac) as [fn|]; [destruct (ac_flag ac REDIS_CONNECTED)|].
  2,3: exists []; by rewrite steps_nil.
  cbv zeta. set (status := if ac_flag ac REDIS_FREEING then _ else _).
  rewrite (bind_ok (log _ _)) with (1 := eq_refl).
  destruct (proj2 Hdis fn ac status (set_trace (w_trace w ++ [(CallDisconnect fn status, 0)]) w)) as (t & E & Hc & Hq).
  exists ((CallDisconnect fn status, 0) :: t). rewrite E. split_and!; [|done|done].
  do 2 f_equal. unfold steps, add_live, set_trace. cbn. rewrite <- app_assoc. f_equal. lia.
Qed.

(** What the context owns, and the descriptor. *)
Record owns (ac : redisAsyncContext) : Prop := {
  ow_reader : exists r n rc d, c_reader (ac_c ac) = Some r /\ holds n r (start rc) d /\ r_reply rc = None;
  ow_fd : 0 < c_fd (ac_c ac)
}.

Lemma redis_free_steps c out w :
  pending c out -> 0 < c_fd c ->
  (exists r n rc d, c_reader c = Some r /\ holds n r (start rc) d /\ r_reply rc = None) ->
  redisFree c w = Ok (tt, steps w [(SysClose (c_fd c), 0)] (-4)).
Proof.
  intros (b & Hob & _) Hfd (r & n & rc & d & Hr & Hh & Hrep). unfold redisFree. rewrite Hob, Hr. btrue (0 <? c_fd c).
  rewrite (bind_ok (sys_close _)) with (1 := eq_refl), (bind_ok (sdsfree (Some b))) with (1 := eq_refl).
  rewrite (bind_ok _ _ _ _ _ (redisReaderFree_ok n r rc d _ Hh Hrep)).
  unfold free, modify. by rewrite !add_live_add.
Qed.

Lemma run_hook_steps h ac w : run_hook h ac w = Ok (tt, steps w (hook_calls h ac) 0).
Proof. rewrite run_hook_ok. unfold steps. by rewrite add_live_0. Qed.

(** The callbacks of a context that is released: those waiting for replies,
    then those of commands issued while subscribed, then the subscriptions. *)
Definition all_callbacks (v : aview) (channels patterns : list callback) : list callback :=
  v_replies v ++ v_invalid v ++ channels ++ patterns.

Lemma null_calls_app h q1 q2 : null_calls h (q1 ++ q2) = null_calls h q1 ++ null_calls h q2.
Proof. unfold null_calls. by rewrite fmap_app, concat_app. Qed.

Lemma hook_quiet h ac : fn_calls (hook_calls h ac) = [] /\ forallb quiet (hook_calls h ac) = true.
Proof. unfold hook_calls. by destruct (ev_fn (ac_ev ac) h). Qed.

(** Everything the context owns but the descriptor. *)
Definition async_blocks (ac : redisAsyncContext) (v : aview) : Z :=
  zlen (v_replies v) + zlen (v_invalid v) + dict_blocks (ac_channels ac) + dict_blocks (ac_patterns ac) + 4.

Lemma async_free_ok ac w v :
  view ac w v -> no_oom w -> owns ac ->
  Z.of_nat (size (v_channels v)) < 2 ^ 30 -> Z.of_nat (size (v_patterns v)) < 2 ^ 30 ->
  exists t l1 l2, __redisAsyncFree ac w = Ok (tt, steps w t (- async_blocks ac v)) /\
    l1 ≡ₚ callback_of <$> (map_to_list (v_channels v)).*2 /\
    l2 ≡ₚ callback_of <$> (map_to_list (v_patterns v)).*2 /\
    fn_calls t = null_calls (w_objs w) (all_callbacks v l1 l2) /\
    exists t0, t = t0 ++ [(SysClose (c_fd (ac_c ac)), 0)] /\ forallb quiet t0 = true.
Proof.
  intros [Hl [Hc Hcm] [Hp Hpm] _ _ Hout] Hw [Hrd Hfd] Hsc Hsp. unfold __redisAsyncFree.
  pose proof (lists_size _ _ _ _ Hl) as Hsize.
  destruct (flush_replies_ok (v_replies v) (S (size (ac_nodes ac))) _ ac _ w Hl) as (ac1 & t1 & E1 & Hl1 & S1 & C1 & Q1); [lia|].
  rewrite (bind_ok _ _ _ _ _ E1). pose proof (lists_size _ _ _ _ Hl1) as Hsize1.
  destruct (flush_invalid_ok (v_invalid v) (S (size (ac_nodes ac1))) _ ac1 _ (steps w t1 (- zlen (v_replies v))) Hl1)
    as (ac2 & t2 & E2 & _ & S2 & C2 & Q2); [cbn in Hsize1; lia|]. rewrite (bind_ok _ _ _ _ _ E2), steps_steps.
  assert (same_rest ac ac2) as S02 by (by etrans).
  pose proof (subs_same_rest false _ _ S02) as Hch2. cbn in Hch2.
  edestruct (release_subs_ok false (w_next w) ac2) as (ac3 & t3 & l1 & E3 & S3 & P3 & C3 & Q3); [| | |rewrite (bind_ok _ _ _ _ _ E3)].
  { exact Hw. } { cbn. by rewrite Hch2. } { cbn. rewrite Hch2, (used_size _ _ Hc), Hcm. lia. }
  rewrite steps_steps. cbn [subs] in *. rewrite Hch2, Hcm in *.
  assert (same_rest ac ac3) as S03 by (by etrans).
  pose proof (subs_same_rest true _ _ S03) as Hpt3. cbn in Hpt3.
  edestruct (release_subs_ok true (w_next w) ac3) as (ac4 & t4 & l2 & E4 & S4 & P4 & C4 & Q4); [| | |rewrite (bind_ok _ _ _ _ _ E4)].
  { exact Hw. } { cbn. by rewrite Hpt3. } { cbn. rewrite Hpt3, (used_size _ _ Hp), Hpm. lia. }
  rewrite steps_steps. cbn [subs] in *. rewrite Hpt3, Hpm in *.
  assert (same_rest ac ac4) as S04 by (by etrans).
  destruct (hook_quiet Cleanup ac4) as [Ch Qh].
  rewrite (bind_ok _ _ _ _ _ (run_hook_steps _ _ _)), steps_steps.
  edestruct (disconnect_callback_ok ac4) as (t5 & E5 & C5 & Q5). rewrite (bind_ok _ _ _ _ _ E5), steps_steps.
  pose proof (sr_c _ _ S04) as Hcc.
  erewrite redis_free_steps; [|rewrite Hcc; exact Hout|rewrite Hcc; exact Hfd|rewrite Hcc; exact Hrd].
  rewrite steps_steps.
  set (hc := hook_calls Cleanup ac4) in *. replace (c_fd (ac_c ac4)) with (c_fd (ac_c ac)) by (by rewrite Hcc).
  exists (t1 ++ t2 ++ t3 ++ t4 ++ hc ++ t5 ++ [(SysClose (c_fd (ac_c ac)), 0)]), l1, l2. split_and!; try done.
  - rewrite <- !app_assoc. do 3 f_equal. unfold async_blocks. lia.
  - unfold fn_calls, all_callbacks in *. rewrite !List.filter_app, C1, C2, C3, C4, Ch, C5, !null_calls_app. cbn.
    by rewrite app_nil_r.
  - exists (t1 ++ t2 ++ t3 ++ t4 ++ hc ++ t5). rewrite <- !app_assoc. split; [done|].
    by rewrite !forallb_app, Q1, Q2, Q3, Q4, Qh, Q5.
Qed.
End release.

(** * Properties *)

Section properties.
Context `{Strerror} `{FloatFmt} `{U : UserCode}.

(** The context is connected, between two replies, and has nothing to read. *)
Record listening (ac : redisAsyncContext) : Prop := {
  li_connected : ac_flag ac REDIS_CONNECTED = true;
  li_inbox : inbox ac [];
  li_small : exists r rc, c_reader (ac_c ac) = Some r /\ holds 0 r (start rc) [] /\ idle rc
}.

(** C10: replies reach their callbacks in the order of the commands.  When a
    packet with the replies [vs] arrives on a connected context with at least
    as many callbacks waiting, [redisAsyncHandleRead] calls the oldest of them,
    in order, each exactly once, with its user data and its own reply (those
    without a function are passed over), releases every reply, and keeps the
    other callbacks waiting; commands that the callbacks issue queue behind
    them. *)
Theorem async_read_dispatches ac v w vs a os :
  polite U -> view ac w v -> listening ac -> no_oom w -> fresh_above w -> v_closing v = false ->
  Forall (value_ok 2) vs -> vs <> [] -> (length vs <= length (v_replies v))%nat ->
  w_os w = a :: os -> delivers a (concat (encode <$> vs)) ->
  exists ac' w' t v' more,
    redisAsyncHandleRead ac w = Ok (Some ac', w') /\ view ac' w' v' /\
    v_replies v' = drop (length vs) (v_replies v) ++ more /\ w_objs w' = w_objs w /\
    w_trace w' = w_trace w ++ t /\ answered (take (length vs) (v_replies v)) vs (fn_calls t).
Proof.
  intros Hpol Hv [Hcon [He Hfl _ _ _] (r & rc & Hr & Hh & Hid)] Hw Hfr Hcl Hok Hne Hlen Hos Ha.
  unfold redisAsyncHandleRead, ensure_connected. rewrite Hcon. cbn [negb].
  rewrite (bind_ok (ret _)) with (1 := eq_refl). cbn beta iota.
  pose proof Ha as (_ & _ & _ & Hsz). unfold READ_SIZE in Hsz.
  destruct (redisBufferRead_ok (ac_c ac) r 0 (start rc) [] a _ os (w_trace w) (w_errno w) w He Hr Hh Hw Ha) as (r1 & Hh1 & E).
  { climits. }
  rewrite <- Hos, io_id in E. cbn [app] in Hh1.
  rewrite (bind_ok _ _ _ _ _ E). change (REDIS_OK =? REDIS_ERR) with false. cbn beta iota.
  set (w1 := io os _ _ w). set (ac1 := set_ac_c (set_c_reader (Some r1) (ac_c ac)) ac).
  rewrite (bind_ok _ _ _ _ _ (run_hook_ok AddRead ac1 w1)). set (w2 := set_trace _ w1).
  assert (view ac1 w2 v) as Hv1.
  { apply (view_world _ w); [|done].
    pose proof (view_set_c ac (set_c_reader (Some r1) (ac_c ac)) w v Hv eq_refl (v_out v) (vw_out _ _ _ Hv)) as Hx. by destruct v. }
  assert (inbox ac1 vs) as Hib.
  { split; try done; [|climits]. by exists r1, (0 + zlen (concat (encode <$> vs))), rc. }
  unfold redisProcessCallbacks. cbn [ac_c ac1 set_ac_c c_reader set_c_reader].
  erewrite (bind_ok (deref (Some r1))) by reflexivity.
  destruct (process_loop_ok vs (S (S (Z.to_nat (r_len r1)))) ac1 v w2 None Hpol Hv1 Hib) as
    (ac2 & w3 & t & v2 & more & E3 & Hv3 & Hq & Ho & Ht & Hans); try done.
  { pose proof (holds_pending _ _ _ _ Hh1). pose proof (length_vs_encode vs). lia. }
  exists ac2, w3, ((SysRead (c_fd (ac_c ac)) READ_SIZE, zlen (concat (encode <$> vs))) :: hook_calls AddRead ac1 ++ t), v2, more.
  split_and!; try done.
  - rewrite Ht. cbn. rewrite <- !app_assoc. done.
  - unfold fn_calls in *. cbn. rewrite List.filter_app. destruct (hook_quiet AddRead ac1) as [Hh0 _].
    unfold fn_calls in Hh0. by rewrite Hh0.
Qed.

(** C29: releasing a context answers everyone.  Outside a callback,
    [redisAsyncFree] calls every callback that is left exactly once with a NULL
    reply, the waiting ones in order, then those of the subscriptions, closes
    the descriptor, and gives back every block the context owns; inside a
    callback it only marks the context, so that it is released when the
    callback returns. *)
Theorem async_free_answers_all ac w v :
  discreet U -> view ac w v -> no_oom w -> owns ac ->
  Z.of_nat (size (v_channels v)) < 2 ^ 30 -> Z.of_nat (size (v_patterns v)) < 2 ^ 30 ->
  if ac_flag ac REDIS_IN_CALLBACK then redisAsyncFree ac w = Ok (Some (or_flag REDIS_FREEING ac), w)
  else
    exists t l1 l2, redisAsyncFree ac w = Ok (None, steps w t (- async_blocks ac v)) /\
      l1 ≡ₚ callback_of <$> (map_to_list (v_channels v)).*2 /\
      l2 ≡ₚ callback_of <$> (map_to_list (v_patterns v)).*2 /\
      fn_calls t = null_calls (w_objs w) (all_callbacks v l1 l2) /\
      forall l, fds_after (c_fd (ac_c ac) :: l) t = Some l.
Proof.
  intros Hdis Hv Hw Ho Hc Hp. unfold redisAsyncFree. cbv zeta.
  rewrite ac_flag_or_other by done. destruct (ac_flag ac REDIS_IN_CALLBACK); cbn [negb]; [done|].
  set (v' := mkView (v_replies v) (v_invalid v) (v_channels v) (v_patterns v) (v_subscribed v) true (v_out v)).
  assert (view (or_flag REDIS_FREEING ac) w v') as Hv'.
  { destruct Hv as [Hl Hch Hpt Hs Hcl Hout]. split; try done.
    - by rewrite ac_flag_or_other.
    - unfold ac_flag, has_flag, or_flag. cbn [ac_c set_ac_c c_flags set_c_flags].
      rewrite Z.land_lor_distr_l. apply negb_true_iff, Z.eqb_neq. intros [_ E]%Z.lor_eq_0_iff. done. }
  destruct (async_free_ok Hdis (or_flag REDIS_FREEING ac) w v' Hv' Hw) as (t & l1 & l2 & E & P1 & P2 & C & t0 & -> & Q); try done.
  { destruct Ho. by split. }
  rewrite (bind_ok _ _ _ _ _ E). eexists _, l1, l2. split_and!; try done.
  intros l. cbn [ac_c or_flag set_ac_c c_fd set_c_flags]. rewrite fds_after_app, fds_after_quiet by done. apply fds_after_close.
Qed.
(** [redisCheckSocketError] on a socket with the pending error [e]. *)
Lemma check_socket_error_fails c fd a os e w :
  w_os w = a :: os -> 0 <= sr_val a -> sr_word a = e -> e <> 0 ->
  exists c', redisCheckSocketError c fd w =
      Ok (REDIS_ERR, c', set_errno e (set_trace (w_trace w ++
        [(SysGetsockopt fd SOL_SOCKET SO_ERROR, sr_val a); (SysClose fd, 0)]) (set_os os w))) /\
    failed c c' /\ c_err c' = REDIS_ERR_IO.
Proof.
  intros Hos Hv He Hne. unfold redisCheckSocketError, oscall, next_answer, bind, ret_val. rewrite Hos.
  bfalse (sr_val a <? 0). cbn [log modify ret sr_val sr_word]. bfalse (sr_val a =? -1). rewrite He.
  rewrite (proj2 (Z.eqb_neq _ _) Hne). cbn [negb modify].
  destruct (set_error_from_errno_ok c REDIS_ERR_IO None
    (set_errno e (set_trace (w_trace (set_os os w) ++ [(SysGetsockopt fd SOL_SOCKET SO_ERROR, sr_val a)]) (set_os os w))))
    as (c' & E & Hf & Hce); [done..|].
  exists c'. unfold fail_close, bind. cbn [log modify ret]. rewrite E. split_and!; [|done|done].
  unfold sys_close, log, modify, ret, set_trace, set_errno. cbn. by rewrite <- app_assoc.
Qed.

(** A connection that fails is closed twice.  When the first event of an
    asynchronous connection finds an error on the socket, [redisCheckSocketError]
    closes the descriptor and leaves it in the context.  The context is then
    released, which closes the same number again: by then it may belong to
    another connection of the process.  For an error that means the connection
    is still in progress the context is kept, with a descriptor that is closed. *)
Theorem failed_connect_closes_twice ac w v a os e l :
  discreet U -> view ac w v -> no_oom w -> owns ac ->
  Z.of_nat (size (v_channels v)) < 2 ^ 30 -> Z.of_nat (size (v_patterns v)) < 2 ^ 30 ->
  ac_flag ac REDIS_CONNECTED = false -> ac_onConnect ac = None ->
  w_os w = a :: os -> 0 <= sr_val a -> sr_word a = e -> e <> 0 -> c_fd (ac_c ac) ∉ l ->
  exists r w' t, redisAsyncHandleWrite ac w = Ok (r, w') /\ w_trace w' = w_trace w ++ t /\
    if e =? EINPROGRESS then
      exists ac', r = Some ac' /\ c_fd (ac_c ac') = c_fd (ac_c ac) /\ fds_after (c_fd (ac_c ac) :: l) t = Some l
    else r = None /\ fds_after (c_fd (ac_c ac) :: l) t = None.
Proof.
  intros Hdis Hv Hw Ho Hsc Hsp Hcon Hcb Hos Hav He Hne Hl.
  unfold redisAsyncHandleWrite, ensure_connected, __redisAsyncHandleConnect. rewrite Hcon. cbn [negb].
  destruct (check_socket_error_fails (ac_c ac) (c_fd (ac_c ac)) a os e w Hos Hav He Hne) as (c' & E & (Hce & Hfd & Hfl & Hob & Hrd) & Hio).
  rewrite !bind_assoc, (bind_ok _ _ _ _ _ E). cbn beta iota. change (REDIS_ERR =? REDIS_ERR) with true. cbv zeta iota.
  set (w1 := set_errno e _). set (ac1 := set_ac_c c' ac). set (fd := c_fd (ac_c ac)) in *.
  set (t1 := [(SysGetsockopt fd SOL_SOCKET SO_ERROR, sr_val a); (SysClose fd, 0)]) in *.
  assert (forall l', fds_after (fd :: l') t1 = Some l') as Ht1 by (intros l'; apply (fds_after_close fd)).
  rewrite bind_assoc, (bind_ok errno) with (1 := eq_refl). change (w_errno w1) with e.
  destruct (e =? EINPROGRESS).
  { exists (Some ac1), w1, t1. split; [|split; [reflexivity|]].
    - rewrite (bind_ok (ret _)) with (1 := eq_refl). cbn beta iota. change (negb (REDIS_OK =? REDIS_OK)) with false. cbn iota.
      replace (ac_flag ac1 REDIS_CONNECTED) with false by (unfold ac_flag, has_flag, ac1 in *; cbn; by rewrite Hfl).
      reflexivity.
    - by exists ac1. }
  change (ac_onConnect ac1) with (ac_onConnect ac). rewrite Hcb, bind_assoc, (bind_ok (ret _)) with (1 := eq_refl).
  unfold __redisAsyncDisconnect. cbn [ac_err __redisAsyncCopyError set_ac_err ac_c ac1 set_ac_c]. rewrite Hio.
  change (REDIS_ERR_IO =? 0) with false. cbv zeta iota. rewrite !bind_assoc, (bind_ok (ret _)) with (1 := eq_refl).
  set (ac2 := or_flag REDIS_DISCONNECTING _).
  set (v2 := mkView (v_replies v) (v_invalid v) (v_channels v) (v_patterns v) (v_subscribed v) true (v_out v)).
  assert (view ac2 w1 v2) as Hv2.
  { destruct Hv as [Hlist Hch Hpt Hs Hcl (b & Hbuf & Hbw)]. split; try done.
    - unfold ac2. rewrite ac_flag_or_other by done. unfold ac_flag, has_flag in *. cbn. by rewrite Hfl.
    - unfold ac_flag, has_flag, ac2, or_flag. cbn [ac_c set_ac_c c_flags set_c_flags].
      rewrite Z.land_lor_distr_l. apply negb_true_iff, Z.eqb_neq. intros [_ E2]%Z.lor_eq_0_iff. done.
    - exists b. split; [|done]. by rewrite <- Hbuf. }
  assert (owns ac2) as Ho2.
  { destruct Ho as [Hr Hf]. split; cbn; [by rewrite Hrd|]. by rewrite Hfd. }
  destruct (async_free_ok Hdis ac2 w1 v2 Hv2 Hw Ho2 Hsc Hsp) as (t2 & l1 & l2 & E2 & _ & _ & _ & t0 & Ht2 & Q).
  rewrite (bind_ok _ _ _ _ _ E2), (bind_ok (ret _)) with (1 := eq_refl). cbn beta iota.
  eexists _, _, (t1 ++ t2). split; [reflexivity|]. split; [cbn; by rewrite <- app_assoc|]. split; [done|].
  rewrite fds_after_app, Ht1. cbn [mbind option_bind]. rewrite Ht2, fds_after_app, fds_after_quiet by done.
  change (c_fd (ac_c ac2)) with (c_fd c'). rewrite Hfd. cbn. by rewrite decide_False.
Qed.
(** The [i]-th object of a value stored from [l] on. *)
Lemma get_layout l rs h w i r :
  w_objs w = map_seq l rs ∪ h -> rs !! i = Some r -> get_obj (l + i)%nat w = Ok (r, w).
Proof.
  intros Hw Hi. unfold get_obj. rewrite Hw.
  rewrite (lookup_union_Some_l _ _ (l + i)%nat r); [done|].
  apply lookup_map_seq_Some. split; [lia|]. by replace (l + i - l)%nat with i by lia.
Qed.

(** A message of a subscription. *)
Definition message (kind name payload : list char) : value := VArray [VBulk kind; VBulk name; VBulk payload].

(** The binding a message is looked up in. *)
Definition bound (v : aview) (kind name : list char) : option redisCallback :=
  (if pattern_variant kind then v_patterns v else v_channels v) !! name.

(** An assertion that holds does nothing. *)
Lemma assert_true {A} b (k : unit -> M A) w : b = true -> bind (assert_ b) k w = k tt w.
Proof. by intros ->. Qed.

Lemma message_callback ac w v w0 kind name payload cb :
  view ac w v -> no_oom w -> w_objs w = map_seq (w_next w0) (layout (w_next w0) (message kind name payload)) ∪ w_objs w0 ->
  kind <> [] -> 2 * zlen name <= INT_MAX -> bound v kind name = None ->
  __redisGetSubscribeCallback ac (arr_obj 3 (Some <$> locs (S (w_next w0)) [VBulk kind; VBulk name; VBulk payload])) cb w =
    Ok (cb, ac, w).
Proof.
  intros [_ [Hc Hcm] [Hp Hpm] _ _ _] Hw Hobjs Hk Hn Hb. set (l := w_next w0) in *.
  unfold __redisGetSubscribeCallback. change (rp_type (arr_obj 3 _) =? REDIS_REPLY_ARRAY) with true. cbn iota.
  rewrite assert_true by done. unfold element. cbn [rp_element arr_obj].
  rewrite !bind_assoc. erewrite (bind_ok (deref (Some _))) by reflexivity. cbn [locs fmap list_fmap lookup list_lookup objects].
  assert (get_obj (S l) w = Ok (str_obj REDIS_REPLY_STRING kind, w)) as E0.
  { replace (S l) with (l + 1)%nat by lia. by apply (get_layout _ _ _ _ 1 _ Hobjs). }
  assert (get_obj (S l + 1)%nat w = Ok (str_obj REDIS_REPLY_STRING name, w)) as E1.
  { replace (S l + 1)%nat with (l + 2)%nat by lia. by apply (get_layout _ _ _ _ 2 _ Hobjs). }
  rewrite (bind_ok _ _ _ _ _ E0), assert_true by done.
  unfold str_of. cbn [rp_str str_obj]. erewrite (bind_ok (deref (Some _))) by reflexivity.
  assert (exists c, mem_get (kind ++ [NUL]) 0 = Ok c /\ (tolower c =? 112) = pattern_variant kind) as (c & Hc0 & Hpv).
  { destruct kind as [|c kind]; [done|]. by exists c. }
  lift_step Hc0. cbv zeta. rewrite Hpv, bind_assoc. erewrite (bind_ok (deref (Some _))) by reflexivity.
  rewrite (bind_ok _ _ _ _ _ E1), assert_true by done. cbn [rp_len rp_str str_obj].
  rewrite size_t_id by climits. destruct (new_name name [NUL] w Hw Hn) as (b & Eb & Hbw & Hbs).
  rewrite (bind_ok _ _ _ _ _ Eb). cbn [find_sub].
  assert (dictFind (subs (pattern_variant kind) ac) b (add_live 1 w) = Ok (None, add_live 1 w)) as Ef.
  { assert (sub_wf (w_next w) (subs (pattern_variant kind) ac)) as Hwf by (by destruct (pattern_variant kind)).
    assert (sub_map (subs (pattern_variant kind) ac) !! name = None) as Hno.
    { unfold bound in Hb. destruct (pattern_variant kind); cbn; congruence. }
    destruct (dictFind_ok callbackDict _ _ b (add_live 1 w) Hwf Hbw) as (r & Er & Hf). rewrite Er.
    apply found_lookup in Hf; [|by apply (dw_keys _ _ _ Hwf)].
    unfold sub_map in Hno. rewrite <- Hbs in Hno. cbn in Hf. rewrite Hno in Hf. by destruct r. }
  rewrite (bind_ok _ _ _ _ _ Ef). rewrite (bind_ok (ret _)) with (1 := eq_refl). cbn beta iota.
  rewrite (bind_ok (sdsfree (Some b))) with (1 := eq_refl). unfold ret. rewrite add_live_add. change (1 + -1) with 0.
  by rewrite add_live_0.
Qed.

(** A message on a channel without a subscription uses a callback that
    nobody set.  In subscribed mode, with no command waiting, a message whose
    channel (or pattern) has no binding leaves the callback variable of
    [redisProcessCallbacks] as it is: when it is the first reply of the packet
    the variable is uninitialised and its function pointer is read. *)
Theorem unexpected_message_uninitialised ac w v kind name payload :
  view ac w v -> no_oom w -> inbox ac [message kind name payload] ->
  v_replies v = [] -> v_subscribed v = true -> kind <> [] -> 2 * zlen name <= INT_MAX ->
  bound v kind name = None ->
  redisProcessCallbacks ac w = Fault Uninitialised.
Proof.
  intros Hv Hw Hib Hq Hs Hk Hn Hb. destruct (inbox_reader ac _ Hib) as (r0 & Hr0 & _).
  unfold redisProcessCallbacks. rewrite Hr0. erewrite (bind_ok (deref (Some r0))) by reflexivity. cbn [process_loop].
  destruct (get_reply_some ac _ [] w Hib Hw) as (r & E & _). rewrite (bind_ok _ _ _ _ _ E). cbn beta iota.
  change (negb (REDIS_OK =? REDIS_OK)) with false. cbv zeta iota. set (ac1 := set_ac_c _ ac).
  set (w1 := next_world _ w).
  assert (view ac1 w1 v) as Hv1.
  { apply (view_world _ w); [|cbn; lia].
    pose proof (view_set_c ac (set_c_reader (Some r) (ac_c ac)) w v Hv eq_refl (v_out v) (vw_out _ _ _ Hv)) as Hx. by destruct v. }
  apply bind_fault. unfold process_reply.
  pose proof (vw_lists _ _ _ Hv1) as Hl. rewrite Hq in Hl.
  rewrite (bind_ok _ _ _ _ _ (shift_replies_empty _ ac1 _ w1 Hl)). cbn beta iota. rewrite !bind_assoc.
  assert (w_objs w1 = map_seq (w_next w) (layout (w_next w) (message kind name payload)) ∪ w_objs w) as Hobjs by done.
  assert (get_obj (w_next w) w1 = Ok (arr_obj 3 (Some <$> locs (S (w_next w)) [VBulk kind; VBulk name; VBulk payload]), w1)) as E0.
  { replace (w_next w) with (w_next w + 0)%nat at 1 by lia. by apply (get_layout _ _ _ _ 0 _ Hobjs). }
  unfold reply_obj. rewrite (bind_ok _ _ _ _ _ E0). rewrite (vw_subscribed _ _ _ Hv1), Hs. cbn [negb andb].
  rewrite !bind_assoc, (bind_ok (assert_ true)) with (1 := eq_refl).
  rewrite bind_assoc, (bind_ok _ _ _ _ _ (message_callback ac1 w1 v w kind name payload None Hv1 Hw Hobjs Hk Hn Hb)).
  done.
Qed.
End properties.

(** * Witnesses *)

Lemma no_user_code_polite : polite no_user_code.
Proof.
  intros fn ac reply pd w v Hv Hw. exists ac, w, v, [], []. by rewrite !app_nil_r.
Qed.

Lemma no_user_code_discreet : discreet no_user_code.
Proof. split; intros; exists []; rewrite app_nil_r; by destruct w. Qed.

(** A context with the flags [fl], the bytes of [b] to be read and two commands
    that wait for their replies. *)
Definition waiting_async (fl : Z) (b : sdshdr) : redisAsyncContext :=
  mkAsync (mkContext 0 [] 3 fl (Some empty_sds) (Some (at_buf b 0 fresh_core))) 0 true (ac_ev demo_async) None None
    (mkList (Some 1%nat) (Some 2%nat)) empty_list (_dictInit callbackDict 0) (_dictInit callbackDict 0)
    {[1%nat := node (Some 2%nat) (Some 5, 50); 2%nat := node None (Some 6, 60)]}.

Definition waiting_view : aview := mkView [(Some 5, 50); (Some 6, 60)] [] ∅ ∅ false false [].

Lemma waiting_view_ok fl b w :
  has_flag (mkContext 0 [] 3 fl None None) REDIS_SUBSCRIBED = false ->
  has_flag (mkContext 0 [] 3 fl None None) (Z.lor REDIS_DISCONNECTING REDIS_FREEING) = false ->
  (2 < w_next w)%nat -> view (waiting_async fl b) w waiting_view.
Proof.
  intros Hs Hc Hn. split; try apply empty_dict_ok; try done.
  - exists [1%nat; 2%nat], []. split_and!; try apply queue_empty; try set_solver.
    + split; try done. apply (bool_decide_unpack _). by vm_compute.
    + intros a Ha. assert (a = 1%nat \/ a = 2%nat) by set_solver. lia.
  - exists empty_sds. split_and!; [done|apply empty_sds_wf|done].
Qed.

Lemma reader_holds b :
  sds_wf b -> 0 <= sh_len b -> holds (sh_len b) (at_buf b 0 fresh_core) (start fresh_core) (sds_str b).
Proof.
  intros Hb Hl. exists b, 0, fresh_core. split_and!; try done; try lia; apply (idle_ready _ fresh_idle).
Qed.

(** A message of a channel, received. *)
Definition hello : value := message (lit "message") (lit "c") (lit "hi").
Definition hello_sds : sdshdr := mkSds (zlen (encode hello)) 0 (encode hello ++ [NUL]).

Lemma hello_wf : sds_wf hello_sds.
Proof. split; vm_compute; done || (split; discriminate) || discriminate. Qed.

Definition ECONNREFUSED : Z := 111.

Definition w3 : world := set_next 3%nat world0.

Lemma waiting_owns fl : owns (waiting_async fl empty_sds).
Proof.
  split; [|done]. exists (at_buf empty_sds 0 fresh_core), 0, fresh_core, []. split_and!; try done.
  exact (reader_holds empty_sds empty_sds_wf ltac:(done)).
Qed.

Lemma waiting_listens : listening (waiting_async REDIS_CONNECTED empty_sds).
Proof.
  pose proof (reader_holds empty_sds empty_sds_wf ltac:(done)) as Hh.
  split; [done| |by exists (at_buf empty_sds 0 fresh_core), fresh_core].
  split; try done. by exists (at_buf empty_sds 0 fresh_core), 0, fresh_core.
Qed.

Lemma async_read_dispatches_witness :
  let vs := [VStatus (lit "OK"); VInteger 7] in
  let ac := waiting_async REDIS_CONNECTED empty_sds in
  let w := set_os [data (concat (encode <$> vs))] w3 in
  exists ac' w' t v' more,
    @redisAsyncHandleRead no_strerror no_user_code ac w = Ok (Some ac', w') /\ view ac' w' v' /\
    v_replies v' = [] ++ more /\ w_objs w' = ∅ /\
    w_trace w' = [] ++ t /\ answered [(Some 5, 50); (Some 6, 60)] vs (fn_calls t).
Proof.
  refine (@async_read_dispatches no_strerror no_user_code (waiting_async REDIS_CONNECTED empty_sds) waiting_view
    (set_os [data (concat (encode <$> [VStatus (lit "OK"); VInteger 7]))] w3) [VStatus (lit "OK"); VInteger 7]
    (data (concat (encode <$> [VStatus (lit "OK"); VInteger 7]))) [] no_user_code_polite _ waiting_listens eq_refl _ eq_refl _ _ _ eq_refl _).
  - apply waiting_view_ok; vm_compute; done || lia.
  - intros j _. reflexivity.
  - repeat constructor; vm_compute; discriminate.
  - discriminate.
  - cbn. lia.
  - apply delivers_data; vm_compute; discriminate.
Defined.

Lemma async_free_answers_all_witness :
  exists t l1 l2,
    @redisAsyncFree no_user_code (waiting_async REDIS_CONNECTED empty_sds) w3 =
      Ok (None, steps w3 t (- async_blocks (waiting_async REDIS_CONNECTED empty_sds) waiting_view)) /\
    l1 ≡ₚ callback_of <$> (map_to_list (∅ : gmap (list Z) redisCallback)).*2 /\
    l2 ≡ₚ callback_of <$> (map_to_list (∅ : gmap (list Z) redisCallback)).*2 /\
    fn_calls t = null_calls ∅ (all_callbacks waiting_view l1 l2) /\
    forall l, fds_after (3 :: l) t = Some l.
Proof.
  refine (@async_free_answers_all no_user_code (waiting_async REDIS_CONNECTED empty_sds) w3 waiting_view
    no_user_code_discreet _ eq_refl (waiting_owns _) _ _).
  - apply waiting_view_ok; vm_compute; done || lia.
  - vm_compute. reflexivity.
  - vm_compute. reflexivity.
Defined.

Lemma failed_connect_closes_twice_witness :
  exists r w' t,
    @redisAsyncHandleWrite no_strerror no_user_code (waiting_async 0 empty_sds)
      (set_os [mkRet 0 0 [] ECONNREFUSED] w3) = Ok (r, w') /\
    w_trace w' = [] ++ t /\ r = None /\ fds_after [3] t = None.
Proof.
  refine (@failed_connect_closes_twice no_strerror no_user_code (waiting_async 0 empty_sds)
    (set_os [mkRet 0 0 [] ECONNREFUSED] w3) waiting_view (mkRet 0 0 [] ECONNREFUSED) [] ECONNREFUSED []
    no_user_code_discreet _ eq_refl (waiting_owns _) _ _ eq_refl eq_refl eq_refl _ eq_refl _ _).
  - apply waiting_view_ok; vm_compute; done || lia.
  - vm_compute. reflexivity.
  - vm_compute. reflexivity.
  - cbn. lia.
  - discriminate.
  - apply not_elem_of_nil.
Defined.

(** A subscribed context that has received the message. *)
Definition hello_async : redisAsyncContext :=
  set_ac_c (mkContext 0 [] 3 (Z.lor REDIS_CONNECTED REDIS_SUBSCRIBED) (Some empty_sds) (Some (at_buf hello_sds 0 fresh_core)))
    demo_async.

Lemma unexpected_message_uninitialised_witness :
  @redisProcessCallbacks no_strerror no_user_code hello_async world0 = Fault Uninitialised.
Proof.
  refine (@unexpected_message_uninitialised no_strerror no_user_code hello_async world0
    (mkView [] [] ∅ ∅ true false []) (lit "message") (lit "c") (lit "hi") _ eq_refl _ eq_refl eq_refl _ _ _).
  - split; try apply empty_dict_ok; try done.
    + exists [], []. split_and!; try apply queue_empty; try done; set_solver.
    + exists empty_sds. split_and!; [done|apply empty_sds_wf|done].
  - split; try done.
    + exists (at_buf hello_sds 0 fresh_core), (sh_len hello_sds), fresh_core. split_and!; [done| |apply fresh_idle].
      exact (reader_holds hello_sds hello_wf ltac:(vm_compute; discriminate)).
    + repeat constructor; vm_compute; discriminate.
  - discriminate.
  - vm_compute. discriminate.
  - reflexivity.
Defined.
