(* ===== verification/Common.v ===== *)
(** Common.cpp of the server: Base64 in lines of 76 characters, the checksum of
    the log records, unique identifiers and timestamps.

    The two tables are regions of bytes; [m_DecodeTable] is a global that
    [initBase64] fills and [Decode] takes.  A data pointer is a region and an
    offset in it, and every access through it is checked. *)

From stdpp Require Import base tactics list numbers strings.
From Stdlib Require Import ZArith Lia.
From S2P Require Import Prelude Printf.

Local Open Scope Z_scope.

(** * Base64 *)

Definition m_EncodeTable : list char :=
  lit "ABCDEFGHIJKLMNOPQRSTUVWXYZabcdefghijklmnopqrstuvwxyz0123456789+/" ++ [NUL].

Definition EQUALS : char := 61.

(** The stores of [-1] in the entries of a list of indices. *)
Fixpoint table_clear (idx : list Z) (t : list char) : outcome (list char) :=
  match idx with
  | [] => Ok t
  | i :: idx' => let! t1 := mem_write t i [unsigned 8 (-1)] in table_clear idx' t1
  end.

Fixpoint index_loop (idx : list Z) (t : list char) : outcome (list char) :=
  match idx with
  | [] => Ok t
  | i :: idx' =>
      let! c := mem_get m_EncodeTable i in
      let! t1 := mem_write t (schar c) [i] in
      let! t2 := mem_write t1 (Z.lor (schar c) 128) [i] in
      let! t3 := mem_write t2 EQUALS [unsigned 8 (-1)] in
      let! t4 := mem_write t3 (Z.lor EQUALS 128) [unsigned 8 (-1)] in
      index_loop idx' t4
  end.

Definition initBase64 (m_DecodeTable : list char) : outcome (list char) :=
  let! t := table_clear (seqZ 0 256) m_DecodeTable in
  index_loop (seqZ 0 64) t.

(** The character of a six-bit value. *)
Definition encode_char (i : Z) : outcome char := mem_get m_EncodeTable i.

Definition EncodeInput1 (pData EncodeBuf : list char) : outcome (list char) :=
  let! p0 := mem_get pData 0 in
  let! c0 := encode_char (Z.shiftr (Z.land p0 252) 2) in
  let! buf := mem_write EncodeBuf 0 [c0] in
  let! c1 := encode_char (Z.shiftl (Z.land p0 3) 4) in
  let! buf := mem_write buf 1 [c1] in
  let! buf := mem_write buf 2 [EQUALS] in
  mem_write buf 3 [EQUALS].

Definition EncodeInput2 (pData EncodeBuf : list char) : outcome (list char) :=
  let! p0 := mem_get pData 0 in
  let! p1 := mem_get pData 1 in
  let! c0 := encode_char (Z.shiftr (Z.land p0 252) 2) in
  let! buf := mem_write EncodeBuf 0 [c0] in
  let! c1 := encode_char (Z.lor (Z.shiftl (Z.land p0 3) 4) (Z.shiftr (Z.land p1 240) 4)) in
  let! buf := mem_write buf 1 [c1] in
  let! c2 := encode_char (Z.shiftl (Z.land p1 15) 2) in
  let! buf := mem_write buf 2 [c2] in
  mem_write buf 3 [EQUALS].

Definition EncodeInput3 (pData EncodeBuf : list char) : outcome (list char) :=
  let! p0 := mem_get pData 0 in
  let! p1 := mem_get pData 1 in
  let! p2 := mem_get pData 2 in
  let! c0 := encode_char (Z.shiftr p0 2) in
  let! buf := mem_write EncodeBuf 0 [c0] in
  let! c1 := encode_char (Z.land (Z.lor (Z.shiftl p0 4) (Z.shiftr p1 4)) 63) in
  let! buf := mem_write buf 1 [c1] in
  let! c2 := encode_char (Z.land (Z.lor (Z.shiftl p1 2) (Z.shiftr p2 6)) 63) in
  let! buf := mem_write buf 2 [c2] in
  let! c3 := encode_char (Z.land p2 63) in
  mem_write buf 3 [c3].

(** The loop over the [n] whole groups that start at the offset [p]. *)
Fixpoint encode_loop (n : nat) (pData : list char) (p : Z) (EncodeBuf : list char) (LineLen : Z)
    (strEncode : list char) : outcome (list char * Z) :=
  match n with
  | O => Ok (strEncode, p)
  | S n' =>
      let! ch0 := mem_get pData p in
      let! ch1 := mem_get pData (p + 1) in
      let! ch2 := mem_get pData (p + 2) in
      let! EncodeBuf := EncodeInput3 [ch0; ch1; ch2] EncodeBuf in
      let strEncode := strEncode ++ cstring EncodeBuf in
      if LineLen + 4 =? 76
      then encode_loop n' pData (p + 3) EncodeBuf 0 (strEncode ++ CRLF)
      else encode_loop n' pData (p + 3) EncodeBuf (LineLen + 4) strEncode
  end.

(** The last one or two bytes, at the offset [p]. *)
Definition encode_rest (pData : list char) (p iMod : Z) (strEncode : list char) : outcome (list char) :=
  if iMod =? 1 then
    let! ch0 := mem_get pData p in
    let! EncodeBuf := EncodeInput1 [ch0] (repeat 0 5) in
    Ok (strEncode ++ cstring EncodeBuf)
  else if iMod =? 2 then
    let! ch0 := mem_get pData p in
    let! ch1 := mem_get pData (p + 1) in
    let! EncodeBuf := EncodeInput2 [ch0; ch1] (repeat 0 5) in
    Ok (strEncode ++ cstring EncodeBuf)
  else Ok strEncode.

Definition Encode (pData : list char) (DataLen : Z) : outcome (list char) :=
  let! (strEncode, p) := encode_loop (Z.to_nat (Z.quot DataLen 3)) pData 0 (repeat 0 5) 0 [] in
  encode_rest pData p (Z.rem DataLen 3) strEncode.

(** [m_DecodeTable[c]], a signed [char]. *)
Definition decode_char (m_DecodeTable : list char) (c : char) : outcome Z :=
  let! v := mem_get m_DecodeTable c in
  Ok (schar v).

(** [++( *nByte)] when [nByte] is not NULL; the count stays below the length of
    the data. *)
Definition count_byte (nByte : option Z) : option Z := Z.succ <$> nByte.

(** One group of characters at the offset [p]; the result is the string, the
    new offset and the count.  Shifts of the value [-1] of a character outside
    the alphabet are those of two's complement. *)
Definition decode_group (t pData : list char) (p : Z) (strDecode : list char) (nByte : option Z) :
    outcome (list char * Z * option Z) :=
  let! x0 := mem_get pData p in
  let! v0 := decode_char t x0 in
  let nValue := Z.shiftl v0 18 in
  let! x1 := mem_get pData (p + 1) in
  let! v1 := decode_char t x1 in
  let nValue := nValue + Z.shiftl v1 12 in
  let strDecode := strDecode ++ [unsigned 8 (Z.shiftr (Z.land nValue 16711680) 16)] in
  let nByte := count_byte nByte in
  let! x2 := mem_get pData (p + 2) in
  if negb (x2 =? EQUALS) then
    let! v2 := decode_char t x2 in
    let nValue := nValue + Z.shiftl v2 6 in
    let strDecode := strDecode ++ [unsigned 8 (Z.shiftr (Z.land nValue 65280) 8)] in
    let nByte := count_byte nByte in
    let! x3 := mem_get pData (p + 3) in
    if negb (x3 =? EQUALS) then
      let! v3 := decode_char t x3 in
      let nValue := nValue + v3 in
      Ok (strDecode ++ [unsigned 8 (Z.land nValue 255)], p + 4, count_byte nByte)
    else Ok (strDecode, p + 3, nByte)
  else Ok (strDecode, p + 2, nByte).

Fixpoint decode_loop (fuel : nat) (t pData : list char) (DataLen i p : Z) (strDecode : list char)
    (nByte : option Z) : outcome (list char * option Z) :=
  if i <? DataLen then
    match fuel with
    | O => Fault OutOfFuel
    | S f =>
        let! x := mem_get pData p in
        if negb (x =? CR) && negb (x =? LF) then
          let! (strDecode, p, nByte) := decode_group t pData p strDecode nByte in
          let! i := int_ok (i + 4) in
          decode_loop f t pData DataLen i p strDecode nByte
        else decode_loop f t pData DataLen (i + 1) (p + 1) strDecode nByte
    end
  else Ok (strDecode, nByte).

Definition Decode (m_DecodeTable pData : list char) (DataLen : Z) (nByte : option Z) : outcome (list char * option Z) :=
  decode_loop (Z.to_nat DataLen) m_DecodeTable pData DataLen 0 0 [] ((fun _ => 0) <$> nByte).

(** * The checksum *)

(** One of the eight rounds on a byte. *)
Definition crc_round (icrc : Z) : Z :=
  let iFlag := icrc mod 2 in
  let icrc := Z.shiftr icrc 1 in
  if negb (iFlag =? 0) then Z.lxor icrc 40961 else icrc.

Definition crc_byte (icrc : Z) (bTemp : char) : Z :=
  let bHight := signed 8 (icrc / 256) in
  let icrc := uint (Z.lxor (schar bTemp) bHight) in
  Nat.iter 8 crc_round icrc.

Fixpoint crc_loop (n : nat) (pszValue : list char) (i icrc : Z) : outcome Z :=
  match n with
  | O => Ok icrc
  | S n' =>
      let! bTemp := mem_get pszValue i in
      crc_loop n' pszValue (i + 1) (crc_byte icrc bTemp)
  end.

Definition GetCRC (pszValue : list char) (nLength : Z) : outcome Z :=
  let bHight := signed 8 255 in
  let bLow := signed 8 255 in
  let! icrc := crc_loop (Z.to_nat nLength) pszValue 0 (uint (bHight * 256 + bLow)) in
  Ok (int icrc).

(** * Identifiers and timestamps *)

Definition UID_FORMAT : list char :=
  lit "%02X%02X%02X%02X%02X%02X%02X%02X%02X%02X%02X%02X%02X%02X%02X".

(** [GetUid] on Linux: [uu] is what [uuid_generate] stores, 16 bytes; the
    result is the region of [puuid] afterwards. *)
Definition GetUid (uu : list char) (puuid : list char) : outcome (list char) :=
  let! text := sprintf UID_FORMAT (VNum <$> uu) in
  mem_write puuid 0 (text ++ [NUL]).

(** The fields of [struct tm] that [strftime] is asked for. *)
Record tm := mkTm { tm_year : Z; tm_mon : Z; tm_mday : Z; tm_hour : Z; tm_min : Z; tm_sec : Z }.

Definition two (z : Z) : list char := (if z <? 10 then lit "0" else []) ++ dec z.
Definition four (z : Z) : list char := dec_signed z.

(** [strftime(buf, 32, "%Y-%m-%d %H:%M:%S", ...)] and [memcpy] of the text,
    without its NUL. *)
Definition strftime_log (t : tm) : list char :=
  four (tm_year t + 1900) ++ lit "-" ++ two (tm_mon t + 1) ++ lit "-" ++ two (tm_mday t) ++ lit " " ++
  two (tm_hour t) ++ lit ":" ++ two (tm_min t) ++ lit ":" ++ two (tm_sec t).
Definition GetDateTime_buf (now : tm) (pdate : list char) : outcome (list char) :=
  mem_write pdate 0 (strftime_log now).

(** The overload that returns a [std::string]: ["%Y%m%d%H%M%S"]. *)
Definition GetDateTime (now : tm) : list char :=
  four (tm_year now + 1900) ++ two (tm_mon now + 1) ++ two (tm_mday now) ++
  two (tm_hour now) ++ two (tm_min now) ++ two (tm_sec now).
