(* ===== verification/Base64.v ===== *)
(** The Base64 of the server against a reference definition, the bounds of its
    reads, and what its checksum depends on. *)

From stdpp Require Import base tactics list numbers strings.
From Stdlib Require Import ZArith Lia.
From S2P Require Import Prelude Printf Common.

Local Open Scope Z_scope.

(** * The reference encoding *)

(** The character of a six-bit value, as in RFC 4648, table 1. *)
Definition symbol (v : Z) : char :=
  if v <? 26 then 65 + v else if v <? 52 then 71 + v else if v <? 62 then v - 4 else if v =? 62 then 43 else 47.

(** The four characters of a 24-bit group. *)
Definition quad (z : Z) : list char :=
  [symbol (z / 262144); symbol (z / 4096 mod 64); symbol (z / 64 mod 64); symbol (z mod 64)].

Definition group (a b c : char) : Z := 65536 * a + 256 * b + c.

(** Groups of three bytes, the last one padded, in lines of 76 characters; [col]
    is the length of the current line. *)
Fixpoint base64 (col : Z) (d : list char) : list char :=
  match d with
  | [] => []
  | [a] => take 2 (quad (group a 0 0)) ++ [EQUALS; EQUALS]
  | [a; b] => take 3 (quad (group a b 0)) ++ [EQUALS]
  | a :: b :: c :: d' =>
      quad (group a b c) ++ (if col + 4 =? 76 then CRLF ++ base64 0 d' else base64 (col + 4) d')
  end.

(** Recursion by groups of three. *)
Lemma list_ind3 {A} (P : list A -> Prop) :
  P [] -> (forall a, P [a]) -> (forall a b, P [a; b]) -> (forall a b c d, P d -> P (a :: b :: c :: d)) -> forall d, P d.
Proof.
  intros H0 H1 H2 H3. fix IH 1. intros [|a [|b [|c d]]]; [done|apply H1|apply H2|]. apply H3, IH.
Qed.

(** * Facts checked on all bytes *)

Definition bytes : list Z := seqZ 0 256.

Lemma elem_bytes c : is_char c -> c ∈ bytes.
Proof. unfold is_char. intros. apply elem_of_seqZ. lia. Qed.

Lemma forall_bytes (P : Z -> Prop) `{!forall c, Decision (P c)} :
  forallb (fun c => bool_decide (P c)) bytes = true -> forall c, is_char c -> P c.
Proof.
  intros Hall c Hc. rewrite forallb_forall in Hall. eapply bool_decide_eq_true_1, Hall, list_elem_of_In, elem_bytes, Hc.
Qed.

Lemma forall_bytes2 (P : Z -> Z -> Prop) `{!forall a b, Decision (P a b)} :
  forallb (fun a => forallb (fun b => bool_decide (P a b)) bytes) bytes = true ->
  forall a b, is_char a -> is_char b -> P a b.
Proof.
  intros Hall a b Ha Hb. rewrite forallb_forall in Hall. specialize (Hall a ltac:(by apply list_elem_of_In, elem_bytes)).
  rewrite forallb_forall in Hall. eapply bool_decide_eq_true_1, Hall, list_elem_of_In, elem_bytes, Hb.
Qed.

Lemma forall_six (P : Z -> Prop) `{!forall c, Decision (P c)} :
  forallb (fun c => bool_decide (P c)) (seqZ 0 64) = true -> forall v, 0 <= v < 64 -> P v.
Proof.
  intros Hall v Hv. rewrite forallb_forall in Hall. eapply bool_decide_eq_true_1, Hall, list_elem_of_In, elem_of_seqZ. lia.
Qed.

Lemma encode_char_symbol v : 0 <= v < 64 -> encode_char v = Ok (symbol v).
Proof. apply (forall_six (fun v => encode_char v = Ok (symbol v))). by vm_compute. Qed.

(** The decoding table. *)
Definition decode_table : list char := Eval vm_compute in
  match initBase64 (repeat 0 256) with Ok t => t | Fault _ => [] end.

Lemma symbol_facts v : 0 <= v < 64 ->
  decode_char decode_table (symbol v) = Ok v /\ symbol v <> CR /\ symbol v <> LF /\ symbol v <> EQUALS /\ symbol v <> NUL.
Proof.
  apply (forall_six (fun v => decode_char decode_table (symbol v) = Ok v /\
    symbol v <> CR /\ symbol v <> LF /\ symbol v <> EQUALS /\ symbol v <> NUL)). by vm_compute.
Qed.

(** The bit manipulations of the encoder, as arithmetic. *)
Lemma bits_hi a : is_char a -> Z.shiftr (Z.land a 252) 2 = a / 4 /\ Z.shiftr a 2 = a / 4.
Proof. apply (forall_bytes (fun a => Z.shiftr (Z.land a 252) 2 = a / 4 /\ Z.shiftr a 2 = a / 4)). by vm_compute. Qed.

Lemma bits_mid a b : is_char a -> is_char b ->
  Z.lor (Z.shiftl (Z.land a 3) 4) (Z.shiftr (Z.land b 240) 4) = a mod 4 * 16 + b / 16 /\
  Z.land (Z.lor (Z.shiftl a 4) (Z.shiftr b 4)) 63 = a mod 4 * 16 + b / 16 /\
  Z.land (Z.lor (Z.shiftl a 2) (Z.shiftr b 6)) 63 = a mod 16 * 4 + b / 64.
Proof.
  apply (forall_bytes2 (fun a b =>
    Z.lor (Z.shiftl (Z.land a 3) 4) (Z.shiftr (Z.land b 240) 4) = a mod 4 * 16 + b / 16 /\
    Z.land (Z.lor (Z.shiftl a 4) (Z.shiftr b 4)) 63 = a mod 4 * 16 + b / 16 /\
    Z.land (Z.lor (Z.shiftl a 2) (Z.shiftr b 6)) 63 = a mod 16 * 4 + b / 64)). by vm_compute.
Qed.

Lemma bits_lo a : is_char a ->
  Z.shiftl (Z.land a 3) 4 = a mod 4 * 16 /\ Z.shiftl (Z.land a 15) 2 = a mod 16 * 4 /\ Z.land a 63 = a mod 64.
Proof.
  apply (forall_bytes (fun a => Z.shiftl (Z.land a 3) 4 = a mod 4 * 16 /\
    Z.shiftl (Z.land a 15) 2 = a mod 16 * 4 /\ Z.land a 63 = a mod 64)). by vm_compute.
Qed.

(** The six-bit values of a group. *)
Lemma group_values a b c : is_char a -> is_char b -> is_char c ->
  group a b c / 262144 = a / 4 /\ group a b c / 4096 mod 64 = a mod 4 * 16 + b / 16 /\
  group a b c / 64 mod 64 = b mod 16 * 4 + c / 64 /\ group a b c mod 64 = c mod 64.
Proof. unfold is_char, group. intros. repeat split; Z.to_euclidean_division_equations; lia. Qed.

(** * The table *)

Lemma table_clear_ok n k (t : list char) :
  length t = (k + n)%nat ->
  table_clear (seqZ (Z.of_nat k) (Z.of_nat n)) t = Ok (take k t ++ repeat 255 n).
Proof.
  revert k t. induction n as [|n IH]; intros k t Hl.
  - cbn. rewrite app_nil_r, take_ge by lia. done.
  - rewrite seqZ_cons by lia. cbn [table_clear]. change (unsigned 8 (-1)) with 255.
    replace (Z.pred (Z.of_nat (S n))) with (Z.of_nat n) by lia. replace (Z.succ (Z.of_nat k)) with (Z.of_nat (S k)) by lia.
    destruct (list_split_at k t ltac:(lia)) as (l & [|x r] & -> & El); [rewrite length_app in Hl; cbn in Hl; lia|].
    rewrite (mem_write_app l [x] r [255]) by (cbn; lia). cbn [obind].
    rewrite IH by (rewrite !length_app in *; cbn in *; lia). f_equal.
    rewrite app_assoc, take_app_length' by (rewrite length_app; cbn; lia).
    rewrite take_app_length' by lia. by rewrite <- app_assoc.
Qed.

Lemma initBase64_ok t : length t = 256%nat -> initBase64 t = Ok decode_table.
Proof.
  intros Hl. unfold initBase64. change (seqZ 0 256) with (seqZ (Z.of_nat 0) (Z.of_nat 256)).
  rewrite (table_clear_ok 256 0 t) by done. cbn [obind take app]. by vm_compute.
Qed.

(** * Encoding *)

(** Six-bit values that are divisions of bytes. *)
Lemma six_values a b : is_char a -> is_char b ->
  0 <= a / 4 < 64 /\ 0 <= a mod 4 * 16 + b / 16 < 64 /\ 0 <= a mod 16 * 4 + b / 64 < 64 /\ 0 <= a mod 64 < 64.
Proof. unfold is_char. intros. repeat split; Z.to_euclidean_division_equations; lia. Qed.

Lemma EncodeInput3_ok a b c w x y z : is_char a -> is_char b -> is_char c ->
  EncodeInput3 [a; b; c] [w; x; y; z; 0] = Ok (take 4 (quad (group a b c)) ++ [] ++ [0]).
Proof.
  intros Ha Hb Hc. unfold EncodeInput3, quad. destruct (group_values a b c Ha Hb Hc) as (-> & -> & -> & ->).
  destruct (six_values a b Ha Hb) as (V1 & V2 & _ & _). destruct (six_values b c Hb Hc) as (_ & _ & V3 & _).
  destruct (six_values c c Hc Hc) as (_ & _ & _ & V4).
  cbn [mem_get obind lookup list_lookup Z.to_nat Z.leb Pos.to_nat].
  change (mem_get [a; b; c] 0) with (Ok a). change (mem_get [a; b; c] 1) with (Ok b). change (mem_get [a; b; c] 2) with (Ok c).
  cbn [obind]. rewrite (proj2 (bits_hi a Ha)), (proj1 (proj2 (bits_mid a b Ha Hb))), (proj2 (proj2 (bits_mid b c Hb Hc))),
    (proj2 (proj2 (bits_lo c Hc))), !encode_char_symbol by lia. done.
Qed.

Lemma EncodeInput2_ok a b : is_char a -> is_char b ->
  EncodeInput2 [a; b] (repeat 0 5) = Ok (take 3 (quad (group a b 0)) ++ [EQUALS] ++ [0]).
Proof.
  intros Ha Hb. assert (is_char 0) as H0 by (unfold is_char; lia). unfold EncodeInput2, quad.
  destruct (group_values a b 0 Ha Hb H0) as (-> & -> & -> & _).
  destruct (six_values a b Ha Hb) as (V1 & V2 & _ & _). destruct (six_values b 0 Hb H0) as (_ & _ & V3 & _).
  change (mem_get [a; b] 0) with (Ok a). change (mem_get [a; b] 1) with (Ok b). cbn [obind].
  rewrite (proj1 (bits_hi a Ha)), (proj1 (bits_mid a b Ha Hb)), (proj1 (proj2 (bits_lo b Hb))).
  change (0 / 64) with 0 in *. rewrite Z.add_0_r in *. rewrite !encode_char_symbol by lia. done.
Qed.

Lemma EncodeInput1_ok a : is_char a ->
  EncodeInput1 [a] (repeat 0 5) = Ok (take 2 (quad (group a 0 0)) ++ [EQUALS; EQUALS] ++ [0]).
Proof.
  intros Ha. assert (is_char 0) as H0 by (unfold is_char; lia). unfold EncodeInput1, quad.
  destruct (group_values a 0 0 Ha H0 H0) as (-> & -> & _ & _). destruct (six_values a 0 Ha H0) as (V1 & V2 & _ & _).
  change (mem_get [a] 0) with (Ok a). cbn [obind].
  rewrite (proj1 (bits_hi a Ha)), (proj1 (bits_lo a Ha)).
  change (0 / 16) with 0 in *. rewrite Z.add_0_r in *. rewrite !encode_char_symbol by lia. done.
Qed.

Lemma quad_not_nul z : 0 <= z < 16777216 -> Forall (fun c => c <> NUL) (quad z).
Proof.
  intros Hz. unfold quad. repeat apply Forall_cons_2; [..|apply Forall_nil_2]; refine (proj2 (proj2 (proj2 (proj2 (symbol_facts _ _)))));
    Z.to_euclidean_division_equations; lia.
Qed.

Lemma group_range a b c : is_char a -> is_char b -> is_char c -> 0 <= group a b c < 16777216.
Proof. unfold is_char, group. lia. Qed.

(** Characters other than NUL. *)
Ltac text := repeat (apply Forall_cons_2; [discriminate|]); apply Forall_nil_2.

(** The text of a group: its characters and padding, without the NUL. *)
Lemma cstring_group k a b c pad : is_char a -> is_char b -> is_char c -> Forall (fun c => c <> NUL) pad ->
  cstring (take k (quad (group a b c)) ++ pad ++ [0]) = take k (quad (group a b c)) ++ pad.
Proof.
  intros Ha Hb Hc Hp. rewrite app_assoc. apply (cstring_app_nul _ []). apply Forall_app; split; [|done].
  by apply Forall_take, quad_not_nul, group_range.
Qed.

Lemma encode_loop_ok rest d : Forall is_char d -> forall pre w x y z col acc,
  obind (encode_loop (length d / 3) (pre ++ d ++ rest) (zlen pre) [w; x; y; z; 0] col acc)
    (fun '(strEncode, p) => encode_rest (pre ++ d ++ rest) p (zlen d mod 3) strEncode) = Ok (acc ++ base64 col d).
Proof.
  assert (is_char 0) as H0 by (unfold is_char; lia).
  induction d as [|a|a b|a b c d IH] using list_ind3; intros Hd pre w x y z col acc;
    repeat match goal with H : Forall is_char (_ :: _) |- _ => apply Forall_cons_1 in H; destruct H end.
  - cbn. by rewrite app_nil_r.
  - change (length [a] / 3)%nat with 0%nat. change (zlen [a] mod 3) with 1. cbn [encode_loop obind]. unfold encode_rest. cbn [Z.eqb Pos.eqb].
    cbn [app]. rewrite mem_get_app by done. cbn [obind]. rewrite EncodeInput1_ok by done. cbn [obind].
    rewrite (cstring_group 2 a 0 0 [EQUALS; EQUALS]) by (done || text). done.
  - change (length [a; b] / 3)%nat with 0%nat. change (zlen [a; b] mod 3) with 2. cbn [encode_loop obind]. unfold encode_rest. cbn [Z.eqb Pos.eqb].
    cbn [app]. rewrite mem_get_app by done. cbn [obind]. rewrite (app_assoc pre [a] (b :: rest) : pre ++ a :: b :: rest = _).
    rewrite mem_get_app by (rewrite length_app; cbn; lia). cbn [obind]. rewrite EncodeInput2_ok by done. cbn [obind].
    rewrite (cstring_group 3 a b 0 [EQUALS]) by (done || text). done.
  - assert (length (a :: b :: c :: d) / 3 = S (length d / 3))%nat as ->.
    { cbn [length]. replace (S (S (S (length d)))) with (length d + 1 * 3)%nat by lia. rewrite Nat.div_add by lia. lia. }
    assert (zlen (a :: b :: c :: d) mod 3 = zlen d mod 3) as ->.
    { cbn [length]. replace (Z.of_nat (S (S (S (length d))))) with (zlen d + 1 * 3) by lia. by rewrite Z.mod_add by lia. }
    cbn [encode_loop app]. rewrite mem_get_app by done. cbn [obind].
    rewrite (app_assoc pre [a] (b :: c :: d ++ rest) : pre ++ a :: b :: c :: d ++ rest = _), mem_get_app by (rewrite length_app; cbn; lia). cbn [obind].
    rewrite (app_assoc (pre ++ [a]) [b] (c :: d ++ rest) : (pre ++ [a]) ++ b :: c :: d ++ rest = _), mem_get_app by (rewrite !length_app; cbn; lia). cbn [obind].
    rewrite EncodeInput3_ok by done. cbn [obind].
    rewrite (cstring_group 4 a b c []) by (done || text). rewrite app_nil_r.
    change (take 4 (quad (group a b c))) with (quad (group a b c)).
    rewrite (app_assoc ((pre ++ [a]) ++ [b]) [c] (d ++ rest) : ((pre ++ [a]) ++ [b]) ++ c :: d ++ rest = _).
    replace (zlen pre + 3) with (zlen (((pre ++ [a]) ++ [b]) ++ [c])) by (rewrite !length_app; cbn; lia).
    cbn [base64]. change (quad (group a b c) ++ [] ++ [0]) with [symbol (group a b c / 262144); symbol (group a b c / 4096 mod 64);
      symbol (group a b c / 64 mod 64); symbol (group a b c mod 64); 0].
    destruct (col + 4 =? 76); rewrite IH by done; rewrite <- !app_assoc; done.
Qed.

Lemma Encode_base64 d rest : Forall is_char d -> Encode (d ++ rest) (zlen d) = Ok (base64 0 d).
Proof.
  intros Hd. unfold Encode. rewrite Z.quot_div_nonneg, Z.rem_mod_nonneg by lia.
  rewrite <- (Nat2Z.inj_div (length d) 3) at 1. rewrite Nat2Z.id. by apply (encode_loop_ok rest d Hd [] 0 0 0 0 0 []).
Qed.

(** * Decoding *)

Lemma land_field n k : 0 <= k -> Z.shiftr (Z.land n (Z.shiftl 255 k)) k = n / 2 ^ k mod 256.
Proof.
  intros Hk. rewrite Z.shiftr_land, Z.shiftr_shiftl_l, Z.sub_diag by lia. change (Z.shiftl 255 0) with (Z.ones 8).
  rewrite Z.land_ones, Z.shiftr_div_pow2 by lia. done.
Qed.

(** The bytes of a group from its symbols: the values the decoder adds up. *)
Lemma decode_values a b c : is_char a -> is_char b -> is_char c ->
  let n2 := Z.shiftl (a / 4) 18 + Z.shiftl (a mod 4 * 16 + b / 16) 12 in
  let n3 := n2 + Z.shiftl (b mod 16 * 4 + c / 64) 6 in
  unsigned 8 (Z.shiftr (Z.land n2 16711680) 16) = a /\
  unsigned 8 (Z.shiftr (Z.land n3 65280) 8) = b /\
  unsigned 8 (Z.land (n3 + c mod 64) 255) = c.
Proof.
  intros Ha Hb Hc n2 n3. unfold is_char in *.
  change 16711680 with (Z.shiftl 255 16). change 65280 with (Z.shiftl 255 8). change 255 with (Z.ones 8) at 3.
  rewrite !land_field, Z.land_ones by lia. unfold n3, n2, unsigned. rewrite !Z.shiftl_mul_pow2 by lia.
  repeat split; Z.to_euclidean_division_equations; lia.
Qed.

Lemma mem_get_off pre l k : 0 <= k -> mem_get (pre ++ l) (zlen pre + k) = mem_get l k.
Proof.
  intros Hk. unfold mem_get. rewrite (proj2 (Z.leb_le 0 k)), (proj2 (Z.leb_le 0 (zlen pre + k))) by lia.
  rewrite lookup_app_r by lia. replace (Z.to_nat (zlen pre + k) - length pre)%nat with (Z.to_nat k) by lia. done.
Qed.

(** Fetching a character of the text that starts after [pre]. *)
Lemma fetch0 x l : mem_get (x :: l) 0 = Ok x. Proof. done. Qed.
Lemma fetch1 x y l : mem_get (x :: y :: l) 1 = Ok y. Proof. done. Qed.
Lemma fetch2 x y z l : mem_get (x :: y :: z :: l) 2 = Ok z. Proof. done. Qed.
Lemma fetch3 x y z w l : mem_get (x :: y :: z :: w :: l) 3 = Ok w. Proof. done. Qed.

Ltac fetch := rewrite ?mem_get_off by lia; rewrite ?fetch0, ?fetch1, ?fetch2, ?fetch3; cbn [obind].

Section group.
Context (a b c : char) (Ha : is_char a) (Hb : is_char b) (Hc : is_char c).
Context (pre rest acc : list char) (nb : option Z).

(** A group of four symbols, or two or three of them and padding. *)
Lemma decode_quad :
  decode_group decode_table (pre ++ quad (group a b c) ++ rest) (zlen pre) acc nb =
  Ok (acc ++ [a; b; c], zlen pre + 4, count_byte (count_byte (count_byte nb))).
Proof using Ha Hb Hc.
  unfold quad. destruct (group_values a b c Ha Hb Hc) as (-> & -> & -> & ->).
  destruct (six_values a b Ha Hb) as (V1 & V2 & _ & _). destruct (six_values b c Hb Hc) as (_ & _ & V3 & _).
  destruct (six_values c c Hc Hc) as (_ & _ & _ & V4). destruct (decode_values a b c Ha Hb Hc) as (R1 & R2 & R3).
  destruct (symbol_facts _ V1) as (D1 & _), (symbol_facts _ V2) as (D2 & _), (symbol_facts _ V3) as (D3 & _ & _ & E3 & _),
    (symbol_facts _ V4) as (D4 & _ & _ & E4 & _).
  unfold decode_group. cbn [app]. rewrite mem_get_app by done. cbn [obind]. rewrite D1. cbn [obind]. cbv zeta.
  fetch. rewrite D2. cbn [obind]. fetch. rewrite (proj2 (Z.eqb_neq _ EQUALS) E3). cbn [negb]. rewrite D3. cbn [obind].
  fetch. rewrite (proj2 (Z.eqb_neq _ EQUALS) E4). cbn [negb]. rewrite D4. cbn [obind].
  rewrite R1, R2, R3, <- !app_assoc. done.
Qed.

Lemma decode_three :
  decode_group decode_table (pre ++ (take 3 (quad (group a b 0)) ++ [EQUALS]) ++ rest) (zlen pre) acc nb =
  Ok (acc ++ [a; b], zlen pre + 3, count_byte (count_byte nb)).
Proof using Ha Hb.
  clear Hc c. assert (is_char 0) as H0 by (unfold is_char; lia).
  unfold quad. destruct (group_values a b 0 Ha Hb H0) as (-> & -> & -> & _).
  destruct (six_values a b Ha Hb) as (V1 & V2 & _ & _). destruct (six_values b 0 Hb H0) as (_ & _ & V3 & _).
  destruct (decode_values a b 0 Ha Hb H0) as (R1 & R2 & _).
  destruct (symbol_facts _ V1) as (D1 & _), (symbol_facts _ V2) as (D2 & _), (symbol_facts _ V3) as (D3 & _ & _ & E3 & _).
  unfold decode_group. cbn [app take]. rewrite mem_get_app by done. cbn [obind]. rewrite D1. cbn [obind]. cbv zeta.
  fetch. rewrite D2. cbn [obind]. fetch. rewrite (proj2 (Z.eqb_neq _ EQUALS) E3). cbn [negb]. rewrite D3. cbn [obind].
  fetch. rewrite Z.eqb_refl. cbn [negb]. rewrite R1, R2, <- !app_assoc. done.
Qed.

Lemma decode_two :
  decode_group decode_table (pre ++ (take 2 (quad (group a 0 0)) ++ [EQUALS; EQUALS]) ++ rest) (zlen pre) acc nb =
  Ok (acc ++ [a], zlen pre + 2, count_byte nb).
Proof using Ha.
  clear Hb Hc b c. assert (is_char 0) as H0 by (unfold is_char; lia).
  unfold quad. destruct (group_values a 0 0 Ha H0 H0) as (-> & -> & _ & _).
  destruct (six_values a 0 Ha H0) as (V1 & V2 & _ & _). destruct (decode_values a 0 0 Ha H0 H0) as (R1 & _ & _).
  destruct (symbol_facts _ V1) as (D1 & _), (symbol_facts _ V2) as (D2 & _).
  unfold decode_group. cbn [app take]. rewrite mem_get_app by done. cbn [obind]. rewrite D1. cbn [obind]. cbv zeta.
  fetch. rewrite D2. cbn [obind]. fetch. rewrite Z.eqb_refl. cbn [negb]. rewrite R1. done.
Qed.
End group.

(** The loop on a group that starts with a symbol. *)
Lemma decode_loop_group f pre v rest n acc nb acc' p' nb' : 0 <= v < 64 -> zlen pre < n <= INT_MAX - 3 ->
  decode_group decode_table (pre ++ symbol v :: rest) (zlen pre) acc nb = Ok (acc', p', nb') ->
  decode_loop (S f) decode_table (pre ++ symbol v :: rest) n (zlen pre) (zlen pre) acc nb =
  decode_loop f decode_table (pre ++ symbol v :: rest) n (zlen pre + 4) p' acc' nb'.
Proof.
  intros Hv Hn Hg. destruct (symbol_facts v Hv) as (_ & Hcr & Hlf & _). cbn [decode_loop].
  rewrite (proj2 (Z.ltb_lt (zlen pre) n)) by lia. rewrite mem_get_app by done. cbn [obind].
  rewrite (proj2 (Z.eqb_neq _ CR) Hcr), (proj2 (Z.eqb_neq _ LF) Hlf). cbn [negb andb]. rewrite Hg. cbn [obind].
  unfold int_ok. btrue ((INT_MIN <=? zlen pre + 4) && (zlen pre + 4 <=? INT_MAX)). done.
Qed.

Lemma decode_loop_newline f pre rest n acc nb : zlen pre + 1 < n ->
  decode_loop (S (S f)) decode_table (pre ++ CRLF ++ rest) n (zlen pre) (zlen pre) acc nb =
  decode_loop f decode_table (pre ++ CRLF ++ rest) n (zlen pre + 1 + 1) (zlen pre + 1 + 1) acc nb.
Proof.
  intros Hn. cbn [decode_loop]. rewrite (proj2 (Z.ltb_lt (zlen pre) n)) by lia. unfold CRLF. cbn [app].
  rewrite mem_get_app by done. cbn [obind]. rewrite Z.eqb_refl. cbn [negb andb]. rewrite (proj2 (Z.ltb_lt (zlen pre + 1) n)) by lia.
  fetch. rewrite Z.eqb_refl, andb_false_r. done.
Qed.

Lemma decode_loop_end f t l n i p acc nb : n <= i -> decode_loop f t l n i p acc nb = Ok (acc, nb).
Proof. intros. destruct f; cbn [decode_loop]; by rewrite (proj2 (Z.ltb_ge i n)) by lia. Qed.

Lemma count_bytes nb (d : list char) : (fun n => n + zlen d) <$> count_byte nb = (fun n => n + (zlen d + 1)) <$> nb.
Proof. destruct nb; cbn; [|done]. f_equal. lia. Qed.

Lemma group_first a b c : is_char a -> is_char b -> is_char c -> 0 <= group a b c / 262144 < 64.
Proof. unfold is_char, group. intros. Z.to_euclidean_division_equations; lia. Qed.

Lemma decode_loop_ok rest d : Forall is_char d -> forall f pre col acc nb n,
  n = zlen pre + zlen (base64 col d) -> n <= INT_MAX - 3 -> (length (base64 col d) <= f)%nat ->
  decode_loop f decode_table (pre ++ base64 col d ++ rest) n (zlen pre) (zlen pre) acc nb =
  Ok (acc ++ d, (fun m => m + zlen d) <$> nb).
Proof.
  assert (is_char 0) as H0 by (unfold is_char; lia).
  induction d as [|a|a b|a b c d IH] using list_ind3; intros Hd f pre col acc nb n En Hn Hf;
    repeat match goal with H : Forall is_char (_ :: _) |- _ => apply Forall_cons_1 in H; destruct H end.
  - rewrite decode_loop_end by (cbn in *; lia). rewrite app_nil_r. do 2 f_equal.
    destruct nb; cbn; [|done]. f_equal. lia.
  - destruct f as [|f]; [cbn in Hf; lia|].
    etransitivity; [refine (decode_loop_group f pre (group a 0 0 / 262144) _ n acc nb _ _ _ _ _ (decode_two a _ pre rest acc nb))|];
      [by apply group_first|cbn in En; lia|done|].
    rewrite decode_loop_end by (cbn in *; lia). do 2 f_equal.
  - destruct f as [|f]; [cbn in Hf; lia|].
    etransitivity; [refine (decode_loop_group f pre (group a b 0 / 262144) _ n acc nb _ _ _ _ _ (decode_three a b _ _ pre rest acc nb))|];
      [by apply group_first|cbn in En; lia|done|done|].
    rewrite decode_loop_end by (cbn in *; lia). do 2 f_equal. destruct nb; cbn; [|done]. f_equal. lia.
  - destruct f as [|f]; [cbn in Hf; lia|]. cbn [base64] in *.
    set (tl := if col + 4 =? 76 then CRLF ++ base64 0 d else base64 (col + 4) d) in *.
    rewrite <- (app_assoc (quad _)).
    etransitivity; [refine (decode_loop_group f pre (group a b c / 262144) _ n acc nb _ _ _ _ _ (decode_quad a b c _ _ _ pre (tl ++ rest) acc nb))|];
      [by apply group_first|cbn in En; lia|done|done|done|].
    change (symbol (group a b c / 262144) :: _) with (quad (group a b c) ++ tl ++ rest).
    rewrite (app_assoc pre). replace (zlen pre + 4) with (zlen (pre ++ quad (group a b c))) by (rewrite length_app; cbn; lia).
    rewrite length_app in En, Hf. change (length (quad (group a b c))) with 4%nat in *.
    assert (forall m, m + zlen (a :: b :: c :: d) = Z.succ (Z.succ (Z.succ m)) + zlen d) as Hc3 by (intros; cbn [length]; lia).
    assert ((fun m => m + zlen (a :: b :: c :: d)) <$> nb = (fun m => m + zlen d) <$> count_byte (count_byte (count_byte nb))) as ->
      by (destruct nb; cbn [fmap option_fmap option_map count_byte]; [by rewrite Hc3|done]).
    unfold tl in *. destruct (col + 4 =? 76).
    + rewrite length_app in En, Hf. cbn [length CRLF] in En, Hf. destruct f as [|[|f]]; [lia..|].
      rewrite <- (app_assoc CRLF), decode_loop_newline by (rewrite length_app; cbn [length quad]; lia).
      rewrite (app_assoc _ CRLF).
      replace (zlen (pre ++ quad (group a b c)) + 1 + 1) with (zlen ((pre ++ quad (group a b c)) ++ CRLF)) by (rewrite !length_app; cbn; lia).
      rewrite IH; [by rewrite <- app_assoc|done|rewrite !length_app; cbn [length quad CRLF]; lia|done|lia].
    + rewrite IH; [by rewrite <- app_assoc|done|rewrite !length_app; cbn [length quad]; lia|done|lia].
Qed.

(** The length of the text: four characters for each group begun, and a line
    break after each 19 whole groups. *)
Lemma base64_length col d :
  zlen (base64 col d) <= 4 * ((zlen d + 2) / 3) + 2 * (zlen d / 3).
Proof.
  revert col. induction d as [|a|a b|a b c d IH] using list_ind3; intros col; [done..|].
  cbn [base64]. rewrite length_app. change (length (quad _)) with 4%nat.
  replace (zlen (a :: b :: c :: d) + 2) with (zlen d + 2 + 1 * 3) by (cbn [length]; lia).
  replace (zlen (a :: b :: c :: d)) with (zlen d + 1 * 3) by (cbn [length]; lia). rewrite !Z.div_add by lia.
  destruct (col + 4 =? 76); [rewrite length_app; cbn [length CRLF]; specialize (IH 0)|specialize (IH (col + 4))]; lia.
Qed.

(** Data whose text has a length an [int] can count. *)
Definition encodable (d : list char) : Prop := Forall is_char d /\ zlen d <= 1000000000.

Lemma encodable_text d : encodable d -> zlen (base64 0 d) <= INT_MAX - 3.
Proof. intros [_ Hl]. pose proof (base64_length 0 d). unfold INT_MAX. Z.to_euclidean_division_equations. lia. Qed.

#[export] Instance encodable_dec d : Decision (encodable d).
Proof. unfold encodable, is_char. apply _. Defined.

(** [Encode] produces the Base64 text of RFC 4648 with a line break after
    each 76 characters, whatever the bytes of the data and whatever follows
    them in memory. *)
Theorem encode_is_base64 d rest : encodable d -> Encode (d ++ rest) (zlen d) = Ok (base64 0 d).
Proof. intros [Hd _]. by apply Encode_base64. Qed.

Lemma encode_is_base64_witness : Encode (lit "Many" ++ [NUL]) 4 = Ok (lit "TWFueQ==").
Proof.
  refine (encode_is_base64 (lit "Many") [NUL] _). apply (bool_decide_eq_true_1 _). by vm_compute.
Defined.

Lemma Decode_base64 d rest n0 : encodable d ->
  Decode decode_table (base64 0 d ++ rest) (zlen (base64 0 d)) n0 = Ok (d, (fun _ => zlen d) <$> n0).
Proof.
  intros Hd. unfold Decode. rewrite Nat2Z.id.
  rewrite (decode_loop_ok rest d (proj1 Hd) _ [] 0 [] _ (zlen (base64 0 d))); [|done|by apply encodable_text|done].
  do 2 f_equal. destruct n0; done.
Qed.

Lemma base64_no_nul d : Forall is_char d -> forall col, Forall (fun c => c <> NUL) (base64 col d).
Proof.
  induction d as [|a|a b|a b c d IH] using list_ind3; intros Hd col; cbn [base64].
  - apply Forall_nil_2.
  - apply Forall_app. split; [|by repeat constructor]. apply Forall_take, quad_not_nul.
    apply Forall_cons in Hd as [Ha _]. unfold is_char, group in *. lia.
  - apply Forall_app. split; [|by repeat constructor]. apply Forall_take, quad_not_nul.
    apply Forall_cons in Hd as [Ha [Hb _]%Forall_cons]. unfold is_char, group in *. lia.
  - apply Forall_cons in Hd as [Ha [Hb [Hc Hd]%Forall_cons]%Forall_cons]. apply Forall_app. split.
    + apply quad_not_nul. unfold is_char, group in *. lia.
    + destruct (col + 4 =? 76); [|by apply IH]. apply Forall_app. split; [by repeat constructor|by apply IH].
Qed.

(** C18: what [Encode] produces, [Decode] turns back into the data, and the
    count it stores is the length of the data; the tables may hold anything
    before [initBase64]. *)
Theorem base64_roundtrip table d rest rest' n0 : length table = 256%nat -> encodable d ->
  exists t text, initBase64 table = Ok t /\ Encode (d ++ rest) (zlen d) = Ok text /\
    Decode t (text ++ rest') (zlen text) n0 = Ok (d, (fun _ => zlen d) <$> n0).
Proof.
  intros Ht Hd. exists decode_table, (base64 0 d). split_and!; [by apply initBase64_ok|by apply Encode_base64, Hd|].
  by apply Decode_base64.
Qed.

Lemma base64_roundtrip_witness :
  exists t text, initBase64 (repeat 0 256) = Ok t /\ Encode (repeat 255 58 ++ []) 58 = Ok text /\
    Decode t (text ++ []) (zlen text) (Some 7) = Ok (repeat 255 58, Some 58).
Proof.
  refine (base64_roundtrip (repeat 0 256) (repeat 255 58) [] [] (Some 7) eq_refl _).
  apply (bool_decide_eq_true_1 _). by vm_compute.
Defined.

(** * The reads of [Decode] *)

Lemma mem_get_in l i : Forall is_char l -> 0 <= i < zlen l -> exists c, mem_get l i = Ok c /\ is_char c.
Proof.
  intros Hl Hi. destruct (lookup_lt_is_Some_2 l (Z.to_nat i) ltac:(lia)) as [c E]. exists c.
  rewrite (mem_get_ok l i c) by (done || lia). split; [done|]. by apply (Forall_lookup_1 _ _ _ _ Hl E).
Qed.

Lemma decode_char_ok c : is_char c -> exists v, decode_char decode_table c = Ok v.
Proof.
  unfold is_char. intros Hc. unfold decode_char, mem_get. rewrite (proj2 (Z.leb_le 0 c)) by lia.
  destruct (lookup_lt_is_Some_2 decode_table (Z.to_nat c)) as [v ->]; [change (length decode_table) with (Z.to_nat 256); lia|].
  cbn [obind]. eauto.
Qed.

(** Reads and decodes the character at an offset. *)
Ltac get_at l i x v :=
  let E := fresh "E" in let Hx := fresh "Hx" in let D := fresh "D" in
  destruct (mem_get_in l i) as (x & E & Hx); [done|lia|]; destruct (decode_char_ok x Hx) as [v D];
  rewrite E; cbn [obind]; rewrite ?D; cbn [obind].

Lemma decode_group_ok text p acc nb : Forall is_char text -> 0 <= p -> p + 4 <= zlen text ->
  exists acc' p' nb', decode_group decode_table text p acc nb = Ok (acc', p', nb') /\ p <= p' <= p + 4 /\
    zlen acc' <= zlen acc + 3 /\ (Forall is_char acc -> Forall is_char acc').
Proof.
  intros Ht Hp Hlen. assert (forall z, is_char (unsigned 8 z)) as Hu by (intros z; apply (unsigned_range 8); lia).
  unfold decode_group. get_at text p x0 v0. cbv zeta. get_at text (p + 1) x1 v1. get_at text (p + 2) x2 v2.
  destruct (x2 =? EQUALS); cbn [negb].
  - eexists _, _, _. split; [done|]. rewrite length_app. cbn [length]. split_and!; [lia..|]. intros. apply Forall_app; split; [done|].
    by apply Forall_singleton.
  - get_at text (p + 3) x3 v3. destruct (x3 =? EQUALS); cbn [negb].
    + eexists _, _, _. split; [done|]. rewrite !length_app. cbn [length]. split_and!; [lia..|]. intros.
      rewrite !Forall_app, !Forall_singleton. by split_and!.
    + eexists _, _, _. split; [done|]. rewrite !length_app. cbn [length]. split_and!; [lia..|]. intros.
      rewrite !Forall_app, !Forall_singleton. by split_and!.
Qed.

Lemma decode_loop_total text n : Forall is_char text -> n + 3 <= zlen text -> n <= INT_MAX - 3 -> forall f i p acc nb,
  0 <= p <= i -> (Z.to_nat (n - i) <= f)%nat -> Forall is_char acc ->
  exists s nb', decode_loop f decode_table text n i p acc nb = Ok (s, nb') /\ Forall is_char s /\ zlen s <= zlen acc + Z.max 0 (n - i + 3) / 4 * 3.
Proof.
  intros Ht Hlen Hn. induction f as [|f IH]; intros i p acc nb Hp Hf Ha.
  - rewrite decode_loop_end by lia. eexists _, _. split_and!; [done|done|]. Z.to_euclidean_division_equations; lia.
  - destruct (Z.ltb_spec i n) as [Hi|Hi]; [|rewrite decode_loop_end by lia; eexists _, _; split_and!; [done|done|];
      Z.to_euclidean_division_equations; lia].
    cbn [decode_loop]. rewrite (proj2 (Z.ltb_lt i n)) by lia.
    destruct (mem_get_in text p) as (x & -> & Hx); [done|lia|]. cbn [obind].
    destruct (negb (x =? CR) && negb (x =? LF)).
    + destruct (decode_group_ok text p acc nb Ht) as (acc' & p' & nb' & -> & Hp' & Hl & Hc); [lia..|]. cbn [obind].
      unfold int_ok. btrue ((INT_MIN <=? i + 4) && (i + 4 <=? INT_MAX)). cbn [obind].
      destruct (IH (i + 4) p' acc' nb') as (s & nb'' & E & Hs & Hsl); [lia|lia|by apply Hc|]. exists s, nb''. split_and!; [done|done|].
      Z.to_euclidean_division_equations; lia.
    + destruct (IH (i + 1) (p + 1) acc nb) as (s & nb'' & E & Hs & Hsl); [lia|lia|done|]. exists s, nb''. split_and!; [done|done|].
      Z.to_euclidean_division_equations; lia.
Qed.

(** On any text, valid Base64 or not, [Decode] ends, reads at most three
    bytes past [DataLen], and returns at most three bytes for each four
    characters begun. *)
Theorem decode_bounds table t text n n0 : length table = 256%nat -> initBase64 table = Ok t ->
  Forall is_char text -> n + 3 <= zlen text -> n <= INT_MAX - 3 ->
  exists s nb, Decode t text n n0 = Ok (s, nb) /\ Forall is_char s /\ zlen s <= Z.max 0 (n + 3) / 4 * 3.
Proof.
  intros Hl Hi Ht Hlen Hn. rewrite initBase64_ok in Hi by done. injection Hi as <-.
  destruct (decode_loop_total text n Ht Hlen Hn (Z.to_nat n) 0 0 [] ((fun _ => 0) <$> n0)) as (s & nb & E & Hs & Hz); [lia|lia|by apply Forall_nil_2|].
  exists s, nb. rewrite Z.sub_0_r in Hz. by split_and!.
Qed.

Lemma decode_bounds_witness :
  exists s nb, Decode decode_table (lit "!?!==") 2 None = Ok (s, nb) /\ Forall is_char s /\ zlen s <= Z.max 0 (2 + 3) / 4 * 3.
Proof.
  refine (decode_bounds (repeat 0 256) decode_table (lit "!?!==") 2 None eq_refl _ _ _ _); [by vm_compute| |by vm_compute|by vm_compute].
  apply (bool_decide_eq_true_1 _). by vm_compute.
Defined.

(** A text that is cut after one or two characters of a group (such as
    unpadded Base64 in a [std::string], which ends in one NUL) makes [Decode]
    read past the end of its buffer. *)
Theorem decode_overread v1 v2 n0 : 0 <= v1 < 64 -> 0 <= v2 < 64 ->
  Decode decode_table [symbol v1; symbol v2; NUL] 2 n0 = Fault OutOfBounds /\
  Decode decode_table [symbol v1; NUL] 1 n0 = Fault OutOfBounds.
Proof.
  intros H1 H2. destruct (symbol_facts v1 H1) as (D1 & Hcr & Hlf & _), (symbol_facts v2 H2) as (D2 & _).
  assert (Gcr := proj2 (Z.eqb_neq _ CR) Hcr). assert (Glf := proj2 (Z.eqb_neq _ LF) Hlf).
  assert (forall f l n nb, 0 < n -> decode_group decode_table (symbol v1 :: l) 0 [] nb = Fault OutOfBounds ->
    decode_loop (S f) decode_table (symbol v1 :: l) n 0 0 [] nb = Fault OutOfBounds) as Hloop.
  { intros f l n nb Hn Hg. cbn [decode_loop]. rewrite (proj2 (Z.ltb_lt 0 n)) by lia. rewrite fetch0. cbn [obind].
    rewrite Gcr, Glf. cbn [negb andb]. by rewrite Hg. }
  unfold Decode. split; (apply (Hloop _ [_; NUL]) || apply (Hloop _ [NUL])); try lia;
    unfold decode_group; rewrite fetch0; cbn [obind]; rewrite D1; cbn [obind]; change (0 + 1) with 1; rewrite fetch1; cbn [obind].
  - by rewrite D2.
  - done.
Qed.

Lemma decode_overread_witness :
  Decode decode_table [symbol 16; symbol 5; NUL] 2 None = Fault OutOfBounds /\
  Decode decode_table [symbol 16; NUL] 1 None = Fault OutOfBounds.
Proof. refine (decode_overread 16 5 None _ _); lia. Defined.

(** * The checksum *)

(** What a checksum can be: the eight rounds on one signed byte. *)
Definition crc_values : list Z := (fun b => int (Nat.iter 8 crc_round (uint (b - 128)))) <$> bytes.

Lemma lxor_schar a b : -128 <= a < 128 -> -128 <= b < 128 -> -128 <= Z.lxor a b < 128.
Proof.
  intros Ha Hb.
  assert (forall a b, is_char a -> is_char b -> -128 <= Z.lxor (a - 128) (b - 128) < 128) as H.
  { apply (forall_bytes2 (fun a b => -128 <= Z.lxor (a - 128) (b - 128) < 128)). by vm_compute. }
  specialize (H (a + 128) (b + 128)). rewrite !Z.add_simpl_r in H. apply H; unfold is_char; lia.
Qed.

Lemma crc_byte_value icrc c : int (crc_byte icrc c) ∈ crc_values.
Proof.
  unfold crc_byte, crc_values. set (x := Z.lxor _ _).
  assert (-128 <= x < 128) as Hx by (apply lxor_schar; apply (signed_range 8); lia).
  apply list_elem_of_fmap. exists (x + 128). split; [by rewrite Z.add_simpl_r|]. apply elem_bytes. unfold is_char. lia.
Qed.

Lemma crc_loop_ok rest s : forall pre icrc,
  crc_loop (length s) (pre ++ s ++ rest) (zlen pre) icrc = Ok (foldl crc_byte icrc s).
Proof.
  induction s as [|c s IH]; intros pre icrc; [done|]. cbn [crc_loop length app]. rewrite mem_get_app by done. cbn [obind].
  rewrite (app_assoc pre [c] (s ++ rest) : pre ++ c :: s ++ rest = _).
  replace (zlen pre + 1) with (zlen (pre ++ [c])) by (rewrite length_app; cbn; lia). by rewrite IH.
Qed.

(** The checksum of a message takes one of 256 values, whatever the length
    of the message: each byte replaces the accumulated remainder by a function
    of its high byte, and the low byte is lost. *)
Theorem checksum_values s rest : s <> [] ->
  exists r, GetCRC (s ++ rest) (zlen s) = Ok r /\ r ∈ crc_values.
Proof.
  intros Hs. unfold GetCRC. rewrite Nat2Z.id, (crc_loop_ok rest s [] _). cbn [obind]. eexists. split; [done|].
  destruct s as [|c s] using rev_ind; [done|]. rewrite foldl_snoc. apply crc_byte_value.
Qed.

Lemma checksum_values_witness :
  exists r, GetCRC (lit "123456789" ++ [NUL]) 9 = Ok r /\ r ∈ crc_values.
Proof. refine (checksum_values (lit "123456789") [NUL] _). discriminate. Defined.
