(* ===== verification/LogCall.v ===== *)
(** Calls of the log by the other components (WLogError of WLog/wLog.h): what a
    message does to the process that logs it.

    The program formats a message into a buffer of 4096 bytes after the time and
    the kind, appends it to a file, and prints the buffer with [printf] as if it
    were a format.  A message that does not fit is written past the end of the
    buffer, and a percent sign in it makes [printf] read arguments that are not
    there; otherwise the caller goes on.  [LogCallSpec] shows that this is what
    [WriteLog] of the component [Log] does. *)

From stdpp Require Import base tactics list numbers strings.
From Stdlib Require Import ZArith Lia.
From S2P Require Import Prelude StateMonad Printf.

Local Open Scope Z_scope.

(** The bytes of the buffer, and those of the time and of the kind of an error. *)
Definition LOG_BUFFER : Z := 4096.
Definition ERROR_HEADER : Z := 26.

(** The newline that is put after a text without one. *)
Definition ends_line (s : list char) : bool := match last s with Some c => (c =? LF) || (c =? CR) | None => false end.
Definition with_newline (text : list char) : list char := text ++ if ends_line text then [] else [LF].

(** A message that goes into the buffer, and that [printf] prints as it is. *)
Definition log_fits (text : list char) : bool := ERROR_HEADER + zlen (with_newline text) <? LOG_BUFFER.

(** [WLogError] with the text that its format and arguments give. *)
Definition log_call (text : list char) : outcome unit :=
  if log_fits text then
    let! _ := sprintf (with_newline text) [] in Ok tt
  else Fault OutOfBounds.
Definition WLogError {S} (text : list char) : SM S unit := slift (log_call text).

(** A text without percent signs does no harm when it is short. *)
Lemma vsprintf_plain `{FloatFmt} s fuel ap : Forall (fun c => c <> NUL /\ c <> 37) s -> (length s < fuel)%nat -> vsprintf_loop fuel s ap = Ok s.
Proof.
  intros Hs. revert fuel. induction Hs as [|c s [H0 H37] _ IH]; intros fuel Hf; (destruct fuel as [|f]; [cbn in Hf; lia|]); [done|].
  cbn [vsprintf_loop]. apply Z.eqb_neq in H0, H37. rewrite H0, H37, IH by (cbn in Hf; lia). done.
Qed.

Lemma log_call_plain text : Forall (fun c => c <> NUL /\ c <> 37) text -> log_call text = if log_fits text then Ok tt else Fault OutOfBounds.
Proof.
  intros Ht. unfold log_call, sprintf, vsprintf. rewrite vsprintf_plain; [done| |lia]. unfold with_newline. apply Forall_app. split; [done|].
  destruct (ends_line text); [by apply Forall_nil_2|by apply Forall_singleton].
Qed.

Lemma WLogError_ok {S} text (s : S) : log_call text = Ok tt -> WLogError text s = Ok (tt, s).
Proof. intros E. unfold WLogError, slift. by rewrite E. Qed.
Lemma WLogError_fault {S} text f (s : S) : log_call text = Fault f -> WLogError text s = Fault f.
Proof. intros E. unfold WLogError, slift. by rewrite E. Qed.
