(* ===== verification/Text.v ===== *)
(** The operations of [std::string] that the server uses, and the splitting of
    a line into fields that its HTTP parser and its configuration share. *)

From stdpp Require Import base tactics list numbers strings.
From Stdlib Require Import ZArith Lia.
From S2P Require Import Prelude Printf.

Local Open Scope Z_scope.

(** * std::string *)

Definition npos : Z := SIZE_MAX.

Fixpoint starts_with (pat s : list char) : bool :=
  match pat, s with
  | [], _ => true
  | p :: pat', c :: s' => (p =? c) && starts_with pat' s'
  | _ :: _, [] => false
  end.

(** [s.find(pat)], counting from [i]. *)
Fixpoint find_from (pat s : list char) (i : Z) : Z :=
  if starts_with pat s then i
  else match s with [] => npos | _ :: s' => find_from pat s' (i + 1) end.
Definition find (s pat : list char) : Z := find_from pat s 0.

(** [s.substr(pos, n)] throws [std::out_of_range] when [pos] is past the end. *)
Definition substr_n (s : list char) (pos n : Z) : outcome (list char) :=
  if zlen s <? pos then Fault Thrown else Ok (take (Z.to_nat n) (drop (Z.to_nat pos) s)).
Definition substr (s : list char) (pos : Z) : outcome (list char) := substr_n s pos npos.

(** [!a.compare(b)]. *)
Definition same (a b : list char) : bool := bool_decide (a = b).

(** [atoi(s.c_str())]: blanks, a sign and digits up to the first other
    character; the number is that of [strtol], cut to an [int]. *)
Fixpoint skip_space (s : list char) : list char :=
  match s with c :: s' => if isspace c then skip_space s' else s | [] => [] end.
Fixpoint number (s : list char) (v : Z) : Z :=
  match s with c :: s' => if isdigit c then number s' (v * 10 + (c - 48)) else v | [] => v end.
Definition strtol (s : list char) : Z :=
  let v := match s with
           | 45 :: s' => - number s' 0
           | 43 :: s' => number s' 0
           | _ => number s 0
           end in
  Z.max LLONG_MIN (Z.min LLONG_MAX v).
Definition atoi (s : list char) : Z := int (strtol (skip_space (cstring s))).

(** A region becomes a [std::string]: the bytes before the first NUL, looked
    for past the end of the region when there is none in it. *)
Definition to_string (buffer : list char) : outcome (list char) :=
  match strlen buffer with Some _ => Ok (cstring buffer) | None => Fault OutOfBounds end.

(** * SplitString *)

(** The loop at the index [i], whose characters are still [rest]. *)
Fixpoint fields_loop (s rest : list char) (splitchar length i start : Z) (vec : list (list char)) :
    outcome (list (list char)) :=
  match rest with
  | [] => Ok vec
  | c :: rest' =>
      if (c =? splitchar) && (i =? 0) then fields_loop s rest' splitchar length (i + 1) (start + 1) vec
      else if c =? splitchar then
        let! field := substr_n s start (i - start) in
        fields_loop s rest' splitchar length (i + 1) (i + 1) (vec ++ [field])
      else if i =? length - 1 then
        let! field := substr_n s start (i + 1 - start) in
        fields_loop s rest' splitchar length (i + 1) start (vec ++ [field])
      else fields_loop s rest' splitchar length (i + 1) start vec
  end.

Definition SplitString (s : list char) (splitchar : char) : outcome (list (list char)) :=
  let length := int (zlen s) in
  fields_loop s (take (Z.to_nat length) s) splitchar length 0 0 [].

(** * The fields of a line *)

(** All fields, the empty ones too. *)
Fixpoint fields_from (sep : char) (cur s : list char) : list (list char) :=
  match s with
  | [] => [cur]
  | c :: s' => if c =? sep then cur :: fields_from sep [] s' else fields_from sep (cur ++ [c]) s'
  end.
Definition fields (sep : char) (s : list char) : list (list char) := fields_from sep [] s.

(** A list without its first, or its last, element when that is empty. *)
Definition drop_first_empty (l : list (list char)) : list (list char) :=
  match l with [] :: l' => l' | _ => l end.
Fixpoint drop_last_empty (l : list (list char)) : list (list char) :=
  match l with
  | [] => []
  | [x] => match x with [] => [] | _ => [x] end
  | x :: l' => x :: drop_last_empty l'
  end.

Lemma drop_last_empty_cons x l : l <> [] -> drop_last_empty (x :: l) = x :: drop_last_empty l.
Proof. by destruct l. Qed.

Lemma fields_from_nonempty sep cur s : fields_from sep cur s <> [].
Proof. revert cur. induction s as [|c s IH]; intros cur; cbn; [done|]. destruct (c =? sep); done. Qed.

Lemma substr_n_app a b c pos n : pos = zlen a -> n = zlen b -> substr_n (a ++ b ++ c) pos n = Ok b.
Proof.
  intros -> ->. unfold substr_n. rewrite (proj2 (Z.ltb_ge _ _)) by (rewrite length_app; lia).
  by rewrite !Nat2Z.id, drop_app_length, take_app_length.
Qed.

Lemma fields_loop_ok sep rest : rest <> [] -> forall pre cur vec,
  pre ++ cur <> [] ->
  fields_loop (pre ++ cur ++ rest) rest sep (zlen (pre ++ cur ++ rest)) (zlen pre + zlen cur) (zlen pre) vec =
  Ok (vec ++ drop_last_empty (fields_from sep cur rest)).
Proof.
  induction rest as [|c rest IH]; [done|]. intros _ pre cur vec Hne.
  assert (0 < zlen pre + zlen cur) as Hi.
  { destruct pre; [destruct cur; [done|]|]; cbn [length]; lia. }
  cbn [fields_loop fields_from]. rewrite (proj2 (Z.eqb_neq _ 0)) by lia. rewrite andb_false_r.
  destruct (Z.eqb_spec c sep) as [->|Hc].
  - rewrite (substr_n_app pre cur) by (done || lia). cbn [obind].
    rewrite drop_last_empty_cons by apply fields_from_nonempty.
    destruct rest as [|c' rest]; [done|].
    replace (zlen pre + zlen cur + 1) with (zlen (pre ++ cur ++ [sep]) + zlen (@nil char)) by (rewrite !length_app; cbn; lia).
    replace (zlen (pre ++ cur ++ [sep]) + zlen (@nil char)) with (zlen (pre ++ cur ++ [sep])) at 2 by (cbn; lia).
    assert (pre ++ cur ++ sep :: c' :: rest = (pre ++ cur ++ [sep]) ++ [] ++ c' :: rest) as -> by (by rewrite <- !app_assoc).
    rewrite IH; [by rewrite <- app_assoc|done|by destruct pre, cur].
  - destruct rest as [|c' rest].
    + rewrite (proj2 (Z.eqb_eq _ _)) by (rewrite !length_app; cbn; lia).
      rewrite <- (app_nil_r (pre ++ cur ++ [c])), <- !app_assoc, (app_assoc cur [c] []).
      rewrite (substr_n_app pre (cur ++ [c]) []) by (rewrite ?length_app; cbn; lia). cbn. by destruct cur.
    + rewrite (proj2 (Z.eqb_neq _ _)) by (rewrite !length_app; cbn [length]; lia).
      replace (zlen pre + zlen cur + 1) with (zlen pre + zlen (cur ++ [c])) by (rewrite length_app; cbn; lia).
      assert (pre ++ cur ++ c :: c' :: rest = pre ++ (cur ++ [c]) ++ c' :: rest) as -> by (by rewrite <- !app_assoc).
      apply IH; [done|]. by destruct pre, cur.
Qed.

Lemma fields_from_first sep cur s : cur <> [] -> drop_first_empty (fields_from sep cur s) = fields_from sep cur s.
Proof.
  revert cur. induction s as [|c s IH]; intros cur Hc; cbn; [by destruct cur|].
  destruct (c =? sep); [by destruct cur|]. apply IH. by destruct cur.
Qed.

Lemma SplitString_fields s sep : zlen s <= INT_MAX ->
  SplitString s sep = Ok (drop_last_empty (drop_first_empty (fields sep s))).
Proof.
  intros Hl. unfold SplitString. rewrite int_id by (unfold INT_MIN; lia). rewrite Nat2Z.id, take_ge by lia.
  destruct s as [|c s]; [done|]. unfold fields. cbn [fields_loop fields_from]. rewrite (Z.eqb_refl 0), andb_true_r.
  destruct (Z.eqb_spec c sep) as [->|Hc].
  - cbn [drop_first_empty]. destruct s as [|c' s]; [done|].
    by refine (fields_loop_ok sep (c' :: s) _ [sep] [] [] _).
  - rewrite fields_from_first by done. destruct s as [|c' s]; [done|].
    rewrite (proj2 (Z.eqb_neq 0 _)) by (cbn [length]; lia).
    by refine (fields_loop_ok sep (c' :: s) _ [] [c] [] _).
Qed.

(** A line made of fields: splitting gives them back. *)
Fixpoint join (sep : char) (l : list (list char)) : list char :=
  match l with
  | [] => []
  | [x] => x
  | x :: l' => x ++ sep :: join sep l'
  end.

Lemma join_cons sep x y l : join sep (x :: y :: l) = x ++ sep :: join sep (y :: l).
Proof. done. Qed.

Lemma fields_from_join sep x l : Forall (fun x => sep ∉ x) (x :: l) -> forall cur,
  fields_from sep cur (join sep (x :: l)) = (cur ++ x) :: l.
Proof.
  revert x. induction l as [|y l IHl]; intros x Hx; apply Forall_cons_1 in Hx as [Hx Hl].
  - cbn [join]. induction x as [|c x IHx]; intros cur; cbn [fields_from]; [by rewrite app_nil_r|].
    apply not_elem_of_cons in Hx as [Hc Hx]. rewrite (proj2 (Z.eqb_neq _ _)) by congruence.
    rewrite IHx by done. by rewrite <- app_assoc.
  - rewrite join_cons. induction x as [|c x IHx]; intros cur; cbn [fields_from app].
    + rewrite Z.eqb_refl, app_nil_r, IHl by done. done.
    + apply not_elem_of_cons in Hx as [Hc Hx]. rewrite (proj2 (Z.eqb_neq _ _)) by congruence.
      rewrite IHx by done. by rewrite <- app_assoc.
Qed.

Lemma drop_last_empty_id l : Forall (fun x => x <> []) l -> drop_last_empty l = l.
Proof.
  induction l as [|x l IH]; intros H; [done|]. apply Forall_cons_1 in H as [Hx Hl].
  destruct l as [|y l]; [by destruct x|]. by rewrite drop_last_empty_cons, IH.
Qed.

Lemma SplitString_join sep l : Forall (fun x => sep ∉ x /\ x <> []) l -> zlen (join sep l) <= INT_MAX ->
  SplitString (join sep l) sep = Ok l.
Proof.
  intros Hl Hs. rewrite SplitString_fields by done. destruct l as [|x l]; [done|]. unfold fields.
  rewrite fields_from_join by (eapply Forall_impl; [done|cbn; tauto]). cbn [app].
  assert (drop_first_empty (x :: l) = x :: l) as -> by (apply Forall_cons_1 in Hl as [[_ Hx] _]; by destruct x).
  rewrite drop_last_empty_id; [done|]. eapply Forall_impl; [done|cbn; tauto].
Qed.

(** * Searching *)

Lemma starts_with_app pat s : starts_with pat (pat ++ s) = true.
Proof. induction pat as [|p pat IH]; cbn; [done|]. by rewrite Z.eqb_refl. Qed.

Lemma starts_with_true pat s : starts_with pat s = true -> exists t, s = pat ++ t.
Proof.
  revert s. induction pat as [|p pat IH]; intros s; cbn; [eauto|]. destruct s as [|c s]; [done|].
  intros [->%Z.eqb_eq H]%andb_prop. destruct (IH s H) as [t ->]. eauto.
Qed.

(** Whether a text occurs in a string. *)
Definition contains (s pat : list char) : bool := negb (find s pat =? npos).

Lemma find_from_range pat s i : 0 <= i -> i + zlen s < npos -> find_from pat s i = npos \/ i <= find_from pat s i <= i + zlen s.
Proof.
  revert i. induction s as [|c s IH]; intros i Hi Hl; cbn [find_from length] in *; destruct (starts_with _ _).
  - lia.
  - by left.
  - lia.
  - destruct (IH (i + 1)) as [->|H]; [lia|lia|by left|right]. lia.
Qed.

(** The first occurrence: the text before it does not contain the pattern,
    even together with the beginning of the occurrence. *)
Definition absent_before (pat a : list char) : Prop :=
  forall k, (k < length a)%nat -> forall t, starts_with pat (drop k a ++ pat ++ t) = false.

Lemma find_from_app pat a t i : absent_before pat a -> find_from pat (a ++ pat ++ t) i = i + zlen a.
Proof.
  revert i. induction a as [|c a IH]; intros i Ha.
  - cbn [app length]. assert (find_from pat (pat ++ t) i = i) as ->; [|lia].
    destruct (pat ++ t) eqn:E; cbn [find_from]; rewrite <- E, starts_with_app; done.
  - cbn [app find_from]. pose proof (Ha 0%nat ltac:(cbn; lia) t) as H0. cbn [drop app] in H0. rewrite H0.
    rewrite IH; [cbn [length]; lia|]. intros k Hk t'. apply (Ha (S k)). cbn. lia.
Qed.
