(* ===== verification/PoolBench.v ===== *)
(** The benchmark of the memory pool (MemPool/main.cpp, TestObj.h): objects are
    created and deleted one at a time, from the pool and then from the C++
    allocator.

    The objects are a map from addresses, apart from the memory of the pool; the
    clock is an argument. *)

From stdpp Require Import base tactics list numbers strings gmap.
From S2P Require Import Prelude StateMonad MemPool MemPoolSpec PoolInv PoolOps PoolLife PoolClient Machine Text Common.

Local Open Scope Z_scope.

(** * The program *)

(** The memory, [g_GlobalIndex], the live objects with their [m_index], and what
    has been printed. *)
Record bench := mkBench { b_mem : pmem; g_GlobalIndex : Z; b_objs : gmap Z Z; b_out : list (list char) }.
Abbreviation BM := (SM bench).

Section bench.
Context `{Malloc}.

Definition on_mem {A} (m : PM A) : BM A := fun s =>
  match m (b_mem s) with Ok (a, mem) => Ok (a, mkBench mem (g_GlobalIndex s) (b_objs s) (b_out s)) | Fault f => Fault f end.

Definition SIZEOF_TESTOBJ : Z := 4.

(** [m_index = g_GlobalIndex++]. *)
Definition TestObj (this : Z) : BM unit :=
  do* s := sget in
  do* next := slift (int_ok (g_GlobalIndex s + 1)) in
  sput (mkBench (b_mem s) next (<[this := g_GlobalIndex s]> (b_objs s)) (b_out s)).

(** The destructor does nothing, also at NULL. *)
Definition delete_TestObj (this : Z) : BM unit :=
  smodify (fun s => mkBench (b_mem s) (g_GlobalIndex s) (delete this (b_objs s)) (b_out s)).

Definition print_text (text : list char) : BM unit :=
  smodify (fun s => mkBench (b_mem s) (g_GlobalIndex s) (b_objs s) (b_out s ++ [text])).

(** [obj.Create(&pool)] and [obj.Delete(&pool, pObj)]. *)
Definition create_TestObj (pool : MemoryPool) : BM Z :=
  do* pObj := on_mem (Create SIZEOF_TESTOBJ (fun _ => sret tt) pool) in
  do* _ := (if pObj =? 0 then sret tt else TestObj pObj) in
  sret pObj.
Definition remove_TestObj (pool : MemoryPool) (pObj : Z) : BM unit :=
  do* _ := delete_TestObj pObj in
  on_mem (Delete (fun _ => sret tt) pool pObj).

(** [while(i++<MAX_NEW)], with the turns that are left. *)
Fixpoint pool_loop (n : nat) (pool : MemoryPool) : BM unit :=
  match n with
  | O => sret tt
  | S n' =>
      do* pObj := create_TestObj pool in
      do* _ := remove_TestObj pool pObj in
      pool_loop n' pool
  end.

Fixpoint new_loop (n : nat) : BM unit :=
  match n with
  | O => sret tt
  | S n' =>
      do* pObj := on_mem (c_new SIZEOF_TESTOBJ) in
      do* _ := TestObj pObj in
      do* _ := delete_TestObj pObj in
      do* _ := on_mem (c_free pObj) in
      new_loop n'
  end.

(** [GetCurrentStringTime(timeStr, 0)] on Linux: [now] is what [time] and
    [localtime_r] give; the text of [strftime] fits [buf]. *)
Definition GetCurrentStringTime (now : tm) : list char := strftime_log now.

Definition bench_line (what : list char) (start finish : tm) : list char :=
  what ++ GetCurrentStringTime start ++ lit " end=" ++ GetCurrentStringTime finish ++ [LF].

(** [MAX_NEW] is [n]; the pool is destroyed when [main] returns. *)
Definition bench_run (n : nat) (t1 t2 t3 t4 : tm) : BM Z :=
  do* pool := on_mem new_MemoryPool in
  do* _ := pool_loop n pool in
  do* _ := print_text (bench_line (lit "Pool::start=") t1 t2) in
  do* _ := new_loop n in
  do* _ := print_text (bench_line (lit "While new ::start=") t3 t4) in
  do* _ := on_mem (delete_MemoryPool pool) in
  sret 0.

Definition MAX_NEW : Z := 100000000.
Definition bench_main : tm -> tm -> tm -> tm -> BM Z := bench_run (Z.to_nat MAX_NEW).
End bench.

(** * The loops *)

Section loops.
Context `{MallocLaws}.

Definition with_mem (s : bench) (m : pmem) (index : Z) : bench := mkBench m index (b_objs s) (b_out s).

(** [Create] without the constructor is [Malloc]. *)
Lemma Create_nothing pool s : Create SIZEOF_TESTOBJ (fun _ => sret tt) pool s = pool_Malloc pool SIZEOF_TESTOBJ s.
Proof. unfold Create, sbind. destruct (pool_Malloc pool SIZEOF_TESTOBJ s) as [[p m]|]; [|done]. by destruct (Z.eqb_spec p 0) as [->|]. Qed.

(** One turn: an object is made and deleted again. *)
Lemma turn_ok pool (s : bench) p m1 m2 : b_objs s = ∅ -> p <> 0 -> 0 <= g_GlobalIndex s < INT_MAX ->
  pool_Malloc pool SIZEOF_TESTOBJ (b_mem s) = Ok (p, m1) -> pool_Free pool p m1 = Ok (tt, m2) ->
  sbind (create_TestObj pool) (remove_TestObj pool) s = Ok (tt, with_mem s m2 (g_GlobalIndex s + 1)).
Proof.
  intros Ho Hp Hg E1 E2. unfold create_TestObj. rewrite sbind_assoc.
  rewrite (sbind_ok (on_mem _) _ s p (mkBench m1 (g_GlobalIndex s) (b_objs s) (b_out s))) by (unfold on_mem; by rewrite Create_nothing, E1).
  rewrite (proj2 (Z.eqb_neq p 0)) by done. rewrite sbind_assoc.
  assert (int_ok (g_GlobalIndex s + 1) = Ok (g_GlobalIndex s + 1)) as Ei by (apply int_ok_eq; unfold INT_MIN, INT_MAX in *; lia).
  unfold TestObj. rewrite sbind_assoc, (sbind_ok sget) with (1 := eq_refl). cbn [g_GlobalIndex b_mem b_objs b_out].
  unfold slift at 1. rewrite Ei, sbind_assoc. rewrite (sbind_ok (fun _ => _)) with (1 := eq_refl). rewrite (sbind_ok (sput _)) with (1 := eq_refl), sbind_ret.
  unfold remove_TestObj, delete_TestObj. rewrite (sbind_ok (smodify _)) with (1 := eq_refl). cbn [b_mem g_GlobalIndex b_objs b_out].
  unfold on_mem, Delete. rewrite sbind_ret. cbn [b_mem]. rewrite E2. unfold with_mem. rewrite Ho. by rewrite delete_insert_id.
Qed.

Lemma inv_tighten B0 arr ca fl live k k' m m' : pool_inv B0 arr ca fl live k m -> pool_inv B0 arr ca fl live k' m' -> pool_inv B0 arr ca fl live k m'.
Proof. intros Hi Hi'. pose proof (pi_count _ _ _ _ _ _ _ Hi). destruct Hi'. by split. Qed.

Lemma small_obj b : let x : piece := (b + HEADER, SIZEOF_TESTOBJ) in is_small x = true /\ base x = b.
Proof. intros x. destruct (small_piece SIZEOF_TESTOBJ ltac:(done) b) as (Hs & Hb & _). done. Qed.

(** While the class of the object has a free block, an object is that block, and
    the C allocator is not asked. *)
Lemma pool_loop_steady B0 arr ca fl k b l n : fl !! class SIZEOF_TESTOBJ = Some (b :: l) -> 0 <= k < INT_MAX ->
  forall s, pool_inv B0 arr ca fl [] k (b_mem s) -> b_objs s = ∅ -> 0 <= g_GlobalIndex s -> g_GlobalIndex s + Z.of_nat n <= INT_MAX ->
  exists m, pool_loop n (mkPool arr 8) s = Ok (tt, with_mem s m (g_GlobalIndex s + Z.of_nat n)) /\
    pool_inv B0 arr ca fl [] k m /\ m_blocks m = m_blocks (b_mem s).
Proof.
  intros Hl Hk. induction n as [|n IH]; intros s Hi Ho Hg Hn.
  - exists (b_mem s). split; [|done]. cbn. unfold with_mem. rewrite Z.add_0_r. by destruct s.
  - destruct (pool_take_ok B0 arr ca fl [] k (b_mem s) SIZEOF_TESTOBJ b l Hi ltac:(done) Hl Hk) as (m1 & E1 & Hb1 & _ & Hi1).
    destruct (small_obj b) as [Hsm Hbase]. set (x := (b + HEADER, SIZEOF_TESTOBJ)) in *.
    destruct (pool_give_ok B0 arr ca _ [] (k + 1) m1 x l Hi1 Hsm) as (m2 & E2 & Hb2 & Hi2 & _); [apply list_lookup_insert_eq; by apply lookup_lt_Some in Hl|].
    cbn [snd x] in Hi2. rewrite Hbase, list_insert_insert_eq, (list_insert_id _ _ _ Hl) in Hi2. apply (inv_tighten _ _ _ _ _ k _ (b_mem s) m2 Hi) in Hi2.
    assert (b + HEADER <> 0) as Hp.
    { destruct (inv_small _ _ _ _ _ _ _ x Hi1 ltac:(by left) Hsm) as (c & l' & _ & _ & _ & _ & _ & (Hblk & _) & _). rewrite Hbase in Hblk.
      pose proof (wf_block m1 (pi_wf _ _ _ _ _ _ _ Hi1) b _ Hblk). unfold HEADER in *. lia. }
    pose proof (turn_ok (mkPool arr 8) s (b + HEADER) m1 m2 Ho Hp ltac:(lia) E1 E2) as Et.
    destruct (IH (with_mem s m2 (g_GlobalIndex s + 1)) Hi2 Ho) as (m & E & Him & Hbm); [cbn; lia|cbn; lia|].
    exists m. cbn [pool_loop]. rewrite <- sbind_assoc. unfold remove_TestObj in Et |- *. run Et. rewrite E. cbn [g_GlobalIndex with_mem b_mem] in *.
    split_and!; [|done|congruence]. unfold with_mem. cbn. do 3 f_equal. lia.
Qed.

Lemma pool_loop_ok B0 arr ca fl k n s : ~ refuses -> 0 <= k < INT_MAX - 1 -> pool_inv B0 arr ca fl [] k (b_mem s) -> b_objs s = ∅ ->
  0 <= g_GlobalIndex s -> g_GlobalIndex s + Z.of_nat n <= INT_MAX ->
  exists m fl' k', pool_loop n (mkPool arr 8) s = Ok (tt, with_mem s m (g_GlobalIndex s + Z.of_nat n)) /\ pool_inv B0 arr ca fl' [] k' m /\ k' <= INT_MAX.
Proof.
  intros Hr Hk Hi Ho Hg Hn. destruct n as [|n].
  { exists (b_mem s), fl, k. split_and!; [|done|lia]. cbn. unfold with_mem. rewrite Z.add_0_r. by destruct s. }
  destruct (pool_Malloc_ok B0 arr ca fl [] k (b_mem s) SIZEOF_TESTOBJ Hi ltac:(done) ltac:(lia)) as (p & m1 & E1 & _ & [(_ & ? & _)|(Hp & fl1 & Hi1)]); [done|].
  assert (is_small (p, SIZEOF_TESTOBJ) = true) as Hsm by done.
  destruct (inv_small _ _ _ _ _ _ _ _ Hi1 ltac:(by left) Hsm) as (c & l & _ & Hl & _).
  destruct (pool_give_ok B0 arr ca fl1 [] (k + 1) m1 _ l Hi1 Hsm Hl) as (m2 & E2 & _ & Hi2 & _).
  pose proof (turn_ok (mkPool arr 8) s p m1 m2 Ho ltac:(lia) ltac:(lia) E1 E2) as Et.
  destruct (pool_loop_steady B0 arr ca (<[class SIZEOF_TESTOBJ := base (p, SIZEOF_TESTOBJ) :: l]> fl1) (k + 1) (base (p, SIZEOF_TESTOBJ)) l n) with (s := with_mem s m2 (g_GlobalIndex s + 1)) as (m & E & Him & _).
  { apply list_lookup_insert_eq. by apply lookup_lt_Some in Hl. } { lia. } { exact Hi2. } { done. } { cbn; lia. } { cbn; lia. }
  eexists m, _, (k + 1). split_and!; [|exact Him|lia]. cbn [pool_loop]. rewrite <- sbind_assoc. run Et. rewrite E. unfold with_mem. cbn. do 3 f_equal. lia.
Qed.

(** The loop over [new] and [delete] leaves the memory as it was. *)
Lemma new_loop_ok B0 arr ca fl k n : ~ refuses -> forall s, pool_inv B0 arr ca fl [] k (b_mem s) -> b_objs s = ∅ ->
  0 <= g_GlobalIndex s -> g_GlobalIndex s + Z.of_nat n <= INT_MAX ->
  exists m, new_loop n s = Ok (tt, with_mem s m (g_GlobalIndex s + Z.of_nat n)) /\ pool_inv B0 arr ca fl [] k m.
Proof.
  intros Hr. induction n as [|n IH]; intros s Hi Ho Hg Hn.
  { exists (b_mem s). split; [|done]. cbn. unfold with_mem. rewrite Z.add_0_r. by destruct s. }
  destruct (c_malloc_ok SIZEOF_TESTOBJ (b_mem s) (pi_wf _ _ _ _ _ _ _ Hi) ltac:(done)) as (p & m1 & E1 & Hwf1 & Hc1 & Hs1 & [(_ & Hpk & _)|(Hp & Hno & Hb1 & _)]).
  { exfalso. apply Hr. by eexists _, _, _. }
  destruct (c_free_ok p SIZEOF_TESTOBJ m1 Hwf1) as (m2 & E2 & Hwf2 & Hc2 & Hb2 & Hs2); [by rewrite Hb1, lookup_insert_eq|].
  assert (m_blocks m2 = m_blocks (b_mem s)) as Hbl by (rewrite Hb2, Hb1; by apply delete_insert_id).
  assert (pool_inv B0 arr ca fl [] k m2) as Hi2.
  { apply (inv_unchanged B0 arr ca fl [] k (b_mem s)); [done|done| |done|congruence]. intros y Hy. pose proof (inv_live _ _ _ _ _ _ _ y Hi Hy) as Hl.
    apply (same_trans _ m1); [by apply Hs1|]. apply Hs2; [intros ->; destruct Hl; congruence|]. rewrite Hb1, lookup_insert_is_Some'. by right. }
  destruct (IH (with_mem s m2 (g_GlobalIndex s + 1)) Hi2 Ho) as (m & E & Him); [cbn; lia|cbn; lia|]. exists m. split; [|done]. cbn [new_loop].
  unfold c_new. rewrite (sbind_ok (on_mem _) _ s p (mkBench m1 (g_GlobalIndex s) (b_objs s) (b_out s))).
  2: { unfold on_mem. rewrite (sbind_ok _ _ _ _ _ E1). by rewrite (proj2 (Z.eqb_neq p 0)) by lia. }
  unfold TestObj. rewrite sbind_assoc, (sbind_ok sget) with (1 := eq_refl). cbn [g_GlobalIndex b_mem b_objs b_out]. rewrite sbind_assoc.
  unfold slift at 1. rewrite int_ok_eq by (unfold INT_MIN, INT_MAX in *; lia). rewrite (sbind_ok (fun _ => _)) with (1 := eq_refl).
  rewrite (sbind_ok (sput _)) with (1 := eq_refl). unfold delete_TestObj. rewrite (sbind_ok (smodify _)) with (1 := eq_refl). cbn [b_mem g_GlobalIndex b_objs b_out].
  rewrite (sbind_ok (on_mem _) _ _ tt (with_mem s m2 (g_GlobalIndex s + 1))).
  2: { unfold on_mem. cbn [b_mem]. rewrite E2. unfold with_mem. rewrite Ho. cbn [b_objs b_out g_GlobalIndex]. by rewrite delete_insert_id. }
  rewrite E. unfold with_mem. cbn. do 3 f_equal. lia.
Qed.
End loops.

(** C36: The benchmark of the pool returns, however many objects it makes: when the
    C allocator has memory, every object is built, counted and deleted, both lines
    are printed, and at the end no object is left and the C allocator has every
    block again. *)
Theorem bench_returns `{MallocLaws} n t1 t2 t3 t4 s :
  ~ refuses -> mem_wf (b_mem s) -> b_objs s = ∅ -> 0 <= g_GlobalIndex s -> g_GlobalIndex s + 2 * Z.of_nat n <= INT_MAX ->
  exists m, bench_run n t1 t2 t3 t4 s =
    Ok (0, mkBench m (g_GlobalIndex s + 2 * Z.of_nat n) ∅ (b_out s ++ [bench_line (lit "Pool::start=") t1 t2; bench_line (lit "While new ::start=") t3 t4])) /\
    m_blocks m = m_blocks (b_mem s).
Proof.
  intros Hr Hwf Ho Hg Hn. unfold bench_run.
  destruct (new_MemoryPool_ok (b_mem s) Hwf) as [[_ ?]|(arr & ca & fl & m0 & E0 & Hi0)]; [done|].
  rewrite (sbind_ok (on_mem _) _ s (mkPool arr 8) (with_mem s m0 (g_GlobalIndex s))) by (unfold on_mem; by rewrite E0).
  destruct (pool_loop_ok (m_blocks (b_mem s)) arr ca fl 1000 n (with_mem s m0 (g_GlobalIndex s))) as (m1 & fl1 & k1 & E1 & Hi1 & Hk1); try done; [cbn; lia|].
  run E1. unfold print_text at 1. rewrite (sbind_ok (smodify _)) with (1 := eq_refl). cbn [with_mem b_mem g_GlobalIndex b_objs b_out].
  set (s1 := mkBench m1 _ _ _). destruct (new_loop_ok (m_blocks (b_mem s)) arr ca fl1 k1 n Hr s1 Hi1 Ho) as (m2 & E2 & Hi2); [cbn; lia|cbn; lia|].
  run E2. unfold print_text. rewrite (sbind_ok (smodify _)) with (1 := eq_refl). cbn [with_mem b_mem g_GlobalIndex b_objs b_out s1].
  destruct (delete_MemoryPool_ok _ _ _ _ _ _ Hi2 Hk1) as (m & E & Hb). exists m. split; [|done].
  rewrite (sbind_ok (on_mem _) _ _ tt (mkBench m (g_GlobalIndex s + 2 * Z.of_nat n) ∅ (b_out s ++ [bench_line (lit "Pool::start=") t1 t2; bench_line (lit "While new ::start=") t3 t4]))); [done|].
  unfold on_mem. cbn [b_mem]. rewrite E. cbn [g_GlobalIndex b_objs b_out]. rewrite Ho, <- app_assoc. cbn [app]. do 3 f_equal. lia.
Qed.

Lemma bench_returns_witness :
  exists m, bench_run 3 (mkTm 115 5 4 12 56 22) (mkTm 115 5 4 12 56 23) (mkTm 115 5 4 12 56 24) (mkTm 115 5 4 12 56 30) (mkBench mem0 0 ∅ []) =
    Ok (0, mkBench m 6 ∅ [lit "Pool::start=2015-06-04 12:56:22 end=2015-06-04 12:56:23" ++ [LF];
                          lit "While new ::start=2015-06-04 12:56:24 end=2015-06-04 12:56:30" ++ [LF]]) /\ m_blocks m = ∅.
Proof.
  refine (bench_returns 3 (mkTm 115 5 4 12 56 22) (mkTm 115 5 4 12 56 23) (mkTm 115 5 4 12 56 24) (mkTm 115 5 4 12 56 30) (mkBench mem0 0 ∅ []) _ _ _ _ _).
  - by intros (st & bl & n & [=]).
  - exact mem0_wf.
  - done.
  - done.
  - by vm_compute.
Defined.
