(* ===== verification/Http.v ===== *)
(** The HTTP parser of the server (CHttpParse.h, CHttpParse.cpp).

    [m_requestData] is a reference to a string of the parser's owner, so the
    parser works on a pair: its own fields and the string it refers to, which
    it consumes line by line.  [m_connection] is [None] while it has not been
    assigned.  The messages for the log are part of the results of the functions
    that write them, in the order in which they are written; what they do there
    is in [LogCallSpec]. *)

From stdpp Require Import base tactics list numbers strings.
From Stdlib Require Import ZArith Lia.
From S2P Require Import Prelude StateMonad LogCall Text.

Local Open Scope Z_scope.

Inductive HTTP_METHOD := METHOD_UNKNOW | METHOD_GET | METHOD_POST | METHOD_HEADER.
Inductive CON_TYPE := CON_UNKNOW | CON_CLOSE | CON_KEEP_LIVE.

#[export] Instance HTTP_METHOD_eq_dec : EqDecision HTTP_METHOD.
Proof. solve_decision. Defined.
#[export] Instance CON_TYPE_eq_dec : EqDecision CON_TYPE.
Proof. solve_decision. Defined.

Record CHttpParse := mkParse {
  m_httpMethod : HTTP_METHOD;
  m_connection : option CON_TYPE;
  m_host : list char;
  m_version : list char;
  m_user_agent : list char;
  m_referer : list char;
  m_accept_encoding : list char;
  m_accept : list char;
  m_language : list char;
  m_content_lenght : Z;
  m_content : list char;
  m_bHeaderDown : bool
}.

#[export] Instance CHttpParse_eq_dec : EqDecision CHttpParse.
Proof. solve_decision. Defined.

Definition set_method x (p : CHttpParse) := mkParse x (m_connection p) (m_host p) (m_version p) (m_user_agent p)
  (m_referer p) (m_accept_encoding p) (m_accept p) (m_language p) (m_content_lenght p) (m_content p) (m_bHeaderDown p).
Definition set_connection x (p : CHttpParse) := mkParse (m_httpMethod p) (Some x) (m_host p) (m_version p) (m_user_agent p)
  (m_referer p) (m_accept_encoding p) (m_accept p) (m_language p) (m_content_lenght p) (m_content p) (m_bHeaderDown p).
Definition set_host x (p : CHttpParse) := mkParse (m_httpMethod p) (m_connection p) x (m_version p) (m_user_agent p)
  (m_referer p) (m_accept_encoding p) (m_accept p) (m_language p) (m_content_lenght p) (m_content p) (m_bHeaderDown p).
Definition set_version x (p : CHttpParse) := mkParse (m_httpMethod p) (m_connection p) (m_host p) x (m_user_agent p)
  (m_referer p) (m_accept_encoding p) (m_accept p) (m_language p) (m_content_lenght p) (m_content p) (m_bHeaderDown p).
Definition set_user_agent x (p : CHttpParse) := mkParse (m_httpMethod p) (m_connection p) (m_host p) (m_version p) x
  (m_referer p) (m_accept_encoding p) (m_accept p) (m_language p) (m_content_lenght p) (m_content p) (m_bHeaderDown p).
Definition set_referer x (p : CHttpParse) := mkParse (m_httpMethod p) (m_connection p) (m_host p) (m_version p) (m_user_agent p)
  x (m_accept_encoding p) (m_accept p) (m_language p) (m_content_lenght p) (m_content p) (m_bHeaderDown p).
Definition set_accept_encoding x (p : CHttpParse) := mkParse (m_httpMethod p) (m_connection p) (m_host p) (m_version p) (m_user_agent p)
  (m_referer p) x (m_accept p) (m_language p) (m_content_lenght p) (m_content p) (m_bHeaderDown p).
Definition set_accept x (p : CHttpParse) := mkParse (m_httpMethod p) (m_connection p) (m_host p) (m_version p) (m_user_agent p)
  (m_referer p) (m_accept_encoding p) x (m_language p) (m_content_lenght p) (m_content p) (m_bHeaderDown p).
Definition set_language x (p : CHttpParse) := mkParse (m_httpMethod p) (m_connection p) (m_host p) (m_version p) (m_user_agent p)
  (m_referer p) (m_accept_encoding p) (m_accept p) x (m_content_lenght p) (m_content p) (m_bHeaderDown p).
Definition set_content_lenght x (p : CHttpParse) := mkParse (m_httpMethod p) (m_connection p) (m_host p) (m_version p) (m_user_agent p)
  (m_referer p) (m_accept_encoding p) (m_accept p) (m_language p) x (m_content p) (m_bHeaderDown p).
Definition set_content x (p : CHttpParse) := mkParse (m_httpMethod p) (m_connection p) (m_host p) (m_version p) (m_user_agent p)
  (m_referer p) (m_accept_encoding p) (m_accept p) (m_language p) (m_content_lenght p) x true.

(** The parser and the string [m_requestData] refers to. *)
Abbreviation HM := (SM (CHttpParse * list char)).

Definition on_parse (f : CHttpParse -> CHttpParse) : HM unit := smodify (fun '(p, data) => (f p, data)).

Definition get_connection (p : CHttpParse) : outcome CON_TYPE :=
  match m_connection p with Some c => Ok c | None => Fault Uninitialised end.

(** Takes a line from [m_requestData]; [retstr] is left as it was when there is
    none, and [pos + 2] then wraps around to 1. *)
Definition get_line (retstr : list char) : HM (list char) :=
  do* (p, data) := sget in
  let pos := find data CRLF in
  do* retstr := (if negb (pos =? npos) then slift (substr_n data 0 pos) else sret retstr) in
  do* rest := slift (substr data (size_t (pos + 2))) in
  if bool_decide (retstr = []) then
    do* _ := sput (set_content rest p, []) in
    sret retstr
  else
    do* _ := sput (p, rest) in
    sret retstr.

Definition ToUpper (s : list char) : list char := toupper <$> s.

Definition parse_header (retstr : list char) : HM unit :=
  do* list := slift (SplitString retstr 32) in
  match list !! 2%nat with
  | Some v => on_parse (set_version v)
  | None => sret tt
  end.

Definition parse_line (keys str : list char) : HM Z :=
  if same keys (lit "HOST") then
    do* _ := on_parse (set_host str) in sret 0
  else if same keys (lit "CONNECTION") then
    do* _ := on_parse (set_connection (if same str (lit "keep-alive") then CON_KEEP_LIVE else CON_CLOSE)) in sret 0
  else if same keys (lit "ACCEPT") then
    do* _ := on_parse (set_accept str) in sret 0
  else if same keys (lit "USER-AGENT") then
    do* _ := on_parse (set_user_agent str) in sret 0
  else if same keys (lit "ACCEPT-ENCODING") then
    do* _ := on_parse (set_accept_encoding str) in sret 0
  else if same keys (lit "ACCEPT-LANGUAGE") then
    do* _ := on_parse (set_language str) in sret 0
  else if same keys (lit "REFERER") then
    do* _ := on_parse (set_referer str) in sret 0
  else if same keys (lit "CONTENT_LENGHT") then
    do* _ := on_parse (set_content_lenght (atoi str)) in sret 0
  else sret (-1).

(** [WLogError("CHttpParse::parse_line_data_type::...", keys.c_str(), str.c_str())]
    and [WLogError("CHttpParse::parse_request::...")]. *)
Definition line_error (keys str : list char) : list char :=
  lit "CHttpParse::parse_line_data_type::parse_line::error, keys = " ++ cstring keys ++ lit ", str = " ++ cstring str ++ [LF].
Definition request_error : list char := lit "CHttpParse::parse_request::parse_line_data_type::error!" ++ [LF].

(** The loop over the lines, with the messages.  Each turn consumes at least one
    character. *)
Fixpoint lines_loop (fuel : nat) : HM (Z * list (list char)) :=
  do* (p, _) := sget in
  if m_bHeaderDown p then sret (0, [])
  else
    match fuel with
    | O => scrash OutOfFuel
    | S f =>
        do* str := get_line [] in
        let startpos := find str (lit ": ") in
        if negb (startpos =? npos) then
          do* keys := slift (substr_n str 0 startpos) in
          do* str := slift (substr str (startpos + 2)) in
          let keys := ToUpper keys in
          do* r := parse_line keys str in
          do* (iret, logs) := lines_loop f in
          sret (iret, if negb (r =? 0) then line_error keys str :: logs else logs)
        else if negb (find str (lit "GET") =? npos) then
          do* _ := parse_header str in
          do* _ := on_parse (set_method METHOD_GET) in
          lines_loop f
        else if negb (find str (lit "POST") =? npos) then
          do* _ := parse_header str in
          do* _ := on_parse (set_method METHOD_POST) in
          lines_loop f
        else sret (-1, [])
    end.

Definition parse_line_data_type : HM (Z * list (list char)) :=
  do* (_, data) := sget in
  lines_loop (S (length data)).

(** [parse_request()]: the error is only logged. *)
Definition parse_request0 : HM (list (list char)) :=
  do* (iret, logs) := parse_line_data_type in
  sret (if negb (iret =? 0) then logs ++ [request_error] else logs).

(** The constructor, which leaves [m_connection] unassigned. *)
Definition fresh_parse : CHttpParse := mkParse METHOD_UNKNOW None [] [] [] [] [] [] [] 0 [] false.
Definition new_CHttpParse : HM (list (list char)) :=
  do* (_, data) := sget in
  do* _ := sput (fresh_parse, data) in
  parse_request0.

(** [parse_request(std::string&)]. *)
Definition parse_request (request : list char) : HM (list (list char)) :=
  do* _ := sput (mkParse METHOD_UNKNOW (Some CON_UNKNOW) [] [] [] [] [] [] [] 0 [] false, request) in
  parse_request0.
