(* ===== verification/HttpSpec.v ===== *)
(** What the HTTP parser makes of a request: a well-formed one is read back
    from its text, a header that ends without a blank line kills the process,
    and the parser always ends. *)

From stdpp Require Import base tactics sets list numbers strings.
From Stdlib Require Import ZArith Lia.
From S2P Require Import Prelude StateMonad LogCall Text Http.

Local Open Scope Z_scope.

(** * Searching for a text *)

Lemma absent_first c pat a : c ∉ a -> absent_before (c :: pat) a.
Proof.
  intros Ha k Hk t. destruct (drop k a) as [|x l] eqn:E.
  - apply (f_equal length) in E. rewrite length_drop in E. cbn in E. lia.
  - cbn [app starts_with]. rewrite (proj2 (Z.eqb_neq c x)); [done|]. intros ->. apply Ha.
    rewrite <- (take_drop k a), E. set_solver.
Qed.

Lemma find_absent c pat s i : c ∉ s -> find_from (c :: pat) s i = npos.
Proof.
  revert i. induction s as [|x s IH]; intros i Hs; cbn; [done|]. apply not_elem_of_cons in Hs as [Hx Hs].
  rewrite (proj2 (Z.eqb_neq c x) Hx). cbn [andb]. by apply IH.
Qed.

Lemma find_first c pat a t : c ∉ a -> find (a ++ (c :: pat) ++ t) (c :: pat) = zlen a.
Proof. intros Ha. unfold find. rewrite find_from_app by (by apply absent_first). lia. Qed.

Lemma find_prefix pat t : find (pat ++ t) pat = 0.
Proof. unfold find. by apply (find_from_app pat [] t 0); intros k Hk; cbn in Hk; lia. Qed.

Lemma substr_0 a t : substr_n (a ++ t) 0 (zlen a) = Ok a.
Proof. by apply (substr_n_app [] a t). Qed.

Lemma substr_rest a t pos : pos = zlen a -> zlen (a ++ t) <= INT_MAX -> substr (a ++ t) pos = Ok t.
Proof.
  intros -> Hl. unfold substr, substr_n. rewrite length_app in *. rewrite (proj2 (Z.ltb_ge _ _)) by lia.
  rewrite Nat2Z.id, drop_app_length, take_ge; [done|]. unfold npos, INT_MAX, SIZE_MAX in *. lia.
Qed.

(** * One line *)

Definition COLON_SPACE : list char := [58; 32].

Section line.
Context (p : CHttpParse).

Lemma get_line_line l rest : CR ∉ l -> l <> [] -> zlen (l ++ CRLF ++ rest) <= INT_MAX ->
  get_line [] (p, l ++ CRLF ++ rest) = Ok (l, (p, rest)).
Proof.
  intros Hl Hne Hlen. unfold get_line. rewrite (sbind_ok sget) with (1 := eq_refl). cbv zeta.
  rewrite (find_first CR [LF] l rest Hl : find (l ++ CRLF ++ rest) CRLF = zlen l).
  assert (zlen l + 2 <= INT_MAX) as Hz by (rewrite !length_app in Hlen; cbn in Hlen; lia).
  rewrite (proj2 (Z.eqb_neq (zlen l) npos)) by (unfold npos, SIZE_MAX, INT_MAX in *; lia). cbn [negb].
  unfold sbind, slift. rewrite substr_0. rewrite size_t_id by climits. rewrite (app_assoc l CRLF rest).
  rewrite substr_rest by (rewrite ?length_app in *; cbn [length CRLF] in *; lia). rewrite bool_decide_false by done. done.
Qed.

Lemma get_line_blank rest : zlen (CRLF ++ rest) <= INT_MAX ->
  get_line [] (p, CRLF ++ rest) = Ok ([], (set_content rest p, [])).
Proof.
  intros Hlen. unfold get_line. rewrite (sbind_ok sget) with (1 := eq_refl). cbv zeta. rewrite find_prefix. cbn [Z.eqb npos SIZE_MAX negb].
  unfold sbind, slift. rewrite (substr_0 [] (CRLF ++ rest) : substr_n (CRLF ++ rest) 0 0 = Ok []). change (size_t (0 + 2)) with 2. by rewrite substr_rest.
Qed.

Lemma get_line_unended l : CR ∉ l -> zlen l <= INT_MAX ->
  get_line [] (p, l) = match l with [] => Fault Thrown | _ :: rest => Ok ([], (set_content rest p, [])) end.
Proof.
  intros Hl Hlen. unfold get_line. rewrite (sbind_ok sget) with (1 := eq_refl). cbv zeta.
  rewrite (find_absent CR [LF] l 0 Hl : find l CRLF = npos). rewrite Z.eqb_refl. cbn [negb].
  rewrite (sbind_ok (sret [])) with (1 := eq_refl). change (size_t (npos + 2)) with 1.
  destruct l as [|c l]; [done|]. unfold sbind, slift. rewrite (substr_rest [c] l) by done. done.
Qed.

(** The parser after a header [keys: str]. *)
Definition header_effect (keys str : list char) : CHttpParse :=
  match parse_line keys str (p, []) with Ok (_, (p', _)) => p' | Fault _ => p end.

(** The names that the parser knows; another one is an error. *)
Definition known_names : list (list char) :=
  [lit "HOST"; lit "CONNECTION"; lit "ACCEPT"; lit "USER-AGENT"; lit "ACCEPT-ENCODING"; lit "ACCEPT-LANGUAGE"; lit "REFERER"; lit "CONTENT_LENGHT"].

Lemma parse_line_ok keys str data : exists r,
  parse_line keys str (p, data) = Ok (r, (header_effect keys str, data)) /\ negb (r =? 0) = bool_decide (keys ∉ known_names).
Proof.
  destruct (decide (keys ∈ known_names)) as [Hin|Hn].
  - rewrite bool_decide_false by (intros Hn; by apply Hn). unfold known_names in Hin. rewrite !elem_of_cons, elem_of_nil in Hin.
    repeat destruct Hin as [->|Hin]; [..|done]; by eexists.
  - rewrite bool_decide_true by done. unfold known_names in Hn. rewrite !not_elem_of_cons in Hn. destruct_and! Hn.
    unfold header_effect, parse_line, same. rewrite !bool_decide_false by done. by eexists.
Qed.

Lemma header_effect_down keys str : m_bHeaderDown (header_effect keys str) = m_bHeaderDown p.
Proof.
  unfold header_effect, parse_line. repeat match goal with |- context [if ?b then _ else _] => destruct b end; done.
Qed.
End line.

(** A header line, without its line break. *)
Definition header_line (h : list char * list char) : list char := h.1 ++ COLON_SPACE ++ h.2.

Definition header_ok (h : list char * list char) : Prop := 58 ∉ h.1 /\ CR ∉ h.1 /\ CR ∉ h.2.

(** The messages for a header: one when its name is unknown. *)
Definition header_logs (hs : list (list char * list char)) : list (list char) :=
  (fun h => line_error (ToUpper h.1) h.2) <$> filter (fun h => ToUpper h.1 ∉ known_names) hs.

Lemma header_logs_one k v : header_logs [(k, v)] = if bool_decide (ToUpper k ∉ known_names) then [line_error (ToUpper k) v] else [].
Proof. unfold header_logs. rewrite filter_cons. cbn [fst snd]. by destruct (decide (ToUpper k ∉ known_names)); [rewrite bool_decide_true|rewrite bool_decide_false]. Qed.

Definition with_logs (l : list (list char)) (m : HM (Z * list (list char))) : HM (Z * list (list char)) :=
  do* (iret, logs) := m in sret (iret, l ++ logs).

Lemma with_logs_nil m s : with_logs [] m s = m s.
Proof. unfold with_logs, sbind. by destruct (m s) as [[[] ?]|]. Qed.
Lemma with_logs_app l l' m s : with_logs l (with_logs l' m) s = with_logs (l ++ l') m s.
Proof. unfold with_logs. rewrite sbind_assoc. unfold sbind. destruct (m s) as [[[] ?]|]; [|done]. cbn. by rewrite app_assoc. Qed.

Lemma lines_loop_header f p h rest : m_bHeaderDown p = false -> header_ok h -> zlen (header_line h ++ CRLF ++ rest) <= INT_MAX ->
  lines_loop (S f) (p, header_line h ++ CRLF ++ rest) = with_logs (header_logs [h]) (lines_loop f) (header_effect p (ToUpper h.1) h.2, rest).
Proof.
  intros Hp (Hc & H1 & H2) Hlen. destruct h as [k v]; cbn [fst snd] in *. cbn [lines_loop].
  rewrite (sbind_ok sget) with (1 := eq_refl). rewrite Hp.
  rewrite (sbind_ok (get_line [])) with (1 := get_line_line p (header_line (k, v)) rest ltac:(unfold header_line, COLON_SPACE; cbn; set_solver)
    ltac:(by destruct k) Hlen). cbv zeta.
  unfold header_line, COLON_SPACE in *. cbn [fst snd] in *. change (lit ": ") with [58; 32]. rewrite find_first by done.
  rewrite !length_app in Hlen. cbn [length] in Hlen.
  rewrite (proj2 (Z.eqb_neq (zlen k) npos)) by (unfold npos, SIZE_MAX, INT_MAX in *; lia). cbn [negb].
  unfold slift. rewrite substr_0. rewrite (sbind_ok (fun s => Ok (k, s))) with (1 := eq_refl).
  rewrite (app_assoc k), substr_rest by (rewrite !length_app; cbn [length]; lia). rewrite (sbind_ok (fun s => Ok (v, s))) with (1 := eq_refl).
  destruct (parse_line_ok p (ToUpper k) v rest) as (r & Hr & Hn). run Hr. rewrite Hn, header_logs_one. by destruct (bool_decide _).
Qed.

(** * A request and its text *)

Record request := mkRequest {
  rq_post : bool;
  rq_target : list char;
  rq_version : list char;
  rq_headers : list (list char * list char);
  rq_body : list char
}.

Definition method_name (post : bool) : list char := if post then lit "POST" else lit "GET".
Definition request_line (rq : request) : list char := join 32 [method_name (rq_post rq); rq_target rq; rq_version rq].
Definition header_text (hs : list (list char * list char)) : list char := concat ((fun h => header_line h ++ CRLF) <$> hs).
Definition print (rq : request) : list char :=
  request_line rq ++ CRLF ++ header_text (rq_headers rq) ++ CRLF ++ rq_body rq.

(** The request line is three words; it does not look like a header, and that
    of a POST does not mention GET. *)
Record request_ok (rq : request) : Prop := {
  ok_target : 32 ∉ rq_target rq /\ rq_target rq <> [];
  ok_version : 32 ∉ rq_version rq /\ rq_version rq <> [];
  ok_line : CR ∉ request_line rq;
  ok_colon : find (request_line rq) COLON_SPACE = npos;
  ok_post : rq_post rq = true -> find (request_line rq) (lit "GET") = npos;
  ok_headers : Forall header_ok (rq_headers rq);
  ok_length : zlen (print rq) <= INT_MAX
}.

(** The value of the last header with a name, in any case. *)
Definition header_value (d name : list char) (hs : list (list char * list char)) : list char :=
  foldl (fun d h => if same (ToUpper h.1) name then h.2 else d) d hs.
Definition header_connection (d : option CON_TYPE) (hs : list (list char * list char)) : option CON_TYPE :=
  foldl (fun d h => if same (ToUpper h.1) (lit "CONNECTION")
                    then Some (if same h.2 (lit "keep-alive") then CON_KEEP_LIVE else CON_CLOSE) else d) d hs.
Definition header_length (d : Z) (hs : list (list char * list char)) : Z :=
  foldl (fun d h => if same (ToUpper h.1) (lit "CONTENT_LENGHT") then atoi h.2 else d) d hs.

Definition parsed (con : option CON_TYPE) (rq : request) : CHttpParse :=
  let hs := rq_headers rq in
  mkParse (if rq_post rq then METHOD_POST else METHOD_GET) (header_connection con hs)
    (header_value [] (lit "HOST") hs) (rq_version rq) (header_value [] (lit "USER-AGENT") hs) (header_value [] (lit "REFERER") hs)
    (header_value [] (lit "ACCEPT-ENCODING") hs) (header_value [] (lit "ACCEPT") hs) (header_value [] (lit "ACCEPT-LANGUAGE") hs)
    (header_length 0 hs) (rq_body rq) true.

Lemma header_effect_fields p k v : header_effect p k v =
  mkParse (m_httpMethod p)
    (if same k (lit "CONNECTION") then Some (if same v (lit "keep-alive") then CON_KEEP_LIVE else CON_CLOSE) else m_connection p)
    (if same k (lit "HOST") then v else m_host p) (m_version p) (if same k (lit "USER-AGENT") then v else m_user_agent p)
    (if same k (lit "REFERER") then v else m_referer p) (if same k (lit "ACCEPT-ENCODING") then v else m_accept_encoding p)
    (if same k (lit "ACCEPT") then v else m_accept p) (if same k (lit "ACCEPT-LANGUAGE") then v else m_language p)
    (if same k (lit "CONTENT_LENGHT") then atoi v else m_content_lenght p) (m_content p) (m_bHeaderDown p).
Proof.
  unfold header_effect, parse_line, same.
  repeat (case_bool_decide; [subst k; done|]). by destruct p.
Qed.

Lemma foldl_effects hs : forall p, foldl (fun p h => header_effect p (ToUpper h.1) h.2) p hs =
  mkParse (m_httpMethod p) (header_connection (m_connection p) hs)
    (header_value (m_host p) (lit "HOST") hs) (m_version p) (header_value (m_user_agent p) (lit "USER-AGENT") hs)
    (header_value (m_referer p) (lit "REFERER") hs) (header_value (m_accept_encoding p) (lit "ACCEPT-ENCODING") hs)
    (header_value (m_accept p) (lit "ACCEPT") hs) (header_value (m_language p) (lit "ACCEPT-LANGUAGE") hs)
    (header_length (m_content_lenght p) hs) (m_content p) (m_bHeaderDown p).
Proof.
  induction hs as [|h hs IH]; intros p; [by destruct p|]. cbn [foldl]. rewrite IH, header_effect_fields. done.
Qed.

Lemma lines_loop_headers hs : Forall header_ok hs -> forall f p rest, m_bHeaderDown p = false -> zlen (header_text hs ++ rest) <= INT_MAX ->
  lines_loop (length hs + f) (p, header_text hs ++ rest) =
  with_logs (header_logs hs) (lines_loop f) (foldl (fun p h => header_effect p (ToUpper h.1) h.2) p hs, rest).
Proof.
  induction 1 as [|h hs Hh Hhs IH]; intros f p rest Hp Hlen; [by rewrite with_logs_nil|].
  unfold header_text in *. cbn [fmap list_fmap concat length Nat.add foldl] in *. rewrite <- !app_assoc in *.
  rewrite lines_loop_header by done. unfold with_logs at 1.
  rewrite (sbind_run _ _ _ _ _ (IH f _ rest ltac:(by rewrite header_effect_down) ltac:(rewrite !length_app in *; lia))).
  fold (with_logs (header_logs [h]) (with_logs (header_logs hs) (lines_loop f))). rewrite with_logs_app. unfold header_logs.
  by rewrite <- fmap_app, <- filter_app.
Qed.

(** The blank line ends the header; the result is -1 all the same. *)
Lemma lines_loop_blank f p rest : m_bHeaderDown p = false -> zlen (CRLF ++ rest) <= INT_MAX ->
  lines_loop (S f) (p, CRLF ++ rest) = Ok ((-1, []), (set_content rest p, [])).
Proof.
  intros Hp Hlen. cbn [lines_loop]. rewrite (sbind_ok sget) with (1 := eq_refl). rewrite Hp. by run (get_line_blank p rest Hlen).
Qed.

Lemma SplitString_line rq : request_ok rq ->
  SplitString (request_line rq) 32 = Ok [method_name (rq_post rq); rq_target rq; rq_version rq].
Proof.
  intros H. pose proof (ok_length _ H) as Hl. unfold print in Hl. rewrite !length_app in Hl.
  apply SplitString_join; [|unfold request_line in *; lia].
  assert (32 ∉ method_name (rq_post rq) /\ method_name (rq_post rq) <> []) as Hm.
  { destruct (rq_post rq); (split; [|done]); apply (bool_decide_unpack _); by vm_compute. }
  apply Forall_cons_2; [done|]. apply Forall_cons_2; [apply H|]. apply Forall_cons_2; [apply H|]. apply Forall_nil_2.
Qed.

Lemma lines_loop_request f p rq rest : m_bHeaderDown p = false -> request_ok rq -> zlen (request_line rq ++ CRLF ++ rest) <= INT_MAX ->
  lines_loop (S f) (p, request_line rq ++ CRLF ++ rest) =
  lines_loop f (set_method (if rq_post rq then METHOD_POST else METHOD_GET) (set_version (rq_version rq) p), rest).
Proof.
  intros Hp Hok Hlen. cbn [lines_loop]. rewrite (sbind_ok sget) with (1 := eq_refl). rewrite Hp.
  assert (request_line rq <> []) as Hne by (unfold request_line, method_name; by destruct (rq_post rq)).
  run (get_line_line p (request_line rq) rest (ok_line _ Hok) Hne Hlen). cbv zeta.
  rewrite (ok_colon _ Hok : find (request_line rq) (lit ": ") = npos), Z.eqb_refl. cbn [negb].
  assert (find (request_line rq) (method_name (rq_post rq)) = 0) as Hm by apply find_prefix.
  assert (forall d, parse_header (request_line rq) (p, d) = Ok (tt, (set_version (rq_version rq) p, d))) as Hh.
  { intros d. unfold parse_header, slift. rewrite SplitString_line by done. done. }
  pose proof (ok_post _ Hok) as Hpost. destruct (rq_post rq); cbn [method_name] in Hm.
  - rewrite Hpost, Z.eqb_refl, Hm by done. change (0 =? npos) with false. cbn [negb]. by run (Hh rest).
  - rewrite Hm. change (0 =? npos) with false. cbn [negb]. by run (Hh rest).
Qed.

(** * Whole requests *)

Lemma parse_request0_ok p data r logs s : lines_loop (S (length data)) (p, data) = Ok ((r, logs), s) ->
  parse_request0 (p, data) = Ok (if negb (r =? 0) then logs ++ [request_error] else logs, s).
Proof. intros H. unfold parse_request0, parse_line_data_type, sbind, sget. by rewrite H. Qed.

(** The messages for a request: the headers with unknown names, and always the
    error at the end, since the result is -1 after the blank line. *)
Definition request_logs (rq : request) : list (list char) := header_logs (rq_headers rq) ++ [request_error].

Lemma header_text_length hs : (2 * length hs <= length (header_text hs))%nat.
Proof.
  induction hs as [|h hs IH]; [done|]. unfold header_text in *. cbn [fmap list_fmap concat length]. rewrite length_app.
  rewrite length_app. cbn [length CRLF]. lia.
Qed.

Lemma parse_print con rq : request_ok rq ->
  parse_request0 (mkParse METHOD_UNKNOW con [] [] [] [] [] [] [] 0 [] false, print rq) = Ok (request_logs rq, (parsed con rq, [])).
Proof.
  intros Hok. pose proof (ok_length _ Hok) as Hl. unfold print in *.
  apply (parse_request0_ok _ _ (-1) (header_logs (rq_headers rq))).
  pose proof (header_text_length (rq_headers rq)) as Hh. rewrite lines_loop_request by done.
  rewrite !length_app in *. cbn [length CRLF] in *.
  set (f := (length (request_line rq) + _)%nat).
  replace f with (length (rq_headers rq) + S (f - S (length (rq_headers rq))))%nat by lia.
  rewrite lines_loop_headers by (done || apply Hok || rewrite !length_app; cbn [length CRLF]; lia).
  rewrite foldl_effects. unfold with_logs.
  erewrite sbind_ok by (apply lines_loop_blank; done || rewrite !length_app; cbn [length CRLF]; lia).
  cbn. by rewrite app_nil_r.
Qed.

(** C8: a well-formed request is read back from its text: the method, the
    version, the last value of each header the server knows and the body, and
    nothing of the text is left, both by the constructor and by
    [parse_request]; what goes to the log is a line for each header whose name
    the server does not know, and an error. *)
Theorem http_request_roundtrip rq p0 old : request_ok rq ->
  new_CHttpParse (p0, print rq) = Ok (request_logs rq, (parsed None rq, [])) /\
  parse_request (print rq) (p0, old) = Ok (request_logs rq, (parsed (Some CON_UNKNOW) rq, [])).
Proof. intros Hok. split; [apply (parse_print None rq Hok)|apply (parse_print (Some CON_UNKNOW) rq Hok)]. Qed.

Definition demo_request : request :=
  mkRequest true (lit "/sign") (lit "HTTP/1.1") [(lit "Host", lit "a.b"); (lit "Connection", lit "keep-alive"); (lit "Content-Length", lit "2")] (lit "ok").

Ltac not_elem := apply (bool_decide_unpack _); by vm_compute.

Lemma demo_request_ok : request_ok demo_request.
Proof.
  split.
  - split; [not_elem|done].
  - split; [not_elem|done].
  - not_elem.
  - by vm_compute.
  - by vm_compute.
  - repeat apply Forall_cons_2; [..|by apply Forall_nil_2]; (split; [|split]); not_elem.
  - by vm_compute.
Qed.

Lemma http_request_roundtrip_witness :
  new_CHttpParse (fresh_parse, print demo_request) =
    Ok ([lit "CHttpParse::parse_line_data_type::parse_line::error, keys = CONTENT-LENGTH, str = 2" ++ [LF]; request_error],
      (mkParse METHOD_POST (Some CON_KEEP_LIVE) (lit "a.b") (lit "HTTP/1.1") [] [] [] [] [] 0 (lit "ok") true, [])) /\
  parse_request (print demo_request) (fresh_parse, []) = Ok (request_logs demo_request, (parsed (Some CON_UNKNOW) demo_request, [])).
Proof. exact (http_request_roundtrip demo_request fresh_parse [] demo_request_ok). Defined.

(** A request that has arrived up to the end of a header line, its blank
    line not yet among the data, makes the parser throw an exception that
    nothing in the server catches. *)
Theorem http_header_cut_throws rq p0 : request_ok rq ->
  new_CHttpParse (p0, request_line rq ++ CRLF ++ header_text (rq_headers rq)) = Fault Thrown.
Proof.
  intros Hok. pose proof (ok_length _ Hok) as Hl. unfold print in Hl. rewrite !length_app in Hl. cbn [length CRLF] in Hl.
  pose proof (header_text_length (rq_headers rq)) as Hh.
  unfold new_CHttpParse, parse_request0, parse_line_data_type, sbind, sget, sput.
  rewrite lines_loop_request by (done || rewrite !length_app; cbn [length CRLF]; lia).
  rewrite !length_app. cbn [length CRLF]. set (f := (length (request_line rq) + _)%nat).
  replace f with (length (rq_headers rq) + S (f - S (length (rq_headers rq))))%nat by lia.
  rewrite <- (app_nil_r (header_text _)). rewrite lines_loop_headers by (done || apply Hok || rewrite app_nil_r; lia).
  rewrite foldl_effects. unfold with_logs. by rewrite (sbind_fault (lines_loop _) _ _ Thrown).
Qed.

Lemma http_header_cut_throws_witness :
  new_CHttpParse (fresh_parse, lit "GET / HTTP/1.1" ++ CRLF ++ []) = Fault Thrown.
Proof.
  refine (http_header_cut_throws (mkRequest false (lit "/") (lit "HTTP/1.1") [] []) fresh_parse _).
  split; try (split; [not_elem|done]); [not_elem|by vm_compute|done|by apply Forall_nil_2|by vm_compute].
Defined.

(** * Any data *)

Lemma starts_with_longer pat x t : (length pat <= length x)%nat -> starts_with pat (x ++ t) = starts_with pat x.
Proof. revert x. induction pat as [|p pat IH]; intros x Hx; [done|]. destruct x as [|c x]; [cbn in Hx; lia|]. cbn in *. by rewrite IH by lia. Qed.

Lemma find_from_spec pat s i : find_from pat s i = npos \/ exists a t, s = a ++ pat ++ t /\ absent_before pat a /\ find_from pat s i = i + zlen a.
Proof.
  revert i. induction s as [|c s IH]; intros i; cbn [find_from].
  - destruct (starts_with pat []) eqn:E; [|by left]. right. destruct (starts_with_true _ _ E) as [t Et]. exists [], t. cbn.
    split_and!; [done|intros k Hk; cbn in Hk; lia|lia].
  - destruct (starts_with pat (c :: s)) eqn:E.
    + right. destruct (starts_with_true _ _ E) as [t Et]. exists [], t. cbn [app length]. split_and!; [done|intros k Hk; cbn in Hk; lia|lia].
    + destruct (IH (i + 1)) as [->|(a & t & -> & Ha & ->)]; [by left|right]. exists (c :: a), t. cbn [length app]. split_and!; [done| |lia].
      intros [|k] Hk t'; [|apply Ha; cbn in Hk; lia].
      assert (forall x, starts_with pat ((c :: a) ++ pat ++ x) = starts_with pat ((c :: a) ++ pat)) as Hx
        by (intros x; rewrite app_assoc; apply starts_with_longer; rewrite length_app; lia).
      change (starts_with pat ((c :: a) ++ pat ++ t') = false). rewrite Hx, <- (Hx t). exact E.
Qed.

(** A line is taken, or what is left is the body. *)
Lemma get_line_total p data : zlen data <= INT_MAX ->
  (data = [] /\ get_line [] (p, data) = Fault Thrown) \/
  (exists l rest, data = l ++ CRLF ++ rest /\ l <> [] /\ absent_before CRLF l /\ get_line [] (p, data) = Ok (l, (p, rest))) \/
  (exists body, get_line [] (p, data) = Ok ([], (set_content body p, []))).
Proof.
  intros Hl. unfold get_line. rewrite (sbind_ok sget) with (1 := eq_refl). cbv zeta.
  destruct (find_from_spec CRLF data 0) as [Hf|(a & t & -> & Ha & Hf)].
  - unfold find. rewrite Hf, Z.eqb_refl. cbn [negb]. destruct data as [|c data]; [by left|right; right].
    rewrite (sbind_ok (sret [])) with (1 := eq_refl). change (size_t (npos + 2)) with 1.
    unfold sbind, slift. rewrite (substr_rest [c] data) by done. by eexists.
  - right. unfold find. rewrite Hf, Z.add_0_l. rewrite !length_app in Hl. cbn [length CRLF] in Hl.
    rewrite (proj2 (Z.eqb_neq (zlen a) npos)) by (unfold npos, SIZE_MAX, INT_MAX in *; lia). cbn [negb].
    unfold sbind, slift. rewrite substr_0. rewrite size_t_id by climits. rewrite (app_assoc a CRLF t).
    rewrite substr_rest by (rewrite ?length_app in *; cbn [length CRLF] in *; lia).
    case_bool_decide as Hne; [right; subst a; by eexists|left]. exists a, t. by rewrite <- app_assoc.
Qed.

Lemma parse_header_total str p data : zlen str <= INT_MAX -> exists p', parse_header str (p, data) = Ok (tt, (p', data)).
Proof.
  intros Hl. unfold parse_header, sbind, slift. rewrite SplitString_fields by done. destruct (_ !! 2%nat); eexists; done.
Qed.

(** The data end where a line that is not blank ends: the header is cut. *)
Definition recognised (l : list char) : bool := contains l (lit ": ") || contains l (lit "GET") || contains l (lit "POST").
Inductive cut : list char -> Prop :=
| cut_end : cut []
| cut_line l rest : l <> [] -> absent_before CRLF l -> recognised l = true -> cut rest -> cut (l ++ CRLF ++ rest).

(** A message for the data: the name and the text of a header line with an
    unknown name. *)
Definition unknown_line (data m : list char) : Prop :=
  exists a k v t, data = a ++ k ++ COLON_SPACE ++ v ++ CRLF ++ t /\ ToUpper k ∉ known_names /\ m = line_error (ToUpper k) v.

Lemma unknown_line_later a data m : unknown_line data m -> unknown_line (a ++ data) m.
Proof. intros (a' & k & v & t & -> & Hk & ->). exists (a ++ a'), k, v, t. by rewrite <- app_assoc. Qed.

(** One turn of the loop: a line of the header is taken, or the loop ends. *)
Lemma lines_loop_turn f p data : m_bHeaderDown p = false -> zlen data <= INT_MAX ->
  (data = [] /\ lines_loop (S f) (p, data) = Fault Thrown) \/
  (exists l rest p' logs, data = l ++ CRLF ++ rest /\ l <> [] /\ absent_before CRLF l /\ recognised l = true /\ m_bHeaderDown p' = false /\
     Forall (unknown_line data) logs /\ lines_loop (S f) (p, data) = with_logs logs (lines_loop f) (p', rest)) \/
  (exists p' rest, (length rest <= length data)%nat /\ lines_loop (S f) (p, data) = Ok ((-1, []), (p', rest)) /\
     forall l t, l <> [] -> absent_before CRLF l -> recognised l = true -> data <> l ++ CRLF ++ t).
Proof.
  intros Hp Hl. cbn [lines_loop]. rewrite (sbind_ok sget) with (1 := eq_refl). rewrite Hp.
  destruct (get_line_total p data Hl) as [[-> Ht]|[(l & rest & -> & Hne & Ha & E)|(body & E)]].
  { left. split; [done|]. by apply sbind_fault. }
  2: { right. right. eexists _, []. run E. cbv zeta. split; [cbn; lia|]. split; [done|]. intros l t Hne Ha _ ->.
       unfold get_line in E. rewrite (sbind_ok sget) with (1 := eq_refl) in E. cbv zeta in E.
       rewrite (find_from_app CRLF l t 0 Ha : find (l ++ CRLF ++ t) CRLF = 0 + zlen l), Z.add_0_l in E.
       rewrite !length_app in Hl. cbn [length CRLF] in Hl.
       rewrite (proj2 (Z.eqb_neq (zlen l) npos)) in E by (unfold npos, SIZE_MAX, INT_MAX in *; lia). cbn [negb] in E.
       unfold sbind, slift in E. rewrite substr_0 in E. destruct (substr _ _); [|done]. rewrite bool_decide_false in E by done. unfold sput, sret in E. congruence. }
  right. run E. cbv zeta. assert (zlen l + 2 <= INT_MAX) as Hz by (rewrite !length_app in Hl; cbn [length CRLF] in Hl; lia).
  destruct (find_from_spec (lit ": ") l 0) as [Hf|(k & v & -> & _ & Hf)].
  - rewrite (Hf : find l (lit ": ") = npos), Z.eqb_refl. cbn [negb].
    destruct (parse_header_total l p rest ltac:(lia)) as [p' Hh].
    assert (m_bHeaderDown p' = false) as Hp'.
    { unfold parse_header, sbind, slift in Hh. destruct (SplitString l 32) as [v|]; [|done]. destruct (v !! 2%nat); unfold on_parse, smodify, sret in Hh; by simplify_eq. }
    assert (recognised l = contains l (lit "GET") || contains l (lit "POST")) as Hrec by (unfold recognised, contains; by rewrite (Hf : find l (lit ": ") = npos)).
    assert (forall m, (do* _ := parse_header l in do* _ := on_parse (set_method m) in lines_loop f) (p, rest) = lines_loop f (set_method m p', rest)) as Hm
      by (intros m; by run Hh).
    unfold contains in Hrec. destruct (recognised l) eqn:Hrl.
    { left. assert (exists m, (if negb (find l (lit "GET") =? npos) then do* _ := parse_header l in do* _ := on_parse (set_method METHOD_GET) in lines_loop f
        else if negb (find l (lit "POST") =? npos) then do* _ := parse_header l in do* _ := on_parse (set_method METHOD_POST) in lines_loop f
        else sret (-1, [])) (p, rest) = lines_loop f (set_method m p', rest)) as [m ->].
      { destruct (find l (lit "GET") =? npos); cbn [negb orb] in *; [|eexists; apply Hm]. destruct (find l (lit "POST") =? npos); [done|]. eexists. apply Hm. }
      exists l, rest, (set_method m p'), []. rewrite with_logs_nil. by split_and!; try apply Forall_nil_2. }
    right. exists p, rest. split; [rewrite !length_app; lia|].
    split; [destruct (find l (lit "GET") =? npos), (find l (lit "POST") =? npos); done|]. intros l' t Hne' Ha' Hr' Heq.
    assert (zlen l = zlen l') as Hll.
    { pose proof (find_from_app CRLF l rest 0 Ha) as E1. pose proof (find_from_app CRLF l' t 0 Ha') as E2. rewrite Heq in E1. lia. }
    apply app_inj_1 in Heq as [-> _]; [|lia]. congruence.
  - rewrite Z.add_0_l in Hf. left. exists (k ++ lit ": " ++ v), rest, (header_effect p (ToUpper k) v), (header_logs [(k, v)]).
    assert (contains (k ++ lit ": " ++ v) (lit ": ") = true) as Hcon.
    { unfold contains. rewrite (Hf : find (k ++ lit ": " ++ v) (lit ": ") = zlen k). rewrite length_app in Hz.
      by rewrite (proj2 (Z.eqb_neq (zlen k) npos)) by (unfold npos, SIZE_MAX, INT_MAX in *; lia). }
    split_and!; [done|done|done|unfold recognised; by rewrite Hcon|by rewrite header_effect_down| |].
    { rewrite header_logs_one. case_bool_decide; [|by apply Forall_nil_2]. apply Forall_singleton.
      exists [], k, v, rest. change (lit ": ") with COLON_SPACE. by rewrite <- !app_assoc. }
    unfold contains in Hcon. rewrite Hcon. rewrite (Hf : find (k ++ lit ": " ++ v) (lit ": ") = zlen k).
    rewrite !length_app in Hz. change (length (lit ": ")) with 2%nat in Hz.
    unfold slift. rewrite substr_0. rewrite (sbind_ok (fun s => Ok (k, s))) with (1 := eq_refl).
    rewrite (app_assoc k), substr_rest by (rewrite !length_app; change (length (lit ": ")) with 2%nat; lia).
    rewrite (sbind_ok (fun s => Ok (v, s))) with (1 := eq_refl).
    destruct (parse_line_ok p (ToUpper k) v rest) as (r & Hr & Hn). run Hr. rewrite Hn, header_logs_one. by destruct (bool_decide _).
Qed.

Lemma lines_loop_total : forall f p data, m_bHeaderDown p = false -> (length data < f)%nat -> zlen data <= INT_MAX ->
  (cut data /\ lines_loop f (p, data) = Fault Thrown) \/
  (~ cut data /\ exists logs p' rest, lines_loop f (p, data) = Ok ((-1, logs), (p', rest)) /\ (length rest <= length data)%nat /\
     Forall (unknown_line data) logs).
Proof.
  induction f as [|f IH]; intros p data Hp Hf Hl; [lia|].
  destruct (lines_loop_turn f p data Hp Hl) as [[-> E]|[(l & rest & p' & logs & -> & Hne & Ha & Hr & Hp' & Hlogs & E)|(p' & rest & Hlen & E & Hno)]].
  - left. split; [constructor|done].
  - rewrite !length_app in *. cbn [length CRLF] in *.
    destruct (IH p' rest Hp' ltac:(lia) ltac:(lia)) as [[Hc Er]|(Hc & logs' & p2 & r2 & Er & Hlr & Hlogs')].
    + left. split; [by apply cut_line|]. rewrite E. by apply sbind_fault.
    + right. split.
      * inversion 1 as [Hnil|l' t Hne' Ha' Hr' Hc' Heq]; [by destruct l|].
        assert (length l = length l') as Hll.
        { pose proof (find_from_app CRLF l rest 0 Ha) as E1. pose proof (find_from_app CRLF l' t 0 Ha') as E2.
          change (l' ++ CR :: LF :: t) with (l' ++ CRLF ++ t) in *. change (l ++ CR :: LF :: rest) with (l ++ CRLF ++ rest) in *. rewrite Heq in E2. lia. }
        apply app_inj_1 in Heq as [_ Heq]; [|done]. injection Heq as ->. done.
      * exists (logs ++ logs'), p2, r2. rewrite E. unfold with_logs. run Er. split_and!; [done|lia|]. apply Forall_app. split; [done|].
        eapply Forall_impl; [exact Hlogs'|]. intros m Hm. rewrite app_assoc. by apply unknown_line_later.
  - right. split; [|exists [], p', rest; split_and!; [done|done|by apply Forall_nil_2]].
    inversion 1 as [Hnil|l t Hne Ha Hr Hc Heq]; [|by apply (Hno l t)]. subst data.
    unfold lines_loop in E. fold lines_loop in E. rewrite (sbind_ok sget) with (1 := eq_refl) in E. by rewrite Hp in E.
Qed.

Lemma parse_request0_total p data : m_bHeaderDown p = false -> zlen data <= INT_MAX ->
  (cut data /\ parse_request0 (p, data) = Fault Thrown) \/
  (~ cut data /\ exists logs p' rest, parse_request0 (p, data) = Ok (logs ++ [request_error], (p', rest)) /\ (length rest <= length data)%nat /\
     Forall (unknown_line data) logs).
Proof.
  intros Hp Hl. unfold parse_request0, parse_line_data_type, sbind, sget.
  destruct (lines_loop_total (S (length data)) p data Hp ltac:(lia) Hl) as [[? ->]|(? & logs & p' & rest & -> & ? & ?)]; [by left|right].
  split; [done|]. by exists logs, p', rest.
Qed.
