(* ===== verification/Request.v ===== *)
(** The request handlers of the server (CReqHandlerObj, CMgrRequest) on top of
    the HTTP parser and of an object pool.

    The pool is an interface, [ObjectPool]: what [ObjectManager] needs of
    [MemoryPool].  The state keeps the live handlers by address, the map from
    descriptors to handlers, the mutex of that map, and the connection contexts
    ([EventCtx]), which a handler refers to and the manager deletes.  The clock
    is an argument.  The handlers' pointers to the Redis and MySQL managers are
    never used, and the mutex of a handler only protects single accesses. *)

From stdpp Require Import base tactics sets list numbers strings gmap sorting.
From Stdlib Require Import ZArith Lia.
From S2P Require Import Prelude StateMonad Text Http.

Local Open Scope Z_scope.

(** * Results of a request *)

Definition UNKNOW : Z := -1.
Definition SUCCESS : Z := 0.
Definition FAIL : Z := 1.
Definition DATA_OK : Z := 2.
Definition DATA_DEF : Z := 3.
Definition DATA_ERROR : Z := 4.

(** * The handler of a request *)

Record CReqHandlerObj := mkObj {
  m_requestStr : list char;
  m_activeTime : option Z;
  m_pHttpParse : option CHttpParse;
  m_pArg : Z
}.

#[export] Instance CReqHandlerObj_eq_dec : EqDecision CReqHandlerObj.
Proof. solve_decision. Defined.

Definition new_CReqHandlerObj (arg : Z) : CReqHandlerObj := mkObj [] None None arg.

Definition GetActiveTime (o : CReqHandlerObj) : outcome Z :=
  match m_activeTime o with Some t => Ok t | None => Fault Uninitialised end.

(** The parser refers to [m_requestStr], so what it consumes is gone from the
    handler, and [parse_request(m_requestStr)] assigns the string to itself.  The
    messages that it logs are those of the parser. *)
Definition CheckData (now : Z) (request : list char) : SM CReqHandlerObj Z :=
  do* o := sget in
  let data := m_requestStr o ++ request in
  do* r := slift (match m_pHttpParse o with
                  | Some p => parse_request data (p, data)
                  | None => new_CHttpParse (fresh_parse, data)
                  end) in
  let '(_, (p, rest)) := r in
  do* _ := sput (mkObj rest (Some now) (Some p) (m_pArg o)) in
  let length := zlen (m_content p) in
  let content_lenght := size_t (m_content_lenght p) in
  sret (if length =? content_lenght then DATA_OK else if length <? content_lenght then DATA_DEF else DATA_ERROR).

Definition REPLY_HEADER : list char :=
  lit "HTTP/1.1 200 OK" ++ CRLF ++
  lit "Date: Thu, 04 Jun 2015 12:56:22 GMT" ++ CRLF ++
  lit "Server: nginx" ++ CRLF ++
  lit "Content-type: text/html;charset=UTF-8" ++ CRLF ++
  lit "Connection: Close" ++ CRLF ++
  lit "Content-Length: 17" ++ CRLF ++ CRLF.
Definition REPLY_BODY : list char := lit "test hello world".

Definition OnHandle (o : CReqHandlerObj) : outcome (Z * list char) :=
  match m_pHttpParse o with
  | Some _ => Ok (SUCCESS, REPLY_HEADER ++ REPLY_BODY)
  | None => Fault NullDeref
  end.

(** * The interface of the pool *)

Class ObjectPool (S : Type) := {
  pool_create : SM S Z;
  pool_delete : Z -> SM S unit
}.

(** [pool_ok n s live]: the objects [live] are held, and [n] more can be asked
    for before a counter of the pool overflows. *)
Class ObjectPoolLaws (S : Type) `{ObjectPool S} := {
  pool_ok : nat -> S -> gset Z -> Prop;
  pool_ok_weaken n s live : pool_ok (Datatypes.S n) s live -> pool_ok n s live;
  create_ok n s live : pool_ok (Datatypes.S n) s live ->
    exists p s', pool_create s = Ok (p, s') /\
      ((p = 0 /\ pool_ok n s' live) \/ (0 < p /\ p ∉ live /\ pool_ok n s' ({[p]} ∪ live)));
  delete_ok n s live p : pool_ok n s live -> p ∈ live ->
    exists s', pool_delete p s = Ok (tt, s') /\ pool_ok n s' (live ∖ {[p]})
}.

(** * The manager of the handlers *)

(** A connection: [event_ctx] without SSL. *)
Record EventCtx := mkCtx { ctx_sock : Z; ctx_ssl : bool }.

Section manager.
Context {S : Type} `{ObjectPool S}.

Record server := mkServer {
  v_pool : S;
  v_objs : gmap Z CReqHandlerObj;
  m_ReqHandlerMap : gmap Z Z;
  m_LockerReqMap : bool;
  v_ctxs : gmap Z EventCtx;
  v_closed : list Z
}.

Definition set_pool x v := mkServer x (v_objs v) (m_ReqHandlerMap v) (m_LockerReqMap v) (v_ctxs v) (v_closed v).
Definition set_objs x v := mkServer (v_pool v) x (m_ReqHandlerMap v) (m_LockerReqMap v) (v_ctxs v) (v_closed v).
Definition set_map x v := mkServer (v_pool v) (v_objs v) x (m_LockerReqMap v) (v_ctxs v) (v_closed v).
Definition set_lock x v := mkServer (v_pool v) (v_objs v) (m_ReqHandlerMap v) x (v_ctxs v) (v_closed v).
Definition set_ctxs x y v := mkServer (v_pool v) (v_objs v) (m_ReqHandlerMap v) (m_LockerReqMap v) x y.

Abbreviation VM := (SM server).

(** The mutex of the map: the thread that holds it and asks for it again never
    gets it. *)
Definition lock : VM unit := fun v => if m_LockerReqMap v then Fault Blocks else Ok (tt, set_lock true v).
Definition unlock : VM unit := smodify (set_lock false).

Definition get_obj (a : Z) : VM CReqHandlerObj := fun v =>
  match v_objs v !! a with Some o => Ok (o, v) | None => Fault UseAfterFree end.

Definition on_pool {A} (m : SM S A) : VM A := fun v =>
  match m (v_pool v) with Ok (a, s) => Ok (a, set_pool s v) | Fault f => Fault f end.
Definition on_obj {A} (a : Z) (m : SM CReqHandlerObj A) : VM A := fun v =>
  match v_objs v !! a with
  | Some o => match m o with Ok (x, o') => Ok (x, set_objs (<[a := o']> (v_objs v)) v) | Fault f => Fault f end
  | None => Fault UseAfterFree
  end.

(** [ObjectManager::Create(pool, arg)] and [Delete]. *)
Definition create_obj (arg : Z) : VM Z :=
  do* p := on_pool pool_create in
  if p =? 0 then sret 0
  else
    do* _ := smodify (fun v => set_objs (<[p := new_CReqHandlerObj arg]> (v_objs v)) v) in
    sret p.
Definition delete_obj (p : Z) : VM unit :=
  do* _ := get_obj p in
  do* _ := smodify (fun v => set_objs (delete p (v_objs v)) v) in
  on_pool (pool_delete p).

(** [EventCtx_free]: the destructor removes the event and closes the socket. *)
Definition get_ctx (c : Z) : VM EventCtx := fun v =>
  match v_ctxs v !! c with Some x => Ok (x, v) | None => Fault UseAfterFree end.
Definition EventCtx_free (c : Z) : VM unit :=
  if c =? 0 then sret tt
  else
    do* x := get_ctx c in
    smodify (fun v => set_ctxs (delete c (v_ctxs v)) (v_closed v ++ [ctx_sock x]) v).

Definition ReleaseHandler (sockfd : Z) : VM bool :=
  do* _ := lock in
  do* v := sget in
  match m_ReqHandlerMap v !! sockfd with
  | Some pObj =>
      do* _ := (if pObj =? 0 then sret tt
                else
                  do* o := get_obj pObj in
                  do* _ := EventCtx_free (m_pArg o) in
                  do* _ := delete_obj pObj in
                  smodify (fun v => set_map (delete sockfd (m_ReqHandlerMap v)) v)) in
      do* _ := unlock in
      sret true
  | None =>
      do* _ := unlock in
      sret false
  end.

Definition ACTIVA_TIMEVAL : Z := 15.

(** One turn of the loop of [OnCheckActiveTime]. *)
Definition check_active (curTime : Z) (sockfd : Z) : VM unit :=
  do* v := sget in
  match m_ReqHandlerMap v !! sockfd with
  | Some pObj =>
      if pObj =? 0 then sret tt
      else
        do* o := get_obj pObj in
        do* active := slift (GetActiveTime o) in
        let iVal := int (curTime - active) in
        if ACTIVA_TIMEVAL <=? iVal then
          do* _ := EventCtx_free (m_pArg o) in
          do* _ := delete_obj pObj in
          smodify (fun v => set_map (delete sockfd (m_ReqHandlerMap v)) v)
        else sret tt
  | None => sret tt
  end.

Fixpoint check_loop (curTime : Z) (keys : list Z) : VM unit :=
  match keys with
  | [] => sret tt
  | k :: keys' =>
      do* _ := check_active curTime k in
      check_loop curTime keys'
  end.

(** The map is iterated in the order of its keys; the loop erases only the
    entry it is at. *)
Definition OnCheckActiveTime (curTime : Z) : VM unit :=
  do* _ := lock in
  do* v := sget in
  do* _ := check_loop curTime (merge_sort Z.le (map_to_list (m_ReqHandlerMap v)).*1) in
  unlock.

(** The first half of [HandleRequest]: the handler of the descriptor, or a new
    one, takes the data; it is kept in the map while data are missing.  The
    result is the handler, its verdict and whether it is done. *)
Definition collect_request (sockfd pev now : Z) (request : list char) : VM (Z * Z * bool) :=
  do* _ := lock in
  do* v := sget in
  match m_ReqHandlerMap v !! sockfd with
  | Some pObj =>
      do* r := (if pObj =? 0 then sret (-1, false)
                else
                  do* iRet := on_obj pObj (CheckData now request) in
                  if negb (iRet =? DATA_DEF) then
                    do* _ := smodify (fun v => set_map (delete sockfd (m_ReqHandlerMap v)) v) in
                    sret (iRet, true)
                  else sret (iRet, false)) in
      do* _ := unlock in
      sret (pObj, r.1, r.2)
  | None =>
      do* _ := unlock in
      do* pObj := create_obj pev in
      if pObj =? 0 then sret (pObj, -1, false)
      else
        do* iRet := on_obj pObj (CheckData now request) in
        if negb (iRet =? DATA_DEF) then sret (pObj, iRet, true)
        else
          do* _ := lock in
          do* _ := smodify (fun v => set_map
            (match m_ReqHandlerMap v !! sockfd with Some _ => m_ReqHandlerMap v | None => <[sockfd := pObj]> (m_ReqHandlerMap v) end) v) in
          do* _ := unlock in
          sret (pObj, iRet, false)
  end.

(** The second half: a complete request is handled, and a handler that is done
    is deleted.  The reply is the caller's string, written only by [OnHandle]. *)
Definition finish_request (pObj iRet : Z) (isDone : bool) (reply : list char) : VM (Z * list char) :=
  do* (iRet, reply) :=
    (if negb (pObj =? 0) && isDone && (iRet =? DATA_OK) then
       do* o := get_obj pObj in
       slift (OnHandle o)
     else sret (iRet, reply)) in
  do* _ := (if negb (pObj =? 0) && negb (iRet =? DATA_DEF) then delete_obj pObj else sret tt) in
  sret (iRet, reply).

Definition HandleRequest (pev : Z) (now : Z) (request reply : list char) : VM (Z * list char) :=
  do* ctx := get_ctx pev in
  do* (pObj, iRet, isDone) := collect_request (ctx_sock ctx) pev now request in
  finish_request pObj iRet isDone reply.
End manager.
Arguments server : clear implicits.
