(* ===== verification/RequestSpec.v ===== *)
(** The handlers of the server: none is leaked, used after its release or
    released twice, whatever requests arrive; idle ones are dropped; and what a
    request is answered. *)

From stdpp Require Import base tactics sets list numbers strings gmap sorting.
From Stdlib Require Import ZArith Lia.
From S2P Require Import Prelude StateMonad Text Http HttpSpec Request.

Local Open Scope Z_scope.

(** * One handler *)

Lemma CheckData_total now request o : zlen (m_requestStr o) + zlen request <= INT_MAX ->
  (cut (m_requestStr o ++ request) /\ CheckData now request o = Fault Thrown) \/
  exists r o', CheckData now request o = Ok (r, o') /\ m_pArg o' = m_pArg o /\ m_activeTime o' = Some now /\
    m_pHttpParse o' <> None /\ zlen (m_requestStr o') <= zlen (m_requestStr o) + zlen request /\
    (r = DATA_OK \/ r = DATA_DEF \/ r = DATA_ERROR).
Proof.
  intros Hl. unfold CheckData. rewrite (sbind_ok sget) with (1 := eq_refl). cbv zeta.
  set (data := m_requestStr o ++ request) in *.
  assert (zlen data <= INT_MAX) as Hd by (unfold data; rewrite length_app; lia).
  assert (exists p0, m_bHeaderDown p0 = false /\ match m_pHttpParse o with Some p => parse_request data (p, data) | None => new_CHttpParse (fresh_parse, data) end =
    parse_request0 (p0, data)) as (p0 & Hp0 & ->) by
    (destruct (m_pHttpParse o); [exists (mkParse METHOD_UNKNOW (Some CON_UNKNOW) [] [] [] [] [] [] [] 0 [] false)|exists fresh_parse]; done).
  destruct (parse_request0_total p0 data Hp0 Hd) as [[? ->]|(_ & logs & p & rest & -> & Hr & _)]; [by left|right].
  eexists _, _. split; [done|]. cbn [m_pArg m_activeTime m_pHttpParse m_requestStr]. split_and!; [done..| |].
  - unfold data in Hr. rewrite length_app in Hr. lia.
  - destruct (_ =? _); [by left|]. destruct (_ <? _); [by right; left|by right; right].
Qed.

(** * The invariant of the manager *)

Section manager.
Context {S : Type} `{ObjectPoolLaws S}.

(** The handler of a descriptor: it is waiting for more data of the connection
    that has the descriptor. *)
Definition entry_ok (b : Z) (v : server S) (sock a : Z) : Prop :=
  0 < a /\ exists o x, v_objs v !! a = Some o /\ v_ctxs v !! m_pArg o = Some x /\ ctx_sock x = sock /\
    m_activeTime o <> None /\ zlen (m_requestStr o) <= b.

(** [n] more requests can be served; no handler has more than [b] bytes. *)
Record req_inv (n : nat) (b : Z) (v : server S) : Prop := {
  ri_pool : pool_ok n (v_pool v) (dom (v_objs v));
  ri_entry sock a : m_ReqHandlerMap v !! sock = Some a -> entry_ok b v sock a;
  ri_owned a : a ∈ dom (v_objs v) -> exists sock, m_ReqHandlerMap v !! sock = Some a;
  ri_socks c1 c2 x1 x2 : v_ctxs v !! c1 = Some x1 -> v_ctxs v !! c2 = Some x2 -> ctx_sock x1 = ctx_sock x2 -> c1 = c2;
  ri_null : v_ctxs v !! 0 = None
}.

Lemma entry_inj n b v s1 s2 a : req_inv n b v -> m_ReqHandlerMap v !! s1 = Some a -> m_ReqHandlerMap v !! s2 = Some a -> s1 = s2.
Proof.
  intros Hi H1 H2. destruct (ri_entry _ _ _ Hi _ _ H1) as (_ & o1 & x1 & E1 & C1 & <- & _).
  destruct (ri_entry _ _ _ Hi _ _ H2) as (_ & o2 & x2 & E2 & C2 & <- & _). congruence.
Qed.

Lemma inv_set_lock n b v l : req_inv n b v -> req_inv n b (set_lock l v).
Proof. intros []. by split. Qed.

Lemma inv_weaken n b b' v : req_inv (Datatypes.S n) b v -> b <= b' -> req_inv n b' v.
Proof.
  intros [Hp He Ho Hs Hz] Hb. split; [by apply pool_ok_weaken| |done..].
  intros sock a Ha. destruct (He sock a Ha) as (? & o & x & ?). split; [done|]. exists o, x. naive_solver lia.
Qed.

(** ** Dropping a handler *)

Definition drop_handler (sock pObj c : Z) : SM (server S) unit :=
  do* _ := EventCtx_free c in
  do* _ := delete_obj pObj in
  smodify (fun v => set_map (delete sock (m_ReqHandlerMap v)) v).

Lemma EventCtx_free_ok c x (v : server S) : c <> 0 -> v_ctxs v !! c = Some x ->
  EventCtx_free c v = Ok (tt, set_ctxs (delete c (v_ctxs v)) (v_closed v ++ [ctx_sock x]) v).
Proof. intros Hc Hx. unfold EventCtx_free. rewrite (proj2 (Z.eqb_neq c 0)) by done. unfold sbind, get_ctx. by rewrite Hx. Qed.

Lemma delete_obj_ok n a o v : pool_ok n (v_pool v) (dom (v_objs v)) -> v_objs v !! a = Some o ->
  exists s, delete_obj a v = Ok (tt, set_pool s (set_objs (delete a (v_objs v)) v)) /\ pool_ok n s (dom (delete a (v_objs v))).
Proof.
  intros Hp Ho. destruct (delete_ok n _ _ a Hp) as (s & Es & Hs); [by apply elem_of_dom_2 in Ho|].
  exists s. rewrite dom_delete_L. split; [|done]. unfold delete_obj, sbind, get_obj. rewrite Ho. unfold smodify, on_pool. cbn. by rewrite Es.
Qed.

Lemma drop_handler_ok n b v sock a o : req_inv n b v -> m_ReqHandlerMap v !! sock = Some a -> v_objs v !! a = Some o ->
  exists v', drop_handler sock a (m_pArg o) v = Ok (tt, v') /\ req_inv n b v' /\ m_LockerReqMap v' = m_LockerReqMap v /\
    m_ReqHandlerMap v' = delete sock (m_ReqHandlerMap v) /\ v_objs v' = delete a (v_objs v) /\
    v_ctxs v' = delete (m_pArg o) (v_ctxs v) /\ v_closed v' = v_closed v ++ [sock].
Proof.
  intros Hi Hm Ho. destruct (ri_entry _ _ _ Hi _ _ Hm) as (Ha & o' & x & Ho' & Hx & Hsock & _). simplify_eq.
  assert (m_pArg o <> 0) as Hc by (intros E; rewrite E, (ri_null _ _ _ Hi) in Hx; done).
  destruct (delete_obj_ok n a o (set_ctxs (delete (m_pArg o) (v_ctxs v)) (v_closed v ++ [ctx_sock x]) v)) as (s & Es & Hs);
    [apply Hi|done|].
  eexists. split; [unfold drop_handler; run (EventCtx_free_ok _ _ v Hc Hx); by run Es|]. split; [|done].
  split; cbn.
  - done.
  - intros k a' [Hk Hma]%lookup_delete_Some. destruct (ri_entry _ _ _ Hi _ _ Hma) as (Ha' & o1 & x1 & Ho1 & Hx1 & Hs1 & Hr).
    split; [done|]. exists o1, x1. cbn. rewrite !lookup_delete_ne; [done| |].
    + intros E. rewrite E in Hx. congruence.
    + intros ->. apply Hk. by eapply entry_inj.
  - intros a'. rewrite dom_delete_L. intros [Hd Hn]%elem_of_difference. destruct (ri_owned _ _ _ Hi a' Hd) as [k Hk]. exists k.
    rewrite lookup_delete_ne; [done|]. intros E. rewrite E in Hm. assert (a = a') by congruence. set_solver.
  - intros c1 c2 x1 x2 [_ H1]%lookup_delete_Some [_ H2]%lookup_delete_Some. by apply (ri_socks _ _ _ Hi).
  - rewrite lookup_delete_ne by done. apply (ri_null _ _ _ Hi).
Qed.

(** ** ReleaseHandler and OnCheckActiveTime *)

Lemma lock_ok (v : server S) : m_LockerReqMap v = false -> lock v = Ok (tt, set_lock true v).
Proof. intros E. unfold lock. by rewrite E. Qed.

Lemma set_lock_twice l l' (v : server S) : set_lock l (set_lock l' v) = set_lock l v.
Proof. done. Qed.

Lemma get_obj_ok a o (v : server S) : v_objs v !! a = Some o -> get_obj a v = Ok (o, v).
Proof. intros E. unfold get_obj. by rewrite E. Qed.

Lemma ReleaseHandler_inv n b v sock : req_inv n b v -> m_LockerReqMap v = false ->
  exists r v', ReleaseHandler sock v = Ok (r, v') /\ req_inv n b v' /\ m_LockerReqMap v' = false.
Proof.
  intros Hi Hl. unfold ReleaseHandler. run (lock_ok v Hl). rewrite (sbind_ok sget) with (1 := eq_refl). cbn [m_ReqHandlerMap set_lock].
  destruct (m_ReqHandlerMap v !! sock) as [a|] eqn:Hm; [|eexists _, _; split; [done|split; [by do 2 apply inv_set_lock|done]]].
  destruct (ri_entry _ _ _ Hi _ _ Hm) as (Ha & o & x & Ho & _). rewrite (proj2 (Z.eqb_neq a 0)) by lia.
  destruct (drop_handler_ok n b (set_lock true v) sock a o) as (v' & E & Hi' & Hl' & _); [by apply inv_set_lock|done|done|].
  eexists true, (set_lock false v'). split; [|split; [by apply inv_set_lock|done]].
  erewrite sbind_ok; [|rewrite (sbind_ok (get_obj a)) with (1 := get_obj_ok a o (set_lock true v) Ho); exact E]. done.
Qed.

(** A handler that has been idle for too long. *)
Definition expired (curTime : Z) (o : CReqHandlerObj) : bool :=
  match m_activeTime o with Some t => ACTIVA_TIMEVAL <=? int (curTime - t) | None => false end.

Lemma check_active_ok n b v curTime sock : req_inv n b v ->
  exists v', check_active curTime sock v = Ok (tt, v') /\ req_inv n b v' /\ m_LockerReqMap v' = m_LockerReqMap v /\
    (v' = v /\ (forall a o, m_ReqHandlerMap v !! sock = Some a -> v_objs v !! a = Some o -> expired curTime o = false) \/
     exists a o, m_ReqHandlerMap v !! sock = Some a /\ v_objs v !! a = Some o /\ expired curTime o = true /\
       m_ReqHandlerMap v' = delete sock (m_ReqHandlerMap v) /\ v_objs v' = delete a (v_objs v) /\ v_closed v' = v_closed v ++ [sock]).
Proof.
  intros Hi. unfold check_active. rewrite (sbind_ok sget) with (1 := eq_refl).
  destruct (m_ReqHandlerMap v !! sock) as [a|] eqn:Hm; [|exists v; split_and!; [done..|by left]].
  destruct (ri_entry _ _ _ Hi _ _ Hm) as (Ha & o & x & Ho & _ & _ & Ht & _). rewrite (proj2 (Z.eqb_neq a 0)) by lia.
  run (get_obj_ok a o v Ho). unfold GetActiveTime, expired. destruct (m_activeTime o) as [t|] eqn:Et; [|done].
  rewrite (sbind_ok (slift (Ok t))) with (1 := eq_refl). cbv zeta.
  destruct (ACTIVA_TIMEVAL <=? int (curTime - t)) eqn:Ex.
  - destruct (drop_handler_ok n b v sock a o Hi Hm Ho) as (v' & E & Hi' & Hl' & M' & O' & _ & C'). exists v'.
    split_and!; [exact E|done|done|]. right. exists a, o. rewrite Et. by split_and!.
  - exists v. split_and!; [done..|]. left. split; [done|]. intros a' o' Ha' Ho'. assert (o' = o) as -> by congruence. by rewrite Et.
Qed.

(** The state after the loop over some of the descriptors. *)
Lemma check_loop_ok n b curTime keys : NoDup keys -> forall v, req_inv n b v ->
  exists v' gone, check_loop curTime keys v = Ok (tt, v') /\ req_inv n b v' /\ m_LockerReqMap v' = m_LockerReqMap v /\
    v_closed v' = v_closed v ++ gone /\
    (forall sock, sock ∈ gone <-> sock ∈ keys /\ exists a o, m_ReqHandlerMap v !! sock = Some a /\ v_objs v !! a = Some o /\ expired curTime o = true) /\
    (forall sock, m_ReqHandlerMap v' !! sock = if bool_decide (sock ∈ gone) then None else m_ReqHandlerMap v !! sock) /\
    (forall sock a, m_ReqHandlerMap v' !! sock = Some a -> v_objs v' !! a = v_objs v !! a).
Proof.
  induction 1 as [|k keys Hk Hnd IH]; intros v Hi.
  - exists v, []. rewrite app_nil_r. split_and!; [done..|intros; set_solver|intros; by rewrite bool_decide_false by set_solver|done].
  - destruct (check_active_ok n b v curTime k Hi) as (v1 & E1 & Hi1 & Hl1 & Hc). cbn [check_loop]. run E1.
    destruct (IH v1 Hi1) as (v' & gone & E & Hi' & Hl' & C' & G' & M' & O').
    destruct Hc as [[-> Hno]|(a & o & Hm & Ho & Hx & M1 & O1 & C1)].
    + exists v', gone. split_and!; try done. intros sock. rewrite G', elem_of_cons. split; [naive_solver|].
      intros [[->|Hs] (a & o & Ha & Ho & Hx)]; [|naive_solver]. rewrite (Hno a o Ha Ho) in Hx. done.
    + assert (forall sock a', m_ReqHandlerMap v1 !! sock = Some a' -> m_ReqHandlerMap v !! sock = Some a' /\ v_objs v1 !! a' = v_objs v !! a') as Hkeep.
      { intros sock a' Ha'. rewrite M1 in Ha'. apply lookup_delete_Some in Ha' as [Hne Ha']. split; [done|]. rewrite O1, lookup_delete_ne; [done|].
        intros E'. apply Hne. rewrite <- E' in Ha'. exact (entry_inj n b v k sock a Hi Hm Ha'). }
      exists v', (k :: gone). split_and!; [done|done|congruence|rewrite C', C1; by rewrite <- app_assoc| | |].
      * intros sock. rewrite !elem_of_cons, G'. split.
        -- intros [->|(Hs & a' & o' & Ha' & Ho' & Hx')]; [naive_solver|]. destruct (Hkeep _ _ Ha') as [Hb Hc]. split; [by right|]. exists a', o'. by rewrite <- Hc.
        -- intros [[->|Hs] (a' & o' & Ha' & Ho' & Hx')]; [by left|right]. split; [done|]. exists a', o'.
           assert (m_ReqHandlerMap v1 !! sock = Some a') as Hv1 by (rewrite M1, lookup_delete_ne; [done|]; intros ->; done).
           destruct (Hkeep _ _ Hv1) as [_ ->]. done.
      * intros sock. rewrite M', M1. destruct (decide (sock = k)) as [->|Hne].
        -- rewrite (bool_decide_true (k ∈ k :: gone)) by set_solver. rewrite lookup_delete_eq. by case_bool_decide.
        -- rewrite lookup_delete_ne by done. do 2 case_bool_decide; set_solver.
      * intros sock a' Ha'. rewrite (O' _ _ Ha'). rewrite M' in Ha'. case_bool_decide; [done|]. by destruct (Hkeep _ _ Ha').
Qed.

Lemma map_keys_NoDup (m : gmap Z Z) : NoDup (merge_sort Z.le (map_to_list m).*1).
Proof. rewrite merge_sort_Permutation. apply NoDup_fst_map_to_list. Qed.

Lemma OnCheckActiveTime_ok n b v curTime : req_inv n b v -> m_LockerReqMap v = false ->
  exists v' gone, OnCheckActiveTime curTime v = Ok (tt, v') /\ req_inv n b v' /\ m_LockerReqMap v' = false /\
    v_closed v' = v_closed v ++ gone /\
    (forall sock, sock ∈ gone <-> exists a o, m_ReqHandlerMap v !! sock = Some a /\ v_objs v !! a = Some o /\ expired curTime o = true) /\
    (forall sock, m_ReqHandlerMap v' !! sock = if bool_decide (sock ∈ gone) then None else m_ReqHandlerMap v !! sock).
Proof.
  intros Hi Hl. unfold OnCheckActiveTime. run (lock_ok v Hl). rewrite (sbind_ok sget) with (1 := eq_refl). cbn [m_ReqHandlerMap set_lock].
  destruct (check_loop_ok n b curTime _ (map_keys_NoDup (m_ReqHandlerMap v)) (set_lock true v)) as (v' & gone & E & Hi' & _ & C & G & M & _);
    [by apply inv_set_lock|].
  exists (set_lock false v'), gone. run E. split_and!; [done|by apply inv_set_lock|done|done| |done].
  intros sock. rewrite G. split; [naive_solver|]. intros (a & o & Ha & Ho). split; [|by exists a, o].
  rewrite merge_sort_Permutation. apply list_elem_of_fmap. exists (sock, a). split; [done|]. by apply elem_of_map_to_list.
Qed.

(** ** HandleRequest *)

Section change.
Context (n : nat) (b b' : Z) (v v' : server S) (Hi : req_inv n b v) (Hctx : v_ctxs v' = v_ctxs v).

Lemma inv_update sock a o o' : m_ReqHandlerMap v !! sock = Some a -> v_objs v !! a = Some o ->
  v_pool v' = v_pool v -> v_objs v' = <[a := o']> (v_objs v) -> m_ReqHandlerMap v' = m_ReqHandlerMap v ->
  m_pArg o' = m_pArg o -> m_activeTime o' <> None -> b <= b' -> zlen (m_requestStr o') <= b' -> req_inv n b' v'.
Proof using Hi Hctx.
  intros Hm Ho Ep Eo Em Harg Ht Hb Hl. destruct Hi as [Hp He Hw Hs Hz]. split; rewrite ?Ep, ?Eo, ?Em, ?Hctx; [| | |done..].
  - rewrite dom_insert_lookup_L by done. done.
  - intros k a' Ha'. destruct (He k a' Ha') as (? & o1 & x1 & E1 & X1 & S1 & T1 & L1). split; [done|].
    rewrite Eo, Hctx. destruct (decide (a' = a)) as [->|Hne].
    + exists o', x1. rewrite lookup_insert_eq, Harg. assert (o1 = o) as -> by congruence. by split_and!.
    + exists o1, x1. rewrite lookup_insert_ne by done. split_and!; [done..|lia].
  - intros a'. rewrite dom_insert_lookup_L by done. apply Hw.
Qed.

Lemma inv_remove sock a o : m_ReqHandlerMap v !! sock = Some a -> v_objs v !! a = Some o ->
  pool_ok n (v_pool v') (dom (delete a (v_objs v))) -> v_objs v' = delete a (v_objs v) ->
  m_ReqHandlerMap v' = delete sock (m_ReqHandlerMap v) -> b <= b' -> req_inv n b' v'.
Proof using Hi Hctx.
  intros Hm Ho Ep Eo Em Hb. split; rewrite ?Eo, ?Em, ?Hctx; [done| | |apply Hi..].
  - intros k a' [Hk Ha']%lookup_delete_Some. destruct (ri_entry _ _ _ Hi _ _ Ha') as (? & o1 & x1 & E1 & X1 & S1 & T1 & L1). split; [done|].
    exists o1, x1. rewrite Eo, Hctx, lookup_delete_ne; [split_and!; [done..|lia]|].
    intros <-. apply Hk. exact (entry_inj n b v _ _ _ Hi Hm Ha').
  - intros a'. rewrite dom_delete_L. intros [Hd Hn]%elem_of_difference. destruct (ri_owned _ _ _ Hi a' Hd) as [k Hk]. exists k.
    rewrite lookup_delete_ne; [done|]. intros E. rewrite E in Hm. assert (a = a') by congruence. set_solver.
Qed.

Lemma inv_add sock a o x : m_ReqHandlerMap v !! sock = None -> 0 < a -> a ∉ dom (v_objs v) ->
  pool_ok n (v_pool v') ({[a]} ∪ dom (v_objs v)) -> v_objs v' = <[a := o]> (v_objs v) ->
  m_ReqHandlerMap v' = <[sock := a]> (m_ReqHandlerMap v) -> v_ctxs v !! m_pArg o = Some x -> ctx_sock x = sock ->
  m_activeTime o <> None -> b <= b' -> zlen (m_requestStr o) <= b' -> req_inv n b' v'.
Proof using Hi Hctx.
  intros Hm Ha Hf Ep Eo Em Hx Hs Ht Hb Hl. split; rewrite ?Eo, ?Em, ?Hctx; [| | |apply Hi..].
  - by rewrite dom_insert_L.
  - intros k a'. rewrite lookup_insert_Some. intros [[<- <-]|[Hk Ha']].
    + split; [done|]. exists o, x. rewrite Eo, Hctx, lookup_insert_eq. by split_and!.
    + destruct (ri_entry _ _ _ Hi _ _ Ha') as (? & o1 & x1 & E1 & X1 & S1 & T1 & L1). split; [done|]. exists o1, x1.
      rewrite Eo, Hctx, lookup_insert_ne; [split_and!; [done..|lia]|]. intros ->. apply elem_of_dom_2 in E1. done.
  - intros a'. rewrite dom_insert_L. intros [->%elem_of_singleton|Hd]%elem_of_union; [exists sock; by rewrite lookup_insert_eq|].
    destruct (ri_owned _ _ _ Hi a' Hd) as [k Hk]. exists k. rewrite lookup_insert_ne; [done|]. intros ->. congruence.
Qed.
End change.

(** What the verdict on complete data turns into. *)
Definition answer (iRet : Z) (reply : list char) : Z * list char :=
  if iRet =? DATA_OK then (SUCCESS, REPLY_HEADER ++ REPLY_BODY) else (iRet, reply).

Lemma finish_done n v a o iRet reply : 0 < a -> iRet = DATA_OK \/ iRet = DATA_ERROR ->
  pool_ok n (v_pool v) (dom (v_objs v)) -> v_objs v !! a = Some o -> m_pHttpParse o <> None ->
  exists s, finish_request a iRet true reply v = Ok (answer iRet reply, set_pool s (set_objs (delete a (v_objs v)) v)) /\
    pool_ok n s (dom (delete a (v_objs v))).
Proof.
  intros Ha Hr Hp Ho Hh. destruct (delete_obj_ok n a o v Hp Ho) as (s & Es & Hs). exists s. split; [|done].
  unfold finish_request, answer. rewrite (proj2 (Z.eqb_neq a 0)) by lia. cbn [negb andb].
  destruct Hr as [->| ->].
  - rewrite Z.eqb_refl. rewrite sbind_assoc. run (get_obj_ok a o v Ho). unfold OnHandle. destruct (m_pHttpParse o); [|done].
    rewrite (sbind_ok (slift (Ok (SUCCESS, REPLY_HEADER ++ REPLY_BODY)))) with (1 := eq_refl). change (SUCCESS =? DATA_DEF) with false. cbn [negb]. by run Es.
  - change (DATA_ERROR =? DATA_OK) with false. cbv iota. rewrite sbind_ret. cbv beta iota. change (DATA_ERROR =? DATA_DEF) with false. cbn [negb]. by run Es.
Qed.

Lemma finish_pending a reply (v : server S) : finish_request a DATA_DEF false reply v = Ok ((DATA_DEF, reply), v).
Proof. unfold finish_request. rewrite andb_false_r. cbv iota. rewrite sbind_ret. cbn [Z.eqb DATA_DEF Pos.eqb negb]. by rewrite andb_false_r. Qed.

Lemma on_obj_ok {A} a o (m : SM CReqHandlerObj A) r o' (v : server S) : v_objs v !! a = Some o -> m o = Ok (r, o') ->
  on_obj a m v = Ok (r, set_objs (<[a := o']> (v_objs v)) v).
Proof. intros Ho Hm. unfold on_obj. by rewrite Ho, Hm. Qed.

Lemma on_obj_fault {A} a o (m : SM CReqHandlerObj A) f (v : server S) : v_objs v !! a = Some o -> m o = Fault f -> on_obj a m v = Fault f.
Proof. intros Ho Hm. unfold on_obj. by rewrite Ho, Hm. Qed.

(** What a connection has sent that its handler has not consumed yet, if it has a
    handler. *)
Definition pending (v : server S) (c : Z) : list char :=
  match v_ctxs v !! c with
  | Some x =>
      match m_ReqHandlerMap v !! ctx_sock x with
      | Some a => match v_objs v !! a with Some o => m_requestStr o | None => [] end
      | None => []
      end
  | None => []
  end.

(** ** A descriptor with a handler *)

Section found.
Context (n : nat) (b : Z) (v : server S) (pev now : Z) (request reply : list char) (x : EventCtx) (a : Z).
Context (Hi : req_inv (Datatypes.S n) b v) (Hl : m_LockerReqMap v = false) (Hx : v_ctxs v !! pev = Some x).
Context (Hb : b + zlen request <= INT_MAX) (Hm : m_ReqHandlerMap v !! ctx_sock x = Some a).

Lemma handle_found :
  (cut (pending v pev ++ request) /\ HandleRequest pev now request reply v = Fault Thrown) \/
  exists r v', HandleRequest pev now request reply v = Ok (r, v') /\ req_inv n (b + zlen request) v' /\ m_LockerReqMap v' = false.
Proof using Hi Hl Hx Hb Hm.
  destruct (ri_entry _ _ _ Hi _ _ Hm) as (Ha & o & x' & Ho & Hx' & Hs & Ht & Hlen).
  unfold HandleRequest, get_ctx. rewrite (sbind_ok (fun _ => _) _ v x v) by (by rewrite Hx).
  unfold collect_request. rewrite sbind_assoc. run (lock_ok v Hl). rewrite sbind_assoc, (sbind_ok sget) with (1 := eq_refl).
  cbn [m_ReqHandlerMap set_lock]. rewrite Hm, (proj2 (Z.eqb_neq a 0)) by lia. rewrite !sbind_assoc.
  destruct (CheckData_total now request o) as [[Hcut Hf]|(r & o' & E & Harg & Hact & Hpar & Hz & Hr)]; [lia| |].
  - left. split; [unfold pending; by rewrite Hx, Hm, Ho|]. apply sbind_fault. by eapply on_obj_fault.
  - right. run (on_obj_ok a o _ r o' (set_lock true v) Ho E). cbn [v_objs set_lock].
    assert (r = DATA_DEF \/ r = DATA_OK \/ r = DATA_ERROR) as [->|Hrr] by tauto.
    + change (DATA_DEF =? DATA_DEF) with true. cbn [negb]. eexists _, _. split.
      { exact (finish_pending a reply (set_lock false (set_objs (<[a := o']> (v_objs v)) v))). }
      split; [|done]. apply (fun Hc => inv_update n b _ v _ (inv_weaken n b b v Hi ltac:(lia)) Hc (ctx_sock x) a o o'); try done; rewrite ?Hact; (done || lia).
    + assert ((r =? DATA_DEF) = false) as -> by (by destruct Hrr as [->| ->]). cbn [negb].
      set (v2 := set_lock false (set_map (delete (ctx_sock x) (m_ReqHandlerMap v)) (set_objs (<[a := o']> (v_objs v)) v))).
      destruct (finish_done n v2 a o' r reply Ha Hrr) as (s & Es & Hps).
      { unfold v2. cbn. rewrite dom_insert_lookup_L by done. apply pool_ok_weaken, Hi. } { unfold v2. cbn. by rewrite lookup_insert_eq. } { done. }
      eexists _, _. split; [exact Es|]. split; [|done].
      apply (fun Hc => inv_remove n b _ v _ (inv_weaken n b b v Hi ltac:(lia)) Hc (ctx_sock x) a o); cbn in *; rewrite ?delete_insert_eq in *; (done || lia).
Qed.
End found.

(** ** A descriptor without a handler *)

Section new.
Context (n : nat) (b : Z) (v : server S) (pev now : Z) (request reply : list char) (x : EventCtx).
Context (Hi : req_inv (Datatypes.S n) b v) (Hl : m_LockerReqMap v = false) (Hx : v_ctxs v !! pev = Some x).
Context (Hb : 0 <= b) (Hn : b + zlen request <= INT_MAX) (Hm : m_ReqHandlerMap v !! ctx_sock x = None).

(** The state after [create_obj], with the handler as it is then. *)
Definition with_new (s : S) (a : Z) (o : CReqHandlerObj) : server S := set_objs (<[a := o]> (v_objs v)) (set_pool s (set_lock false v)).

Lemma create_obj_ok : exists a s, pool_create (v_pool v) = Ok (a, s) /\ pool_ok n s (if a =? 0 then dom (v_objs v) else {[a]} ∪ dom (v_objs v)) /\ 0 <= a /\ (a <> 0 -> a ∉ dom (v_objs v)) /\
  create_obj pev (set_lock false v) =
    Ok (a, if a =? 0 then set_pool s (set_lock false v) else with_new s a (new_CReqHandlerObj pev)).
Proof using Hi.
  clear Hn. destruct (create_ok n _ _ (ri_pool _ _ _ Hi)) as (a & s & E & Hc). exists a, s. split; [exact E|]. unfold create_obj, sbind, on_pool. cbn [v_pool set_lock]. rewrite E.
  destruct Hc as [[-> Hp]|(Ha & Hf & Hp)]; [done|]. rewrite (proj2 (Z.eqb_neq a 0)) by lia. split_and!; [done|lia|done|done].
Qed.

Lemma handle_new :
  (cut (pending v pev ++ request) /\ HandleRequest pev now request reply v = Fault Thrown) \/
  exists r v', HandleRequest pev now request reply v = Ok (r, v') /\ req_inv n (b + zlen request) v' /\ m_LockerReqMap v' = false.
Proof using Hi Hl Hx Hb Hn Hm.
  unfold HandleRequest, get_ctx. rewrite (sbind_ok (fun _ => _) _ v x v) by (by rewrite Hx).
  unfold collect_request. rewrite sbind_assoc. run (lock_ok v Hl). rewrite sbind_assoc, (sbind_ok sget) with (1 := eq_refl).
  cbn [m_ReqHandlerMap set_lock]. rewrite Hm. rewrite sbind_assoc, (sbind_ok unlock) with (1 := eq_refl). rewrite set_lock_twice.
  destruct create_obj_ok as (a & s & _ & Hp & Ha & Hf & Ec). rewrite sbind_assoc. run Ec.
  destruct (Z.eqb_spec a 0) as [->|Hne].
  - right. eexists _, _. split; [done|]. split; [|done]. destruct (inv_weaken n b (b + zlen request) v Hi ltac:(lia)). by split.
  - specialize (Hf Hne). rewrite sbind_assoc.
    assert (v_objs (with_new s a (new_CReqHandlerObj pev)) !! a = Some (new_CReqHandlerObj pev)) as Hnew by (unfold with_new; cbn; by rewrite lookup_insert_eq).
    destruct (CheckData_total now request (new_CReqHandlerObj pev)) as [[Hcut Hfa]|(r & o' & E & Harg & Hact & Hpar & Hz & Hr)]; [cbn; lia| |].
    { left. split; [unfold pending; by rewrite Hx, Hm|]. apply sbind_fault. by eapply on_obj_fault. }
    right. run (on_obj_ok a _ _ r o' (with_new s a (new_CReqHandlerObj pev)) Hnew E). unfold with_new. cbn [v_objs set_objs]. rewrite insert_insert_eq.
    assert (r = DATA_DEF \/ r = DATA_OK \/ r = DATA_ERROR) as [->|Hrr] by tauto.
    + change (DATA_DEF =? DATA_DEF) with true. cbn [negb]. eexists _, _. split.
      { exact (finish_pending a reply (set_lock false (set_map (match m_ReqHandlerMap v !! ctx_sock x with Some _ => m_ReqHandlerMap v
          | None => <[ctx_sock x := a]> (m_ReqHandlerMap v) end) (set_lock true (set_objs (<[a := o']> (v_objs v)) (set_pool s (set_lock false v))))))). }
      split; [|done]. cbn. rewrite Hm.
      apply (fun Hc => inv_add n b _ v _ (inv_weaken n b b v Hi ltac:(lia)) Hc (ctx_sock x) a o' x); cbn in *; rewrite ?Harg, ?Hact; (done || lia).
    + assert ((r =? DATA_DEF) = false) as -> by (by destruct Hrr as [->| ->]). cbn [negb].
      set (v2 := set_objs (<[a := o']> (v_objs v)) (set_pool s (set_lock false v))).
      destruct (finish_done n v2 a o' r reply ltac:(lia) Hrr) as (s' & Es & Hps).
      { unfold v2. cbn. by rewrite dom_insert_L. } { unfold v2. cbn. by rewrite lookup_insert_eq. } { done. }
      eexists _, _. split; [exact Es|]. split; [|done]. cbn in *. rewrite delete_insert_id in Hps |- * by (by apply not_elem_of_dom).
      destruct (inv_weaken n b (b + zlen request) v Hi ltac:(lia)). by split.
Qed.
End new.

Lemma HandleRequest_inv n b v pev now request reply x : req_inv (Datatypes.S n) b v -> m_LockerReqMap v = false -> v_ctxs v !! pev = Some x ->
  0 <= b -> b + zlen request <= INT_MAX ->
  (cut (pending v pev ++ request) /\ HandleRequest pev now request reply v = Fault Thrown) \/
  exists r v', HandleRequest pev now request reply v = Ok (r, v') /\ req_inv n (b + zlen request) v' /\ m_LockerReqMap v' = false.
Proof.
  intros Hi Hl Hx Hb Hn. destruct (m_ReqHandlerMap v !! ctx_sock x) as [a|] eqn:Hm.
  - by eapply handle_found.
  - by apply (handle_new n b v pev now request reply x).
Qed.

(** * Any history *)

(** A connection is accepted, data arrive on one, the callback of one closes it
    since its client is gone, a handler is released (which nothing in the program
    asks for), the timer ticks. *)
Inductive event :=
| EOpen (c sock : Z)
| ERequest (c now : Z) (request : list char)
| EClose (c : Z)
| ERelease (sock : Z)
| ETimer (now : Z).

(** The addresses of contexts are those of an allocator and the descriptors
    those of the kernel: a new one is none of the live ones. *)
Definition can_open (c sock : Z) (v : server S) : bool :=
  negb (c =? 0) && bool_decide (v_ctxs v !! c = None) && bool_decide (map_Forall (fun _ x => ctx_sock x <> sock) (v_ctxs v)).

Definition run_event (e : event) : SM (server S) unit :=
  do* v := sget in
  match e with
  | EOpen c sock => if can_open c sock v then sput (set_ctxs (<[c := mkCtx sock false]> (v_ctxs v)) (v_closed v) v) else sret tt
  | ERequest c now request =>
      if bool_decide (is_Some (v_ctxs v !! c)) then
        do* _ := HandleRequest c now request (lit "ERROR") in
        sret tt
      else sret tt
  | EClose c => if bool_decide (is_Some (v_ctxs v !! c)) then EventCtx_free c else sret tt
  | ERelease sock => do* _ := ReleaseHandler sock in sret tt
  | ETimer now => OnCheckActiveTime now
  end.

Fixpoint run_events (es : list event) : SM (server S) unit :=
  match es with
  | [] => sret tt
  | e :: es => do* _ := run_event e in run_events es
  end.

Definition event_bytes (e : event) : Z := match e with ERequest _ _ request => zlen request | _ => 0 end.
Definition total_bytes (es : list event) : Z := foldr (fun e t => event_bytes e + t) 0 es.

Lemma inv_open n b v c sock : req_inv n b v -> can_open c sock v = true ->
  req_inv n b (set_ctxs (<[c := mkCtx sock false]> (v_ctxs v)) (v_closed v) v).
Proof.
  intros [Hp He Ho Hs Hz] [[Hc Hnone%bool_decide_eq_true]%andb_prop Hall%bool_decide_eq_true]%andb_prop.
  apply negb_true_iff, Z.eqb_neq in Hc. split; cbn; [done| |done| |].
  - intros k a Ha. destruct (He k a Ha) as (? & o & x & Eo & Ex & Hr). split; [done|]. exists o, x. cbn. split; [done|]. split; [|done].
    rewrite lookup_insert_ne; [done|]. intros E. rewrite <- E in Ex. congruence.
  - intros c1 c2 x1 x2 [[<- <-]|[N1 E1]]%lookup_insert_Some [[<- <-]|[N2 E2]]%lookup_insert_Some Heq; [done| | |by apply (Hs c1 c2 x1 x2)].
    + destruct (Hall c2 x2 E2). by rewrite <- Heq.
    + destruct (Hall c1 x1 E1). by rewrite Heq.
  - by rewrite lookup_insert_ne.
Qed.

(** The handler of a connection waits for more data. *)
Definition waiting (v : server S) (c : Z) : Prop := exists x a, v_ctxs v !! c = Some x /\ m_ReqHandlerMap v !! ctx_sock x = Some a.

Lemma inv_close n b v c x : req_inv n b v -> v_ctxs v !! c = Some x -> m_ReqHandlerMap v !! ctx_sock x = None ->
  req_inv n b (set_ctxs (delete c (v_ctxs v)) (v_closed v ++ [ctx_sock x]) v).
Proof.
  intros [Hp He Ho Hs Hz] Hx Hm. split; cbn; [done| |done| |].
  - intros k a Ha. destruct (He k a Ha) as (? & o & y & Eo & Ey & Hk & Hr). split; [done|]. exists o, y. cbn. split; [done|]. split; [|done].
    rewrite lookup_delete_ne; [done|]. intros E. rewrite <- E in Ey. assert (y = x) as -> by congruence. congruence.
  - intros c1 c2 x1 x2 [_ H1]%lookup_delete_Some [_ H2]%lookup_delete_Some. by apply (Hs c1 c2).
  - apply lookup_delete_None. by right.
Qed.

(** What an event does that is not the closing of a connection whose handler
    waits. *)
Lemma run_event_inv n b e v : req_inv (Datatypes.S n) b v -> m_LockerReqMap v = false -> 0 <= b -> b + event_bytes e <= INT_MAX ->
  (exists c, e = EClose c /\ waiting v c) \/
  (exists c now request, e = ERequest c now request /\ cut (pending v c ++ request) /\ run_event e v = Fault Thrown) \/
  exists v', run_event e v = Ok (tt, v') /\ req_inv n (b + event_bytes e) v' /\ m_LockerReqMap v' = false.
Proof.
  intros Hi Hl Hb Hn. unfold run_event. rewrite (sbind_ok sget) with (1 := eq_refl).
  assert (forall v', req_inv (Datatypes.S n) b v' -> req_inv n (b + 0) v') as Hw by (intros v' Hv'; apply (inv_weaken n b); [done|lia]).
  destruct e as [c sock|c now request|c|sock|now]; cbn [event_bytes] in *.
  - right. right. destruct (can_open c sock v) eqn:E; eexists; (split; [done|]); (split; [|done]); apply Hw; [by apply inv_open|done].
  - right. case_bool_decide as Hc; [|right; eexists; split; [done|]; split; [|done]; apply (inv_weaken n b); [done|lia]]. destruct Hc as [x Hx].
    destruct (HandleRequest_inv n b v c now request (lit "ERROR") x Hi Hl Hx Hb Hn) as [[Hcut E]|(r & v' & E & Hi' & Hl')];
      [left; exists c, now, request; split_and!; [done|done|by apply sbind_fault]|right]. eexists. run E. done.
  - case_bool_decide as Hc; [|right; right; eexists; split; [done|]; split; [by apply Hw|done]]. destruct Hc as [x Hx].
    destruct (m_ReqHandlerMap v !! ctx_sock x) as [a|] eqn:Hm; [left; exists c; split; [done|by exists x, a]|right; right].
    assert (c <> 0) as Hz by (intros ->; by rewrite (ri_null _ _ _ Hi) in Hx).
    eexists. split; [by apply EventCtx_free_ok|]. split; [|done]. by apply Hw, inv_close.
  - right. right. destruct (ReleaseHandler_inv _ b v sock Hi Hl) as (r & v' & E & Hi' & Hl'). eexists. run E. split; [done|]. split; [by apply Hw|done].
  - right. right. destruct (OnCheckActiveTime_ok _ b v now Hi Hl) as (v' & g & E & Hi' & Hl' & _). exists v'. split; [done|]. split; [by apply Hw|done].
Qed.

Lemma total_bytes_nonneg es : 0 <= total_bytes es.
Proof.
  induction es as [|e es IH]; [done|]. cbn [total_bytes foldr]. fold (total_bytes es). destruct e; cbn [event_bytes]; lia.
Qed.

(** Events are handled up to the closing of a connection whose handler waits, or
    data that make the parser throw. *)
Lemma run_events_inv es : forall b v, req_inv (length es) b v -> m_LockerReqMap v = false -> 0 <= b -> b + total_bytes es <= INT_MAX ->
  exists es1 es2 v', es = es1 ++ es2 /\ run_events es1 v = Ok (tt, v') /\ req_inv (length es2) (b + total_bytes es1) v' /\ m_LockerReqMap v' = false /\
    (es2 = [] \/
     (exists c es3, es2 = EClose c :: es3 /\ waiting v' c) \/
     (exists c now request es3, es2 = ERequest c now request :: es3 /\ cut (pending v' c ++ request) /\
        run_event (ERequest c now request) v' = Fault Thrown)).
Proof.
  induction es as [|e es IH]; intros b v Hi Hl Hb Hn.
  - exists [], [], v. cbn [total_bytes foldr]. rewrite Z.add_0_r. split_and!; try done. by left.
  - pose proof (total_bytes_nonneg es). cbn [total_bytes foldr] in *. fold (total_bytes es) in *. cbn [length] in Hi.
    assert (0 <= event_bytes e) by (destruct e; cbn; lia).
    assert (forall P, P -> exists es1 es2 v', e :: es = es1 ++ es2 /\ run_events es1 v = Ok (tt, v') /\ req_inv (length es2) (b + total_bytes es1) v' /\
      m_LockerReqMap v' = false /\ es2 = e :: es /\ v' = v /\ P) as Hstop.
    { intros P HP. exists [], (e :: es), v. cbn [total_bytes foldr]. rewrite Z.add_0_r. by split_and!. }
    destruct (run_event_inv _ b e v Hi Hl Hb ltac:(lia)) as [(c & He & Hw)|[(c & now & request & He & Hw)|(v1 & E & Hi1 & Hl1)]].
    + destruct (Hstop _ (conj He Hw)) as (es1 & es2 & v' & ? & ? & ? & ? & E2 & -> & -> & ?). exists es1, es2, v. split_and!; try done. right. left. by exists c, es.
    + destruct (Hstop _ (conj He Hw)) as (es1 & es2 & v' & ? & ? & ? & ? & E2 & -> & -> & ? & ?). exists es1, es2, v. split_and!; try done.
      right. right. by exists c, now, request, es.
    + destruct (IH (b + event_bytes e) v1 Hi1 Hl1) as (es1 & es2 & v' & -> & E' & Hi' & Hl' & Hc); [lia|lia|].
      exists (e :: es1), es2, v'. cbn [run_events total_bytes foldr app]. fold (total_bytes es1). run E. rewrite Z.add_assoc. by split_and!.
Qed.

Lemma run_events_app es1 es2 v : run_events (es1 ++ es2) v = (do* _ := run_events es1 in run_events es2) v.
Proof.
  revert v. induction es1 as [|e es1 IH]; intros v; [done|]. cbn [app run_events]. rewrite sbind_assoc. unfold sbind.
  destruct (run_event e v) as [[[] v1]|]; [apply IH|done].
Qed.
End manager.
