(* ===== verification/RequestPool.v ===== *)
(** The memory pool keeps the promises of the interface [ObjectPool], so the
    request handlers of the server can live in it: the server's properties over
    the pool that [MemPoolObj] builds. *)

From stdpp Require Import base tactics sets list numbers strings gmap.
From Stdlib Require Import ZArith Lia.
From S2P Require Import Prelude StateMonad MemPool MemPoolSpec PoolInv PoolOps PoolLife PoolClient.
From S2P Require Import Text Http HttpSpec Request RequestSpec.

Local Open Scope Z_scope.

(** * The instance *)

(** The pool with the array of chunks [arr] and objects of a size. *)
Definition memory_pool `{Malloc} (arr sizeof_T : Z) : ObjectPool pmem :=
  {| pool_create := pool_Malloc (mkPool arr 8) sizeof_T; pool_delete := pool_Free (mkPool arr 8) |}.

Section instance.
Context `{MallocLaws} (B0 : gmap Z Z) (arr sizeof_T : Z) (Hsize : sizeof_T + HEAP_HEADER <= SIZE_MAX).

(** The pieces the pool has given out are the live objects. *)
Definition holds (n : nat) (s : pmem) (live : gset Z) : Prop :=
  exists ca fl ps k, pool_inv B0 arr ca fl ps k s /\ Forall (fun x : piece => x.2 = sizeof_T) ps /\
    list_to_set ps.*1 = live /\ 0 <= k /\ k + Z.of_nat n <= INT_MAX.

Lemma holds_weaken n s live : holds (S n) s live -> holds n s live.
Proof. intros (ca & fl & ps & k & ? & ? & ? & ? & ?). exists ca, fl, ps, k. split_and!; [done..|lia]. Qed.

Lemma fst_base (ps : list piece) (x : piece) : Forall (fun x : piece => x.2 = sizeof_T) (x :: ps) -> x.1 ∈ ps.*1 -> base x ∈ base <$> ps.
Proof.
  intros [Hx Hps]%Forall_cons_1 (y & Ey & Hy)%list_elem_of_fmap. apply list_elem_of_fmap. exists y. split; [|done].
  rewrite Forall_forall in Hps. specialize (Hps y Hy). unfold base, is_small. by rewrite Ey, Hx, Hps.
Qed.

Lemma pool_fresh ca fl ps k s (x : piece) : pool_inv B0 arr ca fl (x :: ps) k s -> Forall (fun x : piece => x.2 = sizeof_T) (x :: ps) -> x.1 ∉ ps.*1.
Proof.
  intros Hi Hf Hin. destruct (inv_parts _ _ _ _ _ _ _ Hi) as ([Hnin _]%NoDup_cons & _). apply Hnin. by apply fst_base.
Qed.

Lemma holds_create n s live : holds (S n) s live ->
  exists p s', pool_Malloc (mkPool arr 8) sizeof_T s = Ok (p, s') /\
    ((p = 0 /\ holds n s' live) \/ (0 < p /\ p ∉ live /\ holds n s' ({[p]} ∪ live))).
Proof.
  intros (ca & fl & ps & k & Hi & Hf & <- & Hk & Hn).
  destruct (pool_Malloc_ok B0 arr ca fl ps k s sizeof_T Hi Hsize) as (p & s' & E & _ & Hc); [lia|]. exists p, s'. split; [done|].
  destruct Hc as [(-> & _ & Hi')|(Hp & fl' & Hi')].
  - left. split; [done|]. exists ca, fl, ps, k. split_and!; [done..|lia].
  - right. assert (Forall (fun x : piece => x.2 = sizeof_T) ((p, sizeof_T) :: ps)) as Hf' by (by apply Forall_cons_2).
    split_and!; [done| |].
    + rewrite elem_of_list_to_set. exact (pool_fresh ca fl' ps _ s' (p, sizeof_T) Hi' Hf').
    + exists ca, fl', ((p, sizeof_T) :: ps), (k + 1). split_and!; [done|done|by cbn|lia|lia].
Qed.

Lemma holds_delete n s live p : holds n s live -> p ∈ live ->
  exists s', pool_Free (mkPool arr 8) p s = Ok (tt, s') /\ holds n s' (live ∖ {[p]}).
Proof.
  intros (ca & fl & ps & k & Hi & Hf & <- & Hk & Hn) Hp. apply elem_of_list_to_set, list_elem_of_fmap in Hp as (x & -> & Hx).
  destruct (list_elem_of_split _ _ Hx) as (l1 & l2 & ->).
  assert (l1 ++ x :: l2 ≡ₚ x :: (l1 ++ l2)) as Hperm by (by rewrite Permutation_middle).
  apply (inv_perm B0 arr ca fl _ _ k s Hperm) in Hi. rewrite Hperm in Hf.
  destruct (pool_Free_ok B0 arr ca fl (l1 ++ l2) k s x Hi) as (fl' & s' & E & Hi' & _). exists s'. split; [done|].
  exists ca, fl', (l1 ++ l2), k. split_and!; [done|by apply Forall_cons_1 in Hf as [_ ?]| |done|done].
  pose proof (pool_fresh ca fl _ k s x Hi Hf) as Hfr. rewrite fmap_app in Hfr. rewrite !fmap_app, fmap_cons, !list_to_set_app_L. cbn. set_solver.
Qed.

#[export] Instance memory_pool_laws : @ObjectPoolLaws pmem (memory_pool arr sizeof_T) :=
  @Build_ObjectPoolLaws pmem (memory_pool arr sizeof_T) holds holds_weaken holds_create holds_delete.
End instance.

(** * The server over the pool *)

(** The state of the server when it starts. *)
Definition server0 {S} (s : S) : server S := mkServer s ∅ ∅ false ∅ [].

Section server.
Context `{Malloc}.

(** The static pool is built, events arrive, and at the end the pool is
    destroyed if no handler is left in it. *)
Definition serve (sizeof_T : Z) (es : list event) : PM (server unit) :=
  do* pool := new_MemoryPool in
  do* s := sget in
  do* v := slift (@run_events pmem (memory_pool (pChunkList pool) sizeof_T) es (server0 s)) in
  do* _ := sput (v_pool v.2) in
  do* _ := (if bool_decide (m_ReqHandlerMap v.2 = ∅) then delete_MemoryPool pool else sret tt) in
  sret (mkServer tt (v_objs v.2) (m_ReqHandlerMap v.2) (m_LockerReqMap v.2) (v_ctxs v.2) (v_closed v.2)).
End server.

Section accounted.
Context `{MallocLaws} (sizeof_T : Z) (Hsz : sizeof_T + HEAP_HEADER <= SIZE_MAX).

(** A pool without live objects can be destroyed. *)
Lemma destroy_empty B0 arr n s : holds B0 arr sizeof_T n s ∅ ->
  exists s', delete_MemoryPool (mkPool arr 8) s = Ok (tt, s') /\ m_blocks s' = B0.
Proof.
  clear Hsz. intros (ca & fl & ps & k & Hi & _ & Hps & Hk & Hn). apply (delete_MemoryPool_ok B0 arr ca fl k s); [|lia].
  destruct ps as [|x ps]; [done|]. cbn in Hps. set_solver.
Qed.

Lemma server0_inv B0 arr ca fl s n : pool_inv B0 arr ca fl [] 1000 s -> 1000 + Z.of_nat n <= INT_MAX ->
  @req_inv pmem _ (memory_pool_laws B0 arr sizeof_T Hsz) n 0 (server0 s).
Proof.
  intros Hi Hn. split; cbn; [|intros *; rewrite ?lookup_empty, ?dom_empty_L; set_solver..].
  exists ca, fl, [], 1000. rewrite dom_empty_L. split_and!; [done|by apply Forall_nil_2|done|done|lia].
Qed.
End accounted.

(** The events up to one at which the server stops; then the pool is destroyed if
    it can be. *)
Lemma serve_prefix `{MallocLaws} sizeof_T es s arr ca fl s1 :
  mem_wf s -> sizeof_T + HEAP_HEADER <= SIZE_MAX -> total_bytes es <= INT_MAX -> 1000 + zlen es <= INT_MAX ->
  new_MemoryPool s = Ok (mkPool arr 8, s1) -> pool_inv (m_blocks s) arr ca fl [] 1000 s1 ->
  exists es1 es2 v s', es = es1 ++ es2 /\ serve sizeof_T es1 s = Ok (v, s') /\ m_LockerReqMap v = false /\
    (forall sock a, m_ReqHandlerMap v !! sock = Some a -> entry_ok (total_bytes es1) v sock a) /\
    (forall a, is_Some (v_objs v !! a) <-> exists sock, m_ReqHandlerMap v !! sock = Some a) /\
    (m_ReqHandlerMap v = ∅ -> m_blocks s' = m_blocks s) /\
    (es2 = [] \/
     (exists c es3, es2 = EClose c :: es3 /\ waiting v c) \/
     (exists c now request es3, es2 = ERequest c now request :: es3 /\ cut (pending v c ++ request) /\
        serve sizeof_T (es1 ++ [ERequest c now request]) s = Fault Thrown)).
Proof.
  intros Hwf Hsz Hby Hlen E Hi. unfold serve.
  destruct (@run_events_inv pmem _ (memory_pool_laws (m_blocks s) arr sizeof_T Hsz) es 0 (server0 s1)) as (es1 & es2 & [sp ob mp lk cx cl] & -> & Ev & Hv & Hlk & Hstop);
    [by eapply server0_inv|done|done|lia|].
  rewrite Z.add_0_l in Hv. cbn in Hlk. subst lk. set (v := mkServer tt ob mp false cx cl).
  assert (forall a, is_Some (ob !! a) <-> exists sock, mp !! sock = Some a) as Hob.
  { intros a. split; [intros Ha; apply (ri_owned _ _ _ Hv); by apply elem_of_dom|].
    intros (sock & Hs). destruct (ri_entry _ _ _ Hv _ _ Hs) as (_ & o & _ & Ho & _). by exists o. }
  assert (exists s', (if bool_decide (mp = ∅) then delete_MemoryPool (mkPool arr 8) else sret tt) sp = Ok (tt, s') /\ (mp = ∅ -> m_blocks s' = m_blocks s)) as (s' & Ed & Hb).
  { case_bool_decide as Hmp; [|by exists sp]. assert (dom ob = ∅) as Hd.
    { apply set_eq. intros a. rewrite elem_of_dom, Hob, Hmp. split; [|set_solver]. intros (sock & Hs). by rewrite lookup_empty in Hs. }
    pose proof (ri_pool _ _ _ Hv) as Hp. cbn in Hp. rewrite Hd in Hp. destruct (destroy_empty sizeof_T _ _ _ _ Hp) as (s' & Es & Hb). by exists s'. }
  exists es1, es2, v, s'. split; [done|]. split.
  { run E. rewrite (sbind_ok sget) with (1 := eq_refl). cbn [pChunkList].
    match type of Ev with ?m = _ => rewrite (sbind_ok (slift m) _ s1 _ s1) by (unfold slift; rewrite Ev; reflexivity) end.
    rewrite (sbind_ok (sput _)) with (1 := eq_refl). cbn. by run Ed. }
  split_and!; [done|intros sock a Hs; exact (ri_entry _ _ _ Hv _ _ Hs)|done|done|].
  destruct Hstop as [?|[?|(c & now & request & es3 & He & Hc & Et)]]; [by left|by right; left|right; right].
  exists c, now, request, es3. split_and!; [done|done|]. run E. rewrite (sbind_ok sget) with (1 := eq_refl). cbn [pChunkList].
  apply sbind_fault. unfold slift. rewrite run_events_app. run Ev. cbn [run_events]. by rewrite (sbind_fault _ _ _ Thrown Et).
Qed.


(** A connection that sends half of a body and is dropped by the timer, and one
    that sends a whole request and goes. *)
Definition demo_events : list event :=
  [EOpen 64 5; ERequest 64 100 (lit "POST / HTTP/1.1" ++ CRLF ++ lit "Content_Lenght: 4" ++ CRLF ++ CRLF ++ lit "ab"); ETimer 110; ETimer 116;
   EOpen 65 6; ERequest 65 117 (lit "GET / HTTP/1.1" ++ CRLF ++ CRLF); EClose 65].

