(* ===== verification/RequestProps.v ===== *)
(** What the server answers to whole requests, what becomes of requests in
    parts and of idle connections. *)

From stdpp Require Import base tactics sets list numbers strings gmap.
From Stdlib Require Import ZArith Lia.
From S2P Require Import Prelude StateMonad Text Http HttpSpec Request RequestSpec.

Local Open Scope Z_scope.

(** A pool that never reuses an address, as an instance of the interface. *)
#[export] Instance counter_pool : ObjectPool Z :=
  {| pool_create := fun s => Ok (s + 1, s + 1); pool_delete := fun _ => sret tt |}.

Definition counter_ok (_ : nat) (s : Z) (live : gset Z) : Prop := 0 <= s /\ forall a, a ∈ live -> a <= s.

#[export] Instance counter_pool_laws : ObjectPoolLaws Z.
Proof.
  refine {| pool_ok := counter_ok |}.
  - done.
  - intros n s live [Hs Hl]. exists (s + 1), (s + 1). split; [done|right]. split_and!; [lia| |split; [lia|]].
    + intros Hin. specialize (Hl _ Hin). lia.
    + intros a [->%elem_of_singleton|Ha]%elem_of_union; [lia|]. specialize (Hl _ Ha). lia.
  - intros n s live p [Hs Hl] _. exists s. split; [done|]. split; [done|]. intros a Ha. apply Hl. set_solver.
Defined.

(** * A whole request in one piece *)

(** The verdict on a body, given the value of the header the server reads its
    length from. *)
Definition verdict (body : list char) (len : Z) : Z :=
  if zlen body =? size_t len then DATA_OK else if zlen body <? size_t len then DATA_DEF else DATA_ERROR.

Lemma CheckData_print now rq pev : request_ok rq ->
  CheckData now (print rq) (new_CReqHandlerObj pev) =
  Ok (verdict (rq_body rq) (header_length 0 (rq_headers rq)), mkObj [] (Some now) (Some (parsed None rq)) pev).
Proof.
  intros Hok. unfold CheckData. rewrite (sbind_ok sget) with (1 := eq_refl). cbn [m_requestStr new_CReqHandlerObj app m_pHttpParse m_pArg].
  unfold slift, sbind. unfold new_CHttpParse, sbind, sget, sput. cbv beta iota. rewrite (parse_print None rq Hok : parse_request0 (fresh_parse, print rq) = _). done.
Qed.

Section whole.
Context {S : Type} `{ObjectPoolLaws S}.

(** The handlers are as before, or there is one more, which waits for data. *)
Definition unchanged (v v' : server S) : Prop := v_objs v' = v_objs v /\ m_ReqHandlerMap v' = m_ReqHandlerMap v.
Definition waits (v v' : server S) (sock : Z) (o : CReqHandlerObj) : Prop :=
  exists a, v_objs v' = <[a := o]> (v_objs v) /\ m_ReqHandlerMap v' = <[sock := a]> (m_ReqHandlerMap v).

(** The pool will give memory for a handler. *)
Definition has_memory (v : server S) : bool := match pool_create (v_pool v) with Ok (p, _) => negb (p =? 0) | Fault _ => false end.

(** Data on a connection without a handler, by the verdict of [CheckData]. *)
Lemma HandleRequest_new n b v pev now request reply x ver o' :
  req_inv (Datatypes.S n) b v -> m_LockerReqMap v = false -> v_ctxs v !! pev = Some x -> m_ReqHandlerMap v !! ctx_sock x = None ->
  CheckData now request (new_CReqHandlerObj pev) = Ok (ver, o') -> is_Some (m_pHttpParse o') -> ver = DATA_DEF \/ ver = DATA_OK \/ ver = DATA_ERROR ->
  exists r v', HandleRequest pev now request reply v = Ok (r, v') /\
    (has_memory v = false /\ r = (UNKNOW, reply) /\ unchanged v v' \/
     has_memory v = true /\ ver = DATA_OK /\ r = (SUCCESS, REPLY_HEADER ++ REPLY_BODY) /\ unchanged v v' \/
     has_memory v = true /\ ver = DATA_ERROR /\ r = (DATA_ERROR, reply) /\ unchanged v v' \/
     has_memory v = true /\ ver = DATA_DEF /\ r = (DATA_DEF, reply) /\ waits v v' (ctx_sock x) o').
Proof.
  intros Hi Hl Hx Hm Hcd [hp Hhp] Hver.
  unfold HandleRequest, get_ctx. rewrite (sbind_ok (fun _ => _) _ v x v) by (by rewrite Hx).
  unfold collect_request. rewrite sbind_assoc. run (lock_ok v Hl). rewrite sbind_assoc, (sbind_ok sget) with (1 := eq_refl).
  cbn [m_ReqHandlerMap set_lock]. rewrite Hm. rewrite sbind_assoc, (sbind_ok unlock) with (1 := eq_refl). rewrite set_lock_twice.
  destruct (create_obj_ok n b v pev Hi) as (a & s & Hmem & Hp & Ha & Hf & Ec). rewrite sbind_assoc. run Ec.
  assert (has_memory v = negb (a =? 0)) as -> by (unfold has_memory; by rewrite Hmem).
  destruct (Z.eqb_spec a 0) as [->|Hne]; [eexists _, _; split; [done|by left]|]. cbn [negb].
  specialize (Hf Hne). rewrite sbind_assoc.
  assert (v_objs (with_new v s a (new_CReqHandlerObj pev)) !! a = Some (new_CReqHandlerObj pev)) as Hnew by (unfold with_new; cbn; by rewrite lookup_insert_eq).
  run (on_obj_ok a _ _ _ _ _ Hnew Hcd). unfold with_new. cbn [v_objs set_objs]. rewrite insert_insert_eq.
  destruct Hver as [E|Hrr].
  - rewrite E. change (DATA_DEF =? DATA_DEF) with true. cbn [negb]. eexists _, _. split.
    { exact (finish_pending a reply (set_lock false (set_map (match m_ReqHandlerMap v !! ctx_sock x with Some _ => m_ReqHandlerMap v
        | None => <[ctx_sock x := a]> (m_ReqHandlerMap v) end) (set_lock true (set_objs (<[a := o']> (v_objs v)) (set_pool s (set_lock false v))))))). }
    do 3 right. split_and!; [done..|]. exists a. cbn. by rewrite Hm.
  - assert ((ver =? DATA_DEF) = false) as -> by (by destruct Hrr as [->| ->]). cbn [negb].
    destruct (finish_done n (set_objs (<[a := o']> (v_objs v)) (set_pool s (set_lock false v))) a o' ver reply ltac:(lia) Hrr) as (s' & Es & Hps).
    { cbn. by rewrite dom_insert_L. } { cbn. by rewrite lookup_insert_eq. } { by rewrite Hhp. }
    eexists _, _. split; [exact Es|]. right. cbn. rewrite delete_insert_id by (by apply not_elem_of_dom).
    destruct Hrr as [->| ->]; [left|right; left]; done.
Qed.

Lemma HandleRequest_whole n b v pev now rq reply x :
  req_inv (Datatypes.S n) b v -> m_LockerReqMap v = false -> v_ctxs v !! pev = Some x -> m_ReqHandlerMap v !! ctx_sock x = None ->
  request_ok rq ->
  exists r v', HandleRequest pev now (print rq) reply v = Ok (r, v') /\
    let ver := verdict (rq_body rq) (header_length 0 (rq_headers rq)) in
    (has_memory v = false /\ r = (UNKNOW, reply) /\ unchanged v v' \/
     has_memory v = true /\ ver = DATA_OK /\ r = (SUCCESS, REPLY_HEADER ++ REPLY_BODY) /\ unchanged v v' \/
     has_memory v = true /\ ver = DATA_ERROR /\ r = (DATA_ERROR, reply) /\ unchanged v v' \/
     has_memory v = true /\ ver = DATA_DEF /\ r = (DATA_DEF, reply) /\ waits v v' (ctx_sock x) (mkObj [] (Some now) (Some (parsed None rq)) pev)).
Proof.
  intros Hi Hl Hx Hm Hok. cbv zeta. apply (HandleRequest_new n b); [done..|by apply CheckData_print|by eexists|].
  unfold verdict. destruct (_ =? _); [tauto|]. destruct (_ <? _); tauto.
Qed.


Lemma header_length_none d hs : Forall (fun h => ToUpper h.1 <> lit "CONTENT_LENGHT") hs -> header_length d hs = d.
Proof.
  unfold header_length, same. revert d. induction hs as [|h hs IH]; intros d Hh; [done|]. apply Forall_cons_1 in Hh as [Hh Hhs]. cbn [foldl].
  rewrite bool_decide_false by done. by apply IH.
Qed.

(** No request with a body is ever answered: the header the server takes
    the length from is spelt [Content_Lenght], so a request with the standard
    [Content-Length] header counts as one with too much data. *)
Theorem body_refused n b v pev now rq reply x :
  req_inv (Datatypes.S n) b v -> m_LockerReqMap v = false -> v_ctxs v !! pev = Some x -> m_ReqHandlerMap v !! ctx_sock x = None ->
  request_ok rq -> Forall (fun h => ToUpper h.1 <> lit "CONTENT_LENGHT") (rq_headers rq) -> rq_body rq <> [] ->
  exists r v', HandleRequest pev now (print rq) reply v = Ok (r, v') /\ r <> (SUCCESS, REPLY_HEADER ++ REPLY_BODY) /\ r.2 = reply /\ unchanged v v'.
Proof.
  intros Hi Hl Hx Hm Hok Hh Hbody. destruct (HandleRequest_whole n b v pev now rq reply x Hi Hl Hx Hm Hok) as (r & v' & E & Hc).
  rewrite header_length_none in Hc by done.
  assert (verdict (rq_body rq) 0 = DATA_ERROR) as Hv by (unfold verdict; by destruct (rq_body rq)).
  rewrite Hv in Hc. exists r, v'. split; [done|].
  destruct Hc as [(_ & -> & Hu)|[(_ & ? & _)|[(_ & _ & -> & Hu)|(_ & ? & _)]]]; done.
Qed.
End whole.

(** A server with one connection. *)
Definition demo_server : server Z := mkServer 0 ∅ ∅ false {[64 := mkCtx 5 false]} [].

Lemma demo_server_inv : req_inv 1 0 demo_server.
Proof.
  split; cbn.
  - split; [done|]. intros a. by rewrite dom_empty_L, elem_of_empty.
  - intros *. by rewrite lookup_empty.
  - intros a. by rewrite dom_empty_L, elem_of_empty.
  - intros c1 c2 x1 x2 [<- _]%lookup_singleton_Some [<- _]%lookup_singleton_Some. done.
  - done.
Qed.

Definition demo_get : request := mkRequest false (lit "/") (lit "HTTP/1.1") [(lit "Host", lit "h")] [].

Lemma demo_get_ok : request_ok demo_get.
Proof.
  split; try (split; [not_elem|done]); [not_elem|by vm_compute|done| |by vm_compute].
  apply Forall_cons_2; [|by apply Forall_nil_2]. (split; [|split]); not_elem.
Qed.


Lemma body_refused_witness :
  exists r v', HandleRequest 64 100 (print demo_request) (lit "ERROR") demo_server = Ok (r, v') /\
    r <> (SUCCESS, REPLY_HEADER ++ REPLY_BODY) /\ r.2 = lit "ERROR" /\ unchanged demo_server v'.
Proof.
  refine (body_refused 0 0 demo_server 64 100 demo_request (lit "ERROR") (mkCtx 5 false) demo_server_inv eq_refl eq_refl eq_refl demo_request_ok _ _).
  - repeat apply Forall_cons_2; [discriminate..|apply Forall_nil_2].
  - discriminate.
Defined.

(** * A request in two pieces *)

(** A body that arrives in two pieces is lost: the parser has consumed
    the header together with the first piece, so the second is parsed as a
    request of its own and refused (here: any second piece of two or more
    bytes without a carriage return). *)
Theorem split_body_lost now1 now2 rq part2 pev :
  request_ok rq -> verdict (rq_body rq) (header_length 0 (rq_headers rq)) = DATA_DEF ->
  CR ∉ part2 -> 2 <= zlen part2 <= INT_MAX ->
  exists o o', CheckData now1 (print rq) (new_CReqHandlerObj pev) = Ok (DATA_DEF, o) /\ CheckData now2 part2 o = Ok (DATA_ERROR, o').
Proof.
  intros Hok Hv Hcr Hlen. rewrite (CheckData_print now1 rq pev Hok), Hv. destruct part2 as [|c part2]; [cbn in Hlen; lia|].
  set (p1 := mkParse METHOD_UNKNOW (Some CON_UNKNOW) [] [] [] [] [] [] [] 0 [] false).
  eexists _, (mkObj [] (Some now2) (Some (set_content part2 p1)) pev). split; [done|].
  unfold CheckData. rewrite (sbind_ok sget) with (1 := eq_refl). cbn [m_requestStr app m_pHttpParse m_pArg].
  assert (parse_request (c :: part2) (parsed None rq, c :: part2) = Ok ([request_error], (set_content part2 p1, []))) as E.
  { change (parse_request0 (p1, c :: part2) = Ok ([request_error], (set_content part2 p1, []))). apply (parse_request0_ok p1 _ (-1) []). cbn [lines_loop].
    rewrite (sbind_ok sget) with (1 := eq_refl). change (m_bHeaderDown p1) with false. cbv iota.
    by run (get_line_unended p1 (c :: part2) Hcr (proj2 Hlen)). }
  unfold slift, sbind. rewrite E. unfold sput, sret. cbn [m_content m_content_lenght set_content p1]. do 2 f_equal.
  cbn [length] in Hlen. change (size_t 0) with 0. rewrite (proj2 (Z.eqb_neq _ 0)), (proj2 (Z.ltb_ge _ 0)) by lia. done.
Qed.

Lemma split_body_lost_witness : exists o o',
  CheckData 1 (print (mkRequest true (lit "/") (lit "HTTP/1.1") [(lit "Content_Lenght", lit "4")] (lit "ab"))) (new_CReqHandlerObj 64) = Ok (DATA_DEF, o) /\
  CheckData 2 (lit "cd") o = Ok (DATA_ERROR, o').
Proof.
  refine (split_body_lost 1 2 (mkRequest true (lit "/") (lit "HTTP/1.1") [(lit "Content_Lenght", lit "4")] (lit "ab")) (lit "cd") 64 _ eq_refl _ _).
  - split; try (split; [not_elem|done]); [not_elem|by vm_compute|by vm_compute| |by vm_compute].
    apply Forall_cons_2; [|by apply Forall_nil_2]. (split; [|split]); not_elem.
  - not_elem.
  - vm_compute. split; discriminate.
Defined.

(** * Idle connections *)

(** The timer drops exactly the handlers that have been idle for 15
    seconds or more: their connections are closed, each once, and the other
    handlers stay. *)
Theorem idle_dropped {S} `{ObjectPoolLaws S} n b (v : server S) curTime : req_inv n b v -> m_LockerReqMap v = false ->
  exists v' gone, OnCheckActiveTime curTime v = Ok (tt, v') /\ req_inv n b v' /\ m_LockerReqMap v' = false /\
    v_closed v' = v_closed v ++ gone /\
    (forall sock, sock ∈ gone <-> exists a o, m_ReqHandlerMap v !! sock = Some a /\ v_objs v !! a = Some o /\ expired curTime o = true) /\
    (forall sock, m_ReqHandlerMap v' !! sock = if bool_decide (sock ∈ gone) then None else m_ReqHandlerMap v !! sock).
Proof. apply OnCheckActiveTime_ok. Qed.

Lemma idle_dropped_witness :
  exists v' gone, OnCheckActiveTime 7 demo_server = Ok (tt, v') /\ req_inv 1 0 v' /\ m_LockerReqMap v' = false /\
    v_closed v' = gone /\
    (forall sock, sock ∈ gone <-> exists a o, m_ReqHandlerMap demo_server !! sock = Some a /\ v_objs demo_server !! a = Some o /\ expired 7 o = true) /\
    (forall sock, m_ReqHandlerMap v' !! sock = if bool_decide (sock ∈ gone) then None else m_ReqHandlerMap demo_server !! sock).
Proof. exact (idle_dropped 1 0 demo_server 7 demo_server_inv eq_refl). Defined.
