(* ===== verification/Connection.v ===== *)
(** The event loops of the server on Linux (CEventBaseMgr.h, CEventBaseMgr.cpp,
    CMainEventBase.cpp): new descriptors go through a pipe to the thread that
    serves them; the callback of a descriptor receives a request, has it handled
    and sends the reply.

    The kernel and OpenSSL answer each call as they like: a run consumes a list
    of answers, and a call that finds none never returns.  libevent calls the
    callbacks; the events it has been given are in [Server]. *)

From stdpp Require Import base tactics list numbers strings gmap.
From Stdlib Require Import ZArith Lia.
From S2P Require Import Prelude StateMonad Text Http Request.

Local Open Scope Z_scope.

(** * Receiving and sending *)

(** The answer to a call: its value, the error ([errno], or what
    [SSL_get_error] says) and the data received. *)
Record netret := mkNet { nr_val : Z; nr_err : Z; nr_data : list char }.

Definition EAGAIN : Z := 11. (* EWOULDBLOCK has the same value *)
Definition SSL_ERROR_NONE : Z := 0.
Definition SSL_ERROR_WANT_READ : Z := 2.
Definition SSL_ERROR_WANT_WRITE : Z := 3.

(** The data an answer gives to a call that asks for [want] bytes. *)
Definition received (a : netret) (want : Z) : list char := take (Z.to_nat (Z.min (nr_val a) want)) (nr_data a).

Fixpoint recv_loop (net : list netret) (ilen count : Z) (buffer : list char) : outcome (Z * list char * list netret) :=
  match net with
  | [] => Fault Blocks
  | a :: net' =>
      if nr_val a <? 0 then
        if nr_err a =? EAGAIN then recv_loop net' ilen count buffer
        else Ok (count, buffer, net')
      else
        let d := received a (ilen - count) in
        if zlen d =? 0 then Ok (count, buffer, net')
        else
          let! buffer := mem_write buffer count d in
          let count := count + zlen d in
          if ilen <=? count then Ok (count, buffer, net') else recv_loop net' ilen count buffer
  end.
Definition NormalRecv (net : list netret) (buffer : list char) (ilen : Z) : outcome (Z * list char * list netret) :=
  recv_loop net ilen 0 buffer.

Fixpoint ssl_recv_loop (net : list netret) (ilen count : Z) (buffer : list char) : outcome (Z * list char * list netret) :=
  match net with
  | [] => Fault Blocks
  | a :: net' =>
      if nr_err a =? SSL_ERROR_NONE then
        let d := received a (ilen - count) in
        if 0 <? zlen d then
          let! buffer := mem_write buffer count d in
          let count := count + zlen d in
          if ilen <=? count then Ok (count, buffer, net') else ssl_recv_loop net' ilen count buffer
        else ssl_recv_loop net' ilen count buffer
      else Ok (count, buffer, net')
  end.
Definition SslRecv (net : list netret) (buffer : list char) (ilen : Z) : outcome (Z * list char * list netret) :=
  ssl_recv_loop net ilen 0 buffer.

(** The result of sending: the count, the bytes that left, and the length of
    each call. *)
Record sending := mkSending { sn_count : Z; sn_bytes : list char; sn_calls : list Z }.

Fixpoint send_loop (net : list netret) (buffer : list char) (ilen : Z) (s : sending) : outcome (sending * list netret) :=
  match net with
  | [] => Fault Blocks
  | a :: net' =>
      let want := ilen - sn_count s in
      let calls := sn_calls s ++ [want] in
      if nr_val a <? 0 then
        if nr_err a =? EAGAIN then send_loop net' buffer ilen (mkSending (sn_count s) (sn_bytes s) calls)
        else Ok (mkSending (sn_count s) (sn_bytes s) calls, net')
      else
        let ires := Z.min (nr_val a) want in
        let! d := mem_read buffer (sn_count s) ires in
        let s := mkSending (sn_count s + ires) (sn_bytes s ++ d) calls in
        if ilen <=? sn_count s then Ok (s, net') else send_loop net' buffer ilen s
  end.
Definition NormalSend (net : list netret) (buffer : list char) (ilen : Z) : outcome (sending * list netret) :=
  send_loop net buffer ilen (mkSending 0 [] []).

(** The count is compared before the bytes just written are added to it. *)
Fixpoint ssl_send_loop (net : list netret) (buffer : list char) (ilen : Z) (s : sending) : outcome (sending * list netret) :=
  match net with
  | [] => Fault Blocks
  | a :: net' =>
      let want := ilen - sn_count s in
      let calls := sn_calls s ++ [want] in
      if nr_err a =? SSL_ERROR_NONE then
        let ires := Z.min (nr_val a) want in
        if 0 <? ires then
          let! d := mem_read buffer (sn_count s) ires in
          if ilen <=? sn_count s then Ok (mkSending (sn_count s) (sn_bytes s ++ d) calls, net')
          else ssl_send_loop net' buffer ilen (mkSending (sn_count s + ires) (sn_bytes s ++ d) calls)
        else ssl_send_loop net' buffer ilen (mkSending (sn_count s) (sn_bytes s) calls)
      else if nr_err a =? SSL_ERROR_WANT_READ then ssl_send_loop net' buffer ilen (mkSending (sn_count s) (sn_bytes s) calls)
      else Ok (mkSending (sn_count s) (sn_bytes s) calls, net')
  end.
Definition SslSend (net : list netret) (buffer : list char) (ilen : Z) : outcome (sending * list netret) :=
  ssl_send_loop net buffer ilen (mkSending 0 [] []).

(** * The callback of a connection *)

Section callback.
Context {S : Type} `{ObjectPool S}.

(** The server, the answers to come, what has been sent, and the SSL objects:
    the references to contexts that the program holds, and the live sessions. *)
Record loop := mkLoop {
  l_server : server S;
  l_net : list netret;
  l_sent : list (Z * list char);
  l_ctxrefs : Z;
  l_ssls : Z
}.

Abbreviation LM := (SM loop).

Definition on_server {A} (m : SM (server S) A) : LM A := fun l =>
  match m (l_server l) with
  | Ok (a, v) => Ok (a, mkLoop v (l_net l) (l_sent l) (l_ctxrefs l) (l_ssls l))
  | Fault f => Fault f
  end.
Definition on_net {A} (f : list netret -> outcome (A * list netret)) : LM A := fun l =>
  match f (l_net l) with
  | Ok (a, net) => Ok (a, mkLoop (l_server l) net (l_sent l) (l_ctxrefs l) (l_ssls l))
  | Fault f => Fault f
  end.
Definition add_sent (fd : Z) (d : list char) : LM unit :=
  smodify (fun l => mkLoop (l_server l) (l_net l) (l_sent l ++ [(fd, d)]) (l_ctxrefs l) (l_ssls l)).
Definition add_ssl (refs ssls : Z) : LM unit :=
  smodify (fun l => mkLoop (l_server l) (l_net l) (l_sent l) (l_ctxrefs l + refs) (l_ssls l + ssls)).

Definition BUFFER_SIZE : Z := 4096.

Definition EventCallBack (enablessl : bool) (fd pCtx now : Z) : LM unit :=
  if pCtx =? 0 then sret tt
  else
    do* _ := on_server (get_ctx pCtx) in
    let buffer := repeat 0 (Z.to_nat BUFFER_SIZE) in
    do* (len, buffer) := on_net (fun net => if enablessl then SslRecv net buffer BUFFER_SIZE else NormalRecv net buffer BUFFER_SIZE) in
    if len <=? 0 then on_server (EventCtx_free pCtx)
    else
      do* request := slift (to_string buffer) in
      do* (iret, reply) := on_server (HandleRequest pCtx now request (lit "ERROR")) in
      if negb (iret =? DATA_DEF) then
        do* s := on_net (fun net => if enablessl then SslSend net reply (zlen reply) else NormalSend net reply (zlen reply)) in
        add_sent fd (sn_bytes s)
      else sret tt.

Definition TimeoutCallBack (now : Z) : LM unit := on_server (OnCheckActiveTime now).

(** * New connections *)

(** A call of OpenSSL that returns a number or a pointer. *)
Definition ssl_call : LM netret := fun l =>
  match l_net l with
  | a :: net => Ok (a, mkLoop (l_server l) net (l_sent l) (l_ctxrefs l) (l_ssls l))
  | [] => Fault Blocks
  end.

(** The loop around [SSL_accept], by the answers to come. *)
Fixpoint accept_loop (net : list netret) : outcome (bool * list netret) :=
  match net with
  | [] => Fault Blocks
  | a :: net' =>
      if nr_val a =? 1 then Ok (true, net')
      else if (nr_err a =? SSL_ERROR_WANT_READ) || (nr_err a =? SSL_ERROR_WANT_WRITE) then accept_loop net'
      else Ok (false, net')
  end.

(** Drops the reference to the context and returns NULL. *)
Definition ssl_fail : LM bool :=
  do* _ := add_ssl (-1) 0 in
  sret false.

(** The result says whether the session is there. *)
Definition CreateSSL (enablessl : bool) : LM bool :=
  if negb enablessl then sret false
  else
    do* ctx := ssl_call in
    if nr_val ctx =? 0 then sret false
    else
      do* _ := add_ssl 1 0 in
      do* r := ssl_call in
      if nr_val r =? 0 then ssl_fail
      else
        do* r := ssl_call in
        if nr_val r <=? 0 then ssl_fail
        else
          do* r := ssl_call in
          if nr_val r <=? 0 then ssl_fail
          else
            do* r := ssl_call in
            if nr_val r =? 0 then ssl_fail
            else
              do* ssl := ssl_call in
              if nr_val ssl =? 0 then ssl_fail
              else
                do* _ := add_ssl 0 1 in
                do* ok := on_net accept_loop in
                if ok then sret true
                else
                  do* _ := add_ssl (-1) (-1) in
                  sret false.

(** [pCtx] is the address of the new context. *)
Definition OnPipeReadCallback (enablessl : bool) (sockfd pCtx : Z) : LM unit :=
  if sockfd <? 0 then sret tt
  else
    do* ssl := CreateSSL enablessl in
    if enablessl && negb ssl then sret tt
    else on_server (smodify (fun v => set_ctxs (<[pCtx := mkCtx sockfd ssl]> (v_ctxs v)) (v_closed v) v)).
End callback.
Arguments loop : clear implicits.

(** * The threads and their pipes *)

(** [pNotifyEvt] and [pid] are [None] while they have not been assigned. *)
Record LibEvThread := mkThread {
  th_pBase : Z;
  th_pNotifyEvt : option Z;
  th_pid : option Z;
  th_recvfd : Z;
  th_sendfd : Z;
  th_pipe : list char
}.

(** What the kernel and libevent answer for a thread: the result of [pipe] and
    its descriptors, and the new event base. *)
Record newthread := mkNew { nt_pipe : Z; nt_recvfd : Z; nt_sendfd : Z; nt_base : Z }.

Fixpoint threads_loop (answers : list newthread) (n : nat) : outcome (list LibEvThread) :=
  match n with
  | O => Ok []
  | S n' =>
      match answers with
      | [] => Fault Blocks
      | a :: answers' =>
          if negb (nt_pipe a =? 0) then Fault Exited
          else if nt_base a =? 0 then Fault Exited
          else
            let! ts := threads_loop answers' n' in
            Ok (mkThread (nt_base a) None None (nt_recvfd a) (nt_sendfd a) [] :: ts)
      end
  end.

(** [new LibEvThread[m_iThreadnum]] throws for a negative number. *)
Definition LibEvInit (m_iThreadnum : Z) (answers : list newthread) : outcome (list LibEvThread) :=
  if m_iThreadnum <? 0 then Fault Thrown else threads_loop answers (Z.to_nat m_iThreadnum).

(** [OnStart] creates the threads; [OnStop] waits for each and frees its event. *)
Fixpoint OnStart (pids : list Z) (ts : list LibEvThread) : list LibEvThread :=
  match pids, ts with
  | pid :: pids', t :: ts' =>
      mkThread (th_pBase t) (th_pNotifyEvt t) (Some pid) (th_recvfd t) (th_sendfd t) (th_pipe t) :: OnStart pids' ts'
  | _, _ => ts
  end.

Fixpoint OnStop (ts : list LibEvThread) (closed : list Z) : outcome (list Z) :=
  match ts with
  | [] => Ok closed
  | t :: ts' =>
      match th_pid t, th_pNotifyEvt t with
      | Some _, Some _ => OnStop ts' (closed ++ [th_recvfd t; th_sendfd t])
      | _, _ => Fault Uninitialised
      end
  end.

(** The four bytes of an [int], and back. *)
Definition int_bytes (z : Z) : list char := (fun i => Z.shiftr (uint z) (8 * i) mod 256) <$> [0; 1; 2; 3].
Definition bytes_int (d : list char) : Z := int (foldr (fun c v => c + 256 * v) 0 d).

(** [write] to a pipe in non-blocking mode takes the four bytes or none. *)
Definition PushTask (m_iThreadnum : Z) (ts : list LibEvThread) (room : bool) (sockfd : Z) : outcome (bool * list LibEvThread) :=
  if sockfd <? 0 then Ok (false, ts)
  else if m_iThreadnum =? 0 then Fault DivisionByZero
  else
    let index := Z.rem sockfd m_iThreadnum in
    match ts !! Z.to_nat index with
    | None => Fault OutOfBounds
    | Some t =>
        if room then
          Ok (true, <[Z.to_nat index := mkThread (th_pBase t) (th_pNotifyEvt t) (th_pid t) (th_recvfd t) (th_sendfd t)
                                          (th_pipe t ++ int_bytes sockfd)]> ts)
        else Ok (false, ts)
    end.

(** [PipeReadCallBack] on a thread: the descriptor it reads, and the thread
    afterwards.  A short read ends the process. *)
Definition PipeReadCallBack (t : LibEvThread) : outcome (Z * LibEvThread) :=
  match th_pipe t with
  | [] => Fault Blocks
  | _ =>
      if zlen (th_pipe t) <? 4 then Fault Exited
      else Ok (bytes_int (take 4 (th_pipe t)),
               mkThread (th_pBase t) (th_pNotifyEvt t) (th_pid t) (th_recvfd t) (th_sendfd t) (drop 4 (th_pipe t)))
  end.

(** [DoAccept]: each accepted descriptor is given to a thread; the result of
    [PushTask] is not looked at.  [accepts] are the answers of [accept], each
    with whether the pipe has room. *)
Fixpoint DoAccept (m_iThreadnum : Z) (accepts : list (Z * bool)) (ts : list LibEvThread) : outcome (list LibEvThread) :=
  match accepts with
  | [] => Ok ts
  | (connfd, room) :: accepts' =>
      if connfd =? -1 then DoAccept m_iThreadnum accepts' ts
      else
        let! (_, ts) := PushTask m_iThreadnum ts room connfd in
        DoAccept m_iThreadnum accepts' ts
  end.

(** * Listening *)

(** [TcpInit]: the descriptor that listens, and those that have been closed. *)
Definition TcpInit (sock bind listen : Z) : option Z * list Z :=
  if sock =? -1 then (None, [])
  else if bind <? 0 then (None, [sock])
  else if listen <? 0 then (None, [sock])
  else (Some sock, []).
