(* ===== verification/ConnectionSpec.v ===== *)
(** The event loops: every descriptor reaches its thread, replies are sent
    whole, SSL objects are balanced; and what goes wrong when a client waits for
    its reply, fills the buffer, or closes with a request pending. *)

From stdpp Require Import base tactics sets list numbers strings gmap sorting.
From Stdlib Require Import ZArith Lia.
From S2P Require Import Prelude StateMonad Text Http HttpSpec Request RequestSpec RequestProps Connection.

Local Open Scope Z_scope.

(** * Sending *)

Definition fatal (a : netret) : Prop := nr_val a < 0 /\ nr_err a <> EAGAIN.

(** The bytes a list of answers accepts. *)
Definition capacity (net : list netret) : Z := foldr (fun a t => Z.max 0 (nr_val a) + t) 0 net.

Lemma capacity_cons a net : capacity (a :: net) = Z.max 0 (nr_val a) + capacity net.
Proof. done. Qed.

Lemma send_loop_ok buffer net : forall s, 0 <= sn_count s < zlen buffer -> sn_bytes s = take (Z.to_nat (sn_count s)) buffer ->
  (send_loop net buffer (zlen buffer) s = Fault Blocks /\ capacity net < zlen buffer - sn_count s) \/
  exists s' used rest, send_loop net buffer (zlen buffer) s = Ok (s', rest) /\ net = used ++ rest /\
    0 <= sn_count s' <= zlen buffer /\ sn_bytes s' = take (Z.to_nat (sn_count s')) buffer /\
    (sn_count s' = zlen buffer \/ exists a, last used = Some a /\ fatal a).
Proof.
  induction net as [|a net IH]; intros s Hc Hb; cbn [send_loop]; [left; cbn; split; [done|lia]|].
  destruct (Z.ltb_spec (nr_val a) 0) as [Hneg|Hpos].
  - destruct (Z.eqb_spec (nr_err a) EAGAIN) as [He|He].
    + destruct (IH (mkSending (sn_count s) (sn_bytes s) (sn_calls s ++ [zlen buffer - sn_count s])) Hc Hb) as [[E Hcap]|(s' & used & rest & E & -> & H1 & H2 & H3)].
      * left. split; [exact E|]. rewrite capacity_cons. cbn in Hcap. lia.
      * right. exists s', (a :: used), rest. split_and!; [exact E|done|lia|lia|done|]. destruct H3 as [?|(x & Hx & Hf)]; [by left|right].
        exists x. split; [|done]. rewrite last_cons, Hx. done.
    + right. eexists _, [a], net. split_and!; [done|done|cbn; lia|cbn; lia|done|]. right. exists a. done.
  - set (ires := Z.min (nr_val a) (zlen buffer - sn_count s)). rewrite mem_read_ok by lia. cbn [obind].
    set (s1 := mkSending _ _ _).
    assert (sn_bytes s1 = take (Z.to_nat (sn_count s1)) buffer) as Hb1.
    { unfold s1. cbn. rewrite Hb. rewrite Z2Nat.inj_add by lia. by rewrite take_take_drop. }
    destruct (Z.leb_spec (zlen buffer) (sn_count s1)) as [Hd|Hd].
    + right. exists s1, [a], net. assert (sn_count s1 = zlen buffer) by (unfold s1 in *; cbn in *; lia). split_and!; [done|done|lia|lia|done|by left].
    + destruct (IH s1) as [[E Hcap]|(s' & used & rest & E & -> & H1 & H2 & H3)]; [unfold s1 in *; cbn in *; lia|done| |].
      * left. split; [exact E|]. rewrite capacity_cons. unfold s1 in *. cbn in *. lia.
      * right. exists s', (a :: used), rest. split_and!; [exact E|done|lia|lia|done|]. destruct H3 as [?|(x & Hx & Hf)]; [by left|right].
        exists x. split; [|done]. rewrite last_cons, Hx. done.
Qed.

(** Sending a reply over a plain connection: whatever the kernel answers,
    the bytes that leave are the first bytes of the reply, in order; the call
    ends with all of them sent or at the first error other than a full socket
    buffer; and it does end once the kernel has accepted as many bytes. *)
Theorem send_reply net reply : reply <> [] ->
  (NormalSend net reply (zlen reply) = Fault Blocks /\ capacity net < zlen reply) \/
  exists s used rest, NormalSend net reply (zlen reply) = Ok (s, rest) /\ net = used ++ rest /\
    sn_bytes s = take (Z.to_nat (sn_count s)) reply /\
    (sn_bytes s = reply \/ exists a, last used = Some a /\ fatal a).
Proof.
  intros Hr. assert (0 < zlen reply) by (destruct reply; [done|cbn [length]; lia]).
  destruct (send_loop_ok reply net (mkSending 0 [] [])) as [[E Hc]|(s & used & rest & E & -> & Hn & Hb & H3)]; [cbn; lia|done| |].
  - left. split; [exact E|]. cbn in Hc. lia.
  - right. exists s, used, rest. split_and!; [exact E|done|done|]. destruct H3 as [Hs|?]; [left|by right].
    rewrite Hb, Hs, Nat2Z.id. by apply take_ge.
Qed.

Lemma send_reply_witness :
  (NormalSend [mkNet 2 0 []; mkNet (-1) EAGAIN []; mkNet 9 0 []] (lit "abc") 3 = Fault Blocks /\
   capacity [mkNet 2 0 []; mkNet (-1) EAGAIN []; mkNet 9 0 []] < 3) \/
  exists s used rest, NormalSend [mkNet 2 0 []; mkNet (-1) EAGAIN []; mkNet 9 0 []] (lit "abc") 3 = Ok (s, rest) /\
    [mkNet 2 0 []; mkNet (-1) EAGAIN []; mkNet 9 0 []] = used ++ rest /\
    sn_bytes s = take (Z.to_nat (sn_count s)) (lit "abc") /\
    (sn_bytes s = lit "abc" \/ exists a, last used = Some a /\ fatal a).
Proof. refine (send_reply [mkNet 2 0 []; mkNet (-1) EAGAIN []; mkNet 9 0 []] (lit "abc") _). discriminate. Defined.

(** * Receiving *)

(** A socket without data to read. *)
Definition again : netret := mkNet (-1) EAGAIN [].

Lemma recv_loop_again k ilen count buffer : recv_loop (repeat again k) ilen count buffer = Fault Blocks.
Proof. induction k as [|k IH]; [done|]. cbn. apply IH. Qed.

(** One piece of data. *)
Definition piece (d : list char) : netret := mkNet (zlen d) 0 d.

Lemma recv_loop_piece d net ilen count buffer : 0 < zlen d <= ilen - count -> 0 <= count -> ilen <= zlen buffer ->
  recv_loop (piece d :: net) ilen count buffer =
  let buffer' := take (Z.to_nat count) buffer ++ d ++ drop (Z.to_nat count + length d) buffer in
  if ilen <=? count + zlen d then Ok (count + zlen d, buffer', net) else recv_loop net ilen (count + zlen d) buffer'.
Proof.
  intros Hd Hc Hl. cbn [recv_loop]. unfold received. cbn [nr_val nr_data piece]. rewrite (proj2 (Z.ltb_ge (zlen d) 0)) by lia.
  rewrite Z.min_l, Nat2Z.id, take_ge by lia. rewrite (proj2 (Z.eqb_neq (zlen d) 0)) by lia. rewrite mem_write_ok by lia. done.
Qed.

Section callback.
Context {S : Type} `{ObjectPoolLaws S}.

Lemma on_net_fault {A} (f : list netret -> outcome (A * list netret)) (l : loop S) e : f (l_net l) = Fault e -> on_net f l = Fault e.
Proof. intros E. unfold on_net. by rewrite E. Qed.

Lemma on_server_ok {A} (m : SM (server S) A) l r v : m (l_server l) = Ok (r, v) ->
  on_server m l = Ok (r, mkLoop v (l_net l) (l_sent l) (l_ctxrefs l) (l_ssls l)).
Proof. intros E. unfold on_server. by rewrite E. Qed.

Lemma get_ctx_ok c x (l : loop S) : v_ctxs (l_server l) !! c = Some x -> on_server (get_ctx c) l = Ok (x, l).
Proof. intros E. unfold on_server, get_ctx. rewrite E. by destruct l. Qed.

(** A client that sends a request and then waits for the reply never gets
    it.  The socket is non-blocking, and after the request each call of [recv]
    says that there is nothing to read; the callback calls it again and again,
    and returns only when the client closes or has filled the buffer. *)
Theorem waiting_client_blocks l fd c x now d k :
  c <> 0 -> v_ctxs (l_server l) !! c = Some x -> 0 < zlen d < BUFFER_SIZE -> l_net l = piece d :: repeat again k ->
  EventCallBack false fd c now l = Fault Blocks.
Proof.
  intros Hc Hx Hd Hnet. unfold EventCallBack. rewrite (proj2 (Z.eqb_neq c 0)) by done. run (get_ctx_ok c x l Hx). cbv zeta.
  apply sbind_fault, on_net_fault. rewrite Hnet. unfold NormalRecv.
  rewrite recv_loop_piece; [|unfold BUFFER_SIZE in *; lia|lia|by rewrite repeat_length]. cbv zeta.
  rewrite (proj2 (Z.leb_gt BUFFER_SIZE (0 + zlen d))) by lia. apply recv_loop_again.
Qed.

(** A request of 4096 bytes or more without a NUL fills the buffer, and the
    conversion to a string reads past its end. *)
Theorem full_buffer_overread l fd c x now d net :
  c <> 0 -> v_ctxs (l_server l) !! c = Some x -> zlen d = BUFFER_SIZE -> NUL ∉ d -> l_net l = piece d :: net ->
  EventCallBack false fd c now l = Fault OutOfBounds.
Proof.
  intros Hc Hx Hd Hnul Hnet. unfold EventCallBack. rewrite (proj2 (Z.eqb_neq c 0)) by done. run (get_ctx_ok c x l Hx). cbv zeta.
  assert (NormalRecv (piece d :: net) (repeat 0 (Z.to_nat BUFFER_SIZE)) BUFFER_SIZE = Ok (BUFFER_SIZE, d, net)) as E.
  { unfold NormalRecv. rewrite recv_loop_piece; [|unfold BUFFER_SIZE in *; lia|lia|by rewrite repeat_length]. cbv zeta.
    rewrite Hd, Z.add_0_l, (proj2 (Z.leb_le BUFFER_SIZE BUFFER_SIZE)) by lia. cbn [Z.to_nat take app Nat.add].
    rewrite drop_ge by (rewrite repeat_length; lia). by rewrite app_nil_r. }
  rewrite (sbind_ok (on_net _) _ l (BUFFER_SIZE, d) (mkLoop (l_server l) net (l_sent l) (l_ctxrefs l) (l_ssls l)))
    by (unfold on_net; rewrite Hnet, E; reflexivity).
  change (BUFFER_SIZE <=? 0) with false. cbv iota. apply sbind_fault. unfold slift, to_string.
  by rewrite strlen_past by (apply Forall_forall; intros y Hy ->; done).
Qed.

(** C40: a connection that closes while its handler waits for data is freed
    twice: the callback deletes the context and leaves the handler, which
    refers to it, in the map; when the handler has been idle for 15 seconds the
    timer deletes the context again. *)
Theorem closed_pending_double_free n b l fd c x a o now now' net :
  req_inv n b (l_server l) -> m_LockerReqMap (l_server l) = false -> m_ReqHandlerMap (l_server l) = {[ctx_sock x := a]} ->
  v_objs (l_server l) !! a = Some o -> m_pArg o = c -> v_ctxs (l_server l) !! c = Some x ->
  expired now' o = true -> l_net l = piece [] :: net ->
  exists l', EventCallBack false fd c now l = Ok (tt, l') /\ TimeoutCallBack now' l' = Fault UseAfterFree.
Proof.
  intros Hi Hlk Hm Ho Ha Hx He Hnet. assert (c <> 0) as Hc by (intros E; by rewrite E, (ri_null _ _ _ Hi) in Hx).
  unfold EventCallBack. rewrite (proj2 (Z.eqb_neq c 0)) by done. run (get_ctx_ok c x l Hx). cbv zeta.
  rewrite (sbind_ok (on_net _) _ l (0, repeat 0 (Z.to_nat BUFFER_SIZE)) (mkLoop (l_server l) net (l_sent l) (l_ctxrefs l) (l_ssls l)))
    by (unfold on_net; by rewrite Hnet).
  change (0 <=? 0) with true. cbv iota. eexists. split; [apply on_server_ok, (EventCtx_free_ok c x (l_server l) Hc Hx)|].
  unfold TimeoutCallBack, on_server. cbn [l_server]. unfold OnCheckActiveTime. set (v1 := set_ctxs _ _ _).
  rewrite (sbind_ok lock _ v1 tt (set_lock true v1)) by (unfold lock, v1; cbn; by rewrite Hlk).
  rewrite (sbind_ok sget) with (1 := eq_refl). cbn [m_ReqHandlerMap set_lock v1 set_ctxs]. rewrite Hm, map_to_list_singleton. cbn [fmap list_fmap fst].
  change (merge_sort Z.le [ctx_sock x]) with [ctx_sock x].
  rewrite (sbind_fault (check_loop _ _) _ _ UseAfterFree); [done|]. cbn [check_loop]. apply sbind_fault. unfold check_active.
  rewrite (sbind_ok sget) with (1 := eq_refl). cbn [m_ReqHandlerMap set_lock v1 set_ctxs]. rewrite Hm, lookup_singleton_eq.
  destruct (ri_entry _ _ _ Hi (ctx_sock x) a) as (Ha0 & _); [by rewrite Hm, lookup_singleton_eq|]. rewrite (proj2 (Z.eqb_neq a 0)) by lia.
  rewrite (sbind_ok (get_obj a)) with (1 := get_obj_ok a o (set_lock true v1) Ho). unfold expired in He. unfold GetActiveTime.
  destruct (m_activeTime o) as [t|]; [|done]. rewrite (sbind_ok (slift (Ok t))) with (1 := eq_refl). cbv zeta. rewrite He.
  apply sbind_fault. unfold EventCtx_free. rewrite Ha, (proj2 (Z.eqb_neq c 0)) by done. apply sbind_fault. unfold get_ctx. cbn. by rewrite lookup_delete_eq.
Qed.

(** * SSL *)

(** The SSL objects after the set-up: one reference and one session more when
    it has succeeded, as before when it has failed. *)
Definition ssl_after (l l' : loop S) (ok : bool) : Prop :=
  l_server l' = l_server l /\ l_sent l' = l_sent l /\
  l_ctxrefs l' = l_ctxrefs l + (if ok then 1 else 0) /\ l_ssls l' = l_ssls l + (if ok then 1 else 0).

Lemma accept_loop_total net : accept_loop net = Fault Blocks \/ exists ok rest, accept_loop net = Ok (ok, rest).
Proof.
  induction net as [|a net IH]; cbn; [by left|]. destruct (nr_val a =? 1); [right; eauto|].
  destruct (_ || _); [done|right; eauto].
Qed.

Lemma CreateSSL_ok enablessl l : CreateSSL enablessl l = Fault Blocks \/
  exists ok l', CreateSSL enablessl l = Ok (ok, l') /\ ssl_after l l' ok /\ (ok = true -> enablessl = true).
Proof.
  unfold CreateSSL. destruct enablessl; cbn [negb]; [|right; exists false, l; unfold ssl_after; split_and!; try done; lia].
  destruct l as [v net sent refs ssls]. unfold sbind, ssl_call, ssl_fail, sbind, add_ssl, smodify, sret. cbn [l_net l_server l_sent l_ctxrefs l_ssls].
  repeat (match goal with
    | |- context [match ?n with [] => Fault Blocks | _ => _ end] => destruct n as [|? ?]; [by left|]; cbn [l_net l_server l_sent l_ctxrefs l_ssls]
    | |- context [if ?b then _ else _] =>
        destruct b; [right; eexists false, _; unfold ssl_after; split_and!; [done|done|done|cbn; lia|cbn; lia|done]|]
    end).
  unfold on_net. cbn [l_net l_server l_sent l_ctxrefs l_ssls].
  match goal with |- context [accept_loop ?n] => destruct (accept_loop_total n) as [->|([] & rest & ->)] end; [by left|right..].
  - eexists true, _. unfold ssl_after. split_and!; [done|done|done|cbn; lia|cbn; lia|done].
  - eexists false, _. unfold ssl_after. split_and!; [done|done|done|cbn; lia|cbn; lia|done].
Qed.

(** Setting up an SSL connection keeps the SSL objects balanced whatever
    OpenSSL answers: on success the context owns one session and one reference;
    on failure both have been released, and then the accepted descriptor is
    neither registered nor closed: it is lost. *)
Theorem ssl_connection (l : loop S) sockfd pCtx : 0 <= sockfd ->
  OnPipeReadCallback true sockfd pCtx l = Fault Blocks \/
  exists l', OnPipeReadCallback true sockfd pCtx l = Ok (tt, l') /\
    ((l_server l' = set_ctxs (<[pCtx := mkCtx sockfd true]> (v_ctxs (l_server l))) (v_closed (l_server l)) (l_server l) /\
      l_ctxrefs l' = l_ctxrefs l + 1 /\ l_ssls l' = l_ssls l + 1) \/
     (l_server l' = l_server l /\ l_ctxrefs l' = l_ctxrefs l /\ l_ssls l' = l_ssls l)).
Proof.
  intros Hs. unfold OnPipeReadCallback. rewrite (proj2 (Z.ltb_ge sockfd 0)) by lia.
  destruct (CreateSSL_ok true l) as [E|(ok & l1 & E & (Hv & _ & Hr & Hn) & _)]; [left; by apply sbind_fault|right]. run E.
  destruct ok; cbn [andb negb].
  - eexists. split; [apply on_server_ok; done|]. left. cbn. rewrite Hv. by split_and!.
  - exists l1. split; [done|]. right. split_and!; [done|lia|lia].
Qed.
End callback.

(** A server with a connection whose handler waits for data. *)
Definition demo_pending : loop Z :=
  mkLoop (mkServer 1 {[1 := mkObj [] (Some 100) None 64]} {[5 := 1]} false {[64 := mkCtx 5 false]} []) [piece []] [] 0 0.

Lemma demo_pending_inv : req_inv 0 0 (l_server demo_pending).
Proof.
  split; cbn.
  - split; [done|]. intros a. rewrite dom_singleton_L, elem_of_singleton. lia.
  - intros sock a [<- <-]%lookup_singleton_Some. split; [done|]. exists (mkObj [] (Some 100) None 64), (mkCtx 5 false). done.
  - intros a. rewrite dom_singleton_L, elem_of_singleton. intros ->. by exists 5.
  - intros c1 c2 x1 x2 [<- _]%lookup_singleton_Some [<- _]%lookup_singleton_Some. done.
  - done.
Qed.

Lemma closed_pending_double_free_witness :
  exists l', EventCallBack false 5 64 101 demo_pending = Ok (tt, l') /\ TimeoutCallBack 115 l' = Fault UseAfterFree.
Proof.
  exact (closed_pending_double_free 0 0 demo_pending 5 64 (mkCtx 5 false) 1 (mkObj [] (Some 100) None 64) 101 115 []
    demo_pending_inv eq_refl eq_refl eq_refl eq_refl eq_refl eq_refl eq_refl).
Defined.

Lemma waiting_client_blocks_witness :
  EventCallBack false 5 64 101 (mkLoop demo_server [piece (print demo_get); again; again] [] 0 0) = Fault Blocks.
Proof.
  refine (waiting_client_blocks (mkLoop demo_server [piece (print demo_get); again; again] [] 0 0) 5 64 (mkCtx 5 false) 101 (print demo_get) 2 _ eq_refl _ eq_refl).
  - discriminate.
  - vm_compute. split; reflexivity.
Defined.

Lemma ssl_connection_witness :
  OnPipeReadCallback true 7 128 (mkLoop demo_server [mkNet 1 0 []; mkNet 0 0 []] [] 0 0) = Fault Blocks \/
  exists l', OnPipeReadCallback true 7 128 (mkLoop demo_server [mkNet 1 0 []; mkNet 0 0 []] [] 0 0) = Ok (tt, l') /\
    ((l_server l' = set_ctxs (<[128 := mkCtx 7 true]> (v_ctxs demo_server)) (v_closed demo_server) demo_server /\ l_ctxrefs l' = 1 /\ l_ssls l' = 1) \/
     (l_server l' = demo_server /\ l_ctxrefs l' = 0 /\ l_ssls l' = 0)).
Proof. refine (ssl_connection (mkLoop demo_server [mkNet 1 0 []; mkNet 0 0 []] [] 0 0) 7 128 _). lia. Defined.

(** * The pipes *)

Lemma bytes_int_bytes z : 0 <= z <= INT_MAX -> bytes_int (int_bytes z) = z.
Proof.
  unfold INT_MAX. intros Hz. unfold bytes_int, int_bytes. cbn [fmap list_fmap foldr].
  rewrite unsigned_id by lia. rewrite !Z.shiftr_div_pow2 by lia.
  assert (z / 2 ^ (8 * 0) mod 256 + 256 * (z / 2 ^ (8 * 1) mod 256 + 256 * (z / 2 ^ (8 * 2) mod 256 + 256 * (z / 2 ^ (8 * 3) mod 256 + 256 * 0))) = z) as ->.
  { change (2 ^ (8 * 0)) with 1. change (2 ^ (8 * 1)) with 256. change (2 ^ (8 * 2)) with 65536. change (2 ^ (8 * 3)) with 16777216.
    Z.to_euclidean_division_equations. lia. }
  apply int_id. unfold INT_MIN, INT_MAX. lia.
Qed.

(** The descriptors of a list that go to the thread [i] of [n]. *)
Definition of_thread (n : Z) (i : nat) (fds : list Z) : list Z := List.filter (fun fd => Nat.eqb (Z.to_nat (Z.rem fd n)) i) fds.

Definition pipe_text (fds : list Z) : list char := concat (int_bytes <$> fds).

(** The thread reads [k] descriptors. *)
Fixpoint drain (k : nat) (t : LibEvThread) : outcome (list Z * LibEvThread) :=
  match k with
  | O => Ok ([], t)
  | S k' =>
      let! (fd, t) := PipeReadCallBack t in
      let! (fds, t) := drain k' t in
      Ok (fd :: fds, t)
  end.

(** The first descriptor of a pipe. *)
Lemma pipe_head t fd q : 0 <= fd <= INT_MAX -> th_pipe t = pipe_text (fd :: q) ->
  PipeReadCallBack t = Ok (fd, mkThread (th_pBase t) (th_pNotifyEvt t) (th_pid t) (th_recvfd t) (th_sendfd t) (pipe_text q)).
Proof.
  intros Hfd Ht. unfold PipeReadCallBack. change (pipe_text (fd :: q)) with (int_bytes fd ++ pipe_text q) in Ht.
  assert (length (int_bytes fd) = 4%nat) as H4 by done.
  destruct (th_pipe t) as [|c r] eqn:E; [apply (f_equal length) in Ht; rewrite length_app in Ht; cbn in Ht; lia|]. rewrite Ht.
  rewrite (proj2 (Z.ltb_ge _ 4)) by (rewrite length_app; lia). rewrite take_app_length', drop_app_length' by done. by rewrite bytes_int_bytes.
Qed.

Lemma drain_ok fds : Forall (fun fd => 0 <= fd <= INT_MAX) fds -> forall t, th_pipe t = pipe_text fds ->
  exists t', drain (length fds) t = Ok (fds, t') /\ th_pipe t' = [].
Proof.
  induction 1 as [|fd fds Hfd _ IH]; intros t Ht; [by exists t|]. cbn [drain length]. rewrite (pipe_head t fd fds) by done. cbn [obind].
  match goal with |- context [drain _ ?t1] => destruct (IH t1) as (t' & -> & ?); [done|] end. by exists t'.
Qed.

Lemma DoAccept_pipes n fds : 0 < n -> Forall (fun fd => 0 <= fd <= INT_MAX) fds -> forall ts, zlen ts = n ->
  exists ts', DoAccept n ((fun fd => (fd, true)) <$> fds) ts = Ok ts' /\ length ts' = length ts /\
    forall i t, ts !! i = Some t -> exists t', ts' !! i = Some t' /\ th_pipe t' = th_pipe t ++ pipe_text (of_thread n i fds).
Proof.
  intros Hn. induction 1 as [|fd fds Hfd _ IH]; intros ts Hts.
  - exists ts. split_and!; [done..|]. intros i t Ht. exists t. by rewrite app_nil_r.
  - cbn [fmap list_fmap DoAccept]. rewrite (proj2 (Z.eqb_neq fd (-1))) by lia. unfold PushTask.
    rewrite (proj2 (Z.ltb_ge fd 0)), (proj2 (Z.eqb_neq n 0)) by lia.
    pose proof (Z.rem_bound_pos fd n ltac:(lia) Hn) as Hr.
    destruct (lookup_lt_is_Some_2 ts (Z.to_nat (Z.rem fd n))) as [t0 Ht0]; [lia|]. cbv zeta. rewrite Ht0. cbn [obind].
    match goal with |- context [DoAccept n _ ?ts1] => destruct (IH ts1) as (ts' & E & Hl & Hp) end; [by rewrite length_insert|].
    exists ts'. rewrite length_insert in Hl. split_and!; [done|done|]. intros i t Ht. unfold of_thread. cbn [List.filter].
    destruct (Nat.eqb_spec (Z.to_nat (Z.rem fd n)) i) as [<-|Hne].
    + simplify_eq. edestruct Hp as (t' & Ht' & Hpt); [apply list_lookup_insert_eq; by apply lookup_lt_Some in Ht0|]. exists t'. split; [done|].
      rewrite Hpt. cbn [th_pipe]. unfold pipe_text. cbn [fmap list_fmap concat]. by rewrite <- app_assoc.
    + apply Hp. by rewrite list_lookup_insert_ne.
Qed.

(** Accepted descriptors reach the threads: when the pipes have room, the
    thread [i] of [n] reads from its pipe exactly the descriptors whose
    remainder by [n] is [i], in the order in which they were accepted. *)
Theorem dispatch_fifo n fds ts i t : 0 < n -> zlen ts = n -> Forall (fun fd => 0 <= fd <= INT_MAX) fds ->
  ts !! i = Some t -> th_pipe t = [] ->
  exists ts' t' t'', DoAccept n ((fun fd => (fd, true)) <$> fds) ts = Ok ts' /\ ts' !! i = Some t' /\
    drain (length (of_thread n i fds)) t' = Ok (of_thread n i fds, t'') /\ th_pipe t'' = [].
Proof.
  intros Hn Hts Hf Ht Hp. destruct (DoAccept_pipes n fds Hn Hf ts Hts) as (ts' & E & _ & Hpipes). destruct (Hpipes i t Ht) as (t' & Ht' & Hpt).
  rewrite Hp in Hpt. destruct (drain_ok (of_thread n i fds)) with (t := t') as (t'' & Ed & Hd); [|done|by exists ts', t', t''].
  rewrite Forall_forall in Hf |- *. intros fd Hfd%list_elem_of_In%filter_In. apply Hf, list_elem_of_In, Hfd.
Qed.

Definition idle_thread : LibEvThread := mkThread 1 None (Some 1) 3 4 [].

Lemma dispatch_fifo_witness :
  exists ts' t' t'', DoAccept 2 [(5, true); (8, true); (7, true)] [idle_thread; idle_thread] = Ok ts' /\ ts' !! 1%nat = Some t' /\
    drain 2 t' = Ok ([5; 7], t'') /\ th_pipe t'' = [].
Proof.
  refine (dispatch_fifo 2 [5; 8; 7] [idle_thread; idle_thread] 1 idle_thread _ eq_refl _ eq_refl eq_refl).
  - lia.
  - repeat apply Forall_cons_2; [unfold INT_MAX; lia..|apply Forall_nil_2].
Defined.

(** [OnStop] frees an event that no thread has ever been given. *)
Theorem stop_uninitialised n answers pids ts : 0 < n -> LibEvInit n answers = Ok ts -> OnStop (OnStart pids ts) [] = Fault Uninitialised.
Proof.
  intros Hn. unfold LibEvInit. rewrite (proj2 (Z.ltb_ge n 0)) by lia. destruct (Z.to_nat n) as [|k] eqn:E; [lia|].
  destruct answers as [|a answers]; [done|]. cbn [threads_loop]. destruct (nt_pipe a =? 0); cbn [negb]; [|done]. destruct (nt_base a =? 0); [done|].
  destruct (threads_loop answers k); cbn [obind]; [|done]. intros [= <-]. by destruct pids.
Qed.
