(* ===== verification/Config.v ===== *)
(** The configuration of the server (CConfiger.h, CConfiger.cpp): a file of
    lines, each a setting or a data source of a zone.

    The file is the text that [ifs] still has to deliver, with the state bits of
    the stream.  [m_iLine] only occurs in log messages and is left out.  The
    maps hold pointers to [ConfigInfo] objects that the configuration owns; the
    model keeps the objects in the maps and counts the live ones. *)

From stdpp Require Import base tactics list numbers strings gmap sorting.
From Stdlib Require Import ZArith Lia.
From S2P Require Import Prelude StateMonad Text.

Local Open Scope Z_scope.

Record ConfigInfo := mkInfo {
  st_address : list char;
  st_port : list char;
  st_username : list char;
  st_password : list char;
  st_dbname : list char
}.

Record CConfiger := mkConfig {
  m_configMysqlMap : gmap Z ConfigInfo;
  m_configRedisMap : gmap Z ConfigInfo;
  m_threads : Z;
  m_isEnableRecord : bool;
  m_isEnablessl : bool;
  m_insert_wait : Z;
  m_insert_count : Z;
  g_infos : Z
}.

Definition new_CConfiger : CConfiger := mkConfig ∅ ∅ 10 false false 100 100 0.

Definition set_mysql m n c := mkConfig m (m_configRedisMap c) (m_threads c) (m_isEnableRecord c) (m_isEnablessl c) (m_insert_wait c) (m_insert_count c) n.
Definition set_redis m n c := mkConfig (m_configMysqlMap c) m (m_threads c) (m_isEnableRecord c) (m_isEnablessl c) (m_insert_wait c) (m_insert_count c) n.
Definition set_threads x c := mkConfig (m_configMysqlMap c) (m_configRedisMap c) x (m_isEnableRecord c) (m_isEnablessl c) (m_insert_wait c) (m_insert_count c) (g_infos c).
Definition set_record x c := mkConfig (m_configMysqlMap c) (m_configRedisMap c) (m_threads c) x (m_isEnablessl c) (m_insert_wait c) (m_insert_count c) (g_infos c).
Definition set_ssl x c := mkConfig (m_configMysqlMap c) (m_configRedisMap c) (m_threads c) (m_isEnableRecord c) x (m_insert_wait c) (m_insert_count c) (g_infos c).
Definition set_wait x c := mkConfig (m_configMysqlMap c) (m_configRedisMap c) (m_threads c) (m_isEnableRecord c) (m_isEnablessl c) x (m_insert_count c) (g_infos c).
Definition set_count x c := mkConfig (m_configMysqlMap c) (m_configRedisMap c) (m_threads c) (m_isEnableRecord c) (m_isEnablessl c) (m_insert_wait c) x (g_infos c).

Abbreviation GM := (SM CConfiger).

(** The destructor deletes the objects of both maps. *)
Definition delete_CConfiger (c : CConfiger) : Z := g_infos c - Z.of_nat (size (m_configMysqlMap c)) - Z.of_nat (size (m_configRedisMap c)).

(** * Lines *)

Record istream := mkStream { is_rest : list char; is_good : bool }.

(** [ifs.getline(line, 128)]: up to [k] characters, then the end of the line.
    A line that is longer, or the end of the file, makes the stream refuse every
    later read. *)
Fixpoint getline_loop (k : nat) (s line : list char) {struct s} : list char * istream :=
  match s with
  | [] => (line, mkStream [] false)
  | c :: s' =>
      if c =? LF then (line, mkStream s' true)
      else match k with
           | O => (line, mkStream s false)
           | S k' => getline_loop k' s' (line ++ [c])
           end
  end.
Definition getline (ifs : istream) : list char * istream :=
  if is_good ifs then getline_loop 127 (is_rest ifs) [] else ([], ifs).

(** The result is [true] for an empty line as for the end of the file. *)
Definition ReadLine (ifs : istream) : bool * list char * istream :=
  let '(line, ifs) := getline ifs in
  let outString := cstring line in
  if bool_decide (outString = []) then (true, outString, ifs)
  else if same outString [CR] then (true, [], ifs)
  else if bool_decide (last outString = Some CR) then (false, take (length outString - 1) outString, ifs)
  else (false, outString, ifs).

(** * Items *)

Definition SplitString2 (s : list char) (splitchar : char) : outcome (list (list char)) := SplitString s splitchar.

Definition HASH : char := 35.
Definition EQUAL_SIGN : list char := [61].
Definition AMPERSAND : char := 38.

Definition SplitConfig (str : list char) : outcome (list (list char)) :=
  if bool_decide (head str = Some HASH) then Ok [[HASH]]
  else
    let pos := find str EQUAL_SIGN in
    if negb (pos =? npos) then
      let! tmpstr := substr str (pos + 1) in
      SplitString2 tmpstr AMPERSAND
    else Ok [].

Definition PerformanceItem (str : list char) : GM bool :=
  let pos := find str EQUAL_SIGN in
  if negb (pos =? npos) then
    do* header := slift (substr_n str 0 pos) in
    do* value := slift (substr str (pos + 1)) in
    if same header (lit "threads") then
      do* _ := smodify (set_threads (atoi value)) in sret true
    else if same header (lit "insert_max_count") then
      do* _ := smodify (set_count (atoi value)) in sret true
    else if same header (lit "insert_wait") then
      do* _ := smodify (set_wait (atoi value)) in sret true
    else if same header (lit "enable_record") then
      do* _ := smodify (set_record (same value (lit "true"))) in sret true
    else if same header (lit "enable_ssl") then
      do* _ := smodify (set_ssl (same value (lit "true"))) in sret true
    else sret false
  else sret false.

(** [std::map::insert] keeps an entry that is there; the new object is then
    owned by nobody. *)
Definition map_insert (k : Z) (x : ConfigInfo) (m : gmap Z ConfigInfo) : gmap Z ConfigInfo :=
  match m !! k with Some _ => m | None => <[k := x]> m end.

(** [list.at(i)], or the empty string of a new [ConfigInfo]. *)
Definition field (fs : list (list char)) (i : nat) : list char := default [] (fs !! i).

Definition SourceDataItme (str : list char) : GM bool :=
  do* list := slift (SplitConfig str) in
  match list with
  | [] => sret false
  | kind :: _ =>
      if same kind (lit "#") then sret true
      else if same kind (lit "mysql") then
        if (length list <? 7)%nat then sret false
        else
          let iZoneCode := atoi (field list 1) in
          let pInfo := mkInfo (field list 2) (field list 3) (field list 4) (field list 5) (field list 6) in
          do* _ := smodify (fun c => set_mysql (map_insert iZoneCode pInfo (m_configMysqlMap c)) (g_infos c + 1) c) in
          sret true
      else if same kind (lit "redis") then
        let iZoneCode := if (1 <? length list)%nat then atoi (field list 1) else -1 in
        let pInfo := mkInfo (field list 2) (field list 3) (field list 4) (field list 5) [] in
        do* _ := smodify (fun c => set_redis (map_insert iZoneCode pInfo (m_configRedisMap c)) (g_infos c + 1) c) in
        sret true
      else sret false
  end.

Definition ParaseLine (str : list char) : GM bool :=
  do* done := PerformanceItem str in
  if done then sret true else SourceDataItme str.

(** * The file *)

(** The loop of [OnInit]: [iCount] counts the empty lines in a row. *)
Fixpoint file_loop (fuel : nat) (ifs : istream) (iCount : Z) : GM bool :=
  match fuel with
  | O => scrash OutOfFuel
  | S f =>
      let '(isDone, outStr, ifs) := ReadLine ifs in
      if bool_decide (outStr = []) && isDone && (iCount <? 4) then
        if 4 <? iCount + 1 then sret true
        else file_loop f ifs (iCount + 1)
      else if negb isDone && negb (bool_decide (head outStr = Some CR)) then
        do* ok := ParaseLine outStr in
        if negb ok then sret false
        else file_loop f ifs 0
      else if negb isDone then file_loop f ifs iCount
      else sret true
  end.

Definition OnInit (file : option (list char)) : GM bool :=
  match file with
  | Some text => file_loop (length text + 6) (mkStream text true) 0
  | None => sret false
  end.

(** * Queries *)

Definition GetConfigInfo (c : CConfiger) (iZoneCode : Z) (info : ConfigInfo) (isRedis : bool) : ConfigInfo :=
  if isRedis then
    match m_configRedisMap c !! iZoneCode with
    | Some x => mkInfo (st_address x) (st_port x) (st_username x) (st_password x) (st_dbname info)
    | None => info
    end
  else
    match m_configMysqlMap c !! iZoneCode with
    | Some x => mkInfo (st_address x) (st_port x) (st_username x) (st_password x) (st_dbname x)
    | None => info
    end.

Definition GetConfigInfos (c : CConfiger) (isRedis : bool) : gmap Z ConfigInfo :=
  if isRedis then (fun x => mkInfo (st_address x) (st_port x) (st_username x) (st_password x) []) <$> m_configRedisMap c
  else (fun x => mkInfo (st_address x) (st_port x) (st_username x) (st_password x) (st_dbname x)) <$> m_configMysqlMap c.

(** The keys of a [std::map], in the order in which it is walked through. *)
Definition keys_of {A} (m : gmap Z A) : list Z := merge_sort Z.le (map_to_list m).*1.

Lemma keys_of_spec {A} (m : gmap Z A) : NoDup (keys_of m) /\ forall z, z ∈ keys_of m <-> is_Some (m !! z).
Proof.
  unfold keys_of. rewrite merge_sort_Permutation. split; [apply NoDup_fst_map_to_list|]. intros z.
  rewrite merge_sort_Permutation, list_elem_of_fmap. split.
  - intros ([k x] & -> & Hx). apply elem_of_map_to_list in Hx. by exists x.
  - intros [x Hx]. exists (z, x). split; [done|]. by apply elem_of_map_to_list.
Qed.
