(* ===== verification/ConfigSpec.v ===== *)
(** Reading a configuration file: what is written in it is what the server gets,
    and reading always ends. *)

From stdpp Require Import base tactics sets list numbers strings gmap.
From Stdlib Require Import ZArith Lia.
From S2P Require Import Prelude StateMonad Printf Text HttpSpec Config.

Local Open Scope Z_scope.

(** * Numbers *)

Definition digit (c : char) : Prop := 48 <= c <= 57.

Lemma number_digits s v : Forall digit s -> number s v = dec_value_from v s.
Proof.
  revert v. induction s as [|c s IH]; intros v Hs; [done|]. apply Forall_cons_1 in Hs as [Hc Hs]. cbn [number]. unfold digit in Hc.
  unfold isdigit. rewrite (proj2 (Z.leb_le 48 c)), (proj2 (Z.leb_le c 57)) by lia. cbn [andb]. by rewrite IH.
Qed.

Lemma cstring_id s : Forall (fun c => c <> NUL) s -> cstring s = s.
Proof. induction 1 as [|c s Hc _ IH]; [done|]. cbn. rewrite (proj2 (Z.eqb_neq c NUL) Hc). by rewrite IH. Qed.

Lemma strtol_digits c s : digit c -> strtol (c :: s) = Z.max LLONG_MIN (Z.min LLONG_MAX (number (c :: s) 0)).
Proof.
  unfold digit. intros Hc. unfold strtol.
  assert (c = 48 \/ c = 49 \/ c = 50 \/ c = 51 \/ c = 52 \/ c = 53 \/ c = 54 \/ c = 55 \/ c = 56 \/ c = 57) as Hd by lia.
  repeat (destruct Hd as [->|Hd]; [done|]). by subst c.
Qed.

Lemma skip_space_id c s : isspace c = false -> skip_space (c :: s) = c :: s.
Proof. intros E. cbn. by rewrite E. Qed.

Lemma atoi_dec z : INT_MIN <= z <= INT_MAX -> atoi (dec_signed z) = z.
Proof.
  intros Hz. unfold atoi, dec_signed.
  assert (forall n, 0 <= n -> Forall digit (dec n)) as Hdig by (intros; by apply dec_isdigit).
  assert (forall s, Forall digit s -> Forall (fun c => c <> NUL) s) as Hnul.
  { intros s Hs. eapply Forall_impl; [exact Hs|]. unfold digit, NUL. cbn. lia. }
  destruct (Z.ltb_spec z 0) as [Hneg|Hpos].
  - rewrite cstring_id by (apply Forall_cons_2; [done|]; apply Hnul, Hdig; lia).
    rewrite skip_space_id by done. unfold strtol. rewrite number_digits by (apply Hdig; lia).
    change (dec_value_from 0 (dec (- z))) with (dec_value (dec (- z))). rewrite dec_value_dec by lia.
    rewrite int_id by (unfold INT_MIN, INT_MAX, LLONG_MIN, LLONG_MAX in *; lia). unfold INT_MIN, INT_MAX, LLONG_MIN, LLONG_MAX in *; lia.
  - pose proof (Hdig z Hpos) as Hd. rewrite cstring_id by (by apply Hnul).
    pose proof (dec_value_dec z Hpos) as Hv. destruct (dec z) as [|c s] eqn:E; [by destruct (dec_nonempty z)|].
    pose proof (Forall_cons_1 _ _ _ Hd) as [Hc _]. rewrite skip_space_id by (unfold digit in Hc; unfold isspace; lia).
    rewrite strtol_digits by done. rewrite number_digits by done. change (dec_value_from 0 (c :: s)) with (dec_value (c :: s)). rewrite Hv.
    rewrite int_id by (unfold INT_MIN, INT_MAX, LLONG_MIN, LLONG_MAX in *; lia). unfold INT_MIN, INT_MAX, LLONG_MIN, LLONG_MAX in *; lia.
Qed.

(** * Lines *)

Definition plain (c : char) : Prop := c <> LF /\ c <> CR /\ c <> NUL.

Lemma getline_loop_ok line rest : LF ∉ line -> forall k acc, (length line <= k)%nat ->
  getline_loop k (line ++ LF :: rest) acc = (acc ++ line, mkStream rest true).
Proof.
  induction line as [|c line IH]; intros Hl k acc Hk; cbn [app getline_loop].
  - rewrite Z.eqb_refl, app_nil_r. done.
  - apply not_elem_of_cons in Hl as [Hc Hl]. rewrite (proj2 (Z.eqb_neq c LF)) by congruence.
    destruct k as [|k]; [cbn in Hk; lia|]. rewrite IH by (done || cbn in Hk; lia). by rewrite <- app_assoc.
Qed.

Lemma plain_facts line : Forall plain line -> LF ∉ line /\ cstring line = line /\ last line <> Some CR /\ head line <> Some CR /\ line <> [CR].
Proof.
  intros Hp. split_and!.
  - intros Hin. rewrite Forall_forall in Hp. by destruct (Hp _ Hin) as (? & _).
  - apply cstring_id. eapply Forall_impl; [done|]. by intros c (_ & _ & ?).
  - rewrite Forall_forall in Hp. intros E%last_Some_elem_of. by destruct (Hp _ E) as (_ & ? & _).
  - destruct Hp as [|c l (_ & Hc & _) _]; [done|]. by intros [= ->].
  - intros ->. apply Forall_cons_1 in Hp as [(_ & ? & _) _]. done.
Qed.

Lemma ReadLine_line line rest : Forall plain line -> line <> [] -> zlen line <= 127 ->
  ReadLine (mkStream (line ++ LF :: rest) true) = (false, line, mkStream rest true).
Proof.
  intros Hp Hne Hl. destruct (plain_facts line Hp) as (H1 & H2 & H3 & _ & H5). unfold ReadLine, getline. cbn [is_good is_rest].
  rewrite getline_loop_ok by (done || lia). cbn [app]. rewrite H2. unfold same. by rewrite !bool_decide_false by done.
Qed.

(** * Items and their lines *)

Inductive item :=
| IThreads (n : Z)
| ICount (n : Z)
| IWait (n : Z)
| IRecord (b : bool)
| ISsl (b : bool)
| IComment (text : list char)
| IMysql (name : list char) (zone : Z) (info : ConfigInfo)
| IRedis (name : list char) (zone : Z) (info : ConfigInfo).

Definition bool_text (b : bool) : list char := if b then lit "true" else lit "false".
Definition setting (name value : list char) : list char := name ++ EQUAL_SIGN ++ value.

Definition item_line (i : item) : list char :=
  match i with
  | IThreads n => setting (lit "threads") (dec_signed n)
  | ICount n => setting (lit "insert_max_count") (dec_signed n)
  | IWait n => setting (lit "insert_wait") (dec_signed n)
  | IRecord b => setting (lit "enable_record") (bool_text b)
  | ISsl b => setting (lit "enable_ssl") (bool_text b)
  | IComment text => HASH :: text
  | IMysql name zone x => setting name (join AMPERSAND
      [lit "mysql"; dec_signed zone; st_address x; st_port x; st_username x; st_password x; st_dbname x])
  | IRedis name zone x => setting name (join AMPERSAND
      [lit "redis"; dec_signed zone; st_address x; st_port x; st_username x; st_password x])
  end.

(** What an item means; a second source for a zone is ignored. *)
Definition item_effect (c : CConfiger) (i : item) : CConfiger :=
  match i with
  | IThreads n => set_threads n c
  | ICount n => set_count n c
  | IWait n => set_wait n c
  | IRecord b => set_record b c
  | ISsl b => set_ssl b c
  | IComment _ => c
  | IMysql _ zone x => set_mysql (map_insert zone x (m_configMysqlMap c)) (g_infos c + 1) c
  | IRedis _ zone x =>
      set_redis (map_insert zone (mkInfo (st_address x) (st_port x) (st_username x) (st_password x) []) (m_configRedisMap c)) (g_infos c + 1) c
  end.

Definition int_range (z : Z) : Prop := INT_MIN <= z <= INT_MAX.

(** A source has a name of its own and fields without separators. *)
Definition name_ok (name : list char) : Prop :=
  61 ∉ name /\ head name <> Some HASH /\
  name ∉ [lit "threads"; lit "insert_max_count"; lit "insert_wait"; lit "enable_record"; lit "enable_ssl"].
Definition fields_ok (fs : list (list char)) : Prop := Forall (fun x => AMPERSAND ∉ x /\ x <> []) fs.

Definition item_ok (i : item) : Prop :=
  Forall plain (item_line i) /\ zlen (item_line i) <= 127 /\
  match i with
  | IThreads n | ICount n | IWait n => int_range n
  | IRecord _ | ISsl _ | IComment _ => True
  | IMysql name zone x => name_ok name /\ int_range zone /\ fields_ok [st_address x; st_port x; st_username x; st_password x; st_dbname x]
  | IRedis name zone x => name_ok name /\ int_range zone /\ fields_ok [st_address x; st_port x; st_username x; st_password x]
  end.

#[export] Instance item_ok_dec i : Decision (item_ok i).
Proof. unfold item_ok, int_range, name_ok, fields_ok, plain. destruct i; apply _. Defined.

(** ** One line *)

Section line.
Context (name value : list char) (Hname : 61 ∉ name) (Hlen : zlen (setting name value) <= 127).

Lemma find_setting : find (setting name value) EQUAL_SIGN = zlen name.
Proof using Hname. by apply (find_first 61 [] name value). Qed.

Lemma setting_length : zlen name + 1 + zlen value <= 127.
Proof using Hlen. unfold setting in Hlen. rewrite !length_app in Hlen. cbn in Hlen. lia. Qed.

Lemma setting_value : substr (setting name value) (zlen name + 1) = Ok value.
Proof using Hlen.
  unfold setting. rewrite app_assoc. apply substr_rest; [rewrite length_app; cbn; lia|].
  pose proof setting_length. rewrite !length_app. cbn [length EQUAL_SIGN]. unfold INT_MAX. lia.
Qed.

Lemma PerformanceItem_setting c : PerformanceItem (setting name value) c =
  if same name (lit "threads") then Ok (true, set_threads (atoi value) c)
  else if same name (lit "insert_max_count") then Ok (true, set_count (atoi value) c)
  else if same name (lit "insert_wait") then Ok (true, set_wait (atoi value) c)
  else if same name (lit "enable_record") then Ok (true, set_record (same value (lit "true")) c)
  else if same name (lit "enable_ssl") then Ok (true, set_ssl (same value (lit "true")) c)
  else Ok (false, c).
Proof using Hname Hlen.
  pose proof setting_length. unfold PerformanceItem. rewrite find_setting.
  rewrite (proj2 (Z.eqb_neq (zlen name) npos)) by (unfold npos, SIZE_MAX; lia). cbn [negb].
  unfold sbind, slift. rewrite setting_value. unfold setting. rewrite substr_0.
  repeat (match goal with |- context [if ?b then _ else _] => destruct b; [done|] end). done.
Qed.

Lemma SplitConfig_setting : head name <> Some HASH -> SplitConfig (setting name value) = SplitString value AMPERSAND.
Proof using Hname Hlen.
  intros Hh. pose proof setting_length. unfold SplitConfig. rewrite find_setting.
  rewrite bool_decide_false by (unfold setting; destruct name; [done|]; cbn in *; done).
  rewrite (proj2 (Z.eqb_neq (zlen name) npos)) by (unfold npos, SIZE_MAX; lia). cbn [negb]. rewrite setting_value. done.
Qed.

Lemma ParaseLine_source c : name_ok name -> ParaseLine (setting name value) c = SourceDataItme (setting name value) c.
Proof using Hname Hlen.
  intros (_ & _ & Hn). unfold ParaseLine. rewrite (sbind_ok (PerformanceItem _) _ c false c); [done|].
  rewrite PerformanceItem_setting. unfold same. rewrite !bool_decide_false; [done|..]; intros E; apply Hn; rewrite E; set_solver.
Qed.
End line.

Lemma ParaseLine_comment text c : zlen (HASH :: text) <= 127 -> ParaseLine (HASH :: text) c = Ok (true, c).
Proof.
  intros Hl. unfold ParaseLine. rewrite (sbind_ok (PerformanceItem _) _ c false c); [done|]. unfold PerformanceItem.
  destruct (find_from_spec EQUAL_SIGN (HASH :: text) 0) as [E|(a & t & Es & _ & E)]; rewrite (E : find (HASH :: text) EQUAL_SIGN = _); [done|].
  rewrite Z.add_0_l. rewrite Es in Hl |- *. rewrite !length_app in Hl. cbn [length EQUAL_SIGN] in Hl.
  rewrite (proj2 (Z.eqb_neq (zlen a) npos)) by (unfold npos, SIZE_MAX; lia). cbn [negb]. unfold sbind, slift. rewrite substr_0.
  rewrite app_assoc, substr_rest by (rewrite ?length_app; cbn [length EQUAL_SIGN]; unfold INT_MAX; lia).
  destruct a as [|x a]; [done|]. injection Es as <- _. unfold same. by rewrite !bool_decide_false by done.
Qed.

Lemma dec_signed_field z : AMPERSAND ∉ dec_signed z /\ dec_signed z <> [].
Proof.
  assert (forall n, 0 <= n -> AMPERSAND ∉ dec n) as H.
  { intros n Hn Hin. pose proof (dec_isdigit n Hn) as Hd. rewrite Forall_forall in Hd. specialize (Hd _ Hin). unfold AMPERSAND in Hd. lia. }
  unfold dec_signed. destruct (Z.ltb_spec z 0); split; [|done|by apply H|apply dec_nonempty].
  apply not_elem_of_cons. split; [done|]. apply H. lia.
Qed.

(** The fields of a source, with its kind and zone. *)
Lemma SplitString_source kind zone fs : kind = lit "mysql" \/ kind = lit "redis" -> fields_ok fs ->
  zlen (join AMPERSAND (kind :: dec_signed zone :: fs)) <= INT_MAX ->
  SplitString (join AMPERSAND (kind :: dec_signed zone :: fs)) AMPERSAND = Ok (kind :: dec_signed zone :: fs).
Proof.
  intros Hk Hf Hl. apply SplitString_join; [|done]. apply Forall_cons_2; [|apply Forall_cons_2; [apply dec_signed_field|done]].
  destruct Hk as [->| ->]; (split; [|done]); apply (bool_decide_unpack _); by vm_compute.
Qed.

Lemma ParaseLine_item i c : item_ok i -> ParaseLine (item_line i) c = Ok (true, item_effect c i).
Proof.
  intros (Hp & Hl & Hi). destruct i as [n|n|n|b|b|text|name zone x|name zone x]; cbn [item_line item_effect] in *.
  1-5: unfold ParaseLine, sbind; rewrite PerformanceItem_setting by (done || apply (bool_decide_unpack _); by vm_compute).
  1-3: unfold int_range in Hi; cbn; by rewrite atoi_dec.
  1-2: by destruct b.
  - by apply ParaseLine_comment.
  - destruct Hi as (Hn & Hz & Hf). pose proof Hn as (H61 & Hh & _). rewrite ParaseLine_source by done. unfold SourceDataItme, sbind, slift.
    rewrite SplitConfig_setting by done. pose proof (setting_length _ _ Hl) as Hsl.
    rewrite SplitString_source; [|by left|done|unfold INT_MAX; lia]. cbn. rewrite atoi_dec by done. by destruct x.
  - destruct Hi as (Hn & Hz & Hf). pose proof Hn as (H61 & Hh & _). rewrite ParaseLine_source by done. unfold SourceDataItme, sbind, slift.
    rewrite SplitConfig_setting by done. pose proof (setting_length _ _ Hl) as Hsl.
    rewrite SplitString_source; [|by right|done|unfold INT_MAX; lia]. cbn. by rewrite atoi_dec by done.
Qed.

Lemma item_line_nonempty i : item_line i <> [].
Proof. destruct i; cbn; unfold setting; try done; by destruct name. Qed.

(** ** The file *)

(** Each line is followed by some empty lines. *)
Definition file_text (items : list (item * nat)) : list char := concat ((fun '(i, n) => item_line i ++ LF :: repeat LF n) <$> items).

Lemma file_loop_line f i rest k c : item_ok i ->
  file_loop (S f) (mkStream (item_line i ++ LF :: rest) true) k c = file_loop f (mkStream rest true) 0 (item_effect c i).
Proof.
  intros Hi. pose proof Hi as (Hp & Hl & _). cbn [file_loop]. rewrite ReadLine_line by (done || apply item_line_nonempty).
  rewrite andb_false_r. cbn [andb negb]. destruct (plain_facts _ Hp) as (_ & _ & _ & Hh & _). rewrite bool_decide_false by done. cbn [negb].
  rewrite (sbind_ok (ParaseLine _)) with (1 := ParaseLine_item i c Hi). done.
Qed.

Lemma file_loop_blank n f rest : forall k c, 0 <= k -> k + Z.of_nat n <= 4 ->
  file_loop (n + f) (mkStream (repeat LF n ++ rest) true) k c = file_loop f (mkStream rest true) (k + Z.of_nat n) c.
Proof.
  induction n as [|n IH]; intros k c Hk Hn; [by rewrite Z.add_0_r|]. cbn [repeat app Nat.add file_loop].
  unfold ReadLine, getline. cbn [is_good is_rest getline_loop]. rewrite Z.eqb_refl. cbn [cstring]. rewrite (bool_decide_true (@nil char = [])) by done.
  cbn [andb]. rewrite (proj2 (Z.ltb_lt k 4)), (proj2 (Z.ltb_ge 4 (k + 1))) by lia. rewrite (bool_decide_true (@nil char = [])) by done. cbn [andb].
  rewrite IH by lia. f_equal. lia.
Qed.

(** The end of the file is met as empty lines, until there are five. *)
Lemma file_loop_end f k c : 0 <= k <= 4 -> file_loop (6 + f) (mkStream [] true) k c = Ok (true, c).
Proof.
  intros Hk. assert (k = 0 \/ k = 1 \/ k = 2 \/ k = 3 \/ k = 4) as [->|[->|[->|[->| ->]]]] by lia; done.
Qed.

Lemma file_loop_items items : Forall (fun x => item_ok x.1 /\ (x.2 <= 4)%nat) items -> forall f k c, 0 <= k <= 4 -> (length (file_text items) + 6 <= f)%nat ->
  file_loop f (mkStream (file_text items) true) k c = Ok (true, foldl item_effect c items.*1).
Proof.
  induction 1 as [|[i n] items [Hi Hn] _ IH]; intros f k c Hk Hf.
  - replace f with (6 + (f - 6))%nat by (cbn in Hf; lia). by apply file_loop_end.
  - unfold file_text in *. cbn [fmap list_fmap concat foldl fst] in *. rewrite length_app in Hf. cbn [fst snd] in *.
    destruct f as [|f]; [lia|]. rewrite length_app in Hf. cbn [length] in Hf. rewrite repeat_length in Hf.
    rewrite <- app_assoc. cbn [app]. rewrite file_loop_line by done.
    replace f with (n + (f - n))%nat by lia. rewrite file_loop_blank by lia. rewrite IH; [done|lia|lia].
Qed.

(** C17: a configuration file of well-formed lines of at most 127 characters,
    with up to four empty lines after each, is read as what it says: each
    setting has its last value, each zone its first data source of either kind,
    with all its fields, and comments are ignored. *)
Theorem config_roundtrip items c : Forall (fun x => item_ok x.1 /\ (x.2 <= 4)%nat) items ->
  OnInit (Some (file_text items)) c = Ok (true, foldl item_effect c items.*1).
Proof. intros Hi. unfold OnInit. apply file_loop_items; [done|lia|lia]. Qed.

Definition demo_items : list (item * nat) :=
  [(IComment (lit " threads=10"), 0%nat); (IThreads 1, 1%nat); (IWait 100, 1%nat); (ICount 100, 1%nat); (IRecord false, 1%nat); (ISsl true, 1%nat);
   (IRedis (lit "HuNan") 4503 (mkInfo (lit "192.168.1.211") (lit "6379") (lit "admin") (lit "123456") []), 0%nat);
   (IMysql (lit "HuNan") 4503 (mkInfo (lit "192.168.1.211") (lit "3306") (lit "root") (lit "root") (lit "esdb4503")), 2%nat);
   (IMysql (lit "GuangXi") 4502 (mkInfo (lit "192.168.1.211") (lit "3306") (lit "root") (lit "root") (lit "esdb4503")), 0%nat)].

Lemma config_roundtrip_witness :
  OnInit (Some (file_text demo_items)) new_CConfiger = Ok (true, foldl item_effect new_CConfiger demo_items.*1).
Proof.
  refine (config_roundtrip demo_items new_CConfiger _).
  apply (bool_decide_unpack (Forall (fun x => item_ok x.1 /\ (x.2 <= 4)%nat) demo_items)). by vm_compute.
Defined.

(** ** Any file *)

Lemma ParaseLine_total s c : zlen s <= 127 -> exists b c', ParaseLine s c = Ok (b, c').
Proof.
  intros Hl. assert (exists b c1, PerformanceItem s c = Ok (b, c1)) as (b & c1 & E).
  { unfold PerformanceItem. destruct (find_from_spec EQUAL_SIGN s 0) as [E|(a & t & -> & _ & E)]; rewrite (E : find _ EQUAL_SIGN = _); [by eexists _, _|].
    rewrite Z.add_0_l. rewrite !length_app in Hl. cbn [length EQUAL_SIGN] in Hl.
    rewrite (proj2 (Z.eqb_neq (zlen a) npos)) by (unfold npos, SIZE_MAX; lia). cbn [negb]. unfold sbind, slift. rewrite substr_0.
    rewrite app_assoc, substr_rest by (rewrite ?length_app; cbn [length EQUAL_SIGN]; unfold INT_MAX; lia).
    repeat (match goal with |- context [if ?b then _ else _] => destruct b; [by eexists _, _|] end). by eexists _, _. }
  unfold ParaseLine. rewrite (sbind_ok _ _ _ _ _ E). destruct b; [by eexists _, _|]. unfold SourceDataItme.
  assert (exists fs, SplitConfig s = Ok fs) as [fs ->].
  { unfold SplitConfig. case_bool_decide; [by eexists|].
    destruct (find_from_spec EQUAL_SIGN s 0) as [E1|(a & t & -> & _ & E1)]; rewrite (E1 : find _ EQUAL_SIGN = _); [by eexists|].
    rewrite Z.add_0_l. rewrite !length_app in Hl. cbn [length EQUAL_SIGN] in Hl.
    rewrite (proj2 (Z.eqb_neq (zlen a) npos)) by (unfold npos, SIZE_MAX; lia). cbn [negb].
    rewrite app_assoc, substr_rest by (rewrite ?length_app; cbn [length EQUAL_SIGN]; unfold INT_MAX; lia). cbn [obind].
    unfold SplitString2. rewrite SplitString_fields by (unfold INT_MAX; lia). by eexists. }
  rewrite (sbind_ok (slift (Ok fs)) _ c1 fs c1) by done. destruct fs as [|kind fs]; [by eexists _, _|].
  destruct (same kind (lit "#")); [by eexists _, _|]. destruct (same kind (lit "mysql")).
  - destruct (_ <? _)%nat; by eexists _, _.
  - destruct (same kind (lit "redis")); by eexists _, _.
Qed.

(** What a call of [ReadLine] leaves: the rest of the file is shorter, or the
    stream refuses to be read. *)
Lemma getline_loop_props s : forall k line, (length line + k <= 127)%nat ->
  let '(line', ifs') := getline_loop k s line in
  (length line' <= 127)%nat /\ (is_good ifs' = true -> (length (is_rest ifs') < length s)%nat).
Proof.
  induction s as [|c s IH]; intros k line Hk; cbn [getline_loop]; [split; [lia|done]|].
  destruct (c =? LF); [cbn; split; lia|]. destruct k as [|k]; [split; [lia|done]|].
  specialize (IH k (line ++ [c])). rewrite length_app in IH. cbn in IH. specialize (IH ltac:(lia)).
  destruct (getline_loop k s (line ++ [c])) as [line' ifs']. destruct IH as [? IH]. split; [done|]. intros Hg. specialize (IH Hg). cbn. lia.
Qed.

Lemma cstring_length s : (length (cstring s) <= length s)%nat.
Proof. induction s as [|c s IH]; [done|]. cbn. destruct (c =? NUL); cbn; lia. Qed.

Lemma ReadLine_props ifs :
  let '(d, s, ifs') := ReadLine ifs in
  zlen s <= 127 /\ (d = true -> s = []) /\ (is_good ifs = false -> d = true /\ ifs' = ifs) /\
  (is_good ifs' = true -> is_good ifs = true /\ (length (is_rest ifs') < length (is_rest ifs))%nat).
Proof.
  unfold ReadLine, getline. destruct (is_good ifs) eqn:Hg; [|cbn; split_and!; [done..|congruence]].
  pose proof (getline_loop_props (is_rest ifs) 127 [] ltac:(done)) as Hp. destruct (getline_loop 127 (is_rest ifs) []) as [line ifs'].
  destruct Hp as [Hl Hr]. pose proof (cstring_length line) as Hc.
  case_bool_decide; [split_and!; [lia|done|done|auto]|]. destruct (same _ _); [split_and!; [done..|auto]|].
  case_bool_decide; (split_and!; [rewrite ?length_take; lia|done|done|auto]).
Qed.

(** The turns the loop still takes at most. *)
Definition turns (ifs : istream) (k : Z) : Z := if is_good ifs then zlen (is_rest ifs) + 6 else 5 - k.

Lemma file_loop_total : forall f ifs k c, 0 <= k <= 4 -> turns ifs k <= Z.of_nat f -> exists b c', file_loop f ifs k c = Ok (b, c').
Proof.
  induction f as [|f IH]; intros ifs k c Hk Hf; [unfold turns in Hf; destruct (is_good ifs); lia|].
  cbn [file_loop]. pose proof (ReadLine_props ifs) as Hp. destruct (ReadLine ifs) as [[d s] ifs']. destruct Hp as (Hl & Hd & Hbad & Hgood).
  assert (forall k', 0 <= k' <= 4 -> (is_good ifs = false -> k' = k + 1) -> turns ifs' k' <= Z.of_nat f) as Ht.
  { intros k' Hk' Hb. unfold turns in *. destruct (is_good ifs') eqn:Eg'.
    - destruct (Hgood eq_refl) as [Eg ?]. rewrite Eg in Hf. lia.
    - destruct (is_good ifs) eqn:Eg; [lia|]. specialize (Hb eq_refl). lia. }
  destruct (bool_decide (s = []) && d && (k <? 4)) eqn:Eb.
  - apply andb_prop in Eb as [_ Hk4%Z.ltb_lt]. rewrite (proj2 (Z.ltb_ge 4 (k + 1))) by lia. apply IH; [lia|]. apply Ht; [lia|done].
  - destruct d; cbn [negb andb]; [by eexists _, _|]. assert (is_good ifs = true) as Eg by (destruct (is_good ifs); [done|]; by destruct (Hbad eq_refl)).
    destruct (negb _).
    + destruct (ParaseLine_total s c Hl) as (b & c' & E). rewrite (sbind_ok _ _ _ _ _ E). destruct b; cbn [negb]; [|by eexists _, _].
      apply IH; [lia|]. apply Ht; [lia|]. congruence.
    + apply IH; [lia|]. apply Ht; [lia|]. congruence.
Qed.

(** Reading a configuration ends for every file, with success or with the
    verdict that a line is wrong; no line makes the reader throw. *)
Theorem config_total text c : exists b c', OnInit text c = Ok (b, c').
Proof.
  destruct text as [text|]; [|by eexists _, _]. unfold OnInit. apply file_loop_total; [lia|]. unfold turns. cbn. lia.
Qed.

(** ** Limits *)

Lemma getline_loop_long line rest : LF ∉ line -> head rest <> Some LF -> rest <> [] -> forall acc,
  getline_loop (length line) (line ++ rest) acc = (acc ++ line, mkStream rest false).
Proof.
  intros Hl Hh Hr. induction line as [|c line IH]; intros acc; cbn [app length].
  - destruct rest as [|c rest]; [done|]. cbn [getline_loop]. rewrite (proj2 (Z.eqb_neq c LF)) by (intros ->; done). by rewrite app_nil_r.
  - apply not_elem_of_cons in Hl as [Hc Hl]. cbn [getline_loop]. rewrite (proj2 (Z.eqb_neq c LF)) by congruence. rewrite IH by done. by rewrite <- app_assoc.
Qed.

Lemma file_loop_bad f rest c : file_loop (5 + f) (mkStream rest false) 0 c = Ok (true, c).
Proof. done. Qed.

(** A line of more than 127 characters, here a comment, ends the configuration:
    the rest of the file is ignored, and reading it counts as success. *)
Theorem long_line_hides_rest text rest c :
  zlen (HASH :: text) = 127 -> Forall plain (HASH :: text) -> head rest <> Some LF -> rest <> [] ->
  OnInit (Some ((HASH :: text) ++ rest)) c = Ok (true, c).
Proof.
  intros Hl Hp Hh Hr. destruct (plain_facts _ Hp) as (H1 & H2 & H3 & H4 & H5).
  assert (ReadLine (mkStream ((HASH :: text) ++ rest) true) = (false, HASH :: text, mkStream rest false)) as E.
  { unfold ReadLine, getline. cbn [is_good is_rest]. replace 127%nat with (length (HASH :: text)) by lia. rewrite getline_loop_long by done.
    cbn [app]. rewrite H2. unfold same. by rewrite !bool_decide_false by done. }
  unfold OnInit. replace (length ((HASH :: text) ++ rest) + 6)%nat with (S (5 + (length ((HASH :: text) ++ rest)))) by lia.
  cbn [file_loop]. rewrite E. rewrite andb_false_r. cbn [andb negb]. rewrite bool_decide_false by done. cbn [negb].
  rewrite (sbind_ok (ParaseLine _)) with (1 := ParaseLine_comment text c ltac:(lia)). cbn [negb]. apply file_loop_bad.
Qed.

(** The second source of a zone is created, not entered in the map, and never
    deleted. *)
Theorem duplicate_zone_leaks n n' zone x y :
  delete_CConfiger (foldl item_effect new_CConfiger [IMysql n zone x; IMysql n' zone y]) = 1.
Proof. unfold delete_CConfiger. cbn. unfold map_insert. rewrite lookup_empty, lookup_insert_eq. by rewrite map_size_insert, lookup_empty. Qed.

(** The example of the header file, which has no name of a database, is
    refused. *)
Theorem documented_mysql_line_refused c : 
  ParaseLine (lit "HuNan=mysql&431027&192.168.1.211&3306&admin&123456") c = Ok (false, c).
Proof. by destruct c. Qed.
