(* ===== verification/RedisClient.v ===== *)
(** The Redis client of the server (CRedisClient.h, CRedisClient.cpp,
    CUtilRedis.cpp): a connection with its lock, on top of the synchronous
    client of hiredis.

    A client is the object [this]; its methods return it with their result and
    run on the machine of hiredis.  Members that the constructor does not set
    are [None] until something is stored in them.  The lock is a plain mutex:
    the thread that holds it and asks for it again never gets it. *)

From stdpp Require Import base tactics list numbers strings gmap.
From S2P Require Import Prelude Machine Printf Sds Reply Reader Format Net Context Text.

Local Open Scope Z_scope.

Record CRedisClient := mkClient {
  m_pRedisContext : option redisContext;
  m_locker : bool;
  m_address : list char;
  m_port : option Z;
  m_iReconnectCount : option Z
}.

Definition set_context x t := mkClient x (m_locker t) (m_address t) (m_port t) (m_iReconnectCount t).
Definition set_locker x t := mkClient (m_pRedisContext t) x (m_address t) (m_port t) (m_iReconnectCount t).
Definition set_target a p t := mkClient (m_pRedisContext t) (m_locker t) a (Some p) (m_iReconnectCount t).
Definition set_reconnects x t := mkClient (m_pRedisContext t) (m_locker t) (m_address t) (m_port t) (Some x).

(** The constructor allocates the lock. *)
Definition new_CRedisClient : CRedisClient := mkClient None false [] None None.

(** [m_locker->lock()] and [unlock()]. *)
Definition lock_client (this : CRedisClient) : M CRedisClient :=
  if m_locker this then crash Blocks else ret (set_locker true this).
Definition unlock_client (this : CRedisClient) : CRedisClient := set_locker false this.

(** [LockerGuard guard( *m_locker)] until the end of the scope. *)
Definition guarded {A} (this : CRedisClient) (body : CRedisClient -> M (A * CRedisClient)) : M (A * CRedisClient) :=
  let* this := lock_client this in
  let* (r, this) := body this in
  ret (r, unlock_client this).

(** Use of a member that may not have been set. *)
Definition initialised {A} (x : option A) : M A :=
  match x with Some a => ret a | None => crash Uninitialised end.

Section client.
Context `{Strerror} `{FloatFmt}.

(** * Connecting *)

Definition delete_CRedisClient (this : CRedisClient) : M unit :=
  let* (_, _) := guarded this (fun this =>
    match m_pRedisContext this with
    | Some c => let* _ := redisFree c in ret (tt, set_context None this)
    | None => ret (tt, this)
    end) in
  ret tt.

Definition OnConnect (tvl : timeval) (this : CRedisClient) : M (bool * CRedisClient) :=
  let* port := initialised (m_port this) in
  let* c := redisConnectWithTimeout (cstring (m_address this)) port tvl in
  let this := set_context (Some c) this in
  if negb (c_err c =? 0) then
    let* _ := redisFree c in
    ret (false, set_context None this)
  else ret (true, this).

Definition FIRST_TIMEOUT : timeval := (1, 500000).
Definition RETRY_TIMEOUT : timeval := (0, 500000).

Definition OnInit (address : list char) (port : Z) (this : CRedisClient) : M (bool * CRedisClient) :=
  OnConnect FIRST_TIMEOUT (set_target address port this).

Definition ReConnect (this : CRedisClient) : M (bool * CRedisClient) :=
  guarded this (fun this =>
    let* this := match m_pRedisContext this with
                 | Some c => let* _ := redisFree c in ret (set_context None this)
                 | None => ret this
                 end in
    OnConnect RETRY_TIMEOUT this).

(** * Commands *)

(** [redisCommand(m_pRedisContext, cmd.c_str())]: the command is the format, and
    no arguments follow it.  Every path of [redisCommand] uses the context. *)
Definition redis_command (this : CRedisClient) (cmd : list char) : M (option objptr * CRedisClient) :=
  let* c := deref (m_pRedisContext this) in
  let* (reply, c) := redisCommand c (cmd ++ [NUL]) (mkVa [] []) in
  ret (reply, set_context (Some c) this).

Definition ExecCommand (cmd : list char) (this : CRedisClient) : M (Z * CRedisClient) :=
  guarded this (fun this =>
    let* (pReply, this) := redis_command this cmd in
    match pReply with
    | Some r => let* _ := freeReplyObject r in ret (0, this)
    | None => ret (-1, this)
    end).

(** The overload for a string. *)
Definition ExecCommand_string (cmd : list char) (result : list char) (this : CRedisClient)
  : M (Z * list char * CRedisClient) :=
  guarded this (fun this =>
    let* (pReply, this) := redis_command this cmd in
    match pReply with
    | Some r =>
        let* o := reply_obj r in
        let* (iRet, result) :=
          (if rp_type o =? REDIS_REPLY_STRING then
             match rp_str o with
             | Some str => let* s := lift (to_string str) in ret (0, s)
             | None => ret (-1, result)
             end
           else ret (-1, result)) in
        let* _ := freeReplyObject r in
        ret (iRet, result, this)
    | None => ret (-1, result, this)
    end).

(** The overload for a number, which is narrowed to an [int]. *)
Definition ExecCommand_int (cmd : list char) (result : Z) (this : CRedisClient) : M (Z * Z * CRedisClient) :=
  guarded this (fun this =>
    let* (pReply, this) := redis_command this cmd in
    match pReply with
    | Some r =>
        let* o := reply_obj r in
        let '(iRet, result) := if rp_type o =? REDIS_REPLY_INTEGER then (0, int (rp_integer o)) else (-1, result) in
        let* _ := freeReplyObject r in
        ret (iRet, result, this)
    | None => ret (-1, result, this)
    end).

(** [pReply->element[i]]. *)
Definition element_at (o : redisReply) (i : nat) : M (option loc) :=
  let* v := deref (rp_element o) in
  match v !! i with Some e => ret e | None => crash OutOfBounds end.

(** The loops over the elements, of which [n] are left from [i] on. *)
Fixpoint ints_loop (n i : nat) (o : redisReply) (result : list Z) : M (list Z) :=
  match n with
  | O => ret result
  | S n' =>
      let* pTmp := element_at o i in
      let* result := match pTmp with
                     | Some l =>
                         let* t := get_obj l in
                         ret (if rp_type t =? REDIS_REPLY_INTEGER then result ++ [int (rp_integer t)] else result)
                     | None => ret result
                     end in
      ints_loop n' (S i) o result
  end.

Fixpoint strings_loop (n i : nat) (o : redisReply) (iRet : Z) (result : list (list char))
  : M (Z * list (list char)) :=
  match n with
  | O => ret (iRet, result)
  | S n' =>
      let* pTmp := element_at o i in
      let* (iRet, result) :=
        match pTmp with
        | Some l =>
            let* t := get_obj l in
            if rp_type t =? REDIS_REPLY_STRING then
              match rp_str t with
              | Some str => let* Tmp := lift (to_string str) in ret (0, result ++ [Tmp])
              | None => ret (iRet, result)
              end
            else ret (iRet, result)
        | None => ret (iRet, result)
        end in
      strings_loop n' (S i) o iRet result
  end.

(** The overload for numbers clears the vector first, before the lock. *)
Definition ExecCommand_ints (cmd : list char) (result : list Z) (this : CRedisClient) : M (Z * list Z * CRedisClient) :=
  let result := [] in
  guarded this (fun this =>
    let* (pReply, this) := redis_command this cmd in
    match pReply with
    | Some r =>
        let* o := reply_obj r in
        let* (iRet, result) :=
          (if rp_type o =? REDIS_REPLY_ARRAY then
             let* result := ints_loop (Z.to_nat (rp_elements o)) 0 o result in ret (0, result)
           else ret (-1, result)) in
        let* _ := freeReplyObject r in
        ret (iRet, result, this)
    | None => ret (-1, result, this)
    end).

(** The overload for strings appends to the vector, and succeeds when there is
    at least one string. *)
Definition ExecCommand_strings (cmd : list char) (result : list (list char)) (this : CRedisClient)
  : M (Z * list (list char) * CRedisClient) :=
  guarded this (fun this =>
    let* (pReply, this) := redis_command this cmd in
    match pReply with
    | Some r =>
        let* o := reply_obj r in
        let* (iRet, result) :=
          (if rp_type o =? REDIS_REPLY_ARRAY then strings_loop (Z.to_nat (rp_elements o)) 0 o (-1) result
           else ret (-1, result)) in
        let* _ := freeReplyObject r in
        ret (iRet, result, this)
    | None => ret (-1, result, this)
    end).

(** The overloads for a [const char*] make a string of it first. *)
Definition exec_c_str {A} (cmd : list char) (exec : list char -> M A) : M A :=
  let* req := lift (to_string cmd) in exec req.

(** * Is the server there? *)

Definition PING : list char := lit "PING".
Definition MAX_RECONNECTS : Z := 3.

Definition TestOnline (this : CRedisClient) : M (bool * CRedisClient) :=
  let* this := lock_client this in
  let* (pReply, this) := redis_command this PING in
  match pReply with
  | Some r =>
      let this := unlock_client this in
      let* _ := freeReplyObject r in
      ret (true, this)
  | None =>
      let this := unlock_client this in
      let* (ok, this) := ReConnect this in
      if ok : bool then ret (true, set_reconnects 0 this)
      else
        let* n := initialised (m_iReconnectCount this) in
        let* n := lift (int_ok (n + 1)) in
        ret (n <=? MAX_RECONNECTS, set_reconnects n this)
  end.
End client.

(** * The texts of commands (CUtilRedis.cpp) *)

Definition SPACE : list char := [32].

Definition MakeGetRedisCmd (key : list char) : list char := lit "GET " ++ key.
Definition MakeSetRedisCmd (key value : list char) : list char := lit "SET " ++ key ++ SPACE ++ value.
Definition MakeSAddRedisCmd (key value : list char) : list char := lit "SADD " ++ key ++ SPACE ++ value.

(** [header.substr(0,4) + arg]. *)
Definition MakeOneKey (header arg : list char) : outcome (list char) :=
  let! h := substr_n header 0 4 in
  let! a := to_string arg in
  Ok (h ++ a).
