(* ===== verification/RedisClientSpec.v ===== *)
(** The Redis client of the server: what a command sends and what each overload
    of [ExecCommand] makes of the reply; connecting, and what happens when the
    server is gone. *)

From stdpp Require Import base tactics list numbers strings gmap.
From S2P Require Import Prelude Machine Printf Sds Reply Reader ReaderSpec ReaderStream ReplyTree.
From S2P Require Import Format Net Context Session Text RedisClient.

Local Open Scope Z_scope.

(** * Commands as text *)

(** A text without conversions. *)
Definition plain (cmd : list char) : Prop := Forall (fun x => x <> NUL /\ x <> 37) cmd.

(** The words of a command, as its format separates them. *)
Definition text_pieces (cmd : list char) : list piece := (fun x => if x =? 32 then Sep else Bytes [x]) <$> cmd.
Definition words (cmd : list char) : list (list char) := pieces_args [] false (text_pieces cmd).

(** A word. *)
Definition word_ok (k : list char) : Prop := k <> [] /\ Forall (fun x => x <> NUL /\ x <> 37 /\ x <> 32) k.

Lemma word_plain k : word_ok k -> plain k.
Proof. intros [_ Hk]. eapply Forall_impl; [done|]. cbn. tauto. Qed.

Lemma pieces_word k rest cur (t : bool) : Forall (fun x => x <> NUL /\ x <> 37 /\ x <> 32) k ->
  pieces_args cur t (text_pieces (k ++ rest)) = pieces_args (cur ++ k) (t || negb (bool_decide (k = []))) (text_pieces rest).
Proof.
  intros Hk. revert cur t. induction Hk as [|x k (_ & _ & Hx) _ IH]; intros cur t.
  - by rewrite app_nil_r, orb_false_r.
  - cbn [app text_pieces fmap list_fmap]. rewrite (proj2 (Z.eqb_neq x 32)) by done. cbn [pieces_args].
    fold (text_pieces (k ++ rest)). rewrite IH, <- app_assoc. cbn. by rewrite orb_true_r.
Qed.

Lemma words_cons k rest : word_ok k -> words (k ++ 32 :: rest) = k :: words rest.
Proof.
  intros [Hne Hk]. unfold words. rewrite pieces_word by done. rewrite bool_decide_false by done. done.
Qed.

Lemma words_last k : word_ok k -> words k = [k].
Proof.
  intros [Hne Hk]. unfold words. rewrite <- (app_nil_r k) at 1. rewrite pieces_word by done.
  rewrite bool_decide_false by done. done.
Qed.

(** The commands of [CUtilRedis]. *)
Lemma words_get key : word_ok key -> words (MakeGetRedisCmd key) = [lit "GET"; key].
Proof.
  intros Hk. change (MakeGetRedisCmd key) with (lit "GET" ++ 32 :: key).
  rewrite words_cons, words_last; [done..|]. split; [done|]. repeat constructor; done.
Qed.

Lemma words_set key value : word_ok key -> word_ok value ->
  words (MakeSetRedisCmd key value) = [lit "SET"; key; value].
Proof.
  intros Hk Hv. change (MakeSetRedisCmd key value) with (lit "SET" ++ 32 :: (key ++ 32 :: value)).
  rewrite !words_cons, words_last; [done..|]. split; [done|]. repeat constructor; done.
Qed.

Lemma words_sadd key value : word_ok key -> word_ok value ->
  words (MakeSAddRedisCmd key value) = [lit "SADD"; key; value].
Proof.
  intros Hk Hv. change (MakeSAddRedisCmd key value) with (lit "SADD" ++ 32 :: (key ++ 32 :: value)).
  rewrite !words_cons, words_last; [done..|]. split; [done|]. repeat constructor; done.
Qed.

Lemma expands_plain `{FloatFmt} cmd ap : plain cmd -> expands (cmd ++ [NUL]) ap (text_pieces cmd).
Proof.
  intros Hp. induction Hp as [|x cmd [Hn Hp] _ IH]; [apply ex_end|].
  cbn [app text_pieces fmap list_fmap]. destruct (Z.eqb_spec x 32) as [->|Hs]; [by apply ex_space|].
  by apply ex_char; [| |left|].
Qed.

(** The text of a command is short enough to be formatted. *)
Definition fits (cmd : list char) : Prop :=
  2 * zlen (concat (bulk <$> words cmd)) <= INT_MAX /\ 2 * zlen (command (words cmd)) <= INT_MAX.

(** * A command and its reply *)

(** What each overload makes of the reply [v]. *)
Definition string_answer (v : value) (result : list char) : Z * list char :=
  match v with VBulk s => (0, cstring s) | _ => (-1, result) end.
Definition int_answer (v : value) (result : Z) : Z * Z :=
  match v with VInteger z => (0, int z) | _ => (-1, result) end.
Definition as_int (v : value) : option Z := match v with VInteger z => Some (int z) | _ => None end.
Definition as_string (v : value) : option (list char) := match v with VBulk s => Some (cstring s) | _ => None end.
Definition ints_answer (v : value) : Z * list Z :=
  match v with VArray vs => (0, omap as_int vs) | _ => (-1, []) end.
Definition strings_answer (v : value) (result : list (list char)) : Z * list (list char) :=
  match v with
  | VArray vs => let ss := omap as_string vs in (if bool_decide (ss = []) then -1 else 0, result ++ ss)
  | _ => (-1, result)
  end.

Lemma to_string_nul s : to_string (s ++ [NUL]) = Ok (cstring s).
Proof.
  unfold to_string. assert (exists n, strlen (s ++ [NUL]) = Some n) as [n ->].
  { induction s as [|x s [n IH]]; cbn; [eauto|]. destruct (x =? NUL); [eauto|]. rewrite IH. cbn. eauto. }
  f_equal. induction s as [|x s IH]; [done|]. cbn. destruct (x =? NUL); [done|]. by rewrite IH.
Qed.

(** The object of a value, and the store that holds all its objects. *)
Definition root (l : loc) (v : value) : redisReply :=
  match v with
  | VStatus s => str_obj REDIS_REPLY_STATUS s
  | VError s => str_obj REDIS_REPLY_ERROR s
  | VInteger z => mkReply REDIS_REPLY_INTEGER z 0 None 0 None
  | VBulk s => str_obj REDIS_REPLY_STRING s
  | VNilBulk | VNilArray => mkReply REDIS_REPLY_NIL 0 0 None 0 None
  | VArray [] => mkReply REDIS_REPLY_ARRAY 0 0 None 0 None
  | VArray vs => arr_obj (zlen vs) (Some <$> locs (S l) vs)
  end.
Definition lies (l : loc) (rs : list redisReply) (w : world) : Prop := map_seq l rs ⊆ w_objs w.

Lemma lies_cons l r rs w : lies l (r :: rs) w -> w_objs w !! l = Some r /\ lies (S l) rs w.
Proof.
  unfold lies. cbn [map_seq]. intros Hl. split; [eapply lookup_weaken; [|done]; apply lookup_insert_eq|].
  etrans; [|done]. apply insert_subseteq, map_seq_lookup_lt. lia.
Qed.

Lemma lies_app l rs1 rs2 w : lies l (rs1 ++ rs2) w -> lies l rs1 w /\ lies (l + length rs1) rs2 w.
Proof.
  revert l. induction rs1 as [|r rs1 IH]; intros l Hl; cbn [app length] in *.
  - split; [apply map_empty_subseteq|]. by rewrite Nat.add_0_r.
  - pose proof Hl as Hl0. apply lies_cons in Hl as [Hr Hl]. destruct (IH _ Hl) as [H1 H2]. split.
    + unfold lies. cbn [map_seq]. by apply insert_subseteq_l.
    + by rewrite Nat.add_succ_r.
Qed.

Lemma get_root l v w : lies l (layout l v) w -> get_obj l w = Ok (root l v, w).
Proof.
  intros Hl. assert (exists rs, layout l v = root l v :: rs) as [rs E].
  { destruct v as [s|s|z|s| | |[|v vs]]; eexists; reflexivity. }
  rewrite E in Hl. apply lies_cons in Hl as [Hr _]. unfold get_obj. by rewrite Hr.
Qed.

Section loops.
Variables (o : redisReply) (w : world).

(** What the loops do with the element at [i]. *)
Lemma element_ok pre m v rest :
  rp_element o = Some (pre ++ (Some <$> locs m (v :: rest))) -> lies m (layouts layout m (v :: rest)) w ->
  element_at o (length pre) w = Ok (Some m, w) /\ get_obj m w = Ok (root m v, w) /\
  rp_element o = Some ((pre ++ [Some m]) ++ (Some <$> locs (m + objects v) rest)) /\
  lies (m + objects v) (layouts layout (m + objects v) rest) w.
Proof.
  intros Ho Hl. cbn [layouts] in Hl. apply lies_app in Hl as [Hv Hr]. rewrite length_layout in Hr.
  split_and!; [|by apply get_root|by rewrite Ho, <- app_assoc|done].
  unfold element_at. rewrite Ho. erewrite (bind_ok (deref (Some _))) by reflexivity. cbn [locs fmap list_fmap].
  by rewrite list_lookup_middle.
Qed.

Lemma ints_loop_ok rest pre m result :
  rp_element o = Some (pre ++ (Some <$> locs m rest)) -> lies m (layouts layout m rest) w ->
  ints_loop (length rest) (length pre) o result w = Ok (result ++ omap as_int rest, w).
Proof.
  revert pre m result. induction rest as [|v rest IH]; intros pre m result Ho Hl; cbn [length ints_loop].
  - by rewrite app_nil_r.
  - destruct (element_ok pre m v rest Ho Hl) as (E1 & E2 & Ho' & Hl').
    rewrite (bind_ok _ _ _ _ _ E1), bind_assoc, (bind_ok _ _ _ _ _ E2).
    rewrite (bind_ok (ret _)) with (1 := eq_refl).
    replace (S (length pre)) with (length (pre ++ [Some m])) by (rewrite length_app; cbn; lia).
    rewrite (IH _ _ _ Ho' Hl'). do 2 f_equal.
    destruct v as [s|s|z|s| | |[|x xs]]; cbn; try done. by rewrite <- app_assoc.
Qed.

Lemma strings_loop_ok rest pre m (iRet : Z) result :
  rp_element o = Some (pre ++ (Some <$> locs m rest)) -> lies m (layouts layout m rest) w ->
  strings_loop (length rest) (length pre) o iRet result w =
    Ok (if bool_decide (omap as_string rest = []) then iRet else 0, result ++ omap as_string rest, w).
Proof.
  revert pre m iRet result. induction rest as [|v rest IH]; intros pre m iRet result Ho Hl; cbn [length strings_loop].
  - by rewrite app_nil_r.
  - destruct (element_ok pre m v rest Ho Hl) as (E1 & E2 & Ho' & Hl').
    rewrite (bind_ok _ _ _ _ _ E1), bind_assoc, (bind_ok _ _ _ _ _ E2).
    assert (forall i' r', strings_loop (length rest) (S (length pre)) o i' r' w =
      Ok (if bool_decide (omap as_string rest = []) then i' else 0, r' ++ omap as_string rest, w)) as IH'.
    { intros i' r'. replace (S (length pre)) with (length (pre ++ [Some m])) by (rewrite length_app; cbn; lia).
      by eapply IH. }
    destruct v as [s|s|z|s| | |[|x xs]]; cbn [root rp_type rp_str str_obj arr_obj omap list_omap as_string]; try exact (IH' _ _).
    change (REDIS_REPLY_STRING =? REDIS_REPLY_STRING) with true. cbv iota.
    rewrite bind_assoc, (bind_ok (lift _) _ w (cstring s) w) by (by rewrite to_string_nul).
    rewrite (bind_ok (ret _)) with (1 := eq_refl). cbn beta iota. rewrite IH', <- app_assoc. cbn [app].
    rewrite (bool_decide_false (_ :: _ = [])) by done. by case_bool_decide.
Qed.
End loops.

Section queries.
Context `{Strerror} `{FloatFmt}.

(** The client has an idle connection. *)
Record serves (this : CRedisClient) (c : redisContext) : Prop := {
  sv_context : m_pRedisContext this = Some c;
  sv_locker : m_locker this = false;
  sv_quiescent : quiescent c;
  sv_pending : pending c []
}.

(** The kernel and the server: the command [cmd] is taken in the steps [writes]
    and the reply [v] arrives in the pieces [xs]. *)
Record answered_by (cmd : list char) (v : value) (w : world) (os : list sysret) : Prop := {
  an_plain : plain cmd;
  an_fits : fits cmd;
  an_value : value_ok 2 v;
  an_size : 2 * (CONSUMED + zlen (encode v)) <= INT_MAX;
  an_calls : exists writes xs answers, concat xs = encode v /\ flushes writes (zlen (command (words cmd))) /\
    Forall2 delivers answers xs /\ w_os w = writes ++ answers ++ os
}.

(** The world with the reply in the store, and after its release. *)
Definition replied (v : value) (os : list sysret) (t : list (syscall * Z)) (w : world) : world :=
  io os (w_trace w ++ t) (w_errno w) (stored [v] w).
Definition released (v : value) (os : list sysret) (t : list (syscall * Z)) (w : world) : world :=
  set_next (w_next w + objects v) (io os (w_trace w ++ t) (w_errno w) w).

Lemma world_eq w1 w2 :
  w_alloc w1 = w_alloc w2 -> w_junk w1 = w_junk w2 -> w_live w1 = w_live w2 -> w_objs w1 = w_objs w2 ->
  w_next w1 = w_next w2 -> w_errno w1 = w_errno w2 -> w_os w1 = w_os w2 -> w_trace w1 = w_trace w2 -> w1 = w2.
Proof. destruct w1, w2. cbn. by intros -> -> -> -> -> -> -> ->. Qed.

Lemma replied_objs v os t w : w_objs (replied v os t w) = map_seq (w_next w) (layout (w_next w) v) ∪ w_objs w.
Proof. cbn. by rewrite app_nil_r. Qed.

Lemma replied_lies v os t w : lies (w_next w) (layout (w_next w) v) (replied v os t w).
Proof. unfold lies. rewrite replied_objs. apply map_union_subseteq_l. Qed.

Lemma replied_free v os t w : fresh_above w ->
  freeReplyObject (Obj (w_next w)) (replied v os t w) = Ok (tt, released v os t w).
Proof.
  intros Hf. rewrite (freeReplyObject_ok v (w_next w) (w_objs w)); [|by apply fresh_vacant|apply replied_objs].
  do 2 f_equal. apply world_eq; try reflexivity; cbn; lia.
Qed.

Lemma released_fresh v os t w : fresh_above w -> fresh_above (released v os t w).
Proof. intros Hf j Hj. apply Hf. cbn in Hj. lia. Qed.

(** A plain text is appended to the output buffer. *)
Lemma append_plain c cmd w : quiescent c -> pending c [] -> plain cmd -> fits cmd -> no_oom w ->
  exists c1, redisvAppendCommand c (cmd ++ [NUL]) (mkVa [] []) w = Ok (REDIS_OK, c1, w) /\
    quiescent c1 /\ pending c1 (command (words cmd)) /\ c_fd c1 = c_fd c.
Proof.
  intros Hq Hp Hpl [Hf1 Hf2] Hw.
  assert (formats (redisvFormatCommand true (cmd ++ [NUL]) (mkVa [] [])) w (command (words cmd))) as Hform.
  { apply (format_command_ok _ _ (text_pieces cmd)); [by apply expands_plain|exact Hf1|].
    fold (words cmd). climits. }
  destruct (append_formatted_ok _ c [] (command (words cmd)) w Hform Hp Hf2)
    as (st & c1 & w1 & E & Ha & Hlv & Hfd & Hflags & Hrd & Hcase).
  destruct Hcase as [(-> & Hp1 & He1)|(_ & _ & _ & Hno)]; [|done].
  apply (alloc_only_add_live_eq 0 w w1 Hw) in Ha as ->; [|lia]. rewrite add_live_0 in E.
  exists c1. split_and!; [done|by eapply quiescent_append|done|done].
Qed.

(** [redisCommand] on a plain text. *)
Lemma redis_command_ok this c cmd v w os :
  serves this c -> answered_by cmd v w os -> no_oom w ->
  exists c' t, let this' := set_context (Some c') this in
    redis_command (set_locker true this) cmd w =
      Ok (Some (Obj (w_next w)), set_locker true this', replied v os t w) /\
    sent (c_fd c) t = command (words cmd) /\ forallb quiet t = true /\ serves this' c' /\ c_fd c' = c_fd c.
Proof.
  intros [Hc Hl Hq Hp] [Hpl Hf Hv Hs (writes & xs & answers & Hcat & Hfl & Hans & Hos)] Hw.
  unfold redis_command. cbn [m_pRedisContext set_locker]. rewrite Hc. erewrite (bind_ok (deref (Some c))) by reflexivity.
  destruct (append_plain c cmd w Hq Hp Hpl Hf Hw) as (c1 & E & Hq1 & Hp1 & Hfd).
  destruct (block_for_reply_ok c1 (words cmd) v xs writes answers os w) as (c2 & t & E2 & Hsent & Hqt & Hp2 & Hq2 & Hfd2);
    try done.
  exists c2, t. rewrite Hfd in *. split_and!; [|done|done|by split|done].
  unfold redisCommand, redisvCommand. rewrite bind_assoc, (bind_ok _ _ _ _ _ E).
  change (negb (REDIS_OK =? REDIS_OK)) with false. cbn iota. by rewrite (bind_ok _ _ _ _ _ E2).
Qed.

Lemma set_locker_id this : m_locker this = false -> set_locker false (set_locker true this) = this.
Proof. destruct this. cbn. by intros ->. Qed.

(** A method that runs a command under the lock, looks at the reply without
    changing anything and releases it. *)
Lemma guarded_query {A} this c' cmd r w w1 w2 (a : A) (body : option objptr * CRedisClient -> M (A * CRedisClient)) :
  let this' := set_context (Some c') this in
  m_locker this = false ->
  redis_command (set_locker true this) cmd w = Ok (r, set_locker true this', w1) ->
  body (r, set_locker true this') w1 = Ok (a, set_locker true this', w2) ->
  guarded this (fun this => let* r := redis_command this cmd in body r) w = Ok (a, this', w2).
Proof.
  intros this' Hl E Ha. unfold guarded, lock_client. rewrite Hl.
  rewrite (bind_ok (ret _)) with (1 := eq_refl). rewrite bind_assoc, (bind_ok _ _ _ _ _ E), (bind_ok _ _ _ _ _ Ha).
  unfold ret, unlock_client. by rewrite (set_locker_id this').
Qed.

(** ** What the overloads look at *)

Section reply.
Variables (v : value) (w w1 w2 : world) (this : CRedisClient).
Hypothesis (Hlies : lies (w_next w) (layout (w_next w) v) w1).
Hypothesis (Hfree : freeReplyObject (Obj (w_next w)) w1 = Ok (tt, w2)).

Lemma reply_root : reply_obj (Obj (w_next w)) w1 = Ok (root (w_next w) v, w1).
Proof. by apply get_root. Qed.

Lemma look_body {X} (look : redisReply -> M (Z * X)) a :
  look (root (w_next w) v) w1 = Ok (a, w1) ->
  (let* o := reply_obj (Obj (w_next w)) in
   let* (iRet, result) := look o in
   let* _ := freeReplyObject (Obj (w_next w)) in
   ret (iRet, result, this)) w1 = Ok (a, this, w2).
Proof.
  intros E. rewrite (bind_ok _ _ _ _ _ reply_root), (bind_ok _ _ _ _ _ E). destruct a as [i x].
  by rewrite (bind_ok _ _ _ _ _ Hfree).
Qed.

Lemma look_string result :
  (if rp_type (root (w_next w) v) =? REDIS_REPLY_STRING then
     match rp_str (root (w_next w) v) with
     | Some str => let* s := lift (to_string str) in ret (0, s)
     | None => ret (-1, result)
     end
   else ret (-1, result)) w1 = Ok (string_answer v result, w1).
Proof.
  destruct v as [s|s|z|s| | |[|x xs]]; try done. cbn [root rp_type rp_str str_obj].
  change (REDIS_REPLY_STRING =? REDIS_REPLY_STRING) with true. cbv iota.
  by rewrite (bind_ok (lift _) _ w1 (cstring s) w1) by (by rewrite to_string_nul).
Qed.

Lemma look_ints :
  (if rp_type (root (w_next w) v) =? REDIS_REPLY_ARRAY then
     let* result := ints_loop (Z.to_nat (rp_elements (root (w_next w) v))) 0 (root (w_next w) v) [] in ret (0, result)
   else ret (-1, [])) w1 = Ok (ints_answer v, w1).
Proof.
  destruct v as [s|s|z|s| | |[|x xs]]; try done. destruct (lies_cons _ _ _ _ Hlies) as [_ Hl].
  pose proof (ints_loop_ok (root (w_next w) (VArray (x :: xs))) w1 (x :: xs) [] (S (w_next w)) [] eq_refl Hl) as E.
  change (rp_type _ =? REDIS_REPLY_ARRAY) with true. cbv iota.
  replace (Z.to_nat (rp_elements _)) with (length (x :: xs)) by (cbn [root rp_elements arr_obj]; lia).
  by rewrite (bind_ok _ _ _ _ _ E).
Qed.

Lemma look_strings result :
  (if rp_type (root (w_next w) v) =? REDIS_REPLY_ARRAY then
     strings_loop (Z.to_nat (rp_elements (root (w_next w) v))) 0 (root (w_next w) v) (-1) result
   else ret (-1, result)) w1 = Ok (strings_answer v result, w1).
Proof.
  destruct v as [s|s|z|s| | |[|x xs]]; try done.
  - cbn. by rewrite app_nil_r.
  - destruct (lies_cons _ _ _ _ Hlies) as [_ Hl]. change (rp_type _ =? REDIS_REPLY_ARRAY) with true. cbv iota.
    replace (Z.to_nat (rp_elements _)) with (length (x :: xs)) by (cbn [root rp_elements arr_obj]; lia).
    apply (strings_loop_ok (root (w_next w) (VArray (x :: xs))) w1 (x :: xs) [] (S (w_next w)) (-1) result eq_refl Hl).
Qed.

Lemma int_body result :
  (let* o := reply_obj (Obj (w_next w)) in
   let '(iRet, result) := if rp_type o =? REDIS_REPLY_INTEGER then (0, int (rp_integer o)) else (-1, result) in
   let* _ := freeReplyObject (Obj (w_next w)) in
   ret (iRet, result, this)) w1 = Ok (int_answer v result, this, w2).
Proof.
  rewrite (bind_ok _ _ _ _ _ reply_root).
  destruct v as [s|s|z|s| | |[|x xs]]; cbn [root rp_type rp_integer str_obj arr_obj];
    (change (?a =? REDIS_REPLY_INTEGER) with false || change (?a =? REDIS_REPLY_INTEGER) with true); cbv iota;
    by rewrite (bind_ok _ _ _ _ _ Hfree).
Qed.
End reply.

(** A command and its reply, for all overloads. *)
Lemma query_ok this c cmd v w os :
  serves this c -> answered_by cmd v w os -> no_oom w -> fresh_above w ->
  exists c' t, let this' := set_context (Some c') this in let w' := released v os t w in
    sent (c_fd c) t = command (words cmd) /\ serves this' c' /\ c_fd c' = c_fd c /\ fresh_above w' /\
    ExecCommand cmd this w = Ok (0, this', w') /\
    (forall result, ExecCommand_string cmd result this w = Ok (string_answer v result, this', w')) /\
    (forall result, ExecCommand_int cmd result this w = Ok (int_answer v result, this', w')) /\
    (forall result, ExecCommand_ints cmd result this w = Ok (ints_answer v, this', w')) /\
    (forall result, ExecCommand_strings cmd result this w = Ok (strings_answer v result, this', w')).
Proof.
  intros Hsv Hans Hw Hfr. destruct (redis_command_ok this c cmd v w os Hsv Hans Hw) as (c' & t & E & Hsent & _ & Hsv' & Hfd).
  exists c', t. cbv zeta in *. pose proof (sv_locker _ _ Hsv) as Hl.
  pose proof (replied_lies v os t w) as Hlies. pose proof (replied_free v os t w Hfr) as Hfree.
  split_and!; [done..|by apply released_fresh| | | | |]; [|intros result..].
  - eapply guarded_query; [done|exact E|]. cbn beta iota. by rewrite (bind_ok _ _ _ _ _ Hfree).
  - eapply guarded_query; [done|exact E|]. cbn beta iota. by eapply look_body, look_string.
  - eapply guarded_query; [done|exact E|]. cbn beta iota. by eapply int_body.
  - eapply guarded_query; [done|exact E|]. cbn beta iota. by eapply look_body, look_ints.
  - eapply guarded_query; [done|exact E|]. cbn beta iota. by eapply look_body, look_strings.
Qed.

(** C30: a command of the server's Redis client, end to end.  On an idle
    connection every overload of [ExecCommand] sends exactly the words of its
    text in the protocol's encoding, whatever writes the kernel makes of it,
    waits for the reply [v] however it is cut, and returns what [v] holds for
    the type that was asked for: its string up to the first NUL, its number as
    an [int], the numbers or the strings among its elements; -1 and the caller's
    value when there is none.  The reply is released, the lock is free, and the
    connection is idle again. *)
Theorem redis_query this c cmd v w os :
  serves this c -> answered_by cmd v w os -> no_oom w -> fresh_above w ->
  exists c' t, let this' := set_context (Some c') this in let w' := released v os t w in
    sent (c_fd c) t = command (words cmd) /\ serves this' c' /\ c_fd c' = c_fd c /\ fresh_above w' /\
    ExecCommand cmd this w = Ok (0, this', w') /\
    (forall result, ExecCommand_string cmd result this w = Ok (string_answer v result, this', w')) /\
    (forall result, ExecCommand_int cmd result this w = Ok (int_answer v result, this', w')) /\
    (forall result, ExecCommand_ints cmd result this w = Ok (ints_answer v, this', w')) /\
    (forall result, ExecCommand_strings cmd result this w = Ok (strings_answer v result, this', w')).
Proof. apply query_ok. Qed.
End queries.

(** * Connecting *)

Section connecting.
Context `{Strerror} `{FloatFmt}.

(** The calls [t] led from [w] to [w']; [d] blocks more are live. *)
Record ran (d : Z) (w : world) (t : list (syscall * Z)) (w' : world) : Prop := {
  rn_alloc : w_alloc w' = w_alloc w;
  rn_live : w_live w' = w_live w + d;
  rn_objs : w_objs w' = w_objs w;
  rn_next : w_next w' = w_next w;
  rn_trace : w_trace w' = w_trace w ++ t
}.

Lemma ran_app d1 d2 w1 t1 w2 t2 w3 : ran d1 w1 t1 w2 -> ran d2 w2 t2 w3 -> ran (d1 + d2) w1 (t1 ++ t2) w3.
Proof. intros [? ? ? ? E1] [? ? ? ? E2]. split; try congruence; [lia|]. by rewrite E2, E1, app_assoc. Qed.

Lemma ran_calls w t w' d : calls (add_live d w) t w' -> ran d w t w'.
Proof. intros [? ? ? ? ? ?]. by split. Qed.

Lemma ran_no_oom d w t w' : ran d w t w' -> no_oom w -> no_oom w'.
Proof. intros [E _ _ _ _]. unfold no_oom. by rewrite E. Qed.

(** The kernel answers every call of a connection, with small descriptors. *)
Definition kernel_answers (w : world) : Prop :=
  (10 <= length (w_os w))%nat /\ forall a os, w_os w = a :: os -> sr_val a < FD_SETSIZE.

(** The client is connected, or it has no context; the descriptors are
    accounted for. *)
Definition connects (this : CRedisClient) (d : Z) (w : world) (m : M (bool * CRedisClient)) : Prop :=
  exists ok this' w' t, m w = Ok (ok, this', w') /\ forall l,
    if ok : bool then
      exists c, this' = set_context (Some c) this /\ quiescent c /\ pending c [] /\
        0 <= c_fd c < FD_SETSIZE /\ fds_after l t = Some (c_fd c :: l) /\ ran (d + 4) w t w'
    else this' = set_context None this /\ fds_after l t = Some l /\ ran d w t w'.

Lemma connected_quiescent s b r :
  holds 0 r (start fresh_core) [] -> sds_wf b -> sds_str b = [] ->
  let c := connected s (set_block true (mkContext 0 [] 0 0 (Some b) (Some r))) in quiescent c /\ pending c [].
Proof.
  intros Hh Hb Hs c. split; [|by exists b]. split; [done|done|]. exists r, fresh_core.
  split_and!; [done|eapply holds_mono; [|done]; done|apply fresh_idle].
Qed.

Lemma OnConnect_ok tvl this port w :
  m_port this = Some port -> no_oom w -> kernel_answers w -> connects this 0 w (OnConnect tvl this).
Proof.
  intros Hport Hw [Hn Hfd]. unfold OnConnect. rewrite Hport. unfold connects.
  erewrite (bind_ok (initialised (Some port))) by reflexivity. unfold redisConnectWithTimeout, connect_with.
  destruct (redisContextInit_ok w Hw) as (b & r & E0 & Hb & Hs & Hh). rewrite bind_assoc, (bind_ok _ _ _ _ _ E0), bind_assoc.
  erewrite (bind_ok (deref (Some _))) by reflexivity. set (c0 := set_block true _).
  destruct (redisContextConnectTcp_does c0 (cstring (m_address this)) port (Some tvl) (add_live 4 w) Hfd Hn)
    as (res & w1 & t1 & E1 & C1 & _ & Hp).
  rewrite bind_assoc, (bind_ok _ _ _ _ _ E1). destruct res as [st c1]. rewrite (bind_ok (ret _)) with (1 := eq_refl). cbv zeta.
  destruct Hp as [(s & [= _ ->] & Hs0 & [Ho _])|(c' & [= _ ->] & (He & Hfd0 & _ & Hob & Hrd) & Ho)].
  - exists true, (set_context (Some (connected s c0)) this), w1, t1. split; [done|]. intros l.
    destruct (connected_quiescent s b r Hh Hb Hs) as [Hq Hpd]. exists (connected s c0).
    split_and!; [done|exact Hq|exact Hpd|apply Hs0|apply Hs0|apply Ho|by apply ran_calls].
  - rewrite (proj2 (Z.eqb_neq (c_err c') 0)) by done. cbn [negb].
    destruct (redisFree_ok c' b r w1 Hob Hrd Hh) as (t2 & E2 & ->). rewrite Hfd0 in E2. cbn in E2.
    rewrite (bind_ok _ _ _ _ _ E2). eexists false, _, _, t1. split; [reflexivity|]. intros l.
    split_and!; [done|apply Ho|]. change 0 with (4 + -4). rewrite <- (app_nil_r t1).
    eapply ran_app; [by apply ran_calls|]. by split.
Qed.

(** A quiescent context is released, with its descriptor. *)
Lemma quiescent_free c w l :
  quiescent c -> pending c [] -> 0 < c_fd c ->
  exists t, redisFree c w = Ok (tt, set_trace (w_trace w ++ t) (add_live (-4) w)) /\ fds_after (c_fd c :: l) t = Some l.
Proof.
  intros [_ _ (r & rc & Hr & Hh & Hid)] (b & Hob & _) Hfd.
  destruct (redisFree_holds c b r _ rc _ w Hob Hr Hh (id_reply _ Hid)) as (t & E & ->). rewrite (proj2 (Z.ltb_lt _ _) Hfd) in E.
  eexists. split; [exact E|]. apply fds_after_close.
Qed.

(** * A server that is gone *)

Lemma quiescent_peek c w : quiescent c ->
  exists r, redisGetReplyFromReader c w = Ok (REDIS_OK, None, set_c_reader (Some r) c, w) /\
    quiescent (set_c_reader (Some r) c).
Proof.
  intros [He Hb (r & rc & Hr & Hh & Hid)]. pose proof (holds_live _ _ _ _ Hh) as Hl.
  pose proof (redisReaderGetReply_post _ r _ [] w Hh) as Hg. rewrite run_nil in Hg by done.
  destruct Hg as (r1 & E & Hh1). exists r1. split.
  - unfold redisGetReplyFromReader. rewrite Hr. erewrite (bind_ok (deref (Some r))) by reflexivity.
    by rewrite (bind_ok _ _ _ _ _ E).
  - split; [done|done|]. by exists r1, rc.
Qed.

(** The answer of the kernel when the connection is closed or broken. *)
Definition hung_up (a : sysret) : Prop := sr_val a < 0 \/ sr_data a = [].

Lemma redisBufferRead_lost c a os t e w : c_err c = 0 -> has_flag c REDIS_BLOCK = true -> hung_up a ->
  exists c' e' n, redisBufferRead c (io (a :: os) t e w) =
      Ok (REDIS_ERR, c', io os (t ++ [(SysRead (c_fd c) READ_SIZE, n)]) e' w) /\ failed c c'.
Proof.
  intros He Hb Ha. unfold redisBufferRead. rewrite He. change (negb (0 =? 0)) with false. cbn iota.
  destruct (Z.ltb_spec (sr_val a) 0) as [Hneg|Hpos].
  - assert (sys_read (c_fd c) READ_SIZE (io (a :: os) t e w) =
      Ok (-1, [], io os (t ++ [(SysRead (c_fd c) READ_SIZE, -1)]) (sr_errno a) w)) as E.
    { unfold sys_read, next_answer, bind. cbn [w_os io set_errno set_trace set_os]. by rewrite (proj2 (Z.ltb_lt _ _) Hneg). }
    rewrite (bind_ok _ _ _ _ _ E). change (int (-1) =? -1) with true. cbn iota.
    rewrite (bind_ok errno) with (1 := eq_refl). rewrite Hb, andb_false_r.
    eexists _, _, _. split; [reflexivity|]. by split_and!.
  - destruct Ha as [|Hd]; [lia|].
    assert (sys_read (c_fd c) READ_SIZE (io (a :: os) t e w) =
      Ok (0, [], io os (t ++ [(SysRead (c_fd c) READ_SIZE, 0)]) e w)) as E.
    { unfold sys_read, next_answer, bind. cbn [w_os io set_errno set_trace set_os].
      rewrite (proj2 (Z.ltb_ge _ _)) by lia. by rewrite Hd, take_nil. }
    rewrite (bind_ok _ _ _ _ _ E). eexists _, _, _. split; [reflexivity|]. by split_and!.
Qed.

(** The command is written and the read fails. *)
Record hangs_up (cmd : list char) (w : world) (os : list sysret) : Prop := {
  hu_plain : plain cmd;
  hu_fits : fits cmd;
  hu_calls : exists writes a, flushes writes (zlen (command (words cmd))) /\ hung_up a /\ w_os w = writes ++ a :: os
}.

(** A context of which only the release is left. *)
Record spent (c c' : redisContext) : Prop := {
  sp_fd : c_fd c' = c_fd c;
  sp_obuf : exists b, c_obuf c' = Some b;
  sp_reader : exists r n rc, c_reader c' = Some r /\ holds n r (start rc) [] /\ r_reply rc = None
}.

Lemma redisGetReply_lost c out writes a os w :
  quiescent c -> pending c out -> no_oom w -> flushes writes (zlen out) -> hung_up a -> w_os w = writes ++ a :: os ->
  exists c' t e, redisGetReply c w = Ok (REDIS_ERR, None, c', io os (w_trace w ++ t) e w) /\
    forallb quiet t = true /\ spent c c'.
Proof.
  intros Hq Hp Hw Hfl Ha Hos. destruct (quiescent_peek c w Hq) as (r & E & [He Hb (r' & rc & Hr & Hh & Hid)]).
  set (c1 := set_c_reader (Some r) c) in *. unfold redisGetReply. rewrite (bind_ok _ _ _ _ _ E).
  change (REDIS_OK =? REDIS_ERR) with false. cbn beta iota. rewrite Hb, (bind_ok os_fuel) with (1 := eq_refl).
  destruct (write_loop_ok writes (S (length (w_os w))) c1 out (a :: os) (w_trace w) (w_errno w) w)
    as (b & t1 & Hb1 & _ & _ & Hq1 & E1); [done|exact Hp|done|done|rewrite Hos, length_app; lia|].
  rewrite <- Hos, io_id in E1. rewrite (bind_ok _ _ _ _ _ E1). change (REDIS_OK =? REDIS_ERR) with false. cbn beta iota.
  rewrite (bind_ok os_fuel) with (1 := eq_refl). cbn [read_loop].
  destruct (redisBufferRead_lost (set_c_obuf (Some b) c1) a os (w_trace w ++ t1) (w_errno w) w He Hb Ha)
    as (c2 & e2 & n & E2 & (_ & Hfd2 & _ & Hob2 & Hr2)).
  rewrite (bind_ok _ _ _ _ _ E2). change (REDIS_ERR =? REDIS_ERR) with true. cbn iota. eexists c2, _, e2.
  split; [by rewrite <- app_assoc|]. split; [by rewrite forallb_app, Hq1|].
  split; [done|by exists b|]. exists r', CONSUMED, rc. split_and!; [by rewrite Hr2|done|apply Hid].
Qed.

Lemma redis_command_lost this c cmd w os :
  serves this c -> hangs_up cmd w os -> no_oom w ->
  exists c' t e, redis_command (set_locker true this) cmd w =
      Ok (None, set_locker true (set_context (Some c') this), io os (w_trace w ++ t) e w) /\
    forallb quiet t = true /\ spent c c'.
Proof.
  intros [Hc Hl Hq Hp] [Hpl Hf (writes & a & Hfl & Ha & Hos)] Hw.
  unfold redis_command. cbn [m_pRedisContext set_locker]. rewrite Hc. erewrite (bind_ok (deref (Some c))) by reflexivity.
  destruct (append_plain c cmd w Hq Hp Hpl Hf Hw) as (c1 & E & Hq1 & Hp1 & Hfd).
  destruct (redisGetReply_lost c1 _ writes a os w Hq1 Hp1 Hw Hfl Ha Hos) as (c2 & t & e & E2 & Hqt & [Hfd2 Hob2 Hr2]).
  exists c2, t, e. split_and!; [|done|split; [congruence|done..]].
  unfold redisCommand, redisvCommand. rewrite bind_assoc, (bind_ok _ _ _ _ _ E).
  change (negb (REDIS_OK =? REDIS_OK)) with false. cbn iota. unfold __redisBlockForReply. rewrite (qu_block _ Hq1).
  rewrite bind_assoc, (bind_ok _ _ _ _ _ E2). done.
Qed.

(** The lock and the context of a client whose reconnection starts. *)
Lemma ReConnect_spent this c c' port w :
  m_locker this = false -> m_port this = Some port -> 0 < c_fd c -> spent c c' -> no_oom w -> kernel_answers w ->
  exists t1 w1 ok this2 w2, let idle_this := set_locker true (set_context None this) in
    OnConnect RETRY_TIMEOUT idle_this w1 = Ok (ok, this2, w2) /\ connects idle_this 0 w1 (OnConnect RETRY_TIMEOUT idle_this) /\
    w_os w1 = w_os w /\ ran (-4) w t1 w1 /\ (forall l, fds_after (c_fd c :: l) t1 = Some l) /\
    ReConnect (set_context (Some c') this) w = Ok (ok, set_locker false this2, w2).
Proof.
  intros Hl Hport Hfd [Hfd' (b & Hob) (r & n & rc & Hr & Hh & Hrep)] Hw Hk.
  destruct (redisFree_holds c' b r n rc [] w Hob Hr Hh Hrep) as (t1 & E1 & Ht1). rewrite Hfd', (proj2 (Z.ltb_lt _ _) Hfd) in Ht1.
  set (w1 := set_trace (w_trace w ++ t1) (add_live (-4) w)) in *. set (it := set_locker true (set_context None this)).
  pose proof (OnConnect_ok RETRY_TIMEOUT it port w1 Hport Hw Hk) as Hc.
  pose proof Hc as (ok & this2 & w2 & t2 & E2 & _). exists t1, w1, ok, this2, w2.
  split_and!; [exact E2|exact Hc|done|by split|by intros l; rewrite Ht1; apply fds_after_close|].
  unfold ReConnect, guarded, lock_client. cbn [m_locker set_context]. rewrite Hl.
  rewrite (bind_ok (ret _)) with (1 := eq_refl). cbn [m_pRedisContext set_context set_locker]. rewrite !bind_assoc.
  rewrite (bind_ok _ _ _ _ _ E1), (bind_ok (ret _)) with (1 := eq_refl). by rewrite (bind_ok _ _ _ _ _ E2).
Qed.

(** A client without a context. *)
Lemma no_context this cmd w : m_pRedisContext this = None -> m_locker this = false ->
  ExecCommand cmd this w = Fault NullDeref /\ TestOnline this w = Fault NullDeref.
Proof.
  intros Hc Hl. unfold ExecCommand, TestOnline, guarded, lock_client, redis_command. rewrite Hl. unfold bind, ret.
  cbn. by rewrite Hc.
Qed.

(** C39: the server is gone.  When [PING] finds the connection closed,
    [TestOnline] releases the context with its descriptor and tries once to
    connect again.  If that succeeds the client is as good as new.  If it fails
    the failures are counted and up to the third the client is still reported
    as online; but the count has no first value, so the first failure of a
    client that has never reconnected reads an uninitialised member; and the
    context is gone, so the next command, and the next [TestOnline], use a null
    pointer. *)
Theorem server_lost this c port w os :
  serves this c -> 0 < c_fd c -> m_port this = Some port -> no_oom w -> hangs_up PING w os ->
  kernel_answers (set_os os w) ->
  exists t1 w1 ok this2 w2,
    OnConnect RETRY_TIMEOUT (set_locker true (set_context None this)) w1 = Ok (ok, this2, w2) /\
    w_os w1 = os /\ ran (-4) w t1 w1 /\ (forall l, fds_after (c_fd c :: l) t1 = Some l) /\
    if ok : bool then
      exists this' c', TestOnline this w = Ok (true, this', w2) /\ serves this' c' /\ m_iReconnectCount this' = Some 0
    else
      match m_iReconnectCount this with
      | None => TestOnline this w = Fault Uninitialised
      | Some k => INT_MIN <= k < INT_MAX -> exists this', TestOnline this w = Ok (k + 1 <=? MAX_RECONNECTS, this', w2) /\
          m_iReconnectCount this' = Some (k + 1) /\
          forall cmd w', ExecCommand cmd this' w' = Fault NullDeref /\ TestOnline this' w' = Fault NullDeref
      end.
Proof.
  intros Hsv Hfd Hport Hw Hh Hk. destruct (redis_command_lost this c PING w os Hsv Hh Hw) as (c' & t & e & E & Hq & Hsp).
  pose proof (sv_locker _ _ Hsv) as Hl.
  destruct (ReConnect_spent this c c' port (io os (w_trace w ++ t) e w) Hl Hport Hfd Hsp Hw Hk)
    as (t1 & w1 & ok & this2 & w2 & E2 & Hc & Hos & Hran & Hfds & E3).
  exists (t ++ t1), w1, ok, this2, w2. split_and!; [exact E2|done| | |].
  - change (-4) with (0 + -4). eapply ran_app; [|exact Hran]. split; cbn; done || lia.
  - intros l. rewrite fds_after_app, (fds_after_quiet _ t) by done. apply Hfds.
  - assert (TestOnline this w = (if ok then ret (true, set_reconnects 0 (set_locker false this2)) else
        let* n := initialised (m_iReconnectCount (set_locker false this2)) in
        let* n := lift (int_ok (n + 1)) in
        ret (n <=? MAX_RECONNECTS, set_reconnects n (set_locker false this2))) w2) as ET.
    { unfold TestOnline, lock_client. rewrite Hl, (bind_ok (ret _)) with (1 := eq_refl). rewrite (bind_ok _ _ _ _ _ E).
      cbn beta iota. unfold unlock_client. rewrite set_locker_id by done. by rewrite (bind_ok _ _ _ _ _ E3). }
    destruct Hc as (ok' & this2' & w2' & t2 & E2' & Hres). rewrite E2 in E2'. injection E2' as <- <- <-.
    specialize (Hres []). destruct ok.
    + destruct Hres as (c2 & -> & Hq2 & Hp2 & _). eexists _, c2. split; [exact ET|]. by split.
    + destruct Hres as (-> & _). cbn [m_iReconnectCount set_context set_locker] in ET.
      destruct (m_iReconnectCount this) as [k|]; [|exact ET]. intros Hk2.
      exists (set_reconnects (k + 1) (set_locker false (set_context None (set_locker true (set_context None this))))).
      split_and!; [|done|].
      * rewrite ET. erewrite (bind_ok (initialised (Some k))) by reflexivity.
        rewrite (bind_ok (lift _) _ w2 (k + 1) w2); [reflexivity|]. unfold int_ok, INT_MIN, INT_MAX in *.
        unfold lift. by rewrite (proj2 (Z.leb_le _ _)), (proj2 (Z.leb_le _ _)) by lia.
      * intros cmd w'. by apply no_context.
Qed.
End connecting.

(** * Witnesses *)

(** A client on descriptor 3 that has never lost its connection. *)
Definition demo_client : CRedisClient :=
  mkClient (Some demo_context) false (lit "127.0.0.1") (Some 6379) None.

Lemma demo_serves : serves demo_client demo_context.
Proof. split; [done|done|apply demo_quiescent|apply demo_quiescent]. Qed.

(** [SMEMBERS k], answered in two pieces by an array that holds a string with a
    NUL in it and a number. *)
Definition members : value := VArray [VBulk (lit "ab" ++ [NUL; 99]); VInteger 7].
Definition members_pieces : list (list char) := [take 5 (encode members); drop 5 (encode members)].

Lemma redis_query_witness :
  let w := set_os (answer 100 :: (data <$> members_pieces)) world0 in
  exists c' t, let this' := set_context (Some c') demo_client in let w' := released members [] t w in
    sent 3 t = command [lit "SMEMBERS"; lit "k"] /\ serves this' c' /\ c_fd c' = 3 /\ fresh_above w' /\
    @ExecCommand no_strerror no_float (lit "SMEMBERS k") demo_client w = Ok (0, this', w') /\
    (forall result, @ExecCommand_string no_strerror no_float (lit "SMEMBERS k") result demo_client w = Ok (-1, result, this', w')) /\
    (forall result, @ExecCommand_int no_strerror no_float (lit "SMEMBERS k") result demo_client w = Ok (-1, result, this', w')) /\
    (forall result, @ExecCommand_ints no_strerror no_float (lit "SMEMBERS k") result demo_client w = Ok (0, [7], this', w')) /\
    (forall result, @ExecCommand_strings no_strerror no_float (lit "SMEMBERS k") result demo_client w =
       Ok (0, result ++ [lit "ab"], this', w')).
Proof.
  refine (@redis_query no_strerror no_float demo_client demo_context (lit "SMEMBERS k") members
    (set_os (answer 100 :: (data <$> members_pieces)) world0) [] demo_serves _ _ _).
  - split.
    + repeat constructor; discriminate.
    + split; vm_compute; discriminate.
    + repeat constructor; vm_compute; discriminate.
    + vm_compute. discriminate.
    + exists [answer 100], members_pieces, (data <$> members_pieces). split_and!.
      * vm_compute. reflexivity.
      * vm_compute. repeat split; discriminate.
      * repeat constructor; vm_compute; discriminate.
      * reflexivity.
  - reflexivity.
  - intros j _. apply lookup_empty.
Defined.

(** The server closes the connection and refuses a new one. *)
Definition lost_answers : list sysret := [answer 3; answer 0; answer 0; answer 0; failure 111] ++ replicate 5 (answer 0).

Lemma server_lost_witness :
  exists t1 w1 ok this2 w2,
    @OnConnect no_strerror RETRY_TIMEOUT (set_locker true (set_context None demo_client)) w1 = Ok (ok, this2, w2) /\
    w_os w1 = lost_answers /\ ran (-4) (set_os (answer 100 :: answer 0 :: lost_answers) world0) t1 w1 /\
    (forall l, fds_after (3 :: l) t1 = Some l) /\
    if ok : bool then
      exists this' c', @TestOnline no_strerror no_float demo_client (set_os (answer 100 :: answer 0 :: lost_answers) world0) =
        Ok (true, this', w2) /\ serves this' c' /\ m_iReconnectCount this' = Some 0
    else @TestOnline no_strerror no_float demo_client (set_os (answer 100 :: answer 0 :: lost_answers) world0) = Fault Uninitialised.
Proof.
  apply (@server_lost no_strerror no_float demo_client demo_context 6379
    (set_os (answer 100 :: answer 0 :: lost_answers) world0) lost_answers demo_serves).
  - reflexivity.
  - reflexivity.
  - reflexivity.
  - split.
    + repeat constructor; discriminate.
    + split; vm_compute; discriminate.
    + exists [answer 100], (answer 0). split_and!; [vm_compute; repeat split; discriminate|by right|reflexivity].
  - split; [cbn; lia|]. intros a os [= <- _]. vm_compute. reflexivity.
Defined.

(** In this run the uninitialised member is read. *)
Example lost_run : @TestOnline no_strerror no_float demo_client (set_os (answer 100 :: answer 0 :: lost_answers) world0) = Fault Uninitialised.
Proof. vm_compute. reflexivity. Qed.

(** A percent sign in a key takes an argument that nobody passed. *)
Example percent_in_key : @ExecCommand no_strerror no_float (MakeGetRedisCmd (lit "50%s")) demo_client world0 = Fault BadVararg.
Proof. vm_compute. reflexivity. Qed.
