(* ===== verification/RedisExample.v ===== *)
(** The example of the Redis library (example.c): a connection, commands of every
    kind of format and the printing of their replies, on the model of the
    synchronous client. *)

From stdpp Require Import base tactics list numbers strings gmap.
From S2P Require Import Prelude Machine Printf Sds SdsSpec Reply Reader ReaderSpec ReaderStream ReplyTree Format Net Context Session Text RedisClient.

Local Open Scope Z_scope.

Section example.
Context `{Strerror} `{FloatFmt}.

(** [reply->str] of a reply that is there, as [printf] reads it. *)
Definition reply_text (o : redisReply) : M (list char) :=
  let* str := deref (rp_str o) in
  lift (to_string str).

(** A command, what is printed of its reply, and the release of the reply. *)
Definition example_command (c : redisContext) (format : list char) (args : list vaarg) (show : redisReply -> M (list (list char)))
  : M (list (list char) * redisContext) :=
  let* (reply, c) := redisCommand c (format ++ [NUL]) (mkVa args []) in
  let* r := deref reply in
  let* o := reply_obj r in
  let* out := show o in
  let* _ := freeReplyObject r in
  ret (out, c).

Definition show_nothing (o : redisReply) : M (list (list char)) := ret [].
Definition show_text (label : list char) (o : redisReply) : M (list (list char)) :=
  let* text := reply_text o in
  ret [label ++ text ++ [LF]].
Definition show_number (label : list char) (o : redisReply) : M (list (list char)) :=
  ret [label ++ dec_signed (rp_integer o) ++ [LF]].

(** The loop over the elements, of which [n] are left from [j] on. *)
Fixpoint show_elements (n j : nat) (o : redisReply) : M (list (list char)) :=
  match n with
  | O => ret []
  | S n' =>
      let* e := element_at o j in
      let* l := deref e in
      let* t := Reply.get_obj l in
      let* text := reply_text t in
      let* rest := show_elements n' (S j) o in
      ret ((dec (Z.of_nat j) ++ lit ") " ++ text ++ [LF]) :: rest)
  end.
Definition show_list (o : redisReply) : M (list (list char)) :=
  if rp_type o =? REDIS_REPLY_ARRAY then show_elements (Z.to_nat (rp_elements o)) 0 o else ret [].

Fixpoint push_loop (n j : nat) (c : redisContext) : M redisContext :=
  match n with
  | O => ret c
  | S n' =>
      let* (_, c) := example_command c (lit "LPUSH mylist element-%s") [VPtr (dec (Z.of_nat j) ++ [NUL])] show_nothing in
      push_loop n' (S j) c
  end.

(** [main] from the first command on. *)
Definition example_session (c : redisContext) : M (list (list char) * redisContext) :=
  let* (o1, c) := example_command c (lit "PING") [] (show_text (lit "PING: ")) in
  let* (o2, c) := example_command c (lit "SET %s %s") [VPtr (lit "foo" ++ [NUL]); VPtr (lit "hello world" ++ [NUL])] (show_text (lit "SET: ")) in
  let* (o3, c) := example_command c (lit "SET %b %b") [VPtr (lit "bar" ++ [NUL]); VNum 3; VPtr (lit "hello" ++ [NUL]); VNum 5]
                    (show_text (lit "SET (binary API): ")) in
  let* (o4, c) := example_command c (lit "GET foo") [] (show_text (lit "GET foo: ")) in
  let* (o5, c) := example_command c (lit "INCR counter") [] (show_number (lit "INCR counter: ")) in
  let* (o6, c) := example_command c (lit "INCR counter") [] (show_number (lit "INCR counter: ")) in
  let* (_, c) := example_command c (lit "DEL mylist") [] show_nothing in
  let* c := push_loop 10 0 c in
  let* (o7, c) := example_command c (lit "LRANGE mylist 0 -1") [] show_list in
  ret (o1 ++ o2 ++ o3 ++ o4 ++ o5 ++ o6 ++ o7, c).

(** The exit code and what is printed. *)
Definition example_main : M (Z * list (list char)) :=
  let* c := redisConnectWithTimeout (lit "192.168.1.211") 6379 (1, 500000) in
  if negb (c_err c =? 0) then ret (1, [lit "Connection error: " ++ cstring (c_errstr c) ++ [LF]])
  else
    let* (out, _) := example_session c in
    ret (0, out).
End example.

(** * A run *)

(** A server that answers each command with a value, in one packet. *)
Definition example_answers (vs : list value) : list sysret := concat ((fun v => [answer 100; data (encode v)]) <$> vs).

Definition OK : value := VStatus (lit "OK").
Definition example_values : list value :=
  [VStatus (lit "PONG"); OK; OK; VBulk (lit "hello world"); VInteger 41; VInteger 42; VInteger 1] ++
  (VInteger <$> [1; 2; 3; 4; 5; 6; 7; 8; 9; 10]) ++ [VArray [VBulk (lit "element-9"); VBulk (lit "element-8")]].

Definition example_words : list (list (list char)) :=
  [[lit "PING"]; [lit "SET"; lit "foo"; lit "hello world"]; [lit "SET"; lit "bar"; lit "hello"]; [lit "GET"; lit "foo"];
   [lit "INCR"; lit "counter"]; [lit "INCR"; lit "counter"]; [lit "DEL"; lit "mylist"]] ++
  ((fun j => [lit "LPUSH"; lit "mylist"; lit "element-" ++ dec j]) <$> [0; 1; 2; 3; 4; 5; 6; 7; 8; 9]) ++
  [[lit "LRANGE"; lit "mylist"; lit "0"; lit "-1"]].

(** What is printed, what is sent, and the replies that are left. *)
Example example_run :
  match @example_session no_strerror no_float demo_context (set_os (example_answers example_values) world0) with
  | Ok (out, _, w) =>
      out = (fun l => l ++ [LF]) <$> [lit "PING: PONG"; lit "SET: OK"; lit "SET (binary API): OK"; lit "GET foo: hello world";
              lit "INCR counter: 41"; lit "INCR counter: 42"; lit "0) element-9"; lit "1) element-8"] /\
      sent 3 (w_trace w) = concat (command <$> example_words) /\ w_objs w = ∅ /\ w_os w = [] /\ w_live w = 0
  | Fault _ => False
  end.
Proof. vm_compute. split_and!; reflexivity. Qed.
