(* ===== verification/RedisService.v ===== *)
(** The Redis service of the server (CRedisServiceMgr.h, CRedisServiceMgr.cpp):
    one client for each zone of the configuration, made when the service starts
    or when it is first asked for, and checked by a thread of its own.

    The clients are objects on the heap: the map holds their addresses, 0 for a
    null pointer, and the callers of [GetRedisClient] keep them too.  Threads
    are not interleaved; the lock of the map is kept, and taking it twice never
    returns. *)

From stdpp Require Import base tactics list numbers strings gmap sorting.
From S2P Require Import Prelude StateMonad Machine Printf Sds Reply Reader ReaderSpec ReaderStream ReplyTree.
From S2P Require Import Format Net Context Session Text Config RedisClient RedisClientSpec.

Local Open Scope Z_scope.

Record service := mkSvc {
  s_world : world;
  s_clients : gmap Z CRedisClient;
  s_next : Z;
  m_RedisClientMap : gmap Z Z;
  m_redisCLocker : bool;
  m_isStop : bool
}.

Definition set_world x s := mkSvc x (s_clients s) (s_next s) (m_RedisClientMap s) (m_redisCLocker s) (m_isStop s).
Definition set_clients x s := mkSvc (s_world s) x (s_next s) (m_RedisClientMap s) (m_redisCLocker s) (m_isStop s).
Definition set_client_map x s := mkSvc (s_world s) (s_clients s) (s_next s) x (m_redisCLocker s) (m_isStop s).
Definition set_map_lock x s := mkSvc (s_world s) (s_clients s) (s_next s) (m_RedisClientMap s) x (m_isStop s).
Definition set_stop x s := mkSvc (s_world s) (s_clients s) (s_next s) (m_RedisClientMap s) (m_redisCLocker s) x.

Abbreviation RM := (SM service).

(** The constructor. *)
Definition new_CRedisServiceMgr (w : world) : service := mkSvc w ∅ 1 ∅ false false.

(** [LockerGuard guard(m_redisCLocker)] until the end of the scope. *)
Definition with_map {A} (body : RM A) : RM A :=
  do* s := sget in
  if m_redisCLocker s then scrash Blocks
  else
    do* _ := smodify (set_map_lock true) in
    do* r := body in
    do* _ := smodify (set_map_lock false) in
    sret r.

(** [new CRedisClient()]. *)
Definition new_client : RM Z := fun s =>
  Ok (s_next s, mkSvc (s_world s) (<[s_next s := new_CRedisClient]> (s_clients s)) (s_next s + 1)
                  (m_RedisClientMap s) (m_redisCLocker s) (m_isStop s)).

(** A method of the client at [p]. *)
Definition on_client {A} (p : Z) (m : CRedisClient -> M (A * CRedisClient)) : RM A := fun s =>
  match s_clients s !! p with
  | Some t => match m t (s_world s) with
              | Ok (a, t', w) => Ok (a, set_world w (set_clients (<[p := t']> (s_clients s)) s))
              | Fault f => Fault f
              end
  | None => Fault UseAfterFree
  end.

Section service.
Context `{Strerror} `{FloatFmt}.

(** [delete pClient]. *)
Definition delete_client (p : Z) : RM unit := fun s =>
  match s_clients s !! p with
  | Some t => match delete_CRedisClient t (s_world s) with
              | Ok (_, w) => Ok (tt, set_world w (set_clients (delete p (s_clients s)) s))
              | Fault f => Fault f
              end
  | None => Fault UseAfterFree
  end.

Definition MakeRedisClient (pInfo : ConfigInfo) : RM Z :=
  do* pClient := new_client in
  let port := atoi (st_port pInfo) in
  do* ok := on_client pClient (OnInit (st_address pInfo) port) in
  if ok : bool then sret pClient
  else
    do* _ := delete_client pClient in
    sret 0.

(** [std::map::insert] keeps an entry that is there. *)
Definition InsertRedisClient (iZoneCode pClient : Z) : RM unit :=
  with_map (smodify (fun s => set_client_map
    (match m_RedisClientMap s !! iZoneCode with
     | Some _ => m_RedisClientMap s
     | None => <[iZoneCode := pClient]> (m_RedisClientMap s)
     end) s)).

(** The loop of [OnInit] over the configured zones, in their order. *)
Fixpoint init_loop (configs : gmap Z ConfigInfo) (zones : list Z) : RM unit :=
  match zones with
  | [] => sret tt
  | z :: zones' =>
      do* _ := match configs !! z with
               | Some x =>
                   let info := mkInfo (st_address x) (st_port x) (st_username x) (st_password x) [] in
                   do* pClient := MakeRedisClient info in
                   if pClient =? 0 then sret tt else InsertRedisClient z pClient
               | None => sret tt
               end in
      init_loop configs zones'
  end.

(** The thread that [OnInit] starts is [OnTestOnLine]. *)
Definition service_OnInit (cfg : CConfiger) : RM bool :=
  let configs := GetConfigInfos cfg true in
  do* _ := init_loop configs (keys_of configs) in
  sret true.

Definition GetRedisClient (cfg : CConfiger) (iZoneCode : Z) : RM Z :=
  do* found := with_map (do* s := sget in sret (m_RedisClientMap s !! iZoneCode)) in
  match found with
  | Some pClient => sret pClient
  | None =>
      let info := GetConfigInfo cfg iZoneCode (mkInfo [] [] [] [] []) true in
      if negb (bool_decide (st_address info = [])) && negb (bool_decide (st_port info = [])) then
        do* pTmpClient := MakeRedisClient info in
        do* _ := InsertRedisClient iZoneCode pTmpClient in
        sret pTmpClient
      else sret 0
  end.

(** One turn of the loop over the map: a client that is off is erased, and not
    deleted. *)
Fixpoint online_loop (zones : list Z) : RM unit :=
  match zones with
  | [] => sret tt
  | z :: zones' =>
      do* s := sget in
      do* _ := match m_RedisClientMap s !! z with
               | Some p =>
                   if p =? 0 then sret tt
                   else
                     do* ok := on_client p TestOnline in
                     if ok : bool then sret tt
                     else smodify (fun s => set_client_map (delete z (m_RedisClientMap s)) s)
               | None => sret tt
               end in
      online_loop zones'
  end.

(** The thread: every turn waits five seconds first.  [turns] bounds the number
    of turns that are looked at. *)
Fixpoint OnTestOnLine (turns : nat) : RM unit :=
  match turns with
  | O => sret tt
  | S n =>
      do* s := sget in
      if m_isStop s then sret tt
      else
        do* _ := with_map (do* s := sget in online_loop (keys_of (m_RedisClientMap s))) in
        OnTestOnLine n
  end.

(** The destructor. *)
Fixpoint delete_loop_clients (zones : list Z) : RM unit :=
  match zones with
  | [] => sret tt
  | z :: zones' =>
      do* s := sget in
      do* _ := match m_RedisClientMap s !! z with
               | Some p => if p =? 0 then sret tt else delete_client p
               | None => sret tt
               end in
      delete_loop_clients zones'
  end.

Definition delete_CRedisServiceMgr : RM unit :=
  do* _ := smodify (set_stop true) in
  with_map (do* s := sget in
            do* _ := delete_loop_clients (keys_of (m_RedisClientMap s)) in
            smodify (set_client_map ∅)).
End service.
