(* ===== verification/RedisServiceSpec.v ===== *)
(** The Redis service: its map and its clients fit together, every zone gets the
    client it is configured for, and stopping releases them all. *)

From stdpp Require Import base tactics list numbers strings gmap sorting.
From S2P Require Import Prelude StateMonad Machine Printf Sds Reply Reader ReaderSpec ReaderStream ReplyTree.
From S2P Require Import Format Net Context Session Text Config RedisClient RedisClientSpec RedisService.

Local Open Scope Z_scope.

(** Every entry of the map is null or a client of its own with an idle
    connection, and every client is in the map; besides the four blocks of each
    connection, [live0] blocks are live. *)
Record svc_inv (live0 : Z) (s : service) : Prop := {
  si_lock : m_redisCLocker s = false;
  si_oom : no_oom (s_world s);
  si_next : 0 < s_next s;
  si_client : forall p t, s_clients s !! p = Some t -> 0 < p < s_next s /\ exists c, serves t c;
  si_entry : forall z p, m_RedisClientMap s !! z = Some p -> p = 0 \/ is_Some (s_clients s !! p);
  si_inj : forall z z' p, m_RedisClientMap s !! z = Some p -> m_RedisClientMap s !! z' = Some p -> p <> 0 -> z = z';
  si_owned : forall p, is_Some (s_clients s !! p) -> exists z, m_RedisClientMap s !! z = Some p;
  si_live : w_live (s_world s) = live0 + 4 * Z.of_nat (size (s_clients s))
}.

Section properties.
Context `{Strerror} `{FloatFmt}.

Lemma fresh_client live0 s : svc_inv live0 s -> s_clients s !! s_next s = None.
Proof.
  intros Hi. destruct (s_clients s !! s_next s) as [t|] eqn:E; [|done].
  destruct (si_client _ _ Hi _ _ E). lia.
Qed.

(** The service with a client more, or with the trace of a failed attempt. *)
Definition client_made (s s' : service) (p : Z) (t : CRedisClient) (d : Z) : Prop :=
  s_clients s' = (if p =? 0 then s_clients s else <[p := t]> (s_clients s)) /\
  s_next s' = s_next s + 1 /\ m_RedisClientMap s' = m_RedisClientMap s /\ m_redisCLocker s' = m_redisCLocker s /\
  no_oom (s_world s') /\ w_live (s_world s') = w_live (s_world s) + d.

Lemma delete_no_context t w : m_pRedisContext t = None -> m_locker t = false -> delete_CRedisClient t w = Ok (tt, w).
Proof.
  intros Hc Hl. unfold delete_CRedisClient, guarded, lock_client. rewrite Hl. unfold bind, ret. cbn. by rewrite Hc.
Qed.

Lemma MakeRedisClient_ok live0 info s :
  svc_inv live0 s -> kernel_answers (s_world s) ->
  exists p t s', MakeRedisClient info s = Ok (p, s') /\
    (p = 0 /\ client_made s s' 0 t 0 \/
     p = s_next s /\ client_made s s' p t 4 /\ (exists c, serves t c) /\
     m_address t = st_address info /\ m_port t = Some (atoi (st_port info))).
Proof.
  intros Hi Hk. pose proof (fresh_client _ _ Hi) as Hfresh. pose proof (si_next _ _ Hi).
  set (p := s_next s). set (port := atoi (st_port info)). set (t0 := set_target (st_address info) port new_CRedisClient).
  set (s1 := mkSvc (s_world s) (<[p := new_CRedisClient]> (s_clients s)) (p + 1) (m_RedisClientMap s) (m_redisCLocker s) (m_isStop s)).
  destruct (OnConnect_ok FIRST_TIMEOUT t0 port (s_world s) eq_refl (si_oom _ _ Hi) Hk) as (ok & t & w' & tr & E & Hres).
  specialize (Hres []).
  set (s2 := set_world w' (set_clients (<[p := t]> (s_clients s1)) s1)).
  assert (on_client p (OnInit (st_address info) port) s1 = Ok (ok, s2)) as E2.
  { unfold on_client. cbn [s_clients s1]. rewrite lookup_insert_eq. change (s_world s1) with (s_world s).
    unfold OnInit. fold t0. by rewrite E. }
  unfold MakeRedisClient. rewrite (sbind_ok new_client _ s p s1) by reflexivity. cbv zeta. fold port. run E2.
  assert (s_clients s2 = <[p := t]> (s_clients s)) as Hcl by (cbn; by rewrite insert_insert_eq).
  destruct ok.
  - destruct Hres as (c & -> & Hq & Hp & _ & _ & Hr). exists p, (set_context (Some c) t0), s2. split; [done|]. right.
    split_and!; [done| |by exists c|done|done]. unfold client_made. rewrite (proj2 (Z.eqb_neq p 0)) by lia.
    split_and!; [done|done|done|done|by eapply ran_no_oom, Hi|apply Hr].
  - destruct Hres as (-> & _ & Hr). eexists 0, t0, _. split.
    + assert (delete_client p s2 = Ok (tt, set_world w' (set_clients (delete p (s_clients s2)) s2))) as E3.
      { unfold delete_client. rewrite Hcl, lookup_insert_eq. rewrite delete_no_context by done. done. }
      run E3. reflexivity.
    + left. split; [done|]. unfold client_made. cbn [Z.eqb].
      split_and!; [|done|done|done|by eapply ran_no_oom, Hi|apply Hr].
      cbn [s_clients set_world set_clients]. rewrite Hcl. by apply delete_insert_id.
Qed.

Lemma InsertRedisClient_ok z p s : m_redisCLocker s = false -> m_RedisClientMap s !! z = None ->
  InsertRedisClient z p s = Ok (tt, set_client_map (<[z := p]> (m_RedisClientMap s)) s).
Proof.
  intros Hl Hz. unfold InsertRedisClient, with_map, sbind, sget, smodify, sret. cbn. rewrite Hl. cbn. rewrite Hz.
  do 2 f_equal. destruct s. cbn in *. by subst.
Qed.

(** A client, or the null pointer of a failed attempt, enters the map. *)
Lemma client_added live0 s s1 z p t d :
  svc_inv live0 s -> m_RedisClientMap s !! z = None -> client_made s s1 p t d ->
  (p = 0 /\ d = 0 \/ p = s_next s /\ d = 4 /\ exists c, serves t c) ->
  svc_inv live0 (set_client_map (<[z := p]> (m_RedisClientMap s1)) s1).
Proof.
  intros Hi Hz (Hcl & Hn & Hm & Hl & Ho & Hlive) Hp. pose proof (fresh_client _ _ Hi) as Hfresh. pose proof (si_next _ _ Hi).
  destruct Hi as [Hlk Hoom Hnx Hc He Hinj Hown Hlv].
  assert (forall q, is_Some (s_clients s1 !! q) <-> q = p /\ p <> 0 \/ is_Some (s_clients s !! q)) as Hdom.
  { intros q. rewrite Hcl. destruct (Z.eqb_spec p 0) as [->|Hp0]; [tauto|]. rewrite lookup_insert_is_Some'.
    split; (intros [Hq|Hq]; [left|by right]); [by subst|by destruct Hq]. }
  assert (p <> 0 -> s_clients s !! p = None) as Hnew by (destruct Hp as [[-> _]|(-> & _)]; done).
  split; cbn; rewrite ?Hm, ?Hl, ?Hn; try done || lia.
  - intros q u Hq. rewrite Hcl in Hq. destruct (Z.eqb_spec p 0) as [->|Hp0].
    + destruct (Hc q u Hq). split; [lia|done].
    + apply lookup_insert_Some in Hq as [[<- <-]|[_ Hq]].
      * destruct Hp as [[-> _]|(-> & _ & Hsv)]; [done|]. split; [lia|done].
      * destruct (Hc q u Hq). split; [lia|done].
  - intros z' q [[<- <-]|[_ Hq]]%lookup_insert_Some.
    + destruct (decide (p = 0)); [by left|]. right. apply Hdom. by left.
    + destruct (He z' q Hq) as [->|Hs]; [by left|]. right. apply Hdom. by right.
  - intros z1 z2 q [[<- <-]|[Hz1 Hq1]]%lookup_insert_Some [[<- Hq2]|[Hz2 Hq2]]%lookup_insert_Some Hq; try done.
    + destruct (He z2 p Hq2) as [->|[u Hu]]; [done|]. by rewrite Hnew in Hu.
    + subst. destruct (He z1 q Hq1) as [->|[u Hu]]; [done|]. by rewrite Hnew in Hu.
    + by eapply Hinj.
  - intros q [[-> Hp0]|Hq]%Hdom; [exists z; apply lookup_insert_eq|]. destruct (Hown q Hq) as [z' Hz']. exists z'.
    rewrite lookup_insert_ne; [done|]. by intros ->; rewrite Hz in Hz'.
  - rewrite Hlive, Hlv, Hcl. destruct Hp as [[-> ->]|(-> & -> & _)]; [cbn; lia|]. rewrite (proj2 (Z.eqb_neq (s_next s) 0)) by lia.
    rewrite map_size_insert_None by done. lia.
Qed.

(** The zone has an address and a port in the configuration. *)
Definition zone_info (cfg : CConfiger) (z : Z) : ConfigInfo := GetConfigInfo cfg z (mkInfo [] [] [] [] []) true.
Definition configured (cfg : CConfiger) (z : Z) : Prop := st_address (zone_info cfg z) <> [] /\ st_port (zone_info cfg z) <> [].

Lemma find_client s z : m_redisCLocker s = false ->
  with_map (do* s := sget in sret (m_RedisClientMap s !! z)) s = Ok (m_RedisClientMap s !! z, s).
Proof.
  intros Hl. unfold with_map, sbind, sget, smodify, sret. rewrite Hl. cbn. do 2 f_equal. destruct s. cbn in *. by subst.
Qed.

(** C31: the client of a zone.  [GetRedisClient] keeps the map and the clients in
    step.  It returns the entry of the map when there is one; for a zone without
    an entry it connects to the address and port of the configuration and enters
    the result, which is a client with an idle connection to that address, or
    the null pointer when the connection failed; a zone that is not configured
    gets the null pointer and no entry.  So a null pointer, once entered, is the
    answer for this zone from then on, without another attempt. *)
Theorem client_for_zone live0 cfg z s :
  svc_inv live0 s -> kernel_answers (s_world s) ->
  exists p s', GetRedisClient cfg z s = Ok (p, s') /\ svc_inv live0 s' /\
    match m_RedisClientMap s !! z with
    | Some q => p = q /\ s' = s
    | None =>
        configured cfg z /\ m_RedisClientMap s' = <[z := p]> (m_RedisClientMap s) /\
          (p = 0 \/ exists t c, s_clients s' !! p = Some t /\ serves t c /\
             m_address t = st_address (zone_info cfg z) /\ m_port t = Some (atoi (st_port (zone_info cfg z)))) \/
        ~ configured cfg z /\ p = 0 /\ s' = s
    end.
Proof.
  intros Hi Hk. unfold GetRedisClient. run (find_client s z (si_lock _ _ Hi)).
  destruct (m_RedisClientMap s !! z) as [q|] eqn:Hz; [by exists q, s|]. fold (zone_info cfg z).
  destruct (decide (configured cfg z)) as [Hc|Hc].
  2: { exists 0, s. split_and!; [|done|by right]. unfold configured in Hc.
       repeat case_bool_decide; cbn [negb andb]; try done. by destruct Hc. }
  destruct Hc as [Ha Hp]. rewrite !bool_decide_false by done. cbn [negb andb].
  destruct (MakeRedisClient_ok live0 (zone_info cfg z) s Hi Hk) as (p & t & s1 & E & Hres). run E.
  assert (exists d, client_made s s1 p t d /\ (p = 0 /\ d = 0 \/ p = s_next s /\ d = 4 /\ exists c, serves t c)) as (d & Hmade & Hcase).
  { destruct Hres as [[-> Hm]|(-> & Hm & Hsv & _)]; eauto 10. }
  pose proof Hmade as (_ & _ & Hm & Hl & _). rewrite (si_lock _ _ Hi) in Hl.
  run (InsertRedisClient_ok z p s1 Hl ltac:(by rewrite Hm)).
  eexists p, _. split; [reflexivity|]. split; [by eapply client_added|]. left. cbn. rewrite Hm. split_and!; [done|done|].
  destruct Hres as [[-> _]|(-> & (Hcl & _) & [c Hsv] & Had & Hpt)]; [by left|]. right. exists t, c.
  pose proof (si_next _ _ Hi). rewrite Hcl, (proj2 (Z.eqb_neq (s_next s) 0)) by lia. by rewrite lookup_insert_eq.
Qed.

(** ** Stopping *)

Lemma serving_deleted t c w : serves t c -> exists tr,
  delete_CRedisClient t w = Ok (tt, set_trace (w_trace w ++ tr) (add_live (-4) w)).
Proof.
  intros [Hc Hl [_ _ (r & rc & Hr & Hh & Hid)] (b & Hob & _)].
  destruct (redisFree_holds c b r _ rc _ w Hob Hr Hh (id_reply _ Hid)) as (tr & E & _). exists tr.
  unfold delete_CRedisClient, guarded, lock_client. rewrite Hl, bind_assoc, (bind_ok (ret _)) with (1 := eq_refl).
  cbn [m_pRedisContext set_locker]. rewrite Hc, !bind_assoc, (bind_ok _ _ _ _ _ E). done.
Qed.

(** The clients that the entries of [zones] own are the ones that are left. *)
Lemma delete_clients_ok live0 zones s :
  NoDup zones ->
  (forall p t, s_clients s !! p = Some t -> 0 < p /\ exists c, serves t c) ->
  (forall z p, z ∈ zones -> m_RedisClientMap s !! z = Some p -> p = 0 \/ is_Some (s_clients s !! p)) ->
  (forall z z' p, m_RedisClientMap s !! z = Some p -> m_RedisClientMap s !! z' = Some p -> p <> 0 -> z = z') ->
  (forall p, is_Some (s_clients s !! p) -> exists z, z ∈ zones /\ m_RedisClientMap s !! z = Some p) ->
  w_live (s_world s) = live0 + 4 * Z.of_nat (size (s_clients s)) ->
  exists s', delete_loop_clients zones s = Ok (tt, s') /\ s_clients s' = ∅ /\ w_live (s_world s') = live0 /\ m_isStop s' = m_isStop s.
Proof.
  revert s. induction zones as [|z zones IH]; intros s Hnd Hc He Hinj Hown Hlv; cbn [delete_loop_clients].
  - exists s. assert (s_clients s = ∅) as Hnil.
    { apply map_empty. intros p. destruct (s_clients s !! p) eqn:E; [|done]. destruct (Hown p) as (z & Hz & _); [by rewrite E|set_solver]. }
    rewrite Hnil, map_size_empty in Hlv. split_and!; [done|done|lia|done].
  - apply NoDup_cons in Hnd as [Hz Hnd]. rewrite (sbind_ok sget _ s s s) by reflexivity.
    assert (forall s1 p0, m_RedisClientMap s !! z = Some p0 \/ m_RedisClientMap s !! z = None /\ p0 = 0 ->
      m_RedisClientMap s1 = m_RedisClientMap s -> s_clients s1 = delete p0 (s_clients s) ->
      w_live (s_world s1) = live0 + 4 * Z.of_nat (size (s_clients s1)) ->
      m_isStop s1 = m_isStop s ->
      exists s', delete_loop_clients zones s1 = Ok (tt, s') /\ s_clients s' = ∅ /\ w_live (s_world s') = live0 /\
        m_isStop s' = m_isStop s) as Hrest.
    { intros s1 p0 Hp0 Hm Hcl Hlv1 <-. apply IH; [done| | | | |done].
      - intros p t. rewrite Hcl. intros [_ Hp]%lookup_delete_Some. by eapply Hc.
      - intros z' p Hz'. rewrite Hm, Hcl. intros Hp. destruct (decide (p = 0)) as [|Hne]; [by left|]. right.
        destruct (He z' p) as [->|Hs]; [set_solver|done|done|]. rewrite lookup_delete_ne; [done|]. intros ->.
        destruct Hp0 as [Hp0|[_ ->]]; [|done]. by rewrite (Hinj z z' p) in Hz.
      - by rewrite Hm.
      - intros p. rewrite Hcl, Hm. intros (t & [Hne Hp]%lookup_delete_Some).
        destruct (Hown p) as (z' & [->|Hz']%elem_of_cons & Hp'); [by rewrite Hp| |by exists z'].
        destruct Hp0 as [Hp0|[Hp0 _]]; congruence. }
    assert (s_clients s = delete 0 (s_clients s)) as Hdel0.
    { symmetry. apply delete_id. destruct (s_clients s !! 0) eqn:E; [|done]. destruct (Hc _ _ E). lia. }
    destruct (m_RedisClientMap s !! z) as [p|] eqn:Hmz.
    2: { rewrite (sbind_ok (sret tt) _ s tt s) by reflexivity. apply (Hrest s 0); [by right|done..]. }
    destruct (Z.eqb_spec p 0) as [->|Hp].
    { rewrite (sbind_ok (sret tt) _ s tt s) by reflexivity. apply (Hrest s 0); [by left|done..]. }
    destruct (He z p) as [|[t Ht]]; [set_solver|done|done|]. destruct (Hc p t Ht) as [_ [c Hsv]].
    destruct (serving_deleted t c (s_world s) Hsv) as (tr & E).
    assert (delete_client p s = Ok (tt, set_world (set_trace (w_trace (s_world s) ++ tr) (add_live (-4) (s_world s)))
      (set_clients (delete p (s_clients s)) s))) as E2 by (unfold delete_client; by rewrite Ht, E).
    run E2. eapply Hrest; [by left|done|done| |done]. cbn.
    rewrite map_size_delete_Some by done. 
    assert (size (s_clients s) <> 0%nat) by (apply map_size_ne_0_lookup; eauto). lia.
Qed.

(** Stopping.  The destructor of the service releases every client with its
    connection: afterwards no client is left, the map is empty, and exactly the
    blocks that were live besides the connections still are. *)
Theorem service_stops live0 s :
  svc_inv live0 s ->
  exists s', delete_CRedisServiceMgr s = Ok (tt, s') /\ s_clients s' = ∅ /\ m_RedisClientMap s' = ∅ /\
    w_live (s_world s') = live0 /\ m_isStop s' = true /\ m_redisCLocker s' = false.
Proof.
  intros Hi. unfold delete_CRedisServiceMgr. rewrite (sbind_ok (smodify _) _ s tt (set_stop true s)) by reflexivity.
  destruct (keys_of_spec (m_RedisClientMap s)) as [Hnd Hkeys].
  destruct (delete_clients_ok live0 (keys_of (m_RedisClientMap s)) (set_map_lock true (set_stop true s))) as (s' & E & Hc & Hl & Hst);
    [done| | |exact (si_inj _ _ Hi)| |exact (si_live _ _ Hi)|].
  - intros p t Hp. destruct (si_client _ _ Hi p t Hp) as [? ?]. split; [lia|done].
  - intros z p _. apply (si_entry _ _ Hi).
  - intros p Hp. destruct (si_owned _ _ Hi p Hp) as [z Hz]. exists z. split; [|done]. apply Hkeys. by rewrite Hz.
  - exists (set_map_lock false (set_client_map ∅ s')). split_and!; try done.
    unfold with_map. rewrite (sbind_ok sget) with (1 := eq_refl). cbn [m_redisCLocker set_stop]. rewrite (si_lock _ _ Hi).
    rewrite (sbind_ok (smodify _)) with (1 := eq_refl). rewrite sbind_assoc, (sbind_ok sget) with (1 := eq_refl).
    rewrite sbind_assoc. run E. done.
Qed.
End properties.

(** * Witnesses *)

(** A configuration with a Redis server for zone 7. *)
Definition demo_config : CConfiger :=
  set_redis {[ 7 := mkInfo (lit "127.0.0.1") (lit "6379") [] [] [] ]} 1 new_CConfiger.
Definition demo_start : service := new_CRedisServiceMgr (set_os (replicate 10 (answer 3)) world0).

Lemma demo_start_inv : svc_inv 0 demo_start.
Proof.
  split; try done; intros *; cbn; rewrite ?lookup_empty; try done.
Qed.

Lemma client_for_zone_witness :
  exists p s', @GetRedisClient no_strerror demo_config 7 demo_start = Ok (p, s') /\ svc_inv 0 s' /\
    (configured demo_config 7 /\ m_RedisClientMap s' = {[ 7 := p ]} /\
       (p = 0 \/ exists t c, s_clients s' !! p = Some t /\ serves t c /\
          m_address t = lit "127.0.0.1" /\ m_port t = Some 6379) \/
     ~ configured demo_config 7 /\ p = 0 /\ s' = demo_start).
Proof.
  apply (@client_for_zone no_strerror 0 demo_config 7 demo_start demo_start_inv).
  split; [cbn; lia|]. intros a os [= <- _]. vm_compute. reflexivity.
Defined.

(** In this run the connection is made; with a refused one the zone is entered
    with a null pointer. *)
Definition outcome_entry {A} (z : Z) (r : outcome (A * service)) : option (A * option Z) :=
  match r with Ok (p, s) => Some (p, m_RedisClientMap s !! z) | Fault _ => None end.
Example zone_connected : outcome_entry 7 (@GetRedisClient no_strerror demo_config 7 demo_start) = Some (1, Some 1).
Proof. vm_compute. reflexivity. Qed.
Example zone_dead :
  outcome_entry 7 (@GetRedisClient no_strerror demo_config 7 (new_CRedisServiceMgr (set_os lost_answers world0))) = Some (0, Some 0).
Proof. vm_compute. reflexivity. Qed.

(** A service with one client and one zone whose connection failed. *)
Definition demo_service (t : CRedisClient) (w : world) : service :=
  mkSvc w {[ 1 := t ]} 2 {[ 7 := 1; 9 := 0 ]} false false.

Lemma demo_service_inv : svc_inv 0 (demo_service demo_client (add_live 4 world0)).
Proof.
  split; try done.
  - intros p t. cbn. intros [<- <-]%lookup_singleton_Some. split; [lia|]. eexists. apply demo_serves.
  - intros z p. cbn. intros [[_ <-]|[_ [_ <-]%lookup_singleton_Some]]%lookup_insert_Some; [right|by left].
    by rewrite lookup_singleton_eq.
  - intros z z' p. cbn. intros [[<- <-]|[_ [<- <-]%lookup_singleton_Some]]%lookup_insert_Some; [|done].
    by intros [[<- _]|[_ [_ ?]%lookup_singleton_Some]]%lookup_insert_Some.
  - intros p. cbn. intros [t [<- _]%lookup_singleton_Some]. by exists 7.
Qed.

Lemma service_stops_witness :
  exists s', delete_CRedisServiceMgr (demo_service demo_client (add_live 4 world0)) = Ok (tt, s') /\ s_clients s' = ∅ /\
    m_RedisClientMap s' = ∅ /\ w_live (s_world s') = 0 /\ m_isStop s' = true /\ m_redisCLocker s' = false.
Proof. apply (service_stops 0 (demo_service demo_client (add_live 4 world0)) demo_service_inv). Defined.

(** A client that has failed three times is erased from the map at the fourth
    failure; the object itself is not deleted, and nobody owns it any more. *)
Definition orphan (z p : Z) (r : outcome (unit * service)) : bool :=
  match r with
  | Ok (_, s) => bool_decide (m_RedisClientMap s !! z = None) && bool_decide (is_Some (m_port <$> s_clients s !! p))
  | Fault _ => false
  end.
Example off_client_leaks :
  orphan 7 1 (@OnTestOnLine no_strerror no_float 1
    (demo_service (set_reconnects 3 demo_client) (set_os (answer 100 :: answer 0 :: lost_answers) world0))) = true.
Proof. vm_compute. reflexivity. Qed.
