(* ===== verification/RecordSet.v ===== *)
(** The record sets of the server's MySQL part (CField.h, CField.cpp, CRecord.h,
    CRecord.cpp) over the results of libmysql.

    A stored result is what the library hands out one by one: its columns and
    its rows, a NULL in a row being [None] and a value a NUL-terminated region.
    The records of a set point to the columns of that set; a record made from a
    null pointer points to nothing. *)

From stdpp Require Import base tactics list numbers strings.
From S2P Require Import Prelude StateMonad Text.

Local Open Scope Z_scope.

(** * Columns *)

(** [enum_field_types], as far as the code tells types apart. *)
Definition FIELD_TYPE_TINY : Z := 1.
Definition FIELD_TYPE_TIMESTAMP : Z := 7.
Definition FIELD_TYPE_INT24 : Z := 9.
Definition FIELD_TYPE_DATE : Z := 10.
Definition FIELD_TYPE_DATETIME : Z := 12.
Definition FIELD_TYPE_YEAR : Z := 13.
Definition FIELD_TYPE_NEWDECIMAL : Z := 246.
Definition FIELD_TYPE_BLOB : Z := 252.
Definition FIELD_TYPE_VAR_STRING : Z := 253.
Definition FIELD_TYPE_STRING : Z := 254.
Definition FIELD_TYPE_CHAR : Z := FIELD_TYPE_TINY.
Definition BLOB_FLAG : Z := 16.

(** The macros of mysql.h. *)
Definition IS_NUM (t : Z) : bool :=
  ((t <=? FIELD_TYPE_INT24) && negb (t =? FIELD_TYPE_TIMESTAMP)) || (t =? FIELD_TYPE_YEAR) || (t =? FIELD_TYPE_NEWDECIMAL).
Definition IS_BLOB (n : Z) : bool := negb (Z.land n BLOB_FLAG =? 0).

Record CField := mkField { m_name : list (list char); m_type : list Z }.

Definition new_CField : CField := mkField [] [].

(** The loop from the index [i] on. *)
Fixpoint field_loop (names : list (list char)) (field_name : list char) (i : Z) : Z :=
  match names with
  | [] => -1
  | n :: names' => if same n field_name then int i else field_loop names' field_name (i + 1)
  end.
Definition GetField_NO (f : CField) (field_name : list char) : Z := field_loop (m_name f) field_name 0.

(** The test of the type at an index that must be one of the columns. *)
Definition type_at (f : CField) (num : Z) (test : Z -> bool) : bool :=
  if (num <? 0) || (zlen (m_type f) <=? num) then false
  else match m_type f !! Z.to_nat num with Some t => test t | None => false end.

Definition is_date (t : Z) : bool := (FIELD_TYPE_DATE =? t) || (FIELD_TYPE_DATETIME =? t).
Definition is_text (t : Z) : bool := (t =? FIELD_TYPE_STRING) || (t =? FIELD_TYPE_VAR_STRING) || (t =? FIELD_TYPE_CHAR).

Definition IsNum (f : CField) (num : Z) : bool := type_at f num IS_NUM.
Definition IsNum_name (f : CField) (num : list char) : bool := type_at f (GetField_NO f num) IS_NUM.
Definition IsDate (f : CField) (num : Z) : bool := type_at f num is_date.
Definition IsDate_name (f : CField) (num : list char) : bool := type_at f (GetField_NO f num) is_date.
Definition IsChar (f : CField) (num : Z) : bool := type_at f num is_text.
Definition IsChar_name (f : CField) (num : list char) : bool := type_at f (GetField_NO f num) is_text.
Definition IsBlob (f : CField) (num : Z) : bool := type_at f num IS_BLOB.
Definition IsBlob_name (f : CField) (num : list char) : bool := type_at f (GetField_NO f num) IS_BLOB.

(** * Records *)

(** [m_field] says whether the pointer is the one of the set or null. *)
Record CRecord := mkRecord { m_rs : list (list char); m_field : bool }.

Definition new_CRecord (m_f : bool) : CRecord := mkRecord [] m_f.
Definition SetData (value : list char) (r : CRecord) : CRecord := mkRecord (m_rs r ++ [value]) (m_field r).

(** [operator[](int)] and [operator[](string)], with the columns of the set. *)
Definition record_at (r : CRecord) (num : Z) : list char :=
  if (num <? 0) || (zlen (m_rs r) <=? num) then [] else default [] (m_rs r !! Z.to_nat num).
Definition record_named (f : CField) (r : CRecord) (s : list char) : list char :=
  if m_field r then record_at r (GetField_NO f s) else [].

(** The comparison is one of two pointers: the one of a literal and the one of
    the string's own buffer, which are never the same. *)
Definition same_pointer : bool := false.
Definition IsNull (r : CRecord) (num : Z) : bool :=
  if (num <? 0) || (zlen (m_rs r) <=? num) then false else if same_pointer then true else false.
Definition IsNull_name (f : CField) (r : CRecord) (s : list char) : bool :=
  if m_field r then IsNull r (GetField_NO f s) else false.

(** [for (i = 0; i < size; i++)] with the test [i < size - 1]. *)
Fixpoint tab_loop (rest : list (list char)) (i size : Z) (temp : list char) : list char :=
  match rest with
  | [] => temp
  | s :: rest' => tab_loop rest' (i + 1) size (temp ++ s ++ (if i <? size_t (size - 1) then [9] else []))
  end.
Definition GetTabText (r : CRecord) : list char := tab_loop (m_rs r) 0 (zlen (m_rs r)) [].

(** * Results of the library *)

(** A stored result: [mysql_num_rows], [mysql_num_fields], and what
    [mysql_fetch_field] and [mysql_fetch_row] return until they return null. *)
Record MYSQL_RES := mkRes { res_fields : list (list char * Z); res_rows : list (list (option (list char))) }.
Definition mysql_num_rows (r : MYSQL_RES) : Z := zlen (res_rows r).
Definition mysql_num_fields (r : MYSQL_RES) : Z := zlen (res_fields r).

(** * Record sets *)

Record CRecordSet := mkSet {
  m_s : list CRecord;
  pos : Z;
  m_recordcount : option Z;
  m_field_num : option Z;
  set_field : CField
}.

Definition new_CRecordSet : CRecordSet := mkSet [] 0 None None new_CField.

Definition with_pos (p : Z) (s : CRecordSet) : CRecordSet :=
  mkSet (m_s s) p (m_recordcount s) (m_field_num s) (set_field s).

(** The columns are appended to the ones that are there. *)
Fixpoint fields_from (fds : list (list char * Z)) (f : CField) : outcome CField :=
  match fds with
  | [] => Ok f
  | (name, type) :: fds' =>
      let! n := to_string name in
      fields_from fds' (mkField (m_name f ++ [n]) (m_type f ++ [type]))
  end.

(** [row[k]] for [k] below the number of columns. *)
Fixpoint row_loop (n k : nat) (row : list (option (list char))) (temp : CRecord) : outcome CRecord :=
  match n with
  | O => Ok temp
  | S n' =>
      match row !! k with
      | None => Fault OutOfBounds
      | Some None => row_loop n' (S k) row (SetData [] temp)
      | Some (Some v) => let! s := to_string v in row_loop n' (S k) row (SetData s temp)
      end
  end.

Fixpoint rows_loop (ncols : nat) (rows : list (list (option (list char)))) (ss : list CRecord) : outcome (list CRecord) :=
  match rows with
  | [] => Ok ss
  | row :: rows' =>
      let! temp := row_loop ncols 0 row (new_CRecord true) in
      rows_loop ncols rows' (ss ++ [temp])
  end.

(** [query] is the answer of [mysql_real_query], [stored] the one of
    [mysql_store_result], which is null for a statement without a result and is
    used without a test. *)
Definition ExecuteSQL (query : Z) (stored : option MYSQL_RES) (s : CRecordSet) : outcome (Z * CRecordSet) :=
  if query =? 0 then
    match stored with
    | None => Fault NullDeref
    | Some res =>
        let! f := fields_from (res_fields res) (set_field s) in
        let! ss := rows_loop (Z.to_nat (mysql_num_fields res)) (res_rows res) (m_s s) in
        Ok (int (zlen ss), mkSet ss (pos s) (Some (int (mysql_num_rows res))) (Some (int (mysql_num_fields res))) f)
    end
  else Ok (-1, s).

(** ** The cursor *)

Definition MoveNext (s : CRecordSet) : Z * CRecordSet :=
  let p := ulong (pos s + 1) in (long p, with_pos p s).

Definition Move (length : Z) (s : CRecordSet) : Z * CRecordSet :=
  let l := int (ulong (pos s + ulong length)) in
  if l <? 0 then (0, with_pos 0 s)
  else
    let p := if zlen (m_s s) <=? l then ulong (zlen (m_s s) - 1) else l in
    (long p, with_pos p s).

Definition MoveFirst (s : CRecordSet) : bool * CRecordSet := (true, with_pos 0 s).
Definition MoveLast (s : CRecordSet) : bool * CRecordSet := (true, with_pos (ulong (zlen (m_s s) - 1)) s).
Definition GetCurrentPos (s : CRecordSet) : Z := pos s.
Definition IsEof (s : CRecordSet) : bool := pos s =? zlen (m_s s).

(** ** Values *)

(** [m_s[i]], which does not check its index. *)
Definition nth_record (s : CRecordSet) (i : Z) : outcome CRecord :=
  if (0 <=? i) && (i <? zlen (m_s s)) then
    match m_s s !! Z.to_nat i with Some r => Ok r | None => Fault OutOfBounds end
  else Fault OutOfBounds.

(** [strcpy(sValue, text.c_str())] into the caller's array. *)
Definition strcpy (sValue text : list char) : outcome (list char) := mem_write sValue 0 (cstring text ++ [NUL]).

Definition GetFieldValue_name (s : CRecordSet) (index : Z) (sFieldName sValue : list char) : outcome (bool * list char) :=
  let! r := nth_record s index in
  let! v := strcpy sValue (record_named (set_field s) r sFieldName) in
  Ok (true, v).
Definition GetFieldValue_num (s : CRecordSet) (index iFieldNum : Z) (sValue : list char) : outcome (bool * list char) :=
  let! r := nth_record s index in
  let! v := strcpy sValue (record_at r iFieldNum) in
  Ok (true, v).

Definition GetCurrentFieldValue_name (s : CRecordSet) (sFieldName sValue : list char) : outcome (bool * list char) :=
  GetFieldValue_name s (pos s) sFieldName sValue.
Definition GetCurrentFieldValue_num (s : CRecordSet) (iFieldNum : Z) (sValue : list char) : outcome (bool * list char) :=
  GetFieldValue_num s (pos s) iFieldNum sValue.
Definition GetCurrentFieldValue_string (s : CRecordSet) (sFieldName : list char) : outcome (bool * list char) :=
  let! r := nth_record s (pos s) in
  Ok (true, record_named (set_field s) r sFieldName).

Definition GetRecordCount (s : CRecordSet) : outcome Z :=
  match m_recordcount s with Some n => Ok n | None => Fault Uninitialised end.
Definition GetFieldNum (s : CRecordSet) : outcome Z :=
  match m_field_num s with Some n => Ok n | None => Fault Uninitialised end.

Definition GetFieldName (s : CRecordSet) (iNum : Z) : option (list char) :=
  if (iNum <? 0) || (zlen (m_name (set_field s)) <=? iNum) then None
  else m_name (set_field s) !! Z.to_nat iNum.
Definition GetFieldType_num (s : CRecordSet) (iNum : Z) : Z :=
  if (iNum <? 0) || (zlen (m_type (set_field s)) <=? iNum) then 0
  else default 0 (m_type (set_field s) !! Z.to_nat iNum).
Definition GetFieldType_name (s : CRecordSet) (sName : list char) : Z :=
  GetFieldType_num s (GetField_NO (set_field s) sName).

(** [operator[](int)]: a copy; outside the set, a record made of a null pointer. *)
Definition set_at (s : CRecordSet) (num : Z) : CRecord :=
  if (num <? 0) || (zlen (m_s s) <=? num) then new_CRecord false
  else default (new_CRecord false) (m_s s !! Z.to_nat num).
