(* ===== verification/RecordSetSpec.v ===== *)
(** Record sets hold what the query returned: every value can be read by the
    number and by the name of its column, walking through a set visits its rows
    once and in order, and the cursor stays inside a set that is not empty. *)

From stdpp Require Import base tactics list numbers strings.
From S2P Require Import Prelude StateMonad Text RecordSet.

Local Open Scope Z_scope.

(** * A well-formed result *)

Definition terminated (s : list char) : Prop := is_Some (strlen s).

Record res_ok (r : MYSQL_RES) : Prop := {
  ro_names : Forall (fun x => terminated x.1) (res_fields r);
  ro_rows : Forall (fun row => length row = length (res_fields r)) (res_rows r);
  ro_values : Forall (Forall (fun v => match v with Some s => terminated s | None => True end)) (res_rows r);
  ro_size : zlen (res_rows r) <= INT_MAX /\ zlen (res_fields r) <= INT_MAX
}.

(** The text of a value: a NULL reads as the empty string. *)
Definition text_of (v : option (list char)) : list char := match v with Some s => cstring s | None => [] end.
Definition column_names (r : MYSQL_RES) : list (list char) := (fun x => cstring x.1) <$> res_fields r.
Definition records_of (r : MYSQL_RES) : list CRecord := (fun row => mkRecord (text_of <$> row) true) <$> res_rows r.

Lemma to_string_terminated s : terminated s -> to_string s = Ok (cstring s).
Proof. intros [n E]. unfold to_string. by rewrite E. Qed.

Lemma fields_from_ok fds f : Forall (fun x => terminated x.1) fds ->
  fields_from fds f = Ok (mkField (m_name f ++ ((fun x => cstring x.1) <$> fds)) (m_type f ++ fds.*2)).
Proof.
  intros Hf. revert f. induction Hf as [|[n t] fds Hn _ IH]; intros f; cbn [fields_from].
  - cbn. rewrite !app_nil_r. by destruct f.
  - rewrite (to_string_terminated n Hn). cbn [obind]. rewrite IH. cbn. by rewrite <- !app_assoc.
Qed.

Lemma row_loop_ok row pre temp :
  Forall (fun v => match v with Some s => terminated s | None => True end) row ->
  row_loop (length row) (length pre) (pre ++ row) temp = Ok (mkRecord (m_rs temp ++ (text_of <$> row)) (m_field temp)).
Proof.
  intros Hrow. revert pre temp. induction Hrow as [|v row Hv _ IH]; intros pre temp; cbn [length row_loop].
  - cbn. rewrite app_nil_r. by destruct temp.
  - rewrite list_lookup_middle by done.
    assert (forall t, row_loop (length row) (S (length pre)) (pre ++ v :: row) t =
      Ok (mkRecord (m_rs t ++ (text_of <$> row)) (m_field t))) as IH'.
    { intros t. specialize (IH (pre ++ [v]) t). rewrite <- app_assoc, length_app, Nat.add_1_r in IH. exact IH. }
    destruct v as [s|]; [rewrite (to_string_terminated s Hv); cbn [obind]|]; rewrite IH'; cbn; by rewrite <- app_assoc.
Qed.

Lemma rows_loop_ok n rows ss :
  Forall (fun row => length row = n) rows ->
  Forall (Forall (fun v => match v with Some s => terminated s | None => True end)) rows ->
  rows_loop n rows ss = Ok (ss ++ ((fun row => mkRecord (text_of <$> row) true) <$> rows)).
Proof.
  intros Hn Hv. revert ss. induction rows as [|row rows IH]; intros ss; cbn [rows_loop].
  - by rewrite app_nil_r.
  - apply Forall_cons in Hn as [Hn1 Hn]. apply Forall_cons in Hv as [Hv1 Hv].
    subst n. pose proof (row_loop_ok row [] (new_CRecord true) Hv1) as E. cbn [length app] in E. rewrite E. cbn [obind].
    rewrite IH by done.
    cbn. by rewrite <- app_assoc.
Qed.

Lemma ExecuteSQL_ok res s : res_ok res -> zlen (m_s s) + zlen (res_rows res) <= INT_MAX ->
  ExecuteSQL 0 (Some res) s = Ok (zlen (m_s s) + zlen (res_rows res),
    mkSet (m_s s ++ records_of res) (pos s) (Some (zlen (res_rows res))) (Some (zlen (res_fields res)))
      (mkField (m_name (set_field s) ++ column_names res) (m_type (set_field s) ++ (res_fields res).*2))).
Proof.
  intros [Hn Hr Hv [Hs1 Hs2]] Hmax. unfold ExecuteSQL. cbn [Z.eqb]. rewrite fields_from_ok by done. cbn [obind].
  unfold mysql_num_fields, mysql_num_rows. rewrite Nat2Z.id, rows_loop_ok by done. cbn [obind]. fold (records_of res).
  rewrite length_app, Nat2Z.inj_add. unfold records_of at 1. rewrite length_fmap.
  rewrite !int_id by (unfold INT_MIN, INT_MAX in *; lia). done.
Qed.

(** ** Columns by name *)

(** The column [j] is the first one with the name [c]. *)
Definition first_named (names : list (list char)) (c : list char) (j : nat) : Prop :=
  names !! j = Some c /\ forall k, (k < j)%nat -> names !! k <> Some c.

Lemma field_loop_first names c j i : first_named names c j -> INT_MIN <= i -> i + zlen names <= INT_MAX ->
  field_loop names c i = i + Z.of_nat j.
Proof.
  revert j i. induction names as [|n names IH]; intros j i [Hj Hk] Hi Hmax; [done|]. cbn [field_loop length] in *.
  destruct j as [|j].
  - injection Hj as ->. unfold same. rewrite bool_decide_true by done. rewrite int_id by (unfold INT_MAX in *; lia). lia.
  - unfold same. rewrite bool_decide_false by (intros ->; by apply (Hk 0%nat); [lia|]).
    rewrite (IH j); [lia| |lia|lia]. split; [done|]. intros k Hlt. apply (Hk (S k)). lia.
Qed.

Lemma field_loop_missing names c i : c ∉ names -> field_loop names c i = -1.
Proof.
  revert i. induction names as [|n names IH]; intros i Hc; [done|]. apply not_elem_of_cons in Hc as [Hne Hc].
  cbn [field_loop]. unfold same. rewrite bool_decide_false by done. by apply IH.
Qed.

Lemma record_at_lookup r j v : m_rs r !! j = Some v -> record_at r (Z.of_nat j) = v.
Proof.
  intros Hj. unfold record_at. pose proof (lookup_lt_Some _ _ _ Hj).
  rewrite (proj2 (Z.ltb_ge _ _)), (proj2 (Z.leb_gt _ _)) by lia. cbn [orb]. by rewrite Nat2Z.id, Hj.
Qed.

Lemma nth_record_lookup s i r : m_s s !! i = Some r -> nth_record s (Z.of_nat i) = Ok r.
Proof.
  intros Hi. unfold nth_record. pose proof (lookup_lt_Some _ _ _ Hi).
  rewrite (proj2 (Z.leb_le _ _)), (proj2 (Z.ltb_lt _ _)) by lia. cbn [andb]. by rewrite Nat2Z.id, Hi.
Qed.

Lemma strcpy_ok buf text : Forall (fun c => c <> NUL) text -> zlen text < zlen buf ->
  strcpy buf text = Ok (text ++ NUL :: drop (S (length text)) buf).
Proof.
  intros Ht Hlen. unfold strcpy.
  assert (cstring text = text) as ->.
  { clear Hlen. induction Ht as [|c text Hc _ IH]; [done|]. cbn. by rewrite (proj2 (Z.eqb_neq c NUL)), IH by done. }
  rewrite mem_write_ok by (rewrite ?length_app; cbn; lia). f_equal. cbn. rewrite <- app_assoc, length_app. cbn.
  by rewrite Nat.add_1_r.
Qed.

(** ** Walking *)

(** [while (!IsEof()) { GetCurrentFieldValue(name, v); ...; MoveNext(); }] *)
Fixpoint scan (fuel : nat) (name : list char) (s : CRecordSet) : outcome (list (list char)) :=
  if IsEof s then Ok []
  else match fuel with
       | O => Fault OutOfFuel
       | S f =>
           let! (_, v) := GetCurrentFieldValue_string s name in
           let! vs := scan f name (MoveNext s).2 in
           Ok (v :: vs)
       end.

Lemma cstring_no_nul s : Forall (fun c => c <> NUL) (cstring s).
Proof. induction s as [|c s IH]; cbn; [done|]. destruct (Z.eqb_spec c NUL); [done|]. by constructor. Qed.

(** The set that a query fills. *)
Definition filled (res : MYSQL_RES) : CRecordSet :=
  mkSet (records_of res) 0 (Some (zlen (res_rows res))) (Some (zlen (res_fields res)))
    (mkField (column_names res) (res_fields res).*2).

Lemma filled_value res i row j c v :
  res_ok res -> res_rows res !! i = Some row -> row !! j = Some v -> first_named (column_names res) c j ->
  nth_record (filled res) (Z.of_nat i) = Ok (mkRecord (text_of <$> row) true) /\
  record_at (mkRecord (text_of <$> row) true) (Z.of_nat j) = text_of v /\
  record_named (set_field (filled res)) (mkRecord (text_of <$> row) true) c = text_of v.
Proof.
  intros Hok Hi Hj Hc.
  assert (record_at (mkRecord (text_of <$> row) true) (Z.of_nat j) = text_of v) as Hat.
  { apply record_at_lookup. cbn. by rewrite list_lookup_fmap, Hj. }
  split_and!; [|done|].
  - apply nth_record_lookup. cbn. unfold records_of. by rewrite list_lookup_fmap, Hi.
  - unfold record_named. cbn [m_field]. unfold GetField_NO. cbn [set_field filled m_name].
    rewrite (field_loop_first _ c j 0 Hc); [by rewrite Z.add_0_l| |]; unfold INT_MIN, INT_MAX; [lia|].
    unfold column_names. rewrite length_fmap. apply (ro_size _ Hok).
Qed.

Lemma scan_filled res c j k : res_ok res -> first_named (column_names res) c j ->
  (k <= length (res_rows res))%nat -> zlen (res_rows res) <= INT_MAX ->
  scan (k + 1) c (with_pos (zlen (res_rows res) - Z.of_nat k) (filled res)) =
    Ok ((fun row => text_of (default None (row !! j))) <$> drop (length (res_rows res) - k) (res_rows res)).
Proof.
  intros Hok Hc. induction k as [|k IH]; intros Hk Hmax.
  - rewrite Nat.sub_0_r, drop_all. cbn [Nat.add scan]. unfold IsEof. cbn. unfold records_of. rewrite length_fmap.
    by rewrite Z.sub_0_r, Z.eqb_refl.
  - set (n := length (res_rows res)) in *. cbn [Nat.add scan]. unfold IsEof. cbn [pos m_s with_pos filled].
    unfold records_of at 1. rewrite length_fmap. fold n. rewrite (proj2 (Z.eqb_neq _ _)) by lia.
    destruct (lookup_lt_is_Some_2 (res_rows res) (n - S k)) as [row Hrow]; [unfold n in *; lia|].
    rewrite (drop_S _ _ _ Hrow). cbn [fmap list_fmap].
    pose proof (ro_rows _ Hok) as Hlen. rewrite Forall_forall in Hlen.
    specialize (Hlen row (list_elem_of_lookup_2 _ _ _ Hrow)).
    destruct (lookup_lt_is_Some_2 row j) as [v Hv].
    { rewrite Hlen. destruct Hc as [Hc _]. apply lookup_lt_Some in Hc. unfold column_names in Hc. by rewrite length_fmap in Hc. }
    destruct (filled_value res _ row j c v Hok Hrow Hv Hc) as (E1 & _ & E2).
    unfold GetCurrentFieldValue_string. cbn [pos with_pos].
    replace (Z.of_nat n - Z.of_nat (S k)) with (Z.of_nat (n - S k)) by lia.
    change (nth_record (with_pos (Z.of_nat (n - S k)) (filled res)) (Z.of_nat (n - S k)))
      with (nth_record (filled res) (Z.of_nat (n - S k))). rewrite E1. cbn [obind].
    change (set_field (with_pos (Z.of_nat (n - S k)) (filled res))) with (set_field (filled res)). rewrite E2, Hv.
    cbn [obind MoveNext snd with_pos pos].
    replace (with_pos (ulong (Z.of_nat (n - S k) + 1)) (with_pos (Z.of_nat (n - S k)) (filled res)))
      with (with_pos (Z.of_nat n - Z.of_nat k) (filled res)).
    2: { unfold with_pos. cbn. f_equal. rewrite unsigned_id by (unfold INT_MAX in *; lia). lia. }
    rewrite IH by (unfold n in *; lia). cbn [obind default]. by replace (S (n - S k)) with (n - k)%nat by lia.
Qed.

(** C21: reading a query.  After [ExecuteSQL] on a new set, the number of rows
    that is returned is the one of the result; the value of any row is read by
    the number of its column and by its name, into an array that is large
    enough, as the text up to its first NUL, and as the empty text for a NULL;
    and walking from the first row to the end visits every row once, in order. *)
Theorem record_set_reads res : res_ok res ->
  ExecuteSQL 0 (Some res) new_CRecordSet = Ok (zlen (res_rows res), filled res) /\
  GetRecordCount (filled res) = Ok (zlen (res_rows res)) /\
  (forall i row j c v buf, res_rows res !! i = Some row -> row !! j = Some v ->
     first_named (column_names res) c j -> zlen (text_of v) < zlen buf ->
     let copied := Ok (true, text_of v ++ NUL :: drop (S (length (text_of v))) buf) in
     GetFieldValue_num (filled res) (Z.of_nat i) (Z.of_nat j) buf = copied /\
     GetFieldValue_name (filled res) (Z.of_nat i) c buf = copied) /\
  (forall c j, first_named (column_names res) c j ->
     scan (length (res_rows res) + 1) c (MoveFirst (filled res)).2 =
       Ok ((fun row => text_of (default None (row !! j))) <$> res_rows res)).
Proof.
  intros Hok. pose proof (ro_size _ Hok) as [Hs1 Hs2]. split_and!.
  - rewrite ExecuteSQL_ok by (done || cbn; lia). done.
  - done.
  - intros i row j c v buf Hi Hj Hc Hlen. destruct (filled_value res i row j c v Hok Hi Hj Hc) as (E1 & E2 & E3).
    assert (strcpy buf (text_of v) = Ok (text_of v ++ NUL :: drop (S (length (text_of v))) buf)) as E4.
    { apply strcpy_ok; [|done]. destruct v; [apply cstring_no_nul|done]. }
    split; [unfold GetFieldValue_num|unfold GetFieldValue_name]; rewrite E1; cbn [obind]; rewrite ?E2, ?E3, E4; done.
  - intros c j Hc. pose proof (scan_filled res c j (length (res_rows res)) Hok Hc ltac:(lia) Hs1) as E.
    rewrite Nat.sub_diag, Z.sub_diag in E. exact E.
Qed.

(** The cursor.  On a set with rows [Move] stops at the first and at the
    last row, and [MoveLast] is on the last one; so a value can be read after
    each.  On an empty set both leave the cursor at the largest number, and
    reading there goes out of bounds. *)
Theorem cursor_bounds s d : zlen (m_s s) <= INT_MAX -> 0 <= pos s <= zlen (m_s s) ->
  INT_MIN <= pos s + d <= INT_MAX ->
  if bool_decide (m_s s = []) then
    (0 <= d -> pos (Move d s).2 = SIZE_MAX) /\ pos (MoveLast s).2 = SIZE_MAX /\
    forall c, GetCurrentFieldValue_string (MoveLast s).2 c = Fault OutOfBounds
  else
    pos (Move d s).2 = Z.max 0 (Z.min (zlen (m_s s) - 1) (pos s + d)) /\
    pos (MoveLast s).2 = zlen (m_s s) - 1 /\
    forall c, exists v, GetCurrentFieldValue_string (Move d s).2 c = Ok (true, v).
Proof.
  intros Hmax Hpos Hd.
  assert (int (ulong (pos s + ulong d)) = pos s + d) as Hl.
  { unfold signed, unsigned. rewrite Z.add_mod_idemp_r by lia.
    rewrite <- (Z.add_mod_idemp_l ((pos s + d) mod _)) by lia. unfold INT_MIN, INT_MAX in *.
    change (2 ^ 64) with (2 ^ 32 * 2 ^ 32). rewrite (Z.rem_mul_r (pos s + d)) by lia.
    rewrite (Z.mul_comm (2 ^ 32) (_ mod 2 ^ 32)), Z.mod_add, Z.mod_mod, Z.add_mod_idemp_l by lia.
    rewrite Z.mod_small; lia. }
  assert (pos (Move d s).2 = if pos s + d <? 0 then 0 else if zlen (m_s s) <=? pos s + d then ulong (zlen (m_s s) - 1) else pos s + d) as Hm.
  { unfold Move. rewrite Hl. by destruct (pos s + d <? 0). }
  case_bool_decide as He.
  - rewrite He in *. cbn [length] in *. change (Z.of_nat 0) with 0 in *. split_and!.
    + intros Hd0. rewrite Hm, (proj2 (Z.ltb_ge _ _)), (proj2 (Z.leb_le _ _)) by lia. done.
    + unfold MoveLast. rewrite He. done.
    + intros c. unfold GetCurrentFieldValue_string, MoveLast, nth_record. cbn. rewrite He. done.
  - assert (0 < zlen (m_s s)) as Hne by (destruct (m_s s); cbn; [done|lia]).
    assert (ulong (zlen (m_s s) - 1) = zlen (m_s s) - 1) as Hu by (apply unsigned_id; unfold INT_MAX in *; lia).
    assert (pos (Move d s).2 = Z.max 0 (Z.min (zlen (m_s s) - 1) (pos s + d))) as Hm2.
    { rewrite Hm, Hu. destruct (Z.ltb_spec (pos s + d) 0); [lia|]. destruct (Z.leb_spec (zlen (m_s s)) (pos s + d)); lia. }
    split_and!; [done|done|]. intros c. unfold GetCurrentFieldValue_string. rewrite Hm2.
    assert (m_s (Move d s).2 = m_s s) as Hs by (unfold Move; cbv zeta; by destruct (int _ <? 0)).
    set (p := Z.max 0 _). destruct (lookup_lt_is_Some_2 (m_s s) (Z.to_nat p)) as [r Hr]; [unfold p; lia|].
    pose proof (nth_record_lookup (Move d s).2 (Z.to_nat p) r ltac:(by rewrite Hs)) as E.
    rewrite Z2Nat.id in E by (unfold p; lia). rewrite E. cbn [obind]. eauto.
Qed.

(** * Witnesses *)

Definition demo_res : MYSQL_RES :=
  mkRes [(lit "id" ++ [NUL], 3); (lit "name" ++ [NUL], FIELD_TYPE_VAR_STRING)]
    [[Some (lit "1" ++ [NUL]); None]; [Some (lit "2" ++ [NUL]); Some (lit "bob" ++ [NUL])]].

Lemma demo_res_ok : res_ok demo_res.
Proof.
  split.
  - repeat (apply Forall_nil_2 || apply Forall_cons_2); by eexists.
  - by repeat constructor.
  - repeat (apply Forall_nil_2 || apply Forall_cons_2); try done; by eexists.
  - by split; vm_compute.
Qed.

Lemma record_set_reads_witness :
  ExecuteSQL 0 (Some demo_res) new_CRecordSet = Ok (2, filled demo_res) /\
  GetFieldValue_name (filled demo_res) 1 (lit "name") (repeat 7 5) = Ok (true, lit "bob" ++ [NUL; 7]) /\
  scan 3 (lit "name") (MoveFirst (filled demo_res)).2 = Ok [[]; lit "bob"].
Proof.
  destruct (record_set_reads demo_res demo_res_ok) as (E1 & _ & E2 & E3). split_and!; [exact E1| |].
  - refine (proj2 (E2 1%nat _ 1%nat (lit "name") (Some (lit "bob" ++ [NUL])) (repeat 7 5) eq_refl eq_refl _ _)); [|reflexivity].
    split; [reflexivity|]. intros k Hk. assert (k = 0%nat) as -> by lia. discriminate.
  - refine (E3 (lit "name") 1%nat _). split; [reflexivity|]. intros k Hk. assert (k = 0%nat) as -> by lia. discriminate.
Defined.

Lemma cursor_bounds_witness :
  pos (Move 5 (filled demo_res)).2 = 1 /\ pos (MoveLast new_CRecordSet).2 = SIZE_MAX.
Proof.
  split.
  - apply (cursor_bounds (filled demo_res) 5); vm_compute; repeat split; discriminate.
  - apply (cursor_bounds new_CRecordSet 0); vm_compute; repeat split; discriminate.
Defined.

(** A second query on the same set appends its rows and columns, so a column is
    found by the place it had in the first one. *)
Example second_query_appends :
  match ExecuteSQL 0 (Some (mkRes [(lit "name" ++ [NUL], 253)] [[Some (lit "al" ++ [NUL])]])) (filled demo_res) with
  | Ok (n, s) => n = 3 /\ record_named (set_field s) (set_at s 2) (lit "name") = []
  | Fault _ => False
  end.
Proof. by vm_compute. Qed.

(** A value that was empty or NULL is not reported as null. *)
Lemma is_null_never f r : (forall num, IsNull r num = false) /\ (forall s, IsNull_name f r s = false).
Proof.
  split; [intros num|intros s]; unfold IsNull_name, IsNull, same_pointer; by repeat case_match.
Qed.

(** A statement that returns no rows dereferences a null result. *)
Example no_result_crashes : ExecuteSQL 0 None new_CRecordSet = Fault NullDeref.
Proof. done. Qed.

(** The macro for flags, applied to a type: text columns count as binary. *)
Example text_is_blob : IsBlob (set_field (filled demo_res)) 1 = true /\ IsChar (mkField [lit "n"] [FIELD_TYPE_TINY]) 0 = true.
Proof. by vm_compute. Qed.
