(* ===== verification/SqlClient.v ===== *)
(** The MySQL client of the server (CSqlClient.h, CSqlClient.cpp) over libmysql.

    The library is a list of answers: a call on a handle takes the next one and
    is recorded; a call for which there is no answer never returns.  Handles are
    numbers, the open ones are known, and using one that is not open is a fault,
    as is closing it twice.  Results that the library stores are counted until
    they are freed.  Of the messages for the log the one about a refused statement
    is modelled, whose text the program does not bound; those about connections,
    whose texts come from the configuration, are left out. *)

From stdpp Require Import base tactics list numbers strings gmap.
From S2P Require Import Prelude StateMonad Printf LogCall Text RecordSet.

Local Open Scope Z_scope.

(** * libmysql *)

(** The answer to a call: a number, for [mysql_store_result] a result and for
    [mysql_error] a text. *)
Record myret := mkAnswer { mr_int : Z; mr_res : option MYSQL_RES; mr_text : list char }.
Definition mkMy (z : Z) (r : option MYSQL_RES) : myret := mkAnswer z r [].

Inductive mycall :=
| MyInit
| MyConnect (h : Z) (address user password dbName : list char) (port flag : Z)
| MyCharset (h : Z) (name : list char)
| MySelect (h : Z) (dbName : list char)
| MyClose (h : Z)
| MyQuery (h : Z) (sql : list char)
| MyStore (h : Z)
| MyNext (h : Z)
| MyErrno (h : Z)
| MyError (h : Z)
| MyPing (h : Z)
| MyAutocommit (h mode : Z)
| MyRollback (h : Z)
| MyCommit (h : Z).

Record mysqlw := mkMysql {
  q_answers : list myret;
  q_trace : list mycall;
  q_open : gset Z;
  q_next : Z;
  q_results : Z
}.

Abbreviation QM := (SM mysqlw).

Definition mysql0 : mysqlw := mkMysql [] [] ∅ 1 0.

Definition record_call (c : mycall) (w : mysqlw) : mysqlw :=
  mkMysql (q_answers w) (q_trace w ++ [c]) (q_open w) (q_next w) (q_results w).
Definition add_results (d : Z) (w : mysqlw) : mysqlw :=
  mkMysql (q_answers w) (q_trace w) (q_open w) (q_next w) (q_results w + d).

Definition next_answer (c : mycall) : QM myret := fun w =>
  match q_answers w with
  | [] => Fault Blocks
  | a :: rest => Ok (a, mkMysql rest (q_trace w ++ [c]) (q_open w) (q_next w) (q_results w))
  end.

(** The handle of a call, which must be open. *)
Definition on_handle (h : option Z) : QM Z := fun w =>
  match h with
  | None => Fault NullDeref
  | Some h => if bool_decide (h ∈ q_open w) then Ok (h, w) else Fault UseAfterFree
  end.
Definition ask (h : option Z) (c : Z -> mycall) : QM Z :=
  do* h := on_handle h in
  do* a := next_answer (c h) in
  sret (mr_int a).

(** [mysql_init(NULL)]: null when the answer is 0. *)
Definition mysql_init : QM (option Z) :=
  do* a := next_answer MyInit in
  if mr_int a =? 0 then sret None
  else fun w => Ok (Some (q_next w), mkMysql (q_answers w) (q_trace w) ({[q_next w]} ∪ q_open w) (q_next w + 1) (q_results w)).

Definition mysql_close (h : option Z) : QM unit :=
  do* h := on_handle h in
  fun w => Ok (tt, mkMysql (q_answers w) (q_trace w ++ [MyClose h]) (q_open w ∖ {[h]}) (q_next w) (q_results w)).

Definition mysql_store_result (h : option Z) : QM (option MYSQL_RES) :=
  do* h := on_handle h in
  do* a := next_answer (MyStore h) in
  match mr_res a with
  | Some r => do* _ := smodify (add_results 1) in sret (Some r)
  | None => sret None
  end.
Definition mysql_error (h : option Z) : QM (list char) :=
  do* h := on_handle h in
  do* a := next_answer (MyError h) in
  sret (mr_text a).
Definition mysql_free_result : QM unit := smodify (add_results (-1)).

(** * The client *)

Record CSqlClient := mkSqlClient {
  m_port : option Z;
  m_address : list char;
  m_user : list char;
  m_password : list char;
  m_dbName : list char;
  m_flag : option Z;
  m_iReconnectCount : Z;
  m_SqlHandle : option Z;
  m_locker : bool
}.

Definition set_handle h t := mkSqlClient (m_port t) (m_address t) (m_user t) (m_password t) (m_dbName t) (m_flag t) (m_iReconnectCount t) h (m_locker t).
Definition set_sql_locker b t := mkSqlClient (m_port t) (m_address t) (m_user t) (m_password t) (m_dbName t) (m_flag t) (m_iReconnectCount t) (m_SqlHandle t) b.
Definition set_sql_count n t := mkSqlClient (m_port t) (m_address t) (m_user t) (m_password t) (m_dbName t) (m_flag t) n (m_SqlHandle t) (m_locker t).

Definition new_CSqlClient : CSqlClient := mkSqlClient None [] [] [] [] None 0 None false.

(** [LockerGuard guard(m_locker)] until the end of the scope. *)
Definition sql_guarded {A} (this : CSqlClient) (body : CSqlClient -> QM (A * CSqlClient)) : QM (A * CSqlClient) :=
  if m_locker this then scrash Blocks
  else
    do* (r, this) := body (set_sql_locker true this) in
    sret (r, set_sql_locker false this).

Definition set_member (x : option Z) : QM Z := match x with Some v => sret v | None => scrash Uninitialised end.

Definition CHARSET : list char := lit "gb2312".

(** [mysql_select_db] reports an error by any number but zero, which the test for
    a negative one may not see. *)
Definition OnConnect (this : CSqlClient) : QM (bool * CSqlClient) :=
  sql_guarded this (fun this =>
    do* h := mysql_init in
    let this := set_handle h this in
    match h with
    | None => sret (false, this)
    | Some _ =>
        do* port := set_member (m_port this) in
        do* flag := set_member (m_flag this) in
        do* ok := ask h (fun h => MyConnect h (cstring (m_address this)) (cstring (m_user this))
                                    (cstring (m_password this)) (cstring (m_dbName this)) port flag) in
        if negb (ok =? 0) then
          do* _ := ask h (fun h => MyCharset h CHARSET) in
          do* sel := ask h (fun h => MySelect h (cstring (m_dbName this))) in
          if sel <? 0 then
            do* _ := mysql_close h in
            sret (false, set_handle None this)
          else sret (true, this)
        else
          do* _ := mysql_close h in
          sret (false, set_handle None this)
    end).

Definition OnInit (address : list char) (port : Z) (user password dbName : list char) (flag : Z) (this : CSqlClient)
  : QM (bool * CSqlClient) :=
  OnConnect (mkSqlClient (Some port) address user password dbName (Some flag) (m_iReconnectCount this) (m_SqlHandle this) (m_locker this)).

Definition OnDisConnect (this : CSqlClient) : QM CSqlClient :=
  do* (_, this) := sql_guarded this (fun this =>
    do* _ := (match m_SqlHandle this with Some h => mysql_close (Some h) | None => sret tt end) in
    sret (tt, set_handle None this)) in
  sret this.

(** The destructor. *)
Definition delete_CSqlClient (this : CSqlClient) : QM unit :=
  do* _ := OnDisConnect this in sret tt.

Definition ReConnect (this : CSqlClient) : QM (bool * CSqlClient) :=
  do* this := OnDisConnect this in OnConnect this.

(** ** Statements *)

Definition ExecSqlCmd (sql : list char) (this : CSqlClient) : QM (Z * CSqlClient) :=
  sql_guarded this (fun this =>
    match m_SqlHandle this with
    | None => sret (-1, this)
    | Some h =>
        do* r := ask (Some h) (fun h => MyQuery h (cstring sql)) in
        sret (if r =? 0 then 0 else -1, this)
    end).

Definition SEMICOLON : list char := [59].

(** [result += sqlrow[j]] for [j] below the number of columns. *)
Fixpoint cells_loop (n j : nat) (row : list (option (list char))) (result : list char) : outcome (list char) :=
  match n with
  | O => Ok result
  | S n' =>
      let result := if (0 <? j)%nat then result ++ SEMICOLON else result in
      match row !! j with
      | None => Fault OutOfBounds
      | Some None => Fault NullDeref
      | Some (Some v) => let! s := to_string v in cells_loop n' (S j) row (result ++ s)
      end
  end.

(** [mysql_fetch_row] returns null after the last row. *)
Fixpoint table_loop (n ncols : nat) (rows : list (list (option (list char)))) (result : list char) : outcome (list char) :=
  match n with
  | O => Ok result
  | S n' =>
      match rows with
      | [] => if (0 <? ncols)%nat then Fault NullDeref else table_loop n' ncols [] result
      | row :: rows' => let! result := cells_loop ncols 0 row result in table_loop n' ncols rows' result
      end
  end.

(** [do { ... } while (!mysql_next_result(m_SqlHandle))]: each turn takes two
    answers. *)
Fixpoint results_loop (fuel : nat) (h : Z) (result : list char) : QM (list char) :=
  match fuel with
  | O => scrash OutOfFuel
  | S f =>
      do* res := mysql_store_result (Some h) in
      do* result :=
        (match res with
         | Some r =>
             do* result := slift (table_loop (Z.to_nat (int (mysql_num_rows r))) (Z.to_nat (int (mysql_num_fields r))) (res_rows r) result) in
             do* _ := mysql_free_result in
             sret result
         | None => sret result
         end) in
      do* more := ask (Some h) MyNext in
      if more =? 0 then results_loop f h result else sret result
  end.

Definition answers_fuel : QM nat := fun w => Ok (S (length (q_answers w)), w).

(** The text of [WLogError("CSqlClient::ExecSqlCmd::mysql_query::%s==>%d: %s !\n",
    ...)]. *)
Definition refused_text (sql : list char) (errno : Z) (error : list char) : list char :=
  lit "CSqlClient::ExecSqlCmd::mysql_query::" ++ cstring sql ++ lit "==>" ++ dec_signed (int errno) ++ lit ": " ++ cstring error ++ lit " !" ++ [LF].

(** The overload that collects the result. *)
Definition ExecSqlCmd_result (sql result : list char) (this : CSqlClient) : QM (Z * list char * CSqlClient) :=
  sql_guarded this (fun this =>
    match m_SqlHandle this with
    | None => sret (-1, result, this)
    | Some h =>
        do* iRet := ask (Some h) (fun h => MyQuery h (cstring sql)) in
        if negb (iRet =? 0) then
          do* errno := ask (Some h) MyErrno in
          do* error := mysql_error (Some h) in
          do* _ := WLogError (refused_text sql errno error) in
          sret (iRet, result, this)
        else
          do* fuel := answers_fuel in
          do* result := results_loop fuel h result in
          sret (iRet, result, this)
    end).

(** ** Transactions: the numbers of the library as truth values, so that [true]
    is failure; nothing switches automatic commits on again. *)
Definition BeginTrans (this : CSqlClient) : QM bool :=
  do* r := ask (m_SqlHandle this) (fun h => MyAutocommit h 0) in sret (negb (r =? 0)).
Definition TransRollback (this : CSqlClient) : QM bool :=
  do* r := ask (m_SqlHandle this) MyRollback in sret (negb (r =? 0)).
Definition TransCommit (this : CSqlClient) : QM bool :=
  do* r := ask (m_SqlHandle this) MyCommit in sret (negb (r =? 0)).

Definition MAX_SQL_RECONNECTS : Z := 3.

Definition TestOnline (this : CSqlClient) : QM (bool * CSqlClient) :=
  match m_SqlHandle this with
  | None => sret (false, this)
  | Some _ =>
      do* (isline, this) := sql_guarded this (fun this =>
        do* r := ask (m_SqlHandle this) MyPing in sret (r, this)) in
      if negb (isline =? 0) then
        do* (ok, this) := ReConnect this in
        if ok : bool then sret (true, set_sql_count 0 this)
        else
          do* n := slift (int_ok (m_iReconnectCount this + 1)) in
          sret (n <=? MAX_SQL_RECONNECTS, set_sql_count n this)
      else sret (true, set_sql_count 0 this)
  end.
