(* ===== verification/SqlClientSpec.v ===== *)
(** The MySQL client: its handles are opened and closed in pairs whatever the
    library answers, a query returns the text of all its results, and a client
    that could not reconnect is given up at the next check. *)

From stdpp Require Import base tactics list numbers strings gmap.
From S2P Require Import Prelude StateMonad Printf LogCall Text RecordSet RecordSetSpec SqlClient.

Local Open Scope Z_scope.

(** * Handles *)

(** What is left of the answers: a budget allows a number of calls, and a call
    takes an answer. *)
Class Budget (P : nat -> list myret -> Prop) := {
  budget_take n l : P (S n) l -> exists a l', l = a :: l' /\ P n l';
  budget_le n m l : (n <= m)%nat -> P m l -> P n l
}.

(** At least [n] answers are left. *)
Definition enough (n : nat) (l : list myret) : Prop := (n <= length l)%nat.
#[export] Instance enough_budget : Budget enough.
Proof. split; unfold enough; [intros n [|a l] H; cbn in *; [lia|exists a, l; split; [done|lia]]|intros; lia]. Qed.

(** [base] are the handles of others; the client has [h] of its own, or none.
    The budget allows [n] calls, and [r] results are stored. *)
Record holds_with (P : nat -> list myret -> Prop) (base : gset Z) (r : Z) (h : option Z) (n : nat) (w : mysqlw) : Prop := {
  ho_open : q_open w = match h with Some h => {[h]} ∪ base | None => base end;
  ho_own : forall x, h = Some x -> x ∉ base;
  ho_fresh : forall x, x ∈ q_open w -> x < q_next w;
  ho_answers : P n (q_answers w);
  ho_results : q_results w = r
}.
Abbreviation holding := (holds_with enough).

Lemma holding_le `{!Budget P} base r h n m w : (n <= m)%nat -> holds_with P base r h m w -> holds_with P base r h n w.
Proof. intros Hn []. split; try done. by eapply budget_le. Qed.

Section calls.
Context `{!Budget P} (base : gset Z) (r : Z).

Lemma wp_ask {h n c w Q} : holds_with P base r (Some h) (S n) w ->
  (forall z w', holds_with P base r (Some h) n w' -> Q z w') -> wp (ask (Some h) c) Q w.
Proof.
  intros [Ho Hw Hf Ha Hr] HQ. unfold wp, ask, on_handle, next_answer, sbind.
  rewrite bool_decide_true by (rewrite Ho; set_solver).
  destruct (budget_take _ _ Ha) as (a & rest & -> & Ha'). apply HQ. by split.
Qed.

Lemma wp_mysql_init {n w} {Q : option Z -> mysqlw -> Prop} : holds_with P base r None (S n) w ->
  (forall h w', holds_with P base r h n w' -> Q h w') -> wp mysql_init Q w.
Proof.
  intros [Ho Hw Hf Ha Hr] HQ. unfold wp, mysql_init, next_answer, sbind.
  destruct (budget_take _ _ Ha) as (a & rest & -> & Ha'). destruct (mr_int a =? 0).
  - apply HQ. by split.
  - apply HQ. split; cbn [q_open q_next q_answers q_results]; try done; [by rewrite Ho| |].
    + intros x [= <-] Hx. rewrite <- Ho in Hx. specialize (Hf _ Hx). lia.
    + intros x [->%elem_of_singleton|Hx]%elem_of_union; [lia|]. specialize (Hf _ Hx). lia.
Qed.

Lemma wp_mysql_close {h n w} {Q : unit -> mysqlw -> Prop} : holds_with P base r (Some h) n w ->
  (forall w', holds_with P base r None n w' -> Q tt w') -> wp (mysql_close (Some h)) Q w.
Proof.
  intros [Ho Hw Hf Ha Hr] HQ. specialize (Hw h eq_refl). unfold wp, mysql_close, on_handle, sbind.
  rewrite bool_decide_true by (rewrite Ho; set_solver). apply HQ. split; cbn; try done.
  - rewrite Ho. set_solver.
  - intros x [Hx _]%elem_of_difference. by apply Hf.
Qed.

Lemma wp_guarded {A this} {body : CSqlClient -> QM (A * CSqlClient)} {w} {Q : A * CSqlClient -> mysqlw -> Prop} :
  m_locker this = false ->
  wp (body (set_sql_locker true this)) (fun x => Q (x.1, set_sql_locker false x.2)) w -> wp (sql_guarded this body) Q w.
Proof.
  intros Hl Hb. unfold sql_guarded. rewrite Hl. apply wp_bind. eapply wp_mono; [exact Hb|]. by intros [a t] w' HQ.
Qed.
End calls.

(** ** The client *)

(** A client that has been told where to connect, with its lock free. *)
Record ready (this : CSqlClient) : Prop := {
  rd_lock : m_locker this = false;
  rd_port : is_Some (m_port this);
  rd_flag : is_Some (m_flag this)
}.

Lemma OnDisConnect_ok `{!Budget P} base r this n w (Q : CSqlClient -> mysqlw -> Prop) :
  m_locker this = false -> holds_with P base r (m_SqlHandle this) n w ->
  (forall w', holds_with P base r None n w' -> Q (set_handle None this) w') ->
  wp (OnDisConnect this) Q w.
Proof.
  intros Hl Hh HQ. unfold OnDisConnect. apply wp_bind, wp_guarded; [done|]. apply wp_bind. cbn [m_SqlHandle set_sql_locker].
  assert (set_sql_locker false (set_handle None (set_sql_locker true this)) = set_handle None this) as E.
  { destruct this. cbn in *. by subst. }
  destruct (m_SqlHandle this) as [h|].
  - apply (wp_mysql_close base r Hh). intros w' Hw. apply wp_ret, wp_ret. cbn [fst snd]. rewrite E. by apply HQ.
  - apply wp_ret, wp_ret, wp_ret. cbn [fst snd]. rewrite E. by apply HQ.
Qed.

Lemma sql_OnConnect_ok `{!Budget P} base r this n w (Q : bool * CSqlClient -> mysqlw -> Prop) :
  ready this -> m_SqlHandle this = None -> holds_with P base r None (4 + n) w ->
  (forall h w', holds_with P base r h n w' -> Q (bool_decide (is_Some h), set_handle h this) w') ->
  wp (OnConnect this) Q w.
Proof.
  intros [Hl [port Hp] [flag Hf]] Hn Hh HQ. unfold OnConnect. apply wp_guarded; [done|].
  assert (forall h h', set_sql_locker false (set_handle h (set_handle h' (set_sql_locker true this))) = set_handle h this) as E2.
  { intros h h'. destruct this. cbn in *. by subst. }
  assert (forall h, set_sql_locker false (set_handle h (set_sql_locker true this)) = set_handle h this) as E1.
  { intros h. destruct this. cbn in *. by subst. }
  assert (forall h m v, (n <= m)%nat -> holds_with P base r (Some h) m v -> wp
    (do* _ := mysql_close (Some h) in sret (false, set_handle None (set_handle (Some h) (set_sql_locker true this))))
    (fun x => Q (x.1, set_sql_locker false x.2)) v) as Hclose.
  { intros h m v Hm Hv. apply wp_bind, (wp_mysql_close base r Hv). intros v' Hv'. apply wp_ret. cbn [fst snd]. rewrite E2.
    apply (HQ None). by eapply holding_le. }
  apply wp_bind, (wp_mysql_init base r Hh). intros [h|] w1 Hw1.
  2: { apply wp_ret. cbn [fst snd]. rewrite E1. apply (HQ None). eapply holding_le; [|exact Hw1]. lia. }
  cbn [m_port m_flag set_handle set_sql_locker]. rewrite Hp, Hf. apply wp_bind, wp_ret, wp_bind, wp_ret, wp_bind.
  apply (wp_ask base r Hw1). intros ok w2 Hw2. destruct (ok =? 0); cbn [negb]; [eapply Hclose; [|exact Hw2]; lia|].
  apply wp_bind, (wp_ask base r Hw2). intros _ w3 Hw3. apply wp_bind, (wp_ask base r Hw3). intros sel w4 Hw4.
  destruct (sel <? 0); [by eapply Hclose|]. apply wp_ret. cbn [fst snd]. rewrite E1. by apply (HQ (Some h)).
Qed.

(** A client between two calls: only one that has lost its handle has a
    reconnection counted. *)
Record settled (this : CSqlClient) : Prop := {
  st_ready : ready this;
  st_count : 0 <= m_iReconnectCount this <= 1;
  st_handle : is_Some (m_SqlHandle this) -> m_iReconnectCount this = 0
}.

Lemma TestOnline_ok `{!Budget P} base r this n w (Q : bool * CSqlClient -> mysqlw -> Prop) :
  settled this -> holds_with P base r (m_SqlHandle this) (5 + n) w ->
  (forall this' w', settled this' -> holds_with P base r (m_SqlHandle this') n w' -> (m_SqlHandle this = None -> this' = this) ->
     Q (bool_decide (is_Some (m_SqlHandle this)), this') w') ->
  wp (TestOnline this) Q w.
Proof.
  intros [[Hl Hp Hf] Hc Hz] Hh HQ. unfold TestOnline. destruct (m_SqlHandle this) as [h|] eqn:Eh.
  2: { apply wp_ret. rewrite bool_decide_false in HQ by (by intros [? ?]). apply HQ; [|rewrite Eh; eapply holding_le; [|exact Hh]; lia|done].
       split; [by split|done|]. rewrite Eh. by intros [? ?]. }
  rewrite bool_decide_true in HQ by eauto. specialize (Hz ltac:(eauto)).
  assert (set_sql_locker false (set_sql_locker true this) = this) as E by (destruct this; cbn in *; by subst).
  apply wp_bind, wp_guarded; [done|]. cbn [m_SqlHandle set_sql_locker]. rewrite Eh. apply wp_bind, (wp_ask base r Hh).
  intros isline w1 Hw1. apply wp_ret. cbn [fst snd]. rewrite E. destruct (isline =? 0); cbn [negb].
  { apply wp_ret, HQ; [|cbn; rewrite Eh; eapply holding_le; [|exact Hw1]; lia|done]. split; [by split|cbn; lia|done]. }
  apply wp_bind. unfold ReConnect. apply wp_bind, (OnDisConnect_ok base r this (4 + n) w1); [done|by rewrite Eh|]. intros w2 Hw2.
  apply (sql_OnConnect_ok base r _ n w2); [by split|done|done|]. intros h' w3 Hw3.
  destruct h' as [h'|]; [rewrite bool_decide_true by eauto|rewrite bool_decide_false by (by intros [? ?])].
  - apply wp_ret, HQ; [|done|done]. split; [by split|cbn; lia|done].
  - cbn [m_iReconnectCount set_handle]. rewrite Hz. apply wp_bind, (wp_lift _ 1); [done|]. apply wp_ret, HQ; [|done|done].
    split; [by split|cbn; lia|by intros [? ?]].
Qed.

Lemma ExecSqlCmd_ok `{!Budget P} base r sql this n w (Q : Z * CSqlClient -> mysqlw -> Prop) :
  settled this -> holds_with P base r (m_SqlHandle this) (1 + n) w ->
  (forall z w', holds_with P base r (m_SqlHandle this) n w' -> Q (z, this) w') ->
  wp (ExecSqlCmd sql this) Q w.
Proof.
  intros [[Hl _ _] _ _] Hh HQ. unfold ExecSqlCmd. apply wp_guarded; [done|]. cbn [m_SqlHandle set_sql_locker].
  assert (set_sql_locker false (set_sql_locker true this) = this) as E by (destruct this; cbn in *; by subst).
  destruct (m_SqlHandle this) as [h|] eqn:Eh.
  - apply wp_bind, (wp_ask base r Hh). intros z w' Hw'. apply wp_ret. cbn [fst snd]. rewrite E. by apply HQ.
  - apply wp_ret. cbn [fst snd]. rewrite E. apply HQ. eapply holding_le; [|exact Hh]. lia.
Qed.

Lemma delete_ok `{!Budget P} base r this n w (Q : unit -> mysqlw -> Prop) : m_locker this = false -> holds_with P base r (m_SqlHandle this) n w ->
  (forall w', holds_with P base r None n w' -> Q tt w') -> wp (delete_CSqlClient this) Q w.
Proof. intros Hl Hh HQ. apply wp_bind. apply (OnDisConnect_ok base r this n w); [done|done|]. intros w' Hw'. by apply wp_ret, HQ. Qed.

(** The check of a connection answers whether the client had a handle before
    the check, whatever becomes of it in the check: when the server does not
    answer the ping and cannot be reached again, the check still says that the
    client is online, and the client has no handle; the next check then says that
    it is not, without asking the library anything. *)
Theorem sql_one_retry this w :
  settled this -> (forall x, x ∈ q_open w -> x < q_next w) -> (5 <= length (q_answers w))%nat ->
  (forall h, m_SqlHandle this = Some h -> h ∈ q_open w) ->
  exists this' w', TestOnline this w = Ok (bool_decide (is_Some (m_SqlHandle this)), this', w') /\ settled this' /\
    (m_SqlHandle this' = None -> TestOnline this' w' = Ok (false, this', w')).
Proof.
  intros Hs Hf Ha Hin.
  set (base := match m_SqlHandle this with Some h => q_open w ∖ {[h]} | None => q_open w end).
  assert (wp (TestOnline this) (fun x w' => x.1 = bool_decide (is_Some (m_SqlHandle this)) /\ settled x.2) w) as H.
  { apply (TestOnline_ok base (q_results w) this 0 w); [done| |done]. split; try done.
    - unfold base. destruct (m_SqlHandle this) as [h|]; [|done]. specialize (Hin h eq_refl). apply set_eq. intros x.
      destruct (decide (x = h)) as [->|]; set_solver.
    - intros x Hx. unfold base. rewrite Hx. set_solver. }
  apply wp_returns in H as ([ok this'] & w' & E & E1 & E2). cbn in E1, E2. exists this', w'. subst ok.
  split_and!; [done|done|]. intros Hn. unfold TestOnline. by rewrite Hn.
Qed.

(** * The text of a query *)

Definition filled_in (r : MYSQL_RES) : Prop := res_ok r /\ Forall (Forall is_Some) (res_rows r).

(** The values of a row with semicolons between them; nothing is put between
    rows or results. *)
Fixpoint joined (cells : list (list char)) : list char :=
  match cells with
  | [] => []
  | [c] => c
  | c :: cells' => c ++ SEMICOLON ++ joined cells'
  end.
Definition table_text (r : MYSQL_RES) : list char := concat ((fun row => joined (text_of <$> row)) <$> res_rows r).
Definition result_text (r : option MYSQL_RES) : list char := match r with Some r => table_text r | None => [] end.

(** The answers of the library to a query with the results [rs], of which a
    statement that returns nothing has none; [e] says that there are no more. *)
Fixpoint result_answers (rs : list (option MYSQL_RES)) (e : Z) : list myret :=
  match rs with
  | [] => []
  | [r] => [mkMy 0 r; mkMy e None]
  | r :: rs' => mkMy 0 r :: mkMy 0 None :: result_answers rs' e
  end.
Definition result_calls (h : Z) (rs : list (option MYSQL_RES)) : list mycall := concat ((fun _ => [MyStore h; MyNext h]) <$> rs).

Lemma cells_loop_ok cells pre result :
  Forall is_Some cells -> Forall (fun v => match v with Some s => terminated s | None => True end) cells ->
  cells_loop (length cells) (length pre) (pre ++ cells) result =
    Ok (result ++ (if (0 <? length pre)%nat then (match cells with [] => [] | _ => SEMICOLON end) else []) ++ joined (text_of <$> cells)).
Proof.
  intros Hs Ht. revert pre result. induction cells as [|v cells IH]; intros pre result; cbn [length cells_loop].
  { destruct (0 <? length pre)%nat; cbn; by rewrite app_nil_r. }
  apply Forall_cons in Hs as [[s ->] Hs]. apply Forall_cons in Ht as [Ht1 Ht].
  rewrite list_lookup_middle, (to_string_terminated s Ht1) by done. cbn [obind].
  specialize (IH Hs Ht (pre ++ [Some s])). rewrite <- app_assoc, length_app, Nat.add_1_r in IH. cbn [app] in IH.
  rewrite IH. f_equal. cbn [fmap list_fmap text_of].
  replace (0 <? S (length pre))%nat with true by done.
  destruct cells as [|v' cells]; destruct (0 <? length pre)%nat; cbn [joined fmap list_fmap]; by rewrite <- ?app_assoc, ?app_nil_r.
Qed.

Lemma table_loop_ok n rows result :
  Forall (fun row => length row = n) rows -> Forall (Forall is_Some) rows ->
  Forall (Forall (fun v => match v with Some s => terminated s | None => True end)) rows ->
  table_loop (length rows) n rows result = Ok (result ++ concat ((fun row => joined (text_of <$> row)) <$> rows)).
Proof.
  intros Hn Hs Ht. revert result. induction rows as [|row rows IH]; intros result; cbn [length table_loop]; [by rewrite app_nil_r|].
  apply Forall_cons in Hn as [<- Hn]. apply Forall_cons in Hs as [Hs1 Hs]. apply Forall_cons in Ht as [Ht1 Ht].
  pose proof (cells_loop_ok row [] result Hs1 Ht1) as E. cbn [length app] in E. rewrite E. cbn [obind].
  rewrite IH by done. cbn. by rewrite <- app_assoc.
Qed.

Lemma filled_in_text r result : filled_in r ->
  table_loop (Z.to_nat (int (mysql_num_rows r))) (Z.to_nat (int (mysql_num_fields r))) (res_rows r) result =
    Ok (result ++ table_text r).
Proof.
  intros [[Hn Hr Hv [Hs1 Hs2]] Hs]. unfold mysql_num_rows, mysql_num_fields.
  rewrite !int_id by (unfold INT_MIN, INT_MAX in *; lia). rewrite !Nat2Z.id. by apply table_loop_ok.
Qed.

Definition answered (rest : list myret) (calls : list mycall) (w : mysqlw) : mysqlw :=
  mkMysql rest (q_trace w ++ calls) (q_open w) (q_next w) (q_results w).

Lemma store_result_ok h r a rest w : h ∈ q_open w -> q_answers w = mkMy a r :: rest ->
  mysql_store_result (Some h) w = Ok (r, add_results (if r is Some _ then 1 else 0) (answered rest [MyStore h] w)).
Proof.
  intros Hh Ha. unfold mysql_store_result, on_handle, next_answer, sbind, smodify, sret. rewrite bool_decide_true by done.
  rewrite Ha. destruct r; [done|]. unfold add_results, answered. cbn. by rewrite Z.add_0_r.
Qed.

Lemma ask_takes h c w a rest : h ∈ q_open w -> q_answers w = a :: rest ->
  ask (Some h) c w = Ok (mr_int a, answered rest [c h] w).
Proof.
  intros Hh Ha. unfold ask, on_handle, next_answer, sbind, sret. rewrite bool_decide_true by done. by rewrite Ha.
Qed.
Lemma ask_answer h c w a r rest : h ∈ q_open w -> q_answers w = mkMy a r :: rest ->
  ask (Some h) c w = Ok (a, answered rest [c h] w).
Proof. apply (ask_takes h c w (mkMy a r)). Qed.

Lemma mysql_error_ok h w z r error rest : h ∈ q_open w -> q_answers w = mkAnswer z r error :: rest ->
  mysql_error (Some h) w = Ok (error, answered rest [MyError h] w).
Proof.
  intros Hh Ha. unfold mysql_error, on_handle, next_answer, sbind, sret. rewrite bool_decide_true by done. by rewrite Ha.
Qed.

(** One turn of the loop over the results. *)
Lemma results_turn f h r a b rest result w :
  h ∈ q_open w -> q_answers w = mkMy a r :: mkMy b None :: rest -> (forall t, r = Some t -> filled_in t) ->
  results_loop (S f) h result w =
    (if b =? 0 then results_loop f h (result ++ result_text r) else sret (result ++ result_text r))
      (answered rest [MyStore h; MyNext h] w).
Proof.
  intros Hh Ha Hr. cbn [results_loop]. run (store_result_ok h r a _ w Hh Ha). set (w1 := add_results _ _).
  assert (wp (match r with
     | Some r => do* result := slift (table_loop (Z.to_nat (int (mysql_num_rows r))) (Z.to_nat (int (mysql_num_fields r))) (res_rows r) result) in
                 do* _ := mysql_free_result in sret result
     | None => sret result end) (fun x w' => x = result ++ result_text r /\ w' = answered (mkMy b None :: rest) [MyStore h] w) w1) as H.
  { destruct r as [t|]; cbn [result_text].
    - apply wp_bind, (wp_lift _ (result ++ table_text t)); [by apply filled_in_text, Hr|]. split; [done|].
      unfold w1, add_results, answered. cbn. f_equal. lia.
    - split; [by rewrite app_nil_r|]. unfold w1, add_results, answered. cbn. by rewrite Z.add_0_r. }
  apply wp_returns in H as (x & w2 & E & -> & ->). run E.
  run (ask_answer h MyNext (answered (mkMy b None :: rest) [MyStore h] w) b None rest Hh eq_refl).
  destruct (b =? 0); [f_equal|unfold sret; do 2 f_equal]; unfold answered; cbn; by rewrite <- app_assoc.
Qed.

Lemma results_loop_ok h rs e rest fuel result w :
  e <> 0 -> rs <> [] -> (length rs <= fuel)%nat -> h ∈ q_open w -> q_answers w = result_answers rs e ++ rest ->
  Forall (fun r => forall t, r = Some t -> filled_in t) rs ->
  results_loop fuel h result w = Ok (result ++ concat (result_text <$> rs), answered rest (result_calls h rs) w).
Proof.
  intros He Hne. revert fuel result w. induction rs as [|r rs IH]; intros fuel result w Hf Hh Ha Hr; [done|].
  apply Forall_cons in Hr as [Hr1 Hr]. destruct fuel as [|f]; [cbn in Hf; lia|].
  destruct rs as [|r' rs].
  - rewrite (results_turn f h r 0 e rest result w Hh Ha Hr1). apply Z.eqb_neq in He. rewrite He. cbn. by rewrite app_nil_r.
  - rewrite (results_turn f h r 0 0 (result_answers (r' :: rs) e ++ rest) result w Hh Ha Hr1). cbn [Z.eqb].
    rewrite IH; [|done|cbn in *; lia|done|done|done]. unfold answered. cbn. by rewrite <- !app_assoc.
Qed.

Lemma result_answers_length rs e : length (result_answers rs e) = (2 * length rs)%nat.
Proof. induction rs as [|r [|r' rs] IH]; cbn [result_answers length] in *; [done|done|]. rewrite IH. lia. Qed.

(** C19: A query that succeeds gives the text of all the results that the server
    sent for it, appended to what the caller's string held: for each result in
    turn the values of its rows, semicolons between the values of a row, and
    nothing between rows and between results.  Every stored result is freed, and
    the library is asked for nothing else.  When the server refuses the statement,
    the library is asked for the number and the text of the error, which go to the
    log with the statement; the code is returned, without a handle -1, and the
    string is as it was; but a message that the log cannot take (it is longer than
    the buffer of the log, or its percent signs are read as a format) takes the
    process down. *)
Theorem sql_result this h sql result w : m_locker this = false ->
  (m_SqlHandle this = None -> ExecSqlCmd_result sql result this w = Ok (-1, result, this, w)) /\
  (m_SqlHandle this = Some h -> h ∈ q_open w -> forall e r errno r' z r'' error rest, e <> 0 ->
     q_answers w = mkMy e r :: mkMy errno r' :: mkAnswer z r'' error :: rest ->
     ExecSqlCmd_result sql result this w =
       match log_call (refused_text sql errno error) with
       | Ok _ => Ok (e, result, this, answered rest [MyQuery h (cstring sql); MyErrno h; MyError h] w)
       | Fault f => Fault f
       end) /\
  (m_SqlHandle this = Some h -> h ∈ q_open w -> forall rs e rest, rs <> [] -> e <> 0 ->
     Forall (fun r => forall t, r = Some t -> filled_in t) rs ->
     q_answers w = mkMy 0 None :: result_answers rs e ++ rest ->
     ExecSqlCmd_result sql result this w =
       Ok (0, result ++ concat (result_text <$> rs), this, answered rest (MyQuery h (cstring sql) :: result_calls h rs) w)).
Proof.
  intros Hl. assert (set_sql_locker false (set_sql_locker true this) = this) as E by (destruct this; cbn in *; by subst).
  unfold ExecSqlCmd_result, sql_guarded. rewrite Hl. cbn [m_SqlHandle set_sql_locker]. split_and!.
  - intros ->. unfold sbind, sret. by rewrite E.
  - intros -> Hh e r errno r' z r'' error rest He Ha. rewrite sbind_assoc. run (ask_answer h (fun h => MyQuery h (cstring sql)) w e r _ Hh Ha).
    apply Z.eqb_neq in He. rewrite He. cbn [negb]. set (w1 := answered _ _ w). rewrite sbind_assoc.
    run (ask_answer h MyErrno w1 errno r' _ Hh eq_refl). set (w2 := answered _ _ w1). rewrite sbind_assoc.
    run (mysql_error_ok h w2 z r'' error rest Hh eq_refl). rewrite sbind_assoc. unfold WLogError, slift.
    set (w3 := answered rest _ w2). assert (w3 = answered rest [MyQuery h (cstring sql); MyErrno h; MyError h] w) as <-.
    { unfold w3, w2, w1, answered. cbn. by rewrite <- !app_assoc. }
    destruct (log_call (refused_text sql errno error)) as [[]|f] eqn:El.
    + unfold sbind, sret. by rewrite E.
    + done.
  - intros -> Hh rs e rest Hne He Hr Ha. rewrite sbind_assoc.
    run (ask_answer h (fun h => MyQuery h (cstring sql)) w 0 None _ Hh Ha). cbn [Z.eqb negb].
    set (w1 := answered _ _ w). rewrite sbind_assoc. run (eq_refl (answers_fuel w1)). rewrite sbind_assoc.
    assert (length rs <= S (length (q_answers w1)))%nat as Hf.
    { unfold w1. cbn. rewrite length_app, result_answers_length. lia. }
    run (results_loop_ok h rs e rest _ result w1 He Hne Hf Hh eq_refl Hr). unfold sbind, sret. rewrite E.
    do 2 f_equal. unfold w1, answered. cbn. by rewrite <- app_assoc.
Qed.

(** * The life of a client *)

Inductive sql_op := SqlExec (sql : list char) | SqlQuery (sql result : list char) | SqlBegin | SqlRollback | SqlCommit | SqlTest.

Definition run_op (op : sql_op) (this : CSqlClient) : QM CSqlClient :=
  match op with
  | SqlExec sql => do* (_, this) := ExecSqlCmd sql this in sret this
  | SqlQuery sql result => do* (_, _, this) := ExecSqlCmd_result sql result this in sret this
  | SqlBegin => do* _ := BeginTrans this in sret this
  | SqlRollback => do* _ := TransRollback this in sret this
  | SqlCommit => do* _ := TransCommit this in sret this
  | SqlTest => do* (_, this) := TestOnline this in sret this
  end.
Fixpoint run_ops (ops : list sql_op) (this : CSqlClient) : QM CSqlClient :=
  match ops with [] => sret this | op :: ops => do* this := run_op op this in run_ops ops this end.

(** A client that is made, initialised, used and deleted, as the services do. *)
Definition client_life (address : list char) (port : Z) (user password dbName : list char) (flag : Z) (ops : list sql_op) : QM unit :=
  do* (ok, this) := OnInit address port user password dbName flag new_CSqlClient in
  if ok : bool then do* this := run_ops ops this in delete_CSqlClient this
  else delete_CSqlClient this.

Definition is_transaction (op : sql_op) : bool := match op with SqlBegin | SqlRollback | SqlCommit => true | _ => false end.

(** What can stop the process, for the operations and the answers: a NULL among
    the values of a result, a transaction on a client that has lost its handle in a
    check, or a refused statement whose message the log cannot take. *)
Inductive crash (ops : list sql_op) (l : list myret) : fault -> Prop :=
| crash_null sql result a t : SqlQuery sql result ∈ ops -> a ∈ l -> mr_res a = Some t -> ~ Forall (Forall is_Some) (res_rows t) ->
    crash ops l NullDeref
| crash_handle ops1 op ops2 : ops = ops1 ++ op :: ops2 -> is_transaction op = true -> SqlTest ∈ ops1 -> crash ops l NullDeref
| crash_log sql result a b f : SqlQuery sql result ∈ ops -> a ∈ l -> b ∈ l ->
    log_call (refused_text sql (mr_int a) (mr_text b)) = Fault f -> crash ops l f.

(** The answers that are zero, after which [mysql_next_result] goes on. *)
Definition zeros (l : list myret) : nat := length (filter (fun a => mr_int a = 0) l).

(** The rest of the answers [l0], whose results are well formed, is enough for [n]
    calls and for a result after each answer that is zero. *)
Definition within (l0 : list myret) (n : nat) (l : list myret) : Prop :=
  (n + 2 * zeros l <= length l)%nat /\ l `suffix_of` l0.

Lemma within_take l0 n a l : within l0 (S n) (a :: l) -> within l0 n l /\ (mr_int a = 0 -> within l0 (2 + n) l) /\ a ∈ l0.
Proof.
  intros [Hn [pre ->]]. assert (l `suffix_of` pre ++ a :: l) as Hs by (exists (pre ++ [a]); by rewrite <- app_assoc).
  unfold within, zeros in *. rewrite filter_cons in Hn. cbn [length] in Hn. split; [|split].
  - split; [|done]. case_decide; cbn [length] in Hn; lia.
  - intros Hz. rewrite decide_True in Hn by done. cbn [length] in Hn. split; [lia|done].
  - apply elem_of_app. right. by left.
Qed.

#[export] Instance within_budget l0 : Budget (within l0).
Proof.
  split.
  - intros n [|a l] Hw; [destruct Hw as [Hn _]; cbn in Hn; lia|]. exists a, l. split; [done|]. by apply within_take in Hw as [? _].
  - intros n m l Hnm [Hn Hs]. split; [lia|done].
Qed.

(** The table of a well-formed result: its text, or the crash of a NULL. *)
Lemma cells_loop_total cells pre result :
  Forall (fun v => match v with Some s => terminated s | None => True end) cells ->
  (exists s, cells_loop (length cells) (length pre) (pre ++ cells) result = Ok s) \/
  cells_loop (length cells) (length pre) (pre ++ cells) result = Fault NullDeref.
Proof.
  intros Ht. revert pre result. induction Ht as [|v cells Hv _ IH]; intros pre result; cbn [length cells_loop]; [left; by eexists|].
  rewrite list_lookup_middle by done. destruct v as [s|]; [|by right]. rewrite (to_string_terminated s Hv). cbn [obind].
  specialize (IH (pre ++ [Some s])). rewrite <- app_assoc, length_app, Nat.add_1_r in IH. apply IH.
Qed.

Lemma table_loop_total n rows result :
  Forall (fun row => length row = n) rows -> Forall (Forall (fun v => match v with Some s => terminated s | None => True end)) rows ->
  (exists s, table_loop (length rows) n rows result = Ok s) \/ table_loop (length rows) n rows result = Fault NullDeref.
Proof.
  intros Hn Ht. revert result. induction rows as [|row rows IH]; intros result; cbn [length table_loop]; [left; by eexists|].
  apply Forall_cons in Hn as [<- Hn]. apply Forall_cons in Ht as [Ht1 Ht].
  destruct (cells_loop_total row [] result Ht1) as [[s E]|E]; cbn [length app] in E; rewrite E; cbn [obind]; [by apply IH|by right].
Qed.

Lemma result_table_total t result : res_ok t ->
  (exists s, table_loop (Z.to_nat (int (mysql_num_rows t))) (Z.to_nat (int (mysql_num_fields t))) (res_rows t) result = Ok s) \/
  (table_loop (Z.to_nat (int (mysql_num_rows t))) (Z.to_nat (int (mysql_num_fields t))) (res_rows t) result = Fault NullDeref /\
   ~ Forall (Forall is_Some) (res_rows t)).
Proof.
  intros Hok. destruct (decide (Forall (Forall is_Some) (res_rows t))) as [Hs|Hs]; [left; eexists; by apply filled_in_text|].
  destruct Hok as [Hn Hr Hv [Hs1 Hs2]]. unfold mysql_num_rows, mysql_num_fields.
  rewrite !int_id by (unfold INT_MIN, INT_MAX in *; lia). rewrite !Nat2Z.id.
  destruct (table_loop_total _ _ result Hr Hv) as [?|?]; [by left|by right].
Qed.

Section life.
Context (all : list sql_op) (l0 : list myret) (base : gset Z) (r : Z).
Context (Hres : Forall (fun a => forall t, mr_res a = Some t -> res_ok t) l0).
Local Abbreviation keeps := (holds_with (within l0) base r).
Local Abbreviation run_to := (wpf (crash all l0)).

(** A call that takes the answer [a]. *)
Lemma next_call h n w : keeps (Some h) (S n) w -> bool_decide (h ∈ q_open w) = true /\
  exists a rest, q_answers w = a :: rest /\ a ∈ l0 /\ forall c,
    let w' := mkMysql rest (q_trace w ++ [c]) (q_open w) (q_next w) (q_results w) in
    keeps (Some h) n w' /\ (mr_int a = 0 -> keeps (Some h) (2 + n) w').
Proof.
  clear Hres. intros [Ho Hw Hf Ha Hr]. split; [apply bool_decide_true; rewrite Ho; set_solver|].
  destruct (budget_take _ _ Ha) as (a & rest & E & _). rewrite E in Ha. destruct (within_take _ _ _ _ Ha) as (H1 & H2 & H3).
  exists a, rest. split_and!; [done|done|]. intros c. split; [by split|]. intros Hz. split; cbn; try done. by apply H2.
Qed.

(** One result is stored, read and freed, or has a NULL. *)
Lemma store_turn sql result0 h result n w (Q : list char -> mysqlw -> Prop) : SqlQuery sql result0 ∈ all -> keeps (Some h) (S n) w ->
  (forall x w', keeps (Some h) n w' -> (length (q_answers w') < length (q_answers w))%nat -> Q x w') ->
  run_to (do* res := mysql_store_result (Some h) in
       match res with
       | Some t =>
           do* result := slift (table_loop (Z.to_nat (int (mysql_num_rows t))) (Z.to_nat (int (mysql_num_fields t))) (res_rows t) result) in
           do* _ := mysql_free_result in
           sret result
       | None => sret result
       end) Q w.
Proof using Hres.
  intros Hop Hw HQ. destruct (next_call h n w Hw) as (Hb & a & rest & Ea & Hin & Hk). specialize (Hk (MyStore h)) as [Hk _].
  apply wpf_bind. unfold wpf at 1, mysql_store_result, on_handle, next_answer, sbind. rewrite Hb, Ea. unfold smodify, sret.
  assert (length rest < length (q_answers w))%nat as Hlt by (rewrite Ea; cbn; lia).
  destruct (mr_res a) as [t|] eqn:Et; [|by apply HQ].
  apply wpf_bind, wpf_lift. rewrite Forall_forall in Hres.
  destruct (result_table_total t result (Hres a Hin t Et)) as [[s ->]|[-> Hnull]]; [|by eapply crash_null].
  apply HQ; [|exact Hlt]. destruct Hk as [Ho Hown Hf Ha Hr]. split; try done. cbn in *. lia.
Qed.

Lemma results_loop_total sql result0 h fuel result n w (Q : list char -> mysqlw -> Prop) : SqlQuery sql result0 ∈ all ->
  keeps (Some h) (2 + n) w -> (length (q_answers w) < fuel)%nat ->
  (forall x w', keeps (Some h) n w' -> Q x w') -> run_to (results_loop fuel h result) Q w.
Proof using Hres.
  intros Hop. revert result w. induction fuel as [|f IH]; intros result w Hw Hf HQ; [lia|]. cbn [results_loop].
  match goal with |- run_to (sbind ?m (fun res => sbind (@?k res) ?k2)) _ _ =>
    assert (run_to (sbind (sbind m k) k2) Q w) as H; [|by unfold wpf in *; rewrite sbind_assoc in H] end.
  apply wpf_bind. eapply store_turn; [exact Hop|exact Hw|]. intros x w1 Hw1 Hlt.
  destruct (next_call h n w1 Hw1) as (Hb & a & rest & Ea & Hin & Hk). specialize (Hk (MyNext h)) as [Hk1 Hk2].
  apply wpf_bind. unfold wpf at 1, ask, on_handle, next_answer, sbind. rewrite Hb, Ea. unfold sret at 1.
  destruct (Z.eqb_spec (mr_int a) 0) as [Hz|_]; [|by apply HQ]. apply IH; [by apply Hk2|rewrite Ea in Hlt; cbn in *; lia|done].
Qed.

Lemma ExecSqlCmd_result_total sql result this n w (Q : Z * list char * CSqlClient -> mysqlw -> Prop) :
  SqlQuery sql result ∈ all -> settled this -> keeps (m_SqlHandle this) (3 + n) w ->
  (forall x w', keeps (m_SqlHandle this) n w' -> Q (x, this) w') -> run_to (ExecSqlCmd_result sql result this) Q w.
Proof using Hres.
  intros Hop [[Hl _ _] _ _] Hw HQ. unfold ExecSqlCmd_result, sql_guarded. rewrite Hl. cbn [m_SqlHandle set_sql_locker].
  assert (set_sql_locker false (set_sql_locker true this) = this) as E by (destruct this; cbn in *; by subst).
  apply wpf_bind. destruct (m_SqlHandle this) as [h|] eqn:Eh.
  2: { unfold wpf, sret. rewrite E. apply HQ. eapply holding_le; [|exact Hw]. lia. }
  apply wpf_bind, wpf_wp, (wp_ask base r Hw). intros e w1 Hw1. destruct (e =? 0); cbn [negb].
  - apply wpf_bind. unfold wpf at 1, answers_fuel. apply wpf_bind. eapply (results_loop_total sql result _ _ _ n); [done|exact Hw1|lia|].
    intros x w2 Hw2. unfold wpf, sret. rewrite E. apply HQ. exact Hw2.
  - destruct (next_call h _ w1 Hw1) as (Hb1 & a & rest1 & Ea & Hina & Hk1). specialize (Hk1 (MyErrno h)) as [Hk1 _].
    apply wpf_bind. unfold wpf at 1, ask, on_handle, next_answer, sbind. rewrite Hb1, Ea. unfold sret at 1. set (w2 := mkMysql rest1 _ _ _ _) in *.
    destruct (next_call h _ w2 Hk1) as (Hb2 & b & rest2 & Eb & Hinb & Hk2). specialize (Hk2 (MyError h)) as [Hk2 _].
    apply wpf_bind. unfold wpf at 1, mysql_error, on_handle, next_answer, sbind. rewrite Hb2, Eb. unfold sret at 1. set (w3 := mkMysql rest2 _ _ _ _) in *.
    apply wpf_bind. unfold WLogError. apply wpf_lift. destruct (log_call _) as [[]|f] eqn:Elog; [|exact (crash_log _ _ _ _ _ _ _ Hop Hina Hinb Elog)].
    unfold wpf, sret. rewrite E. by apply HQ.
Qed.

(** Operations from [pre] on. *)
Lemma run_ops_total ops : forall pre this n w (Q : CSqlClient -> mysqlw -> Prop), all = pre ++ ops -> settled this ->
  (m_SqlHandle this = None -> SqlTest ∈ pre) -> keeps (m_SqlHandle this) (5 * length ops + n) w ->
  (forall this' w', settled this' -> keeps (m_SqlHandle this') n w' -> Q this' w') ->
  run_to (run_ops ops this) Q w.
Proof using Hres.
  induction ops as [|op ops IH]; intros pre this n w Q Eall Hs Hno Hh HQ; cbn [run_ops]; [by apply wpf_ret, HQ|].
  assert (op ∈ all) as Hop by (rewrite Eall; apply elem_of_app; right; by left).
  assert (all = (pre ++ [op]) ++ ops) as Eall' by (by rewrite <- app_assoc).
  assert (forall w', keeps (m_SqlHandle this) (5 * length ops + n) w' -> run_to (run_ops ops this) Q w') as Hsame.
  { intros w' Hw'. apply (IH (pre ++ [op]) _ n); [done|done| |done|done]. intros E. apply elem_of_app. left. by apply Hno. }
  assert (forall c, is_transaction op = true -> keeps (m_SqlHandle this) (5 * length (op :: ops) + n) w ->
    run_to (do* r := ask (m_SqlHandle this) c in sret (negb (r =? 0))) (fun _ w' => run_to (run_ops ops this) Q w') w) as Htrans.
  { intros c Ht Hw. apply wpf_bind. destruct (m_SqlHandle this) as [h|] eqn:Eh.
    - apply wpf_wp. apply (wp_ask (n := (5 * length ops + n)%nat) base r); [eapply holding_le; [|exact Hw]; cbn [length]; lia|]. intros z w' Hw'. by apply Hsame.
    - cbn. apply (crash_handle _ _ pre op ops); auto. }
  apply wpf_bind. destruct op as [sql|sql result| | | |]; cbn [run_op]; apply wpf_bind.
  - apply wpf_wp, (ExecSqlCmd_ok base r sql this (5 * length ops + n) w); [done|eapply holding_le; [|exact Hh]; cbn [length]; lia|].
    intros z w' Hw'. by apply Hsame.
  - eapply (ExecSqlCmd_result_total sql result this (5 * length ops + n) w); [done|done|eapply holding_le; [|exact Hh]; cbn [length]; lia|].
    intros [z x] w' Hw'. by apply Hsame.
  - by eapply wpf_mono; [apply Htrans|..].
  - by eapply wpf_mono; [apply Htrans|..].
  - by eapply wpf_mono; [apply Htrans|..].
  - apply wpf_wp, (TestOnline_ok base r this (5 * length ops + n) w); [done|eapply holding_le; [|exact Hh]; cbn [length]; lia|].
    intros t w' Ht Hw' _. apply (IH (pre ++ [SqlTest]) _ n); [done|done| |done|done]. intros _. apply elem_of_app. right. by left.
Qed.
End life.

(** C15: The life of a client.  Whatever the MySQL library answers, a client that is
    made, initialised, used with any of its operations in any order (statements
    without and with a result, transactions, checks of the connection), and then
    deleted returns from every call, leaves open exactly the handles that were open
    before, and has freed every result that it stored; no handle is used after it
    was closed, and none is closed twice.  The exceptions are the three that stop
    the process: a NULL among the values of a result, a transaction after a check
    that has lost the handle, and a refused statement whose message the log cannot
    take.  The library has to return from each call and to come to the end of the
    results. *)
Theorem sql_handles address port user password dbName flag ops w :
  (forall x, x ∈ q_open w -> x < q_next w) ->
  Forall (fun a => forall t, mr_res a = Some t -> res_ok t) (q_answers w) ->
  (4 + 5 * length ops + 2 * zeros (q_answers w) <= length (q_answers w))%nat ->
  (exists w', client_life address port user password dbName flag ops w = Ok (tt, w') /\
    q_open w' = q_open w /\ q_results w' = q_results w) \/
  (exists f, client_life address port user password dbName flag ops w = Fault f /\ crash ops (q_answers w) f).
Proof.
  intros Hf Hres Ha. set (base := q_open w). set (r := q_results w). set (l0 := q_answers w) in *.
  assert (wpf (crash ops l0) (client_life address port user password dbName flag ops) (fun _ w' => holds_with (within l0) base r None 0 w') w) as H.
  { apply wpf_bind, wpf_wp. unfold OnInit. apply (sql_OnConnect_ok (P := within l0) base r _ (5 * length ops)%nat w); [by split; [|eauto..]|done| |].
    { by split. }
    intros h w1 Hw1. destruct h as [h|]; [rewrite bool_decide_true by eauto|rewrite bool_decide_false by (by intros [? ?])].
    - apply wpf_bind, (run_ops_total ops l0 base r Hres ops [] _ 0 w1); [done| |done|by rewrite Nat.add_0_r|].
      + split; [split; [done|by eexists..]|cbn; lia|done].
      + intros t w2 [[Hl _ _] _ _] Hw2. apply wpf_wp, (delete_ok base r _ 0 w2); [done..|]. auto.
    - apply wpf_wp, (delete_ok base r _ 0 w1); [done|eapply holding_le; [|exact Hw1]; lia|auto]. }
  unfold wpf in H. destruct (client_life _ _ _ _ _ _ _ w) as [[[] w']|f]; [left|right; by exists f]. destruct H. by exists w'.
Qed.

(** * Concrete clients *)

Definition demo_sql : CSqlClient := mkSqlClient (Some 3306) (lit "db") (lit "u") (lit "p") (lit "seal") (Some 0) 0 (Some 1) false.
Definition answers (l : list Z) : list myret := (fun z => mkMy z None) <$> l.
Definition demo_mysql (l : list myret) : mysqlw := mkMysql l [] {[1]} 2 0.

Lemma demo_fresh l x : x ∈ q_open (demo_mysql l) -> x < q_next (demo_mysql l).
Proof. cbn. intros ->%elem_of_singleton. lia. Qed.

Lemma demo_settled : settled demo_sql.
Proof. split; [by split; [|eexists..]|cbn; lia|done]. Qed.

Lemma sql_one_retry_witness :
  exists this' w', TestOnline demo_sql (demo_mysql (answers [1; 7; 0; 0; 0])) = Ok (true, this', w') /\ settled this' /\
    (m_SqlHandle this' = None -> TestOnline this' w' = Ok (false, this', w')).
Proof.
  apply (sql_one_retry demo_sql (demo_mysql (answers [1; 7; 0; 0; 0]))).
  - apply demo_settled.
  - apply demo_fresh.
  - vm_compute. lia.
  - intros h [= <-]. cbn. set_solver.
Defined.

(** The results of two checks of a client whose server is gone. *)
Definition two_checks (this : CSqlClient) (w : mysqlw) : option (bool * bool * list mycall) :=
  match (do* (a, this) := TestOnline this in do* (b, _) := TestOnline this in sret (a, b)) w with
  | Ok (a, b, w') => Some (a, b, q_trace w')
  | Fault _ => None
  end.
Example gone_after_one_try :
  two_checks demo_sql (demo_mysql (answers [1; 7; 0; 0; 0])) =
    Some (true, false, [MyPing 1; MyClose 1; MyInit; MyConnect 2 (lit "db") (lit "u") (lit "p") (lit "seal") 3306 0; MyClose 2]).
Proof. vm_compute. reflexivity. Qed.

Definition seal_row (status : Z) : list (option (list char)) := [Some [status; NUL]; Some (lit "2030" ++ [NUL])].
Definition seal_res : MYSQL_RES := mkRes [(lit "st" ++ [NUL], 3); (lit "exp" ++ [NUL], 12)] [seal_row 52; seal_row 57].

Lemma seal_res_filled : filled_in seal_res.
Proof.
  split; [split|]; cbn; try (by repeat constructor); repeat constructor; try (by eexists); unfold INT_MAX; lia.
Qed.

Definition demo_query : mysqlw := demo_mysql (mkMy 0 None :: result_answers [Some seal_res; None] (-1)).

Lemma sql_result_witness : exists w',
  ExecSqlCmd_result (lit "SELECT") (lit "x") demo_sql demo_query = Ok (0, lit "x4;20309;2030", demo_sql, w') /\
    q_results w' = 0 /\ q_answers w' = [].
Proof.
  destruct (sql_result demo_sql 1 (lit "SELECT") (lit "x") demo_query eq_refl) as (_ & _ & H).
  exists (answered [] (MyQuery 1 (lit "SELECT") :: result_calls 1 [Some seal_res; None]) demo_query).
  split; [|by split]. apply (H eq_refl ltac:(cbn; set_solver) [Some seal_res; None] (-1) []); [done|lia| |done].
  apply Forall_cons_2; [|by apply Forall_singleton]. intros t [= <-]. apply seal_res_filled.
Defined.

(** A NULL in a row: [std::string] is given a null pointer. *)
Example null_column_crashes :
  ExecSqlCmd_result (lit "SELECT") [] demo_sql
    (demo_mysql [mkMy 0 None; mkMy 0 (Some (mkRes [(lit "d" ++ [NUL], 12)] [[None]])); mkMy (-1) None]) = Fault NullDeref.
Proof. vm_compute. reflexivity. Qed.

(** A transaction that the library refused to begin is reported as begun. *)
Example begin_reports_failure :
  match BeginTrans demo_sql (demo_mysql (answers [1])), BeginTrans demo_sql (demo_mysql (answers [0])) with
  | Ok (a, _), Ok (b, _) => (a, b) = (true, false)
  | _, _ => False
  end.
Proof. vm_compute. reflexivity. Qed.

(** A second [OnInit] loses the handle of the first. *)
Example second_init_leaks :
  match (do* (_, this) := OnInit (lit "db") 3306 (lit "u") (lit "p") (lit "seal") 0 demo_sql in delete_CSqlClient this)
          (demo_mysql (answers [7; 1; 0; 0])) with
  | Ok (_, w') => bool_decide (1 ∈ q_open w') = true
  | Fault _ => False
  end.
Proof. vm_compute. reflexivity. Qed.

(** A client that reads two results and whose server goes away while it works. *)
Definition life_ops : list sql_op := [SqlExec (lit "DELETE FROM t"); SqlQuery (lit "SELECT") []; SqlBegin; SqlCommit; SqlTest; SqlTest].
Definition life_answers : list myret :=
  answers [7; 1; 0; 0; 0; 0] ++ [mkMy 0 (Some seal_res); mkMy 0 None; mkMy 1 (Some seal_res); mkMy (-1) None] ++ answers [0; 0; 1; 1; 7; 0] ++
  answers (replicate 45 1).

Lemma sql_handles_witness :
  (exists w', client_life (lit "db") 3306 (lit "u") (lit "p") (lit "seal") 0 life_ops (demo_mysql life_answers) = Ok (tt, w') /\
     q_open w' = {[1]} /\ q_results w' = 0) \/
  (exists f, client_life (lit "db") 3306 (lit "u") (lit "p") (lit "seal") 0 life_ops (demo_mysql life_answers) = Fault f /\ crash life_ops life_answers f).
Proof.
  apply (sql_handles (lit "db") 3306 (lit "u") (lit "p") (lit "seal") 0 life_ops (demo_mysql life_answers)).
  - apply demo_fresh.
  - assert (forall l, Forall (fun a => forall t, mr_res a = Some t -> res_ok t) (answers l)) as Hn.
    { intros l. induction l; [apply Forall_nil_2|]. by apply Forall_cons_2. }
    repeat (apply Forall_app; split); try apply Hn. repeat (apply Forall_cons_2); try done; try apply Forall_nil_2; intros t [= <-]; apply seal_res_filled.
  - apply Nat.leb_le. vm_compute. reflexivity.
Defined.

(** It returns, with both results freed. *)
Example life_result :
  match client_life (lit "db") 3306 (lit "u") (lit "p") (lit "seal") 0 life_ops (demo_mysql life_answers) with
  | Ok (_, w') => (elements (q_open w'), q_results w') = ([1], 0)
  | Fault _ => False
  end.
Proof. vm_compute. reflexivity. Qed.
