(* ===== verification/SqlService.v ===== *)
(** The MySQL service of the server (CSqlServiceMgr.h, CSqlServiceMgr.cpp): one
    client for each zone of the configuration, made when the service starts or
    when it is first asked for, and checked by a thread of its own.

    The clients are objects on the heap: the map holds their addresses, 0 for a
    null pointer.  Threads are not interleaved; the lock of the map is kept, and
    taking it twice never returns. *)

From stdpp Require Import base tactics list numbers strings gmap.
From S2P Require Import Prelude StateMonad Text Config SqlClient.

Local Open Scope Z_scope.

Record sqlservice := mkSqlSvc {
  v_mysql : mysqlw;
  v_clients : gmap Z CSqlClient;
  v_next : Z;
  m_MysqlClientMap : gmap Z Z;
  m_mysqlCLocker : bool;
  v_isStop : bool
}.

Definition set_v_mysql x s := mkSqlSvc x (v_clients s) (v_next s) (m_MysqlClientMap s) (m_mysqlCLocker s) (v_isStop s).
Definition set_v_clients x s := mkSqlSvc (v_mysql s) x (v_next s) (m_MysqlClientMap s) (m_mysqlCLocker s) (v_isStop s).
Definition set_v_map x s := mkSqlSvc (v_mysql s) (v_clients s) (v_next s) x (m_mysqlCLocker s) (v_isStop s).
Definition set_v_lock x s := mkSqlSvc (v_mysql s) (v_clients s) (v_next s) (m_MysqlClientMap s) x (v_isStop s).
Definition set_v_stop x s := mkSqlSvc (v_mysql s) (v_clients s) (v_next s) (m_MysqlClientMap s) (m_mysqlCLocker s) x.

Abbreviation VM := (SM sqlservice).

(** The constructor. *)
Definition new_CSqlServiceMgr (w : mysqlw) : sqlservice := mkSqlSvc w ∅ 1 ∅ false false.

(** [LockerGuard guard(m_mysqlCLocker)] until the end of the scope. *)
Definition with_sql_map {A} (body : VM A) : VM A :=
  do* s := sget in
  if m_mysqlCLocker s then scrash Blocks
  else
    do* _ := smodify (set_v_lock true) in
    do* r := body in
    do* _ := smodify (set_v_lock false) in
    sret r.

(** [new CSqlClient()]. *)
Definition new_sql_client : VM Z := fun s =>
  Ok (v_next s, mkSqlSvc (v_mysql s) (<[v_next s := new_CSqlClient]> (v_clients s)) (v_next s + 1)
                  (m_MysqlClientMap s) (m_mysqlCLocker s) (v_isStop s)).

(** A method of the client at [p]. *)
Definition on_sql_client {A} (p : Z) (m : CSqlClient -> QM (A * CSqlClient)) : VM A := fun s =>
  match v_clients s !! p with
  | Some t => match m t (v_mysql s) with
              | Ok (a, t', w) => Ok (a, set_v_mysql w (set_v_clients (<[p := t']> (v_clients s)) s))
              | Fault f => Fault f
              end
  | None => Fault UseAfterFree
  end.

(** [delete pClient]. *)
Definition delete_sql_client (p : Z) : VM unit := fun s =>
  match v_clients s !! p with
  | Some t => match delete_CSqlClient t (v_mysql s) with
              | Ok (_, w) => Ok (tt, set_v_mysql w (set_v_clients (delete p (v_clients s)) s))
              | Fault f => Fault f
              end
  | None => Fault UseAfterFree
  end.

(** The port is an [unsigned int]. *)
Definition MakeSqlClient (pInfo : ConfigInfo) : VM Z :=
  do* pClient := new_sql_client in
  let flag := 0 in
  let port := atoi (st_port pInfo) mod 2 ^ 32 in
  do* ok := on_sql_client pClient (OnInit (st_address pInfo) port (st_username pInfo) (st_password pInfo) (st_dbname pInfo) flag) in
  if ok : bool then sret pClient
  else
    do* _ := delete_sql_client pClient in
    sret 0.

(** [std::map::insert] keeps an entry that is there. *)
Definition InsertSqlClient (iZoneCode pClient : Z) : VM unit :=
  with_sql_map (smodify (fun s => set_v_map
    (match m_MysqlClientMap s !! iZoneCode with
     | Some _ => m_MysqlClientMap s
     | None => <[iZoneCode := pClient]> (m_MysqlClientMap s)
     end) s)).

(** The loop of [OnInit] over the configured zones, in their order. *)
Fixpoint sql_init_loop (configs : gmap Z ConfigInfo) (zones : list Z) : VM unit :=
  match zones with
  | [] => sret tt
  | z :: zones' =>
      do* _ := match configs !! z with
               | Some x =>
                   let info := mkInfo (st_address x) (st_port x) (st_username x) (st_password x) (st_dbname x) in
                   do* pClient := MakeSqlClient info in
                   if pClient =? 0 then sret tt else InsertSqlClient z pClient
               | None => sret tt
               end in
      sql_init_loop configs zones'
  end.

(** The thread that [OnInit] starts is [OnTestOnLine]. *)
Definition sql_service_OnInit (cfg : CConfiger) : VM bool :=
  let configs := GetConfigInfos cfg false in
  do* _ := sql_init_loop configs (keys_of configs) in
  sret true.

(** The last argument of [GetConfigInfo] asks for the Redis server of the zone. *)
Definition GetSqlClient (cfg : CConfiger) (iZoneCode : Z) : VM Z :=
  do* found := with_sql_map (do* s := sget in sret (m_MysqlClientMap s !! iZoneCode)) in
  match found with
  | Some pClient => sret pClient
  | None =>
      let info := GetConfigInfo cfg iZoneCode (mkInfo [] [] [] [] []) true in
      if negb (bool_decide (st_address info = [])) && negb (bool_decide (st_port info = [])) then
        do* pTmpClient := MakeSqlClient info in
        do* _ := InsertSqlClient iZoneCode pTmpClient in
        sret pTmpClient
      else sret 0
  end.

(** One turn of the loop over the map: a client that is off is erased, and not
    deleted. *)
Fixpoint sql_online_loop (zones : list Z) : VM unit :=
  match zones with
  | [] => sret tt
  | z :: zones' =>
      do* s := sget in
      do* _ := match m_MysqlClientMap s !! z with
               | Some p =>
                   if p =? 0 then sret tt
                   else
                     do* ok := on_sql_client p TestOnline in
                     if ok : bool then sret tt
                     else smodify (fun s => set_v_map (delete z (m_MysqlClientMap s)) s)
               | None => sret tt
               end in
      sql_online_loop zones'
  end.

(** The thread: every turn waits five seconds first.  [turns] bounds the number
    of turns that are looked at. *)
Fixpoint sql_OnTestOnLine (turns : nat) : VM unit :=
  match turns with
  | O => sret tt
  | S n =>
      do* s := sget in
      if v_isStop s then sret tt
      else
        do* _ := with_sql_map (do* s := sget in sql_online_loop (keys_of (m_MysqlClientMap s))) in
        sql_OnTestOnLine n
  end.

(** The destructor. *)
Fixpoint sql_delete_loop (zones : list Z) : VM unit :=
  match zones with
  | [] => sret tt
  | z :: zones' =>
      do* s := sget in
      do* _ := match m_MysqlClientMap s !! z with
               | Some p => if p =? 0 then sret tt else delete_sql_client p
               | None => sret tt
               end in
      sql_delete_loop zones'
  end.

Definition delete_CSqlServiceMgr : VM unit :=
  do* _ := smodify (set_v_stop true) in
  with_sql_map (do* s := sget in
                do* _ := sql_delete_loop (keys_of (m_MysqlClientMap s)) in
                smodify (set_v_map ∅)).
