(* ===== verification/SqlServiceSpec.v ===== *)
(** The MySQL service: whatever the library answers, the service never uses a
    client or a handle that is gone, and when it stops every handle that it
    opened has been closed. *)

From stdpp Require Import base tactics list numbers strings gmap.
From S2P Require Import Prelude StateMonad Text Config SqlClient SqlClientSpec SqlService.

Local Open Scope Z_scope.

(** * The clients on the heap *)

(** The clients at the addresses [owned] are in use; only they have handles, each
    one its own, and none of [base], the handles of others. *)
Record heap_ok (base : gset Z) (r : Z) (owned : gset Z) (n : nat) (s : sqlservice) : Prop := {
  hk_clients : forall p t, v_clients s !! p = Some t -> 0 < p < v_next s /\ settled t;
  hk_owned : forall p, p ∈ owned -> is_Some (v_clients s !! p);
  hk_used : forall p t h, v_clients s !! p = Some t -> m_SqlHandle t = Some h -> p ∈ owned /\ h ∉ base;
  hk_inj : forall p p' t t' h, v_clients s !! p = Some t -> v_clients s !! p' = Some t' ->
    m_SqlHandle t = Some h -> m_SqlHandle t' = Some h -> p = p';
  hk_open : forall x, x ∈ q_open (v_mysql s) <-> x ∈ base \/ exists p t, v_clients s !! p = Some t /\ m_SqlHandle t = Some x;
  hk_fresh : forall x, x ∈ q_open (v_mysql s) -> x < q_next (v_mysql s);
  hk_next : 0 < v_next s;
  hk_answers : (n <= length (q_answers (v_mysql s)))%nat;
  hk_results : q_results (v_mysql s) = r
}.

(** The handles of all but the client [t]. *)
Definition others (t : CSqlClient) (s : sqlservice) : gset Z :=
  match m_SqlHandle t with Some h => q_open (v_mysql s) ∖ {[h]} | None => q_open (v_mysql s) end.

Section heap.
Context (base : gset Z) (r : Z).

Lemma client_holds owned n s p t : heap_ok base r owned n s -> v_clients s !! p = Some t ->
  holding (others t s) r (m_SqlHandle t) n (v_mysql s).
Proof.
  intros [] Hp. unfold others. split; try done.
  - destruct (m_SqlHandle t) as [h|] eqn:Eh; [|done]. apply set_eq. intros x.
    assert (h ∈ q_open (v_mysql s)) by (apply hk_open0; right; eauto).
    destruct (decide (x = h)) as [->|]; set_solver.
  - intros x ->. set_solver.
Qed.

Lemma others_spec owned n s p t x : heap_ok base r owned n s -> v_clients s !! p = Some t ->
  x ∈ others t s <-> x ∈ base \/ exists p' t', p' <> p /\ v_clients s !! p' = Some t' /\ m_SqlHandle t' = Some x.
Proof.
  intros Hok Hp. pose proof (hk_open _ _ _ _ _ Hok x) as Hx. unfold others. split.
  - intros Hin. assert (x ∈ q_open (v_mysql s) /\ m_SqlHandle t <> Some x) as [Hin' Hne].
    { destruct (m_SqlHandle t) as [h|]; [|by split]. split; [set_solver|]. intros [= ->]. set_solver. }
    apply Hx in Hin' as [|(p' & t' & Hp' & Ht')]; [by left|]. right. exists p', t'. split_and!; [|done|done].
    intros ->. by simplify_eq.
  - intros H. assert (x ∈ q_open (v_mysql s)) as Hin.
    { apply Hx. destruct H as [|(p' & t' & _ & ? & ?)]; [by left|right; eauto]. }
    destruct (m_SqlHandle t) as [h|] eqn:Eh; [|done]. apply elem_of_difference. split; [done|]. intros ->%elem_of_singleton.
    destruct H as [Hb|(p' & t' & Hne & Hp' & Ht')].
    + by destruct (hk_used _ _ _ _ _ Hok p t h Hp Eh).
    + apply Hne. by eapply (hk_inj _ _ _ _ _ Hok).
Qed.

(** A method has run on the client at [p]. *)
Lemma client_step owned n m s p t t' w' :
  heap_ok base r owned n s -> v_clients s !! p = Some t -> settled t' ->
  holding (others t s) r (m_SqlHandle t') m w' -> (m_SqlHandle t' = None \/ p ∈ owned) ->
  heap_ok base r owned m (set_v_mysql w' (set_v_clients (<[p := t']> (v_clients s)) s)).
Proof.
  intros Hok Hp Ht' [Ho Hw Hf Ha Hr] Hown. pose proof (fun x => others_spec owned n s p t x Hok Hp) as Hoth. destruct Hok.
  split; cbn; try done.
  - intros q u. rewrite lookup_insert_Some. intros [[<- <-]|[_ Hq]]; [|by apply hk_clients0].
    split; [by apply (hk_clients0 p t)|done].
  - intros q Hq. destruct (decide (p = q)) as [->|]; [rewrite lookup_insert_eq; eauto|rewrite lookup_insert_ne by done; auto].
  - intros q u h. rewrite lookup_insert_Some. intros [[<- <-]|[_ Hq]] Hh; [|by eapply hk_used0].
    destruct Hown as [Hn|Hin]; [congruence|]. split; [done|]. intros Hb. apply (Hw h Hh). apply Hoth. by left.
  - intros q q' u u' h. rewrite !lookup_insert_Some.
    intros [[<- <-]|[Hne Hq]] [[<- <-]|[Hne' Hq']] Hh Hh'; [done| | |by eapply hk_inj0].
    + destruct (Hw h Hh). apply Hoth. right. exists q', u'. auto.
    + destruct (Hw h Hh'). apply Hoth. right. exists q, u. auto.
  - intros x. assert (x ∈ q_open w' <-> m_SqlHandle t' = Some x \/ x ∈ others t s) as ->.
    { rewrite Ho. destruct (m_SqlHandle t') as [h|]; [|naive_solver]. rewrite elem_of_union, elem_of_singleton. naive_solver. }
    rewrite Hoth. split.
    + intros [Hx|[Hb|(q & u & Hne & Hq & Hu)]]; [right|by left|right].
      * exists p, t'. by rewrite lookup_insert_eq.
      * exists q, u. by rewrite lookup_insert_ne.
    + intros [Hb|(q & u & Hq & Hu)]; [auto|]. apply lookup_insert_Some in Hq as [[<- <-]|[Hne Hq]]; [by left|].
      right. right. exists q, u. auto.
Qed.

(** The client at [p] has been deleted. *)
Lemma client_gone owned n m s p t w' :
  heap_ok base r owned n s -> v_clients s !! p = Some t -> holding (others t s) r None m w' ->
  heap_ok base r (owned ∖ {[p]}) m (set_v_mysql w' (set_v_clients (delete p (v_clients s)) s)).
Proof.
  intros Hok Hp [Ho Hw Hf Ha Hr]. pose proof (fun x => others_spec owned n s p t x Hok Hp) as Hoth. destruct Hok.
  split; cbn; try done.
  - intros q u [_ Hq]%lookup_delete_Some. by apply hk_clients0.
  - intros q [Hq Hne]%elem_of_difference. rewrite lookup_delete_ne by set_solver. auto.
  - intros q u h [Hne Hq]%lookup_delete_Some Hh. destruct (hk_used0 q u h Hq Hh). set_solver.
  - intros q q' u u' h [_ Hq]%lookup_delete_Some [_ Hq']%lookup_delete_Some. by eapply hk_inj0.
  - intros x. rewrite Ho, Hoth. split.
    + intros [Hb|(q & u & Hne & Hq & Hu)]; [by left|right]. exists q, u. by rewrite lookup_delete_ne.
    + intros [Hb|(q & u & [Hne Hq]%lookup_delete_Some & Hu)]; [auto|]. right. exists q, u. auto.
Qed.

Lemma heap_le owned n m s : (n <= m)%nat -> heap_ok base r owned m s -> heap_ok base r owned n s.
Proof. intros Hn []. split; try done; lia. Qed.

(** Clients without a handle need nobody. *)
Lemma heap_drop owned n s p t : heap_ok base r owned n s -> v_clients s !! p = Some t -> m_SqlHandle t = None ->
  heap_ok base r (owned ∖ {[p]}) n s.
Proof.
  intros [] Hp Hn. split; try done.
  - intros q [Hq _]%elem_of_difference. auto.
  - intros q u h Hq Hh. destruct (hk_used0 q u h Hq Hh). split; [|done]. apply elem_of_difference. split; [done|].
    intros ->%elem_of_singleton. by simplify_eq.
Qed.

(** The map and the lock are none of the heap's business. *)
Lemma heap_frame owned n s m l b : heap_ok base r owned n s ->
  heap_ok base r owned n (mkSqlSvc (v_mysql s) (v_clients s) (v_next s) m l b).
Proof. intros []. by split. Qed.
End heap.

(** * The service *)

(** The map holds the clients in use, each under one zone, and null pointers. *)
Record map_ok (owned : gset Z) (m : gmap Z Z) : Prop := {
  mo_entry : forall z p, m !! z = Some p -> p = 0 \/ p ∈ owned;
  mo_inj : forall z z' p, m !! z = Some p -> m !! z' = Some p -> p <> 0 -> z = z';
  mo_zone : forall p, p ∈ owned -> exists z, m !! z = Some p
}.

Definition service_ok (base : gset Z) (r : Z) (n : nat) (s : sqlservice) : Prop :=
  m_mysqlCLocker s = false /\ exists owned, heap_ok base r owned n s /\ map_ok owned (m_MysqlClientMap s).

(** What the calls on clients leave alone. *)
Definition same_map (s s' : sqlservice) : Prop :=
  m_MysqlClientMap s' = m_MysqlClientMap s /\ m_mysqlCLocker s' = m_mysqlCLocker s.

Section service.
Context (base : gset Z) (r : Z).

Lemma wp_on_client {A} p t (m : CSqlClient -> QM (A * CSqlClient)) (Q : A -> sqlservice -> Prop) s :
  v_clients s !! p = Some t ->
  wp (m t) (fun x w => Q x.1 (set_v_mysql w (set_v_clients (<[p := x.2]> (v_clients s)) s))) (v_mysql s) ->
  wp (on_sql_client p m) Q s.
Proof. intros Hp. unfold wp, on_sql_client. rewrite Hp. by destruct (m t (v_mysql s)) as [[[a t'] w]|]. Qed.

Lemma delete_client_ok owned n s p t (Q : unit -> sqlservice -> Prop) :
  heap_ok base r owned n s -> v_clients s !! p = Some t -> m_locker t = false ->
  (forall s', heap_ok base r (owned ∖ {[p]}) n s' -> same_map s s' -> Q tt s') ->
  wp (delete_sql_client p) Q s.
Proof.
  intros Hok Hp Hl HQ. pose proof (client_holds base r owned n s p t Hok Hp) as Hh.
  assert (wp (delete_CSqlClient t) (fun _ w' => holding (others t s) r None n w') (v_mysql s)) as H.
  { by apply (delete_ok (P := enough) (others t s) r t n (v_mysql s)). }
  apply wp_returns in H as ([] & w' & E & Hw'). unfold wp, delete_sql_client. rewrite Hp, E. apply HQ; [|done].
  by eapply client_gone.
Qed.

Lemma heap_new owned n s t m l b : heap_ok base r owned n s -> settled t -> m_SqlHandle t = None ->
  heap_ok base r owned n (mkSqlSvc (v_mysql s) (<[v_next s := t]> (v_clients s)) (v_next s + 1) m l b).
Proof.
  intros [] Ht Hn. assert (forall p u, <[v_next s := t]> (v_clients s) !! p = Some u ->
    (p = v_next s /\ u = t) \/ v_clients s !! p = Some u) as Hc.
  { intros p u. rewrite lookup_insert_Some. intros [[<- <-]|[_ H]]; auto. }
  split; cbn; try done; try lia.
  - intros p u Hp. destruct (Hc p u Hp) as [[-> ->]|Hp']; [split; [lia|done]|]. destruct (hk_clients0 p u Hp'). split; [lia|done].
  - intros p Hp. destruct (decide (v_next s = p)) as [->|]; [rewrite lookup_insert_eq; eauto|rewrite lookup_insert_ne by done; auto].
  - intros p u h Hp Hh. destruct (Hc p u Hp) as [[-> ->]|Hp']; [congruence|eauto].
  - intros p p' u u' h Hp Hp' Hh Hh'. destruct (Hc p u Hp) as [[-> ->]|?]; [congruence|].
    destruct (Hc p' u' Hp') as [[-> ->]|?]; [congruence|eauto].
  - intros x. rewrite hk_open0. apply or_iff_compat_l. split; intros (p & u & Hp & Hu).
    + exists p, u. rewrite lookup_insert_ne; [done|]. intros <-. destruct (hk_clients0 _ _ Hp). lia.
    + destruct (Hc p u Hp) as [[-> ->]|?]; [congruence|eauto].
Qed.

Lemma heap_own owned n s p : heap_ok base r owned n s -> is_Some (v_clients s !! p) -> heap_ok base r ({[p]} ∪ owned) n s.
Proof.
  intros [] Hp. split; try done.
  - intros q [->%elem_of_singleton|Hq]%elem_of_union; auto.
  - intros q u h Hq Hh. destruct (hk_used0 q u h Hq Hh). split; [set_solver|done].
Qed.

Lemma MakeSqlClient_ok owned n info s (Q : Z -> sqlservice -> Prop) :
  heap_ok base r owned (4 + n) s ->
  (forall s', heap_ok base r owned n s' -> same_map s s' -> Q 0 s') ->
  (forall p s', 0 < p -> p ∉ owned -> heap_ok base r ({[p]} ∪ owned) n s' -> same_map s s' -> Q p s') ->
  wp (MakeSqlClient info) Q s.
Proof.
  intros Hok HQ0 HQ1. unfold MakeSqlClient. set (p := v_next s). set (port := atoi _ mod _).
  set (t := mkSqlClient (Some port) (st_address info) (st_username info) (st_password info) (st_dbname info) (Some 0) 0 None false).
  assert (settled t) as Ht by (split; [split; [done|by eexists..]|cbn; lia|done]).
  set (fresh u := mkSqlSvc (v_mysql s) (<[p := u]> (v_clients s)) (p + 1) (m_MysqlClientMap s) (m_mysqlCLocker s) (v_isStop s)).
  pose proof (heap_new owned (4 + n) s t (m_MysqlClientMap s) (m_mysqlCLocker s) (v_isStop s) Hok Ht eq_refl) as Hnew.
  fold p in Hnew. change (heap_ok base r owned (4 + n) (fresh t)) in Hnew.
  assert (0 < p) as Hpos by apply (hk_next _ _ _ _ _ Hok).
  assert (p ∉ owned) as Hfresh.
  { intros Hin. destruct (hk_owned _ _ _ _ _ Hok p Hin) as [u Hu]. destruct (hk_clients _ _ _ _ _ Hok p u Hu). unfold p in *. lia. }
  assert (v_clients (fresh t) !! p = Some t) as Hp by apply lookup_insert_eq.
  apply wp_bind, (wp_run _ _ _ p (fresh new_CSqlClient)); [done|]. apply wp_bind.
  apply (wp_on_client p new_CSqlClient); [apply lookup_insert_eq|].
  change (wp (OnConnect t) (fun x w => wp (if x.1 then sret p else do* _ := delete_sql_client p in sret 0) Q
    (set_v_mysql w (set_v_clients (<[p := x.2]> (<[p := new_CSqlClient]> (v_clients s))) (fresh new_CSqlClient)))) (v_mysql (fresh t))).
  apply (sql_OnConnect_ok (P := enough) (others t (fresh t)) r t n (v_mysql (fresh t))); [apply Ht|done|by eapply client_holds|].
  intros h w' Hw'. cbn [fst snd].
  set (s' := set_v_mysql w' (set_v_clients (<[p := set_handle h t]> (v_clients (fresh t))) (fresh t))).
  assert (set_v_mysql w' (set_v_clients (<[p := set_handle h t]> (<[p := new_CSqlClient]> (v_clients s))) (fresh new_CSqlClient)) = s') as ->.
  { unfold s', set_v_mysql, set_v_clients. cbn. by rewrite !insert_insert_eq. }
  assert (settled (set_handle h t)) as Hset by (split; [split; [done|by eexists..]|cbn; lia|done]).
  assert (v_clients s' !! p = Some (set_handle h t)) as Hp' by apply lookup_insert_eq.
  destruct h as [h|]; [rewrite bool_decide_true by eauto|rewrite bool_decide_false by (by intros [? ?])].
  - apply wp_ret, HQ1; [done|done| |done]. eapply client_step; [by apply heap_own; [|eauto]|done|done|done|right; set_solver].
  - assert (heap_ok base r owned n s') as Hok' by (eapply client_step; [done|done|done|done|by left]).
    apply wp_bind, (delete_client_ok owned n s' p _ _ Hok' Hp' eq_refl). intros s2 Hs2 [Hm Hl]. apply wp_ret, HQ0; [|done].
    replace owned with (owned ∖ {[p]}); [done|]. set_solver.
Qed.

Lemma wp_with_map {A} (body : VM A) (Q : A -> sqlservice -> Prop) s :
  m_mysqlCLocker s = false -> wp body (fun a s' => Q a (set_v_lock false s')) (set_v_lock true s) -> wp (with_sql_map body) Q s.
Proof.
  intros Hl Hb. unfold with_sql_map. apply wp_bind, (wp_run _ _ _ s s); [done|]. rewrite Hl.
  apply wp_bind, (wp_run _ _ _ tt (set_v_lock true s)); [done|]. apply wp_bind. eapply wp_mono; [exact Hb|]. intros a s' HQ.
  by apply wp_bind, (wp_run _ _ _ tt (set_v_lock false s')).
Qed.

Lemma InsertSqlClient_ok z p (Q : unit -> sqlservice -> Prop) s :
  m_mysqlCLocker s = false -> m_MysqlClientMap s !! z = None ->
  Q tt (set_v_map (<[z := p]> (m_MysqlClientMap s)) s) -> wp (InsertSqlClient z p) Q s.
Proof.
  intros Hl Hz HQ. apply wp_with_map; [done|]. apply (wp_run _ _ _ tt (set_v_map (<[z := p]> (m_MysqlClientMap s)) (set_v_lock true s))).
  - unfold smodify. cbn. by rewrite Hz.
  - unfold set_v_lock, set_v_map in *. cbn. by rewrite <- Hl.
Qed.

Lemma map_ok_null owned m z : map_ok owned m -> m !! z = None -> map_ok owned (<[z := 0]> m).
Proof.
  intros [He Hi Hz] Hm. split.
  - intros z' p. rewrite lookup_insert_Some. intros [[_ <-]|[_ H]]; [by left|eauto].
  - intros z1 z2 p. rewrite !lookup_insert_Some. intros [[_ <-]|[_ H1]] [[_ Hp]|[_ H2]] Hp0; try done; eauto.
  - intros p Hp. destruct (Hz p Hp) as [z' Hz']. exists z'. rewrite lookup_insert_ne; [done|]. intros ->. congruence.
Qed.

Lemma map_ok_add owned m z p : map_ok owned m -> m !! z = None -> p ∉ owned -> map_ok ({[p]} ∪ owned) (<[z := p]> m).
Proof.
  intros [He Hi Hz] Hm Hp. split.
  - intros z' q. rewrite lookup_insert_Some. intros [[_ <-]|[_ H]]; [right; set_solver|]. destruct (He z' q H); [by left|right; set_solver].
  - intros z1 z2 q. rewrite !lookup_insert_Some. intros [[-> ->]|[Hn1 H1]] [[-> Hq]|[Hn2 H2]] Hq0; try done; try by eauto.
    + destruct (He _ _ H2); done.
    + subst q. destruct (He _ _ H1); done.
  - intros q [->%elem_of_singleton|Hq]%elem_of_union; [exists z; by rewrite lookup_insert_eq|].
    destruct (Hz q Hq) as [z' Hz']. exists z'. rewrite lookup_insert_ne; [done|]. intros ->. congruence.
Qed.

(** A client is made for the zone [z], which has none; when that fails [on_fail]
    says what is entered. *)
Lemma zone_added n z info s (Q : Z -> sqlservice -> Prop) :
  service_ok base r (4 + n) s ->
  (forall s', service_ok base r n s' -> same_map s s' -> Q 0 s') ->
  (forall p s', 0 < p -> m_mysqlCLocker s' = false -> m_MysqlClientMap s' = m_MysqlClientMap s ->
     (m_MysqlClientMap s !! z = None -> service_ok base r n (set_v_map (<[z := p]> (m_MysqlClientMap s')) s')) -> Q p s') ->
  wp (MakeSqlClient info) Q s.
Proof.
  intros [Hl (owned & Hh & Hm)] HQ0 HQ1. apply (MakeSqlClient_ok owned n info s); [done| |].
  - intros s' Hs' [E1 E2]. apply HQ0; [|done]. split; [congruence|]. exists owned. split; [done|]. by rewrite E1.
  - intros p s' Hp Hfresh Hs' [E1 E2]. apply HQ1; [done|congruence|done|]. intros Hz. split; [cbn; congruence|].
    exists ({[p]} ∪ owned). split; [by apply heap_frame|]. cbn. rewrite E1. by apply map_ok_add.
Qed.

Lemma sql_init_loop_ok configs zones n s (Q : unit -> sqlservice -> Prop) :
  NoDup zones -> (forall z, z ∈ zones -> m_MysqlClientMap s !! z = None) ->
  service_ok base r (4 * length zones + n) s ->
  (forall s', service_ok base r n s' -> (size (m_MysqlClientMap s') <= size (m_MysqlClientMap s) + length zones)%nat -> Q tt s') ->
  wp (sql_init_loop configs zones) Q s.
Proof.
  revert s. induction zones as [|z zones IH]; intros s Hnd Hz Hok HQ; cbn [sql_init_loop].
  { apply wp_ret, HQ; [done|cbn; lia]. }
  apply NoDup_cons in Hnd as [Hnz Hnd]. apply wp_bind.
  assert (forall s', service_ok base r (4 * length zones + n) s' -> (size (m_MysqlClientMap s') <= S (size (m_MysqlClientMap s)))%nat ->
    (forall z', z' ∈ zones -> m_MysqlClientMap s' !! z' = None) -> wp (sql_init_loop configs zones) Q s') as Hrest.
  { intros s' Hs' Hsz Hz'. apply IH; [done|done|done|]. intros s2 Hs2 Hsz2. apply HQ; [done|]. cbn. lia. }
  assert (forall z', z' ∈ zones -> m_MysqlClientMap s !! z' = None) as Hz' by (intros; apply Hz; by right).
  destruct (configs !! z) as [x|].
  2: { apply wp_ret, Hrest; [|lia|done]. destruct Hok as [Hl (o & Hh & Hm)]. split; [done|]. exists o. split; [|done].
       eapply heap_le; [|done]. cbn. lia. }
  apply wp_bind, (zone_added (4 * length zones + n) z _ s); [replace (4 * length (z :: zones) + n)%nat with (4 + (4 * length zones + n))%nat in Hok by (cbn; lia); done| |].
  - intros s' Hs' [E1 E2]. apply wp_ret, Hrest; [done|rewrite E1; lia|by rewrite E1].
  - intros p s' Hp Hl E1 Hs'. replace (p =? 0) with false by (symmetry; apply Z.eqb_neq; lia).
    apply InsertSqlClient_ok; [done|rewrite E1; apply Hz; by left|]. apply Hrest; cbn; [apply Hs', Hz; by left| |].
    + rewrite E1. rewrite map_size_insert_None; [done|]. apply Hz. by left.
    + intros z' Hin. rewrite E1, lookup_insert_ne; [by apply Hz'|]. by intros ->.
Qed.

Lemma GetSqlClient_ok cfg z n s (Q : Z -> sqlservice -> Prop) :
  service_ok base r (4 + n) s ->
  (forall p s', service_ok base r n s' -> (size (m_MysqlClientMap s') <= S (size (m_MysqlClientMap s)))%nat ->
     (p = 0 \/ m_MysqlClientMap s' !! z = Some p /\ is_Some (v_clients s' !! p)) -> Q p s') ->
  wp (GetSqlClient cfg z) Q s.
Proof.
  intros Hok HQ. destruct (Hok) as [Hl (owned & Hh & Hm)].
  assert (service_ok base r n s) as Hok' by (split; [done|]; exists owned; split; [eapply heap_le; [|done]; lia|done]).
  unfold GetSqlClient. apply wp_bind, wp_with_map; [done|].
  apply (wp_run _ _ _ (m_MysqlClientMap s !! z) (set_v_lock true s)); [done|].
  replace (set_v_lock false (set_v_lock true s)) with s by (destruct s; cbn in *; by subst).
  destruct (m_MysqlClientMap s !! z) as [p|] eqn:Ez.
  { apply wp_ret, HQ; [done|lia|]. destruct (mo_entry _ _ Hm z p Ez) as [|Hp]; [by left|right]. split; [done|]. by apply (hk_owned _ _ _ _ _ Hh). }
  destruct (_ && _); [|apply wp_ret, HQ; [done|lia|by left]].
  apply wp_bind, (zone_added n z _ s); [done| |].
  - intros s' [Hl' (o' & Hh' & Hm')] [E1 E2]. apply wp_bind, InsertSqlClient_ok; [done|by rewrite E1|]. apply wp_ret, HQ; [| |by left]; cbn.
    + split; [done|]. exists o'. split; [by apply heap_frame|]. apply map_ok_null; [done|by rewrite E1].
    + rewrite E1, map_size_insert_None by done. lia.
  - intros p s' Hp Hl' E1 Hs'. apply wp_bind, InsertSqlClient_ok; [done|by rewrite E1|]. specialize (Hs' Ez).
    apply wp_ret, HQ; [done|cbn; rewrite E1, map_size_insert_None by done; lia|]. right. split; [apply lookup_insert_eq|].
    destruct Hs' as [_ (o & Hh' & Hm')]. destruct (mo_entry _ _ Hm' z p) as [|Hin]; [apply lookup_insert_eq|lia|].
    apply (hk_owned _ _ _ _ _ Hh' p Hin).
Qed.

Lemma map_ok_drop owned m z p : map_ok owned m -> m !! z = Some p -> p <> 0 -> map_ok (owned ∖ {[p]}) (delete z m).
Proof.
  intros [He Hi Hz] Hm Hp. split.
  - intros z' q [Hne H]%lookup_delete_Some. destruct (He z' q H) as [|Hq]; [by left|right]. apply elem_of_difference. split; [done|].
    intros ->%elem_of_singleton. by apply Hne, (Hi z z' p).
  - intros z1 z2 q [_ H1]%lookup_delete_Some [_ H2]%lookup_delete_Some. eauto.
  - intros q [Hq Hne]%elem_of_difference. destruct (Hz q Hq) as [z' Hz']. exists z'. rewrite lookup_delete_ne; [done|]. intros ->. set_solver.
Qed.

(** A client that is found off has no handle any more when it is erased. *)
Lemma sql_online_loop_ok zones n s (Q : unit -> sqlservice -> Prop) :
  (exists owned, heap_ok base r owned (5 * length zones + n) s /\ map_ok owned (m_MysqlClientMap s)) ->
  (forall s' owned', heap_ok base r owned' n s' -> map_ok owned' (m_MysqlClientMap s') ->
     (size (m_MysqlClientMap s') <= size (m_MysqlClientMap s))%nat -> Q tt s') ->
  wp (sql_online_loop zones) Q s.
Proof.
  revert s. induction zones as [|z zones IH]; intros s (owned & Hh & Hm) HQ; cbn [sql_online_loop].
  { apply wp_ret. by eapply HQ. }
  assert (heap_ok base r owned (5 + (5 * length zones + n)) s) as Hh5 by (eapply heap_le; [|exact Hh]; cbn; lia).
  assert (forall s' o, heap_ok base r o (5 * length zones + n) s' -> map_ok o (m_MysqlClientMap s') ->
    (size (m_MysqlClientMap s') <= size (m_MysqlClientMap s))%nat -> wp (sql_online_loop zones) Q s') as Hrest.
  { intros s' o H1 H2 H3. apply IH; [eauto|]. intros s2 o2 H4 H5 H6. eapply HQ; [done|done|lia]. }
  assert (wp (sql_online_loop zones) Q s) as Hskip by (eapply Hrest; [eapply heap_le; [|exact Hh5]; lia|done|done]).
  apply wp_bind, (wp_run _ _ _ s s); [done|]. apply wp_bind. destruct (m_MysqlClientMap s !! z) as [p|] eqn:Ez; [|by apply wp_ret].
  destruct (Z.eqb_spec p 0) as [->|Hp0]; [by apply wp_ret|].
  destruct (mo_entry _ _ Hm z p Ez) as [|Hown]; [done|]. destruct (hk_owned _ _ _ _ _ Hh p Hown) as [t Hp].
  destruct (hk_clients _ _ _ _ _ Hh p t Hp) as [_ Hset]. apply wp_bind, (wp_on_client p t); [done|].
  apply (TestOnline_ok (P := enough) (others t s) r t (5 * length zones + n) (v_mysql s)); [done|by eapply client_holds|].
  intros t' w' Ht' Hw' Hsame. cbn [fst snd].
  set (s' := set_v_mysql w' (set_v_clients (<[p := t']> (v_clients s)) s)).
  assert (heap_ok base r owned (5 * length zones + n) s') as Hs' by (eapply client_step; [done|done|done|done|by right]).
  case_bool_decide as Hon; [apply wp_ret; by eapply Hrest|].
  apply eq_None_not_Some in Hon. specialize (Hsame Hon). subst t'.
  apply (wp_run _ _ _ tt (set_v_map (delete z (m_MysqlClientMap s)) s')); [done|].
  apply (Hrest _ (owned ∖ {[p]})).
  - apply (heap_frame _ _ _ _ s'). eapply heap_drop; [done|apply lookup_insert_eq|done].
  - by apply map_ok_drop.
  - cbn. rewrite map_size_delete, Ez. cbn. lia.
Qed.

Lemma sql_turn_ok n s (Q : unit -> sqlservice -> Prop) :
  service_ok base r (5 * size (m_MysqlClientMap s) + n) s ->
  (forall s', service_ok base r n s' -> (size (m_MysqlClientMap s') <= size (m_MysqlClientMap s))%nat -> Q tt s') ->
  wp (sql_OnTestOnLine 1) Q s.
Proof.
  intros [Hl (owned & Hh & Hm)] HQ. cbn [sql_OnTestOnLine]. apply wp_bind, (wp_run _ _ _ s s); [done|].
  assert (service_ok base r n s) as Hok by (split; [done|]; exists owned; split; [eapply heap_le; [|done]; lia|done]).
  destruct (v_isStop s); [apply wp_ret; by apply HQ|]. apply wp_bind, wp_with_map; [done|].
  apply wp_bind, (wp_run _ _ _ (set_v_lock true s) (set_v_lock true s)); [done|].
  assert (length (keys_of (m_MysqlClientMap s)) = size (m_MysqlClientMap s)) as Hlen.
  { unfold keys_of. by rewrite sorting.merge_sort_Permutation, length_fmap, length_map_to_list. }
  apply (sql_online_loop_ok _ n).
  - exists owned. split; [cbn [m_MysqlClientMap set_v_lock]; rewrite Hlen; by apply heap_frame|done].
  - intros s' o' Hh' Hm' Hsz. apply wp_ret, HQ; [|done]. split; [done|]. exists o'. split; [by apply heap_frame|done].
Qed.

Lemma sql_delete_loop_ok zones owned n s (Q : unit -> sqlservice -> Prop) :
  NoDup zones -> heap_ok base r owned n s ->
  (forall z z' p, m_MysqlClientMap s !! z = Some p -> m_MysqlClientMap s !! z' = Some p -> p <> 0 -> z = z') ->
  (forall p, p ∈ owned <-> p <> 0 /\ exists z, z ∈ zones /\ m_MysqlClientMap s !! z = Some p) ->
  (forall s', heap_ok base r ∅ n s' -> same_map s s' -> Q tt s') ->
  wp (sql_delete_loop zones) Q s.
Proof.
  revert owned s. induction zones as [|z zones IH]; intros owned s Hnd Hh Hinj Hown HQ; cbn [sql_delete_loop].
  { apply wp_ret, HQ; [|done]. replace ∅ with owned; [done|]. apply set_eq. intros p. rewrite Hown. split; [|set_solver].
    by intros (_ & z & Hz%elem_of_nil & _). }
  apply NoDup_cons in Hnd as [Hnz Hnd]. apply wp_bind, (wp_run _ _ _ s s); [done|]. apply wp_bind.
  destruct (m_MysqlClientMap s !! z) as [p|] eqn:Ez.
  2: { apply wp_ret, (IH owned); [done|done|done| |done]. intros p. rewrite Hown. split; intros (Hp & z' & Hin & Hz').
    - split; [done|]. exists z'. split; [|done]. apply elem_of_cons in Hin as [->|]; [congruence|done].
    - split; [done|]. exists z'. split; [by right|done]. }
  destruct (Z.eqb_spec p 0) as [->|Hp0].
  { apply wp_ret, (IH owned); [done|done|done| |done]. intros p. rewrite Hown. split; intros (Hp & z' & Hin & Hz').
    - split; [done|]. exists z'. split; [|done]. apply elem_of_cons in Hin as [->|]; [congruence|done].
    - split; [done|]. exists z'. split; [by right|done]. }
  assert (p ∈ owned) as Hin by (apply Hown; split; [done|]; exists z; split; [by left|done]).
  destruct (hk_owned _ _ _ _ _ Hh p Hin) as [t Ht]. destruct (hk_clients _ _ _ _ _ Hh p t Ht) as [_ [[Hlk _ _] _ _]].
  apply (delete_client_ok owned n s p t); [done..|]. intros s' Hs' [E1 E2].
  apply (IH (owned ∖ {[p]})); [done|done|by rewrite E1| |intros s2 Hs2 [E3 E4]; apply HQ; [done|split; congruence]].
  intros q. rewrite elem_of_difference, elem_of_singleton, Hown, E1. split.
  - intros [(Hq & z' & Hz'in & Hz') Hne]. split; [done|]. exists z'. split; [|done]. apply elem_of_cons in Hz'in as [->|]; [congruence|done].
  - intros (Hq & z' & Hz'in & Hz'). split; [split; [done|]; exists z'; split; [by right|done]|]. intros ->. by rewrite (Hinj z z' p) in Hnz.
Qed.

(** When the service has stopped only the handles of others are open. *)
Lemma delete_service_ok n s : service_ok base r n s ->
  wp delete_CSqlServiceMgr (fun _ s' => q_open (v_mysql s') = base /\ m_MysqlClientMap s' = ∅) s.
Proof.
  intros [Hl (owned & Hh & Hm)]. unfold delete_CSqlServiceMgr. apply wp_bind, (wp_run _ _ _ tt (set_v_stop true s)); [done|].
  apply wp_with_map; [done|]. set (s1 := set_v_lock true (set_v_stop true s)).
  apply wp_bind, (wp_run _ _ _ s1 s1); [done|]. apply wp_bind.
  destruct (keys_of_spec (m_MysqlClientMap s)) as [Hnd Hkeys].
  apply (sql_delete_loop_ok _ owned n); [done|by apply (heap_frame base r owned n s)|apply Hm| |].
  - intros p. split.
    + intros Hp. split; [|destruct (mo_zone _ _ Hm p Hp) as [z Hz]; exists z; split; [apply Hkeys; eauto|done]].
      destruct (hk_owned _ _ _ _ _ Hh p Hp) as [t Ht]. destruct (hk_clients _ _ _ _ _ Hh p t Ht). lia.
    + intros (Hp & z & _ & Hz). by destruct (mo_entry _ _ Hm z p Hz).
  - intros s' Hs' _. apply (wp_run _ _ _ tt (set_v_map ∅ s')); [done|]. split; [|done]. cbn. apply set_eq. intros x.
    rewrite (hk_open _ _ _ _ _ Hs'). split; [|by left]. intros [|(p & t & Hp & Ht)]; [done|].
    destruct (hk_used _ _ _ _ _ Hs' p t x Hp Ht). set_solver.
Qed.
End service.

(** * The life of the service *)

(** A request asks for the client of a zone, or the thread makes a turn. *)
Inductive service_op := AskZone (z : Z) | OnlineTurn.

Definition run_service_op (cfg : CConfiger) (op : service_op) : VM unit :=
  match op with
  | AskZone z => do* _ := GetSqlClient cfg z in sret tt
  | OnlineTurn => sql_OnTestOnLine 1
  end.
Fixpoint run_service_ops (cfg : CConfiger) (ops : list service_op) : VM unit :=
  match ops with
  | [] => sret tt
  | op :: ops => do* _ := run_service_op cfg op in run_service_ops cfg ops
  end.

Definition service_life (cfg : CConfiger) (ops : list service_op) : VM unit :=
  do* _ := sql_service_OnInit cfg in
  do* _ := run_service_ops cfg ops in
  delete_CSqlServiceMgr.

Lemma run_service_ops_ok base r cfg ops k n s (Q : unit -> sqlservice -> Prop) :
  (size (m_MysqlClientMap s) + length ops <= k)%nat ->
  service_ok base r (length ops * (4 + 5 * k) + n) s -> (forall s', service_ok base r n s' -> Q tt s') ->
  wp (run_service_ops cfg ops) Q s.
Proof.
  assert (forall m m' s, (m <= m')%nat -> service_ok base r m' s -> service_ok base r m s) as Hle.
  { intros m m' s0 Hm [Hl (o & Hh & Hz)]. split; [done|]. exists o. split; [by eapply heap_le|done]. }
  revert s. induction ops as [|op ops IH]; intros s Hk Hok HQ; cbn [run_service_ops]; [by apply wp_ret, HQ|].
  cbn [length] in Hk, Hok. apply wp_bind. destruct op as [z|]; cbn [run_service_op].
  - apply wp_bind, (GetSqlClient_ok base r cfg z (length ops * (4 + 5 * k) + n) s); [eapply Hle; [|exact Hok]; lia|].
    intros p s' Hs' Hsz _. apply wp_ret, IH; [lia|done|done].
  - apply (sql_turn_ok base r (length ops * (4 + 5 * k) + n) s); [eapply Hle; [|exact Hok]; nia|].
    intros s' Hs' Hsz. apply IH; [lia|done|done].
Qed.

(** The answers that are enough for [ops]: a client is made with at most four,
    and checked with at most five. *)
Definition enough (cfg : CConfiger) (ops : list service_op) : nat :=
  let zones := size (m_configMysqlMap cfg) in 4 * zones + length ops * (4 + 5 * (zones + length ops)).

(** C16: Whatever the MySQL library answers and whatever the configuration is, the
    service starts, hands out clients and checks them in any order and stops
    without ever using a client or a handle that is gone; afterwards its map is
    empty and exactly the handles that were open before are open.  In particular
    the clients that the check takes out of the map without deleting them have no
    handle any more. *)
Theorem sql_service_handles cfg ops w :
  (forall x, x ∈ q_open w -> x < q_next w) -> (enough cfg ops <= length (q_answers w))%nat ->
  exists s', service_life cfg ops (new_CSqlServiceMgr w) = Ok (tt, s') /\
    q_open (v_mysql s') = q_open w /\ m_MysqlClientMap s' = ∅.
Proof.
  intros Hf Ha. set (zones := size (m_configMysqlMap cfg)) in *.
  set (configs := GetConfigInfos cfg false). destruct (keys_of_spec configs) as [Hnd _].
  assert (length (keys_of configs) = zones) as Hlen.
  { unfold keys_of. rewrite sorting.merge_sort_Permutation, length_fmap, length_map_to_list. apply map_size_fmap. }
  assert (service_ok (q_open w) (q_results w) (enough cfg ops) (new_CSqlServiceMgr w)) as H0.
  { split; [done|]. exists ∅. split; [|by split]. split; cbn; try done.
    intros x. split; [by left|]. intros [|(p & t & Hp & _)]; [done|]. by rewrite lookup_empty in Hp. }
  assert (wp (service_life cfg ops) (fun _ s' => q_open (v_mysql s') = q_open w /\ m_MysqlClientMap s' = ∅) (new_CSqlServiceMgr w)) as H.
  { apply wp_bind, wp_bind. set (n := (length ops * (4 + 5 * (zones + length ops)))%nat).
    apply (sql_init_loop_ok (q_open w) (q_results w) _ _ n); [done|intros z _; apply lookup_empty| |].
    - fold configs. rewrite Hlen. exact H0.
    - intros s1 Hs1 Hsz. fold configs in Hsz. rewrite Hlen in Hsz. cbn [m_MysqlClientMap new_CSqlServiceMgr] in Hsz.
      rewrite map_size_empty in Hsz. apply wp_ret, wp_bind.
      apply (run_service_ops_ok (q_open w) (q_results w) cfg ops (zones + length ops) 0 s1); [lia|by rewrite Nat.add_0_r|].
      intros s2 Hs2. by eapply delete_service_ok. }
  apply wp_returns in H as ([] & s' & E & H). by exists s'.
Qed.

(** A client is only ever made from the entry of the Redis server: configurations
    that differ in the MySQL servers give the same client. *)
Lemma sql_client_from_redis cfg cfg' z : m_configRedisMap cfg = m_configRedisMap cfg' ->
  forall s, GetSqlClient cfg z s = GetSqlClient cfg' z s.
Proof. intros E s. unfold GetSqlClient, GetConfigInfo. by rewrite E. Qed.

(** ** Concrete services *)

Definition db_config : CConfiger :=
  mkConfig {[4301 := mkInfo (lit "db") (lit "3306") (lit "u") (lit "p") (lit "seal")]}
    {[4302 := mkInfo (lit "redis") (lit "6379") [] [] []]} 10 false false 100 100 2.

Definition many_answers : mysqlw := mkMysql (answers ([7; 1; 0; 0] ++ [7; 0] ++ [1; 7; 0] ++ replicate 80 0)) [] {[1]} 2 0.

Lemma sql_service_handles_witness :
  exists s', service_life db_config [AskZone 4302; OnlineTurn; OnlineTurn] (new_CSqlServiceMgr many_answers) = Ok (tt, s') /\
    q_open (v_mysql s') = {[1]} /\ m_MysqlClientMap s' = ∅.
Proof.
  apply (sql_service_handles db_config [AskZone 4302; OnlineTurn; OnlineTurn] many_answers).
  - cbn. intros x ->%elem_of_singleton. lia.
  - vm_compute. lia.
Defined.

(** The run of the witness: the zone 4302 is asked for from the Redis server, and
    the client of 4301 that went off is an object nobody can delete. *)
Example redis_asked_for_mysql :
  match service_life db_config [AskZone 4302; OnlineTurn; OnlineTurn] (new_CSqlServiceMgr many_answers) with
  | Ok (_, s) => (drop 4 (q_trace (v_mysql s)), bool_decide (is_Some (v_clients s !! 1)))
  | Fault _ => ([], false)
  end =
  ([MyInit; MyConnect 3 (lit "redis") [] [] [] 6379 0; MyClose 3;
    MyPing 2; MyClose 2; MyInit; MyConnect 4 (lit "db") (lit "u") (lit "p") (lit "seal") 3306 0; MyClose 4], true).
Proof. vm_compute. reflexivity. Qed.
