(* ===== verification/SqlText.v ===== *)
(** The statements of the server (CUtilSql.cpp and the formats in Common.h): a
    request becomes the text of an INSERT, UPDATE or SELECT in a buffer of 1024
    bytes. *)

From stdpp Require Import base tactics list numbers strings.
From S2P Require Import Prelude Printf Text Common.

Local Open Scope Z_scope.

(** * Formats (Common.h) *)

Definition TAB : char := 9.
Definition SRC_ESTATUS_OK : list char := lit "SRC000".

Definition INSERT_LOG_ESIGN : list char :=
  lit "INSERT INTO log_esign " ++ [TAB] ++
  lit "(lges_uid,LGES_SIGNSN,LGES_DOCHASH,LGES_DOCID,LGES_docname,LGES_sealcode,LGES_sealname," ++
  lit "LGES_sealhash,LGES_compname,LGES_compcode," ++ [TAB] ++
  lit "LGES_signdate,LGES_dochashsign,LGES_keysn,LGES_keytype,LGES_certsn,LGES_certhash,LGES_doctype," ++
  lit "LGES_docversion,LGES_clientversion,LGES_ip," ++ [TAB] ++
  lit "LGES_mac,LGES_info,LGES_clientos,LGES_DOCPAGES,LGES_signpage,LGES_signx,LGES_signy," ++
  lit "LGES_RETURNCODE,LGES_AREACODE," ++ [TAB] ++ lit "LGES_AREANAME,LGES_LOGDATE) " ++ [TAB] ++ lit "VALUES".
Definition LOG_ESIGN_FORMAT : list char :=
  lit "('%s','%s','%s','%s','%s','%s','%s','%s','%s','%s'," ++ [TAB] ++
  lit "'%s','%s','%s','%s','%s','%s','%s','%s','%s','%s'," ++ [TAB] ++
  lit "'%s','%s','%s','%s','%s','%s','%s','SRC000','%s'," ++ [TAB] ++ lit "NULL,NOW())".
Definition INSERT_LOG_SIGNREVOKE : list char :=
  lit "INSERT INTO log_signrevoke " ++ [TAB] ++
  lit "(lgsr_uid,lgsr_SIGNSN,lgsr_DOCHASH,lgsr_DOCID,lgsr_docname,lgsr_sealcode,lgsr_sealname," ++
  lit "LGSR_SEALHASH,lgsr_compname,lgsr_compcode," ++ [TAB] ++
  lit "lgsr_areaname,lgsr_areacode,lgsr_keysn,lgsr_keytype,LGSR_SIGNHASH,lgsr_signdate," ++
  lit "lgsr_clientversion," ++ [TAB] ++
  lit "lgsr_ip,lgsr_mac,lgsr_info,lgsr_clientos,LGSR_RETURNCODE,LGSR_REVOKEDATE) " ++ [TAB] ++ lit "VALUES".
Definition LOG_SIGNREVOKE_FORMAT : list char :=
  lit "('%s','%s','%s','%s','%s','%s','%s','%s','%s','%s'," ++ [TAB] ++ lit "NULL," ++ [TAB] ++
  lit "'%s','%s','%s','%s','%s','%s','%s','%s','%s','%s','SRC000',NOW())".
Definition INSERT_LOG_SIGNVERIFY : list char :=
  lit "INSERT INTO log_signverify " ++ [TAB] ++
  lit "(lgsv_uid,lgsv_SIGNSN,lgsv_DOCHASH,LGSV_SIGNHASH,lgsv_DOCID,lgsv_docname,lgsv_sealcode," ++
  lit "lgsv_sealname,lgsv_sealhash,lgsv_compname," ++ [TAB] ++
  lit "lgsv_compcode,lgsv_signdate,lgsv_clientversion,lgsv_ip,lgsv_mac,lgsv_info,lgsv_clientos," ++
  lit "LGSV_SVDATE,LGSV_LEVEL," ++ [TAB] ++ lit "LGSV_AREACODE,LGSV_AREANAME,LGSV_RETURNCODE) " ++ [TAB] ++
  lit "VALUES".
Definition LOG_SIGNVERIFY_FORMAT : list char :=
  lit "('%s','%s','%s','%s','%s','%s','%s','%s','%s','%s'," ++ [TAB] ++
  lit "'%s','%s','%s','%s','%s','%s','%s',NOW(),0,'%s'," ++ [TAB] ++ lit "NULL,'SRC000')".
Definition INSERT_ESEAL : list char :=
  lit "INSERT INTO eseal " ++ [TAB] ++
  lit "(ESEL_sealcode,ESEL_sealname,ESEL_HASH,ESEL_compname,ESEL_compcode,ESEL_TYPE,ESEL_AREACODE," ++ [TAB] ++
  lit "ESEL_AREANAME,ESEL_APPLYDATE,ESEL_EXPIREDATE,ESEL_description,ESEL_height,ESEL_width, " ++ [TAB] ++
  lit "ESEL_size,ESEL_ext,ESEL_keysn,ESEL_keytype,ESEL_OPERATOR,ESEL_OPERATORUID,ESEL_CERTUID," ++ [TAB] ++
  lit "ESEL_CERTSN,ESEL_CERTHASH,ESEL_STATUS,ESEL_CREATEDATE,ESEL_UPDATEDATE) " ++ [TAB; TAB] ++ lit "VALUES".
Definition INSERT_ESEAL_FORMAT : list char :=
  lit "('%s','%s','%s','%s','%s','%s','%s'," ++ [TAB] ++ lit "NULL,NOW()," ++ [TAB] ++
  lit "(SELECT  (DATE_ADD(NOW(),INTERVAL 3 MONTH)))," ++ [TAB] ++
  lit "'%s','%s','%s','%s','%s','%s','%s','%s','%s','%s','%s','%s',4,NOW(),NOW())".
Definition INSERT_LOG_PRODUCEESEAL : list char :=
  lit "INSERT INTO log_produceeseal " ++ [TAB] ++
  lit "(LGPE_UID,LGPE_sealcode,LGPE_sealname,LGPE_SEALHASH,LGPE_compname,LGPE_compcode,LGPE_SEALTYPE," ++ [TAB] ++
  lit "LGPE_keysn,LGPE_keytype,LGPE_puunit,LGPE_puunitcode,LGPE_puname,LGPE_puaccount," ++ [TAB] ++
  lit "LGPE_CERTSN,LGPE_CERTHASH,LGPE_ip,LGPE_mac,LGPE_info,LGPE_clientos,LGPE_clientversion," ++ [TAB] ++
  lit "LGPE_AREACODE,LGPE_AREANAME,LGPE_LEVEL,LGPE_LOGDATE,LGPE_RETURNCODE)" ++ [TAB] ++ lit "VALUES".
Definition LOG_PRODUCEESEAL_ESEAL_FORMAT : list char :=
  lit "('%s','%s','%s','%s','%s','%s','%s','%s','%s'," ++ [TAB] ++ lit "'%s','%s','%s','%s','%s','%s','%s','%s'," ++
  [TAB] ++ lit "'%s','%s','%s','%s',NULL,0,NOW(),'%s')".
Definition UPDATE_ESEAL_FORMAT : list char :=
  lit "UPDATE eseal SET ESEL_STATUS = 4 ,ESEL_HASH = '%s',ESEL_keysn = '%s',ESEL_keytype= '%s'," ++ [TAB] ++
  lit "esel_updatedate = NOW(),ESEL_OPERATOR = '%s',ESEL_OPERATORUID='%s' " ++ [TAB] ++
  lit "WHERE ESEL_sealcode = '%s';".
Definition SELECT_ESEAL_FORMAT : list char :=
  lit "SELECT CASE WHEN NOW()>esel_expiredate THEN 9  ELSE esel_status END,IFNULL(esel_expiredate,'')," ++
  lit "IFNULL(esel_revokedate,'') FROM ESEAL WHERE esel_sealcode = '%s'".

(** * Statements *)

(** [ComProtocol] of CommStruct.h. *)
Record ComProtocol := mkProtocol {
  ilen : Z;
  strAreaCode : list char;
  strVersion : list char;
  eType : Z;
  strTime : list char;
  strLicence : list char;
  strData : list char;
  szDataParam : list (list char);
  strSealCode : list char;
  iCrc : Z
}.

(** [objRequest.szDataParam[i].c_str()]. *)
Definition c_str (s : list char) : vaarg := VPtr (s ++ [NUL]).
Definition param (r : ComProtocol) (i : nat) : outcome vaarg :=
  match szDataParam r !! i with Some s => Ok (c_str s) | None => Fault OutOfBounds end.
Fixpoint params (r : ComProtocol) (idx : list nat) : outcome (list vaarg) :=
  match idx with
  | [] => Ok []
  | i :: idx' => let! a := param r i in let! l := params r idx' in Ok (a :: l)
  end.

Definition SQL_BUFFER : list char := replicate 1024 NUL.

(** [sprintf(sqlBuf, format, ...)], and the buffer as a [std::string]. *)
Definition sql_text (format : list char) (args : list vaarg) : outcome (list char) :=
  let! text := sprintf format args in
  let! sqlBuf := mem_write SQL_BUFFER 0 (text ++ [NUL]) in
  to_string sqlBuf.

(** [Common::GetUid(uuid)] in [char uuid[64]]; [uu] is what the system makes. *)
Definition make_uuid (uu : list char) : outcome (list char) := GetUid uu (replicate 64 NUL).

Definition MakeInsertESealSql (uu : list char) (objRequest : ComProtocol) : outcome (list char) :=
  let! uuid := make_uuid uu in
  let! a := params objRequest [0; 1; 2; 3; 4; 5]%nat in
  let! b := params objRequest [6; 7; 8; 9; 10; 11; 12; 15; 16; 17; 18; 19]%nat in
  let! sqlBuf := sql_text INSERT_ESEAL_FORMAT (a ++ [c_str (strAreaCode objRequest)] ++ b) in
  Ok (INSERT_ESEAL ++ sqlBuf).

Definition MakeInsertLogProduceEsealSql (uu : list char) (objRequest : ComProtocol) : outcome (list char) :=
  let! uuid := make_uuid uu in
  let! a := params objRequest [0; 1; 2; 3; 4; 5; 11; 12; 13; 14; 15; 16; 18; 19; 20; 21; 22; 23; 24]%nat in
  let! sqlBuf := sql_text LOG_PRODUCEESEAL_ESEAL_FORMAT
                   (VPtr uuid :: a ++ [c_str (strAreaCode objRequest); c_str SRC_ESTATUS_OK]) in
  Ok (INSERT_LOG_PRODUCEESEAL ++ sqlBuf).

Definition MakeInsertLogESignSql (uu : list char) (objRequest : ComProtocol) : outcome (list char) :=
  let! uuid := make_uuid uu in
  let! a := params objRequest (seq 0 26) in
  sql_text LOG_ESIGN_FORMAT (VPtr uuid :: a ++ [c_str (strAreaCode objRequest)]).

Definition MakeInsertLogSignRevokeSql (uu : list char) (objRequest : ComProtocol) : outcome (list char) :=
  let! uuid := make_uuid uu in
  let! a := params objRequest [0; 1; 2; 3; 4; 5; 6; 7; 8]%nat in
  let! b := params objRequest [11; 12; 15; 16; 19; 20; 21; 22; 23]%nat in
  sql_text LOG_SIGNREVOKE_FORMAT (VPtr uuid :: a ++ [c_str (strAreaCode objRequest)] ++ b).

Definition MakeInsertLogSignVerifySql (uu : list char) (objRequest : ComProtocol) : outcome (list char) :=
  let! uuid := make_uuid uu in
  let! a := params objRequest (seq 0 16) in
  sql_text LOG_SIGNVERIFY_FORMAT (VPtr uuid :: a ++ [c_str (strAreaCode objRequest)]).

Definition MakeUpdateESealSql (uu : list char) (objRequest : ComProtocol) : outcome (list char) :=
  let! uuid := make_uuid uu in
  let! a := params objRequest [2; 11; 12; 15; 16; 0]%nat in
  sql_text UPDATE_ESEAL_FORMAT a.

Definition MakeSelectESealSql (key : list char) : outcome (list char) := sql_text SELECT_ESEAL_FORMAT [c_str key].
