(* ===== verification/SqlTextSpec.v ===== *)
(** The statements are their formats with the values put in place of the holes,
    as long as they fit the buffer, and overflow it otherwise; the values are not
    quoted. *)

From stdpp Require Import base tactics list numbers strings.
From S2P Require Import Prelude Printf Format Text Common RecordSetSpec SqlText.

Local Open Scope Z_scope.

(** * Formats with holes *)

(** The format with its holes [%s] filled, from left to right. *)
Fixpoint substitute (fmt : list char) (args : list (list char)) {struct fmt} : list char :=
  match fmt with
  | [] => []
  | c :: fmt' =>
      match fmt' with
      | d :: fmt2 => if (c =? 37) && (d =? 115) then default [] (head args) ++ substitute fmt2 (tail args)
                     else c :: substitute fmt' args
      | [] => [c]
      end
  end.

(** The number of holes of a format that has nothing else but text. *)
Fixpoint holes (fmt : list char) {struct fmt} : option nat :=
  match fmt with
  | [] => Some 0%nat
  | c :: fmt' =>
      if c =? 37 then match fmt' with d :: fmt2 => if d =? 115 then S <$> holes fmt2 else None | [] => None end
      else if c =? NUL then None else holes fmt'
  end.

Definition clean (s : list char) : Prop := Forall (fun c => c <> NUL) s.

Lemma cstring_stop s t : cstring (s ++ NUL :: t) = cstring s.
Proof. induction s as [|c s IH]; cbn; [done|]. destruct (c =? NUL); [done|]. by rewrite IH. Qed.
Lemma cstring_clean s : clean s -> cstring s = s.
Proof. intros Hs. induction Hs as [|c s Hc _ IH]; cbn; [done|]. apply Z.eqb_neq in Hc. by rewrite Hc, IH. Qed.

Lemma hole_spec `{FloatFmt} rest (ap : va_list) s gp : va_gp ap = VPtr s :: gp ->
  parse_spec (115 :: rest) = Some (mkSpec false false false false false 0 None LNone 115, rest) /\
  fmt_conv (mkSpec false false false false false 0 None LNone 115) ap = Ok (cstring s, mkVa gp (va_fp ap)).
Proof.
  intros E. split; [done|]. unfold fmt_conv, va_ptr. cbn [fs_conv Z.eqb Pos.eqb orb fs_prec]. rewrite E. cbn. f_equal. f_equal.
  unfold pad. cbn [fs_left fs_width]. by replace (Z.to_nat (0 - zlen (cstring s))) with 0%nat by lia.
Qed.

(** [%d] of an argument. *)
Lemma fmt_int z : fmt_signed (mkSpec false false false false false 0 None LNone 100) z = dec_signed (int z).
Proof.
  unfold fmt_signed, dec_signed. cbn [fs_len len_bits fs_plus fs_space]. fold (int z).
  unfold int_digits, fmt_number, pad. cbn [fs_prec fs_zero fs_left fs_width andb app]. rewrite replicate_neg by lia. cbn [app].
  unfold dec. destruct (Z.ltb_spec (int z) 0); cbn [app]; [by rewrite Z.abs_neq by lia|by rewrite Z.abs_eq by lia].
Qed.

Lemma dec_signed_clean z : clean (dec_signed z).
Proof.
  assert (forall n, 0 <= n -> clean (dec n)) as Hd.
  { intros n Hn. eapply Forall_impl; [by apply dec_isdigit|]. intros c Hc ->. unfold NUL in Hc. lia. }
  unfold dec_signed. destruct (Z.ltb_spec z 0); [apply Forall_cons_2; [done|]|]; apply Hd; lia.
Qed.

Lemma sprintf_substitute `{FloatFmt} fmt n (ps : list (list char)) fuel fp :
  holes fmt = Some n -> (n <= length ps)%nat -> (length fmt < fuel)%nat ->
  vsprintf_loop fuel fmt (mkVa (VPtr <$> ps) fp) = Ok (substitute fmt (cstring <$> ps)).
Proof.
  revert n fmt ps. induction fuel as [|f IH]; intros n fmt ps Hh Hn Hf; [lia|].
  destruct fmt as [|c fmt']; [done|]. cbn [vsprintf_loop]. cbn [holes] in Hh. destruct (Z.eqb_spec c 37) as [->|H37].
  - destruct fmt' as [|d fmt2]; [done|]. destruct (Z.eqb_spec d 115) as [->|]; [|done].
    destruct (holes fmt2) as [m|] eqn:Em; [|done]. injection Hh as <-. destruct ps as [|a ps]; [cbn in Hn; lia|].
    cbn [fmap list_fmap]. cbn [Z.eqb Pos.eqb].
    destruct (hole_spec fmt2 (mkVa (VPtr a :: (VPtr <$> ps)) fp) a _ eq_refl) as [-> ->].
    cbn [va_fp]. rewrite (IH m fmt2 ps) by (done || (cbn in *; lia)). done.
  - destruct (Z.eqb_spec c NUL) as [|H0]; [done|]. rewrite (IH n fmt' ps) by (done || (cbn in *; lia)).
    apply Z.eqb_neq in H37. cbn [substitute]. rewrite H37. by destruct fmt'.
Qed.

Lemma substitute_clean fmt n args : holes fmt = Some n -> Forall clean args -> clean (substitute fmt args).
Proof.
  remember (length fmt) as k eqn:Hk. assert (length fmt <= k)%nat as Hle by lia. clear Hk. revert fmt n args Hle.
  induction k as [|k IH]; intros fmt n args Hle Hh Hc; (destruct fmt as [|c fmt']; [by apply Forall_nil_2|]); [cbn in Hle; lia|].
  cbn [holes] in Hh. cbn [length] in Hle. destruct (Z.eqb_spec c 37) as [->|H37].
  - destruct fmt' as [|d fmt2]; [done|]. destruct (Z.eqb_spec d 115) as [->|]; [|done].
    destruct (holes fmt2) as [m|] eqn:Em; [|done]. cbn [substitute Z.eqb Pos.eqb andb]. apply Forall_app. split.
    + destruct Hc; [by apply Forall_nil_2|done].
    + apply (IH fmt2 m); [cbn in Hle; lia|done|]. by destruct Hc.
  - destruct (Z.eqb_spec c NUL) as [|H0]; [done|]. apply Z.eqb_neq in H37. cbn [substitute]. rewrite H37. cbn [andb].
    destruct fmt' as [|d fmt2]; [by apply Forall_singleton|]. apply Forall_cons_2; [done|]. apply (IH _ n); [lia|done|done].
Qed.

(** The buffer: the text with its terminator fits, or is written past the end. *)
Lemma sql_text_ok fmt n (ps : list (list char)) : holes fmt = Some n -> (n <= length ps)%nat ->
  sql_text fmt (VPtr <$> ps) =
    let text := substitute fmt (cstring <$> ps) in if zlen text <? 1024 then Ok text else Fault OutOfBounds.
Proof.
  intros Hh Hn. unfold sql_text, sprintf, vsprintf. rewrite (sprintf_substitute fmt n) by (done || lia). cbn [obind].
  set (text := substitute fmt _). assert (clean text) as Hc.
  { eapply substitute_clean; [done|]. apply Forall_fmap, Forall_true. intros s. apply cstring_no_nul. }
  cbv zeta. unfold mem_write. rewrite length_app. change (zlen SQL_BUFFER) with 1024. cbn [length].
  destruct (Z.ltb_spec (zlen text) 1024) as [Hlt|Hge].
  - rewrite (proj2 (Z.leb_le (0 + Z.of_nat (length text + 1)) 1024)) by lia. cbn [Z.leb Z.compare andb obind]. change (take (Z.to_nat 0) SQL_BUFFER) with (@nil char). cbn [app].
    unfold to_string. rewrite <- app_assoc. cbn [app]. rewrite strlen_app_nul by done. by rewrite cstring_stop, cstring_clean.
  - by rewrite (proj2 (Z.leb_gt (0 + Z.of_nat (length text + 1)) 1024)) by lia.
Qed.

(** ** Identifiers *)

Definition hex2 (z : Z) : list char := [digit_char true (z / 16); digit_char true (z mod 16)].
Definition uid_text (uu : list char) : list char := concat (hex2 <$> take 15 uu).

Definition X02 : fmtspec := mkSpec false true false false false 2 None LNone 88.

Lemma fmt_hex2 z : 0 <= z < 256 -> fmt_unsigned X02 16 true z = hex2 z.
Proof.
  intros Hz. assert (forallb (fun n => bool_decide (fmt_unsigned X02 16 true (Z.of_nat n) = hex2 (Z.of_nat n))) (seq 0 256) = true) as H
    by (vm_compute; reflexivity).
  rewrite forallb_forall in H. specialize (H (Z.to_nat z)). rewrite Z2Nat.id in H by lia.
  apply bool_decide_eq_true in H; [done|]. apply in_seq. lia.
Qed.

Lemma sprintf_hex n (us : list char) rest fuel fp :
  length us = n -> Forall (fun z => 0 <= z < 256) us -> (4 * n < fuel)%nat ->
  @vsprintf_loop no_float fuel (concat (replicate n (lit "%02X"))) (mkVa ((VNum <$> us) ++ rest) fp) = Ok (concat (hex2 <$> us)).
Proof.
  intros <-. revert fuel. induction us as [|u us IH]; intros fuel Hu Hf; (destruct fuel as [|f]; [cbn in Hf; lia|]); [done|].
  apply Forall_cons in Hu as [Hu1 Hu].
  change (concat (replicate (length (u :: us)) (lit "%02X"))) with (37 :: 48 :: 50 :: 88 :: concat (replicate (length us) (lit "%02X"))).
  cbn [vsprintf_loop Z.eqb Pos.eqb]. 
  assert (forall r, parse_spec (48 :: 50 :: 88 :: r) = Some (X02, r)) as -> by done.
  assert (@fmt_conv no_float X02 (mkVa ((VNum <$> u :: us) ++ rest) fp) = Ok (fmt_unsigned X02 16 true u, mkVa ((VNum <$> us) ++ rest) fp)) as -> by done.
  rewrite IH by (done || (cbn in Hf; lia)). by rewrite fmt_hex2.
Qed.

Lemma digit_char_pos (b : bool) d : 0 <= d < 16 -> digit_char b d <> NUL.
Proof. intros Hd. unfold digit_char, NUL. destruct (Z.ltb_spec d 10); destruct b; lia. Qed.

Lemma uid_clean uu : Forall (fun z => 0 <= z < 256) uu -> clean (uid_text uu).
Proof.
  intros Hu. unfold uid_text. apply Forall_concat, Forall_fmap. eapply Forall_impl; [by apply Forall_take, Hu|].
  intros z Hz. cbn in Hz. apply Forall_cons_2; [|apply Forall_singleton]; apply digit_char_pos; [|apply Z.mod_pos_bound; lia].
  split; [apply Z.div_pos; lia|apply Z.div_lt_upper_bound; lia].
Qed.

(** The identifier is made of thirty hexadecimal digits. *)
Lemma make_uuid_ok uu : length uu = 16%nat -> Forall (fun z => 0 <= z < 256) uu ->
  make_uuid uu = Ok (uid_text uu ++ replicate 34 NUL).
Proof.
  intros Hl Hu. unfold make_uuid, GetUid, sprintf, vsprintf.
  assert ((VNum <$> uu) = (VNum <$> take 15 uu) ++ (VNum <$> drop 15 uu)) as -> by (rewrite <- fmap_app; by rewrite take_drop).
  change UID_FORMAT with (concat (replicate 15 (lit "%02X"))).
  rewrite sprintf_hex; [|rewrite length_take; lia|by apply Forall_take|vm_compute; lia]. cbn [obind]. fold (uid_text uu).
  assert (length (uid_text uu) = 30%nat) as Hlen.
  { unfold uid_text. do 16 (destruct uu as [|? uu]; [done|]). done. }
  unfold mem_write. rewrite length_app, Hlen, length_replicate. cbn [Nat.add length]. cbn. f_equal. rewrite <- app_assoc. done.
Qed.

(** * The statements *)

Inductive statement := InsertESeal | InsertLogProduceEseal | InsertLogESign | InsertLogSignRevoke | InsertLogSignVerify | UpdateESeal.

Definition make_statement (k : statement) : list char -> ComProtocol -> outcome (list char) :=
  match k with
  | InsertESeal => MakeInsertESealSql
  | InsertLogProduceEseal => MakeInsertLogProduceEsealSql
  | InsertLogESign => MakeInsertLogESignSql
  | InsertLogSignRevoke => MakeInsertLogSignRevokeSql
  | InsertLogSignVerify => MakeInsertLogSignVerifySql
  | UpdateESeal => MakeUpdateESealSql
  end.

(** The text before the values, and the text around them. *)
Definition format_of (k : statement) : list char * list char :=
  match k with
  | InsertESeal => (INSERT_ESEAL, INSERT_ESEAL_FORMAT)
  | InsertLogProduceEseal => (INSERT_LOG_PRODUCEESEAL, LOG_PRODUCEESEAL_ESEAL_FORMAT)
  | InsertLogESign => ([], LOG_ESIGN_FORMAT)
  | InsertLogSignRevoke => ([], LOG_SIGNREVOKE_FORMAT)
  | InsertLogSignVerify => ([], LOG_SIGNVERIFY_FORMAT)
  | UpdateESeal => ([], UPDATE_ESEAL_FORMAT)
  end.

(** Where a value comes from. *)
Inductive source := Uid | Area | Status | Param (i : nat).

Definition sources_of (k : statement) : list source :=
  match k with
  | InsertESeal => (Param <$> seq 0 6) ++ [Area] ++ (Param <$> seq 6 7) ++ (Param <$> seq 15 5)
  | InsertLogProduceEseal =>
      [Uid] ++ (Param <$> seq 0 6) ++ (Param <$> seq 11 6) ++ (Param <$> seq 18 7) ++ [Area; Status]
  | InsertLogESign => [Uid] ++ (Param <$> seq 0 26) ++ [Area]
  | InsertLogSignRevoke => [Uid] ++ (Param <$> seq 0 9) ++ [Area] ++ (Param <$> [11; 12; 15; 16]%nat) ++ (Param <$> seq 19 5)
  | InsertLogSignVerify => [Uid] ++ (Param <$> seq 0 16) ++ [Area]
  | UpdateESeal => Param <$> [2; 11; 12; 15; 16; 0]%nat
  end.

Definition value_of (uu : list char) (r : ComProtocol) (x : source) : list char :=
  match x with
  | Uid => uid_text uu
  | Area => cstring (strAreaCode r)
  | Status => SRC_ESTATUS_OK
  | Param i => cstring (default [] (szDataParam r !! i))
  end.

(** The regions that the values are read from. *)
Definition region_of (uu : list char) (r : ComProtocol) (x : source) : list char :=
  match x with
  | Uid => uid_text uu ++ replicate 34 NUL
  | Area => strAreaCode r ++ [NUL]
  | Status => SRC_ESTATUS_OK ++ [NUL]
  | Param i => default [] (szDataParam r !! i) ++ [NUL]
  end.

Lemma region_value uu r x : Forall (fun z => 0 <= z < 256) uu -> cstring (region_of uu r x) = value_of uu r x.
Proof.
  intros Hu. destruct x; cbn [region_of value_of]; [|by rewrite cstring_stop..].
  change (replicate 34 NUL) with (NUL :: replicate 33 NUL). rewrite cstring_stop. by apply cstring_clean, uid_clean.
Qed.

Lemma params_ok r idx : length (szDataParam r) = 32%nat -> Forall (fun i => (i < 32)%nat) idx ->
  params r idx = Ok (VPtr <$> (region_of [] r <$> (Param <$> idx))).
Proof.
  intros Hl Hi. induction Hi as [|i idx Hi _ IH]; [done|]. cbn [params]. unfold param.
  destruct (lookup_lt_is_Some_2 (szDataParam r) i) as [s E]; [lia|]. rewrite E. cbn [obind]. rewrite IH. cbn. by rewrite E.
Qed.

(** C20: Every statement is its header followed by its format with the values of
    the request in the places of the holes, in their order and as they are; a
    statement of 1024 bytes or more is written past the end of the buffer. *)
Theorem sql_statements k uu r key :
  length uu = 16%nat -> Forall (fun z => 0 <= z < 256) uu -> length (szDataParam r) = 32%nat ->
  (make_statement k uu r =
     let text := substitute (format_of k).2 (value_of uu r <$> sources_of k) in
     if zlen text <? 1024 then Ok ((format_of k).1 ++ text) else Fault OutOfBounds) /\
  (MakeSelectESealSql key =
     let text := substitute SELECT_ESEAL_FORMAT [cstring key] in
     if zlen text <? 1024 then Ok text else Fault OutOfBounds).
Proof.
  intros Hl Hu Hp. split.
  2: { unfold MakeSelectESealSql. pose proof (sql_text_ok SELECT_ESEAL_FORMAT 1 [key ++ [NUL]] eq_refl (le_n _)) as E.
       cbn [fmap list_fmap] in E. by rewrite cstring_stop in E. }
  assert (forall fmt n, holes fmt = Some n -> n = length (sources_of k) ->
    sql_text fmt (VPtr <$> (region_of uu r <$> sources_of k)) =
    let text := substitute fmt (value_of uu r <$> sources_of k) in if zlen text <? 1024 then Ok text else Fault OutOfBounds) as H.
  { intros fmt n Hh Hn. rewrite (sql_text_ok fmt n) by (done || rewrite length_fmap; lia).
    rewrite <- list_fmap_compose. erewrite (list_fmap_ext (cstring ∘ region_of uu r)); [done|]. intros i x _. by apply region_value. }
  destruct k; cbn [make_statement format_of fst snd];
    unfold MakeInsertESealSql, MakeInsertLogProduceEsealSql, MakeInsertLogESignSql, MakeInsertLogSignRevokeSql,
      MakeInsertLogSignVerifySql, MakeUpdateESealSql; rewrite make_uuid_ok by done; cbn [obind];
    rewrite !params_ok by (first [done | (repeat constructor; lia)]); cbn [obind].
  all: match goal with |- context [sql_text ?f ?a] => rewrite (H f _ eq_refl eq_refl : sql_text f a = _) end.
  all: cbv zeta; match goal with |- context [substitute ?f ?a] => generalize (substitute f a); intros text end.
  all: by destruct (zlen text <? 1024).
Qed.

(** * Concrete statements *)

Definition demo_request : ComProtocol :=
  mkProtocol 0 (lit "430100") [] 0 [] [] [] ((fun i => lit "v" ++ dec (Z.of_nat i)) <$> seq 0 32) [] 0.
Definition demo_uid : list char := Z.of_nat <$> seq 10 16.

Lemma sql_statements_witness :
  MakeUpdateESealSql demo_uid demo_request =
    Ok (lit "UPDATE eseal SET ESEL_STATUS = 4 ,ESEL_HASH = 'v2',ESEL_keysn = 'v11',ESEL_keytype= 'v12'," ++ [TAB] ++
        lit "esel_updatedate = NOW(),ESEL_OPERATOR = 'v15',ESEL_OPERATORUID='v16' " ++ [TAB] ++ lit "WHERE ESEL_sealcode = 'v0';").
Proof.
  destruct (sql_statements UpdateESeal demo_uid demo_request []) as [H _]; [done| |done|].
  - vm_compute. repeat constructor; discriminate.
  - cbn [make_statement] in H. rewrite H. vm_compute. reflexivity.
Defined.

(** The columns of the headers and the values of the formats, by the commas
    between them; the expiry date of a seal has one of its own. *)
Definition commas (s : list char) : nat := length (filter (fun c => c = 44) s).
Example columns_have_values :
  commas INSERT_LOG_ESIGN = commas LOG_ESIGN_FORMAT /\ commas INSERT_LOG_SIGNREVOKE = commas LOG_SIGNREVOKE_FORMAT /\
  commas INSERT_LOG_SIGNVERIFY = commas LOG_SIGNVERIFY_FORMAT /\ S (commas INSERT_ESEAL) = commas INSERT_ESEAL_FORMAT /\
  commas INSERT_LOG_PRODUCEESEAL = commas LOG_PRODUCEESEAL_ESEAL_FORMAT.
Proof. vm_compute. done. Qed.

(** A key with a quote ends the string of the statement. *)
Example select_injection :
  MakeSelectESealSql (lit "x' OR '1'='1") =
    Ok (lit "SELECT CASE WHEN NOW()>esel_expiredate THEN 9  ELSE esel_status END,IFNULL(esel_expiredate,''),IFNULL(esel_revokedate,'') FROM ESEAL WHERE esel_sealcode = 'x' OR '1'='1'").
Proof. vm_compute. reflexivity. Qed.

(** The shortest key that does not fit. *)
Example select_overflows :
  (exists text, MakeSelectESealSql (replicate 866 65) = Ok text) /\ MakeSelectESealSql (replicate 867 65) = Fault OutOfBounds.
Proof. split; [eexists|]; vm_compute; reflexivity. Qed.
