(* ===== verification/Records.v ===== *)
(** The operation records (OptRecords/CRcdLogClient.cpp): a thread for each area
    that takes the statements which the requests left in sets of Redis and runs
    them in MySQL.

    A client [this] has a Redis client and a MySQL client of its own; its methods
    run on the machine of hiredis and on the MySQL library.  A message with a
    statement goes to the log; the messages about the start, which hold texts of
    the configuration, and the message about a slow statement are left out, and so
    is what is waited for. *)

From stdpp Require Import base tactics list numbers strings gmap.
From S2P Require Import Prelude StateMonad Machine Printf LogCall Sds Reply Reader Format Net Context Text Common Config.
From S2P Require Import RedisClient SqlClient SqlText.

Local Open Scope Z_scope.

(** * The two servers *)

Record rcdworld := mkRcd { rw_redis : world; rw_mysql : mysqlw }.
Abbreviation LM := (SM rcdworld).

Definition redis {A} (m : M A) : LM A := fun w =>
  match m (rw_redis w) with Ok (a, w') => Ok (a, mkRcd w' (rw_mysql w)) | Fault f => Fault f end.
Definition mysql {A} (m : QM A) : LM A := fun w =>
  match m (rw_mysql w) with Ok (a, w') => Ok (a, mkRcd (rw_redis w) w') | Fault f => Fault f end.

(** * The client *)

Record CRcdLogClient := mkLogClient {
  l_areaCode : list char;
  l_insert_wait : Z;
  l_insert_count : Z;
  m_pSqlClient : option CSqlClient;
  m_pRedisClient : option CRedisClient;
  m_keyList : list (list char);
  l_isStop : bool
}.

Definition set_area x t := mkLogClient x (l_insert_wait t) (l_insert_count t) (m_pSqlClient t) (m_pRedisClient t) (m_keyList t) (l_isStop t).
Definition set_pSql x t := mkLogClient (l_areaCode t) (l_insert_wait t) (l_insert_count t) x (m_pRedisClient t) (m_keyList t) (l_isStop t).
Definition set_pRedis x t := mkLogClient (l_areaCode t) (l_insert_wait t) (l_insert_count t) (m_pSqlClient t) x (m_keyList t) (l_isStop t).
Definition set_keyList x t := mkLogClient (l_areaCode t) (l_insert_wait t) (l_insert_count t) (m_pSqlClient t) (m_pRedisClient t) x (l_isStop t).
Definition set_l_stop x t := mkLogClient (l_areaCode t) (l_insert_wait t) (l_insert_count t) (m_pSqlClient t) (m_pRedisClient t) (m_keyList t) x.

Definition new_CRcdLogClient (cfg : CConfiger) : CRcdLogClient :=
  mkLogClient [] (m_insert_wait cfg) (m_insert_count cfg) None None [] false.

Section records.
Context `{Strerror} `{FloatFmt}.
(** The table of [Common::Decode]. *)
Context (m_DecodeTable : list char).

(** [delete m_pRedisClient; m_pRedisClient = NULL;] and so for the other one. *)
Definition drop_redis (this : CRcdLogClient) : LM CRcdLogClient :=
  match m_pRedisClient this with
  | Some t => do* _ := redis (delete_CRedisClient t) in sret (set_pRedis None this)
  | None => sret this
  end.
Definition drop_sql (this : CRcdLogClient) : LM CRcdLogClient :=
  match m_pSqlClient this with
  | Some t => do* _ := mysql (delete_CSqlClient t) in sret (set_pSql None this)
  | None => sret this
  end.

Definition delete_CRcdLogClient (this : CRcdLogClient) : LM unit :=
  do* this := drop_redis this in
  do* _ := drop_sql this in
  sret tt.

Definition log_MakeRedisClient (address : list char) (port : Z) : LM (option CRedisClient) :=
  do* (ok, pClient) := redis (RedisClient.OnInit address port new_CRedisClient) in
  if ok : bool then sret (Some pClient)
  else
    do* _ := redis (delete_CRedisClient pClient) in
    sret None.

Definition log_MakeSqlClient (pInfo : ConfigInfo) : LM (option CSqlClient) :=
  let flag := 0 in
  let port := atoi (st_port pInfo) mod 2 ^ 32 in
  do* (ok, pClient) := mysql (SqlClient.OnInit (st_address pInfo) port (st_username pInfo) (st_password pInfo) (st_dbname pInfo) flag new_CSqlClient) in
  if ok : bool then sret (Some pClient)
  else
    do* _ := mysql (delete_CSqlClient pClient) in
    sret None.

Definition log_OnInit (areaCode : list char) (mysqlInfo redisInfo : ConfigInfo) (this : CRcdLogClient) : LM (bool * CRcdLogClient) :=
  let this := set_area areaCode this in
  do* pSql := log_MakeSqlClient mysqlInfo in
  let this := set_pSql pSql this in
  do* pRedis := log_MakeRedisClient (st_address redisInfo) (atoi (st_port redisInfo)) in
  let this := set_pRedis pRedis this in
  match pRedis, pSql with
  | Some _, Some _ => sret (true, this)
  | _, _ =>
      do* this := drop_redis this in
      do* this := drop_sql this in
      sret (false, this)
  end.

(** ** The keys of the sets *)

Definition INSERT_LOG_ESIGN_KEY : list char := lit "_INSERT_LOG_ESIGN".
Definition INSERT_LOG_SIGNVERIFY_KEY : list char := lit "_INSERT_LOG_SIGNVERIFY".
Definition INSERT_LOG_SIGNREVOKE_KEY : list char := lit "_INSERT_LOG_SIGNREVOKE".
Definition INSERT_LOG_PRODUCEESEAL_KEY : list char := lit "_INSERT_LOG_PRODUCEESEAL".
Definition INSERT_ESEAL_KEY : list char := lit "_INSERT_ESEAL".
Definition UPDATE_ESEAL_KEY : list char := lit "_UPDATE_ESEAL".

Definition push_key (arg : list char) (this : CRcdLogClient) : outcome CRcdLogClient :=
  let! key := MakeOneKey (l_areaCode this) (arg ++ [NUL]) in
  Ok (set_keyList (m_keyList this ++ [key]) this).

Definition OnKeysInit (this : CRcdLogClient) : outcome CRcdLogClient :=
  let this := set_keyList [] this in
  let! this := push_key INSERT_LOG_ESIGN_KEY this in
  let! this := push_key INSERT_LOG_SIGNVERIFY_KEY this in
  let! this := push_key INSERT_LOG_SIGNREVOKE_KEY this in
  let! this := push_key INSERT_LOG_PRODUCEESEAL_KEY this in
  let! this := push_key INSERT_ESEAL_KEY this in
  push_key UPDATE_ESEAL_KEY this.

(** The thread that [OnStart] starts is [OnThreadWorker]. *)
Definition OnStart (this : CRcdLogClient) : outcome (bool * CRcdLogClient) :=
  let! this := OnKeysInit this in Ok (true, this).

(** [OnStop] waits for the thread, which sees the flag at its next turn. *)
Definition OnStop (this : CRcdLogClient) : CRcdLogClient := set_l_stop true this.

(** ** From Redis to MySQL *)

Definition RecordToMysql (sql : list char) (this : CRcdLogClient) : LM (Z * CRcdLogClient) :=
  match m_pSqlClient this with
  | Some t => do* (r, t) := mysql (ExecSqlCmd (cstring sql) t) in sret (r, set_pSql (Some t) this)
  | None => scrash NullDeref
  end.

(** The texts of the messages about a key and a statement. *)
Definition no_redis (method strInKey : list char) : list char :=
  lit "CRcdLogClient::" ++ method ++ lit "::failed!,strInKey = " ++ cstring strInKey ++ [LF].
Definition insert_failed (branch strInKey sql : list char) : list char :=
  lit "CRcdLogClient::ProccessTargetKey::" ++ branch ++ lit "-->RecordToMysql::failed!,strInKey = " ++ cstring strInKey ++
  lit ", sql = " ++ cstring sql ++ [LF].

Definition RecordFromRedis (strInKey value : list char) (this : CRcdLogClient) : LM (list char * CRcdLogClient) :=
  let strOnKey := lit "spop " ++ cstring strInKey in
  match m_pRedisClient this with
  | Some t =>
      do* (_, RedisReply, t) := redis (ExecCommand_string strOnKey [] t) in
      do* (value, _) := slift (Decode m_DecodeTable (RedisReply ++ [NUL]) (int (zlen RedisReply)) None) in
      sret (value, set_pRedis (Some t) this)
  | None =>
      do* _ := WLogError (no_redis (lit "RecordFromRedis") strInKey) in
      sret (value, this)
  end.

Definition GetRedisCount (strInKey : list char) (this : CRcdLogClient) : LM (Z * CRcdLogClient) :=
  let strOnKey := lit "scard " ++ cstring strInKey in
  match m_pRedisClient this with
  | Some t =>
      do* (_, reply, t) := redis (ExecCommand_int strOnKey 0 t) in
      sret (reply, set_pRedis (Some t) this)
  | None =>
      do* _ := WLogError (no_redis (lit "GetRedisCount") strInKey) in
      sret (0, this)
  end.

Definition COMMA : list char := [44].

(** [for (int i = 0; i<iMax; i++)]: [n] turns are left. *)
Fixpoint pop_loop (n : nat) (strInKey sql : list char) (redisCount : Z) (this : CRcdLogClient)
  : LM (list char * Z * CRcdLogClient) :=
  match n with
  | O => sret (sql, redisCount, this)
  | S n' =>
      do* (Temp, this) := RecordFromRedis strInKey [] this in
      if zlen Temp <? 1 then pop_loop n' strInKey sql redisCount this
      else
        let sql := if 0 <? redisCount then sql ++ COMMA else sql in
        pop_loop n' strInKey (sql ++ Temp) (redisCount + 1) this
  end.

(** [do { ... } while (!isDone)]: a turn that is not the last one has taken an
    answer of the server. *)
Fixpoint batch_loop (fuel : nat) (strInKey savesql sql : list char) (runCount iMaxFlag : Z) (this : CRcdLogClient)
  : LM (list char * CRcdLogClient) :=
  match fuel with
  | O => scrash OutOfFuel
  | S f =>
      do* (iCount, this) := GetRedisCount strInKey this in
      let isDone := negb (0 <? iCount) in
      let iMax := if 20 <? iCount then 20 else iCount in
      do* (sql, redisCount, this) := pop_loop (Z.to_nat iMax) strInKey sql 0 this in
      if 0 <? redisCount then
        do* (iret, this) := RecordToMysql sql this in
        do* _ := (if negb (iret =? 0) then WLogError (insert_failed (lit "else") strInKey sql) else sret tt) in
        if iMaxFlag <? runCount then sret (savesql, this)
        else
          do* runCount := slift (int_ok (runCount + 1)) in
          if isDone then sret (savesql, this) else batch_loop f strInKey savesql savesql runCount iMaxFlag this
      else if isDone then sret (sql, this) else batch_loop f strInKey savesql sql runCount iMaxFlag this
  end.

Definition os_fuel : LM nat := fun w => Ok (S (length (w_os (rw_redis w))), w).

(** The statement is passed by reference and returned. *)
Definition ProccessTargetKey (sql strInKey : list char) (this : CRcdLogClient) : LM (list char * CRcdLogClient) :=
  let savesql := sql in
  if bool_decide (strInKey = []) then sret (sql, this)
  else if bool_decide (sql = []) then
    do* (Temp, this) := RecordFromRedis strInKey [] this in
    if bool_decide (Temp = []) then sret (sql, this)
    else
      do* (iret, this) := RecordToMysql Temp this in
      do* _ := (if negb (iret =? 0) then WLogError (insert_failed (lit "if") strInKey sql) else sret tt) in
      sret (sql, this)
  else
    let iMaxFlag := Z.quot (l_insert_count this) 20 in
    do* fuel := os_fuel in
    batch_loop fuel strInKey savesql sql 0 iMaxFlag this.

(** ** The thread *)

Definition GetSqlHeader (index : nat) (header : list char) : bool * list char :=
  match index with
  | 0%nat => (true, INSERT_LOG_ESIGN)
  | 1%nat => (true, INSERT_LOG_SIGNVERIFY)
  | 2%nat => (true, INSERT_LOG_SIGNREVOKE)
  | 3%nat => (true, INSERT_LOG_PRODUCEESEAL)
  | 4%nat => (true, INSERT_ESEAL)
  | 5%nat => (true, header)
  | _ => (false, header)
  end.

(** The loop over the keys, of which those from [i] on are left. *)
Fixpoint keys_loop (i : nat) (keys : list (list char)) (sqlStr : list char) (this : CRcdLogClient)
  : LM (list char * CRcdLogClient) :=
  match keys with
  | [] => sret (sqlStr, this)
  | key :: keys' =>
      do* (iCount, this) := GetRedisCount key this in
      do* (sqlStr, this) :=
        (if 0 <? iCount then
           let '(ok, sqlStr) := GetSqlHeader i sqlStr in
           if ok : bool then ProccessTargetKey sqlStr key this else sret (sqlStr, this)
         else sret (sqlStr, this)) in
      keys_loop (S i) keys' sqlStr this
  end.

(** [turns] bounds the number of turns that are looked at. *)
Fixpoint OnThreadWorker (turns : nat) (this : CRcdLogClient) : LM CRcdLogClient :=
  match turns with
  | O => sret this
  | S n =>
      if l_isStop this then sret this
      else
        do* (_, this) := keys_loop 0 (m_keyList this) [] this in
        OnThreadWorker n this
  end.

Definition OnTestOnline (this : CRcdLogClient) : LM (bool * CRcdLogClient) :=
  match m_pRedisClient this, m_pSqlClient this with
  | Some r, Some q =>
      do* (ok, r) := redis (RedisClient.TestOnline r) in
      let this := set_pRedis (Some r) this in
      if ok : bool then
        do* (ok, q) := mysql (SqlClient.TestOnline q) in
        sret (ok, set_pSql (Some q) this)
      else sret (false, this)
  | _, _ => sret (false, this)
  end.
End records.
