(* ===== verification/RecordsSpec.v ===== *)
(** Operation records: the statements that wait in a set of Redis are inserted in
    batches, each one once and in the order in which the server hands them out,
    whether MySQL takes them or not, as long as the log can take the batches that
    MySQL refuses. *)

From stdpp Require Import base tactics list numbers strings gmap.
From S2P Require Import Prelude StateMonad Machine Printf LogCall Sds Reply Reader ReaderSpec ReaderStream ReplyTree.
From S2P Require Import Format Net Context Session Text Common Base64 Config RedisClient RedisClientSpec.
From S2P Require Import RecordSetSpec SqlClient SqlClientSpec SqlText Records.

Local Open Scope Z_scope.

Lemma cstring_idem s : cstring (cstring s) = cstring s.
Proof. induction s as [|c s IH]; [done|]. cbn. destruct (c =? NUL) eqn:E; [done|]. cbn. by rewrite E, IH. Qed.

(** * A conversation with Redis *)

(** The kernel and the server answer the commands in turn, and the answers [os]
    are left. *)
Inductive talks : list (list char * value) -> list sysret -> list sysret -> Prop :=
| talks_nil os : talks [] os os
| talks_cons cmd v es os0 os1 os :
    answered_by cmd v (set_os os0 world0) os1 -> talks es os1 os -> talks ((cmd, v) :: es) os0 os.

Lemma answered_by_os cmd v w w' os : w_os w = w_os w' -> answered_by cmd v w os -> answered_by cmd v w' os.
Proof. intros E []. split; try done. by rewrite <- E. Qed.

Lemma encode_nonempty v : encode v <> [].
Proof. by destruct v. Qed.

Lemma answered_by_takes cmd v w os : answered_by cmd v w os -> (length os < length (w_os w))%nat.
Proof.
  intros [_ _ _ _ (writes & xs & answers & Hcat & _ & Hd & ->)]. rewrite !length_app.
  assert (length answers <> 0%nat); [|lia]. intros Hl. apply nil_length_inv in Hl as ->. inversion Hd. subst xs.
  cbn in Hcat. by destruct (encode_nonempty v).
Qed.

Lemma talks_length es os0 os : talks es os0 os -> (length es <= length os0)%nat.
Proof.
  induction 1 as [|cmd v es os0 os1 os Ha _ IH]; cbn; [lia|]. apply answered_by_takes in Ha. cbn in Ha. lia.
Qed.

Lemma talks_app es1 es2 os0 os : talks (es1 ++ es2) os0 os <-> exists os1, talks es1 os0 os1 /\ talks es2 os1 os.
Proof.
  revert os0. induction es1 as [|[cmd v] es IH]; intros os0; cbn [app].
  - split; [intros; exists os0; split; [constructor|done]|]. intros (os1 & H & ?). by inversion H; subst.
  - split.
    + inversion 1 as [|? ? ? ? osx ? Ha Ht]; subst. apply IH in Ht as (osy & ? & ?). exists osy. split; [by econstructor|done].
    + intros (osy & H & ?). inversion H as [|? ? ? ? osx ? Ha Ht]; subst. econstructor; [done|]. apply IH. eauto.
Qed.

(** * The Redis side of a client *)

Section records.
Context `{Strerror} `{FloatFmt}.

(** The client can talk to Redis, which will answer [es] and leaves [os]. *)
Record converses (es : list (list char * value)) (os : list sysret) (this : CRcdLogClient) (w : rcdworld) : Prop := {
  cv_client : exists t c, m_pRedisClient this = Some t /\ serves t c;
  cv_memory : no_oom (rw_redis w) /\ fresh_above (rw_redis w);
  cv_talks : talks es (w_os (rw_redis w)) os
}.

(** What a conversation with Redis leaves alone. *)
Definition kept (this this' : CRcdLogClient) : Prop := set_pRedis (m_pRedisClient this') this = this'.

Lemma kept_refl this : kept this this.
Proof. by destruct this. Qed.
Lemma kept_trans t1 t2 t3 : kept t1 t2 -> kept t2 t3 -> kept t1 t3.
Proof. unfold kept. intros <- <-. by destruct t1. Qed.
Lemma kept_sql t t' : kept t t' -> m_pSqlClient t' = m_pSqlClient t /\ l_insert_count t' = l_insert_count t.
Proof. unfold kept. intros <-. by destruct t. Qed.

(** One exchange: the client with the world that follows it. *)
Lemma exchange cmd v es os this w : converses ((cmd, v) :: es) os this w ->
  exists t this' w', m_pRedisClient this = Some t /\ kept this this' /\ converses es os this' w' /\ rw_mysql w' = rw_mysql w /\
    (forall result, (do* x := redis (ExecCommand_string cmd result t) in sret (x.1, set_pRedis (Some x.2) this)) w = Ok (string_answer v result, this', w')) /\
    (forall result, (do* x := redis (ExecCommand_int cmd result t) in sret (x.1, set_pRedis (Some x.2) this)) w = Ok (int_answer v result, this', w')).
Proof.
  intros [(t & c & Ht & Hs) [Hw Hf] Htalk]. inversion Htalk as [|? ? ? ? os1 ? Ha Hrest]; subst.
  apply (answered_by_os _ _ _ (rw_redis w)) in Ha; [|done].
  destruct (query_ok t c cmd v (rw_redis w) os1 Hs Ha Hw Hf) as (c' & tr & _ & Hs' & _ & Hf' & _ & Estr & Eint & _).
  exists t, (set_pRedis (Some (set_context (Some c') t)) this), (mkRcd (released v os1 tr (rw_redis w)) (rw_mysql w)).
  split_and!; [done|by destruct this| |done| |].
  - split; [eexists _, _; by split|by split|done].
  - intros result. unfold sbind, redis. rewrite Estr. by destruct (string_answer v result).
  - intros result. unfold sbind, redis. rewrite Eint. by destruct (int_answer v result).
Qed.

Definition scard (key : list char) : list char := lit "scard " ++ cstring key.
Definition spop (key : list char) : list char := lit "spop " ++ cstring key.

Lemma GetRedisCount_ok key n es os this w (Q : Z * CRcdLogClient -> rcdworld -> Prop) :
  converses ((scard key, VInteger n) :: es) os this w -> 0 <= n <= INT_MAX ->
  (forall this' w', converses es os this' w' -> kept this this' -> rw_mysql w' = rw_mysql w -> Q (n, this') w') ->
  wp (GetRedisCount key this) Q w.
Proof.
  intros Hc Hn HQ. destruct (exchange _ _ _ _ _ _ Hc) as (t & this' & w' & Ht & Hk & Hc' & Hm & _ & E).
  unfold GetRedisCount. rewrite Ht. specialize (E 0). fold (scard key). unfold wp, sbind in *.
  destruct (redis (ExecCommand_int (scard key) 0 t) w) as [[[[a b] t'] w1]|]; [|done]. cbn in E |- *.
  injection E as Ea Eb Et Ew. subst. rewrite int_id by (unfold INT_MIN, INT_MAX in *; lia). by apply HQ.
Qed.

Lemma RecordFromRedis_ok key r value es os this w (Q : list char * CRcdLogClient -> rcdworld -> Prop) :
  converses ((spop key, VBulk (base64 0 r)) :: es) os this w -> encodable r ->
  (forall this' w', converses es os this' w' -> kept this this' -> rw_mysql w' = rw_mysql w -> Q (r, this') w') ->
  wp (RecordFromRedis decode_table key value this) Q w.
Proof.
  intros Hc Hr HQ. destruct (exchange _ _ _ _ _ _ Hc) as (t & this' & w' & Ht & Hk & Hc' & Hm & E & _).
  unfold RecordFromRedis. rewrite Ht. specialize (E []). fold (spop key). unfold wp, sbind in *.
  destruct (redis (ExecCommand_string (spop key) [] t) w) as [[[[a b] t'] w1]|]; [|done]. cbn in E |- *.
  injection E as Ea Eb <- <-. pose proof (base64_no_nul r (proj1 Hr) 0) as Hn.
  assert (b = base64 0 r) as ->.
  { rewrite Eb. clear -Hn. induction Hn as [|x s Hx _ IH]; [done|]. cbn. apply Z.eqb_neq in Hx. by rewrite Hx, IH. }
  pose proof (encodable_text r Hr). rewrite int_id by (unfold INT_MIN, INT_MAX in *; lia).
  rewrite Decode_base64 by done. by apply HQ.
Qed.

(** * Batches *)

(** The statements of a record: not empty, and short enough to be encoded. *)
Definition record_ok (r : list char) : Prop := encodable r /\ r <> [].

(** At most [b] batches of at most twenty records. *)
Fixpoint batches (b : nat) (rs : list (list char)) : list (list (list char)) :=
  match b, rs with
  | S b', _ :: _ => take 20 rs :: batches b' (drop 20 rs)
  | _, _ => []
  end.

(** What the client asks Redis for them: the size of the set before every batch,
    and once more when it is empty before [b] batches have been made. *)
Fixpoint exchanges (b : nat) (key : list char) (rs : list (list char)) : list (list char * value) :=
  match b with
  | O => []
  | S b' =>
      (scard key, VInteger (zlen rs)) :: ((fun r => (spop key, VBulk (base64 0 r))) <$> take 20 rs) ++
      match rs with [] => [] | _ => exchanges b' key (drop 20 rs) end
  end.

Lemma batches_spec b rs : concat (batches b rs) = take (20 * b) rs /\ Forall (fun l => l <> [] /\ (length l <= 20)%nat) (batches b rs).
Proof.
  revert rs. induction b as [|b IH]; intros rs; [split; [done|apply Forall_nil_2]|]. cbn [batches].
  destruct rs as [|r rs]; [by rewrite take_nil; split; [|apply Forall_nil_2]|].
  destruct (IH (drop 20 (r :: rs))) as [E F]. split.
  - cbn [concat]. rewrite E. replace (20 * S b)%nat with (20 + 20 * b)%nat by lia. by rewrite take_take_drop.
  - constructor; [|done]. split; [done|]. rewrite length_take. lia.
Qed.

Lemma join_flat r rs : join 44 (r :: rs) = r ++ concat ((fun r => 44 :: r) <$> rs).
Proof. revert r. induction rs as [|r' rs IH]; intros r; [cbn; by rewrite app_nil_r|]. change (join 44 (r :: r' :: rs)) with (r ++ 44 :: join 44 (r' :: rs)). by rewrite IH. Qed.

Lemma pop_loop_ok key rs sql k es os this w (Q : list char * Z * CRcdLogClient -> rcdworld -> Prop) :
  converses (((fun r => (spop key, VBulk (base64 0 r))) <$> rs) ++ es) os this w -> Forall record_ok rs -> 0 <= k ->
  (forall this' w', converses es os this' w' -> kept this this' -> rw_mysql w' = rw_mysql w ->
     Q (sql ++ (if 0 <? k then concat ((fun r => 44 :: r) <$> rs) else join 44 rs), k + zlen rs, this') w') ->
  wp (pop_loop decode_table (length rs) key sql k this) Q w.
Proof.
  intros Hc Hr. revert sql k this w Hc. induction Hr as [|r rs [Henc Hne] _ IH]; intros sql k this w Hc Hk HQ; cbn [length pop_loop].
  { apply wp_ret. replace (if 0 <? k then _ else _) with (@nil char) in HQ by (by destruct (0 <? k)).
    rewrite app_nil_r in HQ. change (zlen (@nil (list char))) with 0 in HQ. rewrite Z.add_0_r in HQ. apply HQ; [done|apply kept_refl|done]. }
  apply wp_bind. eapply RecordFromRedis_ok; [exact Hc|done|]. intros t1 w1 Hc1 Hk1 Hm1.
  assert (zlen r <? 1 = false) as -> by (apply Z.ltb_ge; destruct r; [done|cbn; lia]).
  apply IH; [done|lia|]. intros t2 w2 Hc2 Hk2 Hm2.
  assert (0 <? k + 1 = true) as E1 by (apply Z.ltb_lt; lia). rewrite E1.
  replace (k + 1 + zlen rs) with (k + zlen (r :: rs)) by (cbn [length]; lia).
  replace (_ ++ concat _) with (sql ++ (if 0 <? k then concat ((fun r0 => 44 :: r0) <$> r :: rs) else join 44 (r :: rs))).
  - apply HQ; [done|by eapply kept_trans|congruence].
  - destruct (0 <? k); [cbn; by rewrite <- !app_assoc|]. by rewrite join_flat, app_assoc.
Qed.

(** ** The MySQL side *)

(** The client has the handle [h]; the library will answer [l]. *)
Record connected (h : Z) (l : list myret) (this : CRcdLogClient) (w : rcdworld) : Prop := {
  cn_client : exists q, m_pSqlClient this = Some q /\ SqlClient.m_locker q = false /\ m_SqlHandle q = Some h;
  cn_open : h ∈ q_open (rw_mysql w);
  cn_answers : q_answers (rw_mysql w) = l
}.

Lemma connected_kept h l this this' w w' : kept this this' -> rw_mysql w' = rw_mysql w ->
  connected h l this w -> connected h l this' w'.
Proof. intros [E _]%kept_sql Ew []. split; rewrite ?E, ?Ew; done. Qed.

Definition queried (h : Z) (sqls : list (list char)) (w : mysqlw) : list mycall := q_trace w ++ ((fun s => MyQuery h (cstring s)) <$> sqls).

Lemma RecordToMysql_ok h a l sql es os this w (Q : Z * CRcdLogClient -> rcdworld -> Prop) :
  connected h (a :: l) this w -> converses es os this w ->
  (forall this' w', connected h l this' w' -> converses es os this' w' -> l_insert_count this' = l_insert_count this ->
     q_trace (rw_mysql w') = queried h [sql] (rw_mysql w) -> Q (if mr_int a =? 0 then 0 else -1, this') w') ->
  wp (RecordToMysql sql this) Q w.
Proof.
  intros [(q & Hq & Hl & Hh) Ho Ha] [Hcl Hmem Ht] HQ. unfold RecordToMysql. rewrite Hq.
  assert (ExecSqlCmd (cstring sql) q (rw_mysql w) =
    Ok (if mr_int a =? 0 then 0 else -1, q, answered l [MyQuery h (cstring (cstring sql))] (rw_mysql w))) as E.
  { unfold ExecSqlCmd, sql_guarded. rewrite Hl. cbn [m_SqlHandle set_sql_locker]. rewrite Hh. rewrite sbind_assoc.
    run (ask_takes h (fun h => MyQuery h (cstring (cstring sql))) (rw_mysql w) a l Ho Ha).
    unfold sret, sbind. cbn. do 3 f_equal. destruct q. cbn in *. by subst. }
  apply wp_bind. unfold wp at 1, mysql. rewrite E. apply wp_ret, HQ.
  - by split; [eauto|..].
  - by split.
  - done.
  - cbn. unfold queried. cbn. do 3 f_equal. apply cstring_idem.
Qed.

Lemma queried_app h s1 s2 w w' : q_trace w' = queried h s1 w -> queried h s2 w' = queried h (s1 ++ s2) w.
Proof. intros E. unfold queried in *. by rewrite E, fmap_app, app_assoc. Qed.

(** The statements for the batches, and what the log does for those that MySQL
    refuses with its answers [l]. *)
Definition inserts (header : list char) (bs : list (list (list char))) : list (list char) := (fun rs => header ++ join 44 rs) <$> bs.
Fixpoint refusals_logged (key : list char) (sqls : list (list char)) (l : list myret) : outcome unit :=
  match sqls, l with
  | sql :: sqls', a :: l' =>
      if mr_int a =? 0 then refusals_logged key sqls' l'
      else let! _ := log_call (insert_failed (lit "else") key sql) in refusals_logged key sqls' l'
  | _, _ => Ok tt
  end.

(** The message for one of them. *)
Lemma refusal_turn (a : myret) key sql sqls l (E : fault -> Prop) (Q : unit -> rcdworld -> Prop) w :
  (forall f, refusals_logged key (sql :: sqls) (a :: l) = Fault f -> E f) ->
  (refusals_logged key (sql :: sqls) (a :: l) = refusals_logged key sqls l -> Q tt w) ->
  wpf E (if negb ((if mr_int a =? 0 then 0 else -1) =? 0) then WLogError (insert_failed (lit "else") key sql) else sret tt) Q w.
Proof.
  intros HE HQ. cbn [refusals_logged] in *. destruct (mr_int a =? 0); cbn; [by apply HQ|]. apply wpf_lift.
  destruct (log_call _) as [[]|f]; [by apply HQ|by apply HE].
Qed.

Lemma batch_loop_ok h header key flag rest os (E : fault -> Prop) b rs l fuel run this w (Q : list char * CRcdLogClient -> rcdworld -> Prop) :
  0 <= run -> flag < INT_MAX - 1 -> run = flag + 2 - Z.of_nat (S b) -> Forall record_ok rs -> zlen rs <= INT_MAX ->
  converses (exchanges (S b) key rs) os this w -> length l = length (batches (S b) rs) -> connected h (l ++ rest) this w ->
  (length (exchanges (S b) key rs) <= fuel)%nat ->
  (forall f, refusals_logged key (inserts header (batches (S b) rs)) l = Fault f -> E f) ->
  (forall this' w', refusals_logged key (inserts header (batches (S b) rs)) l = Ok tt -> converses [] os this' w' -> connected h rest this' w' ->
     q_trace (rw_mysql w') = queried h (inserts header (batches (S b) rs)) (rw_mysql w) -> Q (header, this') w') ->
  wpf E (batch_loop decode_table fuel key header header run flag this) Q w.
Proof.
  revert rs l fuel run this w. induction b as [|b IH]; intros rs l fuel run this w Hrun Hflag Erun Hrs Hlen Hc Hl Hm Hf HE HQ;
    (destruct fuel as [|f]; [cbn in Hf; lia|]); cbn [batch_loop].
  all: apply wpf_bind, wpf_wp; eapply GetRedisCount_ok; [exact Hc|lia|]; intros t1 w1 Hc1 Hk1 Hm1.
  all: apply (connected_kept _ _ this t1 w w1 Hk1 Hm1) in Hm.
  all: destruct rs as [|r0 rs0]; [destruct l; [|done]; cbn; apply HQ; [done|exact Hc1|exact Hm|unfold queried; by rewrite Hm1, app_nil_r]|].
  all: remember (r0 :: rs0) as rs eqn:Ers; assert (0 <? zlen rs = true) as E0 by (subst rs; apply Z.ltb_lt; cbn; lia).
  all: assert (Z.to_nat (if 20 <? zlen rs then 20 else zlen rs) = length (take 20 rs)) as E20 by
    (rewrite length_take; destruct (Z.ltb_spec 20 (zlen rs)); lia).
  all: rewrite E20; apply wpf_bind, wpf_wp; eapply pop_loop_ok; [exact Hc1|by apply Forall_take|done|]; intros t2 w2 Hc2 Hk2 Hm2.
  all: assert (0 <? 0 + zlen (take 20 rs) = true) as Epos by (apply Z.ltb_lt; rewrite length_take; subst rs; cbn; lia).
  all: rewrite Epos, E0; cbn [Z.ltb Z.compare negb].
  all: apply (connected_kept _ _ t1 t2 w1 w2 Hk2 Hm2) in Hm; subst rs; cbn [batches length] in Hl; destruct l as [|a l]; [done|]; injection Hl as Hl.
  all: apply wpf_bind, wpf_wp; eapply RecordToMysql_ok; [exact Hm|exact Hc2|]; intros t3 w3 Hm3 Hc3 _ Hq3.
  all: apply wpf_bind; eapply refusal_turn; [exact HE|]; intros Hlog.
  all: cbn [batches inserts fmap list_fmap] in HE, HQ; fold (inserts header) in HE, HQ.
  all: rewrite Hm2, Hm1 in Hq3.
  - rewrite (proj2 (Z.ltb_lt flag run)) by lia. destruct l; [|done]. by apply wpf_ret, HQ.
  - rewrite (proj2 (Z.ltb_ge flag run)) by lia. apply wpf_bind, wpf_wp, (wp_lift _ (run + 1)).
    { unfold int_ok. rewrite (proj2 (Z.leb_le INT_MIN (run + 1))), (proj2 (Z.leb_le (run + 1) INT_MAX)) by (unfold INT_MIN, INT_MAX in *; lia). done. }
    apply (IH (drop 20 (r0 :: rs0)) l); [lia|done|lia|by apply Forall_drop| |exact Hc3|exact Hl|exact Hm3| | |].
    + rewrite length_drop. lia.
    + cbn [exchanges length] in Hf |- *. rewrite length_app in Hf. cbn [length] in Hf. lia.
    + intros e Hlf. apply HE. etransitivity; [exact Hlog|exact Hlf].
    + intros t4 w4 Hlf Hc4 Hm4 Hq4. apply HQ; [etransitivity; [exact Hlog|exact Hlf]|done|done|]. rewrite Hq4. by rewrite (queried_app _ _ _ _ _ Hq3).
Qed.

End records.

(** * Concrete records *)

(** A server that takes every command at once and answers in one piece. *)
Definition script (es : list (list char * value)) : list sysret :=
  concat ((fun e : list char * value => [Net.answer 1000; data (encode e.2)]) <$> es).

Definition scripted (e : list char * value) : Prop :=
  plain e.1 /\ fits e.1 /\ value_ok 2 e.2 /\ 0 < zlen (command (words e.1)) <= 1000 /\ zlen (encode e.2) <= READ_SIZE.

Lemma script_talks es : Forall scripted es -> talks es (script es) [].
Proof.
  induction 1 as [|[cmd v] es (Hp & Hf & Hv & Hc & Hl) _ IH]; [constructor|]. econstructor; [|exact IH]. cbn [fst snd] in *.
  split; [done..| |]; [unfold CONSUMED, READ_SIZE, INT_MAX in *; lia|].
  exists [Net.answer 1000], [encode v], [data (encode v)]. split_and!; [cbn; by rewrite app_nil_r| | |done].
  - split_and!; [lia|done|]. cbn [flushes sr_val Net.answer]. lia.
  - constructor; [|constructor]. apply delivers_data; [apply encode_nonempty|done].
Qed.

Definition two_records : list (list char) := [lit "('a')"; lit "('b','c')"].
Definition seal_key : list char := lit "4301_INSERT_ESEAL".

Definition log_client : CRcdLogClient :=
  mkLogClient (lit "430100") 0 19 (Some demo_sql) (Some demo_client)
    [lit "4301_INSERT_LOG_ESIGN"; lit "4301_INSERT_LOG_SIGNVERIFY"; lit "4301_INSERT_LOG_SIGNREVOKE";
     lit "4301_INSERT_LOG_PRODUCEESEAL"; seal_key; lit "4301_UPDATE_ESEAL"] false.

Definition log_world (es : list (list char * value)) (l : list myret) : rcdworld :=
  mkRcd (set_os (script es) world0) (demo_mysql l).


(** The log takes the message about the short batch.  Twenty records of two
    hundred characters are more than its buffer holds, and a percent sign in a
    record makes [printf] read an argument that is not there. *)
Example short_refusal : refusals_logged seal_key [lit "INSERT t VALUES('a'),('b','c')"] (answers [1]) = Ok tt.
Proof. vm_compute. reflexivity. Qed.
Example long_refusal :
  refusals_logged seal_key (inserts (lit "INSERT t VALUES") [replicate 20 (lit "('" ++ replicate 200 97 ++ lit "')")]) (answers [1]) = Fault OutOfBounds.
Proof. vm_compute. reflexivity. Qed.
Example percent_refusal : refusals_logged seal_key [lit "INSERT t VALUES('100%s')"] (answers [1]) = Fault BadVararg.
Proof. vm_compute. reflexivity. Qed.

(** The statements of one turn of the thread. *)
Definition turn_queries (es : list (list char * value)) (l : list myret) : option (list mycall) :=
  match @OnThreadWorker no_strerror no_float decode_table 1 log_client (log_world es l) with
  | Ok (_, w) => Some (q_trace (rw_mysql w))
  | Fault _ => None
  end.

Definition empty_keys : list (list char * value) := (fun k => (scard k, VInteger 0)) <$> take 4 (m_keyList log_client).
Definition update_key : list char := lit "4301_UPDATE_ESEAL".
Definition update_text : list char := lit "UPDATE eseal SET x;".

(** Alone, an update is run as it is. *)
Example update_alone :
  turn_queries (empty_keys ++ [(scard seal_key, VInteger 0); (scard update_key, VInteger 1); (spop update_key, VBulk (base64 0 update_text))])
    (answers [0]) = Some [MyQuery 1 update_text].
Proof. vm_compute. reflexivity. Qed.

(** After an insert of the same turn the header of the insert is still there: the
    update is appended to it, and taken out of Redis. *)
Example update_after_insert :
  turn_queries (empty_keys ++ [(scard seal_key, VInteger 1)] ++ exchanges 2 seal_key [lit "('a')"] ++
      [(scard update_key, VInteger 1)] ++ exchanges 2 update_key [update_text]) (answers [0; 1064]) =
    Some [MyQuery 1 (INSERT_ESEAL ++ lit "('a')"); MyQuery 1 (INSERT_ESEAL ++ update_text)].
Proof. vm_compute. reflexivity. Qed.
