(* ===== verification/RecordService.v ===== *)
(** The service of the operation records (OptRecords/CRcdServiceMgr.cpp): a
    client for every area that has both a MySQL and a Redis server, and a thread
    that takes out the clients whose servers are gone.

    The map is the only place that has the clients, so it holds them themselves.
    The members that the constructor does not set are [None] until they are set;
    [Some None] is a null pointer.  Threads are not interleaved here. *)

From stdpp Require Import base tactics list numbers strings gmap.
From S2P Require Import Prelude StateMonad Machine Printf Sds Reply Reader Format Net Context Text Common Config.
From S2P Require Import RedisClient SqlClient Records.

Local Open Scope Z_scope.

Record CRcdServiceMgr := mkRcdMgr {
  m_rcdLogClientMap : gmap Z CRcdLogClient;
  m_RedisConfigs : gmap Z ConfigInfo;
  m_MysqlConfigs : gmap Z ConfigInfo;
  rm_condition : option (option unit);
  rm_isStop : option bool
}.

Definition set_rcd_map x m := mkRcdMgr x (m_RedisConfigs m) (m_MysqlConfigs m) (rm_condition m) (rm_isStop m).
Definition set_rcd_configs r q m := mkRcdMgr (m_rcdLogClientMap m) r q (rm_condition m) (rm_isStop m).
Definition set_rcd_condition x m := mkRcdMgr (m_rcdLogClientMap m) (m_RedisConfigs m) (m_MysqlConfigs m) x (rm_isStop m).
Definition set_rcd_stop x m := mkRcdMgr (m_rcdLogClientMap m) (m_RedisConfigs m) (m_MysqlConfigs m) (rm_condition m) (Some x).

(** The constructor does nothing. *)
Definition new_CRcdServiceMgr : CRcdServiceMgr := mkRcdMgr ∅ ∅ ∅ None None.

Section service.
Context `{Strerror} `{FloatFmt}.
Context (m_DecodeTable : list char).

(** [sprintf(buf, "%d", iareaCode)] in [char buf[32]]. *)
Definition area_text (iareaCode : Z) : outcome (list char) :=
  let! text := sprintf (lit "%d") [VNum iareaCode] in
  let! buf := mem_write (replicate 32 NUL) 0 (text ++ [NUL]) in
  to_string buf.

Definition MakeRcdLogClient (cfg : CConfiger) (iareaCode : Z) (mysqlInfo redisInfo : ConfigInfo) : LM (option CRcdLogClient) :=
  let pClient := new_CRcdLogClient cfg in
  do* code := slift (area_text iareaCode) in
  do* (ok, pClient) := log_OnInit code mysqlInfo redisInfo pClient in
  if ok : bool then sret (Some pClient)
  else
    do* _ := delete_CRcdLogClient pClient in
    sret None.

(** The loop over both configurations at once, while neither is at its end. *)
Fixpoint rcd_init_loop (cfg : CConfiger) (mysqls rediss : list (Z * ConfigInfo)) (this : CRcdServiceMgr) : LM (bool * CRcdServiceMgr) :=
  match mysqls, rediss with
  | (z, q) :: mysqls', (z', r) :: rediss' =>
      if negb (z =? z') then sret (false, this)
      else
        do* pClient := MakeRcdLogClient cfg z q r in
        do* this :=
          (match pClient with
           | Some c =>
               do* (_, c) := slift (OnStart c) in
               sret (set_rcd_map (match m_rcdLogClientMap this !! z with
                                  | Some _ => m_rcdLogClientMap this
                                  | None => <[z := c]> (m_rcdLogClientMap this)
                                  end) this)
           | None => sret this
           end) in
        rcd_init_loop cfg mysqls' rediss' this
  | _, _ => sret (true, this)
  end.

(** The entries of a [std::map], in its order. *)
Definition entries_of (m : gmap Z ConfigInfo) : list (Z * ConfigInfo) := omap (fun z => (fun x => (z, x)) <$> m !! z) (keys_of m).

(** The default of the second argument of [GetConfigInfos] is [false]. *)
Definition rcd_OnInit (cfg : CConfiger) (this : CRcdServiceMgr) : LM (bool * CRcdServiceMgr) :=
  let this := set_rcd_configs (GetConfigInfos cfg true) (GetConfigInfos cfg false) this in
  if negb (Nat.eqb (size (m_RedisConfigs this)) (size (m_MysqlConfigs this))) then sret (false, this)
  else rcd_init_loop cfg (entries_of (m_MysqlConfigs this)) (entries_of (m_RedisConfigs this)) this.

(** The thread that it starts is [rcd_OnThreadWorker]. *)
Definition rcd_OnStart (cfg : CConfiger) (this : CRcdServiceMgr) : LM (bool * CRcdServiceMgr) :=
  do* (isSuccess, this) := rcd_OnInit cfg this in
  let this := set_rcd_condition (Some (Some tt)) this in
  sret (isSuccess, set_rcd_stop false this).

(** A client is stopped, deleted and erased. *)
Definition remove_client (z : Z) (c : CRcdLogClient) (this : CRcdServiceMgr) : LM CRcdServiceMgr :=
  do* _ := delete_CRcdLogClient (OnStop c) in
  sret (set_rcd_map (delete z (m_rcdLogClientMap this)) this).

Fixpoint rcd_stop_loop (zones : list Z) (this : CRcdServiceMgr) : LM CRcdServiceMgr :=
  match zones with
  | [] => sret this
  | z :: zones' =>
      do* this := (match m_rcdLogClientMap this !! z with Some c => remove_client z c this | None => sret this end) in
      rcd_stop_loop zones' this
  end.

(** [OnStop] waits for the thread before it goes over the clients. *)
Definition rcd_OnStop (this : CRcdServiceMgr) : LM CRcdServiceMgr :=
  let this := set_rcd_stop true this in
  do* this := (match rm_condition this with
               | None => scrash Uninitialised
               | Some (Some _) => sret (set_rcd_condition (Some None) this)
               | Some None => sret this
               end) in
  do* this := rcd_stop_loop (keys_of (m_rcdLogClientMap this)) this in
  sret (set_rcd_map ∅ this).

(** The destructor. *)
Definition delete_CRcdServiceMgr (this : CRcdServiceMgr) : LM unit :=
  do* _ := rcd_OnStop this in sret tt.

Fixpoint rcd_online_loop (zones : list Z) (this : CRcdServiceMgr) : LM CRcdServiceMgr :=
  match zones with
  | [] => sret this
  | z :: zones' =>
      do* this :=
        (match m_rcdLogClientMap this !! z with
         | Some c =>
             do* (ok, c) := OnTestOnline c in
             if ok : bool then sret (set_rcd_map (<[z := c]> (m_rcdLogClientMap this)) this)
             else remove_client z c this
         | None => sret this
         end) in
      rcd_online_loop zones' this
  end.

(** Every turn waits five seconds first; [turns] bounds the number of turns that
    are looked at. *)
Fixpoint rcd_OnThreadWorker (turns : nat) (this : CRcdServiceMgr) : LM CRcdServiceMgr :=
  match turns with
  | O => sret this
  | S n =>
      match rm_isStop this with
      | None => scrash Uninitialised
      | Some true => sret this
      | Some false =>
          do* this := (match rm_condition this with
                       | None => scrash Uninitialised
                       | Some None => scrash NullDeref
                       | Some (Some _) => rcd_online_loop (keys_of (m_rcdLogClientMap this)) this
                       end) in
          rcd_OnThreadWorker n this
      end
  end.
End service.
