(* ===== verification/RecordServiceSpec.v ===== *)
(** The clients of the operation records hold both of their connections or none,
    and give them back; the configurations must name the same areas; and the
    service can be stopped while its thread still needs what is deleted. *)

From stdpp Require Import base tactics list numbers strings gmap.
From S2P Require Import Prelude StateMonad Machine Printf Sds Reply Reader ReaderSpec ReaderStream ReplyTree.
From S2P Require Import Format Net Context Session Text Common Config RedisClient RedisClientSpec RedisService RedisServiceSpec.
From S2P Require Import SqlClient SqlClientSpec Records RecordService.

Local Open Scope Z_scope.

Section resources.
Context `{Strerror} `{FloatFmt}.

(** What a client holds: a connection to Redis, with its four blocks, and a handle
    of MySQL, or neither of the one and of the other. *)
Record holds_both (base : gset Z) (r live : Z) (this : CRcdLogClient) (w : rcdworld) : Prop := {
  hb_redis : match m_pRedisClient this with
             | Some t => (exists c, serves t c) /\ w_live (rw_redis w) = live + 4
             | None => w_live (rw_redis w) = live
             end;
  hb_sql : match m_pSqlClient this with
           | Some q => settled q /\ holding base r (m_SqlHandle q) 0 (rw_mysql w)
           | None => holding base r None 0 (rw_mysql w)
           end
}.

Lemma wp_mysql {A} (m : QM A) (Q : A -> rcdworld -> Prop) w :
  wp m (fun a q => Q a (mkRcd (rw_redis w) q)) (rw_mysql w) -> wp (mysql m) Q w.
Proof. unfold wp, mysql. by destruct (m (rw_mysql w)) as [[a q]|]. Qed.

Lemma wp_redis {A} (m : M A) (Q : A -> rcdworld -> Prop) w a r :
  m (rw_redis w) = Ok (a, r) -> Q a (mkRcd r (rw_mysql w)) -> wp (redis m) Q w.
Proof. intros E. unfold wp, redis. by rewrite E. Qed.

Lemma drop_redis_ok base r live this w (Q : CRcdLogClient -> rcdworld -> Prop) : holds_both base r live this w ->
  (forall w', holds_both base r live (set_pRedis None this) w' -> w_live (rw_redis w') = live -> Q (set_pRedis None this) w') ->
  wp (drop_redis this) Q w.
Proof.
  intros [Hr Hq] HQ. unfold drop_redis. destruct (m_pRedisClient this) as [t|] eqn:Et.
  - destruct Hr as [[c Hs] Hl]. destruct (serving_deleted t c (rw_redis w) Hs) as (tr & E).
    apply wp_bind. eapply wp_redis; [exact E|]. apply wp_ret, HQ; [split|]; [cbn; lia|done|cbn; lia].
  - apply wp_ret. assert (set_pRedis None this = this) as Eq by (destruct this; cbn in *; by subst). rewrite Eq in HQ.
    apply HQ; [split; [by rewrite Et|done]|done].
Qed.

Lemma drop_sql_ok base r live this w (Q : CRcdLogClient -> rcdworld -> Prop) : holds_both base r live this w ->
  (forall w', holds_both base r live (set_pSql None this) w' -> rw_redis w' = rw_redis w -> Q (set_pSql None this) w') ->
  wp (drop_sql this) Q w.
Proof.
  intros [Hr Hq] HQ. unfold drop_sql. destruct (m_pSqlClient this) as [q|] eqn:Et.
  - destruct Hq as [[[Hl _ _] _ _] Hh]. apply wp_bind, wp_mysql, (delete_ok (P := enough) base r q 0 (rw_mysql w)); [done..|].
    intros w' Hw'. apply wp_ret, HQ; [|done]. by split.
  - apply wp_ret. assert (set_pSql None this = this) as Eq by (destruct this; cbn in *; by subst). rewrite Eq in HQ.
    apply HQ; [split; [done|by rewrite Et]|done].
Qed.

Lemma log_MakeSqlClient_ok base r info w (Q : option CSqlClient -> rcdworld -> Prop) : holding base r None 4 (rw_mysql w) ->
  (forall p w', rw_redis w' = rw_redis w ->
     match p with
     | Some q => settled q /\ holding base r (m_SqlHandle q) 0 (rw_mysql w')
     | None => holding base r None 0 (rw_mysql w')
     end -> Q p w') ->
  wp (log_MakeSqlClient info) Q w.
Proof.
  intros Hh HQ. unfold log_MakeSqlClient. apply wp_bind, wp_mysql. unfold SqlClient.OnInit.
  apply (sql_OnConnect_ok (P := enough) base r _ 0 (rw_mysql w)); [split; [done|by eexists..]|done|done|]. intros h w1 Hw1.
  destruct h as [h|]; [rewrite bool_decide_true by eauto|rewrite bool_decide_false by (by intros [? ?])].
  - apply wp_ret, HQ; [done|]. split; [|done]. split; [split; [done|by eexists..]|cbn; lia|done].
  - apply wp_bind, wp_mysql, (delete_ok (P := enough) base r _ 0 w1); [done..|]. intros w2 Hw2. by apply wp_ret, HQ.
Qed.

Lemma log_MakeRedisClient_ok live address port w (Q : option CRedisClient -> rcdworld -> Prop) :
  no_oom (rw_redis w) -> kernel_answers (rw_redis w) -> w_live (rw_redis w) = live ->
  (forall p w', rw_mysql w' = rw_mysql w ->
     match p with
     | Some t => (exists c, serves t c) /\ w_live (rw_redis w') = live + 4
     | None => w_live (rw_redis w') = live
     end -> Q p w') ->
  wp (log_MakeRedisClient address port) Q w.
Proof.
  intros Hw Hk Hl HQ. unfold log_MakeRedisClient, RedisClient.OnInit.
  destruct (RedisClientSpec.OnConnect_ok FIRST_TIMEOUT (set_target address port new_CRedisClient) port (rw_redis w) eq_refl Hw Hk)
    as (ok & t & w1 & tr & E & Hres). specialize (Hres []).
  apply wp_bind. eapply wp_redis; [exact E|]. destruct ok.
  - destruct Hres as (c & -> & Hq & Hp & _ & _ & Hr). apply wp_ret, HQ; [done|]. split; [exists c; by split|].
    cbn. rewrite (rn_live _ _ _ _ Hr). lia.
  - destruct Hres as (-> & _ & Hr). apply wp_bind. eapply wp_redis; [by apply delete_no_context|].
    apply wp_ret, HQ; [done|]. cbn. rewrite (rn_live _ _ _ _ Hr). lia.
Qed.

Lemma delete_log_ok base r live this w : holds_both base r live this w ->
  wp (delete_CRcdLogClient this) (fun _ w' => q_open (rw_mysql w') = base /\ w_live (rw_redis w') = live) w.
Proof.
  intros Hb. apply wp_bind, (drop_redis_ok base r live this w); [done|]. intros w1 Hb1 Hl1.
  apply wp_bind, (drop_sql_ok base r live _ w1); [done|]. intros w2 [_ Hq] E. cbn in Hq. apply wp_ret.
  split; [apply Hq|congruence].
Qed.

(** C22: A client of the operation records is started with both of its servers or
    not at all.  Whatever the MySQL library and the kernel answer, starting it
    returns: it succeeds exactly when both connections were made; when it fails
    the client holds neither, and every handle and every block of the attempts
    has been given back; and deleting the client afterwards leaves the handles
    and the blocks as they were before it was started. *)
Theorem log_client_resources cfg area mysqlInfo redisInfo w :
  no_oom (rw_redis w) -> kernel_answers (rw_redis w) -> (4 <= length (q_answers (rw_mysql w)))%nat ->
  (forall x, x ∈ q_open (rw_mysql w) -> x < q_next (rw_mysql w)) ->
  exists ok this w', log_OnInit area mysqlInfo redisInfo (new_CRcdLogClient cfg) w = Ok (ok, this, w') /\
    (if ok : bool then is_Some (m_pRedisClient this) /\ is_Some (m_pSqlClient this)
     else m_pRedisClient this = None /\ m_pSqlClient this = None /\
       q_open (rw_mysql w') = q_open (rw_mysql w) /\ w_live (rw_redis w') = w_live (rw_redis w)) /\
    exists w'', delete_CRcdLogClient this w' = Ok (tt, w'') /\
      q_open (rw_mysql w'') = q_open (rw_mysql w) /\ w_live (rw_redis w'') = w_live (rw_redis w).
Proof.
  intros Hoom Hk Ha Hf. set (base := q_open (rw_mysql w)). set (r := q_results (rw_mysql w)). set (live := w_live (rw_redis w)).
  assert (wp (log_OnInit area mysqlInfo redisInfo (new_CRcdLogClient cfg)) (fun x w' => holds_both base r live x.2 w' /\
    if x.1 : bool then is_Some (m_pRedisClient x.2) /\ is_Some (m_pSqlClient x.2)
    else m_pRedisClient x.2 = None /\ m_pSqlClient x.2 = None) w) as H1.
  { unfold log_OnInit. apply wp_bind, (log_MakeSqlClient_ok base r); [by split|]. intros q w1 Er Hq.
    apply wp_bind, (log_MakeRedisClient_ok live); [by rewrite Er..|]. intros p w2 Eq Hp.
    set (this := set_pRedis p _). assert (holds_both base r live this w2) as Hb by (split; [done|cbn; by rewrite Eq]).
    assert (wp (do* t := drop_redis this in do* t := drop_sql t in sret (false, t)) (fun x w' => holds_both base r live x.2 w' /\
      if x.1 : bool then is_Some (m_pRedisClient x.2) /\ is_Some (m_pSqlClient x.2)
      else m_pRedisClient x.2 = None /\ m_pSqlClient x.2 = None) w2) as Hfail.
    { apply wp_bind, (drop_redis_ok base r live this w2); [done|]. intros w3 Hb3 _.
      apply wp_bind, (drop_sql_ok base r live _ w3); [done|]. intros w4 Hb4 _. by apply wp_ret. }
    destruct p as [t|], q as [q|]; [|exact Hfail..]. apply wp_ret. split; [done|]. by split; eexists. }
  apply wp_returns in H1 as ([ok this] & w' & E & Hb & Hok). cbn [fst snd] in *. exists ok, this, w'. split; [done|]. split.
  - destruct ok; [done|]. destruct Hok as [E1 E2]. destruct Hb as [Hr Hq]. rewrite E1 in Hr. rewrite E2 in Hq. split_and!; [done|done|apply Hq|done].
  - apply delete_log_ok, wp_returns in Hb as ([] & w'' & E' & H1). by exists w''.
Qed.

(** * The service *)

(** Configurations of different sizes: no client is made, and nothing is asked,
    but the thread is started and the failure reported. *)
Lemma different_sizes cfg this w : size (m_configRedisMap cfg) <> size (m_configMysqlMap cfg) ->
  exists this', rcd_OnStart cfg this w = Ok (false, this', w) /\ m_rcdLogClientMap this' = m_rcdLogClientMap this /\
    rm_isStop this' = Some false.
Proof.
  intros Hs. unfold rcd_OnStart, rcd_OnInit. cbn [m_RedisConfigs m_MysqlConfigs set_rcd_configs GetConfigInfos].
  rewrite !map_size_fmap. apply Nat.eqb_neq in Hs. rewrite Hs. cbn [negb]. eexists. split; [reflexivity|done].
Qed.

(** Stopping a service that was never started looks at a member that was never
    set. *)
Lemma stop_before_start w : delete_CRcdServiceMgr new_CRcdServiceMgr w = Fault Uninitialised.
Proof. done. Qed.
End resources.

Definition log_start : rcdworld := mkRcd (set_os (replicate 10 (Net.answer 3)) world0) (demo_mysql (answers [7; 1; 0; 0])).

Lemma log_client_resources_witness :
  exists ok this w', @log_OnInit no_strerror (lit "430100") (mkInfo (lit "db") (lit "3306") (lit "u") (lit "p") (lit "seal"))
      (mkInfo (lit "127.0.0.1") (lit "6379") [] [] []) (new_CRcdLogClient new_CConfiger) log_start = Ok (ok, this, w') /\
    (if ok : bool then is_Some (m_pRedisClient this) /\ is_Some (m_pSqlClient this)
     else m_pRedisClient this = None /\ m_pSqlClient this = None /\
       q_open (rw_mysql w') = {[1]} /\ w_live (rw_redis w') = w_live world0) /\
    exists w'', delete_CRcdLogClient this w' = Ok (tt, w'') /\
      q_open (rw_mysql w'') = {[1]} /\ w_live (rw_redis w'') = w_live world0.
Proof.
  apply (@log_client_resources no_strerror new_CConfiger (lit "430100")
    (mkInfo (lit "db") (lit "3306") (lit "u") (lit "p") (lit "seal")) (mkInfo (lit "127.0.0.1") (lit "6379") [] [] []) log_start).
  - done.
  - split; [vm_compute; lia|]. intros a os [= <- _]. done.
  - vm_compute. lia.
  - apply demo_fresh.
Defined.

(** * Stopping while the thread runs *)

(** The condition variable: allocated, deleted but still pointed to, or null. *)
Inductive condition := Allocated | Dangling | Null.

(** The thread in [OnThreadWorker]: before the test of [m_isStop], before the call
    of [m_pCondition->waitForSeconds], in the loop over the clients, or gone. *)
Inductive worker := AtTest | AtWait | AtClients | Gone.

(** The other thread in [OnStop], before each of its statements. *)
Inductive stopper := AtFlag | AtSignal | AtDelete | AtNull | AtJoin | Joined.

Record shutdown := mkShutdown { sd_stop : bool; sd_condition : condition; sd_worker : worker; sd_stopper : stopper }.

Definition running : shutdown := mkShutdown false Allocated AtTest AtFlag.

Inductive shutdown_step : shutdown -> shutdown -> Prop :=
| worker_goes_on c s : shutdown_step (mkShutdown false c AtTest s) (mkShutdown false c AtWait s)
| worker_leaves c s : shutdown_step (mkShutdown true c AtTest s) (mkShutdown true c Gone s)
| worker_waits b s : shutdown_step (mkShutdown b Allocated AtWait s) (mkShutdown b Allocated AtClients s)
| worker_checks b c s : shutdown_step (mkShutdown b c AtClients s) (mkShutdown b c AtTest s)
| stop_flag b c p : shutdown_step (mkShutdown b c p AtFlag) (mkShutdown true c p AtSignal)
| stop_signal b p : shutdown_step (mkShutdown b Allocated p AtSignal) (mkShutdown b Allocated p AtDelete)
| stop_delete b p : shutdown_step (mkShutdown b Allocated p AtDelete) (mkShutdown b Dangling p AtNull)
| stop_null b c p : shutdown_step (mkShutdown b c p AtNull) (mkShutdown b Null p AtJoin)
| stop_join b c : shutdown_step (mkShutdown b c Gone AtJoin) (mkShutdown b c Gone Joined).

(** The thread is about to use a condition variable that is not there. *)
Definition uses_deleted (s : shutdown) : Prop := sd_worker s = AtWait /\ sd_condition s <> Allocated.

(** The thread saw the flag before it was set and waits after the condition
    variable has been deleted: [OnStop] deletes it before it joins the thread. *)
Lemma stop_races : exists s, rtc shutdown_step running s /\ uses_deleted s.
Proof.
  exists (mkShutdown true Dangling AtWait AtNull). split; [|done].
  eapply rtc_l; [apply worker_goes_on|]. eapply rtc_l; [apply stop_flag|]. eapply rtc_l; [apply stop_signal|].
  eapply rtc_l; [apply stop_delete|]. apply rtc_refl.
Qed.

(** Only that can go wrong: a thread that is not about to wait when the condition
    variable is deleted never uses it again, and [OnStop] goes on to its end. *)
Lemma stop_after_test s s' : sd_stop s = true -> sd_worker s <> AtWait -> rtc shutdown_step s s' -> ~ uses_deleted s'.
Proof.
  intros Hb Hw Hr. assert (sd_stop s' = true /\ sd_worker s' <> AtWait) as [_ H].
  { induction Hr as [s|s1 s2 s3 Hs _ IH]; [done|]. apply IH; inversion Hs; subst; done. }
  by intros [? _].
Qed.
