(* ===== verification/Log.v ===== *)
(** The log of the server (WLog/wLog.cpp, the parts for Linux): messages are put
    together in one buffer and appended to a file, a new file is begun when the
    last one is large enough, and old files are deleted.

    The file system is a store of contents by number with names for some of them,
    so that a file can be written after its name is gone, and a set of
    directories.  What else the system answers in a call (clocks, free space,
    whether a file can be opened) is an argument.  [fnmatch] is a parameter.  The
    lock is taken once in every message and left out. *)

From stdpp Require Import base tactics list numbers strings gmap.
From S2P Require Import Prelude StateMonad Printf Text Common.

Local Open Scope Z_scope.

(** * Files *)

Record disk := mkDisk {
  d_contents : gmap Z (list char);
  d_names : gmap (list char) Z;
  d_next : Z;
  d_dirs : gset (list char)
}.

(** [fopen(name, "wb")], when it succeeds. *)
Definition fopen_wb (name : list char) (d : disk) : Z * disk :=
  match d_names d !! name with
  | Some i => (i, mkDisk (<[i := []]> (d_contents d)) (d_names d) (d_next d) (d_dirs d))
  | None => (d_next d, mkDisk (<[d_next d := []]> (d_contents d)) (<[name := d_next d]> (d_names d)) (d_next d + 1) (d_dirs d))
  end.
Definition fwrite (i : Z) (x : list char) (d : disk) : disk :=
  mkDisk (<[i := default [] (d_contents d !! i) ++ x]> (d_contents d)) (d_names d) (d_next d) (d_dirs d).
Definition unlink (name : list char) (d : disk) : disk :=
  mkDisk (d_contents d) (delete name (d_names d)) (d_next d) (d_dirs d).
Definition mkdir (name : list char) (d : disk) : disk :=
  mkDisk (d_contents d) (d_names d) (d_next d) ({[name]} ∪ d_dirs d).

(** [GetFileSize_]: 0 when the file is not there. *)
Definition GetFileSize_ (name : list char) (d : disk) : Z :=
  match d_names d !! name with Some i => zlen (default [] (d_contents d !! i)) | None => 0 end.
(** [IsExistDir]. *)
Definition IsExistDir (lpsz : option (list char)) (d : disk) : bool :=
  match lpsz with Some name => bool_decide (name ∈ d_dirs d) | None => false end.

(** What the system answers while a message is written. *)
Record sysinfo := mkInfoNow {
  sy_sec : Z; sy_nsec : Z;
  sy_frsize : Z; sy_bavail : Z; sy_status : Z;
  sy_time : tm;
  sy_opens : bool
}.

(** * The log *)

Record LogData := mkLog {
  m_bInit : bool;
  m_iMinFiles : Z;
  m_iMaxFiles : Z;
  m_iReserveByte : Z;
  m_file_bytes_limit : Z;
  m_szDir : list char;
  m_szFileName : list char;
  m_iLogSize : Z;
  m_iFileCount : Z;
  m_FileList : list (list char);
  m_FileFD : option Z;
  m_lCleanTick : Z;
  m_pBuffer : list char;
  g_disk : disk
}.
Abbreviation GLM := (SM LogData).

Definition set_limits mi ma r l := mkLog (m_bInit l) mi ma r (m_file_bytes_limit l) (m_szDir l) (m_szFileName l) (m_iLogSize l) (m_iFileCount l) (m_FileList l) (m_FileFD l) (m_lCleanTick l) (m_pBuffer l) (g_disk l).
Definition set_init x l := mkLog x (m_iMinFiles l) (m_iMaxFiles l) (m_iReserveByte l) (m_file_bytes_limit l) (m_szDir l) (m_szFileName l) (m_iLogSize l) (m_iFileCount l) (m_FileList l) (m_FileFD l) (m_lCleanTick l) (m_pBuffer l) (g_disk l).
Definition set_dir x l := mkLog (m_bInit l) (m_iMinFiles l) (m_iMaxFiles l) (m_iReserveByte l) (m_file_bytes_limit l) x (m_szFileName l) (m_iLogSize l) (m_iFileCount l) (m_FileList l) (m_FileFD l) (m_lCleanTick l) (m_pBuffer l) (g_disk l).
Definition set_file_name x l := mkLog (m_bInit l) (m_iMinFiles l) (m_iMaxFiles l) (m_iReserveByte l) (m_file_bytes_limit l) (m_szDir l) x (m_iLogSize l) (m_iFileCount l) (m_FileList l) (m_FileFD l) (m_lCleanTick l) (m_pBuffer l) (g_disk l).
Definition set_log_size x l := mkLog (m_bInit l) (m_iMinFiles l) (m_iMaxFiles l) (m_iReserveByte l) (m_file_bytes_limit l) (m_szDir l) (m_szFileName l) x (m_iFileCount l) (m_FileList l) (m_FileFD l) (m_lCleanTick l) (m_pBuffer l) (g_disk l).
Definition set_files n x l := mkLog (m_bInit l) (m_iMinFiles l) (m_iMaxFiles l) (m_iReserveByte l) (m_file_bytes_limit l) (m_szDir l) (m_szFileName l) (m_iLogSize l) n x (m_FileFD l) (m_lCleanTick l) (m_pBuffer l) (g_disk l).
Definition set_fd x l := mkLog (m_bInit l) (m_iMinFiles l) (m_iMaxFiles l) (m_iReserveByte l) (m_file_bytes_limit l) (m_szDir l) (m_szFileName l) (m_iLogSize l) (m_iFileCount l) (m_FileList l) x (m_lCleanTick l) (m_pBuffer l) (g_disk l).
Definition set_tick x l := mkLog (m_bInit l) (m_iMinFiles l) (m_iMaxFiles l) (m_iReserveByte l) (m_file_bytes_limit l) (m_szDir l) (m_szFileName l) (m_iLogSize l) (m_iFileCount l) (m_FileList l) (m_FileFD l) x (m_pBuffer l) (g_disk l).
Definition set_buffer x l := mkLog (m_bInit l) (m_iMinFiles l) (m_iMaxFiles l) (m_iReserveByte l) (m_file_bytes_limit l) (m_szDir l) (m_szFileName l) (m_iLogSize l) (m_iFileCount l) (m_FileList l) (m_FileFD l) (m_lCleanTick l) x (g_disk l).
Definition set_disk x l := mkLog (m_bInit l) (m_iMinFiles l) (m_iMaxFiles l) (m_iReserveByte l) (m_file_bytes_limit l) (m_szDir l) (m_szFileName l) (m_iLogSize l) (m_iFileCount l) (m_FileList l) (m_FileFD l) (m_lCleanTick l) (m_pBuffer l) x.

Definition BUFFER_SIZE : Z := 1024 * 4.
Definition DEFAULT_MIN_LOGFILE_SIZE : Z := 100.
Definition DEFAULT_MAX_LOGFILE_SIZE : Z := 1000.
Definition DEFAULT_DISC_RESERVE_MBYTES : Z := 512.
Definition DEFAULT_FILE_SIZE : Z := 1024 * 512.
Definition CLEAN_TIME_INTERVAL : Z := 1000 * 60 * 1.

(** A text in the region of a buffer, with its NUL. *)
Definition store_text (region text : list char) : outcome (list char) := mem_write region 0 (text ++ [NUL]).

(** The constructor; [buffer] is what [malloc] returns. *)
Definition new_LogData (buffer : list char) (d : disk) : LogData :=
  mkLog true DEFAULT_MIN_LOGFILE_SIZE DEFAULT_MAX_LOGFILE_SIZE DEFAULT_DISC_RESERVE_MBYTES DEFAULT_FILE_SIZE
    (lit "./Log" ++ replicate 255 NUL) (lit "wlog" ++ replicate 124 NUL) 0 0 [] None 0 buffer d.

Definition m_titles : list (list char) := [lit "Info"; lit "Warn"; lit "Error"; lit "Debug"].

(** [fnmatch(pattern, string, 0) == 0]. *)
Class Fnmatch := fnmatch : list char -> list char -> bool.

Section log.
Context `{Fnmatch}.

(** ** Files of earlier runs *)

Definition MatchingString (string pattern : list char) : bool := fnmatch pattern string.

(** A file is counted and put in the list. *)
Definition push_file (name : list char) : GLM unit :=
  do* l := sget in
  do* n := slift (int_ok (m_iFileCount l + 1)) in
  smodify (set_files n (m_FileList l ++ [name])).

(** The loop over the entries that [scandir] returned. *)
Fixpoint search_loop (names : list (list char)) (slash pattern : list char) : GLM unit :=
  match names with
  | [] => sret tt
  | name :: names' =>
      do* l := sget in
      do* path := slift (sprintf (lit "%s%s%s") [VPtr (m_szDir l); VPtr (slash ++ [NUL]); VPtr (name ++ [NUL])]) in
      do* szPathName := slift (store_text (replicate 260 NUL) path) in
      do* _ := (if IsExistDir (Some (cstring szPathName)) (g_disk l) then sret tt
                else if MatchingString name pattern then push_file (cstring szPathName)
                else sret tt) in
      search_loop names' slash pattern
  end.

(** [found] is what [scandir] returns, without "." and "..", in order. *)
Definition SerarchLogsByDir (found : option (list (list char))) : GLM unit :=
  match found with
  | None => sret tt
  | Some names =>
      do* l := sget in
      do* c := slift (mem_get (m_szDir l) (zlen (cstring (m_szDir l)) - 1)) in
      let slash := if c =? 47 then [] else [47] in
      do* text := slift (sprintf (lit "%s*.log") [VPtr (m_szFileName l)]) in
      do* szSearchFileName := slift (store_text (replicate 128 NUL) text) in
      search_loop names slash (cstring szSearchFileName)
  end.

(** [makes]: whether [mkdir] succeeds. *)
Definition TestDir (makes : bool) (pDir : option (list char)) : GLM Z :=
  do* l := sget in
  if IsExistDir pDir (g_disk l) then sret 0
  else
    match pDir with
    | Some dir => if makes then do* _ := smodify (set_disk (mkdir dir (g_disk l))) in sret 1 else sret (-1)
    | None => sret (-1)
    end.

Definition Init (pDir pFileName : option (list char)) (iMinFiles iMaxFiles iReserveMBytes : Z)
    (makes : bool) (found : option (list (list char))) : GLM Z :=
  do* l := sget in
  do* _ := (match pDir with
            | Some dir => do* r := slift (store_text (m_szDir l) dir) in smodify (set_dir r)
            | None => sret tt
            end) in
  do* k := slift (int_ok (iReserveMBytes * 1024)) in
  do* m := slift (int_ok (k * 1024)) in
  do* _ := smodify (set_limits iMinFiles iMaxFiles m) in
  do* _ := (match pFileName with
            | Some name => do* r := slift (store_text (m_szFileName l) name) in smodify (set_file_name r)
            | None => sret tt
            end) in
  do* iRet := TestDir makes pDir in
  if iRet =? 0 then do* _ := SerarchLogsByDir found in sret 0
  else if iRet =? -1 then do* _ := smodify (set_init false) in sret (-1)
  else sret 0.

(** ** Rotation *)

Definition NAME_FORMAT : list char := lit "%s/%s%04d%02d%02d%02d%02d%02d.log".

Definition log_name (l : LogData) (t : tm) : outcome (list char) :=
  let! text := sprintf NAME_FORMAT [VPtr (m_szDir l); VPtr (m_szFileName l); VNum (tm_year t + 1900); VNum (tm_mon t + 1);
                                    VNum (tm_mday t); VNum (tm_hour t); VNum (tm_min t); VNum (tm_sec t)] in
  let! szFileName := store_text (replicate 128 NUL) text in
  Ok (cstring szFileName).

Definition SwitchNewFile (now : sysinfo) : GLM bool :=
  do* l := sget in
  if negb (m_bInit l) then sret false
  else
    do* _ := (if m_file_bytes_limit l <? m_iLogSize l then smodify (set_fd None) else sret tt) in
    do* l := sget in
    match m_FileFD l with
    | Some _ => sret true
    | None =>
        do* name := slift (log_name l (sy_time now)) in
        if sy_opens now then
          let '(i, d) := fopen_wb name (g_disk l) in
          do* _ := smodify (fun l => set_fd (Some i) (set_disk d l)) in
          do* _ := push_file name in
          do* _ := smodify (set_log_size 0) in
          sret true
        else sret false
    end.

(** [DeleteFile_]. *)
Definition DeleteFile_ (name : list char) : GLM unit := smodify (fun l => set_disk (unlink name (g_disk l)) l).

(** [front()] and [pop()] of the list: of an empty one, anything may happen. *)
Definition pop_file : GLM (list char) :=
  do* l := sget in
  match m_FileList l with
  | [] => scrash OutOfBounds
  | name :: rest => do* _ := smodify (set_files (m_iFileCount l - 1) rest) in sret name
  end.

Fixpoint count_loop (fuel : nat) : GLM unit :=
  do* l := sget in
  if (m_iMaxFiles l <=? m_iFileCount l) && (m_iMinFiles l <? m_iFileCount l) then
    match fuel with
    | O => scrash OutOfFuel
    | S f =>
        do* name := pop_file in
        do* _ := DeleteFile_ name in
        count_loop f
    end
  else sret tt.

Fixpoint space_loop (fuel : nat) (lNeedClean : Z) : GLM unit :=
  do* l := sget in
  if (0 <? zlen (m_FileList l)) && (m_iMinFiles l <? m_iFileCount l) then
    match fuel with
    | O => scrash OutOfFuel
    | S f =>
        do* name := pop_file in
        do* l := sget in
        let iFileSize := GetFileSize_ name (g_disk l) in
        do* _ := DeleteFile_ name in
        let lNeedClean := lNeedClean - iFileSize in
        if lNeedClean <=? 0 then sret tt else space_loop f lNeedClean
    end
  else sret tt.

(** A turn that is not the last one shortens the list. *)
Definition list_fuel : GLM nat := fun l => Ok (S (length (m_FileList l)), l).

Definition GetBootTickCount (now : sysinfo) : Z := sy_sec now * 1000 + Z.quot (sy_nsec now) (1000 * 1000).
Definition GetDiskFreeSpace_ (now : sysinfo) : Z := if 0 <=? sy_status now then sy_frsize now * sy_bavail now else 0.

Definition CleanFile_ (now : sysinfo) : GLM unit :=
  let ltNow := GetBootTickCount now in
  do* l := sget in
  if CLEAN_TIME_INTERVAL <? ltNow - m_lCleanTick l then
    do* fuel := list_fuel in
    do* _ := count_loop fuel in
    let totalFreeBytes := GetDiskFreeSpace_ now in
    let lNeedClean := m_iReserveByte l - totalFreeBytes in
    do* _ := (if 0 <? lNeedClean then do* fuel := list_fuel in space_loop fuel lNeedClean else sret tt) in
    smodify (set_tick ltNow)
  else sret tt.

(** ** Messages *)

(** [LogData::WriteLog]. *)
Definition write_file (now : sysinfo) (pBuffer : list char) (iLen : Z) : GLM bool :=
  do* _ := CleanFile_ now in
  do* ok := SwitchNewFile now in
  if ok : bool then
    do* l := sget in
    match m_FileFD l with
    | None => scrash NullDeref
    | Some i =>
        do* x := slift (mem_read pBuffer 0 iLen) in
        do* _ := smodify (fun l => set_disk (fwrite i x (g_disk l)) l) in
        do* n := slift (int_ok (m_iLogSize l + iLen)) in
        do* _ := smodify (set_log_size n) in
        sret true
    end
  else sret false.

Definition HEADER_FORMAT : list char := lit "%04d-%02d-%02d %02d:%02d:%02d|%s:".

Definition header_text (t : tm) (title : list char) : outcome (list char) :=
  sprintf HEADER_FORMAT [VNum (tm_year t + 1900); VNum (tm_mon t + 1); VNum (tm_mday t); VNum (tm_hour t); VNum (tm_min t); VNum (tm_sec t);
                         VPtr (title ++ [NUL])].

(** [strcat(pBuffer + off, "\n")]. *)
Definition strcat_newline (buffer : list char) (off : Z) : outcome (list char) :=
  match strlen (drop (Z.to_nat off) buffer) with
  | Some n => mem_write buffer (off + n) [LF; NUL]
  | None => Fault OutOfBounds
  end.

(** [__W_LOG::WriteLog]; the last statement prints the buffer as a format. *)
Definition WriteLog `{FloatFmt} (now : sysinfo) (iType : nat) (fmt : list char) (ap : va_list) : GLM unit :=
  do* l := sget in
  do* title := (match m_titles !! iType with Some t => sret t | None => scrash OutOfBounds end) in
  do* header := slift (header_text (sy_time now) title) in
  do* pBuffer := slift (store_text (m_pBuffer l) header) in
  let iLen := zlen header in
  do* text := slift (vsprintf fmt ap) in
  do* pBuffer := slift (mem_write pBuffer iLen (vsnprintf_bytes (BUFFER_SIZE - iLen) text)) in
  let iTotalLen := iLen + zlen text in
  do* c := slift (mem_get pBuffer (iTotalLen - 1)) in
  do* (pBuffer, iTotalLen) :=
    (if negb (c =? LF) && negb (c =? CR) then
       do* b := slift (strcat_newline pBuffer (iTotalLen - 1)) in sret (b, iTotalLen + 1)
     else sret (pBuffer, iTotalLen)) in
  do* _ := smodify (set_buffer pBuffer) in
  do* _ := write_file now pBuffer iTotalLen in
  do* _ := slift (vsprintf pBuffer (mkVa [] [])) in
  sret tt.
End log.
