(* ===== verification/LogSpec.v ===== *)
(** The log: a message is one line of the file that is last in the list, files
    are deleted from the front of the list only and never below the minimum, and
    a message that does not fit the buffer is written past its end. *)

From stdpp Require Import base tactics list numbers strings gmap.
From S2P Require Import Prelude StateMonad Printf LogCall Text Common RecordSetSpec Log.

Local Open Scope Z_scope.

(** * Rotation *)

(** Between two messages. *)
Record log_ok (l : LogData) : Prop := {
  lo_init : m_bInit l = true;
  lo_buffer : zlen (m_pBuffer l) = BUFFER_SIZE;
  lo_count : m_iFileCount l = zlen (m_FileList l);
  lo_nodup : NoDup (m_FileList l);
  lo_min : 1 <= m_iMinFiles l;
  lo_limit : 0 <= m_file_bytes_limit l <= INT_MAX - 2 * BUFFER_SIZE;
  lo_size : 0 <= m_iLogSize l <= m_file_bytes_limit l + BUFFER_SIZE;
  lo_disk : forall name i, d_names (g_disk l) !! name = Some i -> i < d_next (g_disk l);
  lo_names : forall n1 n2 i, d_names (g_disk l) !! n1 = Some i -> d_names (g_disk l) !! n2 = Some i -> n1 = n2;
  lo_open : forall i, m_FileFD l = Some i -> exists name pre, m_FileList l = pre ++ [name] /\ d_names (g_disk l) !! name = Some i
}.

Definition unlink_all (gone : list (list char)) (d : disk) : disk := foldl (fun d n => unlink n d) d gone.

Lemma unlink_all_spec gone d :
  d_contents (unlink_all gone d) = d_contents d /\ d_next (unlink_all gone d) = d_next d /\ d_dirs (unlink_all gone d) = d_dirs d /\
  forall n, d_names (unlink_all gone d) !! n = if bool_decide (n ∈ gone) then None else d_names d !! n.
Proof.
  revert d. induction gone as [|g gone IH]; intros d.
  - split_and!; [done..|]. intros n. by rewrite bool_decide_false by (by intros ?%elem_of_nil).
  - cbn. destruct (IH (unlink g d)) as (E1 & E2 & E3 & E4). split_and!; [done..|]. intros n. rewrite E4. cbn [unlink d_names].
    destruct (decide (n ∈ gone)) as [Hin|Hout]; [rewrite !bool_decide_true by (done || by right); done|].
    rewrite (bool_decide_false (n ∈ gone)) by done. destruct (decide (n = g)) as [->|Hne].
    + rewrite lookup_delete_eq, bool_decide_true; [done|by left].
    + rewrite lookup_delete_ne by done. rewrite bool_decide_false; [done|]. by intros [->|]%elem_of_cons.
Qed.

(** Files have been deleted from the front of the list, the minimum is left. *)
Definition dropped (gone rest : list (list char)) (l : LogData) : LogData :=
  set_files (zlen rest) rest (set_disk (unlink_all gone (g_disk l)) l).

Record discards (l l' : LogData) : Prop := {
  di_split : exists gone, m_FileList l = gone ++ m_FileList l' /\ l' = dropped gone (m_FileList l') l /\
    (gone = [] \/ m_iMinFiles l <= zlen (m_FileList l'))
}.

Lemma discards_refl l : m_iFileCount l = zlen (m_FileList l) -> discards l l.
Proof. intros E. split. exists []. split_and!; [done| |by left]. destruct l. cbn in *. by subst. Qed.

Lemma discards_trans l1 l2 l3 : discards l1 l2 -> discards l2 l3 -> discards l1 l3.
Proof.
  intros [(g1 & S1 & E1 & M1)] [(g2 & S2 & E2 & M2)]. split. exists (g1 ++ g2). split_and!.
  - by rewrite S1, S2, app_assoc.
  - rewrite E2 at 1. rewrite E1. unfold dropped, unlink_all. cbn. rewrite foldl_app. by destruct l1.
  - assert (m_iMinFiles l2 = m_iMinFiles l1) as Em by (by rewrite E1). rewrite S2, Em in *.
    destruct M2 as [->|M2]; [|by right]. destruct M1 as [->|M1]; [by left|by right].
Qed.

Lemma pop_ok l name rest : m_iFileCount l = zlen (m_FileList l) -> m_FileList l = name :: rest -> m_iMinFiles l < zlen (m_FileList l) ->
  pop_file l = Ok (name, set_files (zlen rest) rest l) /\ discards l (dropped [name] rest l).
Proof.
  intros Ec El Hm. split.
  - unfold pop_file, sbind, sget. rewrite El. unfold smodify, sret. do 3 f_equal. rewrite Ec, El. cbn [length]. lia.
  - split. exists [name]. split_and!; [done|done|]. right. cbn. rewrite El in Hm. cbn [length] in Hm. lia.
Qed.

Lemma count_loop_ok fuel l (Q : unit -> LogData -> Prop) :
  m_iFileCount l = zlen (m_FileList l) -> 0 <= m_iMinFiles l -> (length (m_FileList l) < fuel)%nat ->
  (forall l', discards l l' -> m_iFileCount l' = zlen (m_FileList l') ->
     m_iFileCount l' < m_iMaxFiles l \/ m_iFileCount l' <= m_iMinFiles l -> Q tt l') ->
  wp (count_loop fuel) Q l.
Proof.
  revert l. induction fuel as [|f IH]; intros l Ec Hm Hf HQ; [lia|]. cbn [count_loop].
  apply wp_bind, (wp_run _ _ _ l l); [done|].
  destruct (Z.leb_spec (m_iMaxFiles l) (m_iFileCount l)); cbn [andb]; [|apply wp_ret, HQ; [by apply discards_refl|done|by left]].
  destruct (Z.ltb_spec (m_iMinFiles l) (m_iFileCount l)); [|apply wp_ret, HQ; [by apply discards_refl|done|by right]].
  destruct (m_FileList l) as [|name rest] eqn:El; [cbn in *; lia|].
  destruct (pop_ok l name rest) as [E D]; [by rewrite El|done|rewrite El; lia|].
  apply wp_bind. eapply (wp_run pop_file); [exact E|]. apply wp_bind, (wp_run _ _ _ tt (dropped [name] rest l)); [done|].
  apply IH; [done|done|cbn in *; lia|]. intros l' D' Ec' Hq. apply HQ; [by eapply discards_trans|done|done].
Qed.

Lemma space_loop_ok fuel need l (Q : unit -> LogData -> Prop) :
  m_iFileCount l = zlen (m_FileList l) -> 0 <= m_iMinFiles l -> (length (m_FileList l) < fuel)%nat ->
  (forall l', discards l l' -> Q tt l') -> wp (space_loop fuel need) Q l.
Proof.
  revert l need. induction fuel as [|f IH]; intros l need Ec Hm Hf HQ; [lia|]. cbn [space_loop].
  apply wp_bind, (wp_run _ _ _ l l); [done|].
  destruct (0 <? zlen (m_FileList l)); cbn [andb]; [|by apply wp_ret, HQ, discards_refl].
  destruct (Z.ltb_spec (m_iMinFiles l) (m_iFileCount l)); [|by apply wp_ret, HQ, discards_refl].
  destruct (m_FileList l) as [|name rest] eqn:El; [cbn in *; lia|].
  destruct (pop_ok l name rest) as [E D]; [by rewrite El|done|rewrite El; lia|].
  apply wp_bind. eapply (wp_run pop_file); [exact E|]. apply wp_bind, (wp_run _ _ _ (set_files (zlen rest) rest l) (set_files (zlen rest) rest l)); [done|].
  apply wp_bind, (wp_run _ _ _ tt (dropped [name] rest l)); [done|]. destruct (_ <=? 0); [by apply wp_ret, HQ|].
  apply IH; [done|done|cbn in *; lia|]. intros l' D'. apply HQ. by eapply discards_trans.
Qed.

Definition ticked (l l' : LogData) : Prop := exists l1 t, discards l l1 /\ l' = set_tick t l1.

(** Cleaning deletes from the front, and leaves fewer files than the maximum or
    no more than the minimum when it was due. *)
Lemma CleanFile_ok now l (Q : unit -> LogData -> Prop) : m_iFileCount l = zlen (m_FileList l) -> 0 <= m_iMinFiles l ->
  (forall l', ticked l l' -> (CLEAN_TIME_INTERVAL < GetBootTickCount now - m_lCleanTick l ->
     m_iFileCount l' < m_iMaxFiles l \/ m_iFileCount l' <= m_iMinFiles l) -> Q tt l') ->
  wp (CleanFile_ now) Q l.
Proof.
  intros Ec Hm HQ. unfold CleanFile_. apply wp_bind, (wp_run _ _ _ l l); [done|].
  destruct (Z.ltb_spec CLEAN_TIME_INTERVAL (GetBootTickCount now - m_lCleanTick l)) as [Hdue|Hnot].
  2: { apply wp_ret, HQ; [|lia]. exists l, (m_lCleanTick l). split; [by apply discards_refl|]. by destruct l. }
  apply wp_bind. eapply (wp_run list_fuel); [done|]. apply wp_bind, count_loop_ok; [done|done|lia|]. intros l1 D1 Ec1 Hq1.
  assert (m_iMinFiles l1 = m_iMinFiles l) as Em by (destruct D1 as [(g & _ & -> & _)]; done).
  assert (forall l2, discards l1 l2 -> wp (smodify (set_tick (GetBootTickCount now))) Q l2) as Hend.
  { intros l2 D2. apply (wp_run _ _ _ tt (set_tick (GetBootTickCount now) l2)); [done|]. apply HQ.
    - exists l2, (GetBootTickCount now). split; [by eapply discards_trans|done].
    - intros _. destruct D2 as [(g & S2 & E2 & _)]. assert (m_iFileCount l2 = zlen (m_FileList l2)) as Ec2 by (by rewrite E2).
      cbn. rewrite Ec2. rewrite Ec1, S2, length_app in Hq1. lia. }
  apply wp_bind. destruct (_ <? _); [|by apply wp_ret, Hend, discards_refl].
  apply wp_bind. eapply (wp_run list_fuel); [done|]. apply space_loop_ok; [done|lia|lia|]. exact Hend.
Qed.

Lemma ticked_spec l l' : ticked l l' -> exists gone, m_FileList l = gone ++ m_FileList l' /\
  (gone = [] \/ m_iMinFiles l <= zlen (m_FileList l')) /\ m_iFileCount l' = zlen (m_FileList l') /\ g_disk l' = unlink_all gone (g_disk l) /\
  m_bInit l' = m_bInit l /\ m_iMinFiles l' = m_iMinFiles l /\ m_file_bytes_limit l' = m_file_bytes_limit l /\ m_iLogSize l' = m_iLogSize l /\
  m_FileFD l' = m_FileFD l /\ m_szDir l' = m_szDir l /\ m_szFileName l' = m_szFileName l /\ m_pBuffer l' = m_pBuffer l.
Proof. intros (l1 & t & [(gone & S & E & M)] & ->). exists gone. cbn. by rewrite E. Qed.

Lemma ticked_ok l l' : log_ok l -> ticked l l' -> log_ok l'.
Proof.
  intros [] (gone & S & M & Ec & Ed & Ei & Em & El & Es & Ef & _ & _ & Eb)%ticked_spec.
  destruct (unlink_all_spec gone (g_disk l)) as (_ & En & _ & Enames).
  assert (forall n i, d_names (g_disk l') !! n = Some i -> d_names (g_disk l) !! n = Some i) as Hsub.
  { intros n i. rewrite Ed, Enames. by destruct (bool_decide _). }
  split; rewrite ?Em, ?El, ?Es, ?Ei, ?Eb; try done.
  - rewrite S in lo_nodup0. by apply NoDup_app in lo_nodup0 as (_ & _ & ?).
  - intros n i Hn%Hsub. rewrite Ed, En. eauto.
  - intros n1 n2 i H1%Hsub H2%Hsub. eauto.
  - intros i Hi. rewrite Ef in Hi. destruct (lo_open0 i Hi) as (name & pre & Epre & Hname).
    destruct (m_FileList l') as [|f fs _] eqn:Efs using rev_ind.
    { rewrite app_nil_r in S. subst gone. destruct M as [M|M]; [rewrite M in Epre; by destruct pre|cbn in M; lia]. }
    exists f, fs. split; [done|]. assert (f = name) as ->.
    { rewrite S, app_assoc in Epre. by apply app_inj_tail in Epre as [_ ?]. }
    rewrite Ed, Enames, bool_decide_false; [done|]. intros Hin. rewrite S in lo_nodup0.
    apply NoDup_app in lo_nodup0 as (_ & Hd & _). apply (Hd name Hin). apply elem_of_app. right. by left.
Qed.

(** A new file is opened, which must have a new name. *)
Lemma SwitchNewFile_ok now l name (Q : bool -> LogData -> Prop) :
  log_ok l -> sy_opens now = true -> zlen (m_FileList l) < INT_MAX ->
  log_name l (sy_time now) = Ok name -> d_names (g_disk l) !! name = None -> name ∉ m_FileList l ->
  (forall l' cur i, log_ok l' -> m_iLogSize l' <= m_file_bytes_limit l' -> m_FileFD l' = Some i -> last (m_FileList l') = Some cur ->
     d_names (g_disk l') !! cur = Some i ->
     (l' = l /\ i < d_next (g_disk l) \/
      cur = name /\ i = d_next (g_disk l) /\ m_FileList l' = m_FileList l ++ [name] /\ g_disk l' = (fopen_wb name (g_disk l)).2) -> Q true l') ->
  wp (SwitchNewFile now) Q l.
Proof.
  intros Hok Ho Hmax Hname Hnew Hlist HQ. unfold SwitchNewFile. apply wp_bind, (wp_run _ _ _ l l); [done|]. rewrite (lo_init l Hok). cbn [negb].
  set (l1 := if m_file_bytes_limit l <? m_iLogSize l then set_fd None l else l).
  apply wp_bind, (wp_run _ _ _ tt l1); [unfold l1; by destruct (_ <? _)|]. apply wp_bind, (wp_run _ _ _ l1 l1); [done|].
  destruct (m_FileFD l1) as [i|] eqn:Efd.
  - assert (l1 = l /\ m_iLogSize l <= m_file_bytes_limit l) as [El Hs] by (unfold l1 in *; by destruct (Z.ltb_spec (m_file_bytes_limit l) (m_iLogSize l))).
    rewrite El in *. destruct (lo_open l Hok i Efd) as (cur & pre & Epre & Hcur). apply wp_ret.
    eapply HQ; [done|done|done|by rewrite Epre, last_snoc|done|]. left. split; [done|]. by eapply (lo_disk l Hok).
  - assert (log_name l1 (sy_time now) = Ok name) as Hname1 by (unfold l1; by destruct (_ <? _)).
    assert (g_disk l1 = g_disk l /\ m_FileList l1 = m_FileList l /\ m_iFileCount l1 = m_iFileCount l) as (Ed & El & Ec) by (unfold l1; by destruct (_ <? _)).
    apply wp_bind, (wp_lift _ name); [done|]. rewrite Ho, Ed. unfold fopen_wb. rewrite Hnew. set (i := d_next (g_disk l)).
    set (d := mkDisk _ _ _ _). set (l2 := set_fd (Some i) (set_disk d l1)). apply wp_bind, (wp_run _ _ _ tt l2); [done|].
    set (l3 := set_files (zlen (m_FileList l ++ [name])) (m_FileList l ++ [name]) l2).
    assert (push_file name l2 = Ok (tt, l3)) as E3.
    { unfold push_file, sbind, sget, slift, smodify, int_ok. cbn [m_iFileCount l2 set_fd set_disk m_FileList]. rewrite Ec, El.
      rewrite (lo_count l Hok). rewrite (proj2 (Z.leb_le INT_MIN _)), (proj2 (Z.leb_le _ INT_MAX)) by (unfold INT_MIN in *; lia).
      cbn [andb]. do 3 f_equal. unfold l3. f_equal. rewrite length_app. cbn. lia. }
    apply wp_bind, (wp_run _ _ _ tt l3); [done|]. apply wp_bind, (wp_run _ _ _ tt (set_log_size 0 l3)); [done|].
    apply wp_ret, (HQ _ name i); cbn; [|unfold l1; destruct (_ <? _); cbn; apply (lo_limit l Hok)|done|by rewrite last_snoc|by rewrite lookup_insert_eq|].
    2: { right. split_and!; [done|done|done|]. unfold fopen_wb. by rewrite Hnew. }
    assert (m_iMinFiles l1 = m_iMinFiles l /\ m_file_bytes_limit l1 = m_file_bytes_limit l /\ m_bInit l1 = m_bInit l /\ m_pBuffer l1 = m_pBuffer l)
      as (Em & Elim & Ei & Eb) by (unfold l1; by destruct (_ <? _)).
    destruct Hok. split; cbn; rewrite ?Em, ?Elim, ?Ei, ?Eb; try done.
    + apply NoDup_app. split_and!; [done| |apply NoDup_singleton]. intros x Hx ->%list_elem_of_singleton. done.
    + unfold BUFFER_SIZE in *. lia.
    + intros n j. rewrite lookup_insert_Some. intros [[_ <-]|[_ Hj]]; [unfold i; lia|]. specialize (lo_disk0 n j Hj). unfold i. lia.
    + intros n1 n2 j. rewrite !lookup_insert_Some. intros [[<- <-]|[Hn1 H1]] [[<- E]|[Hn2 H2]]; [done| | |eauto].
      * specialize (lo_disk0 _ _ H2). unfold i in *. lia.
      * specialize (lo_disk0 _ _ H1). unfold i in *. lia.
    + intros j [= <-]. exists name, (m_FileList l). by rewrite lookup_insert_eq.
Qed.

(** What a write does to the files: [gone] are deleted, [x] is appended to the
    file [cur], which is the last of the list and has its name; it was there
    before, or is new and empty.  Nothing else changes. *)
Record appended (x : list char) (name : list char) (l l' : LogData) : Prop := {
  ap_files : exists gone kept cur i, m_FileList l = gone ++ kept /\ (gone = [] \/ m_iMinFiles l <= zlen kept) /\
    last (m_FileList l') = Some cur /\ d_names (g_disk l') !! cur = Some i /\
    (m_FileList l' = kept /\ m_FileFD l = Some i /\
       d_contents (g_disk l') !! i = Some (default [] (d_contents (g_disk l) !! i) ++ x) \/
     m_FileList l' = kept ++ [name] /\ cur = name /\ i = d_next (g_disk l) /\ d_contents (g_disk l') !! i = Some x) /\
    (forall f, f <> cur -> d_names (g_disk l') !! f = if bool_decide (f ∈ gone) then None else d_names (g_disk l) !! f) /\
    (forall j, j <> i -> d_contents (g_disk l') !! j = d_contents (g_disk l) !! j)
}.

Lemma write_file_ok now buffer n l name (Q : bool -> LogData -> Prop) :
  log_ok l -> sy_opens now = true -> 0 <= n <= BUFFER_SIZE -> n <= zlen buffer -> zlen (m_FileList l) < INT_MAX ->
  log_name l (sy_time now) = Ok name -> d_names (g_disk l) !! name = None -> name ∉ m_FileList l ->
  (forall l', log_ok l' -> appended (take (Z.to_nat n) buffer) name l l' -> Q true l') -> wp (write_file now buffer n) Q l.
Proof.
  intros Hok Ho Hn Hb Hmax Hname Hnew Hlist HQ. unfold write_file.
  apply wp_bind, CleanFile_ok; [apply Hok|pose proof (lo_min l Hok); lia|]. intros l1 Ht _.
  pose proof (ticked_ok l l1 Hok Ht) as Hok1.
  destruct (ticked_spec l l1 Ht) as (gone & S & M & _ & Ed & _ & _ & _ & _ & Ef & Edir & Enm & _).
  destruct (unlink_all_spec gone (g_disk l)) as (Econt & Enext & _ & Enames).
  assert (log_name l1 (sy_time now) = Ok name) as Hname1 by (unfold log_name in *; by rewrite Edir, Enm).
  apply wp_bind, (SwitchNewFile_ok now l1 name); [done|done| |done| | |].
  { rewrite S, length_app in Hmax. lia. }
  { rewrite Ed, Enames, Hnew. by destruct (bool_decide _). }
  { intros Hin. apply Hlist. rewrite S. apply elem_of_app. by right. }
  intros l2 cur i Hok2 Hs2 Hfd2 Hlast Hcur Hcase. apply wp_bind, (wp_run _ _ _ l2 l2); [done|]. rewrite Hfd2.
  set (x := take (Z.to_nat n) buffer). set (l3 := set_disk (fwrite i x (g_disk l2)) l2).
  apply wp_bind, (wp_lift _ x).
  { unfold mem_read. rewrite (proj2 (Z.leb_le 0 n)), (proj2 (Z.leb_le (0 + n) (zlen buffer))) by lia. done. }
  apply wp_bind, (wp_run _ _ _ tt l3); [done|]. destruct Hok2.
  apply wp_bind, (wp_lift _ (m_iLogSize l2 + n)).
  { unfold int_ok. unfold BUFFER_SIZE in *.
    rewrite (proj2 (Z.leb_le INT_MIN (m_iLogSize l2 + n))), (proj2 (Z.leb_le (m_iLogSize l2 + n) INT_MAX)) by (unfold INT_MIN in *; lia). done. }
  apply wp_bind, (wp_run _ _ _ tt (set_log_size (m_iLogSize l2 + n) l3)); [done|]. apply wp_ret, HQ.
  - split; cbn; try done. lia.
  - split. exists gone, (m_FileList l1), cur, i. cbn. destruct Hcase as [[-> Hlt]|(-> & -> & Efl & Edk)].
    + split_and!; [done|done|done|done| | |].
      * left. split_and!; [done|congruence|]. by rewrite lookup_insert_eq, Ed, Econt.
      * intros f _. by rewrite Ed, Enames.
      * intros j Hj. by rewrite lookup_insert_ne, Ed, Econt by done.
    + rewrite Edk. unfold fopen_wb.
      assert (d_names (g_disk l1) !! name = None) as -> by (rewrite Ed, Enames, Hnew; by destruct (bool_decide _)). cbn.
      assert (d_next (g_disk l1) = d_next (g_disk l)) as -> by (by rewrite Ed, Enext).
      split_and!; [done|done|done|by rewrite lookup_insert_eq| | |].
      * right. split_and!; [done|done|done|]. by rewrite !lookup_insert_eq.
      * intros f Hf. rewrite lookup_insert_ne by done. by rewrite Ed, Enames.
      * intros j Hj. by rewrite !lookup_insert_ne, Ed, Econt by done.
Qed.

(** * Messages *)

(** The line of a message. *)
Definition log_line (header text : list char) : list char :=
  header ++ text ++ if ends_line (header ++ text) then [] else [LF].

Lemma mem_write_mid a b c d off : off = zlen a -> zlen c = zlen b -> mem_write (a ++ b ++ d) off c = Ok (a ++ c ++ d).
Proof.
  intros -> Hl. assert (length c = length b) as El by lia. unfold mem_write.
  rewrite (proj2 (Z.leb_le 0 (zlen a))), (proj2 (Z.leb_le (zlen a + zlen c) _)) by (rewrite ?length_app; lia). cbn [andb]. rewrite Nat2Z.id.
  rewrite take_app_length, El. assert (drop (length a + length b) (a ++ b ++ d) = d) as ->; [|done].
  by rewrite <- length_app, app_assoc, drop_app_length.
Qed.

Lemma mem_write_past b off x : zlen b < off + zlen x -> mem_write b off x = Fault OutOfBounds.
Proof. intros Hl. unfold mem_write. rewrite (proj2 (Z.leb_gt (off + zlen x) _)) by lia. by rewrite andb_false_r. Qed.

(** The buffer is split where a text ends. *)
Lemma split_region (b : list char) n : 0 <= n <= zlen b -> exists x y, b = x ++ y /\ zlen x = n.
Proof. intros Hn. exists (take (Z.to_nat n) b), (drop (Z.to_nat n) b). rewrite take_drop, length_take. split; [done|lia]. Qed.

(** The statements of [WriteLog] that make the line. *)
Definition make_line (buffer header text : list char) : outcome (list char * Z) :=
  let! b := store_text buffer header in
  let! b := mem_write b (zlen header) (vsnprintf_bytes (BUFFER_SIZE - zlen header) text) in
  let! c := mem_get b (zlen header + zlen text - 1) in
  if negb (c =? LF) && negb (c =? CR) then
    let! b' := strcat_newline b (zlen header + zlen text - 1) in Ok (b', zlen header + zlen text + 1)
  else Ok (b, zlen header + zlen text).

(** The text after the header has been put in the buffer, cut when it is long. *)
Lemma buffer_text buffer header text : zlen buffer = BUFFER_SIZE -> zlen header < BUFFER_SIZE ->
  exists rest, (let! b := store_text buffer header in mem_write b (zlen header) (vsnprintf_bytes (BUFFER_SIZE - zlen header) text)) =
    Ok (header ++ vsnprintf_bytes (BUFFER_SIZE - zlen header) text ++ rest) /\
    zlen (header ++ vsnprintf_bytes (BUFFER_SIZE - zlen header) text ++ rest) = BUFFER_SIZE.
Proof.
  intros Hb Hh. set (x := vsnprintf_bytes _ _). assert (zlen x <= BUFFER_SIZE - zlen header) as Hx.
  { unfold x, vsnprintf_bytes. rewrite length_app, length_take. cbn [length]. lia. }
  destruct (split_region buffer (zlen header + 1)) as (u & v & -> & Hu); [lia|].
  assert (store_text (u ++ v) header = Ok (header ++ [NUL] ++ v)) as ->.
  { unfold store_text. rewrite (mem_write_mid [] u (header ++ [NUL]) v) by (rewrite ?length_app; cbn; lia). by rewrite <- app_assoc. }
  cbn [obind]. rewrite length_app in Hb. destruct (split_region ([NUL] ++ v) (zlen x)) as (u' & v' & E & Hu'); [rewrite length_app; cbn [length]; lia|].
  rewrite E. exists v'. rewrite mem_write_mid by lia. split; [done|]. rewrite !length_app.
  assert (zlen ([NUL] ++ v) = zlen (u' ++ v')) as El by (by rewrite E). rewrite !length_app in El. cbn [length] in El. lia.
Qed.

Lemma mem_get_last b x off rest : off = zlen b -> mem_get (b ++ x :: rest) off = Ok x.
Proof. intros ->. unfold mem_get. rewrite (proj2 (Z.leb_le 0 (zlen b))), Nat2Z.id by lia. by rewrite list_lookup_middle. Qed.

Lemma strcat_end s x rest : x <> NUL -> strcat_newline (s ++ x :: NUL :: rest) (zlen s) = mem_write (s ++ x :: NUL :: rest) (zlen s + 1) [LF; NUL].
Proof. intros Hx. unfold strcat_newline. rewrite Nat2Z.id, drop_app_length. cbn. apply Z.eqb_neq in Hx. by rewrite Hx. Qed.

Lemma make_line_ok buffer header text :
  zlen buffer = BUFFER_SIZE -> header <> [] -> zlen header < BUFFER_SIZE -> Forall (fun c => c <> NUL) (header ++ text) ->
  if zlen (log_line header text) <? BUFFER_SIZE
  then exists rest, make_line buffer header text = Ok (log_line header text ++ NUL :: rest, zlen (log_line header text)) /\
         zlen (log_line header text ++ NUL :: rest) = BUFFER_SIZE
  else make_line buffer header text = Fault OutOfBounds.
Proof.
  intros Hb Hne Hh Hc. destruct (buffer_text buffer header text Hb Hh) as (rest & E & Hlen). unfold make_line.
  destruct (store_text buffer header) as [b|]; [|done]. cbn [obind] in *. rewrite E. cbn [obind]. clear E.
  destruct (exists_last (l := header ++ text)) as (s & x & Es); [by destruct header|].
  assert (zlen header + zlen text = zlen s + 1) as Hs by (apply (f_equal (@length Z)) in Es; rewrite !length_app in Es; cbn in Es; lia).
  assert (log_line header text = s ++ x :: if (x =? LF) || (x =? CR) then [] else [LF]) as El.
  { unfold log_line. rewrite app_assoc, Es. unfold ends_line. rewrite last_snoc, <- app_assoc. done. }
  assert (x <> NUL) as Hx by (rewrite Es in Hc; apply Forall_app in Hc as [_ Hc]; by apply Forall_cons in Hc as [? _]).
  assert (zlen s + 1 < BUFFER_SIZE -> exists rest', header ++ vsnprintf_bytes (BUFFER_SIZE - zlen header) text ++ rest = s ++ x :: NUL :: rest') as Hfit.
  { intros Hlt. exists rest. unfold vsnprintf_bytes. rewrite take_ge by lia. rewrite !app_assoc, Es, <- !app_assoc. done. }
  rewrite El. destruct (Z.lt_ge_cases (zlen s + 1) BUFFER_SIZE) as [Hlt|Hge].
  - destruct (Hfit Hlt) as (rest' & E'). rewrite E' in *. clear Hfit E'. rewrite length_app in Hlen. cbn [length] in Hlen.
    rewrite mem_get_last by lia. cbn [obind]. rewrite Hs. rewrite <- negb_orb.
    destruct ((x =? LF) || (x =? CR)); cbn [negb].
    + rewrite (proj2 (Z.ltb_lt (zlen (s ++ [x])) _)) by (rewrite length_app; cbn [length]; lia). exists rest'.
      rewrite <- app_assoc. cbn [app]. rewrite !length_app. cbn [length]. split; [do 2 f_equal; lia|lia].
    + replace (zlen s + 1 - 1) with (zlen s) by lia. rewrite strcat_end by done.
      destruct (Z.ltb_spec (zlen (s ++ [x; LF])) BUFFER_SIZE) as [Hl|Hg]; rewrite length_app in *; cbn [length] in *.
      * destruct rest' as [|y rest']; [cbn in *; lia|]. exists rest'.
        pose proof (mem_write_mid (s ++ [x]) [NUL; y] [LF; NUL] rest' (zlen s + 1)) as Ew. rewrite <- !app_assoc in Ew. cbn [app] in Ew.
        rewrite Ew by (rewrite ?length_app; cbn; lia). cbn [obind]. rewrite <- app_assoc. cbn [app]. rewrite length_app. cbn [length] in *.
        split; [do 2 f_equal; lia|lia].
      * rewrite mem_write_past; [done|]. rewrite length_app. cbn [length]. lia.
  - rewrite (proj2 (Z.ltb_ge (zlen (s ++ x :: _)) _)) by (rewrite length_app; cbn [length]; lia). clear Hfit.
    set (y := take (Z.to_nat (BUFFER_SIZE - zlen header - 1)) text).
    assert (header ++ vsnprintf_bytes (BUFFER_SIZE - zlen header) text ++ rest = (header ++ y) ++ NUL :: rest) as E
      by (unfold vsnprintf_bytes; fold y; by rewrite <- !app_assoc).
    rewrite E in *. assert (zlen (header ++ y) = BUFFER_SIZE - 1) as Hy by (rewrite length_app; unfold y; rewrite length_take; lia).
    rewrite length_app in Hlen. cbn [length] in Hlen. assert (rest = []) as -> by (destruct rest; [done|cbn in Hlen; lia]).
    destruct (Z.eq_dec (zlen s + 1) BUFFER_SIZE) as [Heq|Hneq].
    + rewrite mem_get_last by lia. cbn [obind Z.eqb NUL LF CR negb andb].
      unfold strcat_newline. replace (Z.to_nat (zlen header + zlen text - 1)) with (length (header ++ y)) by lia.
      rewrite drop_app_length. cbn. rewrite mem_write_past; [done|]. rewrite length_app. cbn [length]. lia.
    + assert (mem_get ((header ++ y) ++ [NUL]) (zlen header + zlen text - 1) = Fault OutOfBounds) as ->; [|done].
      unfold mem_get. rewrite (proj2 (Z.leb_le 0 _)) by lia. rewrite lookup_ge_None_2; [done|]. rewrite length_app. cbn [length]. lia.
Qed.

Lemma printf_plain `{FloatFmt} s rest ap fuel : Forall (fun c => c <> NUL /\ c <> 37) s -> (length s < fuel)%nat ->
  vsprintf_loop fuel (s ++ NUL :: rest) ap = Ok s.
Proof.
  intros Hs. revert fuel. induction Hs as [|c s [H0 H37] _ IH]; intros fuel Hf; (destruct fuel as [|f]; [cbn in Hf; lia|]); [done|].
  cbn [app vsprintf_loop]. apply Z.eqb_neq in H0, H37. rewrite H0, H37, IH by (cbn in Hf; lia). done.
Qed.

Lemma WriteLog_line `{FloatFmt} now iType fmt ap l title header text :
  m_titles !! iType = Some title -> header_text (sy_time now) title = Ok header -> vsprintf fmt ap = Ok text ->
  WriteLog now iType fmt ap l =
    (do* (b, n) := slift (make_line (m_pBuffer l) header text) in
     do* _ := smodify (set_buffer b) in
     do* _ := write_file now b n in
     do* _ := slift (vsprintf b (mkVa [] [])) in
     sret tt) l.
Proof.
  intros Ht Hh Hx. unfold WriteLog, make_line. rewrite (sbind_ok sget _ l l l eq_refl), Ht, sbind_ret, Hh.
  rewrite (sbind_ok (slift (Ok header)) _ l header l eq_refl).
  destruct (store_text (m_pBuffer l) header) as [b|]; [|done]. rewrite (sbind_ok (slift (Ok b)) _ l b l eq_refl). cbv zeta. rewrite Hx.
  rewrite (sbind_ok (slift (Ok text)) _ l text l eq_refl). cbn [obind].
  destruct (mem_write b (zlen header) _) as [b2|]; [|done]. rewrite (sbind_ok (slift (Ok b2)) _ l b2 l eq_refl). cbn [obind].
  destruct (mem_get b2 _) as [c|]; [|done]. rewrite (sbind_ok (slift (Ok c)) _ l c l eq_refl). cbn [obind].
  destruct (negb (c =? LF) && negb (c =? CR)); [|done]. by destruct (strcat_newline b2 _).
Qed.

(** The buffer of a line that fits, appended to the file and about to be printed;
    and one that does not. *)
Lemma WriteLog_written `{FloatFmt} now iType fmt ap l title header text name :
  log_ok l -> sy_opens now = true -> zlen (m_FileList l) < INT_MAX ->
  log_name l (sy_time now) = Ok name -> d_names (g_disk l) !! name = None -> name ∉ m_FileList l ->
  m_titles !! iType = Some title -> header_text (sy_time now) title = Ok header -> vsprintf fmt ap = Ok text ->
  header <> [] -> zlen header < BUFFER_SIZE -> Forall (fun c => c <> NUL) (header ++ text) ->
  if zlen (log_line header text) <? BUFFER_SIZE
  then exists rest l', WriteLog now iType fmt ap l = (do* _ := slift (vsprintf (log_line header text ++ NUL :: rest) (mkVa [] [])) in sret tt) l' /\
         log_ok l' /\ appended (log_line header text) name l l'
  else WriteLog now iType fmt ap l = Fault OutOfBounds.
Proof.
  intros Hok Ho Hmax Hname Hnew Hlist Ht Hh Hx Hne Hlen Hnul. rewrite (WriteLog_line now iType fmt ap l title header text Ht Hh Hx).
  pose proof (make_line_ok (m_pBuffer l) header text (lo_buffer l Hok) Hne Hlen Hnul) as Hline. set (line := log_line header text) in *.
  destruct (Z.ltb_spec (zlen line) BUFFER_SIZE) as [Hlt|Hge]; [|by rewrite (sbind_fault (slift (make_line _ _ _)) _ l OutOfBounds) by (unfold slift; by rewrite Hline)].
  destruct Hline as (rest & E & Eb). set (b := line ++ NUL :: rest) in *.
  assert (log_ok (set_buffer b l)) as Hok' by (destruct Hok; by split).
  assert (wp (write_file now b (zlen line)) (fun _ l' => log_ok l' /\ appended line name l l') (set_buffer b l)) as Hwp.
  { apply (write_file_ok now b (zlen line) (set_buffer b l) name); [done|done|lia|unfold b; rewrite length_app; lia|done|done|done|done|].
    intros l' Hl' Ha. assert (take (Z.to_nat (zlen line)) b = line) as Etake by (rewrite Nat2Z.id; apply take_app_length).
    rewrite Etake in Ha. split; [done|]. destruct Ha as [Ha]. by split. }
  apply wp_returns in Hwp as (ok & l' & E' & Hl' & Ha). exists rest, l'. split; [|done]. fold b.
  rewrite (sbind_ok (slift _) _ l (b, zlen line) l) by (unfold slift; by rewrite E). cbv beta iota.
  rewrite (sbind_ok (smodify _)) with (1 := eq_refl). by run E'.
Qed.

(** C37: A message of the log.  The line of a message is the time, the kind and the
    text, ended by a newline unless the text has one already.  If it is shorter
    than the buffer, exactly this line is appended to the file that is the last
    one of the list and still has its name; every other file of the list is as it
    was or has been deleted from the front of the list, which never falls below
    the minimum that way.  If it is not, the program writes or reads past the end
    of its buffer. *)
Theorem log_message `{FloatFmt} now iType fmt ap l title header text name :
  log_ok l -> sy_opens now = true -> zlen (m_FileList l) < INT_MAX ->
  log_name l (sy_time now) = Ok name -> d_names (g_disk l) !! name = None -> name ∉ m_FileList l ->
  m_titles !! iType = Some title -> header_text (sy_time now) title = Ok header -> vsprintf fmt ap = Ok text ->
  header <> [] -> zlen header < BUFFER_SIZE -> Forall (fun c => c <> NUL /\ c <> 37) (header ++ text) ->
  if zlen (log_line header text) <? BUFFER_SIZE
  then exists l', WriteLog now iType fmt ap l = Ok (tt, l') /\ log_ok l' /\ appended (log_line header text) name l l'
  else WriteLog now iType fmt ap l = Fault OutOfBounds.
Proof.
  intros Hok Ho Hmax Hname Hnew Hlist Ht Hh Hx Hne Hlen Hc.
  assert (Forall (fun c => c <> NUL) (header ++ text)) as Hnul by (eapply Forall_impl; [exact Hc|by intros c []]).
  pose proof (WriteLog_written now iType fmt ap l title header text name Hok Ho Hmax Hname Hnew Hlist Ht Hh Hx Hne Hlen Hnul) as Hw.
  destruct (zlen (log_line header text) <? BUFFER_SIZE); [|done]. destruct Hw as (rest & l' & -> & Hl' & Ha). exists l'. split; [|done].
  rewrite (sbind_ok (slift _) _ l' (log_line header text) l'); [done|]. unfold slift, vsprintf. rewrite printf_plain; [done| |rewrite length_app; lia].
  unfold log_line. rewrite app_assoc. apply Forall_app. split; [done|]. destruct (ends_line _); [apply Forall_nil_2|by apply Forall_singleton].
Qed.

(** * Concrete logs *)

(** Patterns of characters and stars. *)
Fixpoint glob (fuel : nat) (p s : list char) : bool :=
  match fuel with
  | O => false
  | S f =>
      match p, s with
      | [], [] => true
      | 42 :: p', [] => glob f p' []
      | 42 :: p', _ :: s' => glob f p' s || glob f p s'
      | c :: p', d :: s' => (c =? d) && glob f p' s'
      | _, _ => false
      end
  end.
Definition star_match : Fnmatch := fun p s => glob (length p + length s + 1) p s.

Definition demo_disk : disk := mkDisk ∅ ∅ 1 {[lit "./Log"]}.
Definition demo_log : LogData := new_LogData (replicate 4096 NUL) demo_disk.
Definition demo_now (sec : Z) : sysinfo := mkInfoNow 100 0 4096 1000000 0 (mkTm 124 0 31 23 59 sec) true.

Lemma demo_log_ok : log_ok demo_log.
Proof. split; try done; [apply NoDup_nil_2|vm_compute; split; discriminate..]. Qed.

Lemma log_message_witness :
  exists l', @WriteLog no_float (demo_now 7) 2 (lit "lost %s") (mkVa [VPtr (lit "db" ++ [NUL])] []) demo_log = Ok (tt, l') /\ log_ok l' /\
    appended (lit "2024-01-31 23:59:07|Error:lost db" ++ [LF]) (lit "./Log/wlog20240131235907.log") demo_log l'.
Proof.
  apply (@log_message no_float (demo_now 7) 2 (lit "lost %s") (mkVa [VPtr (lit "db" ++ [NUL])] []) demo_log (lit "Error")
    (lit "2024-01-31 23:59:07|Error:") (lit "lost db")); try (vm_compute; reflexivity).
  - apply demo_log_ok.
  - by intros ?%elem_of_nil.
  - discriminate.
  - repeat constructor; discriminate.
Defined.

Definition log_result (r : outcome (unit * LogData)) : option (list (list char * list char)) :=
  match r with
  | Ok (_, l) => Some ((fun n => (n, match d_names (g_disk l) !! n with Some i => default [] (d_contents (g_disk l) !! i) | None => [] end)) <$> m_FileList l)
  | Fault _ => None
  end.

(** The longest message without a newline, and one byte more. *)
Example buffer_overflow :
  bool_decide (is_Some (log_result (@WriteLog no_float (demo_now 0) 0 (replicate 4069 65) (mkVa [] []) demo_log))) = true /\
  @WriteLog no_float (demo_now 0) 0 (replicate 4070 65) (mkVa [] []) demo_log = Fault OutOfBounds.
Proof. split; vm_compute; reflexivity. Qed.

(** A message with a percent sign is read as a format when it is printed. *)
Example percent_in_message :
  @WriteLog no_float (demo_now 0) 0 (lit "%s") (mkVa [VPtr (lit "LIKE '%s'" ++ [NUL])] []) demo_log = Fault BadVararg.
Proof. vm_compute. reflexivity. Qed.

(** Two files of the same second have one name: the first loses its text, and the
    name is twice in the list. *)
Example same_second_truncates :
  log_result ((do* _ := @WriteLog no_float (demo_now 0) 0 (lit "first") (mkVa [] []) in
               do* _ := smodify (set_log_size 600000) in
               @WriteLog no_float (demo_now 0) 0 (lit "second") (mkVa [] [])) demo_log) =
    Some [(lit "./Log/wlog20240131235900.log", lit "2024-01-31 23:59:00|Info:second" ++ [LF]);
          (lit "./Log/wlog20240131235900.log", lit "2024-01-31 23:59:00|Info:second" ++ [LF])].
Proof. vm_compute. reflexivity. Qed.

(** The files of earlier runs are found by the name of the program, and not when
    it was started with a path. *)
Definition files_found (program : list char) : option (list (list char)) :=
  match @Init star_match (Some (lit "./Log")) (Some program) 10 1000 1024 true (Some [lit "old.txt"; lit "server_808020240131235900.log"]) demo_log with
  | Ok (_, l) => Some (m_FileList l)
  | Fault _ => None
  end.
Example earlier_files :
  files_found (lit "server_8080") = Some [lit "./Log/server_808020240131235900.log"] /\ files_found (lit "./server_8080") = Some [].
Proof. split; vm_compute; reflexivity. Qed.
