(* ===== verification/LogCallSpec.v ===== *)
(** What the messages of the other components do to the log: [log_call] is what
    [WriteLog] does with the text of a message, and the messages of the parser and
    of the MySQL clients are what their formats give. *)

From stdpp Require Import base tactics sets list numbers strings gmap.
From Stdlib Require Import ZArith Lia.
From S2P Require Import Prelude StateMonad Printf LogCall Text Http HttpSpec RecordSetSpec SqlClient SqlTextSpec Records Common Log LogSpec.

Local Open Scope Z_scope.

(** * A text that is used as a format *)

Section percent.
Context (rest : list char).

(** The parsers of a conversion stop at the end of the text as at a NUL. *)
Definition stops_at {A} (f : list char -> A * list char) : Prop :=
  forall s, exists a pre s', f s = (a, s') /\ s = pre ++ s' /\ f (s ++ NUL :: rest) = (a, s' ++ NUL :: rest).

Lemma parse_flags_stops a b c d e : stops_at (fun s => parse_flags s a b c d e).
Proof.
  intros s. revert a b c d e. induction s as [|x s IH]; intros a b c d e.
  { eexists _, [], []. split_and!; done. }
  assert (forall a b c d e, exists r pre s', parse_flags s a b c d e = (r, s') /\ x :: s = pre ++ s' /\
    parse_flags (s ++ NUL :: rest) a b c d e = (r, s' ++ NUL :: rest)) as Hr.
  { clear a b c d e. intros a b c d e. destruct (IH a b c d e) as (r & pre & s' & E & Es & E'). exists r, (x :: pre), s'. cbn [app]. by rewrite <- Es. }
  cbn [parse_flags app].
  destruct (x =? 35); [apply Hr|]. destruct (x =? 48); [apply Hr|]. destruct (x =? 45); [apply Hr|].
  destruct (x =? 32); [apply Hr|]. destruct (x =? 43); [apply Hr|]. eexists _, [], (x :: s). by split_and!.
Qed.

Lemma parse_num_stops v : stops_at (fun s => parse_num s v).
Proof.
  intros s. revert v. induction s as [|x s IH]; intros v.
  { eexists _, [], []. split_and!; done. }
  cbn [parse_num app]. destruct (isdigit x).
  - destruct (IH (v * 10 + (x - 48))) as (r & pre & s' & -> & -> & ->). eexists r, (x :: pre), s'. by split_and!.
  - eexists _, [], (x :: s). by split_and!.
Qed.

Lemma parse_prec_stops : stops_at parse_prec.
Proof.
  intros s. destruct s as [|x s]; [eexists _, [], []; split_and!; done|]. cbn [parse_prec app]. destruct (x =? 46).
  - destruct (parse_num_stops 0 s) as (r & pre & s' & -> & -> & ->). eexists _, (x :: pre), s'. by split_and!.
  - eexists _, [], (x :: s). by split_and!.
Qed.

(** The length modifiers by tests. *)
Lemma parse_len_tests s : parse_len s =
  match s with
  | x :: s1 =>
      if x =? 104 then match s1 with y :: s2 => if y =? 104 then (LChar, s2) else (LShort, s1) | [] => (LShort, s1) end
      else if x =? 108 then match s1 with y :: s2 => if y =? 108 then (LLong, s2) else (LLong, s1) | [] => (LLong, s1) end
      else if x =? 122 then (LLong, s1) else (LNone, s)
  | [] => (LNone, s)
  end.
Proof.
  destruct s as [|x s1]; [done|]. destruct (Z.eqb_spec x 104) as [->|H1]; [|destruct (Z.eqb_spec x 108) as [->|H2]; [|destruct (Z.eqb_spec x 122) as [->|H3]; [done|]]].
  - destruct s1 as [|y s2]; [done|]. destruct (Z.eqb_spec y 104) as [->|H]; [done|]. unfold parse_len. 
    destruct y as [|p|p]; try done. do 7 (destruct p as [p|p|]; try done).
  - destruct s1 as [|y s2]; [done|]. destruct (Z.eqb_spec y 108) as [->|H]; [done|]. unfold parse_len.
    destruct y as [|p|p]; try done. do 7 (destruct p as [p|p|]; try done).
  - unfold parse_len. destruct x as [|p|p]; try done. do 7 (destruct p as [p|p|]; try done).
Qed.

Lemma parse_len_stops : stops_at parse_len.
Proof.
  intros s. rewrite !parse_len_tests. destruct s as [|x s1]; [eexists _, [], []; split_and!; done|]. cbn [app].
  destruct (x =? 104); [|destruct (x =? 108); [|destruct (x =? 122); [by eexists _, [x], s1|by eexists _, [], (x :: s1)]]];
    (destruct s1 as [|y s2]; [by eexists _, [x], []|]; cbn [app]; destruct (y =? _); [by eexists _, [x; y], s2|by eexists _, [x], (y :: s2)]).
Qed.

Lemma parse_spec_stops s : NUL ∉ s ->
  match parse_spec s with
  | Some (sp, r) => parse_spec (s ++ NUL :: rest) = Some (sp, r ++ NUL :: rest) /\ fs_conv sp <> NUL /\ exists pre, s = pre ++ r /\ pre <> []
  | None => exists sp r, parse_spec (s ++ NUL :: rest) = Some (sp, r) /\ fs_conv sp = NUL
  end.
Proof.
  intros Hs. unfold parse_spec.
  destruct (parse_flags_stops false false false false false s) as (fl & p1 & s1 & E1 & -> & E1'). cbv beta in E1, E1'. rewrite E1, E1'. destruct fl as [[[[? ?] ?] ?] ?].
  destruct (parse_num_stops 0 s1) as (w & p2 & s2 & E2 & -> & E2'). cbv beta in E2, E2'. rewrite E2, E2'.
  destruct (parse_prec_stops s2) as (pr & p3 & s3 & -> & -> & ->). destruct (parse_len_stops s3) as (ln & p4 & s4 & -> & -> & ->).
  destruct s4 as [|conv r]; cbn [app]; [by eexists _, _|]. cbn [fs_conv]. split; [done|]. split.
  - intros ->. apply Hs. rewrite !elem_of_app. do 4 right. by left.
  - exists (p1 ++ p2 ++ p3 ++ p4 ++ [conv]). split; [by rewrite <- !app_assoc|]. intros E. apply (f_equal length) in E. rewrite !length_app in E. cbn in E. lia.
Qed.

(** A conversion without arguments. *)
Lemma fmt_conv_none `{FloatFmt} sp : fmt_conv sp (mkVa [] []) = if fs_conv sp =? 37 then Ok ([37], mkVa [] []) else Fault BadVararg.
Proof.
  unfold fmt_conv. destruct (fs_conv sp =? 37); [done|].
  repeat match goal with |- context [if ?b then _ else _] => destruct b; [done|] end. done.
Qed.

Lemma vsprintf_stops `{FloatFmt} f1 f2 s : NUL ∉ s -> (length s < f1)%nat -> (length s < f2)%nat ->
  vsprintf_loop f1 (s ++ NUL :: rest) (mkVa [] []) = @vsprintf_loop no_float f2 s (mkVa [] []).
Proof.
  revert f2 s. induction f1 as [|f1 IH]; intros f2 s Hs H1 H2; [lia|]. destruct f2 as [|f2]; [lia|]. destruct s as [|c s]; [done|].
  apply not_elem_of_cons in Hs as [Hc Hs]. cbn [length] in H1, H2. cbn [app vsprintf_loop]. rewrite (proj2 (Z.eqb_neq c NUL)) by done.
  destruct (c =? 37).
  - pose proof (parse_spec_stops s Hs) as Hp. destruct (parse_spec s) as [[sp r]|].
    + destruct Hp as (-> & _ & pre & -> & Hne). rewrite !fmt_conv_none. destruct (fs_conv sp =? 37); [|done].
      assert (0 < length pre)%nat by (destruct pre; [done|cbn; lia]). rewrite length_app in H1, H2.
      rewrite (IH f2 r); [done| |lia|lia]. intros Hr. apply Hs. apply elem_of_app. by right.
    + destruct Hp as (sp & r & -> & Hn). rewrite fmt_conv_none, Hn. done.
  - by rewrite (IH f2 s) by (done || lia).
Qed.
End percent.

(** A text without percent signs before it makes no difference. *)
Lemma vsprintf_line `{FloatFmt} rest pre s fuel : Forall (fun c => c <> NUL /\ c <> 37) pre -> NUL ∉ s -> (length (pre ++ s) < fuel)%nat ->
  vsprintf_loop fuel (pre ++ s ++ NUL :: rest) (mkVa [] []) = (let! t := sprintf s [] in Ok (pre ++ t)).
Proof.
  intros Hpre Hs. revert fuel. induction Hpre as [|c pre [H0 H37] _ IH]; intros fuel Hf.
  - cbn [app] in *. rewrite (vsprintf_stops rest fuel (S (length s)) s) by (done || lia). unfold sprintf, vsprintf. by destruct (vsprintf_loop _ s _).
  - destruct fuel as [|f]; [cbn in Hf; lia|]. cbn [app vsprintf_loop]. apply Z.eqb_neq in H0, H37. rewrite H0, H37. rewrite IH by (cbn in Hf; lia).
    by destruct (sprintf s []).
Qed.

(** * The log *)

(** A log that is in order, its clock and its file system. *)
Record log_ready (now : sysinfo) (l : LogData) (header name : list char) : Prop := {
  lr_log : log_ok l;
  lr_opens : sy_opens now = true;
  lr_files : zlen (m_FileList l) < INT_MAX;
  lr_name : log_name l (sy_time now) = Ok name /\ d_names (g_disk l) !! name = None /\ name ∉ m_FileList l;
  lr_header : header_text (sy_time now) (lit "Error") = Ok header /\ zlen header = ERROR_HEADER /\ ends_line header = false;
  lr_plain : Forall (fun c => c <> NUL /\ c <> 37) header
}.

(** The call with this format and these arguments does what [log_call] says of the
    text: the line is appended to the last file, or the process goes wrong. *)
Definition logged `{FloatFmt} (fmt : list char) (ap : va_list) (text : list char) : Prop :=
  forall now l header name, log_ready now l header name ->
  match log_call text with
  | Ok _ => exists l', WriteLog now 2 fmt ap l = Ok (tt, l') /\ log_ok l' /\ appended (header ++ with_newline text) name l l'
  | Fault f => WriteLog now 2 fmt ap l = Fault f
  end.

Lemma logged_ok `{FloatFmt} fmt ap text : vsprintf fmt ap = Ok text -> NUL ∉ text -> logged fmt ap text.
Proof.
  intros Hx Ht now l header name [Hok Ho Hmax (Hname & Hnew & Hlist) (Hh & Hlen & He) Hc].
  assert (header <> []) as Hne by (intros ->; done).
  assert (log_line header text = header ++ with_newline text) as El.
  { unfold log_line, with_newline. f_equal. f_equal. unfold ends_line in *. rewrite last_app. destruct (last text); [done|]. by rewrite He. }
  assert (NUL ∉ with_newline text) as Hn.
  { unfold with_newline. rewrite elem_of_app. intros [?|Hin]; [done|]. destruct (ends_line text); [by apply elem_of_nil in Hin|by apply list_elem_of_singleton in Hin]. }
  assert (Forall (fun c => c <> NUL) (header ++ text)) as Hnul.
  { apply Forall_app. split; [by eapply Forall_impl; [exact Hc|by intros c []]|]. apply Forall_forall. intros c Hin ->. done. }
  pose proof (WriteLog_written now 2 fmt ap l (lit "Error") header text name Hok Ho Hmax Hname Hnew Hlist eq_refl Hh Hx Hne
    ltac:(by rewrite Hlen) Hnul) as Hw.
  rewrite El in Hw. unfold log_call, log_fits. rewrite length_app, Nat2Z.inj_add, Hlen in Hw. change BUFFER_SIZE with LOG_BUFFER in Hw.
  destruct (_ <? LOG_BUFFER); [|done]. destruct Hw as (rest & l' & -> & Hl' & Ha).
  assert (vsprintf ((header ++ with_newline text) ++ NUL :: rest) (mkVa [] []) = (let! t := sprintf (with_newline text) [] in Ok (header ++ t))) as Ep.
  { unfold vsprintf. rewrite <- app_assoc. apply vsprintf_line; [done|done|]. rewrite !length_app. cbn [length]. lia. }
  destruct (sprintf (with_newline text) []) as [t|f] eqn:E; cbn [obind] in *.
  - exists l'. split; [|done]. rewrite (sbind_ok (slift _) _ l' (header ++ t) l'); [done|]. unfold slift. by rewrite Ep.
  - apply sbind_fault. unfold slift. by rewrite Ep.
Qed.

(** The text of a format whose conversions are all [%s]. *)
Lemma logged_strings `{FloatFmt} fmt n (ps : list (list char)) :
  holes fmt = Some n -> (n <= length ps)%nat -> logged fmt (mkVa (VPtr <$> ps) []) (substitute fmt (cstring <$> ps)).
Proof.
  intros Hh Hn. apply logged_ok.
  - unfold vsprintf. by rewrite (sprintf_substitute fmt n) by (done || lia).
  - intros Hin. assert (clean (substitute fmt (cstring <$> ps))) as Hc.
    { eapply substitute_clean; [done|]. apply Forall_fmap, Forall_true. intros s. apply cstring_no_nul. }
    unfold clean in Hc. rewrite Forall_forall in Hc. by apply (Hc NUL).
Qed.

(** * The parser *)

Definition LINE_FORMAT : list char := lit "CHttpParse::parse_line_data_type::parse_line::error, keys = %s, str = %s" ++ [LF].
Definition REQUEST_FORMAT : list char := lit "CHttpParse::parse_request::parse_line_data_type::error!" ++ [LF].

(** [%s] of a [std::string]. *)
Definition string_args (args : list (list char)) : va_list := mkVa (VPtr <$> ((fun s => s ++ [NUL]) <$> args)) [].

Lemma logged_line `{FloatFmt} keys str : logged LINE_FORMAT (string_args [keys; str]) (line_error keys str).
Proof.
  assert (line_error keys str = substitute LINE_FORMAT (cstring <$> [keys ++ [NUL]; str ++ [NUL]])) as ->.
  - cbn [fmap list_fmap]. rewrite !cstring_stop. unfold line_error. generalize (cstring keys) (cstring str). intros k v. vm_compute. reflexivity.
  - apply (logged_strings LINE_FORMAT 2 [keys ++ [NUL]; str ++ [NUL]]); [vm_compute; reflexivity|cbn; lia].
Qed.

Lemma logged_request `{FloatFmt} : logged REQUEST_FORMAT (string_args []) request_error.
Proof. apply (logged_strings REQUEST_FORMAT 0 []); [vm_compute; reflexivity|cbn; lia]. Qed.

(** * The clients of MySQL *)

Definition REFUSED_FORMAT : list char := lit "CSqlClient::ExecSqlCmd::mysql_query::%s==>%d: %s !" ++ [LF].
Definition INSERT_FORMAT : list char :=
  lit "CRcdLogClient::ProccessTargetKey::else-->RecordToMysql::failed!,strInKey = %s, sql = %s" ++ [LF].
Definition UPDATE_FORMAT : list char :=
  lit "CRcdLogClient::ProccessTargetKey::if-->RecordToMysql::failed!,strInKey = %s, sql = %s" ++ [LF].

(** What stands before a conversion is copied. *)
Lemma vsprintf_skip `{FloatFmt} pre s f ap : Forall (fun c => c <> NUL /\ c <> 37) pre ->
  vsprintf_loop (length pre + f) (pre ++ s) ap = (let! t := vsprintf_loop f s ap in Ok (pre ++ t)).
Proof.
  induction 1 as [|c pre [H0 H37] _ IH]; cbn [length Nat.add app vsprintf_loop]; [by destruct (vsprintf_loop f s ap)|].
  apply Z.eqb_neq in H0, H37. rewrite H0, H37, IH. by destruct (vsprintf_loop f s ap).
Qed.

Lemma vsprintf_hole `{FloatFmt} s f p gp :
  vsprintf_loop (S f) (37 :: 115 :: s) (mkVa (VPtr p :: gp) []) = (let! t := vsprintf_loop f s (mkVa gp []) in Ok (cstring p ++ t)).
Proof. cbn [vsprintf_loop]. destruct (hole_spec s (mkVa (VPtr p :: gp) []) p gp eq_refl) as [E1 E2]. cbn [Z.eqb Pos.eqb NUL]. by rewrite E1, E2. Qed.

Lemma vsprintf_int `{FloatFmt} s f z gp :
  vsprintf_loop (S f) (37 :: 100 :: s) (mkVa (VNum z :: gp) []) = (let! t := vsprintf_loop f s (mkVa gp []) in Ok (dec_signed (int z) ++ t)).
Proof. rewrite <- fmt_int. reflexivity. Qed.

Lemma refused_format `{FloatFmt} sql errno error :
  vsprintf REFUSED_FORMAT (mkVa [VPtr sql; VNum errno; VPtr error] []) = Ok (refused_text sql errno error).
Proof.
  unfold vsprintf. change (S (length REFUSED_FORMAT)) with (length (lit "CSqlClient::ExecSqlCmd::mysql_query::") + S (3 + S (2 + S 7)))%nat.
  change REFUSED_FORMAT with (lit "CSqlClient::ExecSqlCmd::mysql_query::" ++ 37 :: 115 :: lit "==>" ++ 37 :: 100 :: lit ": " ++ 37 :: 115 :: lit " !" ++ [LF]).
  assert (forall s, bool_decide (Forall (fun c => c <> NUL /\ c <> 37) s) = true -> Forall (fun c => c <> NUL /\ c <> 37) s) as Hd.
  { intros s Hs. by apply bool_decide_eq_true in Hs. }
  rewrite vsprintf_skip, vsprintf_hole by (by apply Hd).
  rewrite (vsprintf_skip (lit "==>")), vsprintf_int by (by apply Hd).
  rewrite (vsprintf_skip (lit ": ")), vsprintf_hole by (by apply Hd).
  done.
Qed.

Lemma logged_refused `{FloatFmt} sql errno error :
  logged REFUSED_FORMAT (mkVa [VPtr sql; VNum errno; VPtr error] []) (refused_text sql errno error).
Proof.
  apply logged_ok; [apply refused_format|]. assert (clean (refused_text sql errno error)) as Hc.
  { unfold refused_text, clean. rewrite !Forall_app. split_and!; try apply cstring_no_nul; try apply dec_signed_clean; by apply (bool_decide_eq_true_1 _). }
  unfold clean in Hc. rewrite Forall_forall in Hc. intros Hin. by apply (Hc NUL).
Qed.

Lemma logged_insert `{FloatFmt} key sql : logged INSERT_FORMAT (string_args [key; sql]) (insert_failed (lit "else") key sql).
Proof.
  assert (insert_failed (lit "else") key sql = substitute INSERT_FORMAT (cstring <$> [key ++ [NUL]; sql ++ [NUL]])) as ->.
  - cbn [fmap list_fmap]. rewrite !cstring_stop. unfold insert_failed. generalize (cstring key) (cstring sql). intros k v. vm_compute. reflexivity.
  - apply (logged_strings INSERT_FORMAT 2 [key ++ [NUL]; sql ++ [NUL]]); [vm_compute; reflexivity|cbn; lia].
Qed.


Definition percent_data : list char := lit "X-Id: a%sb" ++ CRLF ++ CRLF.


(** The header of the witness makes [printf] read an argument that is not there. *)
Example percent_header : log_call (line_error (lit "X-ID") (lit "a%sb")) = Fault BadVararg.
Proof. vm_compute. reflexivity. Qed.
