(* ===== verification/Main.v ===== *)
(** Start-up (main.cpp) and the main event base (CMainEventBase.cpp) on Linux, and
    on Windows up to its event loop:
    the log, the configuration and the services are set up in turn, then the
    server listens and hands every connection to a thread.

    The singletons are the state of the process; [exit] ends it.  What the
    system answers in this phase is an argument. *)

From stdpp Require Import base tactics list numbers strings gmap.
From S2P Require Import Prelude StateMonad Machine Printf Net Text Common Config Request Connection SqlService RedisService Log.

Local Open Scope Z_scope.

(** * The main event base *)

Record CMainEventBase := mkMainBase {
  m_listenerFd : Z;
  m_listenerport : option Z;
  m_isInited : bool;
  m_pEventBaseMgr : option (Z * list LibEvThread)
}.

Definition new_CMainEventBase : CMainEventBase := mkMainBase (-1) None false None.

(** The answers of the system while the server is set up. *)
Record sysstart := mkStart {
  ss_file : option (list char);
  ss_mkdir : bool;
  ss_found : option (list (list char));
  ss_now : sysinfo;
  ss_threads : list newthread;
  ss_socket : Z; ss_bind : Z; ss_listen : Z;
  ss_pids : list Z;
  ss_accepts : list (Z * bool)
}.

(** [OnInit(iPort, iThNum)]: the constructor of [CEventBaseMgr] makes the
    threads' pipes and bases. *)
Definition main_OnInit (iPort iThNum : Z) (sys : sysstart) (this : CMainEventBase) : outcome (bool * CMainEventBase) :=
  let! ts := LibEvInit iThNum (ss_threads sys) in
  let '(listener, _) := TcpInit (ss_socket sys) (ss_bind sys) (ss_listen sys) in
  let isInited := bool_decide (is_Some listener) in
  Ok (isInited, mkMainBase (default (m_listenerFd this) listener) (Some iPort) isInited (Some (iThNum, ts))).

(** [OnStart]: the threads are started and connections accepted for ever; the
    result is the state after [ss_accepts] have been. *)
Definition main_OnStart (sys : sysstart) (this : CMainEventBase) : outcome CMainEventBase :=
  if m_listenerFd this =? -1 then Fault Exited
  else
    match m_pEventBaseMgr this with
    | None => Fault NullDeref
    | Some (n, ts) =>
        let ts := Connection.OnStart (ss_pids sys) ts in
        let! ts := DoAccept n (ss_accepts sys) ts in
        Ok (mkMainBase (m_listenerFd this) (m_listenerport this) (m_isInited this) (Some (n, ts)))
    end.

(** * The process *)

Record process := mkProcess {
  p_config : CConfiger;
  p_log : LogData;
  p_table : list char;
  p_sql : sqlservice;
  p_redis : service;
  p_main : CMainEventBase
}.
Abbreviation PM := (SM process).

Definition set_p_config x p := mkProcess x (p_log p) (p_table p) (p_sql p) (p_redis p) (p_main p).
Definition set_p_log x p := mkProcess (p_config p) x (p_table p) (p_sql p) (p_redis p) (p_main p).
Definition set_p_table x p := mkProcess (p_config p) (p_log p) x (p_sql p) (p_redis p) (p_main p).
Definition set_p_sql x p := mkProcess (p_config p) (p_log p) (p_table p) x (p_redis p) (p_main p).
Definition set_p_redis x p := mkProcess (p_config p) (p_log p) (p_table p) (p_sql p) x (p_main p).
Definition set_p_main x p := mkProcess (p_config p) (p_log p) (p_table p) (p_sql p) (p_redis p) x.

(** A method of one of the parts. *)
Definition on_part {S A} (get : process -> S) (set : S -> process -> process) (m : SM S A) : PM A := fun p =>
  match m (get p) with Ok (a, s) => Ok (a, set s p) | Fault f => Fault f end.

Section main.
Context `{Strerror} `{FloatFmt} `{Fnmatch}.

(** The manager of the requests has nothing to give back yet, and the deleted
    singletons are not used again. *)
Definition SingletonUnInit : PM unit :=
  do* _ := on_part p_redis set_p_redis delete_CRedisServiceMgr in
  on_part p_sql set_p_sql delete_CSqlServiceMgr.

(** OpenSSL has no state here. *)
Definition SystemInit (sys : sysstart) : PM unit :=
  do* ok := on_part p_config set_p_config (Config.OnInit (ss_file sys)) in
  if negb ok then
    do* _ := SingletonUnInit in
    scrash Exited
  else
    do* p := sget in
    do* table := slift (initBase64 (p_table p)) in
    do* _ := smodify (set_p_table table) in
    do* _ := on_part p_sql set_p_sql (sql_service_OnInit (p_config p)) in
    do* _ := on_part p_redis set_p_redis (service_OnInit (p_config p)) in
    sret tt.

Definition LISTEN_PORT : Z := 8080.
Definition LOG_DIR : list char := lit "./SealServerLog".

(** [sprintf(buffer, "%s_%d", argv[0], iListenerPort)] in [char buffer[32]]. *)
Definition log_file_name (argv0 : list char) (iListenerPort : Z) : outcome (list char) :=
  let! text := sprintf (lit "%s_%d") [VPtr (argv0 ++ [NUL]); VNum iListenerPort] in
  let! buffer := store_text (replicate 32 NUL) text in
  Ok (cstring buffer).

Definition START_SSL : list char := lit "*******************Server Start enable_ssl!********************" ++ [LF].
Definition START_PLAIN : list char := lit "*******************Server Start disenable_ssl!********************" ++ [LF].

(** [main] returns 0 when the server cannot listen; otherwise it serves: the
    result says which. *)
Definition main (argv0 : list char) (argv1 : option (list char)) (sys : sysstart) : PM bool :=
  let iListenerPort := match argv1 with Some a => atoi a | None => LISTEN_PORT end in
  do* name := slift (log_file_name argv0 iListenerPort) in
  do* _ := on_part p_log set_p_log (Init (Some LOG_DIR) (Some name) 10 1000 1024 (ss_mkdir sys) (ss_found sys)) in
  do* _ := smodify (set_p_main new_CMainEventBase) in
  do* _ := SystemInit sys in
  do* p := sget in
  do* _ := on_part p_log set_p_log
             (WriteLog (ss_now sys) 0 (if m_isEnablessl (p_config p) then START_SSL else START_PLAIN) (mkVa [] [])) in
  do* (ok, base) := slift (main_OnInit iListenerPort (m_threads (p_config p)) sys (p_main p)) in
  do* _ := smodify (set_p_main base) in
  if ok : bool then
    do* base := slift (main_OnStart sys base) in
    do* _ := smodify (set_p_main base) in
    sret true
  else sret false.

(** ** Windows *)

(** [WSAStartup] must answer [NO_ERROR]. *)
Definition NO_ERROR : Z := 0.
Definition win_SystemInit (iResult : Z) (sys : sysstart) : PM unit :=
  do* _ := SystemInit sys in
  if negb (iResult =? NO_ERROR) then scrash Exited else sret tt.

(** [OnInit] without the manager of the threads. *)
Definition win_OnInit (iPort : Z) (sys : sysstart) (this : CMainEventBase) : bool * CMainEventBase :=
  let '(listener, _) := TcpInit (ss_socket sys) (ss_bind sys) (ss_listen sys) in
  let isInited := bool_decide (is_Some listener) in
  (isInited, mkMainBase (default (m_listenerFd this) listener) (Some iPort) isInited None).

(** [main] up to [OnWindowsStart]; the port of the command line only names the log. *)
Definition win_main (argv0 : list char) (argv1 : option (list char)) (iResult : Z) (sys : sysstart) : PM bool :=
  let iListenerPort := match argv1 with Some a => atoi a | None => LISTEN_PORT end in
  do* name := slift (log_file_name argv0 iListenerPort) in
  do* _ := on_part p_log set_p_log (Init (Some LOG_DIR) (Some name) 10 1000 1024 (ss_mkdir sys) (ss_found sys)) in
  do* _ := smodify (set_p_main new_CMainEventBase) in
  do* _ := win_SystemInit iResult sys in
  do* p := sget in
  do* _ := on_part p_log set_p_log
             (WriteLog (ss_now sys) 0 (if m_isEnablessl (p_config p) then START_SSL else START_PLAIN) (mkVa [] [])) in
  let '(ok, base) := win_OnInit LISTEN_PORT sys (p_main p) in
  do* _ := smodify (set_p_main base) in
  sret ok.
End main.
