(* ===== verification/MainSpec.v ===== *)
(** Start-up: the name of the log fits only short program names, a configuration
    that cannot be read ends the process before any connection is made. *)

From stdpp Require Import base tactics list numbers strings gmap.
From S2P Require Import Prelude StateMonad Machine Printf Format Net Text Common Config Request Connection RedisService.
From S2P Require Import SqlClient SqlClientSpec SqlService Log LogSpec SqlTextSpec Main.

Local Open Scope Z_scope.

#[local] Arguments fmt_signed : simpl never.

Lemma sprintf_name argv0 port : INT_MIN <= port <= INT_MAX ->
  sprintf (lit "%s_%d") [VPtr (argv0 ++ [NUL]); VNum port] = Ok (cstring argv0 ++ lit "_" ++ dec_signed port).
Proof.
  intros Hp. unfold sprintf, vsprintf.
  destruct ((@hole_spec no_float) [95; 37; 100] (mkVa [VPtr (argv0 ++ [NUL]); VNum port] []) (argv0 ++ [NUL]) _ eq_refl) as [E1 E2].
  change (lit "%s_%d") with [37; 115; 95; 37; 100]. cbn [length vsprintf_loop Z.eqb Pos.eqb]. change (37 =? NUL) with false. cbv iota.
  rewrite E1, E2, cstring_stop. cbn. by rewrite fmt_int, int_id, app_nil_r.
Qed.

(** The text fits the 32 bytes of the buffer, or is written past its end. *)
Lemma log_file_name_ok argv0 port : INT_MIN <= port <= INT_MAX ->
  log_file_name argv0 port =
    let name := cstring argv0 ++ lit "_" ++ dec_signed port in if zlen name <? 32 then Ok name else Fault OutOfBounds.
Proof.
  intros Hp. unfold log_file_name. rewrite sprintf_name by done. cbn [obind]. set (name := _ ++ _). cbv zeta. unfold store_text.
  assert (clean name) as Hc.
  { apply Forall_app. split; [apply RecordSetSpec.cstring_no_nul|]. apply Forall_cons_2; [done|]. apply dec_signed_clean. }
  clearbody name. destruct (Z.ltb_spec (zlen name) 32) as [Hlt|Hge].
  - destruct (split_region (replicate 32 NUL) (zlen name + 1)) as (u & v & -> & Hu); [rewrite length_replicate; lia|].
    rewrite (mem_write_mid [] u (name ++ [NUL]) v) by (rewrite ?length_app; cbn; lia). cbn [obind app].
    rewrite <- app_assoc. cbn [app]. by rewrite cstring_stop, cstring_clean.
  - rewrite mem_write_past; [done|]. rewrite length_replicate, length_app. cbn. lia.
Qed.

(** * Starting *)

Definition fresh_process (w : world) (q : mysqlw) (l : LogData) (table : list char) : process :=
  mkProcess new_CConfiger l table (new_CSqlServiceMgr q) (new_CRedisServiceMgr w) new_CMainEventBase.

(** Without a configuration the process ends before it asks any server. *)
Lemma no_config_exits `{Strerror} `{FloatFmt} sys w q l table : ss_file sys = None ->
  SystemInit sys (fresh_process w q l table) = Fault Exited.
Proof.
  intros E. unfold SystemInit. rewrite E. rewrite (sbind_ok _ _ _ false (fresh_process w q l table)) by reflexivity. cbn [negb].
  assert (exists p, SingletonUnInit (fresh_process w q l table) = Ok (tt, p)) as [p E2] by (eexists; reflexivity). by run E2.
Qed.

(** On Windows the server listens on its own port, whatever the command line says. *)
Lemma win_main_port `{Strerror} `{FloatFmt} `{Fnmatch} argv0 argv1 iResult sys p ok p' :
  win_main argv0 argv1 iResult sys p = Ok (ok, p') -> m_listenerport (p_main p') = Some LISTEN_PORT.
Proof.
  assert (forall {A} (m : PM A) (k : A -> PM bool) q, sbind m k q = Ok (ok, p') -> exists a q', k a q' = Ok (ok, p')) as step.
  { intros A m k q. unfold sbind. destruct (m q) as [[a q']|]; [eauto|done]. }
  unfold win_main. intros E. do 6 (apply step in E as (? & ? & E)). unfold win_OnInit in E. destruct (TcpInit _ _ _) as [listener closed].
  by injection E as _ <-.
Qed.

(** A server for two threads: it listens on its port and hands the descriptor 9 to
    the second thread. *)
Definition demo_sys : sysstart :=
  mkStart None true None (demo_now 0) [mkNew 0 3 4 100; mkNew 0 5 6 101] 7 0 0 [1; 2] [(8, true); (-1, true); (9, true)].

Definition served (iThNum : Z) (sys : sysstart) : option (option Z * Z * list (list char)) :=
  match (let! (_, base) := main_OnInit 9000 iThNum sys new_CMainEventBase in main_OnStart sys base) with
  | Ok base => Some (m_listenerport base, m_listenerFd base, match m_pEventBaseMgr base with Some (_, ts) => th_pipe <$> ts | None => [] end)
  | Fault _ => None
  end.

Example server_starts : served 2 demo_sys = Some (Some 9000, 7, [int_bytes 8; int_bytes 9]).
Proof. vm_compute. reflexivity. Qed.

(** A configuration with no threads: the first connection divides
    by zero. *)
Example no_threads : served 0 demo_sys = None.
Proof. vm_compute. reflexivity. Qed.

(** The program in a directory with a long name. *)
Example long_program_name : log_file_name (lit "/opt/seal/MainServer/bin/server") 8080 = Fault OutOfBounds.
Proof. vm_compute. reflexivity. Qed.
