(* ===== verification/Adapters.v ===== *)
(** The adapters of hiredis (adapters/ae.h, adapters/libev.h,
    adapters/libevent.h): they fill the hooks of an asynchronous context, and ask
    an event loop to watch its descriptor.

    The event loops are libraries: a loop is a parameter that can be asked to
    watch a descriptor for reading or for writing and to stop, each of which may
    fail, and asked what it watches.  An adapter is the container it allocates,
    [None] once it is freed. *)

From stdpp Require Import base tactics list numbers gmap.
From S2P Require Import Prelude StateMonad Machine Reply.

Local Open Scope Z_scope.

Inductive direction := Readable | Writable.
#[export] Instance direction_eq_dec : EqDecision direction.
Proof. solve_decision. Defined.

(** * Event loops *)

(** [aeCreateFileEvent], [ev_io_start], [event_add]; [aeDeleteFileEvent],
    [ev_io_stop], [event_del]; and the loop that reports a descriptor of an event
    that is not persistent.  A number that is not 0 is a failure. *)
Class EventLoop (L : Type) := {
  el_watches : L -> Z -> direction -> bool;
  el_start : Z -> direction -> L -> Z * L;
  el_stop : Z -> direction -> L -> Z * L;
  el_report : Z -> direction -> L -> L
}.

Definition stopped_watching {L} `{EventLoop L} (fd : Z) (d : direction) (l l' : L) : Prop :=
  forall fd' d', el_watches l' fd' d' = negb (bool_decide (fd = fd' /\ d = d')) && el_watches l fd' d'.
Definition started_watching {L} `{EventLoop L} (fd : Z) (d : direction) (l l' : L) : Prop :=
  forall fd' d', el_watches l' fd' d' = bool_decide (fd = fd' /\ d = d') || el_watches l fd' d'.

(** What the documentation of all three says: a call that fails changes nothing. *)
Class EventLoopLaws (L : Type) `{EventLoop L} := {
  el_start_ok l fd d : if (el_start fd d l).1 =? 0 then started_watching fd d l (el_start fd d l).2
                       else forall fd' d', el_watches (el_start fd d l).2 fd' d' = el_watches l fd' d';
  el_stop_ok l fd d : if (el_stop fd d l).1 =? 0 then stopped_watching fd d l (el_stop fd d l).2
                      else forall fd' d', el_watches (el_stop fd d l).2 fd' d' = el_watches l fd' d';
  el_report_ok l fd d : stopped_watching fd d l (el_report fd d l)
}.

Section adapters.
Context {L : Type} `{EventLoop L}.

(** The loop, the allocator, and what the loop has returned so far, which the
    adapters do not look at. *)
Record looped := mkLooped { lp_loop : L; lp_starts : list Z; lp_stops : list Z; lp_world : world }.
Abbreviation AM := (SM looped).

Definition start (fd : Z) (d : direction) : AM unit := fun s =>
  let '(r, l) := el_start fd d (lp_loop s) in Ok (tt, mkLooped l (lp_starts s ++ [r]) (lp_stops s) (lp_world s)).
Definition stop (fd : Z) (d : direction) : AM unit := fun s =>
  let '(r, l) := el_stop fd d (lp_loop s) in Ok (tt, mkLooped l (lp_starts s) (lp_stops s ++ [r]) (lp_world s)).
Definition allocator {A} (m : M A) : AM A := fun s =>
  match m (lp_world s) with Ok (a, w) => Ok (a, mkLooped (lp_loop s) (lp_starts s) (lp_stops s) w) | Fault f => Fault f end.

(** [e = malloc(sizeof( *e))] and the first use of it. *)
Definition container {E} (e : E) : AM E :=
  do* p := allocator alloc_block in
  if p : bool then sret e else scrash NullDeref.

(** * ae.h *)

Record redisAeEvents := mkAe { ae_fd : Z; ae_reading : bool; ae_writing : bool }.

Definition redisAeAddRead (e : redisAeEvents) : AM redisAeEvents :=
  if negb (ae_reading e) then do* _ := start (ae_fd e) Readable in sret (mkAe (ae_fd e) true (ae_writing e)) else sret e.
Definition redisAeDelRead (e : redisAeEvents) : AM redisAeEvents :=
  if ae_reading e then do* _ := stop (ae_fd e) Readable in sret (mkAe (ae_fd e) false (ae_writing e)) else sret e.
Definition redisAeAddWrite (e : redisAeEvents) : AM redisAeEvents :=
  if negb (ae_writing e) then do* _ := start (ae_fd e) Writable in sret (mkAe (ae_fd e) (ae_reading e) true) else sret e.
Definition redisAeDelWrite (e : redisAeEvents) : AM redisAeEvents :=
  if ae_writing e then do* _ := stop (ae_fd e) Writable in sret (mkAe (ae_fd e) (ae_reading e) false) else sret e.
Definition redisAeCleanup (e : redisAeEvents) : AM unit :=
  do* e := redisAeDelRead e in
  do* _ := redisAeDelWrite e in
  allocator free.
(** [data]: whether something is attached already. *)
Definition redisAeAttach (data : bool) (fd : Z) : AM (Z * option redisAeEvents) :=
  if data then sret (REDIS_ERR, None)
  else do* e := container (mkAe fd false false) in sret (REDIS_OK, Some e).

(** * libev.h: the watchers know the descriptor *)

Record redisLibevEvents := mkLibev { lv_fd : Z; lv_reading : bool; lv_writing : bool }.

Definition redisLibevAddRead (e : redisLibevEvents) : AM redisLibevEvents :=
  if negb (lv_reading e) then do* _ := start (lv_fd e) Readable in sret (mkLibev (lv_fd e) true (lv_writing e)) else sret e.
Definition redisLibevDelRead (e : redisLibevEvents) : AM redisLibevEvents :=
  if lv_reading e then do* _ := stop (lv_fd e) Readable in sret (mkLibev (lv_fd e) false (lv_writing e)) else sret e.
Definition redisLibevAddWrite (e : redisLibevEvents) : AM redisLibevEvents :=
  if negb (lv_writing e) then do* _ := start (lv_fd e) Writable in sret (mkLibev (lv_fd e) (lv_reading e) true) else sret e.
Definition redisLibevDelWrite (e : redisLibevEvents) : AM redisLibevEvents :=
  if lv_writing e then do* _ := stop (lv_fd e) Writable in sret (mkLibev (lv_fd e) (lv_reading e) false) else sret e.
Definition redisLibevCleanup (e : redisLibevEvents) : AM unit :=
  do* e := redisLibevDelRead e in
  do* _ := redisLibevDelWrite e in
  allocator free.
Definition redisLibevAttach (data : bool) (fd : Z) : AM (Z * option redisLibevEvents) :=
  if data then sret (REDIS_ERR, None)
  else do* e := container (mkLibev fd false false) in sret (REDIS_OK, Some e).

(** * libevent.h: two events, without flags *)

Record redisLibeventEvents := mkLibevent { le_fd : Z }.

Definition redisLibeventAddRead (e : redisLibeventEvents) : AM redisLibeventEvents := do* _ := start (le_fd e) Readable in sret e.
Definition redisLibeventDelRead (e : redisLibeventEvents) : AM redisLibeventEvents := do* _ := stop (le_fd e) Readable in sret e.
Definition redisLibeventAddWrite (e : redisLibeventEvents) : AM redisLibeventEvents := do* _ := start (le_fd e) Writable in sret e.
Definition redisLibeventDelWrite (e : redisLibeventEvents) : AM redisLibeventEvents := do* _ := stop (le_fd e) Writable in sret e.
Definition redisLibeventCleanup (e : redisLibeventEvents) : AM unit :=
  do* _ := stop (le_fd e) Readable in
  do* _ := stop (le_fd e) Writable in
  allocator free.
Definition redisLibeventAttach (data : bool) (fd : Z) : AM (Z * option redisLibeventEvents) :=
  if data then sret (REDIS_ERR, None)
  else do* e := container (mkLibevent fd) in sret (REDIS_OK, Some e).

(** * The interface *)

(** The hooks of an adapter; [ad_once] says that the loop stops watching what it
    reports, as libevent does with events that are not persistent. *)
Class Adapter (E : Type) := {
  ad_attach : bool -> Z -> AM (Z * option E);
  ad_hook : hook -> E -> AM (option E);
  ad_once : bool
}.

Definition hooks {E} (addR delR addW delW : E -> AM E) (cleanup : E -> AM unit) (h : hook) (e : E) : AM (option E) :=
  let keep m : AM (option E) := do* e := m in sret (Some e) in
  match h with
  | AddRead => keep (addR e)
  | DelRead => keep (delR e)
  | AddWrite => keep (addW e)
  | DelWrite => keep (delW e)
  | Cleanup => do* _ := cleanup e in sret None
  end.

#[export] Instance ae_adapter : Adapter redisAeEvents := {|
  ad_attach := redisAeAttach;
  ad_hook := hooks redisAeAddRead redisAeDelRead redisAeAddWrite redisAeDelWrite redisAeCleanup;
  ad_once := false
|}.
#[export] Instance libev_adapter : Adapter redisLibevEvents := {|
  ad_attach := redisLibevAttach;
  ad_hook := hooks redisLibevAddRead redisLibevDelRead redisLibevAddWrite redisLibevDelWrite redisLibevCleanup;
  ad_once := false
|}.
#[export] Instance libevent_adapter : Adapter redisLibeventEvents := {|
  ad_attach := redisLibeventAttach;
  ad_hook := hooks redisLibeventAddRead redisLibeventDelRead redisLibeventAddWrite redisLibeventDelWrite redisLibeventCleanup;
  ad_once := true
|}.
End adapters.
Arguments looped : clear implicits.
Arguments Adapter : clear implicits.
