(* ===== verification/AdaptersSpec.v ===== *)
(** Every adapter keeps the event loop in step with the hooks: what it watches
    for the descriptor of the context is what the context asked for last, as long
    as the loop does not fail. *)

From stdpp Require Import base tactics list numbers gmap.
From S2P Require Import Prelude StateMonad Machine Reply Adapters.

Local Open Scope Z_scope.

(** * What a context asks for *)

Definition wants (h : hook) (d : direction) (before : bool) : bool :=
  match h, d with
  | AddRead, Readable | AddWrite, Writable => true
  | DelRead, Readable | DelWrite, Writable | Cleanup, _ => false
  | _, _ => before
  end.

(** The context calls a hook, or the loop reports that the descriptor is ready. *)
Inductive loop_event := Called (h : hook) | Fired (d : direction).

#[export] Instance loop_event_eq_dec : EqDecision loop_event.
Proof. unfold EqDecision. intros [h|d] [h'|d']; unfold Decision; try (by right); [|destruct (decide (d = d')); [left|right]; congruence]. destruct h, h'; (by left) || (by right). Defined.

Definition asked (once : bool) (ev : loop_event) (d : direction) (before : bool) : bool :=
  match ev with
  | Called h => wants h d before
  | Fired d' => if once && bool_decide (d' = d) then false else before
  end.

(** What was asked for last. *)
Definition last_asked (once : bool) (evs : list loop_event) (d : direction) (before : bool) : bool :=
  foldl (fun b ev => asked once ev d b) before evs.

Section laws.
Context {L : Type} `{EventLoopLaws L}.

Abbreviation watches s := (el_watches (lp_loop (L := L) s)).

(** What the loop has been asked so far did not fail. *)
Definition starts_ok (s : looped L) : Prop := Forall (fun r => r = 0) (lp_starts s).
Definition stops_ok (s : looped L) : Prop := Forall (fun r => r = 0) (lp_stops s).

(** The loop watches for [fd] nothing but what [f] says, and all of it, unless it
    has failed to stop or to start. *)
Record in_sync (s : looped L) (fd : Z) (f : direction -> bool) : Prop := {
  sy_only : stops_ok s -> forall d, watches s fd d = true -> f d = true;
  sy_all : starts_ok s -> stops_ok s -> forall d, f d = true -> watches s fd d = true
}.

(** What happens to [fd] alone: the loop watches the rest as before, and the
    allocator is not asked. *)
Record apart (fd : Z) (s s' : looped L) : Prop := {
  ap_watches : forall fd' d, fd' <> fd -> watches s' fd' d = watches s fd' d;
  ap_world : lp_world s' = lp_world s;
  ap_stops : exists l, lp_stops s' = lp_stops s ++ l
}.

Lemma apart_refl fd s : apart fd s s.
Proof. split; [done|done|]. exists []. by rewrite app_nil_r. Qed.
Lemma apart_trans fd s1 s2 s3 : apart fd s1 s2 -> apart fd s2 s3 -> apart fd s1 s3.
Proof.
  intros [E1 W1 [l1 L1]] [E2 W2 [l2 L2]]. split; [intros fd' d Hne; by rewrite E2, E1|congruence|].
  exists (l1 ++ l2). by rewrite L2, L1, app_assoc.
Qed.
Lemma apart_stops fd s s' : apart fd s s' -> stops_ok s' -> stops_ok s.
Proof. intros [_ _ [l E]]. unfold stops_ok. rewrite E. by intros [? _]%Forall_app. Qed.

Lemma in_sync_ext s fd f g : (forall d, f d = g d) -> in_sync s fd f -> in_sync s fd g.
Proof. intros E [H1 H2]. split; intros; [rewrite <- E; auto|apply H2; [done..|by rewrite E]]. Qed.

Definition upd (d : direction) (b : bool) (f : direction -> bool) (d' : direction) : bool := if bool_decide (d = d') then b else f d'.

Lemma start_sync fd d s f : in_sync s fd f -> exists s', start fd d s = Ok (tt, s') /\ in_sync s' fd (upd d true f) /\ apart fd s s'.
Proof.
  intros [H1 H2]. unfold start. pose proof (el_start_ok (lp_loop s) fd d) as Hs. destruct (el_start fd d (lp_loop s)) as [r l]. cbn [fst snd] in Hs.
  eexists. split; [done|]. split; [|split; [|done|exists []; by rewrite app_nil_r]].
  - unfold upd. split; unfold starts_ok, stops_ok; cbn.
    + intros Hst d'. destruct (decide (d = d')) as [->|Hd]; [by rewrite bool_decide_true|]. rewrite bool_decide_false by done.
      intros Hw. apply H1; [done|]. destruct (r =? 0); rewrite Hs in Hw; [|done]. by rewrite bool_decide_false in Hw by naive_solver.
    + intros [Hss Hr]%Forall_app Hst d'. apply Forall_singleton in Hr as ->. cbn in Hs. rewrite Hs. case_bool_decide as Hd.
      * subst d'. by rewrite bool_decide_true.
      * intros Hf. rewrite H2 by done. apply orb_true_r.
  - cbn. intros fd' d' Hne. destruct (r =? 0); rewrite Hs; [|done]. by rewrite bool_decide_false by naive_solver.
Qed.

Lemma stopped_sync fd d s s' f : in_sync s fd f -> lp_starts s' = lp_starts s -> (stops_ok s' -> stops_ok s) ->
  (stops_ok s' -> stopped_watching fd d (lp_loop s) (lp_loop s')) -> in_sync s' fd (upd d false f).
Proof.
  intros [H1 H2] Es Ht Hw. unfold upd. split.
  - intros Hst d'. rewrite (Hw Hst). intros [Hn Hd]%andb_true_iff. rewrite negb_true_iff, bool_decide_eq_false in Hn.
    rewrite bool_decide_false by naive_solver. by apply H1; [apply Ht|].
  - unfold starts_ok. rewrite Es. intros Hss Hst d'. case_bool_decide as Hd; [done|]. intros Hf. rewrite (Hw Hst), bool_decide_false by naive_solver.
    cbn. by apply H2; [|apply Ht|].
Qed.

Lemma stop_sync fd d s f : in_sync s fd f -> exists s', stop fd d s = Ok (tt, s') /\ in_sync s' fd (upd d false f) /\ apart fd s s'.
Proof.
  intros Hs. unfold stop. pose proof (el_stop_ok (lp_loop s) fd d) as Hw. destruct (el_stop fd d (lp_loop s)) as [r l]. cbn [fst snd] in Hw.
  eexists. split; [done|]. split; [|split; [|done|by exists [r]]].
  - apply (stopped_sync fd d s); [done|done| |]; unfold stops_ok; cbn; intros [Hss Hr]%Forall_app; [done|].
    apply Forall_singleton in Hr as ->. done.
  - cbn. intros fd' d' Hne. destruct (r =? 0); rewrite Hw; [|done]. by rewrite bool_decide_false by naive_solver.
Qed.

(** The loop reports the descriptor. *)
Definition report (once : bool) (fd : Z) (d : direction) (s : looped L) : looped L :=
  if once then mkLooped (el_report fd d (lp_loop s)) (lp_starts s) (lp_stops s) (lp_world s) else s.

Lemma report_sync once fd d s f : in_sync s fd f ->
  in_sync (report once fd d s) fd (fun d' => asked once (Fired d) d' (f d')) /\ apart fd s (report once fd d s).
Proof.
  intros Hs. unfold report, asked. destruct once; cbn [andb]; [|split; [done|apply apart_refl]].
  pose proof (el_report_ok (lp_loop s) fd d) as Hw. split.
  - by apply (stopped_sync fd d s).
  - split; [|done|exists []; by rewrite app_nil_r]. intros fd' d' Hne. cbn. rewrite Hw. by rewrite bool_decide_false by naive_solver.
Qed.

(** * The adapters *)

(** The container [e] belongs to [fd], and what it remembers is [f]. *)
Class AdapterLaws (E : Type) `{!Adapter L E} := {
  ad_holds : E -> Z -> (direction -> bool) -> Prop;
  ad_attach_ok fd s : ad_attach (E := E) true fd s = Ok ((REDIS_ERR, None), s) /\
    match alloc_block (lp_world s) with
    | Ok (true, w) => exists e, ad_attach false fd s = Ok ((REDIS_OK, Some e), mkLooped (lp_loop s) (lp_starts s) (lp_stops s) w) /\
        ad_holds e fd (fun _ => false)
    | _ => ad_attach (E := E) false fd s = Fault NullDeref
    end;
  ad_hook_ok h e s fd f : h <> Cleanup -> ad_holds e fd f -> in_sync s fd f ->
    exists e' s', ad_hook h e s = Ok (Some e', s') /\ ad_holds e' fd (fun d => wants h d (f d)) /\
      in_sync s' fd (fun d => wants h d (f d)) /\ apart fd s s';
  ad_cleanup_ok e s fd f : ad_holds e fd f -> in_sync s fd f ->
    exists s', ad_hook Cleanup e s = Ok (None, mkLooped (lp_loop s') (lp_starts s') (lp_stops s') (add_live (-1) (lp_world s))) /\
      in_sync s' fd (fun _ => false) /\ apart fd s s';
  ad_report_ok e fd f d : ad_holds e fd f -> ad_holds e fd (fun d' => asked (ad_once (E := E)) (Fired d) d' (f d'))
}.

(** A flag that is set, or cleared, together with a call of the loop, which is left
    out when the flag is right already. *)
Lemma flag_set {E} (mk : bool -> E) fd d s f : in_sync s fd f ->
  exists s', (if negb (f d) then do* _ := start fd d in sret (mk true) else sret (mk (f d))) s = Ok (mk true, s') /\
    in_sync s' fd (upd d true f) /\ apart fd s s'.
Proof.
  intros Hs. destruct (f d) eqn:Ef; cbn [negb].
  - exists s. split; [done|]. split; [|apply apart_refl]. eapply in_sync_ext; [|exact Hs]. intros d'. unfold upd. case_bool_decide; [by subst|done].
  - destruct (start_sync fd d s f Hs) as (s' & E1 & H1). exists s'. split; [|done]. by rewrite (sbind_ok (start fd d)) with (1 := E1).
Qed.

Lemma flag_clear {E} (mk : bool -> E) fd d s f : in_sync s fd f ->
  exists s', (if f d then do* _ := stop fd d in sret (mk false) else sret (mk (f d))) s = Ok (mk false, s') /\
    in_sync s' fd (upd d false f) /\ apart fd s s'.
Proof.
  intros Hs. destruct (f d) eqn:Ef.
  - destruct (stop_sync fd d s f Hs) as (s' & E1 & H1). exists s'. split; [|done]. by rewrite (sbind_ok (stop fd d)) with (1 := E1).
  - exists s. split; [done|]. split; [|apply apart_refl]. eapply in_sync_ext; [|exact Hs]. intros d'. unfold upd. case_bool_decide; [by subst|done].
Qed.

Lemma then_returns {E} (e : E) (m : SM (looped L) unit) fd d b s f :
  (exists s', m s = Ok (tt, s') /\ in_sync s' fd (upd d b f) /\ apart fd s s') ->
  exists s', (do* _ := m in sret e) s = Ok (e, s') /\ in_sync s' fd (upd d b f) /\ apart fd s s'.
Proof. intros (s' & E1 & H1). exists s'. split; [|done]. by rewrite (sbind_ok m) with (1 := E1). Qed.

(** One hook, from what it does to one direction. *)
Lemma hook_from {E} (m : SM (looped L) E) (holds : E -> (direction -> bool) -> Prop) fd d b h s f e s' :
  m s = Ok (e, s') /\ in_sync s' fd (upd d b f) /\ apart fd s s' ->
  (forall d', wants h d' (f d') = upd d b f d') -> holds e (fun d' => wants h d' (f d')) ->
  exists e' s', (do* e := m in sret (Some e)) s = Ok (Some e', s') /\ holds e' (fun d' => wants h d' (f d')) /\
    in_sync s' fd (fun d' => wants h d' (f d')) /\ apart fd s s'.
Proof.
  intros (Em & Hs & Ha) Hw Hh. exists e, s'. rewrite (sbind_ok m) with (1 := Em). split_and!; [done|done| |done].
  eapply in_sync_ext; [|exact Hs]. intros d'. by rewrite Hw.
Qed.

(** A new container. *)
Lemma container_ok {E} (e : E) (s : looped L) :
  match alloc_block (lp_world s) with
  | Ok (true, w) => container e s = Ok (e, mkLooped (lp_loop s) (lp_starts s) (lp_stops s) w)
  | _ => container e s = Fault NullDeref
  end.
Proof.
  unfold container, allocator, sbind. unfold alloc_block, bind. destruct (ask_alloc_spec (lp_world s)) as ([] & w & -> & _); done.
Qed.

Lemma attach_from {E} (e : E) (holds : E -> Prop) (s : looped L) : holds e ->
  match alloc_block (lp_world s) with
  | Ok (true, w) => exists e', (do* e := container e in sret (REDIS_OK, Some e)) s = Ok ((REDIS_OK, Some e'), mkLooped (lp_loop s) (lp_starts s) (lp_stops s) w) /\ holds e'
  | _ => (do* e := container e in sret (REDIS_OK, Some e)) s = Fault NullDeref
  end.
Proof.
  intros Hh. pose proof (container_ok e s) as Hc. destruct (alloc_block (lp_world s)) as [[[] w]|]; unfold sbind; rewrite Hc; [by exists e|done|done].
Qed.

(** Both directions are stopped and the container is freed. *)
Lemma cleanup_from {A B C} (m1 : SM (looped L) A) (m2 : A -> SM (looped L) B) fd s s1 s2 a b f :
  m1 s = Ok (a, s1) /\ in_sync s1 fd (upd Readable false f) /\ apart fd s s1 ->
  m2 a s1 = Ok (b, s2) /\ in_sync s2 fd (upd Writable false (upd Readable false f)) /\ apart fd s1 s2 ->
  exists s', (do* _ := (do* a := m1 in do* _ := m2 a in allocator free) in sret (@None C)) s =
      Ok (None, mkLooped (lp_loop s') (lp_starts s') (lp_stops s') (add_live (-1) (lp_world s))) /\
    in_sync s' fd (fun _ => false) /\ apart fd s s'.
Proof.
  intros (E1 & H1 & A1) (E2 & H2 & A2). exists s2. unfold sbind, allocator. rewrite E1, E2. unfold free, modify.
  pose proof (apart_trans _ _ _ _ A1 A2) as Ha. rewrite <- (ap_world _ _ _ Ha). split_and!; [done| |done].
  eapply in_sync_ext; [|exact H2]. intros []; reflexivity.
Qed.

Ltac hook_by holds Hhook :=
  let s' := fresh "s'" in let H := fresh "H" in
  destruct Hhook as (s' & H); apply (hook_from _ holds _ _ _ _ _ _ _ s' H); [by intros []|reflexivity].

#[export] Instance ae_laws : AdapterLaws redisAeEvents.
Proof.
  set (holds (e : redisAeEvents) (fd : Z) (f : direction -> bool) := e = mkAe fd (f Readable) (f Writable)).
  refine {| ad_holds := holds |}.
  - intros fd s. split; [done|]. by apply (attach_from (mkAe fd false false) (fun e => holds e fd (fun _ => false))).
  - intros h e s fd f Hh -> Hs. destruct h; [..|done].
    + hook_by (fun e => holds e fd) (flag_set (fun b => mkAe fd b (f Writable)) fd Readable s f Hs).
    + hook_by (fun e => holds e fd) (flag_clear (fun b => mkAe fd b (f Writable)) fd Readable s f Hs).
    + hook_by (fun e => holds e fd) (flag_set (fun b => mkAe fd (f Readable) b) fd Writable s f Hs).
    + hook_by (fun e => holds e fd) (flag_clear (fun b => mkAe fd (f Readable) b) fd Writable s f Hs).
  - intros e s fd f -> Hs. destruct (flag_clear (fun b => mkAe fd b (f Writable)) fd Readable s f Hs) as (s1 & H1).
    destruct (flag_clear (fun b => mkAe fd false b) fd Writable s1 _ (proj1 (proj2 H1))) as (s2 & H2). exact (cleanup_from _ _ fd s s1 s2 _ _ f H1 H2).
  - intros e fd f d ->. done.
Defined.

#[export] Instance libev_laws : AdapterLaws redisLibevEvents.
Proof.
  set (holds (e : redisLibevEvents) (fd : Z) (f : direction -> bool) := e = mkLibev fd (f Readable) (f Writable)).
  refine {| ad_holds := holds |}.
  - intros fd s. split; [done|]. by apply (attach_from (mkLibev fd false false) (fun e => holds e fd (fun _ => false))).
  - intros h e s fd f Hh -> Hs. destruct h; [..|done].
    + hook_by (fun e => holds e fd) (flag_set (fun b => mkLibev fd b (f Writable)) fd Readable s f Hs).
    + hook_by (fun e => holds e fd) (flag_clear (fun b => mkLibev fd b (f Writable)) fd Readable s f Hs).
    + hook_by (fun e => holds e fd) (flag_set (fun b => mkLibev fd (f Readable) b) fd Writable s f Hs).
    + hook_by (fun e => holds e fd) (flag_clear (fun b => mkLibev fd (f Readable) b) fd Writable s f Hs).
  - intros e s fd f -> Hs. destruct (flag_clear (fun b => mkLibev fd b (f Writable)) fd Readable s f Hs) as (s1 & H1).
    destruct (flag_clear (fun b => mkLibev fd false b) fd Writable s1 _ (proj1 (proj2 H1))) as (s2 & H2). exact (cleanup_from _ _ fd s s1 s2 _ _ f H1 H2).
  - intros e fd f d ->. done.
Defined.


#[export] Instance libevent_laws : AdapterLaws redisLibeventEvents.
Proof.
  set (holds (e : redisLibeventEvents) (fd : Z) (f : direction -> bool) := e = mkLibevent fd).
  refine {| ad_holds := holds |}.
  - intros fd s. split; [done|]. by apply (attach_from (mkLibevent fd) (fun e => holds e fd (fun _ => false))).
  - intros h e s fd f Hh -> Hs. destruct h; [..|done].
    + hook_by (fun e => holds e fd) (then_returns (mkLibevent fd) _ _ _ _ _ _ (start_sync fd Readable s f Hs)).
    + hook_by (fun e => holds e fd) (then_returns (mkLibevent fd) _ _ _ _ _ _ (stop_sync fd Readable s f Hs)).
    + hook_by (fun e => holds e fd) (then_returns (mkLibevent fd) _ _ _ _ _ _ (start_sync fd Writable s f Hs)).
    + hook_by (fun e => holds e fd) (then_returns (mkLibevent fd) _ _ _ _ _ _ (stop_sync fd Writable s f Hs)).
  - intros e s fd f -> Hs. destruct (stop_sync fd Readable s f Hs) as (s1 & H1). destruct (stop_sync fd Writable s1 _ (proj1 (proj2 H1))) as (s2 & H2).
    exact (cleanup_from (stop fd Readable) (fun _ => stop fd Writable) fd s s1 s2 _ _ f H1 H2).
  - intros e fd f d ->. done.
Defined.
(** * A context with its adapter *)

(** A run of hooks and of events of the descriptor [fd]. *)
Fixpoint run_loop {E} `{!Adapter L E} (fd : Z) (evs : list loop_event) (e : E) : SM (looped L) (option E) :=
  match evs with
  | [] => sret (Some e)
  | Called h :: evs =>
      do* r := ad_hook h e in
      match r with Some e => run_loop fd evs e | None => sret None end
  | Fired d :: evs =>
      do* _ := smodify (report (ad_once (E := E)) fd d) in
      run_loop fd evs e
  end.

Lemma run_loop_ok {E} `{AdapterLaws E} fd evs : Called Cleanup ∉ evs -> forall e s f, ad_holds e fd f -> in_sync s fd f ->
  let g d := last_asked (ad_once (E := E)) evs d (f d) in
  exists e' s', run_loop fd evs e s = Ok (Some e', s') /\ ad_holds e' fd g /\ in_sync s' fd g /\ apart fd s s'.
Proof.
  induction evs as [|[h|d] evs IH]; intros Hno e s f He Hs; cbn [run_loop].
  - exists e, s. split_and!; [done..|apply apart_refl].
  - apply not_elem_of_cons in Hno as [Hne Hno].
    destruct (ad_hook_ok h e s fd f) as (e1 & s1 & E1 & He1 & Hs1 & A1); [by intros ->|done..|].
    destruct (IH Hno e1 s1 _ He1 Hs1) as (e2 & s2 & E2 & He2 & Hs2 & A2). exists e2, s2.
    rewrite (sbind_ok (ad_hook h e)) with (1 := E1). split_and!; [done..|by eapply apart_trans].
  - apply not_elem_of_cons in Hno as [_ Hno]. destruct (report_sync (ad_once (E := E)) fd d s f Hs) as [Hs1 A1].
    destruct (IH Hno e _ _ (ad_report_ok e fd f d He) Hs1) as (e2 & s2 & E2 & He2 & Hs2 & A2). exists e2, s2.
    split_and!; [exact E2|exact He2|exact Hs2|by eapply apart_trans].
Qed.

(** An adapter with a loop that does not watch [fd] yet and that has not been
    asked for anything. *)
Definition keeps_step (E : Type) `{!Adapter L E} : Prop := forall fd (s : looped L),
  (forall d, watches s fd d = false) -> lp_starts s = [] -> lp_stops s = [] ->
  ad_attach (E := E) true fd s = Ok ((REDIS_ERR, None), s) /\
  match alloc_block (lp_world s) with
  | Ok (true, w) => exists e, ad_attach false fd s = Ok ((REDIS_OK, Some e), mkLooped (lp_loop s) [] [] w) /\
      forall evs, Called Cleanup ∉ evs -> exists e' s',
        run_loop fd evs e (mkLooped (lp_loop s) [] [] w) = Ok (Some e', s') /\
        (starts_ok s' -> stops_ok s' -> forall d, watches s' fd d = last_asked (ad_once (E := E)) evs d false) /\
        (stops_ok s' -> forall d, watches s' fd d = true -> last_asked (ad_once (E := E)) evs d false = true) /\
        (forall fd' d, fd' <> fd -> watches s' fd' d = watches s fd' d) /\
        exists s'', ad_hook Cleanup e' s' = Ok (None, s'') /\ lp_world s'' = add_live (-1) w /\
          (stops_ok s'' -> forall fd' d, watches s'' fd' d = if bool_decide (fd' = fd) then false else watches s fd' d)
  | _ => ad_attach (E := E) false fd s = Fault NullDeref
  end.

Lemma adapter_keeps_step {E} `{AdapterLaws E} : keeps_step E.
Proof.
  intros fd s Hw Hs1 Hs2. destruct (ad_attach_ok fd s) as [Ht Ha]. split; [done|]. rewrite Hs1, Hs2 in Ha.
  destruct (alloc_block (lp_world s)) as [[[] w]|]; [|done|done]. destruct Ha as (e & Ea & He). exists e. split; [done|]. intros evs Hno.
  set (s0 := mkLooped (lp_loop s) [] [] w). assert (in_sync s0 fd (fun _ => false)) as Hs0 by (split; [intros _ d; by rewrite Hw|done]).
  destruct (run_loop_ok fd evs Hno e s0 _ He Hs0) as (e' & s' & Er & He' & Hs' & A). exists e', s'. split; [done|]. split.
  { intros H3 H4 d. destruct (last_asked _ evs d false) eqn:El; [by apply (sy_all _ _ _ Hs')|]. apply not_true_is_false. intros Hd.
    pose proof (sy_only _ _ _ Hs' H4 d Hd). congruence. }
  split; [apply (sy_only _ _ _ Hs')|]. split; [intros fd' d Hne; by rewrite (ap_watches _ _ _ A)|].
  destruct (ad_cleanup_ok e' s' fd _ He' Hs') as (s1 & Ec & Hs1' & A1). eexists. split; [done|]. cbn. split; [by rewrite (ap_world _ _ _ A)|].
  intros Hst fd' d. case_bool_decide as Hfd; [subst fd'|by rewrite (ap_watches _ _ _ A1), (ap_watches _ _ _ A)].
  apply not_true_is_false. intros Hd. by pose proof (sy_only _ _ _ Hs1' Hst d Hd).
Qed.

(** C38: The adapters for ae, libev and libevent keep their event loop in step with
    the context.  Attaching refuses when something is attached already, uses a null
    pointer when there is no memory, and otherwise allocates one container.  After
    any sequence of hooks and of events that the loop reports, a loop that has not
    failed watches the descriptor for exactly what the hooks asked for last (for
    libevent, whose events are reported once, what was asked for since the last
    report); one that has failed to start, which no adapter looks at, watches
    nothing that was not asked for; and every other descriptor is watched as
    before.  The cleanup releases the container and leaves nothing of the descriptor
    watched, unless the loop has failed to stop. *)
Theorem adapter_watches : keeps_step redisAeEvents /\ keeps_step redisLibevEvents /\ keeps_step redisLibeventEvents.
Proof. split_and!; apply adapter_keeps_step. Qed.
End laws.

(** * A loop that is a set, and that fails to start as often as it says *)

Record set_loop := mkSetLoop { sl_failures : nat; sl_set : gset (Z * bool) }.
Definition dir_bit (d : direction) : bool := match d with Readable => true | Writable => false end.
Definition set_stop (fd : Z) (d : direction) (l : set_loop) : set_loop := mkSetLoop (sl_failures l) (sl_set l ∖ {[(fd, dir_bit d)]}).

#[export] Instance set_event_loop : EventLoop set_loop := {|
  el_watches l fd d := bool_decide ((fd, dir_bit d) ∈ sl_set l);
  el_start fd d l := match sl_failures l with
                     | O => (0, mkSetLoop 0 ({[(fd, dir_bit d)]} ∪ sl_set l))
                     | S n => (-1, mkSetLoop n (sl_set l))
                     end;
  el_stop fd d l := (0, set_stop fd d l);
  el_report := set_stop
|}.

Lemma set_stop_ok fd d l : stopped_watching fd d l (set_stop fd d l).
Proof.
  intros fd' d'. cbn. rewrite <- ?bool_decide_not, <- ?bool_decide_and. apply bool_decide_ext.
  rewrite elem_of_difference, elem_of_singleton. destruct d, d'; naive_solver.
Qed.

#[export] Instance set_event_loop_laws : EventLoopLaws set_loop.
Proof.
  split; intros [[|n] l] fd d; cbn; try done; try apply set_stop_ok. intros fd' d'. cbn. rewrite <- ?bool_decide_or. apply bool_decide_ext.
  rewrite elem_of_union, elem_of_singleton. destruct d, d'; naive_solver.
Defined.

Definition fresh_loop (failures : nat) : looped set_loop := mkLooped (mkSetLoop failures ∅) [] [] world0.
Definition read_events : list loop_event := [Called AddRead; Fired Readable; Called AddRead; Called AddWrite; Fired Writable; Called AddRead].

Lemma adapter_watches_witness :
  exists (e : redisLibeventEvents), ad_attach false 7 (fresh_loop 0) = Ok ((REDIS_OK, Some e), mkLooped (mkSetLoop 0 ∅) [] [] (add_live 1 world0)) /\
    exists e' s', run_loop 7 read_events e (mkLooped (mkSetLoop 0 ∅) [] [] (add_live 1 world0)) = Ok (Some e', s') /\
      (starts_ok s' -> stops_ok s' -> forall d, el_watches (lp_loop s') 7 d = last_asked true read_events d false).
Proof.
  destruct (adapter_watches (L := set_loop)) as (_ & _ & Hev).
  destruct (Hev 7 (fresh_loop 0)) as (_ & e & Ha & Hrun); [done..|]. exists e. split; [exact Ha|].
  destruct (Hrun read_events) as (e' & s' & Er & Hw & _); [by apply (bool_decide_unpack _); vm_compute|]. by exists e', s'.
Defined.

(** Whether the descriptor is watched for reading after the hooks. *)
Definition watched_after {E} `{Adapter set_loop E} (failures : nat) (evs : list loop_event) : option bool :=
  match (do* (_, e) := ad_attach (E := E) false 7 in match e with Some e => run_loop 7 evs e | None => scrash NullDeref end) (fresh_loop failures) with
  | Ok (_, s) => Some (el_watches (lp_loop s) 7 Readable)
  | Fault _ => None
  end.

Example watched_for_reading :
  (watched_after (E := redisAeEvents) 0 read_events, watched_after (E := redisLibevEvents) 0 read_events,
   watched_after (E := redisLibeventEvents) 0 read_events) = (Some true, Some true, Some true).
Proof. vm_compute. reflexivity. Qed.

(** A start that fails is not noticed: the flag of ae keeps it from asking again,
    however often the context does, and libevent asks again. *)
Lemma ae_forgets_failure : watched_after (E := redisAeEvents) 1 [Called AddRead; Called AddRead; Called AddRead] = Some false /\
  watched_after (E := redisLibeventEvents) 1 [Called AddRead; Called AddRead; Called AddRead] = Some true.
Proof. by vm_compute. Qed.
