(* ===== verification/Locks.v ===== *)
(** Locks, condition variables and semaphores (Common/Locker.cpp): the methods as
    programs of calls of the pthread library, and threads that run them
    interleaved.

    A method is a tree of calls that continues with the number the library
    returns.  A wait on a condition variable is two calls: one gives the mutex
    back and joins those that wait, the other takes the mutex again once the
    thread has been woken, for no reason even, or its time is over.  What the
    library leaves undefined is [misuse]. *)

From stdpp Require Import base tactics list numbers gmap.
From S2P Require Import Prelude.

Local Open Scope Z_scope.

(** * The pthread library *)

(** The mutexes with their owners, the condition variables with those that wait,
    and the semaphores; what has been destroyed is not there. *)
Record sync := mkSync {
  y_mutex : gmap Z (option Z);
  y_waiting : gmap Z (list Z);
  y_sem : gmap Z Z
}.

(** [Outside] is what the thread does elsewhere, with any answer: a command to a
    server, a look at a map. *)
Inductive call :=
| MutexLock (m : Z)
| MutexUnlock (m : Z)
| CondRelease (c m : Z)
| CondReacquire (c m : Z) (timed : bool)
| CondSignal (c : Z)
| CondBroadcast (c : Z)
| SemWait (x : Z) (timed : bool)
| SemPost (x : Z)
| Outside.

Definition set_owner (m : Z) (o : option Z) (s : sync) : sync := mkSync (<[m := o]> (y_mutex s)) (y_waiting s) (y_sem s).
Definition set_waiting (c : Z) (ts : list Z) (s : sync) : sync := mkSync (y_mutex s) (<[c := ts]> (y_waiting s)) (y_sem s).
Definition set_value (x n : Z) (s : sync) : sync := mkSync (y_mutex s) (y_waiting s) (<[x := n]> (y_sem s)).

Definition ETIMEDOUT : Z := 110.
Definition remove (t : Z) (ts : list Z) : list Z := filter (fun u => u <> t) ts.

(** The thread [t] returns from a call with a number. *)
Inductive returns (t : Z) : call -> sync -> Z -> sync -> Prop :=
| ret_lock m s : y_mutex s !! m = Some None -> returns t (MutexLock m) s 0 (set_owner m (Some t) s)
| ret_unlock m s : y_mutex s !! m = Some (Some t) -> returns t (MutexUnlock m) s 0 (set_owner m None s)
| ret_release c m ts s : y_mutex s !! m = Some (Some t) -> y_waiting s !! c = Some ts ->
    returns t (CondRelease c m) s 0 (set_waiting c (ts ++ [t]) (set_owner m None s))
| ret_woken c m timed ts s : y_mutex s !! m = Some None -> y_waiting s !! c = Some ts ->
    returns t (CondReacquire c m timed) s 0 (set_waiting c (remove t ts) (set_owner m (Some t) s))
| ret_timeout c m ts s : y_mutex s !! m = Some None -> y_waiting s !! c = Some ts ->
    returns t (CondReacquire c m true) s ETIMEDOUT (set_waiting c (remove t ts) (set_owner m (Some t) s))
| ret_signal_none c s : y_waiting s !! c = Some [] -> returns t (CondSignal c) s 0 s
| ret_signal c ts u ts' s : y_waiting s !! c = Some (ts ++ u :: ts') -> returns t (CondSignal c) s 0 (set_waiting c (ts ++ ts') s)
| ret_broadcast c ts s : y_waiting s !! c = Some ts -> returns t (CondBroadcast c) s 0 (set_waiting c [] s)
| ret_sem_wait x timed n s : y_sem s !! x = Some n -> 0 < n -> returns t (SemWait x timed) s 0 (set_value x (n - 1) s)
| ret_sem_timeout x n s : y_sem s !! x = Some n -> returns t (SemWait x true) s (-1) s
| ret_sem_post x n s : y_sem s !! x = Some n -> returns t (SemPost x) s 0 (set_value x (n + 1) s)
| ret_outside r s : returns t Outside s r s.

(** What the library does not define: a mutex that is given back, or waited with,
    by a thread that does not have it, and one that is taken by the thread that
    has it. *)
Definition misuse (t : Z) (a : call) (s : sync) : bool :=
  match a with
  | MutexLock m => bool_decide (y_mutex s !! m = Some (Some t))
  | MutexUnlock m | CondRelease _ m => negb (bool_decide (y_mutex s !! m = Some (Some t)))
  | _ => false
  end.

(** * The methods *)

Inductive prog := Return (b : bool) | Call (a : call) (k : Z -> prog).

(** One method after another, with the result of the first. *)
Fixpoint next (p : prog) (q : bool -> prog) : prog :=
  match p with Return b => q b | Call a k => Call a (fun r => next (k r) q) end.

Definition Locker_lock (mutex : Z) : prog := Call (MutexLock mutex) (fun r => Return (r =? 0)).
Definition Locker_unlock (mutex : Z) : prog := Call (MutexUnlock mutex) (fun r => Return (r =? 0)).

(** [LockerGuard]: the constructor, the rest of the scope and the destructor. *)
Definition LockerGuard (mutex : Z) (scope : prog) : prog :=
  next (Locker_lock mutex) (fun _ => next scope (fun b => next (Locker_unlock mutex) (fun _ => Return b))).

Definition Cond_wait (cond mutex : Z) : prog :=
  Call (MutexLock mutex) (fun _ =>
  Call (CondRelease cond mutex) (fun _ =>
  Call (CondReacquire cond mutex false) (fun ret =>
  Call (MutexUnlock mutex) (fun _ =>
  Return (ret =? 0))))).
(** The time that [waitForSeconds] waits for is over when the library says so. *)
Definition Cond_waitForSeconds (cond mutex : Z) : prog :=
  Call (MutexLock mutex) (fun _ =>
  Call (CondRelease cond mutex) (fun _ =>
  Call (CondReacquire cond mutex true) (fun ret =>
  Call (MutexUnlock mutex) (fun _ =>
  Return (ret =? 0))))).
Definition Cond_signal (cond : Z) : prog := Call (CondSignal cond) (fun r => Return (r =? 0)).
Definition Cond_signalAll (cond : Z) : prog := Call (CondBroadcast cond) (fun r => Return (r =? 0)).

(** [Condition] waits with the mutex of its caller. *)
Definition Condition_wait (cond mutex : Z) : prog :=
  Call (CondRelease cond mutex) (fun _ =>
  Call (CondReacquire cond mutex false) (fun ret => Return (ret =? 0))).
Definition Condition_waitForSeconds (cond mutex : Z) : prog :=
  Call (CondRelease cond mutex) (fun _ =>
  Call (CondReacquire cond mutex true) (fun ret => Return (ret =? 0))).
Definition Condition_signal (cond : Z) : prog := Call (CondSignal cond) (fun r => Return (r =? 0)).
Definition Condition_signalAll (cond : Z) : prog := Call (CondBroadcast cond) (fun r => Return (r =? 0)).

Definition Sem_wait (sem : Z) : prog := Call (SemWait sem false) (fun r => Return (r =? 0)).
Definition Sem_waitForSeconds (sem : Z) : prog := Call (SemWait sem true) (fun r => Return (r =? 0)).
Definition Sem_post (sem : Z) : prog := Call (SemPost sem) (fun r => Return (r =? 0)).

(** * Threads *)

Record threads := mkThreads { ts_sync : sync; ts_progs : gmap Z prog }.

Inductive thread_step : threads -> threads -> Prop :=
| thread_calls t a k s r s' ps : ps !! t = Some (Call a k) -> returns t a s r s' ->
    thread_step (mkThreads s ps) (mkThreads s' (<[t := k r]> ps)).

(** Some thread is about to do what the library does not define. *)
Definition misused (w : threads) : Prop :=
  exists t a k, ts_progs w !! t = Some (Call a k) /\ misuse t a (ts_sync w) = true.

Definition finished (p : prog) : bool := match p with Return _ => true | Call _ _ => false end.
Definition all_finished (w : threads) : Prop := map_Forall (fun _ p => finished p = true) (ts_progs w).

#[export] Instance all_finished_dec w : Decision (all_finished w).
Proof. unfold all_finished. apply _. Defined.

(** * The discipline *)

(** The mutexes, condition variables and semaphores there are, and the order in
    which mutexes are taken; [l_bare] are the condition variables that are waited
    on without their mutex. *)
Record layout := mkLayout {
  l_rank : Z -> nat;
  l_bound : nat;
  l_mutexes : gset Z;
  l_conds : gset Z;
  l_sems : gset Z;
  l_bare : gset Z
}.

(** The mutexes that a thread has. *)
Definition owned (t : Z) (s : sync) : gset Z := dom (filter (fun x => x.2 = Some t) (y_mutex s)).

Lemma owned_spec t s m : m ∈ owned t s <-> y_mutex s !! m = Some (Some t).
Proof.
  unfold owned. rewrite elem_of_dom. unfold is_Some. setoid_rewrite map_lookup_filter_Some. naive_solver.
Qed.

Section discipline.
Context (L : layout).

(** A mutex that may be taken with [held]: every one of these comes before it. *)
Definition may_take (held : gset Z) (m : Z) : Prop :=
  m ∈ l_mutexes L /\ (l_rank L m < l_bound L)%nat /\ forall x, x ∈ held -> (l_rank L x < l_rank L m)%nat.

(** A wait without the mutex. *)
Definition bare (a : call) : bool := match a with CondRelease c _ => bool_decide (c ∈ l_bare L) | _ => false end.

(** What a call needs of the mutexes [held], and what it leaves held. *)
Definition needs (held : gset Z) (a : call) : Prop :=
  match a with
  | MutexLock m => may_take held m
  | CondReacquire c m _ => may_take held m /\ c ∈ l_conds L
  | MutexUnlock m => m ∈ held
  | CondRelease c m => m ∈ held /\ c ∈ l_conds L
  | CondSignal c | CondBroadcast c => c ∈ l_conds L
  | SemWait x timed => timed = true /\ x ∈ l_sems L
  | SemPost x => x ∈ l_sems L
  | Outside => True
  end.
Definition after (held : gset Z) (a : call) : gset Z :=
  match a with
  | MutexLock m | CondReacquire _ m _ => {[m]} ∪ held
  | MutexUnlock m | CondRelease _ m => held ∖ {[m]}
  | _ => held
  end.

(** The program takes mutexes in their order, gives back and waits with those it
    has, and goes from having [held] to having [to]; to a bare wait it comes with
    no mutex at all, and what would follow that does not count. *)
Fixpoint balanced (held : gset Z) (p : prog) (to : gset Z) : Prop :=
  match p with
  | Return _ => held = to
  | Call a k => if bare a then held = ∅ else needs held a /\ forall r, balanced (after held a) (k r) to
  end.

Record disciplined (w : threads) : Prop := {
  d_mutexes : dom (y_mutex (ts_sync w)) = l_mutexes L;
  d_conds : dom (y_waiting (ts_sync w)) = l_conds L;
  d_sems : dom (y_sem (ts_sync w)) = l_sems L;
  d_owners m t : y_mutex (ts_sync w) !! m = Some (Some t) -> is_Some (ts_progs w !! t);
  d_progs t p : ts_progs w !! t = Some p -> balanced (owned t (ts_sync w)) p ∅
}.

(** ** Programs that are balanced *)

Lemma balanced_next p q h1 h2 h3 : balanced h1 p h2 -> (forall b, balanced h2 (q b) h3) -> balanced h1 (next p q) h3.
Proof.
  revert h1. induction p as [b|a k IH]; intros h1 Hp Hq; cbn [balanced next] in *; [by subst|].
  destruct (bare a); [done|]. destruct Hp as [Hm Hp]. split; [done|]. intros r. by apply IH.
Qed.

Lemma may_take_fresh held m : may_take held m -> m ∉ held.
Proof. intros (_ & _ & H) Hm. specialize (H m Hm). lia. Qed.

Lemma give_back held m : may_take held m -> ({[m]} ∪ held) ∖ {[m]} = held.
Proof. intros H%may_take_fresh. set_solver. Qed.

Lemma guard_balanced m scope held : may_take held m -> balanced ({[m]} ∪ held) scope ({[m]} ∪ held) ->
  balanced held (LockerGuard m scope) held.
Proof.
  intros Hm Hs. eapply balanced_next; [cbn; by split|]. intros _. eapply balanced_next; [exact Hs|].
  intros b. cbn. split; [set_solver|]. intros _. by apply give_back.
Qed.

Lemma cond_wait_balanced c m held : c ∈ l_conds L -> c ∉ l_bare L -> may_take held m ->
  balanced held (Cond_wait c m) held /\ balanced held (Cond_waitForSeconds c m) held.
Proof.
  intros Hc Hb Hm. pose proof (give_back held m Hm) as E.
  split; cbn; rewrite bool_decide_false by done;
    (split; [done|intros _; split; [set_solver|intros _; rewrite E; split; [done|intros _; split; [set_solver|by intros _; rewrite E]]]]).
Qed.

(** The caller of [Condition::wait] has the mutex, and no mutex after it. *)
Lemma condition_wait_balanced c m held : c ∈ l_conds L -> c ∉ l_bare L -> may_take held m ->
  balanced ({[m]} ∪ held) (Condition_wait c m) ({[m]} ∪ held) /\
  balanced ({[m]} ∪ held) (Condition_waitForSeconds c m) ({[m]} ∪ held).
Proof.
  intros Hc Hb Hm. pose proof (give_back held m Hm) as E.
  split; cbn; rewrite bool_decide_false by done; (split; [set_solver|intros _; rewrite E; by split]).
Qed.

(** ** A step keeps the discipline *)

Lemma owned_take t u m s s' : y_mutex s !! m = Some None -> y_mutex s' = <[m := Some t]> (y_mutex s) ->
  owned u s' = if bool_decide (u = t) then {[m]} ∪ owned t s else owned u s.
Proof.
  intros Hm E. apply set_eq. intros x. rewrite owned_spec, E, lookup_insert_Some.
  case_bool_decide as Hu; [subst u; rewrite elem_of_union, elem_of_singleton, owned_spec|rewrite owned_spec]; split.
  - intros [[-> _]|[_ H]]; auto.
  - intros [->|H]; [auto|]. destruct (decide (m = x)); naive_solver.
  - intros [[_ [= ->]]|[_ H]]; done.
  - intros H. right. split; [|done]. intros ->. congruence.
Qed.

Lemma owned_give t u m s s' : y_mutex s !! m = Some (Some t) -> y_mutex s' = <[m := None]> (y_mutex s) ->
  owned u s' = if bool_decide (u = t) then owned t s ∖ {[m]} else owned u s.
Proof.
  intros Hm E. apply set_eq. intros x. rewrite owned_spec, E, lookup_insert_Some.
  case_bool_decide as Hu; [subst u; rewrite elem_of_difference, elem_of_singleton, owned_spec|rewrite owned_spec]; split.
  - intros [[_ ?]|[Hne H]]; [done|auto].
  - intros [H Hne]. right. auto.
  - intros [[_ ?]|[_ H]]; done.
  - intros H. right. split; [|done]. intros ->. congruence.
Qed.

(** What a call does to the mutexes: it takes one, gives one back, or neither. *)
Definition mutex_change (t : Z) (a : call) (s s' : sync) : Prop :=
  match a with
  | MutexLock m | CondReacquire _ m _ => y_mutex s !! m = Some None /\ y_mutex s' = <[m := Some t]> (y_mutex s)
  | MutexUnlock m | CondRelease _ m => y_mutex s !! m = Some (Some t) /\ y_mutex s' = <[m := None]> (y_mutex s)
  | _ => y_mutex s' = y_mutex s
  end.

Lemma returns_mutex t a s r s' : returns t a s r s' -> mutex_change t a s s'.
Proof. by destruct 1. Qed.

Lemma dom_insert_same {A} (f : gmap Z A) k x y : f !! k = Some y -> dom (<[k := x]> f) = dom f.
Proof. intros H. apply dom_insert_lookup_L. by exists y. Qed.

Lemma returns_dom t a s r s' : returns t a s r s' ->
  dom (y_mutex s') = dom (y_mutex s) /\ dom (y_waiting s') = dom (y_waiting s) /\ dom (y_sem s') = dom (y_sem s).
Proof. destruct 1; cbn; rewrite ?(dom_insert_same _ _ _ _ H), ?(dom_insert_same _ _ _ _ H0); done. Qed.

(** A thread without mutexes does not get past a bare wait. *)
Lemma bare_stays t a s r s' : returns t a s r s' -> bare a = true -> owned t s <> ∅.
Proof.
  intros Hr%returns_mutex Hb Ho. destruct a as [| |c m| | | | | |]; try done. destruct Hr as [Hm%owned_spec _]. rewrite Ho in Hm. set_solver.
Qed.

Lemma returns_balanced t a k s r s' : returns t a s r s' -> balanced (owned t s) (Call a k) ∅ ->
  balanced (owned t s') (k r) ∅ /\ forall u, u <> t -> owned u s' = owned u s.
Proof.
  intros Hret Hb. cbn [balanced] in Hb. destruct (bare a) eqn:Hbare; [by apply (bare_stays _ _ _ _ _ Hret) in Hbare|].
  apply returns_mutex in Hret as Hr. clear Hbare Hret. destruct Hb as [_ Hb].
  assert (forall u m, y_mutex s !! m = Some None -> y_mutex s' = <[m := Some t]> (y_mutex s) ->
    owned t s' = {[m]} ∪ owned t s /\ (u <> t -> owned u s' = owned u s)) as Htake.
  { intros u m Hm E. rewrite !(owned_take t _ m s s') by done. rewrite bool_decide_true by done. split; [done|]. intros ?. by rewrite bool_decide_false. }
  assert (forall u m, y_mutex s !! m = Some (Some t) -> y_mutex s' = <[m := None]> (y_mutex s) ->
    owned t s' = owned t s ∖ {[m]} /\ (u <> t -> owned u s' = owned u s)) as Hgive.
  { intros u m Hm E. rewrite !(owned_give t _ m s s') by done. rewrite bool_decide_true by done. split; [done|]. intros ?. by rewrite bool_decide_false. }
  assert (y_mutex s' = y_mutex s -> forall u, owned u s' = owned u s) as Hsame by (intros E u; unfold owned; by rewrite E).
  destruct a; cbn [after mutex_change] in Hb, Hr;
    first [destruct Hr as [Hm E]; split; [destruct (Htake t m Hm E) as [-> _]; done|intros u; by apply (Htake u m)]
          |destruct Hr as [Hm E]; split; [destruct (Hgive t m Hm E) as [-> _]; done|intros u; by apply (Hgive u m)]
          |split; [by rewrite Hsame|intros u _; by apply Hsame]].
Qed.

Lemma returns_owners t a s r s' m u : returns t a s r s' -> y_mutex s' !! m = Some (Some u) -> u = t \/ y_mutex s !! m = Some (Some u).
Proof.
  intros Hr%returns_mutex Hm. destruct a; cbn in Hr; try apply proj2 in Hr; rewrite Hr in Hm; auto;
    apply lookup_insert_Some in Hm; naive_solver.
Qed.

Lemma disciplined_step w w' : disciplined w -> thread_step w w' -> disciplined w'.
Proof.
  intros Hd Hs. destruct Hs as [t a k s r s' ps Hp Hr].
  destruct (returns_dom _ _ _ _ _ Hr) as (E1 & E2 & E3).
  destruct (returns_balanced _ _ _ _ _ _ Hr (d_progs _ Hd t _ Hp)) as [Hk Ho].
  destruct Hd as [D1 D2 D3 D4 D5]; cbn in *. split; cbn; [congruence..| |].
  - intros m u Hu. apply lookup_insert_is_Some. destruct (decide (t = u)); [auto|right].
    destruct (returns_owners _ _ _ _ _ _ _ Hr Hu); [congruence|]. split; [done|]. by eapply D4.
  - intros u p Hu. apply lookup_insert_Some in Hu as [[<- <-]|[Hne Hu]]; [done|]. rewrite Ho by done. by apply D5.
Qed.

(** The threads that misuse a mutex are those at a bare wait. *)
Lemma disciplined_misuse w t a k : disciplined w -> ts_progs w !! t = Some (Call a k) -> misuse t a (ts_sync w) = bare a.
Proof.
  intros Hd Hp. pose proof (d_progs _ Hd t _ Hp) as Ht. cbn [balanced] in Ht. destruct (bare a) eqn:Hb.
  - destruct a as [| |c m| | | | | |]; try done. cbn. apply negb_true_iff, bool_decide_false. intros Hm%owned_spec. rewrite Ht in Hm. set_solver.
  - apply not_true_is_false. intros Hm. destruct Ht as [Ht _]. destruct a; try done; cbn in Ht, Hm.
    + apply bool_decide_eq_true in Hm. apply owned_spec in Hm. by apply may_take_fresh in Ht.
    + apply owned_spec in Ht. by rewrite bool_decide_true in Hm.
    + destruct Ht as [Ht%owned_spec _]. by rewrite bool_decide_true in Hm.
Qed.

(** ** Some thread can always go on *)

(** The mutex that a call waits for. *)
Definition takes (a : call) : option Z :=
  match a with MutexLock m | CondReacquire _ m _ => Some m | _ => None end.

Lemma goes_on w t a k : disciplined w -> ts_progs w !! t = Some (Call a k) -> bare a = false -> (forall m, takes a = Some m -> y_mutex (ts_sync w) !! m = Some None) ->
  exists w', thread_step w w'.
Proof.
  intros Hd Hp Hbare Hfree. pose proof (d_progs _ Hd t _ Hp) as Hb. cbn [balanced] in Hb. rewrite Hbare in Hb. clear Hbare. destruct Hd as [_ Dc Ds _ _].
  assert (forall c, c ∈ l_conds L -> exists ts, y_waiting (ts_sync w) !! c = Some ts) as Hc by (intros c; rewrite <- Dc; apply elem_of_dom).
  assert (forall x, x ∈ l_sems L -> exists n, y_sem (ts_sync w) !! x = Some n) as Hx by (intros x; rewrite <- Ds; apply elem_of_dom).
  assert (exists r s', returns t a (ts_sync w) r s') as (r & s' & Hr).
  { destruct a; cbn in Hb; destruct Hb as [Hb _].
    - eexists _, _. apply ret_lock. by apply Hfree.
    - eexists _, _. apply ret_unlock. by apply owned_spec.
    - destruct Hb as [Hm [ts Hts]%Hc]. eexists _, _. eapply ret_release; [by apply owned_spec|done].
    - destruct Hb as [_ [ts Hts]%Hc]. eexists _, _. eapply ret_woken; [by apply Hfree|done].
    - apply Hc in Hb as [[|u ts] Hts]; eexists _, _; [by apply ret_signal_none|by eapply (ret_signal t c [] u ts)].
    - apply Hc in Hb as [ts Hts]. eexists _, _. by eapply ret_broadcast.
    - destruct Hb as [-> [n Hn]%Hx]. eexists _, _. by eapply ret_sem_timeout.
    - apply Hx in Hb as [n Hn]. eexists _, _. by eapply ret_sem_post.
    - eexists 0, _. apply ret_outside. }
  destruct w as [s ps]; cbn in *. eexists. by eapply thread_calls.
Qed.

Lemma balanced_takes held a k m : balanced held (Call a k) ∅ -> takes a = Some m -> may_take held m.
Proof. intros Hb E. cbn [balanced] in Hb. destruct a; simplify_eq/=; naive_solver. Qed.

(** Along the order of the mutexes there is one that nobody waits for. *)
Lemma chain_goes_on w n : disciplined w -> forall t a k m, ts_progs w !! t = Some (Call a k) -> takes a = Some m ->
  (l_bound L <= n + l_rank L m)%nat -> exists w', thread_step w w'.
Proof.
  intros Hd. induction n as [|n IH]; intros t a k m Hp Ha Hn;
    pose proof (balanced_takes _ _ _ _ (d_progs _ Hd t _ Hp) Ha) as (Hin & Hlt & _); [lia|].
  rewrite <- (d_mutexes _ Hd) in Hin. apply elem_of_dom in Hin as [[u|] Hu].
  2: { eapply goes_on; [done..|by destruct a|]. intros m' E. by simplify_eq. }
  destruct (d_owners _ Hd _ _ Hu) as [p Hpu]. pose proof (d_progs _ Hd _ _ Hpu) as Hb. apply owned_spec in Hu.
 destruct p as [b|a' k']; [cbn in Hb; set_solver|]. destruct (takes a') as [m'|] eqn:Ea.
  - destruct (balanced_takes _ _ _ _ Hb Ea) as (_ & _ & Hrank). specialize (Hrank m Hu). eapply (IH u a' k' m'); [done..|lia].
  - eapply goes_on; [done..| |by rewrite Ea]. cbn [balanced] in Hb. destruct (bare a'); [set_solver|done].
Qed.

(** The thread has come to an end, or to a bare wait. *)
Definition ended (p : prog) : bool := match p with Return _ => true | Call a _ => bare a end.

Lemma disciplined_goes_on w : disciplined w -> map_Forall (fun _ p => ended p = true) (ts_progs w) \/ exists w', thread_step w w'.
Proof.
  intros Hd. destruct (decide (map_Forall (fun _ p => ended p = true) (ts_progs w))) as [Hf|Hf]; [auto|right].
  apply map_not_Forall in Hf as (t & p & Hp & Hn); [|apply _].
  destruct p as [b|a k]; [by destruct Hn|]. apply not_true_is_false in Hn. cbn [ended] in Hn. destruct (takes a) as [m|] eqn:Ea.
  - eapply (chain_goes_on w (l_bound L) Hd t a k m); [done..|lia].
  - eapply goes_on; [done..|]. by rewrite Ea.
Qed.

(** From threads that keep the discipline, a mutex is misused at bare waits only,
    and no state is reached in which every thread that has not ended waits. *)
Lemma disciplined_reach w w' : disciplined w -> rtc thread_step w w' ->
  (forall t a k, ts_progs w' !! t = Some (Call a k) -> misuse t a (ts_sync w') = bare a) /\
  (map_Forall (fun _ p => ended p = true) (ts_progs w') \/ exists w'', thread_step w' w'').
Proof.
  intros Hd Hs. assert (disciplined w') as Hd' by (induction Hs; eauto using disciplined_step).
  split; [intros t a k; by apply disciplined_misuse|by apply disciplined_goes_on].
Qed.

(** At the beginning nobody has a mutex. *)
Lemma disciplined_start s ps : dom (y_mutex s) = l_mutexes L -> dom (y_waiting s) = l_conds L -> dom (y_sem s) = l_sems L ->
  map_Forall (fun _ o => o = None) (y_mutex s) -> map_Forall (fun _ p => balanced ∅ p ∅) ps -> disciplined (mkThreads s ps).
Proof.
  intros H1 H2 H3 Hfree Hps. split; cbn; [done..| |].
  - intros m t Hm. specialize (Hfree m _ Hm). done.
  - intros t p Hp. replace (owned t s) with (∅ : gset Z); [by apply Hps in Hp|].
    apply set_eq. intros m. split; [set_solver|]. intros Hm%owned_spec. specialize (Hfree m _ Hm). done.
Qed.

End discipline.
