(* ===== verification/Threads.v ===== *)
(** The locks that the server's threads take (CRedisClient.cpp, CSqlClient.cpp,
    CRedisServiceMgr.cpp, CSqlServiceMgr.cpp, CConfiger.cpp, CMgrRequest.cpp,
    CReqHandlerObj.h, wLog.cpp, CRcdServiceMgr.cpp, CRcdLogClient.cpp): each
    method as the program of its calls of Locker.cpp, what it does besides as
    [Outside], whose answers decide its branches.

    What the methods compute is modelled in the files of their components; here
    threads that run them are interleaved. *)

From stdpp Require Import base tactics list numbers gmap.
From S2P Require Import Prelude Locks.

Local Open Scope Z_scope.

(** Something elsewhere, and what it says. *)
Definition outside (k : Z -> prog) : prog := Call Outside k.
Definition work : prog := outside (fun _ => Return true).

(** * Logging *)

(** [CResGuard::Defend] in [WriteLog]. *)
Definition lock_WriteLog (log : Z) : prog := LockerGuard log work.

(** * Clients of Redis *)

Definition redis_OnConnect (log : Z) : prog :=
  outside (fun context => next (lock_WriteLog log) (fun _ => Return (negb (context =? 0)))).

Definition redis_ReConnect (locker log : Z) : prog := LockerGuard locker (redis_OnConnect log).

Definition redis_TestOnline (locker log : Z) : prog :=
  next (Locker_lock locker) (fun _ =>
  outside (fun pReply =>
  if negb (pReply =? 0) then next (Locker_unlock locker) (fun _ => Return true)
  else
    next (Locker_unlock locker) (fun _ =>
    next (redis_ReConnect locker log) (fun online =>
    if (online : bool) then next (lock_WriteLog log) (fun _ => Return true)
    else outside (fun iReconnectCount =>
      if 3 <? iReconnectCount then next (lock_WriteLog log) (fun _ => Return false) else Return true))))).

(** Each [ExecCommand] has the lock until it returns. *)
Definition redis_ExecCommand (locker : Z) : prog :=
  LockerGuard locker (outside (fun pReply => Return (negb (pReply =? 0)))).

(** The destructor. *)
Definition redis_delete (locker : Z) : prog := LockerGuard locker work.

(** * Clients of MySQL *)

Definition sql_OnConnect (locker log : Z) : prog :=
  LockerGuard locker
    (outside (fun handle =>
     if handle =? 0 then next (lock_WriteLog log) (fun _ => Return false)
     else outside (fun connected =>
       if connected =? 0 then next (lock_WriteLog log) (fun _ => Return false)
       else outside (fun charset =>
         next (if charset =? 0 then lock_WriteLog log else Return true) (fun _ =>
         outside (fun selected =>
         if selected <? 0 then next (lock_WriteLog log) (fun _ => Return false)
         else next (lock_WriteLog log) (fun _ => Return true))))))).

Definition sql_OnDisConnect (locker : Z) : prog := LockerGuard locker work.

Definition sql_ReConnect (locker log : Z) : prog :=
  next (sql_OnDisConnect locker) (fun _ => sql_OnConnect locker log).

Definition sql_TestOnline (locker log : Z) : prog :=
  outside (fun handle =>
  if handle =? 0 then Return false
  else
    next (LockerGuard locker (outside (fun isline => Return (negb (isline =? 0))))) (fun off =>
    if (off : bool) then
      next (sql_ReConnect locker log) (fun online =>
      if (online : bool) then next (lock_WriteLog log) (fun _ => Return true)
      else outside (fun iReconnectCount =>
        if 3 <? iReconnectCount then next (lock_WriteLog log) (fun _ => Return false) else Return true))
    else Return true)).

(** A statement: a refused one is logged with the lock. *)
Definition sql_ExecSqlCmd (locker log : Z) : prog :=
  LockerGuard locker
    (outside (fun handle =>
     if handle =? 0 then Return false
     else outside (fun ret => if negb (ret =? 0) then next (lock_WriteLog log) (fun _ => Return false) else work))).

(** * The services *)

(** The clients of a map, [TestOnline] for those that are there. *)
Fixpoint test_loop (TestOnline : Z -> prog) (clients : list Z) : prog :=
  match clients with
  | [] => Return true
  | c :: cs => outside (fun p => if p =? 0 then test_loop TestOnline cs
                                 else next (TestOnline c) (fun _ => test_loop TestOnline cs))
  end.

(** The thread of a service, at most [n] turns. *)
Fixpoint lock_OnTestOnLine (n : nat) (TestOnline : Z -> prog) (cond mutex map : Z) (clients : list Z) : prog :=
  match n with
  | O => Return true
  | S n =>
      outside (fun isStop => if negb (isStop =? 0) then Return true
      else next (Cond_waitForSeconds cond mutex) (fun _ =>
           next (LockerGuard map (test_loop TestOnline clients)) (fun _ =>
           lock_OnTestOnLine n TestOnline cond mutex map clients)))
  end.

Definition lock_GetInstance (locker : Z) : prog :=
  outside (fun pInstance => if pInstance =? 0 then LockerGuard locker work else Return true).

Definition lock_GetConfigInfo (config : Z) : prog := LockerGuard config work.

(** [Make…Client] of a client whose lock is [fresh]. *)
Definition lock_MakeRedisClient (fresh log : Z) : prog :=
  next (redis_OnConnect log) (fun ok =>
  if (ok : bool) then Return true
  else next (lock_WriteLog log) (fun _ => next (redis_delete fresh) (fun _ => Return false))).
Definition lock_MakeSqlClient (fresh log : Z) : prog :=
  next (sql_OnConnect fresh log) (fun ok =>
  if (ok : bool) then Return true
  else next (lock_WriteLog log) (fun _ => next (sql_OnDisConnect fresh) (fun _ => Return false))).

Definition lock_InsertClient (map : Z) : prog := LockerGuard map work.

(** [GetRedisClient] and [GetSqlClient] with the way to make a client. *)
Definition lock_GetClient (MakeClient : prog) (map instance config : Z) : prog :=
  next (LockerGuard map (outside (fun it => Return (negb (it =? 0))))) (fun found =>
  if (found : bool) then Return true
  else
    next (lock_GetInstance instance) (fun _ =>
    next (lock_GetConfigInfo config) (fun _ =>
    outside (fun known => if known =? 0 then Return false
    else next MakeClient (fun made => next (lock_InsertClient map) (fun _ => Return made)))))).

(** * Requests *)

Definition lock_GetActiveTime (locker : Z) : prog := LockerGuard locker work.
Definition lock_UpdateActiveTime (locker : Z) : prog := outside (fun _ => LockerGuard locker work).
Definition lock_ReleaseHandler (reqMap : Z) : prog := LockerGuard reqMap work.

Fixpoint active_loop (log : Z) (handlers : list Z) : prog :=
  match handlers with
  | [] => Return true
  | h :: hs =>
      outside (fun pObj => if pObj =? 0 then active_loop log hs
      else next (lock_GetActiveTime h) (fun _ =>
           outside (fun expired => if negb (expired =? 0) then next (lock_WriteLog log) (fun _ => active_loop log hs)
           else active_loop log hs)))
  end.
Definition lock_OnCheckActiveTime (reqMap log : Z) (handlers : list Z) : prog :=
  outside (fun _ => LockerGuard reqMap (active_loop log handlers)).

(** * Records *)

(** [OnTestOnline] of a record client, which is here the locks of its Redis and
    its MySQL client and its condition variable. *)
Definition lock_log_OnTestOnline (redis sql log : Z) : prog :=
  outside (fun both => if both =? 0 then Return false
  else next (redis_TestOnline redis log) (fun ok => if (ok : bool) then sql_TestOnline sql log else Return false)).

(** [OnStop], the join of its thread, and the destructor. *)
Definition lock_log_stop (redis sql cond : Z) : prog :=
  next (Condition_signalAll cond) (fun _ =>
  outside (fun _ =>
  next (redis_delete redis) (fun _ => sql_OnDisConnect sql))).

Fixpoint lock_log_clients (log : Z) (clients : list (Z * Z * Z)) : prog :=
  match clients with
  | [] => Return true
  | (redis, sql, cond) :: cs =>
      outside (fun pClient => if pClient =? 0 then lock_log_clients log cs
      else next (lock_log_OnTestOnline redis sql log) (fun ok =>
           if (ok : bool) then lock_log_clients log cs
           else next (lock_WriteLog log) (fun _ => next (lock_log_stop redis sql cond) (fun _ => lock_log_clients log cs))))
  end.

(** The thread of the record service, at most [n] turns. *)
Fixpoint lock_record_service (n : nat) (cond threadLocker log : Z) (clients : list (Z * Z * Z)) : prog :=
  match n with
  | O => Return true
  | S n =>
      outside (fun isStop => if negb (isStop =? 0) then Return true
      else next (Locker_lock threadLocker) (fun _ =>
           next (Condition_waitForSeconds cond threadLocker) (fun _ =>
           next (lock_log_clients log clients) (fun _ =>
           next (Locker_unlock threadLocker) (fun _ =>
           lock_record_service n cond threadLocker log clients)))))
  end.

(** [GetRedisCount] and [RecordFromRedis]. *)
Definition lock_ask_redis (redis log : Z) : prog :=
  outside (fun pRedisClient => if pRedisClient =? 0 then lock_WriteLog log else redis_ExecCommand redis).

(** [RecordToMysql], and the message when the statement is refused. *)
Definition lock_RecordToMysql (sql log : Z) : prog :=
  next (LockerGuard sql (outside (fun handle => if handle =? 0 then Return false
                         else outside (fun ret => Return (ret =? 0))))) (fun ok =>
  if (ok : bool) then Return true else lock_WriteLog log).

Fixpoint lock_pops (n : nat) (redis log : Z) : prog :=
  match n with O => Return true | S n => next (lock_ask_redis redis log) (fun _ => lock_pops n redis log) end.

(** The batches of a key, at most [n]. *)
Fixpoint lock_batches (n : nat) (redis sql log : Z) : prog :=
  match n with
  | O => Return true
  | S n =>
      next (lock_ask_redis redis log) (fun _ =>
      outside (fun iCount =>
      next (lock_pops (Z.to_nat (if 20 <? iCount then 20 else iCount)) redis log) (fun _ =>
      outside (fun redisCount =>
      let go_on := if 0 <? iCount then lock_batches n redis sql log else Return true in
      if 0 <? redisCount then
        next (lock_RecordToMysql sql log) (fun _ =>
        outside (fun seconds =>
        next (if 1 <? seconds then lock_WriteLog log else Return true) (fun _ =>
        outside (fun enough => if negb (enough =? 0) then Return true else go_on))))
      else go_on))))
  end.

Definition lock_ProccessTargetKey (n : nat) (redis sql log : Z) : prog :=
  outside (fun header =>
  if header =? 0 then
    next (lock_ask_redis redis log) (fun _ =>
    outside (fun Temp => if Temp =? 0 then Return true else lock_RecordToMysql sql log))
  else lock_batches n redis sql log).

(** The keys, of which [keys] are left; the result is [isHaveDone]. *)
Fixpoint lock_keys (keys n : nat) (redis sql log : Z) (isHaveDone : bool) : prog :=
  match keys with
  | O => Return isHaveDone
  | S keys =>
      next (lock_ask_redis redis log) (fun _ =>
      outside (fun iCount =>
      if 0 <? iCount then next (lock_ProccessTargetKey n redis sql log) (fun _ => lock_keys keys n redis sql log false)
      else lock_keys keys n redis sql log true))
  end.

(** The wait of a client whose last key is empty. *)
Definition record_client_wait (cond locker : Z) : prog := Condition_waitForSeconds cond locker.

(** The thread of a record client, at most [turns] turns. *)
Fixpoint lock_log_OnThreadWorker (turns n : nat) (cond locker redis sql log : Z) (isHaveDone : bool) : prog :=
  match turns with
  | O => Return true
  | S turns =>
      outside (fun isStop => if negb (isStop =? 0) then Return true
      else next (lock_keys 6 n redis sql log isHaveDone) (fun isHaveDone =>
           next (if (isHaveDone : bool) then record_client_wait cond locker else Return true) (fun _ =>
           lock_log_OnThreadWorker turns n cond locker redis sql log isHaveDone)))
  end.

(** * What a thread runs *)

Inductive job :=
| JRedisOnTestOnLine (n : nat) (cond mutex map log : Z) (clients : list Z)
| JSqlOnTestOnLine (n : nat) (cond mutex map log : Z) (clients : list Z)
| JGetRedisClient (map instance config fresh log : Z)
| JGetSqlClient (map instance config fresh log : Z)
| JRedisExecCommand (client : Z)
| JSqlExecSqlCmd (client log : Z)
| JUpdateActiveTime (handler : Z)
| JReleaseHandler (reqMap : Z)
| JOnCheckActiveTime (reqMap log : Z) (handlers : list Z)
| JRecordService (n : nat) (cond threadLocker log : Z) (clients : list (Z * Z * Z))
| JRecordClient (turns n : nat) (cond locker redis sql log : Z)
| JSignalAll (cond : Z)
| JWriteLog (log : Z).

Definition job_prog (j : job) : prog :=
  match j with
  | JRedisOnTestOnLine n cond mutex map log clients => lock_OnTestOnLine n (fun c => redis_TestOnline c log) cond mutex map clients
  | JSqlOnTestOnLine n cond mutex map log clients => lock_OnTestOnLine n (fun c => sql_TestOnline c log) cond mutex map clients
  | JGetRedisClient map instance config fresh log => lock_GetClient (lock_MakeRedisClient fresh log) map instance config
  | JGetSqlClient map instance config fresh log => lock_GetClient (lock_MakeSqlClient fresh log) map instance config
  | JRedisExecCommand client => redis_ExecCommand client
  | JSqlExecSqlCmd client log => sql_ExecSqlCmd client log
  | JUpdateActiveTime handler => lock_UpdateActiveTime handler
  | JReleaseHandler reqMap => lock_ReleaseHandler reqMap
  | JOnCheckActiveTime reqMap log handlers => lock_OnCheckActiveTime reqMap log handlers
  | JRecordService n cond threadLocker log clients => lock_record_service n cond threadLocker log clients
  | JRecordClient turns n cond locker redis sql log => lock_log_OnThreadWorker turns n cond locker redis sql log false
  | JSignalAll cond => Cond_signalAll cond
  | JWriteLog log => lock_WriteLog log
  end.

Fixpoint jobs_prog (js : list job) : prog :=
  match js with [] => Return true | j :: js => next (job_prog j) (fun _ => jobs_prog js) end.

(** * The order of the locks *)

Section order.
Context (L : layout).

(** A mutex with its place in the order. *)
Definition at_rank (r : nat) (m : Z) : Prop := m ∈ l_mutexes L /\ l_rank L m = r.
Definition a_cond (c : Z) : Prop := c ∈ l_conds L /\ c ∉ l_bare L.
Definition a_log_client (x : Z * Z * Z) : Prop := at_rank 1 x.1.1 /\ at_rank 1 x.1.2 /\ x.2 ∈ l_conds L.

(** The maps, the configuration and the waits come first, then clients and request
    handlers, then the log; the clients of the record service have condition
    variables of their own. *)
Definition job_ok (j : job) : Prop :=
  match j with
  | JRedisOnTestOnLine _ cond mutex map log clients | JSqlOnTestOnLine _ cond mutex map log clients =>
      a_cond cond /\ at_rank 0 mutex /\ at_rank 0 map /\ at_rank 2 log /\ Forall (at_rank 1) clients
  | JGetRedisClient map instance config fresh log | JGetSqlClient map instance config fresh log =>
      at_rank 0 map /\ at_rank 0 instance /\ at_rank 0 config /\ at_rank 1 fresh /\ at_rank 2 log
  | JRedisExecCommand client => at_rank 1 client
  | JSqlExecSqlCmd client log => at_rank 1 client /\ at_rank 2 log
  | JUpdateActiveTime handler => at_rank 1 handler
  | JReleaseHandler reqMap => at_rank 0 reqMap
  | JOnCheckActiveTime reqMap log handlers => at_rank 0 reqMap /\ at_rank 2 log /\ Forall (at_rank 1) handlers
  | JRecordService _ cond threadLocker log clients => a_cond cond /\ at_rank 0 threadLocker /\ at_rank 2 log /\ Forall a_log_client clients
  | JRecordClient _ _ cond locker redis sql log => cond ∈ l_bare L /\ at_rank 1 redis /\ at_rank 1 sql /\ at_rank 2 log
  | JSignalAll cond => cond ∈ l_conds L
  | JWriteLog log => at_rank 2 log
  end.

Context (Hbound : l_bound L = 3%nat).

(** Everything that is held comes before [r]. *)
Definition below (r : nat) (held : gset Z) : Prop := forall x, x ∈ held -> (l_rank L x < r)%nat.

Lemma take_below r m held : at_rank r m -> below r held -> (r < 3)%nat -> may_take L held m.
Proof. intros [Hin Hr] Hb Hlt. split; [done|]. rewrite Hbound, Hr. auto. Qed.

Lemma below_take r r' m held : at_rank r m -> below r' held -> (r < r')%nat -> below r' ({[m]} ∪ held).
Proof. intros [_ Hr] Hb Hlt x [->%elem_of_singleton|Hx]%elem_of_union; [lia|auto]. Qed.

Lemma below_mono r r' held : below r held -> (r <= r')%nat -> below r' held.
Proof. intros Hb Hle x Hx. specialize (Hb x Hx). lia. Qed.

Lemma below_empty r : below r ∅.
Proof. intros x. set_solver. Qed.

Lemma outside_balanced k held to : (forall r, balanced L held (k r) to) -> balanced L held (outside k) to.
Proof. intros H. by split. Qed.

Lemma guard_rank r m scope held : at_rank r m -> (r < 3)%nat -> below r held ->
  (below (S r) ({[m]} ∪ held) -> balanced L ({[m]} ∪ held) scope ({[m]} ∪ held)) ->
  balanced L held (LockerGuard m scope) held.
Proof.
  intros Hm Hr Hb Hs. apply guard_balanced; [by eapply take_below|]. apply Hs. eapply below_take; [done| |lia].
  eapply below_mono; [done|lia].
Qed.

(** Reads off a program: what is done outside, the branches, and what follows. *)
Local Ltac walk :=
  repeat match goal with
  | |- forall _, _ => intros ?
  | H : balanced _ ?h ?p _ |- balanced _ ?h ?p _ => exact H
  | |- balanced _ _ (Return _) _ => reflexivity
  | |- balanced _ _ (if ?b then _ else _) _ => destruct b
  | |- balanced _ _ (outside _) _ => apply outside_balanced
  | |- balanced _ _ work _ => unfold work
  | H : balanced _ ?h ?p _ |- balanced _ ?h (next ?p _) _ => apply (balanced_next L _ _ _ _ _ H)
  | |- balanced _ ?h (next (Return _) _) _ => apply (balanced_next L _ _ _ h)
  | |- balanced _ ?h (next (if ?b then _ else _) _) _ => destruct b
  | |- balanced _ ?h (next (next _ _) _) _ => apply (balanced_next L _ _ _ h)
  | |- balanced _ ?h (next (outside _) _) _ => apply (balanced_next L _ _ _ h)
  end.

Lemma log_balanced log held : at_rank 2 log -> below 2 held -> balanced L held (lock_WriteLog log) held.
Proof. intros Hl Hb. eapply guard_rank; [done|lia|done|]. intros _. walk. Qed.

Section client.
Context (c log : Z) (held : gset Z) (Hc : at_rank 1 c) (Hlog : at_rank 2 log) (Hheld : below 1 held).

Lemma log_below : below 2 held.
Proof. eapply below_mono; [done|lia]. Qed.

Lemma client_guard scope : (balanced L ({[c]} ∪ held) (lock_WriteLog log) ({[c]} ∪ held) -> balanced L ({[c]} ∪ held) scope ({[c]} ∪ held)) ->
  balanced L held (LockerGuard c scope) held.
Proof. intros H. eapply guard_rank; [done|lia|done|]. intros Hb. apply H. by apply log_balanced. Qed.

Lemma redis_OnConnect_balanced : balanced L held (redis_OnConnect log) held.
Proof. pose proof (log_balanced log held Hlog log_below). unfold redis_OnConnect. walk. Qed.

Lemma redis_ReConnect_balanced : balanced L held (redis_ReConnect c log) held.
Proof. apply client_guard. intros H. unfold redis_OnConnect. walk. Qed.

Lemma redis_TestOnline_balanced : balanced L held (redis_TestOnline c log) held.
Proof.
  pose proof (log_balanced log held Hlog log_below). pose proof redis_ReConnect_balanced.
  assert (may_take L held c) as Hm by (eapply take_below; [done|done|lia]).
  assert (balanced L ({[c]} ∪ held) (Locker_unlock c) held) by (cbn; split; [set_solver|intros _; by apply (give_back L)]).
  unfold redis_TestOnline. eapply (balanced_next L _ _ _ ({[c]} ∪ held)); [by split|]. walk.
Qed.

Lemma redis_ExecCommand_balanced : balanced L held (redis_ExecCommand c) held.
Proof. apply client_guard. intros _. walk. Qed.

Lemma redis_delete_balanced : balanced L held (redis_delete c) held.
Proof. apply client_guard. intros _. walk. Qed.

Lemma sql_OnConnect_balanced : balanced L held (sql_OnConnect c log) held.
Proof. apply client_guard. intros H. walk. Qed.

Lemma sql_OnDisConnect_balanced : balanced L held (sql_OnDisConnect c) held.
Proof. apply client_guard. intros _. walk. Qed.

Lemma sql_TestOnline_balanced : balanced L held (sql_TestOnline c log) held.
Proof.
  pose proof (log_balanced log held Hlog log_below). pose proof sql_OnConnect_balanced. pose proof sql_OnDisConnect_balanced.
  assert (balanced L held (LockerGuard c (outside (fun isline => Return (negb (isline =? 0))))) held) by (apply client_guard; intros _; walk).
  unfold sql_TestOnline, sql_ReConnect. walk.
Qed.

Lemma sql_ExecSqlCmd_balanced : balanced L held (sql_ExecSqlCmd c log) held.
Proof. apply client_guard. intros H. unfold work. walk. Qed.

Lemma GetActiveTime_balanced : balanced L held (lock_GetActiveTime c) held.
Proof. apply client_guard. intros _. walk. Qed.

Lemma MakeRedisClient_balanced : balanced L held (lock_MakeRedisClient c log) held.
Proof.
  pose proof (log_balanced log held Hlog log_below). pose proof redis_OnConnect_balanced. pose proof redis_delete_balanced.
  unfold lock_MakeRedisClient. walk.
Qed.

Lemma MakeSqlClient_balanced : balanced L held (lock_MakeSqlClient c log) held.
Proof.
  pose proof (log_balanced log held Hlog log_below). pose proof sql_OnConnect_balanced. pose proof sql_OnDisConnect_balanced.
  unfold lock_MakeSqlClient. walk.
Qed.

End client.

Lemma first_guard m scope : at_rank 0 m -> (below 1 ({[m]} ∪ ∅) -> balanced L ({[m]} ∪ ∅) scope ({[m]} ∪ ∅)) ->
  balanced L ∅ (LockerGuard m scope) ∅.
Proof. intros Hm H. eapply guard_rank; [done|lia|apply below_empty|done]. Qed.

Lemma test_loop_balanced TestOnline clients held : Forall (fun c => balanced L held (TestOnline c) held) clients ->
  balanced L held (test_loop TestOnline clients) held.
Proof. induction 1; cbn [test_loop]; walk. Qed.

Lemma OnTestOnLine_balanced n TestOnline cond mutex map clients : a_cond cond -> at_rank 0 mutex -> at_rank 0 map ->
  Forall (fun c => forall held, below 1 held -> balanced L held (TestOnline c) held) clients ->
  balanced L ∅ (lock_OnTestOnLine n TestOnline cond mutex map clients) ∅.
Proof.
  intros Hc Hmutex Hmap Hcl.
  assert (may_take L ∅ mutex) as Hm by (eapply take_below; [done|apply below_empty|lia]).
  destruct (cond_wait_balanced L cond mutex ∅ (proj1 Hc) (proj2 Hc) Hm) as [_ Hwait].
  assert (balanced L ∅ (LockerGuard map (test_loop TestOnline clients)) ∅) as Htest.
  { apply first_guard; [done|]. intros Hb. apply test_loop_balanced. eapply Forall_impl; [exact Hcl|]. auto. }
  induction n as [|n IH]; cbn [lock_OnTestOnLine]; walk.
Qed.

Lemma GetClient_balanced MakeClient map instance config : at_rank 0 map -> at_rank 0 instance -> at_rank 0 config ->
  balanced L ∅ MakeClient ∅ -> balanced L ∅ (lock_GetClient MakeClient map instance config) ∅.
Proof.
  intros Hmap Hinst Hconf Hmake.
  assert (forall m, at_rank 0 m -> balanced L ∅ (LockerGuard m work) ∅) as Hw by (intros m Hm; apply first_guard; [done|]; intros _; walk).
  pose proof (Hw _ Hmap). pose proof (Hw _ Hinst). pose proof (Hw _ Hconf).
  assert (balanced L ∅ (LockerGuard map (outside (fun it => Return (negb (it =? 0))))) ∅) by (apply first_guard; [done|]; intros _; walk).
  unfold lock_GetClient, lock_GetInstance, lock_GetConfigInfo, lock_InsertClient. walk.
Qed.

Lemma active_loop_balanced log handlers held : at_rank 2 log -> below 1 held -> Forall (at_rank 1) handlers ->
  balanced L held (active_loop log handlers) held.
Proof.
  intros Hlog Hb. pose proof (log_balanced log held Hlog (log_below held Hb)).
  induction 1 as [|h hs Hh Hhs IH]; cbn [active_loop]; [done|].
  pose proof (GetActiveTime_balanced h log held Hh Hlog Hb). walk.
Qed.

Lemma log_clients_balanced log clients held : at_rank 2 log -> below 1 held -> Forall a_log_client clients ->
  balanced L held (lock_log_clients log clients) held.
Proof.
  intros Hlog Hb. pose proof (log_balanced log held Hlog (log_below held Hb)).
  induction 1 as [|[[r q] c] cs (Hr & Hq & Hc) Hcs IH]; cbn [lock_log_clients]; [done|]. cbn [fst snd] in Hr, Hq, Hc.
  pose proof (redis_TestOnline_balanced r log held Hr Hlog Hb). pose proof (sql_TestOnline_balanced q log held Hq Hlog Hb).
  pose proof (redis_delete_balanced r log held Hr Hlog Hb). pose proof (sql_OnDisConnect_balanced q log held Hq Hlog Hb).
  assert (balanced L held (Condition_signalAll c) held) by (by split).
  unfold lock_log_OnTestOnline, lock_log_stop. walk.
Qed.

Lemma record_service_balanced n cond threadLocker log clients : a_cond cond -> at_rank 0 threadLocker -> at_rank 2 log ->
  Forall a_log_client clients -> balanced L ∅ (lock_record_service n cond threadLocker log clients) ∅.
Proof.
  intros [Hc Hbare] Hm Hlog Hcl. assert (may_take L ∅ threadLocker) as Ht by (eapply take_below; [done|apply below_empty|lia]).
  destruct (condition_wait_balanced L cond threadLocker ∅ Hc Hbare Ht) as [_ Hwait].
  pose proof (log_clients_balanced log clients ({[threadLocker]} ∪ ∅) Hlog (below_take _ _ _ _ Hm (below_empty 1) ltac:(lia)) Hcl).
  induction n as [|n IH]; cbn [lock_record_service]; [done|]. walk.
  eapply (balanced_next L _ _ _ ({[threadLocker]} ∪ ∅)); [by split|]. walk.
  eapply (balanced_next L _ _ _ ∅); [|done]. cbn. split; [set_solver|]. intros _. by apply (give_back L).
Qed.

Section record_client.
Context (redis sql log : Z) (Hredis : at_rank 1 redis) (Hsql : at_rank 1 sql) (Hlog : at_rank 2 log).

Lemma ask_redis_balanced : balanced L ∅ (lock_ask_redis redis log) ∅.
Proof.
  pose proof (log_balanced log ∅ Hlog (below_empty 2)). pose proof (redis_ExecCommand_balanced redis log ∅ Hredis Hlog (below_empty 1)).
  unfold lock_ask_redis. walk.
Qed.

Lemma RecordToMysql_balanced : balanced L ∅ (lock_RecordToMysql sql log) ∅.
Proof.
  pose proof (log_balanced log ∅ Hlog (below_empty 2)).
  assert (balanced L ∅ (LockerGuard sql (outside (fun handle => if handle =? 0 then Return false
    else outside (fun ret => Return (ret =? 0))))) ∅) by (eapply client_guard; [done|done|apply below_empty|intros _; walk]).
  unfold lock_RecordToMysql. walk.
Qed.

Lemma ProccessTargetKey_balanced n : balanced L ∅ (lock_ProccessTargetKey n redis sql log) ∅.
Proof.
  pose proof ask_redis_balanced. pose proof RecordToMysql_balanced. pose proof (log_balanced log ∅ Hlog (below_empty 2)).
  assert (forall n, balanced L ∅ (lock_pops n redis log) ∅) as Hpops by (intros k; induction k; cbn [lock_pops]; walk).
  assert (balanced L ∅ (lock_batches n redis sql log) ∅) by (induction n; cbn [lock_batches]; walk; eapply balanced_next; [apply Hpops|]; walk).
  unfold lock_ProccessTargetKey. walk.
Qed.

Lemma keys_balanced keys n done : balanced L ∅ (lock_keys keys n redis sql log done) ∅.
Proof.
  pose proof ask_redis_balanced. pose proof (ProccessTargetKey_balanced n).
  revert done. induction keys as [|keys IH]; intros done; cbn [lock_keys]; walk; apply IH.
Qed.

(** The thread ends at its first wait. *)
Lemma record_client_balanced turns n cond locker done : cond ∈ l_bare L ->
  balanced L ∅ (lock_log_OnThreadWorker turns n cond locker redis sql log done) ∅.
Proof.
  intros Hc. revert done. induction turns as [|turns IH]; intros done; cbn [lock_log_OnThreadWorker]; walk.
  eapply balanced_next; [apply keys_balanced|]. intros [|]; [|by apply IH]. cbn. by rewrite bool_decide_true.
Qed.
End record_client.

Lemma job_balanced j : job_ok j -> balanced L ∅ (job_prog j) ∅.
Proof.
  destruct j; cbn [job_ok job_prog].
  - intros (Hc & Hm & Hmap & Hlog & Hcl). apply OnTestOnLine_balanced; [done..|].
    eapply Forall_impl; [exact Hcl|]. intros c Hr held Hb. by apply redis_TestOnline_balanced.
  - intros (Hc & Hm & Hmap & Hlog & Hcl). apply OnTestOnLine_balanced; [done..|].
    eapply Forall_impl; [exact Hcl|]. intros c Hr held Hb. by apply sql_TestOnline_balanced.
  - intros (Hmap & Hi & Hco & Hf & Hlog). apply GetClient_balanced; [done..|]. apply MakeRedisClient_balanced; [done..|apply below_empty].
  - intros (Hmap & Hi & Hco & Hf & Hlog). apply GetClient_balanced; [done..|]. apply MakeSqlClient_balanced; [done..|apply below_empty].
  - intros Hc. eapply guard_rank; [done|lia|apply below_empty|]. intros _. walk.
  - intros [Hc Hlog]. apply sql_ExecSqlCmd_balanced; [done..|apply below_empty].
  - intros Hc. unfold lock_UpdateActiveTime. walk. eapply guard_rank; [done|lia|apply below_empty|]. intros _. walk.
  - intros Hm. apply first_guard; [done|]. intros _. walk.
  - intros (Hm & Hlog & Hh). unfold lock_OnCheckActiveTime. walk. apply first_guard; [done|]. intros Hb. by apply active_loop_balanced.
  - intros (Hc & Hm & Hlog & Hcl). by apply record_service_balanced.
  - intros (Hc & Hr & Hq & Hlog). by apply record_client_balanced.
  - intros Hc. by split.
  - intros Hlog. apply log_balanced; [done|apply below_empty].
Qed.

Lemma jobs_balanced js : Forall job_ok js -> balanced L ∅ (jobs_prog js) ∅.
Proof. induction 1; cbn [jobs_prog]; [done|]. eapply balanced_next; [by apply job_balanced|done]. Qed.

End order.

(** * The threads of the server *)

(** The locks before a thread runs: those of the layout, all of them free. *)
Record idle (L : layout) (s : sync) : Prop := {
  i_bound : l_bound L = 3%nat;
  i_mutexes : dom (y_mutex s) = l_mutexes L;
  i_conds : dom (y_waiting s) = l_conds L;
  i_sems : dom (y_sem s) = l_sems L;
  i_free : map_Forall (fun _ o => o = None) (y_mutex s)
}.

(** The condition variables of the record clients that run. *)
Definition job_waits (j : job) : list Z := match j with JRecordClient _ _ cond _ _ _ _ => [cond] | _ => [] end.
Definition record_conds (ts : gmap Z (list job)) : gset Z := list_to_set (x ← map_to_list ts; x.2 ≫= job_waits).

(** The thread is about to wait on one of them. *)
Definition in_record_wait (ts : gmap Z (list job)) (p : prog) : Prop := exists c m k, p = Call (CondRelease c m) k /\ c ∈ record_conds ts.

Lemma bare_spec L ts a k : l_bare L = record_conds ts -> bare L a = true <-> in_record_wait ts (Call a k).
Proof.
  intros E. unfold bare. rewrite E. split.
  - destruct a as [| |c m| | | | | |]; try done. intros Hc%bool_decide_eq_true. by exists c, m, k.
  - intros (c & m & k' & [= -> _] & Hc). by apply bool_decide_eq_true.
Qed.


(** One thread looks after two clients, one asks for a client and sends a command,
    one sweeps the requests, and two are the record service and its client. *)
Definition demo_layout : layout :=
  mkLayout (fun m => if m <=? 3 then 0%nat else if m <=? 6 then 1%nat else 2%nat) 3 {[0; 1; 2; 3; 4; 5; 6; 7; 8]} {[0; 1]} ∅ {[1]}.
Definition demo_sync : sync :=
  mkSync (list_to_map ((fun m => (m, None)) <$> [0; 1; 2; 3; 4; 5; 6; 7; 8])) {[0 := []; 1 := []]} ∅.
Definition demo_jobs : gmap Z (list job) :=
  list_to_map [(1, [JRedisOnTestOnLine 2 0 0 1 7 [4; 5]]);
               (2, [JGetSqlClient 1 2 3 6 7; JSqlExecSqlCmd 4 7]);
               (3, [JOnCheckActiveTime 2 7 [5; 6]; JSignalAll 0]);
               (4, [JRecordService 2 0 3 7 [(5, 6, 1)]]);
               (5, [JRecordClient 2 3 1 8 5 6 7])].

Lemma demo_idle : idle demo_layout demo_sync.
Proof.
  split; try (by vm_compute). intros m o Hm. apply elem_of_list_to_map_2, list_elem_of_fmap in Hm as (? & [= -> ->] & _). done.
Qed.


(** A record client whose sets are empty comes to that wait in its first turn. *)
Lemma step_thread t a k s r s' : returns t a s r s' -> thread_step (mkThreads s {[t := Call a k]}) (mkThreads s' {[t := k r]}).
Proof.
  intros H. assert (<[t := k r]> {[t := Call a k]} = ({[t := k r]} : gmap Z prog)) as <- by apply insert_insert_eq.
  eapply thread_calls; [apply lookup_singleton_eq|done].
Qed.

Lemma record_client_waits turns n : exists w,
  rtc thread_step (mkThreads demo_sync {[5 := jobs_prog [JRecordClient (S turns) n 1 8 5 6 7]]}) w /\ misused w.
Proof.
  eexists. split.
  - repeat (eapply rtc_l; [apply step_thread;
      first [apply ret_lock; vm_compute; reflexivity|apply ret_unlock; vm_compute; reflexivity|apply (ret_outside _ 0)]|]).
    apply rtc_refl.
  - eexists 5, _, _. split; [apply lookup_singleton_eq|]. vm_compute. reflexivity.
Qed.
