(* ===== verification/Server.v ===== *)
(** The event loops of the server at work (CEventBaseMgr.cpp, CMainEventBase.cpp):
    the main thread accepts connections, libevent calls the callbacks of the
    events that have been added.

    The state is that of [Connection] with what the program has asked of
    libevent: the events that are assigned and added, each with its base, its
    descriptor and its callback, and the event of each context.  libevent is free
    to call the callback of any event that is added; what it and the other
    libraries answer is an input.  The kernel is the set of open descriptors: it
    gives out one that is not open.  Callbacks are not interleaved. *)

From stdpp Require Import base tactics sets list numbers strings gmap.
From S2P Require Import Prelude StateMonad Text Http Request Connection.

Local Open Scope Z_scope.

(** [PipeReadCallBack] of a thread, [TimeoutCallBack], [EventCallBack] of a
    context. *)
Inductive handler := CbPipe (i : nat) | CbTimer | CbConnection (pCtx : Z).

Record evreg := mkEv { ev_base : Z; ev_fd : Z; ev_cb : handler }.

(** [OnStart]: each thread gets the event of its pipe and that of its timer.
    [addrs] are the results of [event_new]; [event_assign] writes to them. *)
Fixpoint start_loop (i : nat) (addrs : list (Z * Z)) (ts : list LibEvThread) (events : gmap Z evreg) {struct ts}
  : outcome (gmap Z evreg) :=
  match ts with
  | [] => Ok events
  | t :: ts' =>
      match addrs with
      | [] => Fault Blocks
      | (ev, evtime) :: addrs' =>
          if (ev =? 0) || (evtime =? 0) then Fault NullDeref
          else start_loop (S i) addrs' ts'
                 (<[evtime := mkEv (th_pBase t) (-1) CbTimer]> (<[ev := mkEv (th_pBase t) (th_recvfd t) (CbPipe i)]> events))
      end
  end.

Section system.
Context {S : Type} `{ObjectPool S}.

Record system := mkSystem {
  y_loop : loop S;
  y_threads : list LibEvThread;
  y_events : gmap Z evreg;
  y_pEvent : gmap Z Z;
  y_open : gset Z
}.
Abbreviation YM := (SM system).

Definition y_ctxs (s : system) : gmap Z EventCtx := v_ctxs (l_server (y_loop s)).
Definition y_num (s : system) : Z := zlen (y_threads s).

Definition set_loop x s := mkSystem x (y_threads s) (y_events s) (y_pEvent s) (y_open s).
Definition set_threads x s := mkSystem (y_loop s) x (y_events s) (y_pEvent s) (y_open s).
Definition set_events x y s := mkSystem (y_loop s) (y_threads s) x y (y_open s).
Definition set_open x s := mkSystem (y_loop s) (y_threads s) (y_events s) (y_pEvent s) x.

Definition on_loop {A} (m : SM (loop S) A) : YM A := fun s =>
  match m (y_loop s) with Ok (a, l) => Ok (a, set_loop l s) | Fault f => Fault f end.

(** The libraries have these answers for the callback. *)
Definition give_answers (net : list netret) : YM unit :=
  smodify (fun s => let l := y_loop s in set_loop (mkLoop (l_server l) net (l_sent l) (l_ctxrefs l) (l_ssls l)) s).

(** ** Contexts *)

(** The destructor of [event_ctx], for a context that [Request] and [Connection]
    have deleted: the event is removed and freed, the SSL objects are released
    and the socket is closed. *)
Definition delete_event_ctx (c : Z) (x : EventCtx) (s : system) : system :=
  let events := match y_pEvent s !! c with Some ev => delete ev (y_events s) | None => y_events s end in
  let l := y_loop s in
  let refs := if ctx_ssl x then 1 else 0 in
  mkSystem (mkLoop (l_server l) (l_net l) (l_sent l) (l_ctxrefs l - refs) (l_ssls l - refs)) (y_threads s)
    events (delete c (y_pEvent s)) (y_open s ∖ {[ctx_sock x]}).

(** A callback, and the destructors of the contexts that it has deleted. *)
Definition callback (m : SM (loop S) unit) : YM unit :=
  do* s := sget in
  do* _ := on_loop m in
  smodify (fun s' =>
    let gone := filter (fun p => y_ctxs s' !! p.1 = None) (y_ctxs s) in
    foldr (fun p => delete_event_ctx p.1 p.2) s' (map_to_list gone)).

(** [OnPipeReadCallback] with the event of the new context: [event_assign] and
    [event_add]. *)
Definition connect_event (enablessl : bool) (sockfd pBase pCtx ev : Z) : YM unit :=
  do* _ := on_loop (OnPipeReadCallback enablessl sockfd pCtx) in
  do* s := sget in
  if bool_decide (is_Some (y_ctxs s !! pCtx)) then
    if ev =? 0 then scrash NullDeref
    else smodify (set_events (<[ev := mkEv pBase sockfd (CbConnection pCtx)]> (y_events s)) (<[pCtx := ev]> (y_pEvent s)))
  else sret tt.

(** [PipeReadCallBack] of the thread [i]. *)
Definition pipe_event (enablessl : bool) (i : nat) (pCtx ev : Z) : YM unit :=
  do* s := sget in
  match y_threads s !! i with
  | None => scrash OutOfBounds
  | Some t =>
      do* (sockfd, t') := slift (PipeReadCallBack t) in
      do* _ := smodify (set_threads (<[i := t']> (y_threads s))) in
      connect_event enablessl sockfd (th_pBase t) pCtx ev
  end.

(** ** Inputs *)

(** What a callback meets: the time, the answers of the kernel and of OpenSSL,
    and the addresses that [new EventCtx] and [event_new] return. *)
Record answers := mkAnswers { an_now : Z; an_net : list netret; an_ctx : Z; an_ev : Z }.

Inductive input :=
| Accepted (connfd : Z) (room : bool)
| Fired (ev : Z) (a : answers).

(** The allocator gives addresses that are not in use. *)
Definition fresh_addresses (a : answers) (s : system) : bool :=
  negb (an_ctx a =? 0) && bool_decide (y_ctxs s !! an_ctx a = None) && bool_decide (y_events s !! an_ev a = None).

(** An event that is not added, or not ready, is not called; a descriptor that is
    open is not given out. *)
Definition step (enablessl : bool) (x : input) : YM unit :=
  do* s := sget in
  match x with
  | Accepted connfd room =>
      if (connfd <? 0) || (INT_MAX <? connfd) || bool_decide (connfd ∈ y_open s) then sret tt
      else
        do* _ := smodify (set_open ({[connfd]} ∪ y_open s)) in
        do* ts := slift (DoAccept (y_num s) [(connfd, room)] (y_threads s)) in
        smodify (set_threads ts)
  | Fired ev a =>
      match y_events s !! ev with
      | None => sret tt
      | Some e =>
          match ev_cb e with
          | CbPipe i =>
              if bool_decide ((th_pipe <$> y_threads s !! i) = Some []) || negb (fresh_addresses a s) then sret tt
              else
                do* _ := give_answers (an_net a) in
                pipe_event enablessl i (an_ctx a) (an_ev a)
          | CbTimer => callback (TimeoutCallBack (an_now a))
          | CbConnection pCtx =>
              do* _ := give_answers (an_net a) in
              callback (EventCallBack enablessl (ev_fd e) pCtx (an_now a))
          end
      end
  end.

Fixpoint run_inputs (enablessl : bool) (xs : list input) : YM unit :=
  match xs with
  | [] => sret tt
  | x :: xs' => do* _ := step enablessl x in run_inputs enablessl xs'
  end.

(** The server after [LibEvInit] and [OnStart]. *)
Definition start (pool : S) (n : Z) (news : list newthread) (pids : list Z) (addrs : list (Z * Z)) : outcome system :=
  let! ts := LibEvInit n news in
  let ts := OnStart pids ts in
  let! events := start_loop 0 addrs ts ∅ in
  Ok (mkSystem (mkLoop (mkServer pool ∅ ∅ false ∅ []) [] [] 0 0) ts events ∅ ∅).
End system.
Arguments system : clear implicits.
