(* ===== verification/ServerSpec.v ===== *)
(** The server at work: every descriptor that was accepted is in one place, and
    libevent has exactly the events of the contexts that are there. *)

From stdpp Require Import base tactics sets list numbers strings gmap.
From S2P Require Import Prelude StateMonad Text Http HttpSpec Request RequestSpec RequestProps Connection ConnectionSpec Server.

Local Open Scope Z_scope.

(** * What becomes of contexts *)

Section frame.
Context {S : Type} `{ObjectPool S}.

(** What a computation of the manager may do to the contexts and to the list of
    closed descriptors. *)
Class Framed (R : relation (server S)) := {
  framed_pre :: PreOrder R;
  framed_same v v' : v_ctxs v' = v_ctxs v -> v_closed v' = v_closed v -> R v v'
}.

(** It deletes contexts at most; it leaves them alone. *)
Definition shrinks (v v' : server S) : Prop := v_ctxs v' ⊆ v_ctxs v.
Definition same_ctxs (v v' : server S) : Prop := v_ctxs v' = v_ctxs v /\ v_closed v' = v_closed v.

#[export] Instance shrinks_framed : Framed shrinks.
Proof.
  split; [split; [intros v; unfold shrinks; reflexivity|intros v1 v2 v3 H1 H2; unfold shrinks; by transitivity (v_ctxs v2)]|].
  intros v v' E _. unfold shrinks. rewrite E. reflexivity.
Qed.
#[export] Instance same_framed : Framed same_ctxs.
Proof. split; [split; [done|intros v1 v2 v3 [] []; split; congruence]|done]. Qed.

Definition frames (R : relation (server S)) {A} (m : SM (server S) A) : Prop := forall v a v', m v = Ok (a, v') -> R v v'.

Section rules.
Context (R : relation (server S)) `{!Framed R}.

Lemma frames_bind {A B} (m : SM (server S) A) (k : A -> SM (server S) B) : frames R m -> (forall a, frames R (k a)) -> frames R (sbind m k).
Proof.
  intros Hm Hk v b v'. unfold sbind. destruct (m v) as [[a v1]|] eqn:E; [|done]. intros E'. transitivity v1; [by eapply Hm|by eapply Hk].
Qed.
Lemma frames_ret {A} (a : A) : frames R (sret a).
Proof. intros v x v' [= _ <-]. reflexivity. Qed.
Lemma frames_get : frames R sget.
Proof. intros v x v' [= _ <-]. reflexivity. Qed.
Lemma frames_lift {A} (o : outcome A) : frames R (slift o).
Proof. intros v a v'. unfold slift. destruct o; intros [= _ <-]. reflexivity. Qed.
Lemma frames_modify f : (forall v, same_ctxs v (f v)) -> frames R (smodify f).
Proof. intros Hf v a v' [= _ <-]. by apply framed_same; apply Hf. Qed.
Lemma frames_lock : frames R lock.
Proof. intros v a v'. unfold lock. destruct (m_LockerReqMap v); intros [= _ <-]. by apply framed_same. Qed.
Lemma frames_get_obj a : frames R (get_obj a).
Proof. intros v o v'. unfold get_obj. destruct (v_objs v !! a); intros [= _ <-]. reflexivity. Qed.
Lemma frames_get_ctx c : frames R (get_ctx c).
Proof. intros v o v'. unfold get_ctx. destruct (v_ctxs v !! c); intros [= _ <-]. reflexivity. Qed.
Lemma frames_on_pool {A} (m : SM S A) : frames R (on_pool m).
Proof. intros v a v'. unfold on_pool. destruct (m (v_pool v)) as [[]|]; intros [= _ <-]. by apply framed_same. Qed.
Lemma frames_on_obj {A} a (m : SM CReqHandlerObj A) : frames R (on_obj a m).
Proof.
  intros v x v'. unfold on_obj. destruct (v_objs v !! a) as [o|]; [|done]. destruct (m o) as [[]|]; intros [= _ <-]. by apply framed_same.
Qed.
End rules.

Lemma frames_free c : frames shrinks (EventCtx_free c).
Proof.
  unfold EventCtx_free. destruct (c =? 0); [apply frames_ret, _|]. apply frames_bind; [apply _|apply frames_get_ctx, _|].
  intros x v a v' [= _ <-]. apply delete_subseteq.
Qed.
End frame.

(** Follows a computation of the manager. *)
Ltac keep :=
  repeat match goal with
  | |- forall _, frames _ _ => intros ?
  | |- frames _ (match ?x with _ => _ end) => destruct x
  | |- frames _ (sbind _ _) => apply frames_bind; [apply _|..]
  | |- frames _ (sret _) => apply frames_ret, _
  | |- frames _ sget => apply frames_get, _
  | |- frames _ (slift _) => apply frames_lift, _
  | |- frames _ lock => apply frames_lock, _
  | |- frames _ unlock => apply frames_modify; [apply _|done]
  | |- frames _ (smodify _) => apply frames_modify; [apply _|done]
  | |- frames _ (get_obj _) => apply frames_get_obj, _
  | |- frames _ (get_ctx _) => apply frames_get_ctx, _
  | |- frames _ (on_pool _) => apply frames_on_pool, _
  | |- frames _ (on_obj _ _) => apply frames_on_obj, _
  | |- frames _ (EventCtx_free _) => apply frames_free
  | |- frames _ (delete_obj _) => unfold delete_obj
  | |- frames _ (create_obj _) => unfold create_obj
  end.

Section callbacks.
Context {S : Type} `{ObjectPool S}.

Lemma frames_check_loop now keys : frames (S := S) shrinks (check_loop now keys).
Proof. induction keys as [|k keys IH]; cbn [check_loop]; unfold check_active; keep; done. Qed.

Lemma frames_OnCheckActiveTime now : frames (S := S) shrinks (OnCheckActiveTime now).
Proof. unfold OnCheckActiveTime. keep. apply frames_check_loop. Qed.

(** A request leaves the contexts alone. *)
Lemma frames_HandleRequest R `{!Framed R} pev now request reply : frames (S := S) R (HandleRequest pev now request reply).
Proof. unfold HandleRequest, collect_request, finish_request. keep. Qed.

(** The same for a callback, which leaves the SSL objects to the destructors. *)
Definition lkeeps {A} (m : SM (loop S) A) : Prop := forall l a l', m l = Ok (a, l') ->
  v_ctxs (l_server l') ⊆ v_ctxs (l_server l) /\ l_ctxrefs l' = l_ctxrefs l /\ l_ssls l' = l_ssls l.

Lemma lkeeps_bind {A B} (m : SM (loop S) A) (k : A -> SM (loop S) B) : lkeeps m -> (forall a, lkeeps (k a)) -> lkeeps (sbind m k).
Proof.
  intros Hm Hk l b l'. unfold sbind. destruct (m l) as [[a l1]|] eqn:E; [|done]. intros E'.
  destruct (Hm _ _ _ E) as (H1 & H2 & H3). destruct (Hk _ _ _ _ E') as (H1' & H2' & H3'). split_and!; [by transitivity (v_ctxs (l_server l1))|congruence..].
Qed.
Lemma lkeeps_ret {A} (a : A) : lkeeps (sret a).
Proof. by intros ? ? ? [= _ ->]. Qed.
Lemma lkeeps_lift {A} (o : outcome A) : lkeeps (slift o).
Proof. intros l a l'. unfold slift. by destruct o; intros [= _ ->]. Qed.
Lemma lkeeps_server {A} (m : SM (server S) A) : frames shrinks m -> lkeeps (on_server m).
Proof. intros Hm l a l'. unfold on_server. destruct (m (l_server l)) as [[x v]|] eqn:E; intros [= _ <-]. split; [by eapply Hm|done]. Qed.
Lemma lkeeps_net {A} (f : list netret -> outcome (A * list netret)) : lkeeps (on_net f).
Proof. intros l a l'. unfold on_net. by destruct (f (l_net l)) as [[]|]; intros [= _ <-]. Qed.
Lemma lkeeps_sent fd d : lkeeps (add_sent fd d).
Proof. by intros l a l' [= _ <-]. Qed.

Lemma lkeeps_EventCallBack enablessl fd pCtx now : lkeeps (EventCallBack enablessl fd pCtx now).
Proof.
  unfold EventCallBack. cbv zeta. repeat match goal with
  | |- forall _, lkeeps _ => intros ?
  | |- lkeeps (match ?x with _ => _ end) => destruct x
  | |- lkeeps (sbind _ _) => apply lkeeps_bind
  | |- lkeeps (sret _) => apply lkeeps_ret
  | |- lkeeps (slift _) => apply lkeeps_lift
  | |- lkeeps (on_net _) => apply lkeeps_net
  | |- lkeeps (add_sent _ _) => apply lkeeps_sent
  | |- lkeeps (on_server _) => apply lkeeps_server
  end; keep. apply frames_HandleRequest, _.
Qed.

Lemma lkeeps_TimeoutCallBack now : lkeeps (TimeoutCallBack now).
Proof. apply lkeeps_server, frames_OnCheckActiveTime. Qed.
End callbacks.

(** * Descriptors that are given up *)

(** OpenSSL refuses a connection: one of the calls that set it up fails, or its
    handshake does, whose answer is the first that does not ask to be called
    again. *)
Definition asks_again (a : netret) : bool :=
  negb (nr_val a =? 1) && ((nr_err a =? SSL_ERROR_WANT_READ) || (nr_err a =? SSL_ERROR_WANT_WRITE)).
Definition handshake_fails (net : list netret) : bool :=
  match filter (fun a => asks_again a = false) net with a :: _ => negb (nr_val a =? 1) | [] => false end.
Fixpoint refused (fails : list (Z -> bool)) (net : list netret) : bool :=
  match fails, net with
  | f :: fails', a :: net' => f (nr_val a) || refused fails' net'
  | [], _ => handshake_fails net
  | _, [] => false
  end.
Definition ssl_refused : list netret -> bool :=
  let is_null r := r =? 0 in let fails r := r <=? 0 in refused [is_null; is_null; fails; fails; is_null; is_null].

Lemma accept_loop_handshake net ok rest : accept_loop net = Ok (ok, rest) -> ok = negb (handshake_fails net).
Proof.
  revert ok rest. induction net as [|a net IH]; intros ok rest; [done|]. cbn [accept_loop]. unfold handshake_fails. rewrite filter_cons.
  destruct (decide (asks_again a = false)) as [Ha|Ha]; unfold asks_again in Ha; destruct (nr_val a =? 1); cbn [negb andb] in *; try done.
  - by intros [= <- _].
  - rewrite Ha. by intros [= <- _].
  - apply not_false_is_true in Ha. rewrite Ha. apply IH.
Qed.

Lemma CreateSSL_refused {S} (l l' : loop S) ok : CreateSSL true l = Ok (ok, l') -> ok = negb (ssl_refused (l_net l)).
Proof.
  unfold CreateSSL, ssl_refused. cbv zeta. cbn [negb]. destruct l as [v net sent refs ssls]. unfold sbind, ssl_call, ssl_fail, sbind, add_ssl, smodify, sret.
  cbn [l_net l_server l_sent l_ctxrefs l_ssls].
  repeat (match goal with
    | |- context [match ?n with [] => Fault Blocks | _ => _ end] => destruct n as [|? ?]; [done|]; cbn [l_net l_server l_sent l_ctxrefs l_ssls refused]
    | |- context [if ?b then _ else _] => destruct b; [by intros [= <- _]|]; cbn [orb l_net l_server l_sent l_ctxrefs l_ssls]
    end).
  unfold on_net. cbn [l_net]. match goal with |- context [accept_loop ?n] => destruct (accept_loop n) as [[b rest]|] eqn:E; [|done] end.
  apply accept_loop_handshake in E. by destruct b; intros [= <- _].
Qed.

Section given_up.
Context {S : Type} `{ObjectPool S} (enablessl : bool).

(** The descriptor that the program gives up on an input, open: the one it
    accepts when the pipe is full, the one it takes from a pipe when OpenSSL
    refuses it. *)
Definition gives_up (x : input) (s : system S) : gset Z :=
  match x with
  | Accepted connfd room => if (connfd <? 0) || (INT_MAX <? connfd) || bool_decide (connfd ∈ y_open s) || room then ∅ else {[connfd]}
  | Fired ev a =>
      match y_events s !! ev with
      | Some (mkEv _ _ (CbPipe i)) =>
          match th_pipe <$> y_threads s !! i with
          | Some (c :: d) => if enablessl && fresh_addresses a s && ssl_refused (an_net a) then {[bytes_int (take 4 (c :: d))]} else ∅
          | _ => ∅
          end
      | _ => ∅
      end
  end.

Fixpoint given_up (xs : list input) (s : system S) : gset Z :=
  match xs with
  | [] => ∅
  | x :: xs' => gives_up x s ∪ match step enablessl x s with Ok (_, s') => given_up xs' s' | Fault _ => ∅ end
  end.
End given_up.

(** Without SSL, and with room in the pipes, none is. *)
Lemma none_given_up {S} `{ObjectPool S} xs : Forall (fun x => forall fd, x <> Accepted fd false) xs -> forall s, given_up false xs s = ∅.
Proof.
  induction 1 as [|x xs Hx _ IH]; intros s; [done|]. cbn [given_up].
  assert (match step false x s with Ok (_, s') => given_up false xs s' | Fault _ => ∅ end = ∅) as -> by (destruct (step false x s) as [[]|]; [apply IH|done]).
  rewrite (right_id_L ∅ (∪)). destruct x as [fd [|]|ev a]; cbn [gives_up]; [by rewrite orb_true_r|by destruct (Hx fd)|].
  destruct (y_events s !! ev) as [[b fd []]|]; try done. by destruct (th_pipe <$> _) as [[]|].
Qed.

(** * The invariant *)

Section invariant.
Context {S : Type} `{ObjectPool S} (enablessl : bool) (E0 : gmap Z evreg).
Implicit Types lost : gset Z.

(** With the descriptors [qs] in the pipes, the contexts [C] and the descriptors
    [lost] that have been given up: the descriptors that are open are those in the
    pipe of their thread, those of the contexts and those given up, each in one
    place only; each context has the one event that refers to it, on the base of
    the thread of its descriptor; the events of pipes and timers are those of the
    start, [E0]; and the program holds the SSL objects of the contexts. *)
Record accounted (lost : gset Z) (qs : list (list Z)) (C : gmap Z EventCtx) (s : system S) : Prop := {
  sa_pipes : Forall2 (fun t q => th_pipe t = pipe_text q) (y_threads s) qs;
  sa_thread i q fd : qs !! i = Some q -> fd ∈ q -> 0 <= fd <= INT_MAX /\ Z.to_nat (Z.rem fd (y_num s)) = i;
  sa_queued : NoDup (concat qs);
  sa_socks c1 c2 x1 x2 : C !! c1 = Some x1 -> C !! c2 = Some x2 -> ctx_sock x1 = ctx_sock x2 -> c1 = c2;
  sa_apart c x : C !! c = Some x -> ctx_sock x ∉ concat qs;
  sa_open_queued fd : fd ∈ concat qs -> fd ∈ y_open s;
  sa_open_ctx c x : C !! c = Some x -> ctx_sock x ∈ y_open s;
  sa_event ev e c : y_events s !! ev = Some e -> ev_cb e = CbConnection c -> y_pEvent s !! c = Some ev /\ is_Some (C !! c);
  sa_ctx c x : C !! c = Some x -> exists ev t, y_pEvent s !! c = Some ev /\
    y_threads s !! Z.to_nat (Z.rem (ctx_sock x) (y_num s)) = Some t /\
    y_events s !! ev = Some (mkEv (th_pBase t) (ctx_sock x) (CbConnection c)) /\ ctx_ssl x = enablessl;
  sa_null : C !! 0 = None;
  sa_static ev e : (forall c, ev_cb e <> CbConnection c) -> y_events s !! ev = Some e <-> E0 !! ev = Some e;
  sa_ssl : l_ctxrefs (y_loop s) = (if enablessl then Z.of_nat (size C) else 0) /\ l_ssls (y_loop s) = l_ctxrefs (y_loop s);
  sa_open fd : fd ∈ y_open s -> fd ∈ concat qs \/ (exists c x, C !! c = Some x /\ ctx_sock x = fd) \/ fd ∈ lost;
  sa_lost fd : fd ∈ lost -> fd ∈ y_open s /\ fd ∉ concat qs /\ forall c x, C !! c = Some x -> ctx_sock x <> fd
}.

(** ** Destructors *)

Lemma delete_event_ctx_ok lost qs C s c x : accounted lost qs C s -> C !! c = Some x -> accounted lost qs (delete c C) (delete_event_ctx c x s).
Proof.
  intros [P1 P2 P3 P4 P5 P6 P7 P8 P9 P10 P0 [P11 P12] P13 P14] Hc. destruct (P9 c x Hc) as (ev & t & Hpe & Ht & Hev & Hssl).
  unfold delete_event_ctx. rewrite Hpe. split; cbn; try done.
  - intros c1 c2 x1 x2 [_ H1]%lookup_delete_Some [_ H2]%lookup_delete_Some. by apply (P4 c1 c2 x1 x2).
  - intros c1 x1 [_ H1]%lookup_delete_Some. by eapply P5.
  - intros fd Hfd. apply elem_of_difference. split; [by apply P6|]. intros ->%elem_of_singleton. by apply (P5 c x).
  - intros c1 x1 [Hne H1]%lookup_delete_Some. apply elem_of_difference. split; [by eapply P7|].
    intros E%elem_of_singleton. apply Hne. by apply (P4 c c1 x x1).
  - intros ev1 e c1 [Hne He]%lookup_delete_Some Hcb. destruct (P8 ev1 e c1 He Hcb) as [Hp HC].
    assert (c <> c1) by (intros ->; congruence). by rewrite !lookup_delete_ne.
  - intros c1 x1 [Hne H1]%lookup_delete_Some. destruct (P9 c1 x1 H1) as (ev1 & t1 & Hp & Hth & He & Hs). exists ev1, t1.
    rewrite !lookup_delete_ne by (done || intros ->; simplify_eq; congruence). done.
  - apply lookup_delete_None. by right.
  - intros ev1 e Hst. rewrite <- P0 by done. rewrite lookup_delete_Some. split; [by intros [_ ?]|]. intros He. split; [|done].
    intros ->. rewrite Hev in He. simplify_eq. by apply (Hst c).
  - rewrite P11, P12, Hssl, P11. rewrite map_size_delete, Hc. cbn [fmap option_fmap option_map].
    assert (size C <> 0)%nat by (intros E%map_size_empty_inv; by rewrite E in Hc). destruct enablessl; split; lia.
  - intros fd [Hfd Hne]%elem_of_difference. apply not_elem_of_singleton in Hne. destruct (P13 fd Hfd) as [?|[(c1 & x1 & H1 & <-)|?]]; [by left| |by right; right].
    right. left. exists c1, x1. split; [|done]. apply lookup_delete_Some. split; [|done]. intros ->. congruence.
  - intros fd Hfd. destruct (P14 fd Hfd) as (Ho & Hq & Hn). split_and!; [|done|].
    + apply elem_of_difference. split; [done|]. intros ->%elem_of_singleton. by apply (Hn c x).
    + intros c1 x1 [_ H1]%lookup_delete_Some. by apply (Hn c1 x1).
Qed.

Lemma destructors_ok lost qs l : forall C s, NoDup l.*1 -> (forall c x, (c, x) ∈ l -> C !! c = Some x) -> accounted lost qs C s ->
  accounted lost qs (foldr (fun p : Z * EventCtx => delete p.1) C l) (foldr (fun p => delete_event_ctx p.1 p.2) s l).
Proof.
  induction l as [|[c x] l IH]; intros C s Hnd Hl Hi; [done|]. cbn [foldr fst snd]. cbn in Hnd. apply NoDup_cons in Hnd as [Hc Hnd].
  apply delete_event_ctx_ok; [apply IH; [done| |done]; intros c1 x1 H1; apply Hl; by right|].
  assert (forall l, c ∉ l.*1 -> foldr (fun p : Z * EventCtx => delete p.1) C l !! c = C !! c) as E.
  { clear. intros l. induction l as [|[c1 x1] l IH]; [done|]. cbn. intros [Hne Hl]%not_elem_of_cons. rewrite lookup_delete_ne by done. by apply IH. }
  rewrite E by done. apply Hl. by left.
Qed.

(** What is left when the contexts that are gone have been destroyed. *)
Lemma destroyed_left (C C' : gmap Z EventCtx) : C' ⊆ C ->
  foldr (fun p : Z * EventCtx => delete p.1) C (map_to_list (filter (fun p => C' !! p.1 = None) C)) = C'.
Proof.
  intros Hsub. apply map_eq. intros c. set (l := map_to_list _).
  assert (forall l, foldr (fun p : Z * EventCtx => delete p.1) C l !! c = if bool_decide (c ∈ l.*1) then None else C !! c) as ->.
  { clear. intros l. induction l as [|[c1 x1] l IH]; [done|]. cbn [foldr fst fmap list_fmap]. destruct (decide (c1 = c)) as [->|Hne].
    - by rewrite lookup_delete_eq, bool_decide_true by (by left).
    - rewrite lookup_delete_ne, IH by done. repeat case_bool_decide; set_solver. }
  assert (c ∈ l.*1 <-> is_Some (C !! c) /\ C' !! c = None) as Hl.
  { unfold l. split.
    - intros ([c1 x] & -> & Hx)%list_elem_of_fmap. apply elem_of_map_to_list, map_lookup_filter_Some in Hx as [Hx Hn]. cbn in *. split; [by eexists|done].
    - intros [[x Hx] Hn]. apply list_elem_of_fmap. exists (c, x). split; [done|]. apply elem_of_map_to_list, map_lookup_filter_Some. done. }
  case_bool_decide as Hd; [by destruct (proj1 Hl Hd)|]. destruct (C' !! c) as [x|] eqn:E; [by eapply lookup_weaken|].
  destruct (C !! c) as [x|] eqn:E'; [|done]. exfalso. apply Hd, Hl. by eauto.
Qed.

Lemma accounted_loop lost qs C s l : accounted lost qs C s -> l_ctxrefs l = l_ctxrefs (y_loop s) -> l_ssls l = l_ssls (y_loop s) ->
  accounted lost qs C (set_loop l s).
Proof. intros [] E1 E2. split; cbn; try done. by rewrite E1, E2. Qed.

Lemma callback_ok lost qs (m : SM (loop S) unit) s s' : lkeeps m -> accounted lost qs (y_ctxs s) s -> callback m s = Ok (tt, s') ->
  accounted lost qs (y_ctxs s') s'.
Proof.
  intros Hm Hi. unfold callback. rewrite (sbind_ok sget) with (1 := eq_refl). unfold on_loop, sbind.
  destruct (m (y_loop s)) as [[[] l]|] eqn:E; [|done]. intros [= <-]. destruct (Hm _ _ _ E) as (Hsub & Hr & Hs).
  set (s1 := set_loop l s). assert (accounted lost qs (y_ctxs s) s1) as Hi1 by by apply accounted_loop.
  set (gone := map_to_list _).
  assert (accounted lost qs (y_ctxs s1) (foldr (fun p => delete_event_ctx p.1 p.2) s1 gone)) as Hd.
  { rewrite <- (destroyed_left (y_ctxs s) (y_ctxs s1)) by exact Hsub. apply destructors_ok; [apply NoDup_fst_map_to_list| |done].
    intros c x Hx. by apply elem_of_map_to_list, map_lookup_filter_Some in Hx as [? _]. }
  assert (forall l, y_ctxs (foldr (fun p => delete_event_ctx p.1 p.2) s1 l) = y_ctxs s1) as ->; [|done].
  intros l0. induction l0 as [|p l0 IH]; [done|]. cbn [foldr]. exact IH.
Qed.

(** ** Pipes *)

Lemma concat_queued (qs : list (list Z)) i q q' fd : qs !! i = Some q -> q' ≡ₚ fd :: q -> concat (<[i := q']> qs) ≡ₚ fd :: concat qs.
Proof.
  intros Hq Hp. rewrite <- (take_drop_middle qs i q Hq) at 2. rewrite insert_take_drop by (by apply lookup_lt_Some in Hq).
  rewrite !concat_app. cbn [concat]. rewrite Hp. cbn. by rewrite <- Permutation_middle.
Qed.

Lemma concat_pop (qs : list (list Z)) i fd q : qs !! i = Some (fd :: q) -> concat qs ≡ₚ fd :: concat (<[i := q]> qs).
Proof.
  intros Hq. rewrite <- (list_insert_id qs i (fd :: q)) at 1 by done. rewrite <- (list_insert_insert_eq qs i (fd :: q) q).
  apply (concat_queued _ _ q); [|done]. apply list_lookup_insert_eq. by apply lookup_lt_Some in Hq.
Qed.

(** The state when only the threads and the open descriptors have changed, and the
    pipes with them. *)
Lemma accounted_threads lost lost' qs qs' C s ts open :
  accounted lost qs C s -> length ts = length (y_threads s) ->
  (forall i t', ts !! i = Some t' -> exists t, y_threads s !! i = Some t /\ th_pBase t' = th_pBase t) ->
  Forall2 (fun t q => th_pipe t = pipe_text q) ts qs' ->
  (forall i q fd, qs' !! i = Some q -> fd ∈ q -> 0 <= fd <= INT_MAX /\ Z.to_nat (Z.rem fd (y_num s)) = i) ->
  NoDup (concat qs') -> (forall fd, fd ∈ concat qs' -> fd ∈ open /\ forall c x, C !! c = Some x -> ctx_sock x <> fd) ->
  y_open s ⊆ open ->
  (forall fd, fd ∈ open -> fd ∈ concat qs' \/ (exists c x, C !! c = Some x /\ ctx_sock x = fd) \/ fd ∈ lost') ->
  (forall fd, fd ∈ lost' -> fd ∈ open /\ fd ∉ concat qs' /\ forall c x, C !! c = Some x -> ctx_sock x <> fd) ->
  accounted lost' qs' C (set_threads ts (set_open open s)).
Proof.
  intros [P1 P2 P3 P4 P5 P6 P7 P8 P9 P10 P0 P11 P12 P13] Hlen Hbase Hpipes Hth Hnd Hin Hopen Hpl Hlost. split; cbn; try done.
  - intros i q fd. unfold y_num. cbn. rewrite Hlen. apply Hth.
  - intros c x Hc Hfd. by destruct (Hin _ Hfd) as [_ Hne]; apply (Hne c x).
  - intros fd Hfd. by apply Hin.
  - intros c x Hc. by apply Hopen, (P7 c).
  - intros c x Hc. destruct (P9 c x Hc) as (ev & t & Hp & Ht & He & Hs). unfold y_num in *. cbn. rewrite Hlen.
    destruct (lookup_lt_is_Some_2 ts (Z.to_nat (Z.rem (ctx_sock x) (zlen (y_threads s))))) as [t' Ht']; [rewrite Hlen; by apply lookup_lt_Some in Ht|].
    destruct (Hbase _ _ Ht') as (t0 & Ht0 & Eb). simplify_eq. exists ev, t'. by rewrite Eb.
Qed.

Lemma accept_ok lost qs s fd room : accounted lost qs (y_ctxs s) s -> 0 < y_num s -> 0 <= fd <= INT_MAX -> fd ∉ y_open s ->
  exists ts qs', DoAccept (y_num s) [(fd, room)] (y_threads s) = Ok ts /\ length ts = length (y_threads s) /\
    accounted (if room then lost else {[fd]} ∪ lost) qs' (y_ctxs s) (set_threads ts (set_open ({[fd]} ∪ y_open s) s)) /\
    (if room then exists q, qs !! Z.to_nat (Z.rem fd (y_num s)) = Some q /\ qs' = <[Z.to_nat (Z.rem fd (y_num s)) := q ++ [fd]]> qs else qs' = qs).
Proof.
  intros Hi Hn Hfd Ho. cbn [DoAccept]. rewrite (proj2 (Z.eqb_neq fd (-1))) by lia. unfold PushTask.
  rewrite (proj2 (Z.ltb_ge fd 0)), (proj2 (Z.eqb_neq (y_num s) 0)) by lia. cbv zeta.
  pose proof (Z.rem_bound_pos fd (y_num s) ltac:(lia) Hn) as Hr. set (i := Z.to_nat (Z.rem fd (y_num s))) in *.
  destruct (lookup_lt_is_Some_2 (y_threads s) i) as [t Ht]; [unfold i, y_num in *; lia|]. rewrite Ht.
  assert (forall x, x ∈ concat qs -> x <> fd) as Hne by (intros x Hx ->; by apply Ho, (sa_open_queued _ _ _ _ Hi)).
  assert (forall x, x ∈ concat qs -> forall c y, y_ctxs s !! c = Some y -> ctx_sock y <> x) as Hap.
  { intros x Hx c y Hc E. apply (sa_apart _ _ _ _ Hi c y Hc). by rewrite E. }
  assert (forall c y, y_ctxs s !! c = Some y -> ctx_sock y <> fd) as Hfc by (intros c y Hc <-; by apply Ho, (sa_open_ctx _ _ _ _ Hi c)).
  assert (forall k, k ∈ lost -> k <> fd) as Hfl by (intros k Hk ->; by apply Ho, (sa_lost _ _ _ _ Hi)).
  destruct room; cbn [obind].
  - destruct (Forall2_lookup_l _ _ _ _ _ (sa_pipes _ _ _ _ Hi) Ht) as (q & Hq & Hpt). eexists _, (<[i := q ++ [fd]]> qs). split; [done|].
    rewrite length_insert. split; [done|]. split; [|by exists q].
    assert (concat (<[i := q ++ [fd]]> qs) ≡ₚ fd :: concat qs) as Hperm by (apply (concat_queued qs i q); [done|by rewrite Permutation_app_comm]).
    apply (accounted_threads lost lost qs); [done|by rewrite length_insert| | | | | |set_solver|..].
    + intros j t' [(<- & <- & _)|[? ?]]%list_lookup_insert_Some; eauto.
    + apply Forall2_insert; [apply Hi|]. cbn. rewrite Hpt. unfold pipe_text. rewrite fmap_app, concat_app. cbn [fmap list_fmap concat]. by rewrite app_nil_r.
    + intros j q' x [(<- & <- & _)|[? Hj]]%list_lookup_insert_Some Hx; [|by eapply (sa_thread _ _ _ _ Hi)].
      apply elem_of_app in Hx as [Hx|Hx%list_elem_of_singleton]; [by eapply (sa_thread _ _ _ _ Hi)|by subst x].
    + rewrite Hperm. apply NoDup_cons. split; [intros Hx; by apply (Hne fd)|apply Hi].
    + intros x Hx. rewrite Hperm in Hx. apply elem_of_cons in Hx as [->|Hx]; [split; [set_solver|]|split; [apply elem_of_union; right; by apply (sa_open_queued _ _ _ _ Hi)|by apply Hap]].
      exact Hfc.
    + intros k. rewrite Hperm, elem_of_cons, elem_of_union, elem_of_singleton. intros [->|Hk]; [auto|]. destruct (sa_open _ _ _ _ Hi k Hk); tauto.
    + intros k Hk. destruct (sa_lost _ _ _ _ Hi k Hk) as (Hk1 & Hk2 & Hk3). pose proof (Hfl k Hk). rewrite Hperm, elem_of_cons. set_solver.
  - eexists _, qs. split; [done|]. split; [done|]. split; [|done].
    apply (accounted_threads lost ({[fd]} ∪ lost) qs); try done; try apply Hi; [by eauto|..|set_solver| |].
    + intros x Hx. split; [apply elem_of_union; right; by apply (sa_open_queued _ _ _ _ Hi)|by apply Hap].
    + intros k. rewrite !elem_of_union, elem_of_singleton. intros [->|Hk]; [auto|]. destruct (sa_open _ _ _ _ Hi k Hk); tauto.
    + intros k. rewrite !elem_of_union, elem_of_singleton. intros [->|Hk]; [split_and!; [by left| |done]; intros Hx; by apply (Hne fd)|].
      destruct (sa_lost _ _ _ _ Hi k Hk) as (? & ? & ?). auto.
Qed.

Lemma OnPipeReadCallback_ok sockfd pCtx (l : loop S) : 0 <= sockfd ->
  (enablessl = true /\ OnPipeReadCallback enablessl sockfd pCtx l = Fault Blocks) \/
  exists l', OnPipeReadCallback enablessl sockfd pCtx l = Ok (tt, l') /\ l_sent l' = l_sent l /\ l_ssls l' - l_ssls l = l_ctxrefs l' - l_ctxrefs l /\
    ((enablessl && ssl_refused (l_net l) = false /\
      l_server l' = set_ctxs (<[pCtx := mkCtx sockfd enablessl]> (v_ctxs (l_server l))) (v_closed (l_server l)) (l_server l) /\
      l_ctxrefs l' = l_ctxrefs l + (if enablessl then 1 else 0)) \/
     (enablessl = true /\ ssl_refused (l_net l) = true /\ l_server l' = l_server l /\ l_ctxrefs l' = l_ctxrefs l)).
Proof.
  intros Hs. unfold OnPipeReadCallback. rewrite (proj2 (Z.ltb_ge sockfd 0)) by lia.
  destruct (CreateSSL_ok enablessl l) as [E|(ok & l1 & E & (Hv & Hsent & Hr & Hn) & Ht)];
    [left; destruct enablessl; [split; [done|by apply sbind_fault]|done]|right]. run E.
  destruct ok, enablessl; cbn [andb negb]; try (by discriminate Ht); 
    try (pose proof (eq_sym (CreateSSL_refused _ _ _ E)) as Hr'; first [rewrite negb_false_iff in Hr'|rewrite negb_true_iff in Hr']).
  - eexists. split; [apply on_server_ok; done|]. cbn. rewrite Hv. split_and!; [done|lia|left; split; [exact Hr'|done]].
  - exists l1. split_and!; [done|done|lia|]. right. split_and!; [done|exact Hr'|done|lia].
  - eexists. split; [apply on_server_ok; done|]. cbn. rewrite Hv. split_and!; [done|lia|left; split_and!; [done..|lia]].
Qed.

(** A descriptor that is in no place gets a context and an event, or is given up
    when SSL fails. *)
Lemma connect_event_ok lost qs s sockfd t pCtx ev :
  accounted ({[sockfd]} ∪ lost) qs (y_ctxs s) s -> sockfd ∉ lost -> 0 <= sockfd ->
  y_threads s !! Z.to_nat (Z.rem sockfd (y_num s)) = Some t -> pCtx <> 0 -> y_ctxs s !! pCtx = None -> y_events s !! ev = None -> ev <> 0 ->
  (enablessl = true /\ connect_event enablessl sockfd (th_pBase t) pCtx ev s = Fault Blocks) \/
  exists s', connect_event enablessl sockfd (th_pBase t) pCtx ev s = Ok (tt, s') /\
    accounted (if enablessl && ssl_refused (l_net (y_loop s)) then {[sockfd]} ∪ lost else lost) qs (y_ctxs s') s' /\
    y_threads s' = y_threads s /\ y_open s' = y_open s /\ l_sent (y_loop s') = l_sent (y_loop s) /\
    ((l_server (y_loop s') = set_ctxs (<[pCtx := mkCtx sockfd enablessl]> (y_ctxs s)) (v_closed (l_server (y_loop s))) (l_server (y_loop s)) /\
      y_events s' = <[ev := mkEv (th_pBase t) sockfd (CbConnection pCtx)]> (y_events s)) \/
     (enablessl = true /\ l_server (y_loop s') = l_server (y_loop s) /\ y_events s' = y_events s)).
Proof.
  intros Hi Hnl Hfd Ht Hp Hnew Hev He. unfold connect_event.
  destruct (sa_lost _ _ _ _ Hi sockfd) as (Ho & Hq & Hc); [set_solver|].
  destruct (OnPipeReadCallback_ok sockfd pCtx (y_loop s) Hfd) as [[Et E]|(l' & E & Hsent & Hssl & Hres)];
    [left; split; [exact Et|]; apply sbind_fault; unfold on_loop; by rewrite E|right].
  rewrite (sbind_ok (on_loop _) _ s tt (set_loop l' s)) by (unfold on_loop; by rewrite E). rewrite (sbind_ok sget) with (1 := eq_refl).
  destruct Hres as [(-> & Hv & Hr)|(-> & -> & Hv & Hr)].
  - assert (y_ctxs (set_loop l' s) = <[pCtx := mkCtx sockfd enablessl]> (y_ctxs s)) as EC by (unfold y_ctxs; cbn; by rewrite Hv).
    rewrite bool_decide_true by (rewrite EC, lookup_insert_eq; by eexists). rewrite (proj2 (Z.eqb_neq ev 0)) by done.
    eexists. split; [done|]. cbn [y_threads y_open y_loop y_events set_events set_loop]. split; [|by split_and!; [..|left]].
    change (y_ctxs (set_events _ _ (set_loop l' s))) with (y_ctxs (set_loop l' s)). rewrite EC.
    destruct Hi as [P1 P2 P3 P4 P5 P6 P7 P8 P9 P10 P0 [P11 P12] P13 P14]. split; cbn; try done.
    + intros c1 c2 x1 x2 [[<- <-]|[N1 E1]]%lookup_insert_Some [[<- <-]|[N2 E2]]%lookup_insert_Some Heq; [done| | |by apply (P4 c1 c2 x1 x2)].
      * by destruct (Hc c2 x2 E2).
      * by destruct (Hc c1 x1 E1).
    + intros c x [[<- <-]|[N1 E1]]%lookup_insert_Some; [done|by eapply P5].
    + intros c x [[<- <-]|[N1 E1]]%lookup_insert_Some; [done|by eapply P7].
    + intros ev1 e c [[<- <-]|[N1 E1]]%lookup_insert_Some Hcb.
      * cbn in Hcb. simplify_eq. rewrite !lookup_insert_eq. eauto.
      * destruct (P8 ev1 e c E1 Hcb) as [Hpe [x Hx]]. assert (pCtx <> c) by (intros ->; congruence). rewrite !lookup_insert_ne by done. eauto.
    + intros c x [[<- <-]|[N1 E1]]%lookup_insert_Some.
      * exists ev, t. rewrite !lookup_insert_eq. done.
      * destruct (P9 c x E1) as (ev1 & t1 & Hpe & Hth & Hev1 & Hs). exists ev1, t1. rewrite !lookup_insert_ne by (done || intros ->; congruence). done.
    + rewrite lookup_insert_ne by done. done.
    + intros ev1 e Hst. rewrite <- P0 by done. rewrite lookup_insert_Some. split; [|intros He1; right; split; [|done]; intros ->; congruence].
      intros [[_ <-]|[_ ?]]; [by destruct (Hst pCtx)|done].
    + rewrite map_size_insert, Hnew. cbn. destruct enablessl; split; lia.
    + intros k Hk. destruct (P13 k Hk) as [?|[(c & x & Hx & <-)|[->%elem_of_singleton|?]%elem_of_union]]; [by left| | |by right; right].
      * right. left. exists c, x. rewrite lookup_insert_ne; [done|]. intros ->. congruence.
      * right. left. exists pCtx, (mkCtx sockfd enablessl). by rewrite lookup_insert_eq.
    + intros k Hk. destruct (P14 k) as (Hk1 & Hk2 & Hk3); [set_solver|]. split_and!; [done..|].
      intros c x [[<- <-]|[_ Hx]]%lookup_insert_Some; [cbn; by intros ->|by apply (Hk3 c)].
  - rewrite bool_decide_false by (unfold y_ctxs in *; cbn; rewrite Hv, Hnew; by intros []). exists (set_loop l' s).
    assert (y_ctxs (set_loop l' s) = y_ctxs s) as -> by (unfold y_ctxs; cbn; by rewrite Hv).
    split_and!; [done| |done|done|done|by right]. apply accounted_loop; [done|lia|lia].
Qed.

Lemma pipe_event_ok lost qs s i pCtx ev : accounted lost qs (y_ctxs s) s -> is_Some (y_threads s !! i) -> (th_pipe <$> y_threads s !! i) <> Some [] ->
  pCtx <> 0 -> y_ctxs s !! pCtx = None -> y_events s !! ev = None -> ev <> 0 ->
  exists fd q t, qs !! i = Some (fd :: q) /\ y_threads s !! i = Some t /\
  ((enablessl = true /\ pipe_event enablessl i pCtx ev s = Fault Blocks) \/
   exists s', pipe_event enablessl i pCtx ev s = Ok (tt, s') /\
    accounted (if enablessl && ssl_refused (l_net (y_loop s)) then {[fd]} ∪ lost else lost) (<[i := q]> qs) (y_ctxs s') s' /\
    length (y_threads s') = length (y_threads s) /\ y_open s' = y_open s /\ l_sent (y_loop s') = l_sent (y_loop s) /\
    ((l_server (y_loop s') = set_ctxs (<[pCtx := mkCtx fd enablessl]> (y_ctxs s)) (v_closed (l_server (y_loop s))) (l_server (y_loop s)) /\
      y_events s' = <[ev := mkEv (th_pBase t) fd (CbConnection pCtx)]> (y_events s)) \/
     (enablessl = true /\ l_server (y_loop s') = l_server (y_loop s) /\ y_events s' = y_events s))).
Proof.
  intros Hi [t Ht] Hne Hp Hnew Hev He. destruct (Forall2_lookup_l _ _ _ _ _ (sa_pipes _ _ _ _ Hi) Ht) as (q0 & Hq & Hpt).
  destruct q0 as [|fd q]; [rewrite Ht in Hne; cbn in Hne; by rewrite Hpt in Hne|]. exists fd, q, t. split; [done|]. split; [done|].
  destruct (sa_thread _ _ _ _ Hi i (fd :: q) fd Hq) as [Hfd Hrem]; [by left|].
  unfold pipe_event. rewrite (sbind_ok sget) with (1 := eq_refl). rewrite Ht. rewrite (pipe_head t fd q Hfd Hpt).
  set (t' := mkThread _ _ _ _ _ _). set (s1 := set_threads (<[i := t']> (y_threads s)) s).
  rewrite (sbind_ok (slift _) _ s (fd, t') s) by done. cbv beta iota. rewrite (sbind_ok (smodify _) _ s tt s1) by done.
  pose proof (concat_pop qs i fd q Hq) as Hperm.
  pose proof (sa_queued _ _ _ _ Hi) as Hnd. rewrite Hperm in Hnd. apply NoDup_cons in Hnd as [Hfdn Hnd].
  assert (fd ∈ concat qs) as Hfdq by (rewrite Hperm; by left).
  assert (fd ∉ lost) as Hfl by (intros Hl; by destruct (sa_lost _ _ _ _ Hi fd Hl) as (_ & ? & _)).
  assert (accounted ({[fd]} ∪ lost) (<[i := q]> qs) (y_ctxs s) s1) as Hi1.
  { assert (s1 = set_threads (<[i := t']> (y_threads s)) (set_open (y_open s) s)) as -> by (by destruct s).
    apply (accounted_threads lost ({[fd]} ∪ lost) qs); [done|by rewrite length_insert| | | |done| |done|..].
    - intros j t1 [(<- & <- & _)|[? ?]]%list_lookup_insert_Some; eauto.
    - by apply Forall2_insert; [apply Hi|].
    - intros j q1 x [(<- & <- & _)|[? Hj]]%list_lookup_insert_Some Hx; [|by eapply (sa_thread _ _ _ _ Hi)].
      apply (sa_thread _ _ _ _ Hi i (fd :: q)); [done|by right].
    - intros x Hx. assert (x ∈ concat qs) as Hx' by (rewrite Hperm; by right). split; [by apply (sa_open_queued _ _ _ _ Hi)|].
      intros c y Hc E. apply (sa_apart _ _ _ _ Hi c y Hc). by rewrite E.
    - intros k Hk. rewrite elem_of_union, elem_of_singleton. destruct (sa_open _ _ _ _ Hi k Hk) as [Hkq|]; [|tauto].
      rewrite Hperm in Hkq. apply elem_of_cons in Hkq. tauto.
    - intros k [->%elem_of_singleton|Hk]%elem_of_union.
      + split_and!; [by apply (sa_open_queued _ _ _ _ Hi)|done|]. intros c x Hc E. apply (sa_apart _ _ _ _ Hi c x Hc). by rewrite E.
      + destruct (sa_lost _ _ _ _ Hi k Hk) as (? & Hkq & ?). split_and!; [done| |done]. intros Hk'. apply Hkq. rewrite Hperm. by right. }
  assert (y_threads s1 !! Z.to_nat (Z.rem fd (y_num s1)) = Some t') as Ht1.
  { unfold y_num, s1. cbn. rewrite length_insert. change (zlen (y_threads s)) with (y_num s). rewrite Hrem. apply list_lookup_insert_eq. by apply lookup_lt_Some in Ht. }
  destruct (connect_event_ok lost (<[i := q]> qs) s1 fd t' pCtx ev Hi1 Hfl ltac:(lia)) as [[Et E]|(s' & E & Hi' & Hth & Ho' & Hs' & Hres)]; try done.
  - by left.
  - right. exists s'. split; [exact E|]. split; [done|]. split; [rewrite Hth; unfold s1; cbn; by rewrite length_insert|]. by split_and!.
Qed.

(** ** Every input *)

(** The events of the start: each thread has the one of its pipe. *)
Definition static_ok (n : nat) : Prop :=
  (forall ev e i, E0 !! ev = Some e -> ev_cb e = CbPipe i -> (i < n)%nat) /\
  (forall i, (i < n)%nat -> exists ev e, E0 !! ev = Some e /\ ev_cb e = CbPipe i).

Definition system_ok lost (s : system S) : Prop :=
  static_ok (length (y_threads s)) /\ (0 < length (y_threads s))%nat /\ exists qs, accounted lost qs (y_ctxs s) s.

Lemma fired_pipe_ok lost qs s ev e i a : accounted lost qs (y_ctxs s) s -> static_ok (length (y_threads s)) -> y_events s !! ev = Some e -> ev_cb e = CbPipe i ->
  an_ev a <> 0 ->
  step enablessl (Fired ev a) s = Fault Blocks \/
  exists s' qs', step enablessl (Fired ev a) s = Ok (tt, s') /\ accounted (gives_up enablessl (Fired ev a) s ∪ lost) qs' (y_ctxs s') s' /\ length (y_threads s') = length (y_threads s).
Proof.
  intros Hi [Hst _] He Hcb Ha. unfold step. rewrite (sbind_ok sget) with (1 := eq_refl). rewrite He, Hcb.
  cbn [gives_up]. rewrite He. destruct e as [b efd cb]. cbn [ev_cb] in Hcb. subst cb.
  destruct (bool_decide _ || negb (fresh_addresses a s)) eqn:Hg.
  { right. exists s, qs. split_and!; [done| |done]. apply orb_prop in Hg as [Hg%bool_decide_eq_true|Hg%negb_true_iff].
    - rewrite Hg. by rewrite (left_id_L ∅ (∪)).
    - rewrite Hg, andb_false_r. cbn [andb]. destruct (th_pipe <$> _) as [[]|]; by rewrite (left_id_L ∅ (∪)). }
  apply orb_false_iff in Hg as [Hne%bool_decide_eq_false Hf%negb_false_iff].
  pose proof Hf as Hf'. apply andb_prop in Hf as [[Hz%negb_true_iff%Z.eqb_neq Hc%bool_decide_eq_true]%andb_prop Hev%bool_decide_eq_true].
  unfold give_answers. rewrite (sbind_ok (smodify _)) with (1 := eq_refl). cbv zeta. set (s1 := set_loop _ s).
  assert (accounted lost qs (y_ctxs s1) s1) as Hi1 by by apply accounted_loop.
  destruct (pipe_event_ok lost qs s1 i (an_ctx a) (an_ev a) Hi1) as (fd & q & t & Hq & Ht & [[_ E]|(s' & E & Hi' & Hl & _)]); try done.
  - apply lookup_lt_is_Some. apply (Hst ev (mkEv b efd (CbPipe i)) i); [|reflexivity]. by apply (sa_static _ _ _ _ Hi).
  - by left.
  - right. exists s', (<[i := q]> qs). split_and!; [done| |done]. change (y_threads s1) with (y_threads s) in Ht. rewrite Ht. cbn [fmap option_fmap option_map].
    destruct (Forall2_lookup_l _ _ _ _ _ (sa_pipes _ _ _ _ Hi) Ht) as (q' & Hq' & Hpt). assert (q' = fd :: q) as -> by congruence.
    assert (0 <= fd <= INT_MAX) as Hfd by (eapply (sa_thread _ _ _ _ Hi i); [exact Hq|by left]).
    pose proof (pipe_head t fd q Hfd Hpt) as Hh. unfold PipeReadCallBack in Hh. destruct (th_pipe t) as [|c d]; [done|].
    destruct (zlen (c :: d) <? 4); [done|]. assert (bytes_int (take 4 (c :: d)) = fd) as -> by congruence. rewrite Hf', andb_true_r. change (l_net (y_loop s1)) with (an_net a) in Hi'.
    destruct (enablessl && ssl_refused (an_net a)); [done|]. by rewrite (left_id_L ∅ (∪)).
Qed.

Lemma step_ok lost s x s' : system_ok lost s -> step enablessl x s = Ok (tt, s') -> (forall ev a, x = Fired ev a -> an_ev a <> 0) ->
  system_ok (gives_up enablessl x s ∪ lost) s' /\ length (y_threads s') = length (y_threads s).
Proof.
  intros Hok E Ha. destruct (Hok) as (Hst & Hn & qs & Hi).
  assert (forall m, lkeeps m -> forall s, accounted lost qs (y_ctxs s) s -> callback m s = Ok (tt, s') -> length (y_threads s') = length (y_threads s)) as Hth.
  { clear. intros m Hm s Hi. unfold callback. rewrite (sbind_ok sget) with (1 := eq_refl). unfold on_loop, sbind.
    destruct (m (y_loop s)) as [[[] l]|]; [|done]. intros [= <-]. generalize (map_to_list (filter (fun p => y_ctxs (set_loop l s) !! p.1 = None) (y_ctxs s))).
    intros l0. by induction l0. }
  destruct x as [connfd room|ev a].
  - unfold step in E. rewrite (sbind_ok sget) with (1 := eq_refl) in E. cbn [gives_up].
    destruct (_ || bool_decide _) eqn:Hg; [injection E as <-; cbn [orb]; by rewrite (left_id_L ∅ (∪))|]. cbn [orb].
    apply orb_false_iff in Hg as [[H1%Z.ltb_ge H2%Z.ltb_ge]%orb_false_iff H3%bool_decide_eq_false].
    rewrite (sbind_ok (smodify _)) with (1 := eq_refl) in E.
    destruct (accept_ok lost qs s connfd room Hi) as (ts & qs' & Ed & Hl & Hi' & _); [unfold y_num; lia|lia|done|].
    unfold sbind, slift in E. rewrite Ed in E. injection E as <-. unfold system_ok. cbn [y_threads set_threads]. rewrite Hl. split; [|done].
    split_and!; [done|done|]. exists qs'. destruct room; by rewrite ?(left_id_L ∅ (∪)).
  - destruct (y_events s !! ev) as [e|] eqn:He.
    2: { unfold step in E. rewrite (sbind_ok sget) with (1 := eq_refl) in E. rewrite He in E. injection E as <-. cbn [gives_up].
         rewrite He. by rewrite (left_id_L ∅ (∪)). }
    assert ((forall i, ev_cb e <> CbPipe i) -> gives_up enablessl (Fired ev a) s = ∅) as Hnone.
    { cbn [gives_up]. rewrite He. destruct e as [b fd []]; [|done..]. intros Hne. by destruct (Hne i). }
    destruct (ev_cb e) as [i| |c] eqn:Hcb.
    + destruct (fired_pipe_ok lost qs s ev e i a Hi Hst He Hcb) as [E'|(s1 & qs' & E' & Hi' & Hl)]; [by eapply Ha|congruence|].
      rewrite E' in E. injection E as <-. unfold system_ok. rewrite Hl. split; [|done]. split_and!; [done|done|by exists qs'].
    + unfold step in E. rewrite (sbind_ok sget) with (1 := eq_refl) in E. rewrite He, Hcb in E.
      rewrite Hnone, (left_id_L ∅ (∪)) by (by intros i; congruence).
      unfold system_ok. rewrite (Hth _ (lkeeps_TimeoutCallBack _) _ Hi E). split; [|done]. split_and!; [done|done|]. exists qs. eapply callback_ok; [apply lkeeps_TimeoutCallBack|done|done].
    + unfold step in E. rewrite (sbind_ok sget) with (1 := eq_refl) in E. rewrite He, Hcb in E.
      unfold give_answers in E. rewrite (sbind_ok (smodify _)) with (1 := eq_refl) in E. cbv zeta in E.
      set (s1 := set_loop _ s) in E. assert (accounted lost qs (y_ctxs s1) s1) as Hi1 by by apply accounted_loop.
      rewrite Hnone, (left_id_L ∅ (∪)) by (by intros i; congruence).
      unfold system_ok. rewrite (Hth _ (lkeeps_EventCallBack _ _ _ _) _ Hi1 E). split; [|done]. split_and!; [done|done|]. exists qs. eapply callback_ok; [apply lkeeps_EventCallBack|done|done].
Qed.
End invariant.

(** * The start *)

(** The addresses that [event_new] returns. *)
Definition addresses (addrs : list (Z * Z)) : list Z := concat ((fun p => [p.1; p.2]) <$> addrs).

Lemma start_loop_ok ts : forall i addrs events events', start_loop i addrs ts events = Ok events' -> NoDup (addresses addrs) ->
  (forall ev, ev ∈ addresses addrs -> events !! ev = None) ->
  (forall ev e, events' !! ev = Some e -> events !! ev = Some e \/ ev_cb e = CbTimer \/ exists j, ev_cb e = CbPipe j /\ (i <= j < i + length ts)%nat) /\
  (forall ev e, events !! ev = Some e -> events' !! ev = Some e) /\
  (forall j, (i <= j < i + length ts)%nat -> exists ev e, events' !! ev = Some e /\ ev_cb e = CbPipe j).
Proof.
  induction ts as [|t ts IH]; intros i addrs events events' E Hnd Hfr; cbn [start_loop length] in *.
  - injection E as <-. split_and!; [auto..|lia].
  - destruct addrs as [|[ev evt] addrs]; [done|]. destruct (_ || _); [done|]. unfold addresses in *. cbn [fmap list_fmap concat app] in *.
    cbn [fst snd] in *. apply NoDup_cons in Hnd as [Hev Hnd]. apply NoDup_cons in Hnd as [Hevt Hnd]. apply not_elem_of_cons in Hev as [Hne Hev].
    destruct (IH _ _ _ _ E Hnd) as (I1 & I2 & I3).
    { intros x Hx. rewrite !lookup_insert_ne by (intros ->; done). apply Hfr. rewrite !elem_of_cons. auto. }
    split_and!.
    + intros x e Hx. destruct (I1 x e Hx) as [Hx'|[?|(j & Hj & Hij)]]; [|auto|right; right; exists j; split; [exact Hj|lia]].
      apply lookup_insert_Some in Hx' as [[_ <-]|[_ Hx']]; [auto|]. apply lookup_insert_Some in Hx' as [[_ <-]|[_ Hx']]; [|auto].
      right. right. exists i. split; [done|lia].
    + intros x e Hx. apply I2. rewrite !lookup_insert_ne; [done|intros ->; rewrite Hfr in Hx by (rewrite !elem_of_cons; auto); done..].
    + intros j Hj. destruct (decide (j = i)) as [->|]; [|apply I3; lia]. exists ev, (mkEv (th_pBase t) (th_recvfd t) (CbPipe i)). split; [|done].
      apply (I2 ev). rewrite lookup_insert_ne by done. by rewrite lookup_insert_eq.
Qed.

Lemma threads_loop_pipes answers n ts : threads_loop answers n = Ok ts -> length ts = n /\ Forall (fun t => th_pipe t = []) ts.
Proof.
  revert answers ts. induction n as [|n IH]; intros answers ts E; [destruct answers; by injection E as <-|].
  destruct answers as [|a answers]; [done|]. cbn in E. destruct (negb _); [done|]. destruct (_ =? 0); [done|].
  destruct (threads_loop answers n) as [ts'|] eqn:E'; [|done]. cbn in E. injection E as <-. destruct (IH _ _ E') as [<- Hf]. split; [done|by apply Forall_cons_2].
Qed.

Lemma OnStart_pipes pids ts : length (OnStart pids ts) = length ts /\ (Forall (fun t => th_pipe t = []) ts -> Forall (fun t => th_pipe t = []) (OnStart pids ts)).
Proof.
  revert pids. induction ts as [|t ts IH]; intros [|pid pids]; cbn; try done. destruct (IH pids) as [-> Hf]. split; [done|].
  intros [Ht Hts]%Forall_cons_1. by apply Forall_cons_2; [|apply Hf].
Qed.

Section whole.
Context {S : Type} `{ObjectPool S} (enablessl : bool).

(** The server when it has started. *)
Lemma start_ok (pool : S) n news pids addrs s : 0 < n -> NoDup (addresses addrs) -> start pool n news pids addrs = Ok s ->
  system_ok enablessl (y_events s) ∅ s /\ y_loop s = mkLoop (mkServer pool ∅ ∅ false ∅ []) [] [] 0 0 /\ y_open s = ∅ /\ y_pEvent s = ∅ /\
  length (y_threads s) = Z.to_nat n /\ accounted enablessl (y_events s) ∅ (replicate (Z.to_nat n) []) ∅ s.
Proof.
  intros Hn Hnd. unfold start, LibEvInit. rewrite (proj2 (Z.ltb_ge n 0)) by lia.
  destruct (threads_loop news (Z.to_nat n)) as [ts|] eqn:Et; [|done]. cbn [obind].
  destruct (threads_loop_pipes _ _ _ Et) as [Hlen Hpipes]. destruct (OnStart_pipes pids ts) as [Hl Hp]. specialize (Hp Hpipes). rewrite Hlen in Hl.
  destruct (start_loop 0 addrs (OnStart pids ts) ∅) as [events|] eqn:Ee; [|done]. cbn [obind]. intros [= <-].
  destruct (start_loop_ok _ _ _ _ _ Ee Hnd ltac:(done)) as (I1 & _ & I3).
  assert (concat (replicate (Z.to_nat n) ([] : list Z)) = []) as Hcc by (clear; induction (Z.to_nat n); done).
  assert (accounted enablessl events ∅ (replicate (Z.to_nat n) []) ∅ (mkSystem (mkLoop (mkServer pool ∅ ∅ false ∅ []) [] [] 0 0) (OnStart pids ts) events ∅ ∅)) as Hacc.
  { split; cbn; rewrite ?Hcc; try done.
    - rewrite <- Hl. clear -Hp. induction Hp; [done|]. cbn. by constructor.
    - intros i q fd [-> _]%lookup_replicate Hfd. by apply elem_of_nil in Hfd.
    - by apply NoDup_nil_2.
    - intros fd Hfd. by apply elem_of_nil in Hfd.
    - intros ev e c He Hcb. destruct (I1 _ _ He) as [?|[?|(j & ? & _)]]; congruence || done.
    - by destruct enablessl. }
  split_and!; try done. unfold system_ok. cbn [y_threads]. split_and!; [|lia|by exists (replicate (Z.to_nat n) [])].
  split; [|intros i Hi; apply I3; lia]. intros ev e i He Hcb. destruct (I1 _ _ He) as [?|[?|(j & ? & ?)]]; [done|congruence|]. assert (j = i) by congruence. lia.
Qed.

(** The allocator has memory for events. *)
Definition usable (x : input) : Prop := match x with Fired _ a => an_ev a <> 0 | _ => True end.

Lemma run_inputs_ok E0 xs : forall lost s s', system_ok enablessl E0 lost s -> Forall usable xs -> run_inputs enablessl xs s = Ok (tt, s') ->
  system_ok enablessl E0 (given_up enablessl xs s ∪ lost) s' /\ length (y_threads s') = length (y_threads s).
Proof.
  induction xs as [|x xs IH]; intros lost s s' Hs Hx E; cbn [run_inputs given_up] in *; [injection E as <-; by rewrite (left_id_L ∅ (∪))|]. apply Forall_cons_1 in Hx as [Hx Hxs].
  unfold sbind in E. destruct (step enablessl x s) as [[[] s1]|] eqn:E1; [|done].
  destruct (step_ok enablessl E0 lost s x s1 Hs E1) as [Hs1 Hl]; [by intros ev a ->|]. destruct (IH _ s1 s' Hs1 Hxs E) as [Hok Hl']. split; [|congruence].
  by rewrite (assoc_L (∪)), (comm_L (∪) (given_up _ _ _)) in Hok.
Qed.
End whole.
