(* ===== verification/ServerProps.v ===== *)
(** The server at work, as a whole: connections are accounted for whatever
    happens. *)

From stdpp Require Import base tactics sets list numbers strings gmap.
From S2P Require Import Prelude StateMonad Text Http HttpSpec Request RequestSpec RequestProps Connection ConnectionSpec Server ServerSpec.

Local Open Scope Z_scope.

(** C4: Connections are accounted for.  Whatever the clients, the kernel and
    OpenSSL do, in every state that the server reaches from its start: the
    descriptors that are open are those in the pipe of the thread that their number
    selects, those of the contexts, one for each, and those given up, and no
    descriptor is in two of these places; one is given up when it is accepted and
    the pipe is full, or when it is taken from the pipe and OpenSSL refuses it, and
    none is without SSL and with room in the pipes.  Each context has exactly one
    event, on the base of that thread, and no event refers to a context that is
    gone; the program holds the SSL objects of its contexts and no others.  And in
    each such state every connection can be accepted, and the event of every pipe
    is there and takes the descriptors of the pipe, unless OpenSSL does not
    return. *)
Theorem connections_accounted {S} `{ObjectPool S} enablessl (pool : S) n news pids addrs s0 xs s :
  0 < n -> NoDup (addresses addrs) -> start pool n news pids addrs = Ok s0 -> Forall usable xs ->
  run_inputs enablessl xs s0 = Ok (tt, s) ->
  (exists qs, accounted enablessl (y_events s0) (given_up enablessl xs s0) qs (y_ctxs s) s) /\
  (enablessl = false -> Forall (fun x => forall fd, x <> Accepted fd false) xs -> given_up enablessl xs s0 = ∅) /\
  (forall connfd room, exists s', step enablessl (Accepted connfd room) s = Ok (tt, s')) /\
  (forall i, 0 <= i < n -> exists ev e, y_events s !! ev = Some e /\ ev_cb e = CbPipe (Z.to_nat i) /\
     forall a, an_ev a <> 0 -> step enablessl (Fired ev a) s = Fault Blocks \/ exists s', step enablessl (Fired ev a) s = Ok (tt, s')).
Proof.
  intros Hn Hnd Hs Hx Hrun. destruct (start_ok enablessl pool n news pids addrs s0 Hn Hnd Hs) as (Hok & _ & _ & _ & Hl0 & _).
  destruct (run_inputs_ok enablessl _ xs _ s0 s Hok Hx Hrun) as [(Hst & Hpos & qs & Hi) Hl].
  rewrite (right_id_L ∅ (∪)) in Hi. split_and!; [by exists qs|intros -> Hr; by apply none_given_up| |].
  - intros connfd room. unfold step. rewrite (sbind_ok sget) with (1 := eq_refl). destruct (_ || _) eqn:Hg; [by exists s|].
    apply orb_false_iff in Hg as [[H1%Z.ltb_ge H2%Z.ltb_ge]%orb_false_iff H3%bool_decide_eq_false].
    destruct (accept_ok enablessl _ _ qs s connfd room Hi) as (ts & qs' & Ed & _); [unfold y_num; lia|lia|done|].
    rewrite (sbind_ok (smodify _)) with (1 := eq_refl). rewrite Ed. by eexists.
  - intros i Hin. destruct (proj2 Hst (Z.to_nat i)) as (ev & e & He & Hcb); [lia|].
    assert (y_events s !! ev = Some e) as Hev by (apply (sa_static _ _ _ _ _ _ Hi); [by rewrite Hcb|done]).
    exists ev, e. split_and!; [done..|]. intros a Ha.
    destruct (fired_pipe_ok enablessl _ _ qs s ev e (Z.to_nat i) a Hi Hst Hev Hcb Ha) as [?|(s' & _ & E & _)]; [by left|right; by exists s'].
Qed.

(** Two threads, two connections, one of which sends a request. *)
Definition demo_news : list newthread := [mkNew 0 10 11 1; mkNew 0 12 13 2].
Definition demo_addrs : list (Z * Z) := [(101, 102); (103, 104)].
Definition demo_inputs : list input :=
  [Accepted 20 true; Accepted 21 true; Fired 101 (mkAnswers 5 [] 64 201); Fired 103 (mkAnswers 5 [] 65 202); Fired 202 (mkAnswers 6 [piece []] 0 1)].
Definition demo_system : outcome (system Z) :=
  let! s := start 0 2 demo_news [7; 8] demo_addrs in
  let! (_, s) := run_inputs false demo_inputs s in Ok s.

Example demo_system_state :
  (let! s := demo_system in Ok (map_to_list (y_ctxs s), y_open s, v_closed (l_server (y_loop s)))) = Ok ([(64, mkCtx 20 false)], {[20]}, [21]).
Proof. vm_compute. reflexivity. Qed.

Definition no_system : system Z := mkSystem (mkLoop (mkServer 0 ∅ ∅ false ∅ []) [] [] 0 0) [] ∅ ∅ ∅.
Definition demo_start : system Z := match start 0 2 demo_news [7; 8] demo_addrs with Ok s => s | Fault _ => no_system end.
Definition demo_end : system Z := match run_inputs false demo_inputs demo_start with Ok (_, s) => s | Fault _ => no_system end.

Lemma connections_accounted_witness :
  (exists qs, accounted false (y_events demo_start) (given_up false demo_inputs demo_start) qs (y_ctxs demo_end) demo_end) /\
  (false = false -> Forall (fun x => forall fd, x <> Accepted fd false) demo_inputs -> given_up false demo_inputs demo_start = ∅) /\
  (forall connfd room, exists s', step false (Accepted connfd room) demo_end = Ok (tt, s')) /\
  (forall i, 0 <= i < 2 -> exists ev e, y_events demo_end !! ev = Some e /\ ev_cb e = CbPipe (Z.to_nat i) /\
     forall a, an_ev a <> 0 -> step false (Fired ev a) demo_end = Fault Blocks \/ exists s', step false (Fired ev a) demo_end = Ok (tt, s')).
Proof.
  apply (connections_accounted false 0 2 demo_news [7; 8] demo_addrs demo_start demo_inputs demo_end).
  - lia.
  - apply (bool_decide_unpack _). vm_compute. exact I.
  - vm_compute. reflexivity.
  - repeat constructor; discriminate.
  - vm_compute. reflexivity.
Defined.
