(* ===== verification/ServerService.v ===== *)
(** Clients that behave are served: the server refines a specification in which
    connections queue for their thread, are open, get their replies and leave.

    A client that behaves sends a request that is complete and fits the buffer,
    in any pieces, ends its side, takes the reply, and leaves without sending
    more. *)

From stdpp Require Import base tactics sets list numbers strings gmap.
From S2P Require Import Prelude StateMonad Text Http HttpSpec Request RequestSpec RequestProps Connection ConnectionSpec Server ServerSpec ServerProps.

Local Open Scope Z_scope.

(** * The specification *)

Record aserver := mkA {
  a_queues : list (list Z);
  a_conns : gset Z;
  a_sent : list (Z * list char);
  a_closed : list Z
}.

Inductive action := Connect (fd : Z) | Take (i : nat) | Ask (fd : Z) (memory : bool) | Leave (fd : Z) | Tick.

(** The reply is the fixed one, and the error when there is no memory. *)
Definition reply_of (memory : bool) : list char := if memory then REPLY_HEADER ++ REPLY_BODY else lit "ERROR".

Inductive aserver_step : aserver -> action -> aserver -> Prop :=
| as_connect a fd q (i := Z.to_nat (Z.rem fd (zlen (a_queues a)))) : fd ∉ concat (a_queues a) -> fd ∉ a_conns a -> a_queues a !! i = Some q ->
    aserver_step a (Connect fd) (mkA (<[i := q ++ [fd]]> (a_queues a)) (a_conns a) (a_sent a) (a_closed a))
| as_take a i fd q : a_queues a !! i = Some (fd :: q) ->
    aserver_step a (Take i) (mkA (<[i := q]> (a_queues a)) ({[fd]} ∪ a_conns a) (a_sent a) (a_closed a))
| as_ask a fd memory : fd ∈ a_conns a ->
    aserver_step a (Ask fd memory) (mkA (a_queues a) (a_conns a) (a_sent a ++ [(fd, reply_of memory)]) (a_closed a))
| as_leave a fd : fd ∈ a_conns a ->
    aserver_step a (Leave fd) (mkA (a_queues a) (a_conns a ∖ {[fd]}) (a_sent a) (a_closed a ++ [fd]))
| as_tick a : aserver_step a Tick a.

Inductive aserver_run : aserver -> list action -> aserver -> Prop :=
| ar_nil a : aserver_run a [] a
| ar_cons a x a1 xs a2 : aserver_step a x a1 -> aserver_run a1 xs a2 -> aserver_run a (x :: xs) a2.

(** * Receiving and sending *)

(** The end of what a client sends, or an error. *)
Definition stops (a : netret) : Prop := a = piece [] \/ (nr_val a < 0 /\ nr_err a <> EAGAIN).

Lemma recv_stops a acks ilen count buffer : stops a -> recv_loop (a :: acks) ilen count buffer = Ok (count, buffer, acks).
Proof.
  intros [->|[Hv He]]; cbn [recv_loop].
  - unfold received. cbn [nr_val piece nr_err nr_data]. by rewrite take_nil.
  - by rewrite (proj2 (Z.ltb_lt _ 0)), (proj2 (Z.eqb_neq _ _)).
Qed.

(** The pieces of a request arrive one after another and then the end. *)
Lemma recv_pieces a ds : forall count acks, stops a -> Forall (fun d => d <> []) ds -> 0 <= count -> count + zlen (concat ds) < BUFFER_SIZE ->
  forall pre, zlen pre = count ->
  recv_loop ((piece <$> ds) ++ a :: acks) BUFFER_SIZE count (pre ++ repeat 0 (Z.to_nat (BUFFER_SIZE - count))) =
  Ok (count + zlen (concat ds), pre ++ concat ds ++ repeat 0 (Z.to_nat (BUFFER_SIZE - count - zlen (concat ds))), acks).
Proof.
  induction ds as [|d ds IH]; intros count acks Hst Hne Hc Hl pre Hpre.
  - cbn [fmap list_fmap app concat length] in *. rewrite recv_stops by done.
    change (Z.of_nat 0) with 0. rewrite Z.add_0_r, Z.sub_0_r. reflexivity.
  - apply Forall_cons_1 in Hne as [Hd Hne]. cbn [fmap list_fmap app concat] in *. rewrite length_app in Hl.
    assert (0 < zlen d) by (destruct d; [done|cbn [length]; lia]).
    rewrite recv_loop_piece; [|lia|lia|rewrite length_app, repeat_length; lia]. cbv zeta. rewrite (proj2 (Z.leb_gt BUFFER_SIZE (count + zlen d))) by lia.
    assert (take (Z.to_nat count) (pre ++ repeat 0 (Z.to_nat (BUFFER_SIZE - count))) = pre) as -> by (apply take_app_length'; lia).
    assert (drop (Z.to_nat count + length d) (pre ++ repeat 0 (Z.to_nat (BUFFER_SIZE - count))) = repeat 0 (Z.to_nat (BUFFER_SIZE - (count + zlen d)))) as ->.
    { rewrite drop_app_ge by lia. replace (Z.to_nat count + length d - length pre)%nat with (length d) by lia.
      replace (Z.to_nat (BUFFER_SIZE - count)) with (length d + Z.to_nat (BUFFER_SIZE - (count + zlen d)))%nat by lia.
      rewrite repeat_app, drop_app_length' by (by rewrite repeat_length). done. }
    rewrite app_assoc. rewrite IH; [|done|done|lia|lia|rewrite length_app; lia]. rewrite length_app.
    rewrite Nat2Z.inj_add, Z.add_assoc. replace (BUFFER_SIZE - (count + zlen d) - zlen (concat ds)) with (BUFFER_SIZE - count - (zlen d + zlen (concat ds))) by lia.
    by rewrite <- !app_assoc.
Qed.

(** A text in a buffer with zeros after it. *)
Lemma to_string_text d k : Forall (fun c => c <> NUL) d -> (0 < k)%nat -> to_string (d ++ repeat 0 k) = Ok d.
Proof.
  intros Hd Hk. destruct k as [|k]; [lia|]. cbn [repeat]. unfold to_string. by rewrite (strlen_app_nul d _ Hd), (cstring_app_nul d _ Hd).
Qed.

(** A reply that the kernel takes whole. *)
Definition takes_all (net : list netret) (len : Z) : Prop := Forall (fun a => ~ fatal a) net /\ len <= capacity net.

Lemma send_whole net reply : reply <> [] -> takes_all net (zlen reply) ->
  exists s rest, NormalSend net reply (zlen reply) = Ok (s, rest) /\ sn_bytes s = reply.
Proof.
  intros Hr [Hf Hc]. destruct (send_reply net reply Hr) as [[_ ?]|(s & used & rest & E & -> & _ & Hb)]; [lia|]. exists s, rest. split; [done|].
  destruct Hb as [?|(a & Ha & Hfa)]; [done|]. exfalso. rewrite Forall_app in Hf. destruct Hf as [Hf _].
  rewrite Forall_forall in Hf. apply (Hf a); [|done]. by apply last_Some_elem_of.
Qed.

(** * Requests *)

Section service.
Context {S : Type} `{ObjectPoolLaws S} (E0 : gmap Z evreg).

(** A request that the server accepts and that arrives as [ds]. *)
Record well_sent (rq : request) (ds : list (list char)) (acks : list netret) : Prop := {
  ws_ok : request_ok rq;
  ws_verdict : verdict (rq_body rq) (header_length 0 (rq_headers rq)) = DATA_OK;
  ws_pieces : concat ds = print rq /\ Forall (fun d => d <> []) ds;
  ws_text : Forall (fun c => c <> NUL) (print rq);
  ws_fits : zlen (print rq) < BUFFER_SIZE;
  ws_acks : takes_all acks (zlen (REPLY_HEADER ++ REPLY_BODY))
}.

Lemma print_not_empty rq : 0 < zlen (print rq).
Proof. unfold print. rewrite !length_app. assert (0 < length CRLF)%nat by (cbn; lia). lia. Qed.

(** No handler waits, and [n] more requests can be served. *)
Record calm (n : nat) (v : server S) : Prop := {
  cm_inv : req_inv n 0 v;
  cm_lock : m_LockerReqMap v = false;
  cm_map : m_ReqHandlerMap v = ∅
}.

Lemma calm_any n b v : req_inv n b v -> m_ReqHandlerMap v = ∅ -> req_inv n 0 v.
Proof. intros [P1 P2 P3 P4 P5] Hm. split; try done. intros sock a. by rewrite Hm. Qed.

Lemma ask_ok n (l : loop S) fd c x now rq ds stop acks :
  calm (Datatypes.S n) (l_server l) -> v_ctxs (l_server l) !! c = Some x -> c <> 0 -> well_sent rq ds acks ->
  stops stop -> l_net l = (piece <$> ds) ++ stop :: acks ->
  exists v net, EventCallBack false fd c now l =
      Ok (tt, mkLoop v net (l_sent l ++ [(fd, reply_of (has_memory (l_server l)))]) (l_ctxrefs l) (l_ssls l)) /\
    calm n v /\ same_ctxs (l_server l) v.
Proof.
  intros [Hi Hlk Hmap] Hx Hc [Hok Hver [Hcat Hne] Htext Hfits Hacks] Hstop Hnet.
  pose proof (print_not_empty rq) as Hpos. assert (BUFFER_SIZE <= INT_MAX) by done.
  unfold EventCallBack. rewrite (proj2 (Z.eqb_neq c 0)) by done. run (get_ctx_ok c x l Hx). cbv zeta.
  set (text := print rq) in *. set (buf := text ++ repeat 0 (Z.to_nat (BUFFER_SIZE - zlen text))).
  set (l1 := mkLoop (l_server l) acks (l_sent l) (l_ctxrefs l) (l_ssls l)).
  rewrite (sbind_ok (on_net _) _ l (zlen text, buf) l1).
  2: { unfold on_net, NormalRecv. rewrite Hnet. pose proof (recv_pieces stop ds 0 acks Hstop Hne ltac:(lia)) as Hr. rewrite Hcat in Hr.
       specialize (Hr ltac:(lia) [] eq_refl). rewrite !Z.add_0_l, Z.sub_0_r in Hr. cbn [app] in Hr. rewrite Hr. done. }
  cbv beta iota. rewrite (proj2 (Z.leb_gt (zlen text) 0)) by lia.
  rewrite (sbind_ok (slift _) _ l1 text l1) by (unfold slift, buf; rewrite to_string_text by (done || lia); done).
  destruct (HandleRequest_whole n 0 (l_server l) c now rq (lit "ERROR") x Hi Hlk Hx) as (r & v & E & Hres); [by rewrite Hmap|done|]. fold text in E.
  destruct (HandleRequest_inv n 0 (l_server l) c now text (lit "ERROR") x Hi Hlk Hx ltac:(done)) as [[_ Ef]|(r' & v' & E' & Hi' & Hl')]; [lia|congruence|].
  assert (v' = v) as -> by congruence.
  rewrite (sbind_ok (on_server _) _ l1 r (mkLoop v acks (l_sent l) (l_ctxrefs l) (l_ssls l))) by (unfold on_server; cbn [l_server l1]; by rewrite E).
  assert (r.1 <> DATA_DEF /\ r.2 = reply_of (has_memory (l_server l)) /\ m_ReqHandlerMap v = ∅) as (Hd & Hrep & Hm).
  { cbv zeta in Hres. rewrite Hver in Hres. destruct Hres as [(-> & -> & [_ Hu])|[(-> & _ & -> & [_ Hu])|[(_ & ? & _)|(_ & ? & _)]]]; try done; rewrite <- Hmap; by split_and!. }
  destruct r as [iret reply]. cbn [fst snd] in *. cbv beta iota. rewrite (proj2 (Z.eqb_neq iret DATA_DEF)) by done. cbn [negb].
  destruct (send_whole acks reply) as (sn & rest & Es & Hsn).
  { rewrite Hrep. by destruct (has_memory _). }
  { destruct Hacks as [Hf Hcap]. split; [done|]. rewrite Hrep. destruct (has_memory _); [done|]. etransitivity; [|exact Hcap]. vm_compute. discriminate. }
  rewrite (sbind_ok (on_net _) _ _ sn (mkLoop v rest (l_sent l) (l_ctxrefs l) (l_ssls l))) by (unfold on_net; cbn [l_net]; by rewrite Es).
  rewrite Hsn, Hrep. exists v, rest. split; [done|].
  split; [|exact (frames_HandleRequest same_ctxs _ _ _ _ _ _ _ E)].
  split; [by eapply calm_any|done|done].
Qed.

(** The end of a connection. *)
Lemma leave_ok (l : loop S) fd c x now net : v_ctxs (l_server l) !! c = Some x -> c <> 0 -> l_net l = piece [] :: net ->
  EventCallBack false fd c now l =
  Ok (tt, mkLoop (set_ctxs (delete c (v_ctxs (l_server l))) (v_closed (l_server l) ++ [ctx_sock x]) (l_server l)) net (l_sent l) (l_ctxrefs l) (l_ssls l)).
Proof.
  intros Hx Hc Hnet. unfold EventCallBack. rewrite (proj2 (Z.eqb_neq c 0)) by done. run (get_ctx_ok c x l Hx). cbv zeta.
  rewrite (sbind_ok (on_net _) _ l (0, repeat 0 (Z.to_nat BUFFER_SIZE)) (mkLoop (l_server l) net (l_sent l) (l_ctxrefs l) (l_ssls l)))
    by (unfold on_net; by rewrite Hnet).
  change (0 <=? 0) with true. cbv iota.
  unfold on_server. cbn [l_server]. by rewrite (EventCtx_free_ok c x (l_server l) Hc Hx).
Qed.

Lemma tick_ok n (v : server S) now : calm n v -> OnCheckActiveTime now v = Ok (tt, v).
Proof.
  intros [_ Hl Hm]. unfold OnCheckActiveTime. run (lock_ok v Hl). rewrite (sbind_ok sget) with (1 := eq_refl). cbn [m_ReqHandlerMap set_lock].
  rewrite Hm, map_to_list_empty. cbn. unfold unlock, smodify. rewrite set_lock_twice. destruct v; cbn in *. by subst.
Qed.

Lemma calm_ctxs n v C closed : calm n v ->
  (forall c1 c2 x1 x2, C !! c1 = Some x1 -> C !! c2 = Some x2 -> ctx_sock x1 = ctx_sock x2 -> c1 = c2) -> C !! 0 = None -> calm n (set_ctxs C closed v).
Proof.
  intros [[P1 P2 P3 P4 P5] Hl Hm] Hinj Hz. split; [|done|done]. split; cbn; try done. intros sock a Ha. by rewrite Hm in Ha.
Qed.

Lemma calm_weaken n v : calm (Datatypes.S n) v -> calm n v.
Proof. intros [Hi Hl Hm]. split; [by apply (inv_weaken n 0)|done|done]. Qed.

(** Callbacks that keep the contexts, or delete one. *)
Lemma callback_same (m : SM (loop S) unit) s l : m (y_loop s) = Ok (tt, l) -> v_ctxs (l_server l) = y_ctxs s -> callback m s = Ok (tt, set_loop l s).
Proof.
  intros E EC. unfold callback. rewrite (sbind_ok sget) with (1 := eq_refl).
  rewrite (sbind_ok (on_loop m) _ s tt (set_loop l s)) by (unfold on_loop; by rewrite E). unfold smodify. cbv zeta.
  assert (filter (fun p : Z * EventCtx => y_ctxs (set_loop l s) !! p.1 = None) (y_ctxs s) = ∅) as ->; [|by rewrite map_to_list_empty].
  apply map_empty_filter_2. intros c x Hc. unfold y_ctxs at 1. cbn. rewrite EC, Hc. done.
Qed.

Lemma callback_deletes (m : SM (loop S) unit) s l c x : m (y_loop s) = Ok (tt, l) -> y_ctxs s !! c = Some x -> v_ctxs (l_server l) = delete c (y_ctxs s) ->
  callback m s = Ok (tt, delete_event_ctx c x (set_loop l s)).
Proof.
  intros E Hc EC. unfold callback. rewrite (sbind_ok sget) with (1 := eq_refl).
  rewrite (sbind_ok (on_loop m) _ s tt (set_loop l s)) by (unfold on_loop; by rewrite E). unfold smodify. cbv zeta.
  assert (filter (fun p : Z * EventCtx => y_ctxs (set_loop l s) !! p.1 = None) (y_ctxs s) = {[c := x]}) as ->; [|by rewrite map_to_list_singleton].
  apply map_eq. intros k. apply option_eq. intros y. rewrite map_lookup_filter_Some, lookup_singleton_Some. unfold y_ctxs at 2. cbn. rewrite EC, lookup_delete_None.
  split; [intros [Hy [<-|Hn]]; [split; congruence|congruence]|intros [<- <-]; auto].
Qed.

(** * The simulation *)

(** The state of the server and that of the specification. *)
Record serves (n : nat) (a : aserver) (s : system S) : Prop := {
  sv_acc : accounted false E0 ∅ (a_queues a) (y_ctxs s) s;
  sv_static : static_ok E0 (length (y_threads s)) /\ (0 < length (y_threads s))%nat;
  sv_conns fd : fd ∈ a_conns a <-> exists c x, y_ctxs s !! c = Some x /\ ctx_sock x = fd;
  sv_open fd : fd ∈ y_open s <-> fd ∈ concat (a_queues a) \/ fd ∈ a_conns a;
  sv_sent : l_sent (y_loop s) = a_sent a;
  sv_closed : v_closed (l_server (y_loop s)) = a_closed a;
  sv_calm : calm n (l_server (y_loop s))
}.

(** What clients that behave, and the libraries, do in a state. *)
Inductive polite (s : system S) : input -> action -> Prop :=
| po_connect fd : 0 <= fd <= INT_MAX -> fd ∉ y_open s -> polite s (Accepted fd true) (Connect fd)
| po_take ev e i a : y_events s !! ev = Some e -> ev_cb e = CbPipe i -> (th_pipe <$> y_threads s !! i) <> Some [] ->
    fresh_addresses a s = true -> an_ev a <> 0 -> polite s (Fired ev a) (Take i)
| po_ask ev b fd c a rq ds stop acks memory : memory = has_memory (l_server (y_loop s)) -> y_events s !! ev = Some (mkEv b fd (CbConnection c)) -> well_sent rq ds acks ->
    stops stop -> an_net a = (piece <$> ds) ++ stop :: acks -> polite s (Fired ev a) (Ask fd memory)
| po_leave ev b fd c a net : y_events s !! ev = Some (mkEv b fd (CbConnection c)) -> an_net a = piece [] :: net ->
    polite s (Fired ev a) (Leave fd)
| po_tick ev e a : y_events s !! ev = Some e -> ev_cb e = CbTimer -> polite s (Fired ev a) Tick.

Lemma serves_queues n a s : serves n a s -> zlen (a_queues a) = y_num s.
Proof. intros Hs. unfold y_num. by rewrite (Forall2_length _ _ _ (sa_pipes _ _ _ _ _ _ (sv_acc _ _ _ Hs))). Qed.

Lemma connect_sim n a s fd : serves (Datatypes.S n) a s -> 0 <= fd <= INT_MAX -> fd ∉ y_open s ->
  exists s' a', step false (Accepted fd true) s = Ok (tt, s') /\ aserver_step a (Connect fd) a' /\ serves n a' s'.
Proof.
  intros Hs Hfd Ho. pose proof (serves_queues _ _ _ Hs) as Hq. destruct (Hs) as [Ha [Hst Hn] Hc Hop Hsent Hcl Hcalm].
  destruct (accept_ok false E0 ∅ (a_queues a) s fd true Ha) as (ts & qs' & Ed & Hl & Ha' & (q & Hqi & ->)); [unfold y_num; lia|done|done|].
  rewrite Hop in Ho. unfold step. rewrite (sbind_ok sget) with (1 := eq_refl). rewrite (proj2 (Z.ltb_ge fd 0)), (proj2 (Z.ltb_ge INT_MAX fd)) by lia.
  rewrite bool_decide_false by (by rewrite Hop). cbn [orb]. rewrite (sbind_ok (smodify _)) with (1 := eq_refl). rewrite Ed.
  eexists _, _. split; [done|]. rewrite <- Hq in *. split; [apply (as_connect a fd q); [tauto|tauto|done]|].
  assert (concat (<[Z.to_nat (Z.rem fd (zlen (a_queues a))) := q ++ [fd]]> (a_queues a)) ≡ₚ fd :: concat (a_queues a)) as Hperm
    by (apply (concat_queued _ _ q); [done|by rewrite Permutation_app_comm]).
  split; cbn; [done|by rewrite Hl|done| |done|done|by apply calm_weaken].
  intros x. rewrite Hperm, elem_of_cons, elem_of_union, elem_of_singleton, Hop. tauto.
Qed.

Lemma take_sim n a s ev e i an : serves (Datatypes.S n) a s -> y_events s !! ev = Some e -> ev_cb e = CbPipe i ->
  (th_pipe <$> y_threads s !! i) <> Some [] -> fresh_addresses an s = true -> an_ev an <> 0 ->
  exists s' a', step false (Fired ev an) s = Ok (tt, s') /\ aserver_step a (Take i) a' /\ serves n a' s'.
Proof.
  intros [Ha [Hst Hn] Hc Hop Hsent Hcl Hcalm] He Hcb Hne Hf Hz. unfold step. rewrite (sbind_ok sget) with (1 := eq_refl). rewrite He, Hcb.
  rewrite bool_decide_false by done. rewrite Hf. cbn [negb orb].
  apply andb_prop in Hf as [[Hpz%negb_true_iff%Z.eqb_neq Hpc%bool_decide_eq_true]%andb_prop Hev%bool_decide_eq_true].
  unfold give_answers. rewrite (sbind_ok (smodify _)) with (1 := eq_refl). cbv zeta. set (s1 := set_loop _ s).
  assert (accounted false E0 ∅ (a_queues a) (y_ctxs s1) s1) as Ha1 by by apply accounted_loop.
  assert (is_Some (y_threads s1 !! i)) as Hsome.
  { apply lookup_lt_is_Some. apply (proj1 Hst ev e i); [|done]. apply (sa_static _ _ _ _ _ _ Ha); [by rewrite Hcb|done]. }
  destruct (pipe_event_ok false E0 ∅ _ s1 i (an_ctx an) (an_ev an) Ha1 Hsome) as (fd & q & t & Hq & Ht & Hres); try done.
  pose proof (concat_pop _ i fd q Hq) as Hperm.
  destruct Hres as [[? _]|(s' & E & Ha' & Hl & Ho' & Hs' & [[Hv Hev']|[? _]])]; [done|exists s', (mkA (<[i := q]> (a_queues a)) ({[fd]} ∪ a_conns a) (a_sent a) (a_closed a))|done].
  assert (y_ctxs s' = <[an_ctx an := mkCtx fd false]> (y_ctxs s)) as EC by (unfold y_ctxs; by rewrite Hv).
  split; [done|]. split; [by apply as_take|]. split; cbn [a_queues a_conns a_sent a_closed].
  - done.
  - by rewrite Hl.
  - intros x. rewrite elem_of_union, elem_of_singleton, Hc, EC. split.
    + intros [->|(c & y & Hy & Ey)]; [exists (an_ctx an), (mkCtx fd false); by rewrite lookup_insert_eq|].
      exists c, y. rewrite lookup_insert_ne; [done|]. intros Ec. rewrite Ec in Hpc. congruence.
    + intros (c & y & [[<- <-]|[_ Hy]]%lookup_insert_Some & Ey); [left; by cbn in Ey|right; eauto].
  - intros x. rewrite Ho'. cbn. rewrite Hop, Hperm, elem_of_cons, elem_of_union, elem_of_singleton. tauto.
  - by rewrite Hs'.
  - by rewrite Hv.
  - rewrite Hv. apply calm_ctxs; [by apply calm_weaken| |].
    + pose proof (sa_socks _ _ _ _ _ _ Ha') as Hso. rewrite EC in Hso. exact Hso.
    + pose proof (sa_null _ _ _ _ _ _ Ha') as Hnl. rewrite EC in Hnl. exact Hnl.
Qed.

(** The context of an event, which is there. *)
Lemma event_ctx qs (s : system S) ev b fd c : accounted false E0 ∅ qs (y_ctxs s) s -> y_events s !! ev = Some (mkEv b fd (CbConnection c)) ->
  exists x, y_ctxs s !! c = Some x /\ ctx_sock x = fd /\ c <> 0.
Proof.
  intros Ha He. destruct (sa_event _ _ _ _ _ _ Ha ev _ c He eq_refl) as [Hp [x Hx]]. exists x. split; [done|].
  destruct (sa_ctx _ _ _ _ _ _ Ha c x Hx) as (ev' & t & Hp' & _ & He' & _). assert (ev' = ev) as -> by congruence. split; [congruence|].
  intros ->. by rewrite (sa_null _ _ _ _ _ _ Ha) in Hx.
Qed.

Lemma ask_sim n a s ev b fd c an rq ds stop acks : serves (Datatypes.S n) a s -> y_events s !! ev = Some (mkEv b fd (CbConnection c)) ->
  well_sent rq ds acks -> stops stop -> an_net an = (piece <$> ds) ++ stop :: acks ->
  exists s' a', step false (Fired ev an) s = Ok (tt, s') /\ aserver_step a (Ask fd (has_memory (l_server (y_loop s)))) a' /\ serves n a' s'.
Proof.
  intros [Ha [Hst Hn] Hc Hop Hsent Hcl Hcalm] He Hws Hstop Hnet. destruct (event_ctx _ _ _ _ _ _ Ha He) as (x & Hx & Hfd & Hz).
  unfold step. rewrite (sbind_ok sget) with (1 := eq_refl). rewrite He. cbn [ev_cb ev_fd].
  unfold give_answers. rewrite (sbind_ok (smodify _)) with (1 := eq_refl). cbv zeta. set (l1 := mkLoop _ (an_net an) _ _ _). set (s1 := set_loop l1 s).
  destruct (ask_ok n l1 fd c x (an_now an) rq ds stop acks Hcalm Hx Hz Hws Hstop Hnet) as (v & net & E & Hcm & [Esc Ecl]).
  rewrite (callback_same _ s1 _ E) by done. eexists _, _. split; [done|]. split; [apply as_ask, Hc; eauto|].
  set (l' := mkLoop v net _ _ _). assert (y_ctxs (set_loop l' s1) = y_ctxs s) as EC by exact Esc.
  assert (accounted false E0 ∅ (a_queues a) (y_ctxs (set_loop l' s1)) (set_loop l' s1)) as Ha'.
  { rewrite EC. apply accounted_loop; [|done|done]. by apply accounted_loop. }
  split; [exact Ha'|..]; cbn; try done.
  - intros k. rewrite EC. apply Hc.
  - by rewrite Hsent.
  - by rewrite Ecl.
Qed.

Lemma leave_sim n a s ev b fd c an net : serves (Datatypes.S n) a s -> y_events s !! ev = Some (mkEv b fd (CbConnection c)) -> an_net an = piece [] :: net ->
  exists s' a', step false (Fired ev an) s = Ok (tt, s') /\ aserver_step a (Leave fd) a' /\ serves n a' s'.
Proof.
  intros [Ha [Hst Hn] Hc Hop Hsent Hcl Hcalm] He Hnet. destruct (event_ctx _ _ _ _ _ _ Ha He) as (x & Hx & Hfd & Hz).
  unfold step. rewrite (sbind_ok sget) with (1 := eq_refl). rewrite He. cbn [ev_cb ev_fd].
  unfold give_answers. rewrite (sbind_ok (smodify _)) with (1 := eq_refl). cbv zeta. set (l1 := mkLoop _ (an_net an) _ _ _). set (s1 := set_loop l1 s).
  pose proof (leave_ok l1 fd c x (an_now an) net Hx Hz Hnet) as E. pose proof (callback_deletes _ s1 _ c x E Hx eq_refl) as Ecb. rewrite Ecb.
  assert (accounted false E0 ∅ (a_queues a) (y_ctxs s1) s1) as Ha1 by by apply accounted_loop.
  pose proof (callback_ok false E0 ∅ _ _ _ _ (lkeeps_EventCallBack _ _ _ _) Ha1 Ecb) as Ha'.
  eexists _, _. split; [done|]. split; [apply (as_leave a fd), Hc; eauto|]. set (s' := delete_event_ctx _ _ _) in *.
  assert (y_ctxs s' = delete c (y_ctxs s)) as EC by done.
  split; [exact Ha'|done|..]; cbn [a_conns a_queues a_sent a_closed].
  - intros k. rewrite elem_of_difference, elem_of_singleton, Hc, EC. split.
    + intros [(c' & y & Hy & <-) Hne]. exists c', y. rewrite lookup_delete_ne; [done|]. intros <-. congruence.
    + intros (c' & y & [Hne Hy]%lookup_delete_Some & <-). split; [eauto|]. intros Eq. apply Hne. apply (sa_socks _ _ _ _ _ _ Ha c c' x y); congruence.
  - intros k. change (y_open s') with (y_open s ∖ {[ctx_sock x]}). rewrite Hfd, !elem_of_difference, !elem_of_singleton, Hop. pose proof (sa_apart _ _ _ _ _ _ Ha c x Hx) as Hap. rewrite Hfd in Hap.
    split; [tauto|]. intros [Hk|Hk]; [|tauto]. split; [by left|]. by intros ->.
  - exact Hsent.
  - change (v_closed _) with (v_closed (l_server (y_loop s)) ++ [ctx_sock x]). by rewrite Hcl, Hfd.
  - apply calm_ctxs; [by apply calm_weaken| |].
    + intros c1 c2 x1 x2 [_ H1]%lookup_delete_Some [_ H2]%lookup_delete_Some. by apply (sa_socks _ _ _ _ _ _ Ha).
    + apply lookup_delete_None. right. apply Ha.
Qed.

Lemma tick_sim n a s ev e an : serves (Datatypes.S n) a s -> y_events s !! ev = Some e -> ev_cb e = CbTimer ->
  exists s' a', step false (Fired ev an) s = Ok (tt, s') /\ aserver_step a Tick a' /\ serves n a' s'.
Proof.
  intros Hs He Hcb. unfold step. rewrite (sbind_ok sget) with (1 := eq_refl). rewrite He, Hcb.
  rewrite (callback_same _ s (y_loop s)).
  - exists s, a. split; [by destruct s|]. split; [constructor|]. destruct Hs as [Ha Hst Hc Hop Hsent Hcl Hcalm]. split; try done. by apply calm_weaken.
  - unfold TimeoutCallBack, on_server. rewrite (tick_ok (Datatypes.S n)) by apply Hs. by destruct (y_loop s).
  - done.
Qed.

Lemma polite_sim n a s x act : serves (Datatypes.S n) a s -> polite s x act ->
  exists s' a', step false x s = Ok (tt, s') /\ aserver_step a act a' /\ serves n a' s'.
Proof.
  intros Hs Hp. destruct Hp; [by apply connect_sim|by eapply take_sim|subst; by eapply ask_sim|by eapply leave_sim|by eapply tick_sim].
Qed.

(** A run in which everyone behaves. *)
Inductive polite_run : system S -> list input -> list action -> Prop :=
| pr_nil s : polite_run s [] []
| pr_cons s x act xs acts : polite s x act -> (forall s', step false x s = Ok (tt, s') -> polite_run s' xs acts) ->
    polite_run s (x :: xs) (act :: acts).

Lemma polite_run_sim s xs acts : polite_run s xs acts -> forall a, serves (length xs) a s ->
  exists s' a', run_inputs false xs s = Ok (tt, s') /\ aserver_run a acts a' /\ serves 0 a' s'.
Proof.
  induction 1 as [s|s x act xs acts Hp _ IH]; intros a Hs; [exists s, a; split_and!; [done|constructor|done]|]. cbn [run_inputs].
  destruct (polite_sim _ _ _ _ _ Hs Hp) as (s1 & a1 & E & Hst & Hs1). destruct (IH s1 E a1 Hs1) as (s' & a' & E' & Hr & Hs').
  exists s', a'. run E. split_and!; [done|by econstructor|done].
Qed.
End service.


(** Two connections, for two threads; one leaves, the other asks in two pieces. *)
Definition demo_text : list char := print demo_get.
Definition demo_acks : list netret := [mkNet 100 0 []; mkNet (-1) EAGAIN []; mkNet 1000 0 []].
Definition polite_inputs : list input :=
  [Accepted 20 true; Accepted 21 true; Fired 101 (mkAnswers 5 [] 64 201); Fired 103 (mkAnswers 5 [] 65 202);
   Fired 202 (mkAnswers 6 [piece []] 0 1); Fired 102 (mkAnswers 7 [] 0 1);
   Fired 201 (mkAnswers 8 ((piece <$> [take 3 demo_text; drop 3 demo_text]) ++ piece [] :: demo_acks) 0 1)].
Definition polite_actions : list action := [Connect 20; Connect 21; Take 0; Take 1; Leave 21; Tick; Ask 20 true].

Lemma demo_well_sent : well_sent demo_get [take 3 demo_text; drop 3 demo_text] demo_acks.
Proof.
  split; [apply demo_get_ok|by vm_compute|split; [by vm_compute|]|..].
  - repeat constructor; discriminate.
  - apply (bool_decide_unpack _). by vm_compute.
  - by vm_compute.
  - split; [|by vm_compute]. repeat constructor; intros [? ?]; cbn in *; lia.
Qed.


(** A server with one connection. *)
Lemma calm_one n c x : c <> 0 -> calm n (set_ctxs {[c := x]} [] (mkServer 0 ∅ ∅ false ∅ [])).
Proof.
  intros Hc. split; [|done|done]. split; cbn.
  - rewrite dom_empty_L. split; [lia|]. intros a. set_solver.
  - done.
  - intros a. rewrite dom_empty_L. set_solver.
  - by intros c1 c2 x1 x2 [<- _]%lookup_singleton_Some [<- _]%lookup_singleton_Some _.
  - by apply lookup_singleton_ne.
Qed.
