(* ===== verification/Windows.v ===== *)
(** The event loop of the server on Windows (CMainEventBase.cpp, the branches for
    WIN32): one thread with one event base, whose listening event accepts the
    connections.

    The state is that of [Server] without threads, with the event base and the
    listening event.  The code that receives and sends asks [errno] why a call
    failed; Winsock does not set [errno], so its value is one for all calls of a
    callback. *)

From stdpp Require Import base tactics sets list numbers strings gmap.
From S2P Require Import Prelude StateMonad Text Http Request Connection Server.

Local Open Scope Z_scope.

(** * Receiving and sending *)

(** The value of EWOULDBLOCK in the C library, which is not that of EAGAIN. *)
Definition EWOULDBLOCK : Z := 140.
Definition would_block (errno : Z) : bool := (errno =? EWOULDBLOCK) || (errno =? EAGAIN).

Fixpoint win_recv_loop (errno : Z) (net : list netret) (ilen count : Z) (buffer : list char) : outcome (Z * list char * list netret) :=
  match net with
  | [] => Fault Blocks
  | a :: net' =>
      if nr_val a <? 0 then
        if would_block errno then win_recv_loop errno net' ilen count buffer
        else Ok (count, buffer, net')
      else
        let d := received a (ilen - count) in
        if zlen d =? 0 then Ok (count, buffer, net')
        else
          let! buffer := mem_write buffer count d in
          let count := count + zlen d in
          if ilen <=? count then Ok (count, buffer, net') else win_recv_loop errno net' ilen count buffer
  end.
Definition win_NormalRecv (errno : Z) (net : list netret) (buffer : list char) (ilen : Z) : outcome (Z * list char * list netret) :=
  win_recv_loop errno net ilen 0 buffer.

Fixpoint win_send_loop (errno : Z) (net : list netret) (buffer : list char) (ilen : Z) (s : sending) : outcome (sending * list netret) :=
  match net with
  | [] => Fault Blocks
  | a :: net' =>
      let want := ilen - sn_count s in
      let calls := sn_calls s ++ [want] in
      if nr_val a <? 0 then
        if would_block errno then win_send_loop errno net' buffer ilen (mkSending (sn_count s) (sn_bytes s) calls)
        else Ok (mkSending (sn_count s) (sn_bytes s) calls, net')
      else
        let ires := Z.min (nr_val a) want in
        let! d := mem_read buffer (sn_count s) ires in
        let s := mkSending (sn_count s + ires) (sn_bytes s ++ d) calls in
        if ilen <=? sn_count s then Ok (s, net') else win_send_loop errno net' buffer ilen s
  end.
Definition win_NormalSend (errno : Z) (net : list netret) (buffer : list char) (ilen : Z) : outcome (sending * list netret) :=
  win_send_loop errno net buffer ilen (mkSending 0 [] []).

(** With SSL the error comes from [SSL_get_error]; the text of these functions is
    that of [CEventBaseMgr]. *)
Definition win_SslRecv : list netret -> list char -> Z -> outcome (Z * list char * list netret) := SslRecv.
Definition win_SslSend : list netret -> list char -> Z -> outcome (sending * list netret) := SslSend.

Section windows.
Context {S : Type} `{ObjectPool S}.

(** * The callbacks *)

Definition win_EventCallBack (errno : Z) (enablessl : bool) (fd pCtx now : Z) : SM (loop S) unit :=
  if pCtx =? 0 then sret tt
  else
    do* _ := on_server (get_ctx pCtx) in
    let buffer := repeat 0 (Z.to_nat BUFFER_SIZE) in
    do* (len, buffer) := on_net (fun net => if enablessl then win_SslRecv net buffer BUFFER_SIZE else win_NormalRecv errno net buffer BUFFER_SIZE) in
    if len <=? 0 then on_server (EventCtx_free pCtx)
    else
      do* request := slift (to_string buffer) in
      do* (iret, reply) := on_server (HandleRequest pCtx now request (lit "ERROR")) in
      if negb (iret =? DATA_DEF) then
        do* s := on_net (fun net => if enablessl then win_SslSend net reply (zlen reply) else win_NormalSend errno net reply (zlen reply)) in
        add_sent fd (sn_bytes s)
      else sret tt.

Definition win_OnTimeoutCallback (now : Z) : SM (loop S) unit := on_server (OnCheckActiveTime now).

Definition win_CreateSSL : bool -> SM (loop S) bool := CreateSSL.

(** What [accept] returned, the new context and its event. *)
Definition win_OnAcceptCallback (enablessl : bool) (m_pMainBase sockfd pCtx ev : Z) : SM (system S) unit :=
  if sockfd <? 0 then sret tt
  else
    do* ssl := on_loop (win_CreateSSL enablessl) in
    if enablessl && negb ssl then sret tt
    else
      do* _ := on_loop (on_server (smodify (fun v => set_ctxs (<[pCtx := mkCtx sockfd ssl]> (v_ctxs v)) (v_closed v) v))) in
      if ev =? 0 then scrash NullDeref
      else
        smodify (fun s => set_events (<[ev := mkEv m_pMainBase sockfd (CbConnection pCtx)]> (y_events s)) (<[pCtx := ev]> (y_pEvent s)) s).

(** * The main event base *)

(** [w_exit] is the base that [event_base_loopexit] was called with. *)
Record winserver := mkWin {
  w_sys : system S;
  w_pMainBase : Z;
  w_listenerFd : Z;
  w_ev_listen : Z;
  w_exit : option Z
}.

Definition on_sys (m : SM (system S) unit) : SM winserver unit := fun w =>
  match m (w_sys w) with
  | Ok (_, s) => Ok (tt, mkWin s (w_pMainBase w) (w_listenerFd w) (w_ev_listen w) (w_exit w))
  | Fault f => Fault f
  end.

(** The start of [OnWindowsStart], up to [event_base_dispatch]: [base], [ev_listen]
    and [evtime] are what [event_base_new] and [event_new] return. *)
Definition OnWindowsStart (base ev_listen evtime : Z) (w : winserver) : outcome winserver :=
  if (base =? 0) || (ev_listen =? 0) || (evtime =? 0) then Fault NullDeref
  else
    let s := w_sys w in
    Ok (mkWin (set_events (<[evtime := mkEv base (-1) CbTimer]> (y_events s)) (y_pEvent s) s) base (w_listenerFd w) ev_listen (w_exit w)).

(** Its end, when the dispatch has returned: the base is freed, and its events with
    it. *)
Definition OnWindowsStart_end (w : winserver) : winserver :=
  mkWin (set_events ∅ (y_pEvent (w_sys w)) (w_sys w)) 0 (w_listenerFd w) 0 (w_exit w).

Definition win_OnStop (m_isInited : bool) (w : winserver) : winserver :=
  if negb m_isInited then w
  else mkWin (set_open (y_open (w_sys w) ∖ {[w_listenerFd w]}) (w_sys w)) (w_pMainBase w) (w_listenerFd w) (w_ev_listen w) (Some (w_pMainBase w)).

(** * Inputs *)

(** What a callback meets: the answers of [Server], the result of [accept], and
    [errno]. *)
Record winput := mkWinput { wi_ev : Z; wi_accept : Z; wi_errno : Z; wi_answers : answers }.

(** [accept] gives a socket that is not open, and that fits an [int]; the allocator
    gives addresses that are not in use. *)
Definition accept_possible (x : winput) (w : winserver) : bool :=
  (wi_accept x <=? INT_MAX) && negb (bool_decide (wi_accept x ∈ y_open (w_sys w))) &&
  fresh_addresses (wi_answers x) (w_sys w) && negb (an_ev (wi_answers x) =? w_ev_listen w).

Definition AcceptCallBack (enablessl : bool) (x : winput) : SM winserver unit :=
  do* w := sget in
  if accept_possible x w then
    do* _ := on_sys (if 0 <=? wi_accept x then smodify (fun s => set_open ({[wi_accept x]} ∪ y_open s) s) else sret tt) in
    do* _ := on_sys (give_answers (an_net (wi_answers x))) in
    on_sys (win_OnAcceptCallback enablessl (w_pMainBase w) (wi_accept x) (an_ctx (wi_answers x)) (an_ev (wi_answers x)))
  else sret tt.

(** An event that is not added is not called. *)
Definition win_step (enablessl : bool) (x : winput) : SM winserver unit :=
  do* w := sget in
  let a := wi_answers x in
  if wi_ev x =? w_ev_listen w then AcceptCallBack enablessl x
  else
    match y_events (w_sys w) !! wi_ev x with
    | None => sret tt
    | Some e =>
        match ev_cb e with
        | CbPipe _ => sret tt
        | CbTimer => on_sys (callback (win_OnTimeoutCallback (an_now a)))
        | CbConnection pCtx =>
            do* _ := on_sys (give_answers (an_net a)) in
            on_sys (callback (win_EventCallBack (wi_errno x) enablessl (ev_fd e) pCtx (an_now a)))
        end
    end.

Fixpoint win_run (enablessl : bool) (xs : list winput) : SM winserver unit :=
  match xs with
  | [] => sret tt
  | x :: xs' => do* _ := win_step enablessl x in win_run enablessl xs'
  end.
End windows.
Arguments winserver : clear implicits.
