(* ===== verification/WindowsSpec.v ===== *)
(** The server on Windows does what that on Linux does with one thread, whose pipe
    takes the place of the listening socket; but what [errno] says there makes the
    difference for a client that waits for its reply. *)

From stdpp Require Import base tactics sets list numbers strings gmap.
From S2P Require Import Prelude StateMonad Text Http HttpSpec Request RequestSpec RequestProps Connection ConnectionSpec Server ServerSpec ServerService Windows.

Local Open Scope Z_scope.

(** * The same answers, as Linux gives them *)

(** A call that fails does so with the [errno] that the callback sees. *)
Definition as_linux (errno : Z) (a : netret) : netret :=
  if nr_val a <? 0 then mkNet (nr_val a) (if would_block errno then EAGAIN else 0) (nr_data a) else a.
Definition linux_net (enablessl : bool) (errno : Z) (net : list netret) : list netret :=
  if enablessl then net else as_linux errno <$> net.

(** The result of a call, with the answers that are left seen through [f]. *)
Definition seen {A} (f : list netret -> list netret) (o : outcome (A * list netret)) : outcome (A * list netret) :=
  let! (a, net) := o in Ok (a, f net).

Lemma as_linux_val errno a : nr_val (as_linux errno a) = nr_val a.
Proof. unfold as_linux. by destruct (nr_val a <? 0). Qed.
Lemma as_linux_received errno a want : received (as_linux errno a) want = received a want.
Proof. unfold received. rewrite as_linux_val. unfold as_linux. by destruct (nr_val a <? 0). Qed.
Lemma as_linux_again errno a : nr_val a <? 0 = true -> (nr_err (as_linux errno a) =? EAGAIN) = would_block errno.
Proof. intros E. unfold as_linux. rewrite E. cbn. by destruct (would_block errno). Qed.

Lemma recv_linux errno net ilen : forall count buffer,
  recv_loop (as_linux errno <$> net) ilen count buffer = seen (fmap (as_linux errno)) (win_recv_loop errno net ilen count buffer).
Proof.
  induction net as [|a net IH]; intros count buffer; [done|]. cbn [fmap list_fmap recv_loop win_recv_loop]. cbv zeta.
  rewrite as_linux_val, as_linux_received. destruct (nr_val a <? 0) eqn:Hv.
  - rewrite as_linux_again by done. destruct (would_block errno); [apply IH|done].
  - destruct (_ =? 0); [done|]. destruct (mem_write _ _ _) as [b|]; [|done]. cbn [obind]. destruct (ilen <=? _); [done|apply IH].
Qed.

Lemma send_linux errno net buffer ilen : forall s,
  send_loop (as_linux errno <$> net) buffer ilen s = seen (fmap (as_linux errno)) (win_send_loop errno net buffer ilen s).
Proof.
  induction net as [|a net IH]; intros s; [done|]. cbn [fmap list_fmap send_loop win_send_loop]. cbv zeta. rewrite as_linux_val.
  destruct (nr_val a <? 0) eqn:Hv.
  - rewrite as_linux_again by done. destruct (would_block errno); [apply IH|done].
  - destruct (mem_read _ _ _) as [d|]; [|done]. cbn [obind]. destruct (ilen <=? _); [done|apply IH].
Qed.

(** * Callbacks *)

Section callbacks.
Context {S : Type} `{ObjectPool S} (f : list netret -> list netret).

Definition map_net (l : loop S) : loop S := mkLoop (l_server l) (f (l_net l)) (l_sent l) (l_ctxrefs l) (l_ssls l).

(** The computation [m'] does with the answers seen through [f] what [m] does. *)
Definition net_sim {A} (m m' : SM (loop S) A) : Prop := forall l, m' (map_net l) = let! (a, l1) := m l in Ok (a, map_net l1).

Lemma net_sim_bind {A B} (m m' : SM (loop S) A) (k k' : A -> SM (loop S) B) :
  net_sim m m' -> (forall a, net_sim (k a) (k' a)) -> net_sim (sbind m k) (sbind m' k').
Proof. intros Hm Hk l. unfold sbind. rewrite Hm. destruct (m l) as [[a l1]|]; [|done]. cbn. apply Hk. Qed.
Lemma net_sim_ret {A} (a : A) : net_sim (sret a) (sret a).
Proof. done. Qed.
Lemma net_sim_lift {A} (o : outcome A) : net_sim (slift o) (slift o).
Proof. intros l. unfold slift. by destruct o. Qed.
Lemma net_sim_server {A} (m : SM (server S) A) : net_sim (on_server m) (on_server m).
Proof. intros l. unfold on_server. cbn. by destruct (m (l_server l)) as [[a v]|]. Qed.
Lemma net_sim_sent fd d : net_sim (add_sent fd d) (add_sent fd d).
Proof. done. Qed.
Lemma net_sim_net {A} (g g' : list netret -> outcome (A * list netret)) : (forall net, g' (f net) = seen f (g net)) -> net_sim (on_net g) (on_net g').
Proof. intros Hg l. unfold on_net. cbn. rewrite Hg. by destruct (g (l_net l)) as [[a net]|]. Qed.
End callbacks.

(** Follows a callback of the two systems. *)
Ltac along :=
  repeat match goal with
  | |- forall _, net_sim _ _ _ => intros ?
  | |- net_sim _ (match ?x with _ => _ end) _ => destruct x
  | |- net_sim _ (sbind _ _) _ => apply net_sim_bind
  | |- net_sim _ (sret _) _ => apply net_sim_ret
  | |- net_sim _ (slift _) _ => apply net_sim_lift
  | |- net_sim _ (add_sent _ _) _ => apply net_sim_sent
  | |- net_sim _ (on_server _) _ => apply net_sim_server
  | |- net_sim _ (on_net _) _ => apply net_sim_net; intros ?
  end.

Section simulation.
Context {S : Type} `{ObjectPool S} (enablessl : bool).

Lemma seen_id {A} errno (o : outcome (A * list netret)) : seen (linux_net true errno) o = o.
Proof. by destruct o as [[]|]. Qed.

Lemma EventCallBack_sim errno fd c now :
  net_sim (S := S) (linux_net enablessl errno) (win_EventCallBack errno enablessl fd c now) (EventCallBack enablessl fd c now).
Proof.
  unfold win_EventCallBack, EventCallBack. cbv zeta. along.
  - destruct enablessl; [by rewrite seen_id|apply recv_linux].
  - destruct enablessl; [by rewrite seen_id|apply send_linux].
Qed.

Lemma CreateSSL_sim errno : net_sim (S := S) (linux_net enablessl errno) (CreateSSL enablessl) (CreateSSL enablessl).
Proof.
  destruct enablessl; [|done]. intros l. assert (forall l : loop S, map_net (linux_net true errno) l = l) as E by (by intros []).
  rewrite E. destruct (CreateSSL true l) as [[a l1]|]; [|done]. cbn. by rewrite E.
Qed.

Lemma Timeout_sim f now : net_sim (S := S) f (win_OnTimeoutCallback now) (TimeoutCallBack now).
Proof. apply net_sim_server. Qed.

(** * States *)

Context (ev_listen base : Z).

(** The state [u] of the system on Windows and [s] of that on Linux with one
    thread: the same connections, with the answers seen through [f]. *)
Record like (f : list netret -> list netret) (u s : system S) : Prop := {
  lk_loop : y_loop s = map_net f (y_loop u);
  lk_thread : exists t, y_threads s = [t] /\ th_pBase t = base /\ th_pipe t = [];
  lk_events : exists fd, y_events s = <[ev_listen := mkEv base fd (CbPipe 0)]> (y_events u);
  lk_listen : y_events u !! ev_listen = None;
  lk_nopipe ev e i : y_events u !! ev = Some e -> ev_cb e <> CbPipe i;
  lk_pEvent : y_pEvent s = y_pEvent u;
  lk_other c ev : y_pEvent u !! c = Some ev -> ev <> ev_listen;
  lk_open : y_open s = y_open u
}.

Lemma like_loop f g u s l : like f u s -> like g (set_loop l u) (set_loop (map_net g l) s).
Proof. by intros []. Qed.

Lemma like_answers f g u s net : like f u s ->
  exists u' s', give_answers net u = Ok (tt, u') /\ give_answers (g net) s = Ok (tt, s') /\ like g u' s' /\ y_events u' = y_events u /\
    y_events s' = y_events s /\ y_threads s' = y_threads s /\ y_ctxs u' = y_ctxs u.
Proof.
  intros Hl. set (l := y_loop u). set (l1 := mkLoop (l_server l) net (l_sent l) (l_ctxrefs l) (l_ssls l)).
  exists (set_loop l1 u), (set_loop (map_net g l1) s). split; [done|]. unfold give_answers, smodify. rewrite (lk_loop _ _ _ Hl).
  split_and!; try done. by eapply like_loop.
Qed.

Lemma like_delete f u s c x : like f u s -> like f (delete_event_ctx c x u) (delete_event_ctx c x s).
Proof.
  intros [P1 P2 [fd P3] P4 P5 P6 P7 P8]. unfold delete_event_ctx. rewrite P1, P6. split; cbn; try done.
  - exists fd. destruct (y_pEvent u !! c) as [ev|] eqn:E; [|done]. rewrite P3. apply delete_insert_ne. by eapply P7.
  - destruct (y_pEvent u !! c) as [ev|]; [|done]. apply lookup_delete_None. by right.
  - intros ev e i. destruct (y_pEvent u !! c) as [ev'|]; [|apply P5]. intros [_ ?]%lookup_delete_Some. by eapply P5.
  - intros c' ev [_ ?]%lookup_delete_Some. by eapply P7.
  - by rewrite P8.
Qed.

Lemma like_ctxs f u s : like f u s -> y_ctxs s = y_ctxs u.
Proof. intros Hl. unfold y_ctxs. by rewrite (lk_loop _ _ _ Hl). Qed.

(** Outcomes of the two systems. *)
Definition alike (o o' : outcome (unit * system S)) : Prop :=
  match o, o' with
  | Ok (_, u), Ok (_, s) => exists f, like f u s
  | Fault e, Fault e' => e = e'
  | _, _ => False
  end.

Lemma callback_sim f m m' u s : net_sim f m m' -> like f u s -> alike (callback m u) (callback m' s).
Proof.
  intros Hm Hl. unfold callback. rewrite !(sbind_ok sget) with (1 := eq_refl). unfold on_loop, sbind. rewrite (lk_loop _ _ _ Hl), Hm.
  destruct (m (y_loop u)) as [[[] l]|]; [|done]. cbn. exists f. rewrite (like_ctxs _ _ _ Hl). change (y_ctxs (set_loop (map_net f l) s)) with (y_ctxs (set_loop l u)).
  generalize (map_to_list (filter (fun p : Z * EventCtx => y_ctxs (set_loop l u) !! p.1 = None) (y_ctxs u))). intros gone.
  induction gone as [|p gone IH]; [by eapply like_loop|]. by apply like_delete.
Qed.

(** The new connection of the listening socket, and that of the pipe. *)
Lemma connect_sim_linux errno u s sockfd pCtx ev : like (linux_net enablessl errno) u s -> 0 <= sockfd -> y_ctxs u !! pCtx = None -> ev <> ev_listen ->
  alike (win_OnAcceptCallback enablessl base sockfd pCtx ev u) (connect_event enablessl sockfd base pCtx ev s).
Proof.
  intros Hl Hs Hc Hev. unfold win_OnAcceptCallback, connect_event, OnPipeReadCallback, win_CreateSSL. rewrite (proj2 (Z.ltb_ge sockfd 0)) by done.
  unfold on_loop at 1 3. unfold sbind. rewrite (lk_loop _ _ _ Hl), (CreateSSL_sim errno).
  destruct (CreateSSL_ok enablessl (y_loop u)) as [E|(ok & l1 & E & (Hv & _) & _)]; rewrite E; cbn [obind]; [done|].
  destruct (enablessl && negb ok) eqn:Eg.
  - cbn. rewrite bool_decide_false by (unfold y_ctxs in *; cbn; rewrite Hv, Hc; by intros []).
    eexists. by eapply like_loop.
  - cbn. rewrite bool_decide_true by (unfold y_ctxs; cbn; rewrite lookup_insert_eq; by eexists).
    destruct (ev =? 0); [done|]. exists (linux_net enablessl errno).
    destruct Hl as [P1 P2 [fd P3] P4 P5 P6 P7 P8]. split; cbn; try done.
    + exists fd. rewrite P3. by apply insert_insert_ne.
    + by rewrite lookup_insert_ne.
    + intros x e i [[_ <-]|[_ ?]]%lookup_insert_Some; [done|by eapply P5].
    + by rewrite P6.
    + intros c x [[_ <-]|[_ ?]]%lookup_insert_Some; [done|by eapply P7].
Qed.

(** * Steps *)

(** What the input of Windows is on Linux: the listening socket is the one thread
    that accepts and then reads its pipe. *)
Definition linux_inputs (x : winput) : list input :=
  let a := wi_answers x in
  let fired := Fired (wi_ev x) (mkAnswers (an_now a) (linux_net enablessl (wi_errno x) (an_net a)) (an_ctx a) (an_ev a)) in
  if wi_ev x =? ev_listen then [Accepted (wi_accept x) true; fired] else [fired].

Definition fixed (w : winserver S) : Prop := w_ev_listen w = ev_listen /\ w_pMainBase w = base.

Definition walike (o : outcome (unit * winserver S)) (o' : outcome (unit * system S)) : Prop :=
  match o, o' with
  | Ok (_, w), Ok (_, s) => fixed w /\ exists f, like f (w_sys w) s
  | Fault e, Fault e' => e = e'
  | _, _ => False
  end.

Lemma on_sys_sim m w o : fixed w -> alike (m (w_sys w)) o -> walike (on_sys m w) o.
Proof.
  intros Hf Ha. unfold on_sys. destruct (m (w_sys w)) as [[[] u]|e], o as [[[] s]|e']; try done.
Qed.

Lemma run_one x (s : system S) : run_inputs enablessl [x] s = step enablessl x s.
Proof. cbn [run_inputs]. unfold sbind. by destruct (step enablessl x s) as [[[] s']|]. Qed.

Lemma pipe_takes t fd (s : system S) pCtx ev : 0 <= fd <= INT_MAX -> y_threads s = [t] -> th_pipe t = int_bytes fd ->
  pipe_event enablessl 0 pCtx ev s = connect_event enablessl fd (th_pBase t) pCtx ev
    (set_threads [mkThread (th_pBase t) (th_pNotifyEvt t) (th_pid t) (th_recvfd t) (th_sendfd t) []] s).
Proof.
  intros Hfd Ht Hp. unfold pipe_event. rewrite (sbind_ok sget) with (1 := eq_refl). rewrite Ht. cbn [lookup list_lookup].
  rewrite (sbind_ok (slift _) _ s (fd, mkThread (th_pBase t) (th_pNotifyEvt t) (th_pid t) (th_recvfd t) (th_sendfd t) []) s).
  - done.
  - unfold slift. by rewrite (pipe_head t fd [] Hfd) by (rewrite Hp; unfold pipe_text; cbn [fmap list_fmap concat]; by rewrite app_nil_r).
Qed.

(** The loop of the one thread, when the pipe is empty and when it has been given
    a connection. *)
Lemma linux_refused f u s connfd a : like f u s -> connfd < 0 -> run_inputs enablessl [Accepted connfd true; Fired ev_listen a] s = Ok (tt, s).
Proof.
  intros Hl Hn. destruct (lk_thread _ _ _ Hl) as (t & Ht & Hb & Hpipe). destruct (lk_events _ _ _ Hl) as [rfd Hevs].
  cbn [run_inputs]. rewrite (sbind_ok (step _ _) _ s tt s).
  2: { unfold step. rewrite (sbind_ok sget) with (1 := eq_refl). by rewrite (proj2 (Z.ltb_lt connfd 0)). }
  change (run_inputs enablessl [Fired ev_listen a] s = Ok (tt, s)). rewrite run_one. unfold step. rewrite (sbind_ok sget) with (1 := eq_refl).
  rewrite Hevs, lookup_insert_eq. cbn [ev_cb]. rewrite Ht. cbn. by rewrite Hpipe.
Qed.

Lemma linux_accept f g u s connfd a net : like f u s -> 0 <= connfd <= INT_MAX -> connfd ∉ y_open u -> fresh_addresses a u = true -> an_ev a <> ev_listen ->
  an_net a = g net ->
  exists u' s', give_answers net (set_open ({[connfd]} ∪ y_open u) u) = Ok (tt, u') /\ like g u' s' /\ y_ctxs u' = y_ctxs u /\
    run_inputs enablessl [Accepted connfd true; Fired ev_listen a] s = connect_event enablessl connfd base (an_ctx a) (an_ev a) s'.
Proof.
  intros Hl Hfd Ho Hfr Hne Hnet. destruct (lk_thread _ _ _ Hl) as (t & Ht & Hb & Hpipe). destruct (lk_events _ _ _ Hl) as [rfd Hevs].
  set (t1 := mkThread (th_pBase t) (th_pNotifyEvt t) (th_pid t) (th_recvfd t) (th_sendfd t) (int_bytes connfd)).
  set (s1 := set_threads [t1] (set_open ({[connfd]} ∪ y_open s) s)).
  assert (step enablessl (Accepted connfd true) s = Ok (tt, s1)) as E1.
  { unfold step. rewrite (sbind_ok sget) with (1 := eq_refl). rewrite (proj2 (Z.ltb_ge connfd 0)), (proj2 (Z.ltb_ge INT_MAX connfd)) by lia.
    rewrite bool_decide_false by (by rewrite (lk_open _ _ _ Hl)). cbn [orb]. rewrite (sbind_ok (smodify _)) with (1 := eq_refl).
    assert (DoAccept (y_num s) [(connfd, true)] (y_threads s) = Ok [t1]) as ->; [|done].
    unfold y_num. rewrite Ht. cbn [DoAccept]. rewrite (proj2 (Z.eqb_neq connfd (-1))) by lia. unfold PushTask. rewrite (proj2 (Z.ltb_ge connfd 0)) by lia.
    cbn [length]. change (Z.of_nat 1 =? 0) with false. cbv zeta iota. change (Z.of_nat 1) with 1. rewrite Z.rem_1_r.
    change (Z.to_nat 0) with 0%nat. cbn [lookup list_lookup obind]. by rewrite Hpipe. }
  set (u1 := set_open ({[connfd]} ∪ y_open u) u). set (l := mkLoop (l_server (y_loop u)) net (l_sent (y_loop u)) (l_ctxrefs (y_loop u)) (l_ssls (y_loop u))).
  set (s2 := set_loop (map_net g l) s1).
  exists (set_loop l u1), (set_threads [mkThread (th_pBase t) (th_pNotifyEvt t) (th_pid t) (th_recvfd t) (th_sendfd t) []] s2).
  split; [done|]. split.
  { destruct Hl as [P1 P2 P3 P4 P5 P6 P7 P8]. split; cbn; try done; [by eexists|by rewrite P8]. }
  split; [done|]. cbn [run_inputs]. rewrite (sbind_ok (step _ _) _ s tt s1) by exact E1.
  change (run_inputs enablessl [Fired ev_listen a] s1 = connect_event enablessl connfd base (an_ctx a) (an_ev a)
    (set_threads [mkThread (th_pBase t) (th_pNotifyEvt t) (th_pid t) (th_recvfd t) (th_sendfd t) []] s2)).
  rewrite run_one. unfold step. rewrite (sbind_ok sget) with (1 := eq_refl). change (y_events s1) with (y_events s). rewrite Hevs, lookup_insert_eq. cbn [ev_cb].
  rewrite bool_decide_false by done.
  assert (fresh_addresses a s1 = true) as ->.
  { rewrite <- Hfr. unfold fresh_addresses. change (y_ctxs s1) with (y_ctxs s). rewrite (like_ctxs _ _ _ Hl). f_equal.
    apply bool_decide_ext. change (y_events s1) with (y_events s). rewrite Hevs. by rewrite lookup_insert_ne. }
  cbn [orb negb]. rewrite (sbind_ok (give_answers _) _ s1 tt s2).
  - rewrite <- Hb. apply (pipe_takes t1 connfd s2); done.
  - unfold give_answers, smodify, s2. rewrite Hnet. change (y_loop s1) with (y_loop s). by rewrite (lk_loop _ _ _ Hl).
Qed.

Lemma accept_sim f x w s : fixed w -> like f (w_sys w) s -> wi_ev x = ev_listen ->
  exists b, (b = [] \/ b = linux_inputs x) /\ walike (AcceptCallBack enablessl x w) (run_inputs enablessl b s).
Proof.
  intros Hfx Hl Hev. pose proof Hfx as [Hwl Hwb]. unfold AcceptCallBack. rewrite (sbind_ok sget) with (1 := eq_refl).
  destruct (accept_possible x w) eqn:Hp; [|exists []; split; [by left|split; [done|by exists f]]].
  exists (linux_inputs x). split; [by right|]. unfold linux_inputs. rewrite Hev, Z.eqb_refl. cbv zeta.
  unfold accept_possible in Hp. apply andb_prop in Hp as [Hp Hne%negb_true_iff%Z.eqb_neq]. rewrite Hwl in Hne.
  apply andb_prop in Hp as [Hp Hfresh]. apply andb_prop in Hp as [Hm%Z.leb_le Ho%negb_true_iff%bool_decide_eq_false].
  set (a := mkAnswers _ _ _ _). destruct (0 <=? wi_accept x) eqn:Hs; [apply Z.leb_le in Hs|apply Z.leb_gt in Hs].
  - destruct (linux_accept f (linux_net enablessl (wi_errno x)) _ s (wi_accept x) a (an_net (wi_answers x)) Hl (conj Hs Hm) Ho) as (u' & s' & Eu & Hl' & Ec & ->); [exact Hfresh|exact Hne|done|].
    set (w1 := mkWin (set_open ({[wi_accept x]} ∪ y_open (w_sys w)) (w_sys w)) (w_pMainBase w) (w_listenerFd w) (w_ev_listen w) (w_exit w)).
    set (w2 := mkWin u' (w_pMainBase w) (w_listenerFd w) (w_ev_listen w) (w_exit w)).
    rewrite (sbind_ok (on_sys _) _ w tt w1) by done. rewrite (sbind_ok (on_sys _) _ w1 tt w2) by (unfold on_sys; cbn [w_sys w1]; by rewrite Eu).
    apply on_sys_sim; [done|]. rewrite Hwb. eapply connect_sim_linux; [exact Hl'|done| |done].
    change (y_ctxs u' !! an_ctx (wi_answers x) = None). rewrite Ec. apply andb_prop in Hfresh as [[_ Hc%bool_decide_eq_true]%andb_prop _]. exact Hc.
  - rewrite (linux_refused f (w_sys w)) by done. rewrite (sbind_ok (on_sys _) _ w tt w) by (by destruct w).
    destruct (like_answers f (fun _ => l_net (y_loop s)) (w_sys w) s (an_net (wi_answers x)) Hl) as (u' & s' & Eu & Es & Hl' & _).
    rewrite (sbind_ok (on_sys _) _ w tt (mkWin u' (w_pMainBase w) (w_listenerFd w) (w_ev_listen w) (w_exit w))) by (unfold on_sys; by rewrite Eu).
    unfold on_sys, win_OnAcceptCallback. rewrite (proj2 (Z.ltb_lt _ 0)) by done. split; [done|]. cbn. eexists.
    assert (s' = s) as ->; [|exact Hl']. unfold give_answers, smodify in Es. injection Es as <-. destruct s as [[] ? ? ? ?]. done.
Qed.

Lemma win_step_sim f x w s : fixed w -> like f (w_sys w) s ->
  exists b, (b = [] \/ b = linux_inputs x) /\ walike (win_step enablessl x w) (run_inputs enablessl b s).
Proof.
  intros Hfx Hl. unfold win_step. rewrite (sbind_ok sget) with (1 := eq_refl). cbv zeta. pose proof Hfx as [Hwl Hwb]. rewrite Hwl.
  destruct (wi_ev x =? ev_listen) eqn:Hev; [by eapply accept_sim; [..|apply Z.eqb_eq]|].
  destruct (y_events (w_sys w) !! wi_ev x) as [e|] eqn:He; [|exists []; split; [by left|split; [done|by exists f]]].
  exists (linux_inputs x). split; [by right|]. unfold linux_inputs. rewrite Hev, run_one. cbv zeta. apply Z.eqb_neq in Hev.
  unfold step. rewrite (sbind_ok sget) with (1 := eq_refl). destruct (lk_events _ _ _ Hl) as [rfd Hevs]. rewrite Hevs, lookup_insert_ne by done. rewrite He.
  destruct (ev_cb e) as [i| |c] eqn:Hcb; [by destruct (lk_nopipe _ _ _ Hl _ _ i He)| |]; cbn [an_net an_now].
  - apply on_sys_sim; [done|]. by eapply callback_sim; [apply Timeout_sim|].
  - destruct (like_answers f (linux_net enablessl (wi_errno x)) (w_sys w) s (an_net (wi_answers x)) Hl) as (u' & s' & Eu & Es & Hl' & _).
    set (w' := mkWin u' (w_pMainBase w) (w_listenerFd w) (w_ev_listen w) (w_exit w)).
    rewrite (sbind_ok (on_sys _) _ w tt w') by (unfold on_sys; by rewrite Eu). run Es.
    apply on_sys_sim; [done|]. eapply callback_sim; [apply EventCallBack_sim|exact Hl'].
Qed.

Lemma run_inputs_app b1 b2 (s : system S) : run_inputs enablessl (b1 ++ b2) s = (let! (_, s') := run_inputs enablessl b1 s in run_inputs enablessl b2 s').
Proof.
  revert s. induction b1 as [|x b1 IH]; intros s; [done|]. cbn [app run_inputs]. unfold sbind. destruct (step enablessl x s) as [[[] s1]|]; [apply IH|done].
Qed.

Lemma win_run_sim xs : forall f w s, fixed w -> like f (w_sys w) s ->
  exists bs, Forall2 (fun x b => b = [] \/ b = linux_inputs x) xs bs /\ walike (win_run enablessl xs w) (run_inputs enablessl (concat bs) s).
Proof.
  induction xs as [|x xs IH]; intros f w s Hfx Hl; [exists []; split; [constructor|split; [done|by exists f]]|].
  destruct (win_step_sim f x w s Hfx Hl) as (b & Hb & Ha). cbn [win_run]. unfold sbind.
  destruct (win_step enablessl x w) as [[[] w1]|e] eqn:E, (run_inputs enablessl b s) as [[[] s1]|e'] eqn:E'; try done.
  - destruct Ha as [Hfx1 [f1 Hl1]]. destruct (IH f1 w1 s1 Hfx1 Hl1) as (bs & Hbs & Ha). exists (b :: bs). split; [by constructor|].
    cbn [concat]. rewrite run_inputs_app, E'. done.
  - exists (b :: map linux_inputs xs). split; [constructor; [done|]; clear; induction xs; cbn; constructor; auto|].
    cbn [concat]. by rewrite run_inputs_app, E'.
Qed.
End simulation.

(** C12: The server on Windows does what that on Linux does with one thread.  For
    every run on Windows, whatever the clients, OpenSSL and [errno] do, there is a
    run on Linux of the same callbacks, in which the thread accepts a connection and
    reads its pipe where the listening socket accepts one; the two end with the same
    contexts and handlers, the same events of connections and of the timer, the
    same bytes sent and the same sockets closed and open, or fail in the same way. *)
Theorem windows_refines_linux {S} `{ObjectPool S} enablessl (pool : S) base ev_listen evtime listener recvfd sendfd pid w0 xs :
  ev_listen <> evtime ->
  OnWindowsStart base ev_listen evtime (mkWin (mkSystem (mkLoop (mkServer pool ∅ ∅ false ∅ []) [] [] 0 0) [] ∅ ∅ ∅) 0 listener 0 None) = Ok w0 ->
  exists s0 bs, start pool 1 [mkNew 0 recvfd sendfd base] [pid] [(ev_listen, evtime)] = Ok s0 /\
    Forall2 (fun x b => b = [] \/ b = linux_inputs enablessl ev_listen x) xs bs /\
    walike ev_listen base (win_run enablessl xs w0) (run_inputs enablessl (concat bs) s0).
Proof.
  intros Hne. unfold OnWindowsStart. destruct (_ || _) eqn:Hg; [done|]. intros [= <-]. cbn [w_listenerFd w_exit w_sys].
  apply orb_false_iff in Hg as [[Hb Hl]%orb_false_iff Ht].
  set (s0 := mkSystem (mkLoop (mkServer pool ∅ ∅ false ∅ []) [] [] 0 0) [mkThread base None (Some pid) recvfd sendfd []]
    (<[evtime := mkEv base (-1) CbTimer]> (<[ev_listen := mkEv base recvfd (CbPipe 0)]> ∅)) ∅ ∅).
  exists s0. edestruct (win_run_sim enablessl ev_listen base xs id) as (bs & Hbs & Ha); [|..|exists bs; split_and!; [|exact Hbs|exact Ha]]; [done| |].
  - split; cbn; try done.
    + by eexists.
    + exists recvfd. by apply insert_insert_ne.
    + by rewrite lookup_insert_ne.
    + intros ev e i [[_ <-]|[_ ?]]%lookup_insert_Some; done.
  - unfold start. assert (LibEvInit 1 [mkNew 0 recvfd sendfd base] = Ok [mkThread base None None recvfd sendfd []]) as ->
      by (unfold LibEvInit; change (Z.to_nat 1) with 1%nat; cbn [threads_loop nt_base]; by rewrite Hb).
    cbn [obind OnStart start_loop]. by rewrite Hl, Ht.
Qed.

(** The state on Windows has nothing that is not accounted for. *)
Lemma windows_accounted {S} `{ObjectPool S} enablessl E0 lost ev_listen base (w : winserver S) s f :
  system_ok enablessl E0 lost s -> like ev_listen base f (w_sys w) s ->
  forall c x, y_ctxs (w_sys w) !! c = Some x -> exists ev, y_pEvent (w_sys w) !! c = Some ev /\
    y_events (w_sys w) !! ev = Some (mkEv base (ctx_sock x) (CbConnection c)) /\ ctx_sock x ∈ y_open (w_sys w).
Proof.
  intros (_ & _ & qs & Ha) Hl c x Hc. rewrite <- (like_ctxs _ _ _ _ _ Hl) in Hc. destruct (sa_ctx _ _ _ _ _ _ Ha c x Hc) as (ev & t & Hp & Ht & He & _).
  destruct (lk_thread _ _ _ _ _ Hl) as (t0 & Hts & Hb & _). destruct (lk_events _ _ _ _ _ Hl) as [rfd Hev]. rewrite (lk_pEvent _ _ _ _ _ Hl) in Hp.
  exists ev. rewrite Hev, lookup_insert_ne in He by (intros E; by apply (lk_other _ _ _ _ _ Hl c ev Hp)).
  unfold y_num in Ht. rewrite Hts in Ht. change (zlen [t0]) with 1 in Ht. rewrite Z.rem_1_r in Ht. injection Ht as <-. rewrite Hb in He.
  split_and!; [done|done|]. rewrite <- (lk_open _ _ _ _ _ Hl). by eapply (sa_open_ctx _ _ _ _ _ _ Ha).
Qed.

(** When the dispatch has returned, [OnStop] asks the base that is gone to stop. *)
Lemma stop_after_end {S} (w : winserver S) : w_exit (win_OnStop true (OnWindowsStart_end w)) = Some 0.
Proof. done. Qed.

(** * A client that waits *)


(** * Witnesses *)

Definition win_inputs : list winput :=
  [mkWinput 301 20 0 (mkAnswers 5 [] 64 201); mkWinput 301 (-1) 0 (mkAnswers 5 [] 65 202); mkWinput 301 21 0 (mkAnswers 6 [] 65 202);
   mkWinput 201 0 0 (mkAnswers 7 [piece []] 0 1); mkWinput 302 0 0 (mkAnswers 8 [] 0 1)].
Definition win_empty : winserver Z := mkWin (mkSystem (mkLoop (mkServer 0 ∅ ∅ false ∅ []) [] [] 0 0) [] ∅ ∅ ∅) 0 9 0 None.
Definition win_demo : winserver Z := match OnWindowsStart 1 301 302 win_empty with Ok w => w | Fault _ => win_empty end.

Example win_demo_state :
  (let! (_, w) := win_run false win_inputs win_demo in
   Ok (map_to_list (y_ctxs (w_sys w)), y_open (w_sys w), v_closed (l_server (y_loop (w_sys w))))) = Ok ([(65, mkCtx 21 false)], {[21]}, [20]).
Proof. vm_compute. reflexivity. Qed.

Lemma windows_refines_linux_witness :
  exists s0 bs, start 0 1 [mkNew 0 10 11 1] [7] [(301, 302)] = Ok s0 /\
    Forall2 (fun x b => b = [] \/ b = linux_inputs false 301 x) win_inputs bs /\
    walike 301 1 (win_run false win_inputs win_demo) (run_inputs false (concat bs) s0).
Proof. apply (windows_refines_linux false 0 1 301 302 9 10 11 7 win_demo win_inputs); [lia|vm_compute; reflexivity]. Defined.

Definition win_waiting : loop Z :=
  mkLoop (set_ctxs {[64 := mkCtx 20 false]} [] (mkServer 0 ∅ ∅ false ∅ [])) ((piece <$> [take 3 demo_text; drop 3 demo_text]) ++ mkNet (-1) 0 [] :: [mkNet 1000 0 []]) [] 0 0.

