(* ===== verification/SslClient.v ===== *)
(** The SSL test client (SSLTestC/TestMain.cpp), and what the server answers to it.

    The calls of OpenSSL and of the kernel are answered as they like, and the errors
    that OpenSSL has queued are what they like; what the program prints on its
    standard output is left out. *)

From stdpp Require Import base tactics sets list numbers strings gmap.
From S2P Require Import Prelude StateMonad Machine Printf Text Http HttpSpec Request RequestSpec RequestProps Connection ConnectionSpec Server ServerSpec ServerService.

Local Open Scope Z_scope.

(** * The program *)

Definition SERVER_PORT : Z := 8080.
Definition SERVER_IP : list char := lit "127.0.0.1".
Definition CLIENT_TEXT : list char := LF :: lit "this is from client+++++++++++++++client send to server".
Definition CLIENT_BUFFER : Z := 1024.

(** The results of [SSL_CTX_new], [SSL_CTX_load_verify_locations],
    [SSL_CTX_use_certificate_file], [socket], [connect], [SSL_new], [SSL_connect] and
    [SSL_read], the last with the data; and the lines that [ERR_print_errors_fp]
    prints when one of them has failed. *)
Record clientsys := mkClientSys {
  k_ctx : Z; k_verify : Z; k_cert : Z; k_fd : Z; k_connect : Z; k_ssl : Z; k_handshake : Z; k_read : Z; k_data : list char;
  k_errors : list (list char)
}.

(** The end of the program: its result, the address it has asked for, what it has
    written to the session and to its standard error, and what it still holds:
    contexts, sessions and sockets. *)
Record clientend := mkClientEnd {
  k_ret : Z; k_target : option (list char * Z); k_written : list (list char); k_stderr : list (list char);
  k_ctxs : Z; k_ssls : Z; k_open : list Z
}.

(** [SSL_read] into the buffer that [memset] has cleared, and the line with its
    text. *)
Definition client_reads (nLen : Z) (data : list char) : outcome (list char) :=
  let! szBuffer := mem_write (repeat 0 (Z.to_nat CLIENT_BUFFER)) 0 (take (Z.to_nat (Z.min nLen CLIENT_BUFFER)) data) in
  let! text := to_string szBuffer in
  Ok (lit "Get Len " ++ dec_signed nLen ++ lit " " ++ text ++ lit " ok" ++ [LF]).

(** [ERR_print_errors_fp(stderr)] and [return -1], with what is not released. *)
Definition client_fails (sys : clientsys) (target : option (list char * Z)) (ctxs ssls : Z) (fds : list Z) : outcome clientend :=
  Ok (mkClientEnd (-1) target [] (k_errors sys) ctxs ssls fds).

Definition ssl_client_main (argv1 : option (list char)) (sys : clientsys) : outcome clientend :=
  let target := (default SERVER_IP argv1, SERVER_PORT) in
  if k_ctx sys =? 0 then client_fails sys None 0 0 []
  else if k_verify sys =? 0 then client_fails sys None 1 0 []
  else if k_cert sys <=? 0 then client_fails sys None 1 0 []
  else if k_connect sys <? 0 then client_fails sys (Some target) 1 0 [k_fd sys]
  else if k_ssl sys =? 0 then client_fails sys (Some target) 1 0 [k_fd sys]
  else if negb (k_handshake sys =? 1) then client_fails sys (Some target) 1 1 [k_fd sys]
  else
    let! line := client_reads (k_read sys) (k_data sys) in
    Ok (mkClientEnd 0 (Some target) [CLIENT_TEXT] [line] 0 0 []).

(** * The client *)

(** The session of the client comes about. *)
Definition session_ok (sys : clientsys) : Prop :=
  k_ctx sys <> 0 /\ k_verify sys <> 0 /\ 0 < k_cert sys /\ 0 <= k_connect sys /\ k_ssl sys <> 0 /\ k_handshake sys = 1.

(** Without one, the client prints the errors and keeps what it has. *)
Lemma client_without_session argv1 sys : ~ session_ok sys -> exists target ctxs ssls fds,
  ssl_client_main argv1 sys = Ok (mkClientEnd (-1) target [] (k_errors sys) ctxs ssls fds).
Proof.
  intros Hs. unfold ssl_client_main, client_fails. destruct (Z.eqb_spec (k_ctx sys) 0); [by eauto|]. destruct (Z.eqb_spec (k_verify sys) 0); [by eauto|].
  destruct (Z.leb_spec (k_cert sys) 0); [by eauto|]. destruct (Z.ltb_spec (k_connect sys) 0); [by eauto 6|].
  destruct (Z.eqb_spec (k_ssl sys) 0); [by eauto 6|]. destruct (Z.eqb_spec (k_handshake sys) 1); [|by eauto 6]. by destruct Hs.
Qed.

(** Data at the start of a buffer of zeros. *)
Lemma clear_write n d : (length d <= n)%nat -> mem_write (repeat 0 n) 0 d = Ok (d ++ repeat 0 (n - length d)).
Proof.
  intros Hl. rewrite mem_write_ok by (rewrite ?repeat_length; lia). change (Z.to_nat 0) with 0%nat. rewrite take_0. cbn [app Nat.add]. do 2 f_equal.
  replace n with (length d + (n - length d))%nat at 1 by lia. rewrite repeat_app. apply drop_app_length'. by rewrite repeat_length.
Qed.

Lemma client_reads_ok reply : Forall (fun c => c <> NUL) reply -> zlen reply < CLIENT_BUFFER ->
  client_reads (zlen reply) reply = Ok (lit "Get Len " ++ dec_signed (zlen reply) ++ lit " " ++ reply ++ lit " ok" ++ [LF]).
Proof.
  intros Hc Hl. unfold client_reads. rewrite take_ge by lia. rewrite clear_write by lia. cbn [obind]. rewrite to_string_text by (done || lia). done.
Qed.

(** A reply that fills the buffer is printed past its end. *)
Lemma client_overread reply : NUL ∉ reply -> zlen reply = CLIENT_BUFFER -> client_reads (zlen reply) reply = Fault OutOfBounds.
Proof.
  intros Hc Hl. unfold client_reads. rewrite take_ge by lia. rewrite clear_write by lia. cbn [obind].
  replace (Z.to_nat CLIENT_BUFFER - length reply)%nat with 0%nat by lia. cbn [repeat]. rewrite app_nil_r.
  unfold to_string. by rewrite strlen_past by (apply Forall_forall; intros y Hy ->; done).
Qed.

Lemma client_ends argv1 sys reply : session_ok sys -> k_read sys = zlen reply -> k_data sys = reply ->
  Forall (fun c => c <> NUL) reply -> zlen reply < CLIENT_BUFFER ->
  ssl_client_main argv1 sys = Ok (mkClientEnd 0 (Some (default SERVER_IP argv1, SERVER_PORT)) [CLIENT_TEXT]
    [lit "Get Len " ++ dec_signed (zlen reply) ++ lit " " ++ reply ++ lit " ok" ++ [LF]] 0 0 []).
Proof.
  intros (H1 & H2 & H3 & H4 & H5 & H6) Er Ed Hc Hl. unfold ssl_client_main. rewrite (proj2 (Z.eqb_neq _ 0) H1), (proj2 (Z.eqb_neq _ 0) H2).
  rewrite (proj2 (Z.leb_gt _ 0) H3), (proj2 (Z.ltb_ge _ 0) H4), (proj2 (Z.eqb_neq _ 0) H5), H6, Er, Ed. cbn [negb Z.eqb Pos.eqb].
  by rewrite client_reads_ok.
Qed.

(** * The server *)

(** Data without a line end are taken as the body of a request, less their first
    character, and a body without a length is an error. *)
Lemma CheckData_unended now l pev : CR ∉ l -> 1 < zlen l <= INT_MAX ->
  CheckData now l (new_CReqHandlerObj pev) = Ok (DATA_ERROR, mkObj [] (Some now) (Some (set_content (tail l) fresh_parse)) pev).
Proof.
  intros Hl Hlen. unfold CheckData. rewrite (sbind_ok sget) with (1 := eq_refl). cbn [m_requestStr new_CReqHandlerObj app m_pHttpParse m_pArg].
  assert (new_CHttpParse (fresh_parse, l) = Ok ([request_error], (set_content (tail l) fresh_parse, []))) as ->.
  { unfold new_CHttpParse. rewrite (sbind_ok sget) with (1 := eq_refl). rewrite (sbind_ok (sput _)) with (1 := eq_refl). apply (parse_request0_ok _ _ (-1) []).
    cbn [lines_loop]. rewrite (sbind_ok sget) with (1 := eq_refl). cbn [m_bHeaderDown fresh_parse]. fold fresh_parse.
    pose proof (get_line_unended fresh_parse l Hl ltac:(lia)) as E. destruct l as [|c l]; [cbn in Hlen; lia|]. by run E. }
  unfold slift, sbind, sput, sret. cbn [set_content m_content m_content_lenght fresh_parse]. change (size_t 0) with 0.
  destruct l as [|c l]; [cbn in Hlen; lia|]. cbn [tail length] in *. rewrite (proj2 (Z.eqb_neq _ 0)), (proj2 (Z.ltb_ge _ 0)) by lia. done.
Qed.

Lemma ssl_recv_once d v e rest net : 0 < zlen d < BUFFER_SIZE -> e <> SSL_ERROR_NONE ->
  SslRecv (mkNet (zlen d) SSL_ERROR_NONE d :: mkNet v e rest :: net) (repeat 0 (Z.to_nat BUFFER_SIZE)) BUFFER_SIZE =
  Ok (zlen d, d ++ repeat 0 (Z.to_nat BUFFER_SIZE - length d), net).
Proof.
  intros Hd He. unfold SslRecv. cbn [ssl_recv_loop nr_err]. change (SSL_ERROR_NONE =? SSL_ERROR_NONE) with true. cbv zeta iota.
  unfold received. cbn [nr_val nr_data]. rewrite Z.min_l, Nat2Z.id, take_ge by lia. rewrite (proj2 (Z.ltb_lt 0 _)) by lia.
  rewrite clear_write by lia. cbn [obind]. rewrite Z.add_0_l, (proj2 (Z.leb_gt BUFFER_SIZE _)) by lia.
  by rewrite (proj2 (Z.eqb_neq e _)).
Qed.

(** A reply in one piece; the loop ends when OpenSSL refuses to write nothing. *)
Lemma ssl_send_once reply a b net : 0 < zlen reply -> nr_err a = SSL_ERROR_NONE -> zlen reply <= nr_val a ->
  nr_err b <> SSL_ERROR_NONE -> nr_err b <> SSL_ERROR_WANT_READ ->
  SslSend (a :: b :: net) reply (zlen reply) = Ok (mkSending (zlen reply) reply [zlen reply; 0], net).
Proof.
  intros Hr Ha Hv Hb Hb'. unfold SslSend. cbn [ssl_send_loop sn_count sn_calls sn_bytes app]. rewrite Ha, Z.sub_0_r, (Z.min_r (nr_val a) (zlen reply)) by lia. cbv zeta.
  change (SSL_ERROR_NONE =? SSL_ERROR_NONE) with true. cbv iota. rewrite (proj2 (Z.ltb_lt 0 _)) by lia.
  rewrite mem_read_ok by lia. cbn [obind]. change (Z.to_nat 0) with 0%nat. rewrite drop_0, Nat2Z.id, take_ge, (proj2 (Z.leb_gt _ 0)) by lia.
  rewrite (proj2 (Z.eqb_neq _ _) Hb), (proj2 (Z.eqb_neq _ _) Hb'). rewrite Z.add_0_l, Z.sub_diag. done.
Qed.

(** C35: The SSL test client does not speak HTTP, and the server tells it so.  The
    text that the client writes has no line end: when it arrives in one record, the
    server answers with the error, keeps the connection and no handler; and the
    client that reads this answer prints it, releases its session, its context and
    its socket, and succeeds. *)
Theorem ssl_client_refused {S} `{ObjectPoolLaws S} n (l : loop S) fd c x now v d a b net argv1 sys :
  calm (Datatypes.S n) (l_server l) -> v_ctxs (l_server l) !! c = Some x -> c <> 0 -> session_ok sys ->
  l_net l = mkNet (zlen CLIENT_TEXT) SSL_ERROR_NONE CLIENT_TEXT :: mkNet v SSL_ERROR_WANT_READ d :: a :: b :: net ->
  nr_err a = SSL_ERROR_NONE -> 5 <= nr_val a -> nr_err b <> SSL_ERROR_NONE -> nr_err b <> SSL_ERROR_WANT_READ ->
  exists w reply, EventCallBack true fd c now l = Ok (tt, mkLoop w net (l_sent l ++ [(fd, reply)]) (l_ctxrefs l) (l_ssls l)) /\
    calm n w /\ same_ctxs (l_server l) w /\
    (k_read sys = zlen reply -> k_data sys = reply ->
     ssl_client_main argv1 sys = Ok (mkClientEnd 0 (Some (default SERVER_IP argv1, SERVER_PORT)) [CLIENT_TEXT] [lit "Get Len 5 ERROR ok" ++ [LF]] 0 0 [])).
Proof.
  intros [Hi Hlk Hmap] Hx Hc Hses Hnet Ha Hv Hb Hb'. assert (Forall (fun c => c <> NUL) CLIENT_TEXT) as Hclean by (apply (bool_decide_unpack _); by vm_compute).
  assert (CR ∉ CLIENT_TEXT) as Hcr by (apply (bool_decide_unpack _); by vm_compute).
  unfold EventCallBack. rewrite (proj2 (Z.eqb_neq c 0)) by done. run (get_ctx_ok c x l Hx). cbv zeta.
  set (l1 := mkLoop (l_server l) (a :: b :: net) (l_sent l) (l_ctxrefs l) (l_ssls l)).
  rewrite (sbind_ok (on_net _) _ l (zlen CLIENT_TEXT, CLIENT_TEXT ++ repeat 0 (Z.to_nat BUFFER_SIZE - length CLIENT_TEXT)) l1).
  2: { unfold on_net. rewrite Hnet. by rewrite ssl_recv_once. }
  cbv beta iota. change (zlen CLIENT_TEXT <=? 0) with false. cbv iota.
  rewrite (sbind_ok (slift _) _ l1 CLIENT_TEXT l1) by (unfold slift; rewrite to_string_text; [done|done|by vm_compute; lia]).
  pose proof (CheckData_unended now CLIENT_TEXT c Hcr ltac:(by vm_compute)) as Hcd.
  destruct (HandleRequest_new n 0 (l_server l) c now CLIENT_TEXT (lit "ERROR") x _ _ Hi Hlk Hx ltac:(by rewrite Hmap) Hcd) as (r & w & E & Hres); [by eexists|by do 2 right|].
  destruct (HandleRequest_inv n 0 (l_server l) c now CLIENT_TEXT (lit "ERROR") x Hi Hlk Hx ltac:(done)) as [[_ Ef]|(r' & w' & E' & Hi' & Hl')]; [by vm_compute|congruence|].
  assert (w' = w) as -> by congruence.
  assert ((r.1 <> DATA_DEF /\ r.2 = lit "ERROR") /\ m_ReqHandlerMap w = ∅) as [[Hr1 Hr2] Hm].
  { rewrite <- Hmap. by destruct Hres as [(_ & -> & [_ ->])|[(_ & ? & _)|[(_ & _ & -> & [_ ->])|(_ & ? & _)]]]. }
  rewrite (sbind_ok (on_server _) _ l1 r (mkLoop w (a :: b :: net) (l_sent l) (l_ctxrefs l) (l_ssls l))) by (unfold on_server; cbn [l_server l1]; by rewrite E).
  destruct r as [iret reply]. cbn [fst snd] in *. subst reply. rewrite (proj2 (Z.eqb_neq iret DATA_DEF)) by done. cbn [negb].
  rewrite (sbind_ok (on_net _) _ _ (mkSending 5 (lit "ERROR") [5; 0]) (mkLoop w net (l_sent l) (l_ctxrefs l) (l_ssls l))).
  2: { unfold on_net. cbn [l_net]. by rewrite (ssl_send_once (lit "ERROR") a b net). }
  exists w, (lit "ERROR"). split; [done|]. split; [split; [by eapply calm_any|done|done]|]. split; [exact (frames_HandleRequest same_ctxs _ _ _ _ _ _ _ E)|].
  intros Er Ed. rewrite (client_ends argv1 sys (lit "ERROR")); [done|done|done|done| |done]. apply (bool_decide_unpack _). by vm_compute.
Qed.

Definition client_loop : loop Z :=
  mkLoop (set_ctxs {[64 := mkCtx 20 true]} [] (mkServer 0 ∅ ∅ false ∅ []))
    [mkNet (zlen CLIENT_TEXT) SSL_ERROR_NONE CLIENT_TEXT; mkNet (-1) SSL_ERROR_WANT_READ []; mkNet 5 SSL_ERROR_NONE []; mkNet (-1) 5 []] [] 1 1.

Lemma ssl_client_refused_witness :
  exists w reply, EventCallBack true 20 64 5 client_loop = Ok (tt, mkLoop w [] ([] ++ [(20, reply)]) 1 1) /\
    calm 0 w /\ same_ctxs (l_server client_loop) w /\
    (5 = zlen reply -> lit "ERROR" = reply ->
     ssl_client_main None (mkClientSys 1 1 1 3 0 1 1 5 (lit "ERROR") []) =
       Ok (mkClientEnd 0 (Some (SERVER_IP, SERVER_PORT)) [CLIENT_TEXT] [lit "Get Len 5 ERROR ok" ++ [LF]] 0 0 [])).
Proof.
  apply (ssl_client_refused 0 client_loop 20 64 (mkCtx 20 true) 5 (-1) [] (mkNet 5 SSL_ERROR_NONE []) (mkNet (-1) 5 []) [] None (mkClientSys 1 1 1 3 0 1 1 5 (lit "ERROR") [])); try done.
  by apply calm_one.
Defined.
